(* ===== verification/_CoqProject ===== *)
-Q . S2P
Prelude.v
Crc.v
Siphash.v
Bitstream.v
Digits.v
Window.v
Check.v
NvBlock.v
Product.v
DesktopProduct.v
Nv.v
KeycodeState.v
KeycodeWindow.v
KeycodeInfer.v
KeycodeEffects.v
KeycodeFull.v
KeycodeFullApply.v
KeycodeFullParse.v
KeycodeFullTotal.v
KeycodeExtended.v
KeycodeExtendedApply.v
KeycodeSmall.v
KeycodeSmallApply.v
KeycodeSmallTotal.v
KeycodeMas.v
KeycodeMasSpec.v
KeycodeMasProcess.v
KeycodeMasRun.v
KeycodeCore.v
KeycodeFixes.v
KeycodeSystem.v
KeycodeUnit.v
KeycodeWitnesses.v
SmallWitnesses.v
Channel.v
ChannelEndpoint.v
ChannelOm.v
ChannelOmApply.v
ChannelOmRun.v
ChannelLm.v
ChannelLmSpec.v
ChannelLmProcess.v
ChannelLmTable.v
ChannelLmCreate.v
ChannelLmRun.v
ChannelHs.v
ChannelHsServer.v
ChannelHsClient.v
ChannelHsRun.v
ChannelCore.v
Cbor.v
CborSafe.v
CborEncoder.v
CborParse.v
ChannelCose.v
ChannelCoseSpec.v
ChannelCoseRun.v
ChannelSm.v
ChannelSmSpec.v
ChannelSmRun.v
ChannelSmAgree.v
Coap.v
CoapSpec.v
CoapParse.v
CoapRun.v
CoapTransactions.v
CoapSteps.v
CoapReach.v
CoapEngine.v
CoapDelivery.v
ChannelPayg.v
ChannelPaygRing.v
ChannelPaygSpec.v
ChannelPaygRun.v
ChannelPaygCycle.v
ChannelUnit.v
ChannelWitnesses.v
ChannelSmWitnesses.v
ChannelPaygWitnesses.v
CoapWitnesses.v
