(* ===== verification/Prelude.v ===== *)
(** * Nexus embedded firmware: a verified model

    The library under nexus/ of the repository lets a device be paid for in
    instalments.  Nexus Keycode turns keys typed on a keypad into PAYG credit;
    Nexus Channel links controllers and accessories over CoAP, started by
    origin commands that are digits too.  Both run on a product, which stores
    nonvolatile (NV) blocks, keeps the credit and the keys, and calls the
    library.

    ** The parts, bottom up

    - Prelude (this file): machine integers, arrays, the state and failure
      monad [M], loops with a bound.
    - Crc, Siphash (utils/crc_ccitt.c, utils/siphash_24.c); Bitstream, Digits,
      Window, Check (src/nexus_util.c, src/nexus_security.c): the bit and digit
      cursors, the windows of received IDs, checks and pseudorandom bytes.
    - NvBlock, Nv (src/nexus_nv.c): the layout and integrity of an NV block,
      reading and updating.
    - Product (include/nxp_common.h, include/nxp_keycode.h): class [Product],
      the functions a product implements, with [ProductLaws] and [ReliableNv]
      for what the headers promise of them; DesktopProduct
      (examples/desktop_sample_program) is an instance and proves the laws.
    - KeycodeState, KeycodeWindow, KeycodeInfer (src/nexus_keycode_pro.c):
      configuration, stored state, message ID window, QC counters, flags.
    - KeycodeFull..., KeycodeSmall..., KeycodeExtended...
      (src/nexus_keycode_pro.c, src/nexus_keycode_pro_extended.c): the two
      keypad protocols and the extended messages, each in a file of the code's
      functions and files of theorems on parsing, applying and whole keycodes.
    - KeycodeMas... (src/nexus_keycode_mas.c): assembly of keys into frames,
      timeouts, rate limiting.  Class [MasEnv] is the protocol it hands frames
      to; its theorems hold for every instance.
    - KeycodeCore, KeycodeSystem, KeycodeUnit (src/nexus_keycode_core.c,
      src/nexus_common_internal.c): the instance of [MasEnv], the entry points,
      and the library as a product sees it.
    - Channel, ChannelEndpoint (src/internal_channel_config.h,
      include/nxp_channel.h, src/nexus_oc_wrapper.c): shared data, class
      [ChannelProduct] for the product's part, Nexus IDs as addresses; class
      [OcStack] for the calls of the vendored CoAP stack.
    - ChannelOm... (src/nexus_channel_om.c): origin commands.  Class [OmEnv] is
      the state around the origin manager and the core that carries commands
      out.
    - ChannelLm... (src/nexus_channel_res_lm.c): the table of links.
    - ChannelHs... (src/nexus_channel_res_link_hs.c): the link handshake, both
      sides, on top of the link manager.
    - ChannelCore (src/nexus_channel_core.c): the instance of [OmEnv].
    - Cbor, CborSafe, CborEncoder, CborParse (oc/deps/tinycbor): the part of the
      CBOR parser and encoder that the library uses; parsing stays inside its
      buffer, encoding writes the bytes it should, and the one reads what the
      other wrote.
    - ChannelCose... (src/nexus_cose_mac0_common.c, _sign.c, _verify.c): COSE
      MAC0 messages, signed and verified.
    - ChannelSm... (src/nexus_channel_sm.c, and from oc/messaging/coap/engine.c,
      oc/api/oc_client_api.c, src/nexus_oc_wrapper.c the functions that secure,
      sync and resend): the security manager on top of the link manager.
    - ChannelPayg... (src/nexus_channel_res_payg_credit.c, and the requests of
      src/nexus_oc_wrapper.c it makes): the PAYG credit resource on top of the
      link manager.  Classes [CreditProduct] and [CreditStack] are the product's
      credit over the channel and the stack that sends the requests.
    - ChannelUnit (src/nexus_channel_core.c): init, process and the reset of an accessory, on all the modules together.
    - Coap, CoapSpec, CoapParse, CoapRun (oc/messaging/coap/coap.c): CoAP
      messages.  Parsing works in the array of the message, where it joins the
      parts of a path; the specification reads the options off the bytes first.
    - CoapTransactions, CoapSteps, CoapReach (oc/messaging/coap/transactions.c,
      oc/api/oc_buffer.c, oc/util/oc_memb.c, oc_process.c, oc_etimer.c): the
      buffers of outgoing messages with their counts, the transactions that
      keep them and the events that send them, as steps of a state.
    - CoapEngine, CoapDelivery (oc/api/oc_client_api.c, oc/messaging/coap/engine.c):
      requests of a client, and what the engine does with a message that arrives,
      on top of the security manager.
    - KeycodeWitnesses, SmallWitnesses, ChannelWitnesses, ChannelSmWitnesses,
      ChannelPaygWitnesses, CoapWitnesses: every property with hypotheses at a
      concrete input.

    A file named after a component holds its state as records, its data, and
    one definition per function of the C file, under the C name; a body of a
    loop is a definition of its own.  The files after it hold its
    specification and theorems.

    ** How C is modelled

    Integers are [Z], wrapped by [u8], [u16], [u32], [u64] where the code
    stores them.  Arrays are lists; reading or writing outside one is [None],
    and so is every other failure of [M], so a theorem that a call returns also
    says that it stays inside its arrays.  Structures saved in NV have their
    bytes.  A loop is [for_loop] or a recursion with fuel: the trip count of
    the code, or for searches a bound the theorems show to suffice (an ID
    search makes at most as many turns as the window is wide).  Local arrays
    the code leaves uninitialised are arguments named [garbage].  Asserts are
    compiled out, as in a release build, except in the files on CBOR, COSE and
    the security manager: there, what a received message can do to an assert
    matters, and [run] tells a failed assert ([Aborted]) from an access outside
    an array ([Stuck]).  The nesting of CBOR is bounded by the code's own limit;
    the fuel of its string loop is the size of the message, and every chunk
    moves on by a byte at least.  The host is little-endian.  Every
    state is explicit, passed through [M]; [zoom] runs a module on its part of
    a larger state.  Callbacks into the product and the stack are methods of
    the classes above.

    ** What the theorems show

    - Delivery: a secured request comes to the server's resources as the client
      made it, through serialization, the network, parsing and authentication;
      whatever bytes arrive, a request for a secured method comes to the
      resources only under an unused nonce and the key of the sender's link.
    - Equivalence with a reference: the CRC is division by its polynomial, the
      unrolled SipHash is SipHash-2-4, a complete keycode is its keys one by
      one, both ends of a handshake derive the same key.
    - Refinement: windows are sets of IDs; the keypad is an abstract machine; an
      accessory that follows a controller is a cell of credit with a countdown.
    - Round trips: the digits of a keycode or an origin command are parsed
      back to the message and have its effect; NV blocks; addresses; a CoAP message
      gives its packet back; a signed COSE message verifies and gives its nonce and payload back.
    - Functional behaviour of each message type, with the credit, the used IDs
      and the feedback after it.
    - Safety: no message ID, command ID or handshake index is accepted twice
      over any sequence of calls; no nonce is reused after a restart; a request
      accepted as secured was made with the key of its sender's link, and is
      accepted once unless the nonces are reset.
    - Liveness: a secured request of a linked client is accepted, and a client
      that has fallen behind is brought back by a nonce sync; a controller sends
      its credit to every accessory in turn, within a bounded time.
    - Invariants of the keycode library, of the link table with its copy in
      NV, and of the handshake state, kept by every call; of all channel modules
      together, from their start on; of the counts of CoAP buffers.
    - Errors and bounds: unauthentic messages change nothing; damage to NV is
      detected; the rate limit bounds the frames handed on; which commands
      make the code leave its arrays; how the buffers and transactions of the
      CoAP layer are lost for good.
    Hypotheses of the form [om_room], [hs_room] or on indices say that a
    counter is not within a window's width of the end of its range.

    ** Not modelled

    Of the OCF stack under nexus/oc (IoTivity, bundled with the library) the
    tables of resources and client callbacks (oc_ri.c), the representation of
    payloads (oc_rep.c) and the core resources, which are parameters, and of
    tinycbor what the library does not use; the registration of resources; the terminal and network of the sample program;
    firmware examples.  The keycode entry points are those of a build without
    Nexus Channel. *)

From stdpp Require Export prelude list.
From Stdlib Require Export ZArith Lia.

#[export] Set Default Goal Selector "!".
#[global] Ltac Zify.zify_post_hook ::= Z.div_mod_to_equations.
Local Open Scope Z_scope.

#[global] Arguments Z.land : simpl never.
#[global] Arguments Z.lor : simpl never.
#[global] Arguments Z.lxor : simpl never.
#[global] Arguments Z.shiftl : simpl never.
#[global] Arguments Z.shiftr : simpl never.
#[global] Arguments Z.testbit : simpl never.

(** ** Machine integers

    A C integer of width [w] is a [Z] in [0 .. 2^w - 1]; every conversion or
    arithmetic result the code stores in a narrower type is wrapped where the
    code stores it. *)

Definition u8 (x : Z) : Z := x mod 256.
Definition u16 (x : Z) : Z := x mod 65536.
Definition u32 (x : Z) : Z := x mod 4294967296.
Definition u64 (x : Z) : Z := x mod 18446744073709551616.

Definition UINT8_MAX : Z := 255.
Definition UINT16_MAX : Z := 65535.
Definition UINT32_MAX : Z := 4294967295.

Declare Scope c_scope.
Delimit Scope c_scope with C.
Notation "x .& y" := (Z.land x y) (at level 40, left associativity) : c_scope.
Notation "x .| y" := (Z.lor x y) (at level 50, left associativity) : c_scope.
Notation "x .^ y" := (Z.lxor x y) (at level 50, left associativity) : c_scope.
Local Open Scope c_scope.

(** The range of a byte, and lists of bytes. *)
Definition is_u8 (x : Z) : Prop := 0 ≤ x < 256.
Definition is_u16 (x : Z) : Prop := 0 ≤ x < 65536.
Definition is_u32 (x : Z) : Prop := 0 ≤ x < 4294967296.
Definition is_u64 (x : Z) : Prop := 0 ≤ x < 18446744073709551616.
Abbreviation bytes_ok := (Forall is_u8).

#[export] Instance is_u8_dec x : Decision (is_u8 x).
Proof. unfold is_u8. apply _. Defined.
#[export] Instance is_u16_dec x : Decision (is_u16 x).
Proof. unfold is_u16. apply _. Defined.
#[export] Instance is_u32_dec x : Decision (is_u32 x).
Proof. unfold is_u32. apply _. Defined.

Create HintDb cint.

Lemma u8_range x : is_u8 (u8 x).
Proof. unfold is_u8, u8. lia. Qed.
Lemma u16_range x : is_u16 (u16 x).
Proof. unfold is_u16, u16. lia. Qed.
Lemma u32_range x : is_u32 (u32 x).
Proof. unfold is_u32, u32. lia. Qed.
Lemma u64_range x : is_u64 (u64 x).
Proof. unfold is_u64, u64. lia. Qed.
Lemma u8_small x : is_u8 x → u8 x = x.
Proof. unfold is_u8, u8. intros. apply Z.mod_small. lia. Qed.
Lemma u16_small x : is_u16 x → u16 x = x.
Proof. unfold is_u16, u16. intros. apply Z.mod_small. lia. Qed.
Lemma u32_small x : is_u32 x → u32 x = x.
Proof. unfold is_u32, u32. intros. apply Z.mod_small. lia. Qed.
Lemma u64_small x : is_u64 x → u64 x = x.
Proof. unfold is_u64, u64. intros. apply Z.mod_small. lia. Qed.

#[export] Hint Resolve u8_range u16_range u32_range u64_range : cint.

(** [wrap] closes goals on wrapped integers that are linear once the wraps are
    unfolded. *)
Ltac wrap_unfold :=
  unfold u8, u16, u32, u64, is_u8, is_u16, is_u32, is_u64,
    UINT8_MAX, UINT16_MAX, UINT32_MAX in *.
Ltac wrap := wrap_unfold; lia.

(** [pow_const] evaluates the powers of two with literal exponents. *)
Ltac pow_const :=
  repeat match goal with
         | |- context [2 ^ Zpos ?p] =>
             let v := eval vm_compute in (2 ^ Zpos p) in change (2 ^ Zpos p) with v
         | H : context [2 ^ Zpos ?p] |- _ =>
             let v := eval vm_compute in (2 ^ Zpos p) in change (2 ^ Zpos p) with v in H
         end.

(** ** Bits *)

Lemma testbit_high x n i : 0 ≤ x < 2 ^ n → n ≤ i → Z.testbit x i = false.
Proof.
  intros Hx Hi. destruct (Z.eq_dec x 0) as [->|]; [apply Z.bits_0|].
  apply Z.bits_above_log2; [lia|].
  apply Z.log2_lt_pow2; [lia|].
  apply Z.lt_le_trans with (2 ^ n); [lia|]. apply Z.pow_le_mono_r; lia.
Qed.

Lemma testbit_u8_high x i : is_u8 x → 8 ≤ i → Z.testbit x i = false.
Proof. intros. apply testbit_high with 8; [wrap|lia]. Qed.

Lemma land_ones_mod x n : 0 ≤ n → x .& Z.ones n = x mod 2 ^ n.
Proof. apply Z.land_ones. Qed.

(** Adding is or-ing when no bit is shared. *)
Lemma lor_add_disjoint x y : x .& y = 0 → x .| y = x + y.
Proof. intros. symmetry. by apply Z.add_nocarry_lxor in H as Hx; rewrite Hx, <- Z.lxor_lor. Qed.

Lemma lor_shiftl_add x y n :
  0 ≤ n → 0 ≤ x < 2 ^ n → x .| (y ≪ n) = x + y * 2 ^ n.
Proof.
  intros Hn Hx. rewrite lor_add_disjoint; [by rewrite Z.shiftl_mul_pow2|].
  apply Z.bits_inj'. intros i Hi. rewrite Z.land_spec, Z.bits_0.
  destruct (Z.lt_ge_cases i n) as [Hlt|Hge].
  - rewrite Z.shiftl_spec_low by lia. apply andb_false_r.
  - by rewrite (testbit_high x n).
Qed.

Lemma range_of_bits x n :
  0 ≤ n → 0 ≤ x → (∀ i, n ≤ i → Z.testbit x i = false) → x < 2 ^ n.
Proof.
  intros Hn Hx Hb. replace x with (x mod 2 ^ n).
  - apply Z.mod_pos_bound. lia.
  - apply Z.bits_inj'. intros i Hi.
    destruct (Z.lt_ge_cases i n).
    + by rewrite Z.mod_pow2_bits_low.
    + rewrite Z.mod_pow2_bits_high by lia. by rewrite Hb.
Qed.

Lemma lxor_range x y n : 0 ≤ n → 0 ≤ x < 2 ^ n → 0 ≤ y < 2 ^ n → 0 ≤ x .^ y < 2 ^ n.
Proof.
  intros Hn Hx Hy. split; [apply Z.lxor_nonneg; lia|].
  apply range_of_bits; [lia|apply Z.lxor_nonneg; lia|].
  intros i Hi. by rewrite Z.lxor_spec, !(testbit_high _ n) by lia.
Qed.

Lemma lor_range x y n : 0 ≤ n → 0 ≤ x < 2 ^ n → 0 ≤ y < 2 ^ n → 0 ≤ x .| y < 2 ^ n.
Proof.
  intros Hn Hx Hy. split; [apply Z.lor_nonneg; lia|].
  apply range_of_bits; [lia|apply Z.lor_nonneg; lia|].
  intros i Hi. by rewrite Z.lor_spec, !(testbit_high _ n) by lia.
Qed.

(** Case analysis over a small range by computation. *)
Lemma seqZ_forallb (P : Z → bool) m n :
  forallb P (seqZ m n) = true → ∀ x, m ≤ x < m + n → P x = true.
Proof.
  intros H x Hx. rewrite forallb_forall in H. apply H.
  apply list_elem_of_In, elem_of_seqZ. lia.
Qed.

Lemma byte_forallb (P : Z → bool) :
  forallb P (seqZ 0 256) = true → ∀ x, is_u8 x → P x = true.
Proof. intros H x Hx. apply (seqZ_forallb P 0 256 H). wrap. Qed.

(** ** Byte strings in little-endian order, the order of the hosts the
    library supports ([memcpy] of an integer to and from a byte array). *)

Fixpoint le_bytes (n : nat) (x : Z) : list Z :=
  match n with
  | O => []
  | S n' => x mod 256 :: le_bytes n' (x / 256)
  end.

Fixpoint le_val (l : list Z) : Z :=
  match l with
  | [] => 0
  | b :: l' => b + 256 * le_val l'
  end.

Lemma le_bytes_length n x : length (le_bytes n x) = n.
Proof. revert x. induction n as [|n IH]; intros x; simpl; by rewrite ?IH. Qed.

Lemma le_bytes_ok n x : bytes_ok (le_bytes n x).
Proof.
  revert x. induction n as [|n IH]; intros x; simpl; constructor; [wrap|apply IH].
Qed.

Lemma pow256_succ n : 256 ^ Z.of_nat (S n) = 256 * 256 ^ Z.of_nat n.
Proof. rewrite Nat2Z.inj_succ, Z.pow_succ_r; lia. Qed.

Lemma le_val_bytes n x : le_val (le_bytes n x) = x mod 256 ^ Z.of_nat n.
Proof.
  revert x. induction n as [|n IH]; intros x.
  - simpl. by rewrite Z.mod_1_r.
  - rewrite pow256_succ, Z.rem_mul_r by lia. simpl. by rewrite IH.
Qed.

Lemma le_bytes_val l : bytes_ok l → le_bytes (length l) (le_val l) = l.
Proof.
  induction 1 as [|b l Hb Hl IH]; [done|].
  cbn [length le_bytes le_val].
  rewrite (Z.mul_comm 256), Z.mod_add, Z.div_add, Z.mod_small, Z.div_small, Z.add_0_l
    by wrap.
  by rewrite IH.
Qed.

Lemma le_val_range l : bytes_ok l → 0 ≤ le_val l < 256 ^ Z.of_nat (length l).
Proof.
  induction 1 as [|b l Hb Hl IH]; [simpl; lia|].
  cbn [le_val length]. rewrite pow256_succ. wrap.
Qed.

Lemma le_val_inj l1 l2 :
  bytes_ok l1 → bytes_ok l2 → length l1 = length l2 → le_val l1 = le_val l2 → l1 = l2.
Proof. intros H1 H2 Hlen Hv. by rewrite <- (le_bytes_val l1), Hv, Hlen, le_bytes_val. Qed.

Lemma le_val_app l1 l2 :
  le_val (l1 ++ l2) = le_val l1 + 256 ^ Z.of_nat (length l1) * le_val l2.
Proof.
  induction l1 as [|b l1 IH]; [cbn -[Z.mul]; lia|].
  cbn [le_val length app]. rewrite pow256_succ, IH. lia.
Qed.

Lemma le_val_zeros n : le_val (replicate n 0) = 0.
Proof. induction n as [|n IH]; [done|]. cbn [replicate le_val]. lia. Qed.

#[export] Hint Resolve le_bytes_ok : cint.

(** ** The effects of C

    A statement that reads and writes the state [S] is a state transformer
    that may fail: [None] is undefined behaviour (an access outside an array)
    or a loop that did not stop within its fuel, so a theorem that gives the
    result of a statement as [Some] also says that no array was overrun and
    that every loop ended. *)

Definition M (S A : Type) : Type := S → option (A * S).

#[export] Instance M_ret S : MRet (M S) := λ A x s, Some (x, s).
#[export] Instance M_bind S : MBind (M S) := λ A B k m s,
  match m s with
  | Some (x, s') => k x s'
  | None => None
  end.

Definition undefined {S A} : M S A := λ _, None.
Definition get_state {S} : M S S := λ s, Some (s, s).
Definition gets {S A} (f : S → A) : M S A := λ s, Some (f s, s).
Definition modify {S} (f : S → S) : M S unit := λ s, Some ((), f s).
Definition lift {S A} (o : option A) : M S A := λ s, x ← o; Some (x, s).
Definition when {S} (b : bool) (m : M S unit) : M S unit :=
  if b then m else mret ().

(** The statement [m] of a module whose state is the part of [S] that [get]
    and [put] give. *)
Definition zoom {S T A} (get : S → T) (put : T → S → S) (m : M T A) : M S A :=
  λ s, '(x, t) ← m (get s); Some (x, put t s).

Lemma bind_Some {S A B} (m : M S A) (k : A → M S B) s x s' :
  m s = Some (x, s') → (m ≫= k) s = k x s'.
Proof. intros H. unfold mbind, M_bind. by rewrite H. Qed.

Lemma bind_lift {S A B} (o : option A) (k : A → M S B) x s :
  o = Some x → (lift o ≫= k) s = k x s.
Proof. intros ->. done. Qed.

Lemma obind_Some {A B} (o : option A) (k : A → option B) x : o = Some x → (o ≫= k) = k x.
Proof. by intros ->. Qed.

Lemma bind_inv {S A B} (m : M S A) (k : A → M S B) s r :
  (m ≫= k) s = Some r → ∃ x s', m s = Some (x, s') ∧ k x s' = Some r.
Proof. unfold mbind, M_bind. destruct (m s) as [[x s']|]; [eauto|done]. Qed.

Lemma bind_assoc {S A B C} (m : M S A) (k : A → M S B) (k' : B → M S C) s :
  ((m ≫= k) ≫= k') s = (m ≫= λ x, k x ≫= k') s.
Proof. unfold mbind, M_bind. by destruct (m s) as [[x s']|]. Qed.

(** [mstep] unfolds the monad's own operations and reduces. *)
Ltac mstep :=
  repeat (progress (unfold mbind, M_bind, mret, M_ret, get_state, gets, modify, lift, when, zoom;
                    cbn [fst snd mbind option_bind])).

(** ** Loops

    [for_loop n i body] is [for (k = i; k < i + n; ++k) body(k)]. *)
Fixpoint for_loop {A} (n : nat) (i : Z) (body : Z → A → option A) (a : A) : option A :=
  match n with
  | O => Some a
  | S n' => a' ← body i a; for_loop n' (i + 1) body a'
  end.

Lemma for_loop_invariant {A} (P : Z → A → Prop) n i body a :
  P i a →
  (∀ k x, i ≤ k < i + Z.of_nat n → P k x → ∃ x', body k x = Some x' ∧ P (k + 1) x') →
  ∃ a', for_loop n i body a = Some a' ∧ P (i + Z.of_nat n) a'.
Proof.
  revert i a. induction n as [|n IH]; intros i a Ha Hb.
  - exists a. split; [done|]. by rewrite Z.add_0_r.
  - destruct (Hb i a) as (x & Hx & Px); [lia|done|]. simpl. rewrite Hx. simpl.
    destruct (IH (i + 1) x) as (y & Hy & Py); [done| |].
    + intros k z Hk. apply Hb. lia.
    + exists y. split; [done|]. by replace (i + Z.of_nat (S n)) with (i + 1 + Z.of_nat n) by lia.
Qed.

(** [for_m n i body] is the same loop over a statement. *)
Fixpoint for_m {S} (n : nat) (i : Z) (body : Z → M S unit) : M S unit :=
  match n with
  | O => mret ()
  | S n' => body i;; for_m n' (i + 1) body
  end.

Lemma for_m_invariant {S} (I : Z → S → Prop) n i (body : Z → M S unit) s :
  I i s →
  (∀ k x, i ≤ k < i + Z.of_nat n → I k x → ∃ x', body k x = Some ((), x') ∧ I (k + 1) x') →
  ∃ s', for_m n i body s = Some ((), s') ∧ I (i + Z.of_nat n) s'.
Proof.
  revert i s. induction n as [|n IH]; intros i s Hs Hb.
  - exists s. split; [done|]. by rewrite Z.add_0_r.
  - destruct (Hb i s) as (x & Hx & Px); [lia|done|]. cbn [for_m]. rewrite (bind_Some _ _ _ _ _ Hx).
    destruct (IH (i + 1) x) as (y & Hy & Py); [done| |].
    + intros k z Hk. apply Hb. lia.
    + exists y. split; [done|]. by replace (i + Z.of_nat (Datatypes.S n)) with (i + 1 + Z.of_nat n) by lia.
Qed.

(** ** Arrays: reading and writing outside an array is undefined *)

Definition aget {A} (l : list A) (i : Z) : option A :=
  if decide (0 ≤ i) then l !! Z.to_nat i else None.

Definition aset {A} (l : list A) (i : Z) (x : A) : option (list A) :=
  if decide (0 ≤ i < Z.of_nat (length l)) then Some (<[Z.to_nat i := x]> l) else None.

Lemma aget_Some {A} (l : list A) i x : aget l i = Some x ↔ 0 ≤ i ∧ l !! Z.to_nat i = Some x.
Proof. unfold aget. case_decide; split; [by auto|by intros [_ ?]|done|by intros [? _]]. Qed.

Lemma aget_lookup {A} (l : list A) i : 0 ≤ i → aget l i = l !! Z.to_nat i.
Proof. intros. unfold aget. by rewrite decide_True. Qed.

Lemma aget_is_Some {A} (l : list A) i :
  0 ≤ i < Z.of_nat (length l) → ∃ x, aget l i = Some x.
Proof.
  intros Hi. rewrite aget_lookup by lia.
  apply lookup_lt_is_Some_2. lia.
Qed.

(** Reads at literal positions of literal lists. *)
Ltac aget_literal :=
  repeat (rewrite aget_lookup by lia;
          repeat match goal with
                 | |- context [Z.to_nat ?k] =>
                     let n := eval vm_compute in (Z.to_nat k) in
                     change (Z.to_nat k) with n
                 end;
          cbn [lookup list_lookup mbind option_bind]).

Lemma aset_in {A} (l : list A) i x :
  0 ≤ i < Z.of_nat (length l) → aset l i x = Some (<[Z.to_nat i := x]> l).
Proof. intros. unfold aset. by rewrite decide_True. Qed.

Lemma Forall_aget {A} (P : A → Prop) l i x : Forall P l → aget l i = Some x → P x.
Proof. intros Hl [_ Hx]%aget_Some. by eapply Forall_lookup_1. Qed.

(** The C comparison of two arrays of the same length, [memcmp(a,b,n) == 0]. *)
Definition memeq (a b : list Z) : bool := bool_decide (a = b).

(** [memcpy(dst + off, src, length src)]. *)
Definition memcpy_at (dst : list Z) (off : nat) (src : list Z) : option (list Z) :=
  if decide (off + length src ≤ length dst)%nat
  then Some (take off dst ++ src ++ drop (off + length src) dst)
  else None.

(** [n] bytes read from offset [off]: undefined past the end. *)
Definition slice (l : list Z) (off n : nat) : option (list Z) :=
  if decide (off + n ≤ length l)%nat then Some (take n (drop off l)) else None.

Lemma slice_in l off n : (off + n ≤ length l)%nat → slice l off n = Some (take n (drop off l)).
Proof. intros. unfold slice. by rewrite decide_True. Qed.

Lemma slice_app l1 l2 l3 off n :
  off = length l1 → n = length l2 → slice (l1 ++ l2 ++ l3) off n = Some l2.
Proof.
  intros -> ->. rewrite slice_in by (rewrite !length_app; lia).
  by rewrite drop_app_length, take_app_length.
Qed.

Lemma memcpy_at_in dst off src :
  (off + length src ≤ length dst)%nat →
  memcpy_at dst off src = Some (take off dst ++ src ++ drop (off + length src) dst).
Proof. intros. unfold memcpy_at. by rewrite decide_True. Qed.
