(* ===== verification/Crc.v ===== *)
(** * The CRC of nonvolatile blocks (utils/crc_ccitt.c)

    [crc_ccitt_update] and [compute_crc_ccitt] are the code's shift-and-xor
    routines; [crc_byte] is the definition of CRC-16 with polynomial 0x1021 one
    bit at a time.  The file shows that the two agree and that the CRC detects
    every change confined to two neighbouring bytes. *)

From S2P Require Import Prelude.
Local Open Scope Z_scope.
Local Open Scope c_scope.

(** ** The code *)

Definition _crc_ccitt_update (byte cur_crc : Z) : Z :=
  let crc_new := u32 (u8 (cur_crc ≫ 8) .| (cur_crc ≪ 8)) in
  let crc_new := crc_new .^ byte in
  let crc_new := crc_new .^ (u8 (crc_new .& 0xff) ≫ 4) in
  let crc_new := crc_new .^ u32 (crc_new ≪ 12) in
  let crc_new := crc_new .^ u32 ((crc_new .& 0xff) ≪ 5) in
  u16 crc_new.

(** [while (bytes_length--)]: one update per byte, in order. *)
Definition compute_crc_ccitt (bytes : list Z) (bytes_length : Z) : option Z :=
  for_loop (Z.to_nat bytes_length) 0
    (λ i crc_ccitt, byte ← aget bytes i; Some (_crc_ccitt_update byte crc_ccitt))
    0xffff.

(** ** The definition of the CRC *)

Definition crc_bit (c : Z) : Z :=
  let c2 := u16 (c ≪ 1) in
  if Z.testbit c 15 then c2 .^ 0x1021 else c2.

Definition crc_8bits (c : Z) : Z := Nat.iter 8 crc_bit c.

Definition crc_byte (c byte : Z) : Z := crc_8bits (c .^ (byte ≪ 8)).

Definition crc_ref (l : list Z) : Z := foldl crc_byte 0xffff l.

(** ** Both are linear over exclusive or *)

Definition linear (f : Z → Z) : Prop := ∀ x y, f (x .^ y) = f x .^ f y.

Lemma linear_id : linear (λ x, x).
Proof. done. Qed.
Lemma linear_compose f g : linear f → linear g → linear (λ x, f (g x)).
Proof. intros Hf Hg x y. by rewrite Hg, Hf. Qed.
Lemma linear_lxor f g : linear f → linear g → linear (λ x, f x .^ g x).
Proof.
  intros Hf Hg x y. rewrite Hf, Hg, !Z.lxor_assoc. f_equal.
  by rewrite <- !Z.lxor_assoc, (Z.lxor_comm (f y)).
Qed.
Lemma linear_shiftl n : linear (λ x, x ≪ n).
Proof. intros x y. apply Z.shiftl_lxor. Qed.
Lemma linear_shiftr n : linear (λ x, x ≫ n).
Proof. intros x y. apply Z.shiftr_lxor. Qed.
Lemma linear_land m : linear (λ x, x .& m).
Proof.
  intros x y. apply Z.bits_inj'. intros i Hi.
  rewrite !Z.land_spec, !Z.lxor_spec, !Z.land_spec.
  by destruct (Z.testbit x i), (Z.testbit y i), (Z.testbit m i).
Qed.
Lemma linear_mod n : 0 ≤ n → linear (λ x, x mod 2 ^ n).
Proof. intros Hn x y. rewrite <- !Z.land_ones by done. apply linear_land. Qed.
Lemma linear_u8 : linear u8.
Proof. exact (linear_mod 8 ltac:(done)). Qed.
Lemma linear_u16 : linear u16.
Proof. exact (linear_mod 16 ltac:(done)). Qed.
Lemma linear_u32 : linear u32.
Proof. exact (linear_mod 32 ltac:(done)). Qed.

Create HintDb crc.
#[local] Hint Resolve linear_id linear_lxor linear_shiftl linear_shiftr linear_land
  linear_u8 linear_u16 linear_u32 : crc.

Lemma linear_crc_bit : linear crc_bit.
Proof.
  intros x y. unfold crc_bit.
  assert (Hs : u16 ((x .^ y) ≪ 1) = u16 (x ≪ 1) .^ u16 (y ≪ 1)).
  { by rewrite linear_shiftl, linear_u16. }
  rewrite Hs, Z.lxor_spec.
  destruct (Z.testbit x 15), (Z.testbit y 15); simpl.
  - rewrite (Z.lxor_comm (u16 (y ≪ 1))), Z.lxor_assoc.
    by rewrite <- (Z.lxor_assoc 0x1021), Z.lxor_nilpotent, Z.lxor_0_l.
  - by rewrite !Z.lxor_assoc, (Z.lxor_comm 0x1021).
  - by rewrite !Z.lxor_assoc.
  - done.
Qed.

Lemma linear_crc_8bits : linear crc_8bits.
Proof.
  intros x y. unfold crc_8bits.
  generalize 8%nat; intros n; induction n as [|n IH]; [done|]. simpl. by rewrite IH, linear_crc_bit.
Qed.

(** The update routine after its first line: a linear function of
    [high byte | low byte << 8] with the input byte xored in. *)
Definition crc_tail (c0 : Z) : Z :=
  let c1 := c0 .^ (u8 (c0 .& 0xff) ≫ 4) in
  let c2 := c1 .^ u32 (c1 ≪ 12) in
  u16 (c2 .^ u32 ((c2 .& 0xff) ≪ 5)).

Lemma linear_crc_tail : linear crc_tail.
Proof.
  unfold crc_tail.
  pose (h := λ x, x .^ (u8 (x .& 0xff) ≫ 4)).
  pose (k := λ x, x .^ u32 (x ≪ 12)).
  pose (m := λ x, x .^ u32 ((x .& 0xff) ≪ 5)).
  assert (Hh : linear h).
  { apply linear_lxor; [done|].
    apply (linear_compose (λ x, x ≫ 4)); [auto with crc|].
    apply (linear_compose u8); auto with crc. }
  assert (Hk : linear k).
  { apply linear_lxor; [done|]. apply (linear_compose u32); auto with crc. }
  assert (Hm : linear m).
  { apply linear_lxor; [done|]. apply (linear_compose u32); [auto with crc|].
    apply (linear_compose (λ x, x ≪ 5)); auto with crc. }
  intros x y. change (u16 (m (k (h (x .^ y)))) = u16 (m (k (h x))) .^ u16 (m (k (h y)))).
  by rewrite Hh, Hk, Hm, linear_u16.
Qed.


(** The two bytes of a 16-bit value. *)
Lemma u16_split c :
  is_u16 c → ∃ hi lo, is_u8 hi ∧ is_u8 lo ∧ c = (hi ≪ 8) .^ lo.
Proof.
  intros Hc. exists (c / 256), (c mod 256). split_and!; [wrap|wrap|].
  rewrite Z.lxor_comm, Z.lxor_lor.
  - rewrite lor_shiftl_add by lia. lia.
  - apply Z.bits_inj'. intros i Hi. rewrite Z.land_spec, Z.bits_0.
    destruct (Z.lt_ge_cases i 8).
    + rewrite Z.shiftl_spec_low by lia. apply andb_false_r.
    + by rewrite testbit_u8_high by wrap.
Qed.

Definition swap (c : Z) : Z := (c ≫ 8) .^ (c ≪ 8).

Lemma linear_swap : linear swap.
Proof. apply linear_lxor; auto with crc. Qed.

Lemma update_eq_tail byte c :
  is_u16 c → _crc_ccitt_update byte c = crc_tail (swap c .^ byte).
Proof.
  intros Hc.
  assert (Hhi : is_u8 (c ≫ 8)) by (rewrite Z.shiftr_div_pow2 by lia; wrap).
  assert (H : u32 (u8 (c ≫ 8) .| (c ≪ 8)) = swap c).
  { rewrite u8_small by done. unfold swap. rewrite Z.lxor_lor.
    - apply u32_small. rewrite lor_shiftl_add by (try lia; wrap). wrap.
    - apply Z.bits_inj'. intros i Hi. rewrite Z.land_spec, Z.bits_0.
      destruct (Z.lt_ge_cases i 8).
      + rewrite (Z.shiftl_spec_low c) by lia. apply andb_false_r.
      + by rewrite testbit_u8_high. }
  unfold _crc_ccitt_update. rewrite H. done.
Qed.

(** The three tables behind the equivalence, checked by computation. *)
Lemma tail_table x :
  is_u8 x →
  crc_tail (swap (x ≪ 8)) = crc_8bits (x ≪ 8) ∧
  crc_tail (swap x) = crc_8bits x ∧
  crc_tail x = crc_8bits (x ≪ 8).
Proof.
  intros Hx.
  pose (t := λ x, (crc_tail (swap (x ≪ 8)) =? crc_8bits (x ≪ 8)) &&
                  (crc_tail (swap x) =? crc_8bits x) &&
                  (crc_tail x =? crc_8bits (x ≪ 8))).
  assert (t x = true) as Ht by (apply byte_forallb; [by vm_compute|done]).
  unfold t in Ht. rewrite !andb_true_iff, !Z.eqb_eq in Ht. by destruct Ht as [[? ?] ?].
Qed.

Lemma update_is_crc_byte byte c :
  is_u8 byte → is_u16 c → _crc_ccitt_update byte c = crc_byte c byte.
Proof.
  intros Hb Hc. rewrite update_eq_tail by done.
  destruct (u16_split c Hc) as (hi & lo & Hhi & Hlo & ->).
  rewrite linear_swap, !linear_crc_tail. unfold crc_byte. rewrite !linear_crc_8bits.
  destruct (tail_table hi Hhi) as (-> & _ & _).
  destruct (tail_table lo Hlo) as (_ & -> & _).
  destruct (tail_table byte Hb) as (_ & _ & ->). done.
Qed.

Lemma crc_bit_range c : is_u16 (crc_bit c).
Proof.
  unfold crc_bit. pose proof (u16_range (c ≪ 1)) as H. destruct (Z.testbit c 15); [|done].
  apply (lxor_range _ _ 16); [lia|exact H|lia].
Qed.

Lemma crc_8bits_range c : is_u16 (crc_8bits c).
Proof. apply crc_bit_range. Qed.

Lemma crc_ref_range l : is_u16 (crc_ref l).
Proof.
  unfold crc_ref. induction l as [|b l IH] using rev_ind; [done|].
  rewrite foldl_snoc. apply crc_8bits_range.
Qed.

(** [compute_crc_ccitt] reads exactly its first [bytes_length] bytes, and is
    the CRC of them. *)
Lemma compute_crc_ccitt_prefix l n :
  bytes_ok l → 0 ≤ n ≤ Z.of_nat (length l) →
  compute_crc_ccitt l n = Some (crc_ref (take (Z.to_nat n) l)).
Proof.
  intros Hl Hn. unfold compute_crc_ccitt.
  edestruct (for_loop_invariant
    (λ k c, c = crc_ref (take (Z.to_nat k) l)) (Z.to_nat n) 0) as (c & -> & Hc).
  - done.
  - intros k c Hk ->.
    destruct (aget_is_Some l k) as [b Hb]; [lia|].
    exists (_crc_ccitt_update b (crc_ref (take (Z.to_nat k) l))). rewrite Hb. split; [done|].
    pose proof Hb as [Hk0 Hlk]%aget_Some.
    replace (Z.to_nat (k + 1)) with (S (Z.to_nat k)) by lia.
    rewrite (take_S_r l _ b) by done. unfold crc_ref. rewrite foldl_snoc.
    apply update_is_crc_byte; [by eapply Forall_aget|apply crc_ref_range].
  - rewrite Hc. do 3 f_equal. lia.
Qed.

(** ** Error detection *)

Lemma lxor_eq_0 x y : x .^ y = 0 → x = y.
Proof. apply Z.lxor_eq. Qed.

(** One bit step loses nothing. *)
Lemma crc_bit_0 c : is_u16 c → crc_bit c = 0 → c = 0.
Proof.
  intros Hc. unfold crc_bit. destruct (Z.testbit c 15) eqn:Hb.
  - intros H%lxor_eq_0. exfalso. rewrite Z.shiftl_mul_pow2 in H by lia. wrap.
  - intros H.
    assert (c < 2 ^ 15) as Hlt.
    { apply range_of_bits; [lia|wrap|]. intros i Hi.
      destruct (Z.eq_dec i 15) as [->|]; [done|].
      apply (testbit_high _ 16); [exact Hc|lia]. }
    rewrite Z.shiftl_mul_pow2 in H by lia. wrap.
Qed.

Lemma crc_8bits_0 c : is_u16 c → crc_8bits c = 0 → c = 0.
Proof.
  unfold crc_8bits. intros Hc.
  generalize 8%nat; intros n; induction n as [|n IH]; [done|]. simpl. intros H. apply IH.
  apply crc_bit_0; [|done]. destruct n; [done|apply crc_bit_range].
Qed.

Lemma crc_8bits_inj c1 c2 :
  is_u16 c1 → is_u16 c2 → crc_8bits c1 = crc_8bits c2 → c1 = c2.
Proof.
  intros H1 H2 H. apply lxor_eq_0, crc_8bits_0.
  - by apply (lxor_range _ _ 16).
  - by rewrite linear_crc_8bits, H, Z.lxor_nilpotent.
Qed.

Lemma crc_arg_range c b : is_u16 c → is_u8 b → is_u16 (c .^ (b ≪ 8)).
Proof.
  intros Hc Hb. apply (lxor_range _ _ 16); [lia|exact Hc|].
  rewrite Z.shiftl_mul_pow2 by lia. wrap.
Qed.

(** Two different states stay different over the same bytes. *)
Lemma crc_fold_inj l c1 c2 :
  bytes_ok l → is_u16 c1 → is_u16 c2 →
  foldl crc_byte c1 l = foldl crc_byte c2 l → c1 = c2.
Proof.
  intros Hl. revert c1 c2. induction Hl as [|b l Hb Hl IH]; intros c1 c2 H1 H2; [done|].
  simpl. intros H. apply IH in H; [|apply crc_8bits_range..].
  apply crc_8bits_inj in H; [|by apply crc_arg_range..].
  apply (f_equal (λ x, x .^ (b ≪ 8))) in H.
  by rewrite !Z.lxor_assoc, !Z.lxor_nilpotent, !Z.lxor_0_r in H.
Qed.

(** A nonzero byte difference reaches the low byte of the state, so the next
    byte alone cannot cancel it. *)
Lemma crc_8bits_low d : is_u8 d → crc_8bits (d ≪ 8) .& 255 = 0 → d = 0.
Proof.
  intros Hd H.
  pose (t := λ d, negb (crc_8bits (d ≪ 8) .& 255 =? 0) || (d =? 0)).
  assert (t d = true) as Ht by (apply byte_forallb; [by vm_compute|done]).
  unfold t in Ht. rewrite H in Ht. by apply Z.eqb_eq in Ht.
Qed.

Lemma lxor_cancel4 c x y z w : c .^ x .^ y = c .^ z .^ w → x .^ z = y .^ w.
Proof.
  intros H. apply Z.bits_inj'. intros i Hi. apply (f_equal (λ x, Z.testbit x i)) in H.
  rewrite !Z.lxor_spec in *. revert H.
  by destruct (Z.testbit c i), (Z.testbit x i), (Z.testbit y i), (Z.testbit z i),
    (Z.testbit w i).
Qed.

#[local] Opaque crc_8bits.

Lemma shiftl8_inj x y : x ≪ 8 = y ≪ 8 → x = y.
Proof. rewrite !Z.shiftl_mul_pow2 by lia. lia. Qed.

Lemma crc_two_bytes_inj c a1 a2 b1 b2 :
  is_u16 c → is_u8 a1 → is_u8 a2 → is_u8 b1 → is_u8 b2 →
  crc_byte (crc_byte c a1) a2 = crc_byte (crc_byte c b1) b2 → a1 = b1 ∧ a2 = b2.
Proof.
  intros Hc Ha1 Ha2 Hb1 Hb2 H. unfold crc_byte in H.
  apply crc_8bits_inj in H; [|by apply crc_arg_range; [apply crc_8bits_range|]..].
  rewrite !linear_crc_8bits in H. apply lxor_cancel4 in H.
  rewrite <- linear_crc_8bits, <- !Z.shiftl_lxor in H.
  assert (a1 .^ b1 = 0) as Hz.
  { apply crc_8bits_low; [by apply (lxor_range _ _ 8)|]. rewrite H.
    apply Z.bits_inj'. intros i Hi. rewrite Z.land_spec, Z.bits_0.
    destruct (Z.lt_ge_cases i 8).
    - by rewrite Z.shiftl_spec_low by lia.
    - rewrite (testbit_high 255 8 i) by lia. apply andb_false_r. }
  rewrite Hz in H. apply lxor_eq_0 in Hz. split; [done|].
  apply lxor_eq_0, shiftl8_inj. by rewrite <- H.
Qed.

(** The CRC tells apart any two messages that differ within two neighbouring
    bytes. *)
Lemma crc_ref_burst pre a1 a2 b1 b2 post :
  bytes_ok pre → is_u8 a1 → is_u8 a2 → is_u8 b1 → is_u8 b2 → bytes_ok post →
  crc_ref (pre ++ a1 :: a2 :: post) = crc_ref (pre ++ b1 :: b2 :: post) →
  a1 = b1 ∧ a2 = b2.
Proof.
  intros Hpre Ha1 Ha2 Hb1 Hb2 Hpost. unfold crc_ref. rewrite !foldl_app. simpl.
  fold (crc_ref pre). intros H.
  apply crc_fold_inj in H; [|done|apply crc_8bits_range..].
  apply crc_two_bytes_inj in H; try done. apply crc_ref_range.
Qed.

Lemma crc_ref_last pre a b :
  is_u8 a → is_u8 b → crc_ref (pre ++ [a]) = crc_ref (pre ++ [b]) → a = b.
Proof.
  intros Ha Hb. unfold crc_ref. rewrite !foldl_snoc. fold (crc_ref pre). intros H.
  pose proof (crc_ref_range pre) as Hc.
  apply crc_8bits_inj in H; [|by apply crc_arg_range..].
  apply lxor_eq_0. apply (f_equal (λ x, (x .^ crc_ref pre) ≫ 8)) in H.
  rewrite !(Z.lxor_comm (crc_ref pre)), !Z.lxor_assoc, Z.lxor_nilpotent, !Z.lxor_0_r in H.
  rewrite !Z.shiftr_shiftl_l, !Z.shiftl_0_r in H by lia. by rewrite H, Z.lxor_nilpotent.
Qed.

(** ** Property *)

(** C35: the table-free CRC of nexus_util computes, over any prefix of a buffer
    of bytes, CRC-CCITT: the bit-by-bit division by 0x1021 from 0xffff. *)
Theorem crc_ccitt_correct l n :
  bytes_ok l → 0 ≤ n ≤ Z.of_nat (length l) →
  compute_crc_ccitt l n = Some (crc_ref (take (Z.to_nat n) l)).
Proof. apply compute_crc_ccitt_prefix. Qed.
