(* ===== verification/Siphash.v ===== *)
(** * SipHash-2-4 (utils/siphash_24.c)

    The library's only keyed hash: every keycode check, origin command, link
    key and message tag is a SipHash-2-4 value.  [siphash24_compute] is the
    code (byte loads by shift-and-or, the loop over whole words, the switch
    that falls through over the last bytes); [siphash_ref] is the published
    definition on the padded message, with rotation as arithmetic on words. *)

From S2P Require Import Prelude.
Local Open Scope Z_scope.
Local Open Scope c_scope.

(** ** The code *)

(** The four static words of the file. *)
Record sip := mk_sip { v0 : Z; v1 : Z; v2 : Z; v3 : Z }.

Definition ROTL (x b : Z) : Z := u64 (u64 (x ≪ b) .| (x ≫ (64 - b))).

Definition U8TO64_LE (p : list Z) : option Z :=
  p0 ← aget p 0; p1 ← aget p 1; p2 ← aget p 2; p3 ← aget p 3;
  p4 ← aget p 4; p5 ← aget p 5; p6 ← aget p 6; p7 ← aget p 7;
  Some (p0 .| (p1 ≪ 8) .| (p2 ≪ 16) .| (p3 ≪ 24) .|
        (p4 ≪ 32) .| (p5 ≪ 40) .| (p6 ≪ 48) .| (p7 ≪ 56)).

Definition U32TO8_LE (v : Z) : list Z := [u8 v; u8 (v ≫ 8); u8 (v ≫ 16); u8 (v ≫ 24)].
Definition U64TO8_LE (v : Z) : list Z := U32TO8_LE (u32 v) ++ U32TO8_LE (u32 (v ≫ 32)).

Definition SIPROUND (s : sip) : sip :=
  let s := {| s with v0 := u64 (v0 s + v1 s) |} in
  let s := {| s with v1 := ROTL (v1 s) 13 |} in
  let s := {| s with v1 := v1 s .^ v0 s |} in
  let s := {| s with v0 := ROTL (v0 s) 32 |} in
  let s := {| s with v2 := u64 (v2 s + v3 s) |} in
  let s := {| s with v3 := ROTL (v3 s) 16 |} in
  let s := {| s with v3 := v3 s .^ v2 s |} in
  let s := {| s with v0 := u64 (v0 s + v3 s) |} in
  let s := {| s with v3 := ROTL (v3 s) 21 |} in
  let s := {| s with v3 := v3 s .^ v0 s |} in
  let s := {| s with v2 := u64 (v2 s + v1 s) |} in
  let s := {| s with v1 := ROTL (v1 s) 17 |} in
  let s := {| s with v1 := v1 s .^ v2 s |} in
  {| s with v2 := ROTL (v2 s) 32 |}.

(** One word of input: [v3 ^= m; SIPROUND(); SIPROUND(); v0 ^= m]. *)
Definition sip_compress (m : Z) (s : sip) : sip :=
  let s := {| s with v3 := v3 s .^ m |} in
  let s := SIPROUND (SIPROUND s) in
  {| s with v0 := v0 s .^ m |}.

(** The body of [for (; in != end; in += 8)] at the [i]-th word. *)
Definition sip_word (inp : list Z) (i : Z) (s : sip) : option sip :=
  m ← U8TO64_LE (drop (Z.to_nat (8 * i)) inp); Some (sip_compress m s).

(** One label of the switch over the bytes left: labels are entered from
    [case left] downwards, each falling through to the next. *)
Definition sip_tail_case (inp : list Z) (left label b : Z) : option Z :=
  if label <=? left
  then x ← aget inp (label - 1); Some (b .| (x ≪ (8 * (label - 1))))
  else Some b.

Definition sip_tail (inp : list Z) (left b : Z) : option Z :=
  b ← sip_tail_case inp left 7 b;
  b ← sip_tail_case inp left 6 b;
  b ← sip_tail_case inp left 5 b;
  b ← sip_tail_case inp left 4 b;
  b ← sip_tail_case inp left 3 b;
  b ← sip_tail_case inp left 2 b;
  sip_tail_case inp left 1 b.

Definition siphash24_compute (inp : list Z) (inlen : Z) (k : list Z) : option (list Z) :=
  let len_end := inlen - inlen mod 8 in
  let left := inlen .& 7 in
  let b := u64 (inlen ≪ 56) in
  let s := mk_sip 0x736f6d6570736575 0x646f72616e646f6d
                  0x6c7967656e657261 0x7465646279746573 in
  k0 ← U8TO64_LE k;
  k1 ← U8TO64_LE (drop 8 k);
  let s := {| s with v3 := v3 s .^ k1 |} in
  let s := {| s with v2 := v2 s .^ k0 |} in
  let s := {| s with v1 := v1 s .^ k1 |} in
  let s := {| s with v0 := v0 s .^ k0 |} in
  s ← for_loop (Z.to_nat (len_end / 8)) 0 (sip_word inp) s;
  b ← sip_tail (drop (Z.to_nat len_end) inp) left b;
  let s := sip_compress b s in
  let s := {| s with v2 := v2 s .^ 0xff |} in
  let s := SIPROUND (SIPROUND (SIPROUND (SIPROUND s))) in
  Some (U64TO8_LE (v0 s .^ v1 s .^ v2 s .^ v3 s)).

(** ** The published definition *)

Definition rotl64 (x b : Z) : Z := (x * 2 ^ b) mod 2 ^ 64 + x / 2 ^ (64 - b).

Definition sip_round_ref (s : Z * Z * Z * Z) : Z * Z * Z * Z :=
  let '(a, b, c, d) := s in
  let a := u64 (a + b) in let c := u64 (c + d) in
  let b := rotl64 b 13 .^ a in let d := rotl64 d 16 .^ c in
  let a := rotl64 a 32 in
  let c := u64 (c + b) in let a := u64 (a + d) in
  let b := rotl64 b 17 .^ c in let d := rotl64 d 21 .^ a in
  let c := rotl64 c 32 in
  (a, b, c, d).

Definition sip_compress_ref (s : Z * Z * Z * Z) (m : Z) : Z * Z * Z * Z :=
  let '(a, b, c, d) := s in
  let '(a, b, c, d) := Nat.iter 2 sip_round_ref (a, b, c, d .^ m) in
  (a .^ m, b, c, d).

(** The message padded with zeros to one byte short of a multiple of eight,
    and its length modulo 256 as the last byte. *)
Definition sip_pad (msg : list Z) : list Z :=
  msg ++ replicate (7 - length msg mod 8) 0 ++ [Z.of_nat (length msg) mod 256].

(** [n] little-endian words of a byte string. *)
Definition words (n : nat) (l : list Z) : list Z :=
  (λ i, le_val (take 8 (drop (8 * i) l))) <$> seq 0 n.

Definition siphash_ref (key msg : list Z) : Z :=
  let k0 := le_val (take 8 key) in
  let k1 := le_val (take 8 (drop 8 key)) in
  let init := (k0 .^ 0x736f6d6570736575, k1 .^ 0x646f72616e646f6d,
               k0 .^ 0x6c7967656e657261, k1 .^ 0x7465646279746573) in
  let '(a, b, c, d) :=
    foldl sip_compress_ref init (words (S (length msg / 8)) (sip_pad msg)) in
  let '(a, b, c, d) := Nat.iter 4 sip_round_ref (a, b, c .^ 255, d) in
  a .^ b .^ c .^ d.

(** The reference vector of the SipHash paper. *)
Example siphash_paper_vector :
  siphash24_compute (seqZ 0 15) 15 (seqZ 0 16) =
  Some (le_bytes 8 0xa129ca6149be45e5).
Proof. vm_compute. reflexivity. Qed.

Example siphash_ref_paper_vector : siphash_ref (seqZ 0 16) (seqZ 0 15) = 0xa129ca6149be45e5.
Proof. vm_compute. reflexivity. Qed.

(** ** Words and rotations *)

Lemma u64_pow x : u64 x = x mod 2 ^ 64.
Proof. done. Qed.

Lemma lxor_u64 x y : is_u64 x → is_u64 y → is_u64 (x .^ y).
Proof. intros Hx Hy. by apply (lxor_range x y 64). Qed.

Lemma ROTL_rotl64 x b : is_u64 x → 0 < b < 64 → ROTL x b = rotl64 x b.
Proof.
  intros Hx Hb. unfold ROTL, rotl64.
  assert (Hlow : u64 (x ≪ b) = (x mod 2 ^ (64 - b)) ≪ b).
  { rewrite u64_pow, !Z.shiftl_mul_pow2 by lia.
    replace (2 ^ 64) with (2 ^ (64 - b) * 2 ^ b) by (rewrite <- Z.pow_add_r by lia; f_equal; lia).
    by rewrite Z.mul_mod_distr_r by (apply Z.pow_nonzero; lia). }
  assert (Hhi : 0 ≤ x ≫ (64 - b) < 2 ^ b).
  { rewrite Z.shiftr_div_pow2 by lia. split; [apply Z.div_pos; wrap_unfold; lia|].
    apply Z.div_lt_upper_bound; [lia|]. rewrite <- Z.pow_add_r by lia.
    replace (64 - b + b) with 64 by lia. exact (proj2 Hx). }
  assert (Hr : is_u64 (u64 (x ≪ b) .| (x ≫ (64 - b)))).
  { apply (lor_range _ _ 64); [lia|apply u64_range|].
    split; [lia|]. apply Z.lt_trans with (2 ^ b); [lia|]. apply Z.pow_lt_mono_r; lia. }
  rewrite (u64_small _ Hr), Hlow, Z.lor_comm, lor_shiftl_add by lia.
  rewrite <- Z.shiftl_mul_pow2, <- Hlow, u64_pow, Z.shiftl_mul_pow2 by lia.
  rewrite Z.shiftr_div_pow2 by lia. lia.
Qed.

Lemma ROTL_range x b : is_u64 (ROTL x b).
Proof. apply u64_range. Qed.

Lemma rotl64_range x b : is_u64 x → 0 < b < 64 → is_u64 (rotl64 x b).
Proof. intros. rewrite <- ROTL_rotl64 by done. apply ROTL_range. Qed.

#[local] Opaque ROTL u64.

Definition sip_ok (s : sip) : Prop :=
  is_u64 (v0 s) ∧ is_u64 (v1 s) ∧ is_u64 (v2 s) ∧ is_u64 (v3 s).
Definition tup (s : sip) : Z * Z * Z * Z := (v0 s, v1 s, v2 s, v3 s).

Create HintDb sip.
#[local] Hint Resolve lxor_u64 ROTL_range rotl64_range u64_range : sip.
#[local] Hint Extern 1 (_ < _ < _) => lia : sip.

Lemma SIPROUND_ok s : sip_ok s → sip_ok (SIPROUND s).
Proof. intros (H0 & H1 & H2 & H3). unfold sip_ok. cbn. split_and!; auto with sip. Qed.

Lemma SIPROUND_ref s : sip_ok s → tup (SIPROUND s) = sip_round_ref (tup s).
Proof.
  intros (H0 & H1 & H2 & H3). unfold tup, sip_round_ref. cbn.
  by rewrite <- !ROTL_rotl64 by auto 6 with sip.
Qed.

#[local] Opaque SIPROUND sip_round_ref.

Lemma SIPROUND_iter_ref n s :
  sip_ok s → sip_ok (Nat.iter n SIPROUND s) ∧
             tup (Nat.iter n SIPROUND s) = Nat.iter n sip_round_ref (tup s).
Proof.
  intros Hs. induction n as [|n [IHok IH]]; [done|]. simpl.
  split; [by apply SIPROUND_ok|]. by rewrite SIPROUND_ref, IH.
Qed.

Lemma sip_compress_spec m s :
  sip_ok s → is_u64 m →
  sip_ok (sip_compress m s) ∧ tup (sip_compress m s) = sip_compress_ref (tup s) m.
Proof.
  intros Hs Hm. unfold sip_compress, sip_compress_ref. cbv zeta.
  set (s' := {| s with v3 := v3 s .^ m |}).
  assert (Hs' : sip_ok s') by (destruct Hs as (?&?&?&?); split_and!; cbn; auto with sip).
  destruct (SIPROUND_iter_ref 2 s' Hs') as [Hok Heq].
  change (Nat.iter 2 SIPROUND s') with (SIPROUND (SIPROUND s')) in *.
  change (tup s') with (v0 s, v1 s, v2 s, v3 s .^ m) in Heq. cbn [tup].
  generalize dependent (SIPROUND (SIPROUND s')). intros s2 (?&?&?&?) Heq.
  unfold tup in *. rewrite <- Heq. cbn.
  split; [|done]. split_and!; cbn; auto with sip.
Qed.

#[local] Transparent u64.

(** ** Loads and stores *)

Lemma lor_bytes_add x b n :
  0 ≤ n → 0 ≤ x < 2 ^ n → x .| (b ≪ n) = x + b * 2 ^ n.
Proof. apply lor_shiftl_add. Qed.

Lemma U8TO64_LE_spec p :
  bytes_ok p → (8 ≤ length p)%nat → U8TO64_LE p = Some (le_val (take 8 p)).
Proof.
  intros Hp Hlen.
  do 8 (destruct p as [|? p]; [simpl in Hlen; lia|]).
  unfold U8TO64_LE.
  aget_literal.
  f_equal. cbn [take le_val]. rewrite take_0. cbn [le_val].
  repeat match goal with H : Forall _ (_ :: _) |- _ => apply Forall_cons in H as [? H] end.
  wrap_unfold.
  rewrite (lor_shiftl_add _ _ 8), (lor_shiftl_add _ _ 16), (lor_shiftl_add _ _ 24),
    (lor_shiftl_add _ _ 32), (lor_shiftl_add _ _ 40), (lor_shiftl_add _ _ 48),
    (lor_shiftl_add _ _ 56) by (pow_const; lia).
  pow_const. lia.
Qed.

Lemma le_val_u64 l : bytes_ok l → (length l ≤ 8)%nat → is_u64 (le_val l).
Proof.
  intros Hl Hlen. pose proof (le_val_range l Hl) as [H0 H1]. split; [done|].
  apply Z.lt_le_trans with (256 ^ Z.of_nat (length l)); [done|].
  change 18446744073709551616 with (256 ^ 8). apply Z.pow_le_mono_r; lia.
Qed.

Lemma take8_u64 l : bytes_ok l → is_u64 (le_val (take 8 l)).
Proof. intros. apply le_val_u64; [by apply Forall_take|]. rewrite length_take. lia. Qed.

Lemma U64TO8_LE_spec v : is_u64 v → U64TO8_LE v = le_bytes 8 v.
Proof.
  intros Hv. unfold U64TO8_LE, U32TO8_LE. cbn [app le_bytes].
  rewrite !Z.shiftr_div_pow2 by lia. wrap_unfold. pow_const.
  repeat (rewrite Z.div_div by lia).
  repeat (apply (f_equal2 cons); [lia|]). done.
Qed.

(** One label of the switch: the bytes collected so far move up by one place. *)
Definition tail_byte (inp : list Z) (left label : Z) : Z :=
  if label <=? left then default 0 (inp !! Z.to_nat (label - 1)) else 0.

Lemma sip_tail_case_spec inp left label acc :
  bytes_ok inp → 0 ≤ left ≤ Z.of_nat (length inp) → 1 ≤ label → 
  sip_tail_case inp left label (acc ≪ (8 * label)) =
  Some ((acc * 256 + tail_byte inp left label) ≪ (8 * (label - 1))).
Proof.
  intros Hb Hleft Hlabel. unfold sip_tail_case, tail_byte.
  assert (Hsh : acc ≪ (8 * label) = (acc ≪ 8) ≪ (8 * (label - 1))).
  { rewrite Z.shiftl_shiftl by lia. f_equal. lia. }
  destruct (Z.leb_spec label left).
  - destruct (aget_is_Some inp (label - 1)) as [x Hx]; [lia|].
    rewrite Hx. cbn [mbind option_bind]. pose proof (Forall_aget _ _ _ _ Hb Hx) as Hx8.
    apply aget_Some in Hx as [_ ->]. simpl. f_equal.
    rewrite Hsh, <- Z.shiftl_lor, Z.lor_comm. f_equal.
    rewrite lor_shiftl_add by (try lia; exact Hx8). pow_const. lia.
  - rewrite Hsh, (Z.shiftl_mul_pow2 acc 8), Z.add_0_r by lia. done.
Qed.

(** The last word of the padded message, byte by byte. *)
Definition last_word (inp : list Z) (left : nat) (b : Z) : list Z :=
  take left inp ++ replicate (7 - left) 0 ++ [b].

Lemma last_word_lookup inp left b i :
  (left ≤ length inp)%nat → (left < 8)%nat → (i < 7)%nat →
  last_word inp left b !! i = Some (tail_byte inp (Z.of_nat left) (Z.of_nat i + 1)).
Proof.
  intros Hlen Hleft Hi. unfold last_word, tail_byte.
  replace (Z.to_nat (Z.of_nat i + 1 - 1)) with i by lia.
  destruct (Z.leb_spec (Z.of_nat i + 1) (Z.of_nat left)).
  - rewrite lookup_app_l by (rewrite length_take_le; lia).
    rewrite lookup_take_lt by lia.
    destruct (lookup_lt_is_Some_2 inp i) as [x ->]; [lia|done].
  - rewrite lookup_app_r by (rewrite length_take_le; lia).
    rewrite length_take_le by lia. rewrite lookup_app_l by (rewrite length_replicate; lia).
    apply lookup_replicate_2. lia.
Qed.

Lemma last_word_length inp left b :
  (left ≤ length inp)%nat → (left < 8)%nat → length (last_word inp left b) = 8%nat.
Proof.
  intros. unfold last_word. rewrite !length_app, length_take_le, length_replicate by lia.
  simpl. lia.
Qed.

Lemma last_word_last inp left b :
  (left ≤ length inp)%nat → (left < 8)%nat → last_word inp left b !! 7%nat = Some b.
Proof.
  intros. unfold last_word. rewrite lookup_app_r by (rewrite length_take_le; lia).
  rewrite length_take_le by lia. rewrite lookup_app_r by (rewrite length_replicate; lia).
  rewrite length_replicate. by replace (7 - left - (7 - left))%nat with 0%nat by lia.
Qed.

Lemma sip_tail_spec inp left b :
  bytes_ok inp → (left < 8)%nat → (left ≤ length inp)%nat →
  sip_tail inp (Z.of_nat left) (b ≪ 56) = Some (le_val (last_word inp left b)).
Proof.
  intros Hl Hleft Hlen. unfold sip_tail.
  change 56 with (8 * 7).
  rewrite (sip_tail_case_spec inp _ 7) by (done || lia). cbn [mbind option_bind].
  rewrite (sip_tail_case_spec inp _ 6) by (done || lia). cbn [mbind option_bind].
  rewrite (sip_tail_case_spec inp _ 5) by (done || lia). cbn [mbind option_bind].
  rewrite (sip_tail_case_spec inp _ 4) by (done || lia). cbn [mbind option_bind].
  rewrite (sip_tail_case_spec inp _ 3) by (done || lia). cbn [mbind option_bind].
  rewrite (sip_tail_case_spec inp _ 2) by (done || lia). cbn [mbind option_bind].
  rewrite (sip_tail_case_spec inp _ 1) by (done || lia). f_equal.
  change (8 * (1 - 1)) with 0. rewrite Z.shiftl_0_r.
  pose proof (last_word_length inp left b Hlen Hleft) as HT.
  pose proof (last_word_last inp left b Hlen Hleft) as H7.
  pose proof (λ i, last_word_lookup inp left b i Hlen Hleft) as H.
  pose proof (H 0%nat ltac:(lia)) as H0. pose proof (H 1%nat ltac:(lia)) as H1.
  pose proof (H 2%nat ltac:(lia)) as H2. pose proof (H 3%nat ltac:(lia)) as H3.
  pose proof (H 4%nat ltac:(lia)) as H4. pose proof (H 5%nat ltac:(lia)) as H5.
  pose proof (H 6%nat ltac:(lia)) as H6. clear H.
  generalize dependent (last_word inp left b). intros T HT.
  do 8 (destruct T as [|? T]; [done|]). destruct T; [|done].
  cbn [lookup list_lookup]. intros [= ->] [= ->] [= ->] [= ->] [= ->] [= ->] [= ->] [= ->].
  cbn [le_val].
  change (Z.of_nat 0 + 1) with 1. change (Z.of_nat 1 + 1) with 2. change (Z.of_nat 2 + 1) with 3.
  change (Z.of_nat 3 + 1) with 4. change (Z.of_nat 4 + 1) with 5. change (Z.of_nat 5 + 1) with 6.
  change (Z.of_nat 6 + 1) with 7. lia.
Qed.

(** ** The whole function *)

Lemma words_snoc n l : words (S n) l = words n l ++ [le_val (take 8 (drop (8 * n) l))].
Proof. unfold words. by rewrite seq_S, fmap_app. Qed.

Lemma words_prefix n l l' : (8 * n ≤ length l)%nat → words n (l ++ l') = words n l.
Proof.
  intros Hn. induction n as [|n IH]; [done|].
  rewrite !words_snoc, IH by lia. do 2 f_equal.
  rewrite drop_app_le by lia. by rewrite take_app_le by (rewrite length_drop; lia).
Qed.

Lemma sip_loop_spec inp n s :
  bytes_ok inp → (8 * n ≤ length inp)%nat → sip_ok s →
  ∃ s', for_loop n 0 (sip_word inp) s = Some s' ∧
        sip_ok s' ∧ tup s' = foldl sip_compress_ref (tup s) (words n inp).
Proof.
  intros Hb Hlen Hs.
  destruct (for_loop_invariant
    (λ k t, sip_ok t ∧ tup t = foldl sip_compress_ref (tup s) (words (Z.to_nat k) inp))
    n 0 (sip_word inp) s)
    as (s' & Hs' & Hok & Htup).
  - done.
  - intros k t Hk [Hok Htup].
    assert (Hd : bytes_ok (drop (Z.to_nat (8 * k)) inp)) by by apply Forall_drop.
    unfold sip_word. rewrite U8TO64_LE_spec by (try done; rewrite length_drop; lia).
    eexists. split; [done|].
    edestruct (sip_compress_spec _ t Hok (take8_u64 _ Hd)) as [H1 H2].
    split; [exact H1|]. rewrite H2, Htup.
    replace (Z.to_nat (k + 1)) with (S (Z.to_nat k)) by lia.
    rewrite words_snoc, foldl_snoc. do 4 f_equal. lia.
  - exists s'. split; [done|]. split; [done|]. rewrite Htup. do 2 f_equal. lia.
Qed.

(** The padded message: its whole words, then the bytes left with the length. *)
Lemma sip_pad_words msg :
  words (S (length msg / 8)) (sip_pad msg) =
  words (length msg / 8) msg ++
  [le_val (last_word (drop (8 * (length msg / 8)) msg) (length msg mod 8)
             (Z.of_nat (length msg) mod 256))].
Proof.
  pose proof (Nat.div_mod_eq (length msg) 8) as Hdm.
  pose proof (Nat.mod_upper_bound (length msg) 8 ltac:(lia)) as Hm.
  rewrite words_snoc. unfold sip_pad at 1. rewrite words_prefix by lia.
  do 3 f_equal. unfold sip_pad, last_word. rewrite drop_app_le by lia.
  rewrite (take_ge (drop _ msg) (length msg mod 8)) by (rewrite length_drop; lia).
  rewrite take_ge; [done|].
  rewrite !length_app, length_drop, length_replicate. simpl length. lia.
Qed.

(** Bytes of the buffer after the message do not matter. *)
Lemma last_word_take inp n m left b :
  (n + left ≤ m)%nat →
  last_word (drop n (take m inp)) left b = last_word (drop n inp) left b.
Proof.
  intros. unfold last_word. f_equal.
  rewrite skipn_firstn_comm, take_take. f_equal. lia.
Qed.

Lemma words_take n m inp : (8 * n ≤ m)%nat → (m ≤ length inp)%nat →
  words n inp = words n (take m inp).
Proof.
  intros. rewrite <- (take_drop m inp) at 1. apply words_prefix.
  rewrite length_take_le by lia. lia.
Qed.

Lemma last_word_ok inp left b : bytes_ok inp → is_u8 b → bytes_ok (last_word inp left b).
Proof.
  intros. unfold last_word. repeat apply Forall_app_2.
  - by apply Forall_take.
  - apply Forall_replicate. wrap.
  - by constructor.
Qed.

Lemma sip_finish_spec s :
  sip_ok s →
  let s' := {| s with v2 := v2 s .^ 0xff |} in
  let s4 := SIPROUND (SIPROUND (SIPROUND (SIPROUND s'))) in
  let '(a, b, c, d) := Nat.iter 4 sip_round_ref (v0 s, v1 s, v2 s .^ 255, v3 s) in
  v0 s4 .^ v1 s4 .^ v2 s4 .^ v3 s4 = a .^ b .^ c .^ d ∧
  is_u64 (v0 s4 .^ v1 s4 .^ v2 s4 .^ v3 s4).
Proof.
  intros (H0 & H1 & H2 & H3). cbv zeta.
  set (s' := {| s with v2 := v2 s .^ 0xff |}).
  assert (Hs' : sip_ok s').
  { split_and!; cbn; try done. apply lxor_u64; [done|split; [lia|reflexivity]]. }
  destruct (SIPROUND_iter_ref 4 s' Hs') as [(?&?&?&?) Heq].
  change (Nat.iter 4 SIPROUND s') with (SIPROUND (SIPROUND (SIPROUND (SIPROUND s')))) in *.
  change (tup s') with (v0 s, v1 s, v2 s .^ 255, v3 s) in Heq.
  generalize dependent (SIPROUND (SIPROUND (SIPROUND (SIPROUND s')))).
  intros s4 ? ? ? ? Heq. rewrite <- Heq. unfold tup. split; [done|]. auto 6 with sip.
Qed.

Lemma siphash24_compute_spec inp inlen k :
  bytes_ok inp → bytes_ok k → (16 ≤ length k)%nat →
  0 ≤ inlen ≤ Z.of_nat (length inp) →
  siphash24_compute inp inlen k =
  Some (le_bytes 8 (siphash_ref k (take (Z.to_nat inlen) inp))).
Proof.
  intros Hinp Hk Hklen Hlen.
  set (msg := take (Z.to_nat inlen) inp).
  assert (Hmlen : length msg = Z.to_nat inlen) by (unfold msg; rewrite length_take; lia).
  unfold siphash24_compute, siphash_ref. cbv zeta.
  rewrite (U8TO64_LE_spec k) by (done || lia).
  rewrite (U8TO64_LE_spec (drop 8 k)) by (try (by apply Forall_drop); rewrite length_drop; lia).
  pose proof (take8_u64 k Hk) as Hk0.
  pose proof (take8_u64 (drop 8 k) ltac:(by apply Forall_drop)) as Hk1.
  generalize dependent (le_val (take 8 k)). intros k0 Hk0.
  generalize dependent (le_val (take 8 (drop 8 k))). intros k1 Hk1.
  cbn [mbind option_bind v0 v1 v2 v3].
  match goal with |- context [for_loop _ _ _ ?s] => set (s0 := s) end.
  assert (Hs0 : sip_ok s0).
  { split_and!; cbn; apply lxor_u64; done || (split; [lia|reflexivity]). }
  pose proof (Nat.div_mod_eq (length msg) 8) as Hdm.
  pose proof (Nat.mod_upper_bound (length msg) 8 ltac:(lia)) as Hm.
  replace (Z.to_nat ((inlen - inlen mod 8) / 8)) with (length msg / 8)%nat by lia.
  replace (Z.to_nat (inlen - inlen mod 8)) with (8 * (length msg / 8))%nat by lia.
  replace (inlen .& 7) with (Z.of_nat (length msg mod 8)).
  2: { change 7 with (Z.ones 3). rewrite land_ones_mod by lia. change (2 ^ 3) with 8. lia. }
  replace (u64 (inlen ≪ 56)) with ((Z.of_nat (length msg) mod 256) ≪ 56).
  2: { rewrite !Z.shiftl_mul_pow2 by lia. wrap_unfold. pow_const. lia. }
  destruct (sip_loop_spec inp (length msg / 8) s0) as (s1 & -> & Hs1 & Htup);
    [done|lia|done|].
  cbn [mbind option_bind].
  rewrite sip_tail_spec
    by (try (by apply Forall_drop); rewrite ?length_drop; lia).
  cbn [mbind option_bind].
  rewrite sip_pad_words, foldl_snoc.
  rewrite (last_word_take inp _ (Z.to_nat inlen) : ∀ left b, _ →
    last_word (drop (8 * (length msg / 8)) msg) left b = _) by lia.
  set (b := le_val (last_word _ _ _)).
  assert (Hb : is_u64 b).
  { apply le_val_u64; [apply last_word_ok; [by apply Forall_drop|wrap]|].
    rewrite last_word_length by (rewrite ?length_drop; lia). lia. }
  rewrite (words_take (length msg / 8) (Z.to_nat inlen) inp) in Htup by lia.
  replace (k0 .^ 0x736f6d6570736575, _, _, _) with (tup s0) by
    (unfold tup; cbn; rewrite !(Z.lxor_comm k0), !(Z.lxor_comm k1); done).
  fold msg in Htup. rewrite <- Htup.
  destruct (sip_compress_spec b s1 Hs1 Hb) as [Hs2 Htup2]. rewrite <- Htup2.
  generalize dependent (sip_compress b s1). intros s2 Hs2 _.
  pose proof (sip_finish_spec s2 Hs2) as Hfin. cbv zeta in Hfin. unfold tup.
  destruct (Nat.iter 4 sip_round_ref _) as [[[xa xb] xc] xd].
  destruct Hfin as [Hfin Hr]. by rewrite U64TO8_LE_spec, Hfin.
Qed.

(** Both functions are only ever used through this theorem. *)
#[global] Opaque siphash24_compute siphash_ref.

(** ** Property *)

(** C34: the unrolled, byte-wise SipHash of the library reads nothing outside
    its arguments and computes SipHash-2-4 of the first [inlen] bytes, written
    least significant byte first. *)
Theorem siphash24_correct inp inlen k :
  bytes_ok inp → bytes_ok k → (16 ≤ length k)%nat → 0 ≤ inlen ≤ Z.of_nat (length inp) →
  siphash24_compute inp inlen k = Some (le_bytes 8 (siphash_ref k (take (Z.to_nat inlen) inp))).
Proof. apply siphash24_compute_spec. Qed.
