(* ===== verification/Bitstream.v ===== *)
(** * The bit stream of nexus_util.c

    A window of bits over a byte array, most significant bit of each byte
    first.  The operations are the code's shifts and masks on the byte under
    the cursor; the theorems say that they read and write the bits of the
    array at the cursor, and that what was pushed is what is pulled. *)

From S2P Require Import Prelude.
Local Open Scope Z_scope.
Local Open Scope c_scope.

(** [struct nexus_bitstream]: [data] is the array the stream points to, the
    other fields count bits and are 16 bits wide. *)
Record nexus_bitstream := mk_nexus_bitstream {
  bs_data : list Z;
  bs_capacity : Z;
  bs_length : Z;
  bs_position : Z
}.

Definition nexus_bitstream_init (bytes : list Z) (capacity length : Z) : nexus_bitstream :=
  mk_nexus_bitstream bytes capacity length 0.

Definition nexus_bitstream_set_bit_position (position : Z) : M nexus_bitstream unit :=
  modify (λ s, {| s with bs_position := position |}).

Definition nexus_bitstream_push_bit (pushed : bool) : M nexus_bitstream unit :=
  position ← gets bs_position;
  data ← gets bs_data;
  let byte_position := position ≫ 3 in
  let shift := u8 ((byte_position + 1) * 8 - position - 1) in
  byte ← lift (aget data byte_position);
  data ← lift (aset data byte_position
                 (u8 ((((byte ≫ shift) .& 0xfe) .| Z.b2z pushed) ≪ shift)));
  modify (λ s, {| s with bs_data := data |});;
  modify (λ s, {| s with bs_position := u16 (bs_position s + 1) |});;
  s ← get_state;
  when (bs_length s <? bs_position s)
    (modify (λ s, {| s with bs_length := u16 (bs_length s + 1) |})).

(** The body of the loop; the loop variable is the byte still to push. *)
Definition push_uint8_body (bits _i : Z) (x : Z * nexus_bitstream) : option (Z * nexus_bitstream) :=
  let '(pushed, s) := x in
  let bit := negb ((pushed ≫ (bits - 1)) .& 0x01 =? 0) in
  '(_, s) ← nexus_bitstream_push_bit bit s;
  Some (u8 (pushed ≪ 1), s).

Definition nexus_bitstream_push_uint8 (pushed bits : Z) : M nexus_bitstream unit := λ s,
  '(_, s) ← for_loop (Z.to_nat bits) 0 (push_uint8_body bits) (pushed, s);
  Some (tt, s).

Definition nexus_bitstream_pull_bit : M nexus_bitstream bool :=
  position ← gets bs_position;
  data ← gets bs_data;
  let byte_position := position ≫ 3 in
  let shift := u8 ((byte_position + 1) * 8 - position - 1) in
  byte ← lift (aget data byte_position);
  modify (λ s, {| s with bs_position := u16 (bs_position s + 1) |});;
  mret (negb ((byte ≫ shift) .& 0x01 =? 0)).

Definition pull_uint8_body (_i : Z) (x : Z * nexus_bitstream) : option (Z * nexus_bitstream) :=
  let '(pulled, s) := x in
  '(b, s) ← nexus_bitstream_pull_bit s;
  Some (u8 ((pulled ≪ 1) .| Z.b2z b), s).

Definition nexus_bitstream_pull_uint8 (bits : Z) : M nexus_bitstream Z := λ s,
  for_loop (Z.to_nat bits) 0 pull_uint8_body (0, s).

Definition nexus_bitstream_pull_uint16_be (bits : Z) : M nexus_bitstream Z :=
  let msbyte_bits := u8 (if 8 <? bits then 8 else bits) in
  let lsbyte_bits := u8 (if 8 <? bits then bits - 8 else 0) in
  pulled ← nexus_bitstream_pull_uint8 msbyte_bits;
  let pulled := u16 (pulled ≪ lsbyte_bits) in
  low ← nexus_bitstream_pull_uint8 lsbyte_bits;
  mret (pulled .| low).

(** ** The bits of an array *)

(** Bit [i] of the array, counted from the top bit of its first byte. *)
Definition bit_at (data : list Z) (i : Z) : bool :=
  Z.testbit (default 0 (data !! Z.to_nat (i / 8))) (7 - i mod 8).

(** The number that [n] consecutive bits from [pos] spell, first bit highest. *)
Fixpoint bits_val (data : list Z) (pos : Z) (n : nat) : Z :=
  match n with
  | O => 0
  | S n' => 2 * bits_val data pos n' + Z.b2z (bit_at data (pos + Z.of_nat n'))
  end.

Definition bs_bits (s : nexus_bitstream) : Z := 8 * Z.of_nat (length (bs_data s)).

(** The cursor is inside the array and 16 bits count its bits. *)
Definition bs_ok (s : nexus_bitstream) : Prop :=
  bytes_ok (bs_data s) ∧ bs_bits s < 65536 ∧ 0 ≤ bs_position s ≤ bs_bits s ∧
  0 ≤ bs_length s ≤ bs_bits s.

Lemma bits_val_range data pos n : 0 ≤ bits_val data pos n < 2 ^ Z.of_nat n.
Proof.
  induction n as [|n IH]; [done|].
  rewrite Nat2Z.inj_succ, Z.pow_succ_r by lia. cbn [bits_val].
  destruct (bit_at _ _); simpl Z.b2z; lia.
Qed.

Lemma bits_val_add data pos n m :
  bits_val data pos (n + m) =
  bits_val data pos n * 2 ^ Z.of_nat m + bits_val data (pos + Z.of_nat n) m.
Proof.
  induction m as [|m IH].
  - rewrite Nat.add_0_r. cbn [bits_val]. simpl (2 ^ _). lia.
  - rewrite Nat.add_succ_r, Nat2Z.inj_succ, Z.pow_succ_r by lia. cbn [bits_val].
    rewrite IH. replace (pos + Z.of_nat n + Z.of_nat m) with (pos + Z.of_nat (n + m)) by lia.
    lia.
Qed.

Lemma bits_val_ext data data' pos n :
  (∀ i, pos ≤ i < pos + Z.of_nat n → bit_at data i = bit_at data' i) →
  bits_val data pos n = bits_val data' pos n.
Proof.
  induction n as [|n IH]; intros H; [done|]. cbn [bits_val].
  rewrite IH by (intros; apply H; lia). rewrite H by lia. done.
Qed.

Lemma bs_shift_eq p : 0 ≤ p < 65536 → u8 ((p ≫ 3 + 1) * 8 - p - 1) = 7 - p mod 8.
Proof. intros. rewrite Z.shiftr_div_pow2 by lia. pow_const. wrap. Qed.

Lemma bs_byte_eq p : p ≫ 3 = p / 8.
Proof. by rewrite Z.shiftr_div_pow2 by lia. Qed.

Lemma shiftr_land_1 x k : 0 ≤ k → negb ((x ≫ k) .& 1 =? 0) = Z.testbit x k.
Proof.
  intros Hk. change 1 with (Z.ones 1). rewrite land_ones_mod by lia.
  change (2 ^ 1) with 2. rewrite Zmod_odd.
  rewrite <- (Z.add_0_l k) at 2. rewrite <- Z.shiftr_spec, Z.bit0_odd by lia.
  by destruct (Z.odd _).
Qed.

Lemma bs_ok_byte s :
  bs_ok s → bs_position s < bs_bits s →
  ∃ x, bs_data s !! Z.to_nat (bs_position s / 8) = Some x ∧ is_u8 x ∧
       aget (bs_data s) (bs_position s ≫ 3) = Some x.
Proof.
  intros (Hd & _ & Hp & _) Hlt. unfold bs_bits in *. rewrite bs_byte_eq.
  destruct (aget_is_Some (bs_data s) (bs_position s / 8)) as [x Hx]; [lia|].
  exists x. split_and!; [by apply aget_Some in Hx as [_ ?]|by eapply Forall_aget|done].
Qed.

(** ** Pulling *)

Lemma pull_bit_spec s :
  bs_ok s → bs_position s < bs_bits s →
  nexus_bitstream_pull_bit s =
  Some (bit_at (bs_data s) (bs_position s), {| s with bs_position := bs_position s + 1 |}).
Proof.
  intros Hok Hlt. destruct (bs_ok_byte s Hok Hlt) as (x & Hx & Hx8 & Hget).
  destruct Hok as (Hd & H16 & Hp & Hl).
  unfold nexus_bitstream_pull_bit. mstep. rewrite Hget. cbn [mbind option_bind].
  rewrite bs_shift_eq by lia. rewrite shiftr_land_1 by lia.
  rewrite u16_small by wrap. unfold bit_at. by rewrite Hx.
Qed.

Lemma bs_ok_position s p :
  bs_ok s → 0 ≤ p ≤ bs_bits s → bs_ok {| s with bs_position := p |}.
Proof. intros (?&?&?&?) ?. split_and!; cbn; try done; tauto. Qed.

Lemma pull_uint8_spec bits s :
  bs_ok s → 0 ≤ bits ≤ 8 → bs_position s + bits ≤ bs_bits s →
  nexus_bitstream_pull_uint8 bits s =
  Some (bits_val (bs_data s) (bs_position s) (Z.to_nat bits),
        {| s with bs_position := bs_position s + bits |}).
Proof.
  intros Hok Hbits Hfit. unfold nexus_bitstream_pull_uint8.
  assert (Hpos : 0 ≤ bs_position s) by (destruct Hok as (_ & _ & [? _] & _); done).
  destruct (for_loop_invariant
    (λ k x, x = (bits_val (bs_data s) (bs_position s) (Z.to_nat k),
                 {| s with bs_position := bs_position s + k |}))
    (Z.to_nat bits) 0 pull_uint8_body (0, s)) as (r & Hr & ->).
  - simpl. rewrite Z.add_0_r. by destruct s.
  - intros k x Hk ->. eexists. split; [|reflexivity].
    unfold pull_uint8_body. rewrite pull_bit_spec; cbn [bs_position bs_data].
    + cbn [mbind option_bind]. do 2 f_equal.
      * replace (Z.to_nat (k + 1)) with (S (Z.to_nat k)) by lia. cbn [bits_val].
        rewrite Z2Nat.id by lia.
        pose proof (bits_val_range (bs_data s) (bs_position s) (Z.to_nat k)) as Hv.
        set (v := bits_val _ _ _) in *. set (b := bit_at _ _).
        rewrite Z.lor_comm, (lor_shiftl_add _ _ 1) by (destruct b; cbn; lia).
        change (2 ^ 1) with 2.
        assert (2 ^ Z.of_nat (Z.to_nat k) ≤ 2 ^ 7) by (apply Z.pow_le_mono_r; lia).
        pow_const. rewrite u8_small by (destruct b; cbn; wrap). lia.
      * f_equal. lia.
    + apply bs_ok_position; [done|lia].
    + unfold bs_bits in *. cbn. lia.
  - by rewrite Hr, Z.add_0_l, Z2Nat.id by lia.
Qed.

Lemma bs_bits_position s p : bs_bits {| s with bs_position := p |} = bs_bits s.
Proof. done. Qed.

Lemma pull_uint16_be_spec bits s :
  bs_ok s → 0 ≤ bits ≤ 16 → bs_position s + bits ≤ bs_bits s →
  nexus_bitstream_pull_uint16_be bits s =
  Some (bits_val (bs_data s) (bs_position s) (Z.to_nat bits),
        {| s with bs_position := bs_position s + bits |}).
Proof.
  intros Hok Hbits Hfit. unfold nexus_bitstream_pull_uint16_be.
  assert (Hpos : 0 ≤ bs_position s) by (destruct Hok as (_ & _ & [? _] & _); done).
  set (ms := u8 (if 8 <? bits then 8 else bits)).
  set (ls := u8 (if 8 <? bits then bits - 8 else 0)).
  assert (Hms : 0 ≤ ms ≤ 8 ∧ 0 ≤ ls ≤ 8 ∧ ms + ls = bits).
  { unfold ms, ls. destruct (Z.ltb_spec 8 bits); rewrite !u8_small by wrap; lia. }
  cbv zeta. rewrite (bind_Some _ _ _ _ _ (pull_uint8_spec ms s Hok ltac:(lia) ltac:(lia))).
  rewrite (bind_Some _ _ _ _ _
    (pull_uint8_spec ls {| s with bs_position := bs_position s + ms |}
       ltac:(apply bs_ok_position; [done|lia]) ltac:(lia)
       ltac:(rewrite bs_bits_position; cbn; lia))).
  cbn [bs_data bs_position]. unfold mret, M_ret. rewrite <- Z.add_assoc, (proj2 (proj2 Hms)). do 2 f_equal.
  replace (Z.to_nat bits) with (Z.to_nat ms + Z.to_nat ls)%nat by lia.
  rewrite bits_val_add, !Z2Nat.id by lia.
  pose proof (bits_val_range (bs_data s) (bs_position s) (Z.to_nat ms)) as Hv.
  pose proof (bits_val_range (bs_data s) (bs_position s + ms) (Z.to_nat ls)) as Hw.
  rewrite Z2Nat.id in Hv, Hw by lia.
  assert (2 ^ ms ≤ 2 ^ 8) by (apply Z.pow_le_mono_r; lia).
  assert (2 ^ ls ≤ 2 ^ 8) by (apply Z.pow_le_mono_r; lia).
  assert (0 < 2 ^ ls) by (apply Z.pow_pos_nonneg; lia).
  rewrite u16_small by (rewrite Z.shiftl_mul_pow2 by lia; pow_const; wrap_unfold; nia).
  rewrite Z.lor_comm, lor_shiftl_add by lia. lia.
Qed.

(** ** Pushing *)

(** The byte [push_bit] stores: the bits above the cursor, the new bit, zeros. *)
Definition push_byte (x sh : Z) (b : bool) : Z :=
  u8 ((((x ≫ sh) .& 0xfe) .| Z.b2z b) ≪ sh).

Lemma testbit_b2z b i : 0 ≤ i → Z.testbit (Z.b2z b) i = (i =? 0) && b.
Proof.
  intros. destruct (Z.eqb_spec i 0) as [->|]; [by destruct b|].
  destruct b; [|by rewrite Z.testbit_0_l]. apply (testbit_high 1 1); lia.
Qed.

Lemma testbit_fe i : 0 ≤ i → Z.testbit 0xfe i = (0 <? i) && (i <? 8).
Proof.
  intros. destruct (Z.ltb_spec i 8); [|by rewrite (testbit_high _ 8), andb_comm by lia].
  assert (Hi : i = 0 ∨ i = 1 ∨ i = 2 ∨ i = 3 ∨ i = 4 ∨ i = 5 ∨ i = 6 ∨ i = 7) by lia.
  repeat destruct Hi as [->|Hi]; [done..|]. by subst.
Qed.

Lemma push_byte_bit x sh b j :
  is_u8 x → 0 ≤ sh < 8 → 0 ≤ j < 8 →
  Z.testbit (push_byte x sh b) j =
  if j <? sh then false else if j =? sh then b else Z.testbit x j.
Proof.
  intros Hx Hsh Hj. unfold push_byte, u8. change 256 with (2 ^ 8).
  rewrite Z.mod_pow2_bits_low, Z.shiftl_spec by lia.
  destruct (Z.ltb_spec j sh); [apply Z.testbit_neg_r; lia|].
  rewrite Z.lor_spec, Z.land_spec, Z.shiftr_spec, testbit_fe, testbit_b2z by lia.
  replace (j - sh + sh) with j by lia.
  destruct (Z.eqb_spec j sh) as [->|].
  - rewrite Z.sub_diag. by rewrite andb_false_r.
  - replace (j - sh =? 0) with false by lia. replace (0 <? j - sh) with true by lia.
    replace (j - sh <? 8) with true by lia. by rewrite orb_false_r, andb_true_r.
Qed.

Lemma bit_at_insert data k x i :
  (k < length data)%nat → 0 ≤ i →
  bit_at (<[k := x]> data) i =
  if decide (Z.to_nat (i / 8) = k) then Z.testbit x (7 - i mod 8) else bit_at data i.
Proof.
  intros Hk Hi. unfold bit_at. case_decide as Heq.
  - subst k. by rewrite list_lookup_insert_eq.
  - by rewrite list_lookup_insert_ne.
Qed.

(** What one pushed bit does: the bits already before the cursor stay, the bit
    at the cursor is the pushed one, the cursor moves on and the length covers
    it. *)
Definition pushed_ok (s s' : nexus_bitstream) (bits : Z) : Prop :=
  length (bs_data s') = length (bs_data s) ∧ bytes_ok (bs_data s') ∧
  bs_capacity s' = bs_capacity s ∧
  bs_position s' = bs_position s + bits ∧
  bs_length s' = Z.max (bs_length s) (bs_position s + bits) ∧
  (∀ i, 0 ≤ i < bs_position s → bit_at (bs_data s') i = bit_at (bs_data s) i).

Lemma push_bit_spec b s :
  bs_ok s → bs_position s < bs_bits s → bs_position s ≤ bs_length s →
  ∃ s', nexus_bitstream_push_bit b s = Some (tt, s') ∧ pushed_ok s s' 1 ∧
        bit_at (bs_data s') (bs_position s) = b.
Proof.
  intros Hok Hlt Hple. destruct (bs_ok_byte s Hok Hlt) as (x & Hx & Hx8 & Hget).
  destruct Hok as (Hd & H16 & Hp & Hl). unfold bs_bits in *.
  unfold nexus_bitstream_push_bit. mstep. rewrite Hget. cbn [mbind option_bind].
  rewrite bs_shift_eq, bs_byte_eq, aset_in by lia. cbn [mbind option_bind].
  fold (push_byte x (7 - bs_position s mod 8) b).
  cbn [bs_position bs_length bs_data bs_capacity].
  set (y := push_byte _ _ _).
  assert (Hdata : ∀ i, 0 ≤ i ≤ bs_position s →
    bit_at (<[Z.to_nat (bs_position s / 8):=y]> (bs_data s)) i =
    if i =? bs_position s then b else bit_at (bs_data s) i).
  { intros i Hi. rewrite bit_at_insert by lia. case_decide as Heq.
    - unfold y. rewrite push_byte_bit by (done || lia).
      destruct (Z.eqb_spec i (bs_position s)) as [->|].
      + by rewrite Z.ltb_irrefl, Z.eqb_refl.
      + replace (7 - i mod 8 <? _) with false by lia.
        replace (7 - i mod 8 =? _) with false by lia.
        unfold bit_at. by rewrite Heq, Hx.
    - by replace (i =? bs_position s) with false by lia. }
  rewrite (u16_small (bs_position s + 1)) by wrap.
  destruct (Z.ltb_spec (bs_length s) (bs_position s + 1));
    (eexists; split; [reflexivity|]; split; [split_and!; cbn|]; cbn).
  all: try done; try (by rewrite length_insert).
  all: try (apply Forall_insert; [done|apply u8_range]).
  all: try (rewrite Hdata by lia; by rewrite Z.eqb_refl).
  all: try (intros i Hi; rewrite Hdata by lia; by replace (i =? _) with false by lia).
  - rewrite u16_small by wrap. lia.
  - lia.
Qed.

Lemma pushed_ok_bs_ok s s' n :
  bs_ok s → pushed_ok s s' n → 0 ≤ n → bs_position s + n ≤ bs_bits s → 
  bs_ok s' ∧ bs_bits s' = bs_bits s.
Proof.
  intros (?&?&?&?) (Hlen & ? & _ & Hpos & Hl & _) ??. unfold bs_ok, bs_bits in *.
  rewrite Hlen, Hpos, Hl. split_and!; (done || lia).
Qed.

(** The low [bits] bits of a byte, written as the loop shifts them out. *)
Lemma shifted_out_bit pushed bits k :
  is_u8 pushed → 0 ≤ k < bits → bits ≤ 8 →
  negb ((u8 (pushed * 2 ^ k) ≫ (bits - 1)) .& 1 =? 0) = Z.testbit pushed (bits - 1 - k).
Proof.
  intros Hp Hk Hb. rewrite shiftr_land_1 by lia. unfold u8. change 256 with (2 ^ 8).
  rewrite Z.mod_pow2_bits_low by lia. rewrite <- Z.shiftl_mul_pow2 by lia.
  rewrite Z.shiftl_spec by lia. done.
Qed.

Lemma push_uint8_spec pushed bits s :
  bs_ok s → is_u8 pushed → 0 ≤ bits ≤ 8 →
  bs_position s + bits ≤ bs_bits s → bs_position s ≤ bs_length s →
  ∃ s', nexus_bitstream_push_uint8 pushed bits s = Some (tt, s') ∧ pushed_ok s s' bits ∧
        ∀ i, 0 ≤ i < bits →
             bit_at (bs_data s') (bs_position s + i) = Z.testbit pushed (bits - 1 - i).
Proof.
  intros Hok Hp Hb Hfit Hple. unfold nexus_bitstream_push_uint8.
  pose proof Hok as (_ & _ & Hpos & _).
  destruct (for_loop_invariant
    (λ k x, x.1 = u8 (pushed * 2 ^ k) ∧ pushed_ok s x.2 k ∧
            ∀ i, 0 ≤ i < k →
             bit_at (bs_data x.2) (bs_position s + i) = Z.testbit pushed (bits - 1 - i))
    (Z.to_nat bits) 0 (push_uint8_body bits) (pushed, s)) as ([p s'] & Hr & _ & Hs' & Hbits).
  - cbn. rewrite Z.mul_1_r, u8_small by done. split; [done|].
    destruct Hok as (?&?&?&?). split; [|lia]. split_and!; (done || lia).
  - intros k [p t] Hk (Hpk & Ht & Hbits). cbn [fst snd] in *. subst p.
    destruct (pushed_ok_bs_ok s t k Hok Ht ltac:(lia) ltac:(lia)) as [Htok Htb].
    destruct Ht as (T1 & T2 & T3 & T4 & T5 & T6).
    cbn [push_uint8_body]. rewrite shifted_out_bit by (done || lia).
    destruct (push_bit_spec (Z.testbit pushed (bits - 1 - k)) t Htok)
      as (t' & -> & (U1 & U2 & U3 & U4 & U5 & U6) & Hnew); [lia..|].
    cbn [mbind option_bind]. eexists. split; [reflexivity|]. cbn [fst snd].
    split_and!.
    + rewrite Z.pow_add_r, Z.shiftl_mul_pow2 by lia. wrap_unfold.
      rewrite Z.mul_mod_idemp_l by lia. f_equal. lia.
    + split_and!; try (done || congruence || lia). intros i Hi.
      rewrite U6 by lia. apply T6. lia.
    + intros i Hi. destruct (decide (i = k)) as [->|].
      * by rewrite <- T4.
      * rewrite U6 by lia. apply Hbits. lia.
  - rewrite Hr. cbn [mbind option_bind]. exists s'. split; [done|].
    replace (0 + Z.of_nat (Z.to_nat bits)) with bits in * by lia. done.
Qed.

Lemma bits_val_testbit data pos n v :
  (∀ i, 0 ≤ i < Z.of_nat n → bit_at data (pos + i) = Z.testbit v (Z.of_nat n - 1 - i)) →
  bits_val data pos n = v mod 2 ^ Z.of_nat n.
Proof.
  revert v. induction n as [|n IH]; intros v H; [by rewrite Z.mod_1_r|].
  cbn [bits_val]. rewrite (IH (v / 2)).
  - rewrite H by lia. replace (Z.of_nat (S n) - 1 - Z.of_nat n) with 0 by lia.
    rewrite Nat2Z.inj_succ, Z.pow_succ_r by lia.
    rewrite (Z.rem_mul_r v) by (try lia; apply Z.pow_pos_nonneg; lia).
    rewrite Z.bit0_odd, (Zmod_odd v). unfold Z.b2z. destruct (Z.odd v); ring.
  - intros i Hi. rewrite H, Z.div2_bits by lia. f_equal. lia.
Qed.

(** [nexus_bitstream_push_uint8] then, from the same cursor,
    [nexus_bitstream_pull_uint8] gives the low bits of the byte pushed. *)
Lemma push_pull_uint8 pushed bits s :
  bs_ok s → is_u8 pushed → 0 ≤ bits ≤ 8 →
  bs_position s + bits ≤ bs_bits s → bs_position s ≤ bs_length s →
  ∃ s', (nexus_bitstream_push_uint8 pushed bits;;
         nexus_bitstream_set_bit_position (bs_position s);;
         nexus_bitstream_pull_uint8 bits) s = Some (pushed mod 2 ^ bits, s') ∧
        pushed_ok s s' bits.
Proof.
  intros Hok Hp Hb Hfit Hple.
  destruct (push_uint8_spec pushed bits s Hok Hp Hb Hfit Hple) as (t & Ht & Hpo & Hbits).
  rewrite (bind_Some _ _ _ _ _ Ht).
  unfold nexus_bitstream_set_bit_position.
  erewrite bind_Some by reflexivity.
  destruct (pushed_ok_bs_ok s t bits Hok Hpo ltac:(lia) Hfit) as [Htok Htb].
  pose proof Hok as (_ & _ & Hpos & _).
  rewrite pull_uint8_spec; cbn [bs_position bs_data].
  - destruct Hpo as (P1 & P2 & P3 & P4 & P5 & P6).
    rewrite (bits_val_testbit _ _ _ pushed) by (rewrite Z2Nat.id by lia; done).
    rewrite Z2Nat.id by lia. eexists. split; [reflexivity|]. split_and!; cbn; done.
  - apply bs_ok_position; [done|lia].
  - done.
  - rewrite bs_bits_position. lia.
Qed.

(** ** Property *)

(** Up to eight bits pushed at the end of a bit stream are pulled back from
    where they were pushed, and the bits before them are unchanged. *)
Theorem bitstream_round_trip pushed bits s :
  bs_ok s → is_u8 pushed → 0 ≤ bits ≤ 8 →
  bs_position s + bits ≤ bs_bits s → bs_position s ≤ bs_length s →
  ∃ s', (nexus_bitstream_push_uint8 pushed bits;;
         nexus_bitstream_set_bit_position (bs_position s);;
         nexus_bitstream_pull_uint8 bits) s = Some (pushed mod 2 ^ bits, s') ∧
        bs_position s' = bs_position s + bits ∧
        ∀ i, 0 ≤ i < bs_position s → bit_at (bs_data s') i = bit_at (bs_data s) i.
Proof.
  intros Hok Hp Hb Hfit Hlen.
  destruct (push_pull_uint8 pushed bits s Hok Hp Hb Hfit Hlen) as (s' & Hrun & (_ & _ & _ & Hpos & _ & Hkeep)).
  by exists s'.
Qed.
