(* ===== verification/Digits.v ===== *)
(** * The digit stream of nexus_util.c

    A cursor over ASCII digits.  [pull_uint32] does not look at the stream's
    length, only [try_pull_uint32], [pull_uint8] and [pull_uint16] do; the
    model reads the memory the stream points to, so a pull past the array is
    undefined and a pull past the length but inside the array is not. *)


From S2P Require Import Prelude.
Local Open Scope Z_scope.

Record nexus_digits := mk_nexus_digits {
  dg_chars : list Z;
  dg_length : Z;
  dg_position : Z
}.

Definition nexus_digits_init (chars : list Z) (length : Z) : nexus_digits :=
  mk_nexus_digits chars length 0.

Definition nexus_digits_length_in_digits (d : nexus_digits) : Z := dg_length d.
Definition nexus_digits_position (d : nexus_digits) : Z := dg_position d.
Definition nexus_digits_remaining (d : nexus_digits) : Z := u16 (dg_length d - dg_position d).

(** The loop body of [_chars_to_uint32], on the characters from [pos]. *)
Definition chars_to_uint32_body (chars : list Z) (pos : Z) (i value : Z) : option Z :=
  c ← aget chars (pos + i);
  Some (u32 (value * 10 + u32 (c - 48))).

Definition _chars_to_uint32 (chars : list Z) (pos count : Z) : option Z :=
  for_loop (Z.to_nat count) 0 (chars_to_uint32_body chars pos) 0.

Definition nexus_digits_pull_uint32 (count : Z) : M nexus_digits Z :=
  d ← get_state;
  value ← lift (_chars_to_uint32 (dg_chars d) (dg_position d) count);
  modify (λ d, {| d with dg_position := u16 (count + dg_position d) |});;
  mret value.

(** The result is the value and the new [*underrun]. *)
Definition nexus_digits_try_pull_uint32 (count : Z) (underrun : bool) : M nexus_digits (Z * bool) :=
  remaining ← gets nexus_digits_remaining;
  if underrun || (remaining <? count)
  then mret (UINT32_MAX, true)
  else value ← nexus_digits_pull_uint32 count; mret (value, underrun).

Definition nexus_digits_pull_uint8 (count : Z) : M nexus_digits Z :=
  remaining ← gets nexus_digits_remaining;
  if remaining <? count then mret UINT8_MAX
  else
    result ← nexus_digits_pull_uint32 count;
    if UINT8_MAX <? result then mret UINT8_MAX else mret (u8 result).

Definition nexus_digits_pull_uint16 (count : Z) : M nexus_digits Z :=
  remaining ← gets nexus_digits_remaining;
  if remaining <? count then mret UINT16_MAX
  else
    result ← nexus_digits_pull_uint32 count;
    if UINT16_MAX <? result then mret UINT16_MAX else mret (u16 result).

(** ** Decimal numbers *)

Definition is_digit_char (c : Z) : Prop := 48 ≤ c ≤ 57.
#[export] Instance is_digit_char_dec c : Decision (is_digit_char c).
Proof. unfold is_digit_char. apply _. Defined.

(** The number a list of digit characters spells, first digit highest. *)
Fixpoint dec_val_from (v : Z) (l : list Z) : Z :=
  match l with
  | [] => v
  | c :: l' => dec_val_from (v * 10 + (c - 48)) l'
  end.
Definition dec_val (l : list Z) : Z := dec_val_from 0 l.

(** [n] digit characters of [v], with leading zeros. *)
Fixpoint dec_digits (n : nat) (v : Z) : list Z :=
  match n with
  | O => []
  | S n' => dec_digits n' (v / 10) ++ [48 + v mod 10]
  end.

Lemma dec_val_from_app v l1 l2 : dec_val_from v (l1 ++ l2) = dec_val_from (dec_val_from v l1) l2.
Proof. revert v. induction l1 as [|c l1 IH]; intros v; [done|]. apply IH. Qed.

Lemma dec_val_snoc l c : dec_val (l ++ [c]) = dec_val l * 10 + (c - 48).
Proof. unfold dec_val. by rewrite dec_val_from_app. Qed.

Lemma dec_val_range l :
  Forall is_digit_char l → 0 ≤ dec_val l < 10 ^ Z.of_nat (length l).
Proof.
  induction l as [|c l IH] using rev_ind; intros Hl; [done|].
  apply Forall_app in Hl as [Hl [Hc _]%Forall_cons].
  rewrite dec_val_snoc, length_app, Nat2Z.inj_add, Z.pow_add_r by lia.
  specialize (IH Hl). unfold is_digit_char in Hc. simpl (10 ^ Z.of_nat (length [c])). lia.
Qed.

Lemma dec_digits_length n v : length (dec_digits n v) = n.
Proof. revert v. induction n as [|n IH]; intros v; [done|]. simpl. rewrite length_app, IH. simpl. lia. Qed.

Lemma dec_digits_ok n v : Forall is_digit_char (dec_digits n v).
Proof.
  revert v. induction n as [|n IH]; intros v; [done|]. simpl.
  apply Forall_app_2; [apply IH|]. constructor; [|done]. unfold is_digit_char. lia.
Qed.

Lemma dec_val_digits n v : 0 ≤ v → dec_val (dec_digits n v) = v mod 10 ^ Z.of_nat n.
Proof.
  revert v. induction n as [|n IH]; intros v Hv; [by rewrite Z.mod_1_r|].
  cbn [dec_digits]. rewrite dec_val_snoc, IH by lia.
  rewrite Nat2Z.inj_succ, Z.pow_succ_r by lia.
  rewrite (Z.rem_mul_r v) by (try lia; apply Z.pow_pos_nonneg; lia). lia.
Qed.

(** ** What the pulls return *)

Lemma aget_take_drop (l : list Z) (p n : nat) i x :
  take n (drop p l) !! i = Some x → aget l (Z.of_nat p + Z.of_nat i) = Some x.
Proof.
  intros H. rewrite aget_lookup by lia.
  apply lookup_take_Some in H as [H _]. rewrite lookup_drop in H.
  by replace (Z.to_nat _) with (p + i)%nat by lia.
Qed.

(** The characters [pull_uint32 count] reads from the stream [d]. *)
Definition next_digits (d : nexus_digits) (count : Z) : list Z :=
  take (Z.to_nat count) (drop (Z.to_nat (dg_position d)) (dg_chars d)).

Lemma next_digits_length d count :
  0 ≤ dg_position d → 0 ≤ count → dg_position d + count ≤ Z.of_nat (length (dg_chars d)) →
  length (next_digits d count) = Z.to_nat count.
Proof. intros. unfold next_digits. rewrite length_take, length_drop. lia. Qed.

Lemma chars_to_uint32_spec d count :
  0 ≤ dg_position d → 0 ≤ count → dg_position d + count ≤ Z.of_nat (length (dg_chars d)) →
  _chars_to_uint32 (dg_chars d) (dg_position d) count = Some (u32 (dec_val (next_digits d count))).
Proof.
  intros Hp Hc Hfit. unfold _chars_to_uint32.
  pose proof (next_digits_length d count Hp Hc Hfit) as Hlen.
  destruct (for_loop_invariant
    (λ k v, v = u32 (dec_val (take (Z.to_nat k) (next_digits d count))))
    (Z.to_nat count) 0 (chars_to_uint32_body (dg_chars d) (dg_position d)) 0) as (r & Hr & ->).
  - done.
  - intros k v Hk ->.
    destruct (lookup_lt_is_Some_2 (next_digits d count) (Z.to_nat k)) as [c Hc']; [lia|].
    unfold chars_to_uint32_body.
    pose proof (aget_take_drop _ _ _ _ _ Hc') as Hget. rewrite !Z2Nat.id in Hget by lia.
    rewrite Hget. cbn [mbind option_bind]. eexists. split; [reflexivity|].
    replace (Z.to_nat (k + 1)) with (S (Z.to_nat k)) by lia.
    rewrite (take_S_r _ _ _ Hc'), dec_val_snoc. unfold u32.
    rewrite Z.add_mod_idemp_r by lia.
    rewrite (Z.add_mod (_ mod _ * 10)), Z.mul_mod_idemp_l, <- Z.add_mod by lia. done.
  - rewrite Hr. f_equal. rewrite take_ge by lia. done.
Qed.

Lemma pull_uint32_spec d count :
  0 ≤ dg_position d → 0 ≤ count → dg_position d + count ≤ Z.of_nat (length (dg_chars d)) →
  count + dg_position d < 65536 →
  nexus_digits_pull_uint32 count d =
  Some (u32 (dec_val (next_digits d count)), {| d with dg_position := dg_position d + count |}).
Proof.
  intros Hp Hc Hfit H16. unfold nexus_digits_pull_uint32. mstep.
  rewrite chars_to_uint32_spec by done. cbn [mbind option_bind].
  rewrite u16_small by wrap. by rewrite Z.add_comm.
Qed.

(** Up to nine digits never wrap. *)
Lemma next_digits_small d count n :
  Forall is_digit_char (next_digits d count) → length (next_digits d count) = Z.to_nat count →
  0 ≤ count ≤ n → 0 ≤ dec_val (next_digits d count) < 10 ^ n.
Proof.
  intros Hd Hlen Hc. pose proof (dec_val_range _ Hd) as H. rewrite Hlen in H.
  split; [lia|]. apply Z.lt_le_trans with (10 ^ Z.of_nat (Z.to_nat count)); [lia|].
  apply Z.pow_le_mono_r; lia.
Qed.

Lemma digits_pull_uint8_spec d count :
  0 ≤ dg_position d → 0 ≤ count ≤ 9 → dg_position d + count ≤ dg_length d →
  dg_length d ≤ Z.of_nat (length (dg_chars d)) → dg_length d < 65536 →
  Forall is_digit_char (next_digits d count) →
  nexus_digits_pull_uint8 count d =
  Some (Z.min UINT8_MAX (dec_val (next_digits d count)),
        {| d with dg_position := dg_position d + count |}).
Proof.
  intros Hp Hc Hfit Hlen H16 Hd. unfold nexus_digits_pull_uint8, nexus_digits_remaining.
  cbn [mbind M_bind gets]. unfold mbind, M_bind, gets.
  rewrite u16_small by wrap. replace (dg_length d - dg_position d <? count) with false by lia.
  rewrite pull_uint32_spec by lia.
  pose proof (next_digits_small d count 9 Hd ltac:(apply next_digits_length; lia) ltac:(lia)) as Hv.
  pow_const. change (10 ^ 9) with 1000000000 in Hv.
  rewrite u32_small by wrap. unfold UINT8_MAX.
  destruct (Z.ltb_spec 255 (dec_val (next_digits d count))); unfold mret, M_ret.
  - by rewrite Z.min_l by lia.
  - by rewrite Z.min_r, u8_small by (try wrap; lia).
Qed.

(** ** Property *)

(** Nine or fewer decimal digits anywhere in a buffer are pulled as the
    number they write, and the position moves past them; as a byte they are
    pulled up to 255, and 255 stands for anything larger. *)
Theorem digits_round_trip pre n v post len :
  0 ≤ v < 10 ^ Z.of_nat n → (n ≤ 9)%nat → Z.of_nat (length pre) + Z.of_nat n ≤ len →
  len ≤ Z.of_nat (length (pre ++ dec_digits n v ++ post)) → len < 65536 →
  let d := mk_nexus_digits (pre ++ dec_digits n v ++ post) len (Z.of_nat (length pre)) in
  let d' := {| d with dg_position := Z.of_nat (length pre) + Z.of_nat n |} in
  nexus_digits_pull_uint32 (Z.of_nat n) d = Some (v, d') ∧
  nexus_digits_pull_uint8 (Z.of_nat n) d = Some (Z.min 255 v, d').
Proof.
  intros Hv Hn Hfit Hlen H16 d d'.
  assert (Hnext : next_digits d (Z.of_nat n) = dec_digits n v).
  { unfold next_digits, d. cbn [dg_position dg_chars].
    rewrite !Nat2Z.id, drop_app_length, take_app_le, take_ge by (rewrite dec_digits_length; lia). done. }
  assert (Hval : dec_val (next_digits d (Z.of_nat n)) = v)
    by (rewrite Hnext, dec_val_digits, Z.mod_small by lia; done).
  assert (H9 : 10 ^ Z.of_nat n ≤ 10 ^ 9) by (apply Z.pow_le_mono_r; lia). change (10 ^ 9) with 1000000000 in H9.
  split.
  - rewrite pull_uint32_spec by (cbn [d dg_position dg_chars]; lia). by rewrite Hval, u32_small by wrap.
  - rewrite digits_pull_uint8_spec by (cbn [d dg_position dg_chars dg_length]; rewrite ?Hnext; auto using dec_digits_ok; lia).
    by rewrite Hval.
Qed.

(** ** Digits: pulls at known positions, and the shift by pseudorandom digits

    Shared by the full keypad protocol and the origin commands of Nexus
    Channel, which both hide the digits of a message by shifting each by a
    pseudorandom byte derived from the check. *)


(** ** Pulls from a buffer whose digits are known *)

Definition digits_at (chars : list Z) (len pos : Z) : nexus_digits := mk_nexus_digits chars len pos.

Lemma next_digits_at pre ds post len n :
  n = Z.of_nat (length ds) →
  next_digits (digits_at (pre ++ ds ++ post) len (Z.of_nat (length pre))) n = ds.
Proof.
  intros ->. unfold next_digits. cbn [dg_position dg_chars digits_at].
  rewrite !Nat2Z.id, drop_app_length, take_app_length. done.
Qed.

(** The conditions under which [ds] is what the next pull reads. *)
Record pullable (chars : list Z) (len pos n : Z) (ds : list Z) : Prop := mk_pullable {
  pull_next : next_digits (digits_at chars len pos) n = ds;
  pull_digits : Forall is_digit_char ds;
  pull_count : 0 ≤ n ≤ 9;
  pull_pos : 0 ≤ pos;
  pull_fit : pos + n ≤ len;
  pull_len : len ≤ Z.of_nat (length chars);
  pull_u16 : len < 65536
}.

Lemma pull32_at chars len pos n ds :
  pullable chars len pos n ds →
  nexus_digits_pull_uint32 n (digits_at chars len pos) =
  Some (dec_val ds, digits_at chars len (pos + n)).
Proof.
  intros [Hn Hd Hc Hp Hf Hl H16]. rewrite pull_uint32_spec by (cbn; lia). rewrite Hn.
  assert (0 ≤ dec_val ds < 10 ^ 9).
  { rewrite <- Hn. apply next_digits_small with (count := n); [by rewrite Hn| |lia].
    apply next_digits_length; cbn; lia. }
  rewrite u32_small by (change (10 ^ 9) with 1000000000 in *; wrap). done.
Qed.

Lemma pull8_at chars len pos n ds :
  pullable chars len pos n ds →
  nexus_digits_pull_uint8 n (digits_at chars len pos) =
  Some (Z.min 255 (dec_val ds), digits_at chars len (pos + n)).
Proof.
  intros [Hn Hd Hc Hp Hf Hl H16].
  rewrite (digits_pull_uint8_spec (digits_at chars len pos) n) by (cbn; try lia; by rewrite Hn). by rewrite Hn.
Qed.

(** ** Interleaving *)

(** The digit [k] shifted down and up by the pseudorandom byte [p]. *)
Definition deinterleave_key (k p : Z) : Z := (u8 (k - 48) - p) mod 10 + 48.

Definition interleave_key (k p : Z) : Z := (k - 48 + p) mod 10 + 48.

Lemma deinterleave_interleave k p :
  is_digit_char k → is_u8 p → deinterleave_key (interleave_key k p) p = k.
Proof.
  intros Hk Hp. unfold deinterleave_key, interleave_key, is_digit_char in *.
  rewrite u8_small by wrap. lia.
Qed.


Lemma deinterleave_zip body prng :
  Forall is_digit_char body → bytes_ok prng → length body = length prng →
  zip_with deinterleave_key (zip_with interleave_key body prng) prng = body.
Proof.
  intros Hbd. revert prng. induction Hbd as [|k body Hk Hbd IH]; intros [|p prng] Hpb Hl; try done.
  apply Forall_cons in Hpb as [Hp Hpb]. cbn [zip_with].
  rewrite deinterleave_interleave by done. f_equal. apply IH; [done|]. by injection Hl.
Qed.

Lemma interleave_zip_digits body prng : Forall is_digit_char (zip_with interleave_key body prng).
Proof.
  revert prng. induction body as [|k body IH]; intros [|p prng]; cbn; [done..|].
  constructor; [|apply IH]. unfold interleave_key, is_digit_char. lia.
Qed.

Lemma deinterleave_zip_digits keys prng : Forall is_digit_char (zip_with deinterleave_key keys prng).
Proof.
  revert prng. induction keys as [|k keys IH]; intros [|p prng]; cbn; [done..|].
  constructor; [|apply IH]. unfold deinterleave_key, is_digit_char. lia.
Qed.
