(* ===== verification/Window.v ===== *)
(** * Bit sets and identifier windows of nexus_util.c

    A window remembers which of the last [flags_below + 1] identifiers up to
    its centre were received, and accepts identifiers up to [flags_above]
    past it; it is the replay protection of keycodes and of origin commands.
    [window_set_id_flag_spec] is the abstract contract: a window is the set of
    received identifiers that are not yet below it. *)

From S2P Require Import Prelude.
Local Open Scope Z_scope.
Local Open Scope c_scope.

(** ** Bit sets *)

Definition _bitset_get_indices (element : Z) : Z * Z :=
  let byte_index := u8 (element ≫ 3) in
  (byte_index, u8 (element - byte_index * 8)).

Definition nexus_bitset_add (bytes : list Z) (element : Z) : option (list Z) :=
  let '(byte_index, bit_index) := _bitset_get_indices element in
  x ← aget bytes byte_index;
  aset bytes byte_index (u8 (x .| u8 (1 ≪ bit_index))).

Definition nexus_bitset_remove (bytes : list Z) (element : Z) : option (list Z) :=
  let '(byte_index, bit_index) := _bitset_get_indices element in
  x ← aget bytes byte_index;
  aset bytes byte_index (u8 (x .& u8 (Z.lnot (u8 (1 ≪ bit_index))))).

Definition nexus_bitset_contains (bytes : list Z) (element : Z) : option bool :=
  let '(byte_index, bit_index) := _bitset_get_indices element in
  x ← aget bytes byte_index;
  Some (negb (x .& (1 ≪ bit_index) =? 0)).

Definition nexus_bitset_clear (bytes : list Z) : list Z := replicate (length bytes) 0.

(** Membership: bit [e mod 8] of byte [e / 8]. *)
Definition mem (bytes : list Z) (e : Z) : bool :=
  Z.testbit (default 0 (bytes !! Z.to_nat (e / 8))) (e mod 8).

Lemma bitset_indices_eq e :
  0 ≤ e < 2048 → _bitset_get_indices e = (e / 8, e mod 8).
Proof.
  intros He. unfold _bitset_get_indices. rewrite Z.shiftr_div_pow2 by lia. pow_const.
  rewrite (u8_small (e / 8)) by wrap. rewrite u8_small by wrap. f_equal. lia.
Qed.

Lemma land_shiftl_1 x k : 0 ≤ k → negb (x .& (1 ≪ k) =? 0) = Z.testbit x k.
Proof.
  intros Hk. destruct (Z.testbit x k) eqn:Hb.
  - destruct (Z.eqb_spec (x .& (1 ≪ k)) 0) as [H0|]; [|done].
    assert (Hc : Z.testbit (x .& (1 ≪ k)) k = true).
    { by rewrite Z.land_spec, Hb, Z.shiftl_spec, Z.sub_diag by lia. }
    by rewrite H0, Z.bits_0 in Hc.
  - replace (x .& (1 ≪ k)) with 0; [done|]. symmetry. apply Z.bits_inj'. intros i Hi.
    rewrite Z.bits_0, Z.land_spec, Z.shiftl_spec by lia.
    destruct (Z.eq_dec i k) as [->|]; [by rewrite Hb|].
    destruct (Z.lt_ge_cases i k); [by rewrite (Z.testbit_neg_r 1), andb_false_r by lia|].
    rewrite (testbit_high 1 1), andb_false_r by lia. done.
Qed.

Lemma testbit_shiftl_1 k i : 0 ≤ k → 0 ≤ i → Z.testbit (1 ≪ k) i = (i =? k).
Proof.
  intros Hk Hi. rewrite Z.shiftl_spec by lia.
  destruct (Z.eqb_spec i k) as [->|]; [by rewrite Z.sub_diag|].
  destruct (Z.lt_ge_cases i k); [apply Z.testbit_neg_r; lia|]. apply (testbit_high 1 1); lia.
Qed.

Definition bitset_ok (bytes : list Z) : Prop := bytes_ok bytes ∧ (length bytes < 256)%nat.
Definition bitset_size (bytes : list Z) : Z := 8 * Z.of_nat (length bytes).

Lemma bitset_byte bytes e :
  bitset_ok bytes → 0 ≤ e < bitset_size bytes →
  _bitset_get_indices e = (e / 8, e mod 8) ∧
  ∃ x, aget bytes (e / 8) = Some x ∧ bytes !! Z.to_nat (e / 8) = Some x ∧ is_u8 x.
Proof.
  intros [Hb Hl] He. unfold bitset_size in He. split; [apply bitset_indices_eq; lia|].
  destruct (aget_is_Some bytes (e / 8)) as [x Hx]; [lia|].
  exists x. split_and!; [done|by apply aget_Some in Hx as [_ ?]|by eapply Forall_aget].
Qed.

Lemma bitset_contains_spec bytes e :
  bitset_ok bytes → 0 ≤ e < bitset_size bytes →
  nexus_bitset_contains bytes e = Some (mem bytes e).
Proof.
  intros Hb He. destruct (bitset_byte bytes e Hb He) as (Hi & x & Hx & Hx' & _).
  unfold nexus_bitset_contains. rewrite Hi, Hx. cbn [mbind option_bind].
  rewrite land_shiftl_1 by lia. unfold mem. by rewrite Hx'.
Qed.

(** Updating the byte of [e] with [y], a byte that differs from the old one at
    the bit of [e] only, changes the membership of [e] only. *)
Lemma mem_insert bytes e x y b i :
  0 ≤ e → 0 ≤ i → bytes !! Z.to_nat (e / 8) = Some x →
  (∀ j, 0 ≤ j < 8 → Z.testbit y j = if j =? e mod 8 then b else Z.testbit x j) →
  mem (<[Z.to_nat (e / 8) := y]> bytes) i = if i =? e then b else mem bytes i.
Proof.
  intros He Hi Hx Hy. unfold mem. pose proof (lookup_lt_Some _ _ _ Hx).
  destruct (decide (Z.to_nat (i / 8) = Z.to_nat (e / 8))) as [Heq|Hne].
  - rewrite Heq, list_lookup_insert_eq, Hx by done. simpl. rewrite Hy by lia.
    destruct (Z.eqb_spec (i mod 8) (e mod 8)), (Z.eqb_spec i e); (done || lia).
  - rewrite list_lookup_insert_ne by done.
    destruct (Z.eqb_spec i e) as [->|]; [done|done].
Qed.

Lemma bitset_add_spec bytes e :
  bitset_ok bytes → 0 ≤ e < bitset_size bytes →
  ∃ bytes', nexus_bitset_add bytes e = Some bytes' ∧
    bitset_ok bytes' ∧ length bytes' = length bytes ∧
    ∀ i, 0 ≤ i → mem bytes' i = (i =? e) || mem bytes i.
Proof.
  intros Hb He. destruct (bitset_byte bytes e Hb He) as (Hi & x & Hx & Hx' & Hx8).
  unfold nexus_bitset_add. rewrite Hi, Hx. cbn [mbind option_bind].
  unfold bitset_size in He. rewrite aset_in by lia. eexists. split; [reflexivity|].
  destruct Hb as [Hb Hl]. split; [split; [apply Forall_insert; [done|apply u8_range]|by rewrite length_insert]|].
  split; [by rewrite length_insert|]. intros i Hi0.
  rewrite (mem_insert bytes e x _ true); [by destruct (i =? e)|lia..|done|].
  intros j Hj. unfold u8. change 256 with (2 ^ 8). rewrite Z.mod_pow2_bits_low by lia.
  rewrite Z.lor_spec, Z.mod_pow2_bits_low, testbit_shiftl_1 by lia.
  destruct (j =? e mod 8); [apply orb_true_r|apply orb_false_r].
Qed.

Lemma bitset_remove_spec bytes e :
  bitset_ok bytes → 0 ≤ e < bitset_size bytes →
  ∃ bytes', nexus_bitset_remove bytes e = Some bytes' ∧
    bitset_ok bytes' ∧ length bytes' = length bytes ∧
    ∀ i, 0 ≤ i → mem bytes' i = negb (i =? e) && mem bytes i.
Proof.
  intros Hb He. destruct (bitset_byte bytes e Hb He) as (Hi & x & Hx & Hx' & Hx8).
  unfold nexus_bitset_remove. rewrite Hi, Hx. cbn [mbind option_bind].
  unfold bitset_size in He. rewrite aset_in by lia. eexists. split; [reflexivity|].
  destruct Hb as [Hb Hl]. split; [split; [apply Forall_insert; [done|apply u8_range]|by rewrite length_insert]|].
  split; [by rewrite length_insert|]. intros i Hi0.
  rewrite (mem_insert bytes e x _ false); [by destruct (i =? e)|lia..|done|].
  intros j Hj. unfold u8. change 256 with (2 ^ 8). rewrite Z.mod_pow2_bits_low by lia.
  rewrite Z.land_spec, Z.mod_pow2_bits_low, Z.lnot_spec, Z.mod_pow2_bits_low by lia.
  rewrite testbit_shiftl_1 by lia.
  destruct (j =? e mod 8); [apply andb_false_r|apply andb_true_r].
Qed.

Lemma mem_replicate n e : mem (replicate n 0) e = false.
Proof.
  unfold mem. destruct (_ !! _) as [x|] eqn:Hx; simpl; [|apply Z.bits_0].
  apply lookup_replicate in Hx as [-> _]. apply Z.bits_0.
Qed.

Lemma bitset_clear_spec bytes :
  bitset_ok bytes →
  bitset_ok (nexus_bitset_clear bytes) ∧
  length (nexus_bitset_clear bytes) = length bytes ∧
  ∀ e, mem (nexus_bitset_clear bytes) e = false.
Proof.
  intros [Hb Hl]. unfold nexus_bitset_clear, bitset_ok. rewrite length_replicate.
  split_and!; [apply Forall_replicate; wrap|done|done|apply mem_replicate].
Qed.

(** ** Moving a mask down by [inc] places

    The loop shared by [nexus_util_window_set_id_flag] and
    [nexus_keycode_pro_increase_pd_and_shift_window_right]:
    [for (i = inc; i <= below; i++) if (old contains i) new add (i - inc)]. *)

Definition shift_mask_body (old : list Z) (inc : Z) (i : Z) (new : list Z) : option (list Z) :=
  c ← nexus_bitset_contains old (u16 i);
  if (c : bool) then nexus_bitset_add new (u16 (i - inc)) else Some new.

Definition shift_mask (old : list Z) (inc below : Z) (new : list Z) : option (list Z) :=
  for_loop (Z.to_nat (below + 1 - inc)) inc (shift_mask_body old inc) new.

Lemma shift_mask_spec old new inc below :
  bitset_ok old → bitset_ok new → 0 ≤ inc ≤ below →
  below < bitset_size old → below - inc < bitset_size new →
  (∀ e, mem new e = false) →
  ∃ new', shift_mask old inc below new = Some new' ∧
    bitset_ok new' ∧ length new' = length new ∧
    ∀ j, 0 ≤ j → mem new' j = (j + inc <=? below) && mem old (j + inc).
Proof.
  intros Ho Hn Hinc Hob Hnb Hempty.
  assert (Hsz : bitset_size old < 65536) by (destruct Ho as [_ Ho]; unfold bitset_size; clear -Ho; lia).
  unfold shift_mask.
  destruct (for_loop_invariant
    (λ i new', bitset_ok new' ∧ length new' = length new ∧
       ∀ j, 0 ≤ j → mem new' j = (j + inc <? i) && mem old (j + inc))
    (Z.to_nat (below + 1 - inc)) inc (shift_mask_body old inc) new)
    as (new' & Hr & Hok & Hlen & Hmem).
  - split_and!; [done|done|]. intros j Hj. rewrite Hempty.
    by replace (j + inc <? inc) with false by lia.
  - intros i t Hi (Htok & Htlen & Htmem). unfold shift_mask_body.
    rewrite (u16_small i), (u16_small (i - inc)) by wrap.
    rewrite bitset_contains_spec by (done || lia).
    cbn [mbind option_bind].
    destruct (mem old i) eqn:Hold.
    +
      destruct (bitset_add_spec t (i - inc) Htok) as (t' & -> & H1 & H2 & H3).
      { unfold bitset_size in *. rewrite Htlen. lia. }
      exists t'. split; [done|]. split_and!; [done|congruence|]. intros j Hj.
      rewrite H3, Htmem by lia. destruct (Z.eqb_spec j (i - inc)) as [->|].
      * replace (i - inc + inc) with i by lia. rewrite Hold.
        by replace (i <? i + 1) with true by lia.
      * simpl. f_equal. lia.
    + exists t. split; [done|]. split_and!; [done|done|]. intros j Hj. rewrite Htmem by lia.
      destruct (Z.eq_dec (j + inc) i) as [->|].
      * by rewrite Hold, !andb_false_r.
      * f_equal. lia.
  - exists new'. split_and!; [done..|]. intros j Hj. rewrite Hmem by lia. f_equal.
    apply eq_true_iff_eq. rewrite Z.ltb_lt, Z.leb_le. lia.
Qed.

(** ** Windows *)

Definition NEXUS_UTIL_MAX_WINDOW_BITSET_SIZE_BYTES : nat := 5.

Record nexus_window := mk_nexus_window {
  center_index : Z;
  flags : list Z;
  flags_below : Z;
  flags_above : Z
}.

Definition nexus_util_window_init (flag_array : list Z) (flag_array_bytes : nat)
    (center_index flags_below flags_above : Z) : nexus_window :=
  mk_nexus_window center_index (take flag_array_bytes flag_array) flags_below flags_above.

Definition nexus_util_window_id_within_window (w : nexus_window) (id : Z) : bool :=
  let window_min := u32 (center_index w - flags_below w) in
  let window_max := u32 (center_index w + flags_above w) in
  (window_min <=? id) && (id <=? window_max).

Definition _nexus_util_window_mask_idx_from_id (w : nexus_window) (id : Z) : option Z :=
  if negb (nexus_util_window_id_within_window w id) then None
  else
    let center_idx := center_index w in
    if id <=? center_idx
    then Some (u8 (flags_below w - u32 (center_idx - id)))
    else Some (u8 (flags_below w + u32 (id - center_idx))).

(** The outer option is a flag read outside the array. *)
Definition nexus_util_window_id_flag_already_set (w : nexus_window) (id : Z) : option bool :=
  if (center_index w <? id) || negb (nexus_util_window_id_within_window w id)
  then Some false
  else match _nexus_util_window_mask_idx_from_id w id with
       | None => Some false
       | Some mask_id_index => nexus_bitset_contains (flags w) mask_id_index
       end.

Definition nexus_util_window_set_id_flag (id : Z) : M nexus_window bool :=
  w ← get_state;
  let old_center := center_index w in
  if u32 (old_center + flags_above w) <? id then mret false
  else if id <? u32 (old_center - flags_below w) then mret false
  else match _nexus_util_window_mask_idx_from_id w id with
  | None => mret false
  | Some mask_id_index =>
    if id <=? center_index w then
      new ← lift (nexus_bitset_add (flags w) mask_id_index);
      modify (λ w, {| w with flags := new |});;
      mret true
    else
      let center_increment := u32 (id - old_center) in
      (if flags_below w <? center_increment
       then modify (λ w, {| w with flags := nexus_bitset_clear (flags w) |})
       else
         new_mask ← lift (shift_mask (flags w) center_increment (flags_below w)
                            (replicate NEXUS_UTIL_MAX_WINDOW_BITSET_SIZE_BYTES 0));
         modify (λ w, {| w with flags := take (length (flags w)) new_mask |}));;
      modify (λ w, {| w with center_index := id |});;
      w ← get_state;
      new ← lift (nexus_bitset_add (flags w) (flags_below w));
      modify (λ w, {| w with flags := new |});;
      mret true
  end.

(** The asserted shape of a window: its bytes hold exactly the flags below and
    at the centre, and its ends are 32-bit identifiers. *)
Definition window_ok (w : nexus_window) : Prop :=
  bitset_ok (flags w) ∧ (length (flags w) ≤ NEXUS_UTIL_MAX_WINDOW_BITSET_SIZE_BYTES)%nat ∧
  bitset_size (flags w) = flags_below w + 1 ∧
  0 ≤ flags_below w ∧ 0 ≤ flags_above w ∧ flags_below w + flags_above w < 256 ∧
  flags_below w ≤ center_index w ∧ center_index w + flags_above w < 4294967296.

(** The identifiers the window knows to be received. *)
Definition window_received (w : nexus_window) (id : Z) : Prop :=
  center_index w - flags_below w ≤ id ≤ center_index w ∧
  mem (flags w) (flags_below w - (center_index w - id)) = true.

Lemma within_window_spec w id :
  window_ok w →
  nexus_util_window_id_within_window w id = true ↔
  center_index w - flags_below w ≤ id ≤ center_index w + flags_above w.
Proof.
  intros (_ & _ & _ & ? & ? & ? & ? & ?). unfold nexus_util_window_id_within_window.
  rewrite !u32_small by wrap. rewrite andb_true_iff, !Z.leb_le. lia.
Qed.

Lemma mask_idx_spec w id :
  window_ok w →
  _nexus_util_window_mask_idx_from_id w id =
  if decide (center_index w - flags_below w ≤ id ≤ center_index w + flags_above w)
  then Some (flags_below w - (center_index w - id)) else None.
Proof.
  intros Hw. unfold _nexus_util_window_mask_idx_from_id.
  pose proof (within_window_spec w id Hw) as Hin.
  destruct Hw as (_ & _ & _ & ? & ? & ? & ? & ?).
  destruct (nexus_util_window_id_within_window w id); simpl.
  - rewrite decide_True by tauto. destruct Hin as [Hin _]. specialize (Hin eq_refl).
    destruct (Z.leb_spec id (center_index w)).
    + rewrite (u32_small (center_index w - id)), u8_small by wrap. done.
    + rewrite (u32_small (id - center_index w)), u8_small by wrap. f_equal. lia.
  - rewrite decide_False; [done|]. intros Hc. apply Hin in Hc. done.
Qed.

Lemma already_set_spec w id :
  window_ok w →
  ∃ b, nexus_util_window_id_flag_already_set w id = Some b ∧
       (b = true ↔ window_received w id).
Proof.
  intros Hw. unfold nexus_util_window_id_flag_already_set, window_received.
  rewrite mask_idx_spec by done. pose proof (within_window_spec w id Hw) as Hin.
  destruct (Z.ltb_spec (center_index w) id); simpl.
  { exists false. split; [done|]. split; [done|]. lia. }
  destruct (nexus_util_window_id_within_window w id); simpl.
  - destruct Hin as [Hin _]. specialize (Hin eq_refl). rewrite decide_True by lia.
    destruct Hw as (Hb & _ & Hsz & ? & _).
    rewrite bitset_contains_spec by (done || lia). eexists. split; [reflexivity|].
    split; [intros ->; split; [lia|done]|tauto].
  - exists false. split; [done|]. split; [done|]. intros [Hc _]. apply Hin. split; [lia|].
    destruct Hw as (_ & _ & _ & ? & ? & _). lia.
Qed.

(** The part of [set_id_flag] above the centre: what the flags are after the
    move, before the new centre is flagged. *)
Lemma shifted_flags_spec w inc :
  window_ok w → 0 < inc ≤ flags_below w →
  ∃ new, shift_mask (flags w) inc (flags_below w)
           (replicate NEXUS_UTIL_MAX_WINDOW_BITSET_SIZE_BYTES 0) = Some new ∧
    bitset_ok (take (length (flags w)) new) ∧
    length (take (length (flags w)) new) = length (flags w) ∧
    ∀ j, 0 ≤ j → mem (take (length (flags w)) new) j =
                 (j + inc <=? flags_below w) && mem (flags w) (j + inc).
Proof.
  intros (Hb & H5 & Hsz & ? & _) Hinc. pose proof Hb as [_ Hl].
  destruct (shift_mask_spec (flags w) (replicate NEXUS_UTIL_MAX_WINDOW_BITSET_SIZE_BYTES 0)
              inc (flags_below w)) as (new & Hnew & [Hok1 Hok2] & Hlen & Hmem).
  - done.
  - split; [apply Forall_replicate; wrap|rewrite length_replicate; unfold NEXUS_UTIL_MAX_WINDOW_BITSET_SIZE_BYTES; lia].
  - lia.
  - lia.
  - unfold bitset_size in *. rewrite length_replicate. lia.
  - apply mem_replicate.
  - rewrite length_replicate in Hlen.
    assert (Hlt : length (take (length (flags w)) new) = length (flags w))
      by (rewrite length_take; lia).
    exists new. split_and!; [done| |done|].
    + split; [by apply Forall_take|lia].
    + intros j Hj. rewrite <- Hmem by done. unfold mem, bitset_size in *.
      destruct (decide (Z.to_nat (j / 8) < length (flags w))%nat).
      * by rewrite lookup_take_lt by done.
      * rewrite lookup_take_ge by lia. specialize (Hmem j Hj). unfold mem in Hmem.
        rewrite Hmem. replace (j + inc <=? flags_below w) with false by lia. apply Z.bits_0.
Qed.

Lemma set_id_flag_outside w id :
  window_ok w → 0 ≤ id →
  ¬ (center_index w - flags_below w ≤ id ≤ center_index w + flags_above w) →
  nexus_util_window_set_id_flag id w = Some (false, w).
Proof.
  intros (_ & _ & _ & ? & ? & ? & ? & ?) Hid Hout. unfold nexus_util_window_set_id_flag. mstep.
  rewrite !u32_small by wrap.
  destruct (Z.ltb_spec (center_index w + flags_above w) id); [done|].
  destruct (Z.ltb_spec id (center_index w - flags_below w)); [done|]. lia.
Qed.

(** The flags of a window that moved its centre up by [inc]. *)
Definition moved_flags (w : nexus_window) (inc : Z) : M nexus_window unit :=
  if flags_below w <? inc
  then modify (λ w, {| w with flags := nexus_bitset_clear (flags w) |})
  else
    new_mask ← lift (shift_mask (flags w) inc (flags_below w)
                       (replicate NEXUS_UTIL_MAX_WINDOW_BITSET_SIZE_BYTES 0));
    modify (λ w, {| w with flags := take (length (flags w)) new_mask |}).

Lemma moved_flags_spec w inc :
  window_ok w → 0 < inc →
  ∃ new, moved_flags w inc w = Some (tt, {| w with flags := new |}) ∧
    bitset_ok new ∧ length new = length (flags w) ∧
    ∀ j, 0 ≤ j → mem new j = (j + inc <=? flags_below w) && mem (flags w) (j + inc).
Proof.
  intros Hw Hinc. unfold moved_flags. destruct (Z.ltb_spec (flags_below w) inc).
  - destruct Hw as (Hb & _). destruct (bitset_clear_spec (flags w) Hb) as (? & ? & Hm).
    eexists. split; [reflexivity|]. split_and!; [done..|]. intros j Hj. rewrite Hm.
    by replace (j + inc <=? flags_below w) with false by lia.
  - destruct (shifted_flags_spec w inc Hw ltac:(lia)) as (new & Hnew & ? & ? & ?).
    eexists. split; [|done]. mstep. by rewrite Hnew.
Qed.

(** A successful [set_id_flag] adds [id] to the received identifiers and drops
    those the moved window no longer covers. *)
Lemma window_set_id_flag_spec w id :
  window_ok w →
  center_index w - flags_below w ≤ id ≤ center_index w + flags_above w →
  id + flags_above w < 4294967296 →
  ∃ w', nexus_util_window_set_id_flag id w = Some (true, w') ∧ window_ok w' ∧
    center_index w' = Z.max (center_index w) id ∧
    flags_below w' = flags_below w ∧ flags_above w' = flags_above w ∧
    ∀ x, window_received w' x ↔
         center_index w' - flags_below w' ≤ x ∧ (x = id ∨ window_received w x).
Proof.
  intros Hw Hin Hid. unfold nexus_util_window_set_id_flag.
  pose proof Hw as (Hb & H5 & Hsz & ? & ? & ? & ? & ?).
  erewrite bind_Some by reflexivity. cbv zeta.
  rewrite (u32_small (center_index w + _)), (u32_small (center_index w - _)) by wrap.
  replace (center_index w + flags_above w <? id) with false by lia.
  replace (id <? center_index w - flags_below w) with false by lia.
  rewrite mask_idx_spec, decide_True by done.
  destruct (Z.leb_spec id (center_index w)) as [Hle|Hgt].
  - destruct (bitset_add_spec (flags w) (flags_below w - (center_index w - id)) Hb)
      as (new & Hnew & Hok & Hlen & Hmem); [lia|].
    mstep. rewrite Hnew. cbn [mbind option_bind]. eexists. split; [reflexivity|]. cbn.
    unfold bitset_size in *.
    split; [unfold window_ok, bitset_size; cbn; rewrite Hlen; split_and!; (done || lia)|].
    split_and!; [lia|done|done|]. intros x. unfold window_received. cbn.
    split.
    + intros [Hx Hm]. rewrite Hmem in Hm by lia. split; [lia|].
      apply orb_true_iff in Hm as [Hm|Hm]; [left; lia|right; done].
    + intros [Hx [->|[Hx2 Hm]]]; (split; [lia|]); rewrite Hmem by lia.
      * by rewrite Z.eqb_refl.
      * by rewrite Hm, orb_true_r.
  - rewrite (u32_small (id - center_index w)) by wrap.
    fold (moved_flags w (id - center_index w)).
    destruct (moved_flags_spec w (id - center_index w) Hw ltac:(lia)) as (new & Hnew & Hok & Hlen & Hmem).
    rewrite (bind_Some _ _ _ _ _ Hnew). mstep. cbn [flags flags_below].
    unfold bitset_size in *.
    destruct (bitset_add_spec new (flags_below w) Hok) as (new' & Hnew' & Hok' & Hlen' & Hmem').
    { unfold bitset_size. rewrite Hlen. lia. }
    rewrite Hnew'. cbn [mbind option_bind]. eexists. split; [reflexivity|]. cbn.
    split; [unfold window_ok, bitset_size; cbn; rewrite Hlen', Hlen; split_and!; (done || lia)|].
    split_and!; [lia|done|done|]. intros x. unfold window_received. cbn.
    assert (Hj : id - flags_below w ≤ x →
      mem new' (flags_below w - (id - x)) =
      (flags_below w - (id - x) =? flags_below w) ||
      ((flags_below w - (center_index w - x) <=? flags_below w) &&
       mem (flags w) (flags_below w - (center_index w - x)))).
    { intros. rewrite Hmem', Hmem by lia. do 3 f_equal; lia. }
    split.
    + intros [Hx Hm]. rewrite Hj in Hm by lia. split; [lia|].
      apply orb_true_iff in Hm as [Hm|[Hm1 Hm2]%andb_true_iff]; [left; lia|right].
      split; [lia|done].
    + intros [Hx [->|[Hx2 Hm]]]; (split; [lia|]); rewrite Hj by lia.
      * by replace (flags_below w - (id - id) =? flags_below w) with true by lia.
      * rewrite Hm. replace (flags_below w - (center_index w - x) <=? flags_below w) with true by lia.
        by rewrite orb_true_r.
Qed.

(** The bits of the first bytes of an array. *)
Lemma mem_app_l l1 l2 j : 0 ≤ j < bitset_size l1 → mem (l1 ++ l2) j = mem l1 j.
Proof. intros Hj. unfold mem, bitset_size in *. by rewrite lookup_app_l by lia. Qed.

(** ** Property *)

