(* ===== verification/Check.v ===== *)
(** * Check values, byte orders and key material (nexus_util.c, nexus_util.h,
    nexus_security.c)

    A check value is the 8 bytes of a SipHash-2-4 tag.  The theorems reduce
    the code to the published function [siphash_ref] and give the byte-order
    helpers, which build integers through their bytes in memory, as numbers. *)

From S2P Require Import Prelude Siphash.
Local Open Scope Z_scope.
Local Open Scope c_scope.

Definition NEXUS_INTEGRITY_CHECK_FIXED_00_KEY : list Z := replicate 16 0x00.
Definition NEXUS_INTEGRITY_CHECK_FIXED_FF_KEY : list Z := replicate 16 0xFF.

Definition NEXUS_CHANNEL_PUBLIC_KEY_DERIVATION_KEY_1 : list Z :=
  [0x8A; 0x5E; 0xE2; 0xB4; 0xA0; 0xCF; 0xF4; 0x93;
   0xE5; 0xED; 0xA2; 0xD1; 0xE4; 0xC4; 0x5B; 0x25].
Definition NEXUS_CHANNEL_PUBLIC_KEY_DERIVATION_KEY_2 : list Z :=
  [0xE2; 0x6F; 0xDB; 0x34; 0xE4; 0xDD; 0x40; 0xBC;
   0x63; 0x35; 0xC6; 0x09; 0xAA; 0xDF; 0xAA; 0xC4].

Definition nexus_check_compute (key data : list Z) (data_size : Z) : option (list Z) :=
  siphash24_compute data data_size key.

(** The bytes written at [output]; the copy out of the 8-byte check value is
    undefined for more than 8 bytes, the copy of the seed for more than 4. *)
Definition nexus_check_compute_pseudorandom_bytes
    (key seed : list Z) (seed_size output_size : Z) : option (list Z) :=
  let seed_bytes := replicate 5 0x00 in
  seed_bytes ← memcpy_at seed_bytes 1 (take (Z.to_nat seed_size) seed);
  chunk ← nexus_check_compute key seed_bytes (u16 (seed_size + 1));
  if decide (output_size ≤ Z.of_nat (length chunk))
  then Some (take (Z.to_nat output_size) chunk)
  else None.

Definition nexus_check_value_as_uint64 (bytes : list Z) : option Z := U8TO64_LE bytes.

(** ** Byte orders

    A little-endian host: the bytes of an integer in memory are [le_bytes]. *)

Definition nexus_endian_htobe16 (host : Z) : Z := u16 ((host ≫ 8) .| (host ≪ 8)).

Definition nexus_endian_htobe32 (host : Z) : Z :=
  le_val [u8 (host ≫ 24); u8 ((host .& 0x00FF0000) ≫ 16);
          u8 ((host .& 0x0000FF00) ≫ 8); u8 (host .& 0xFF)].

Definition nexus_endian_be16toh (big_endian : Z) : Z :=
  match le_bytes 2 big_endian with
  | [b0; b1] => u16 ((b0 ≪ 8) .| b1)
  | _ => 0
  end.

Definition nexus_endian_htole16 (host : Z) : Z :=
  le_val [u8 (host .& 0xFF); u8 ((host .& 0x0000FF00) ≫ 8)].

Definition nexus_endian_htole32 (host : Z) : Z :=
  le_val [u8 (host .& 0xFF); u8 ((host .& 0x0000FF00) ≫ 8);
          u8 ((host .& 0x00FF0000) ≫ 16); u8 (host ≫ 24)].

Definition u32min (lhs rhs : Z) : Z := if lhs <? rhs then lhs else rhs.

(** The reference implementation of the secure erase: the memory at
    [pointer], of which at most [size_data] bytes are cleared. *)
Definition memclr_body (i : Z) (mem : list Z) : option (list Z) := aset mem i 0.

Definition nexus_secure_memclr (mem : list Z) (size_data size_to_erase : Z) : option (list Z) :=
  let size_to_erase := if size_data <? size_to_erase then size_data else size_to_erase in
  for_loop (Z.to_nat size_to_erase) 0 memclr_body mem.

(** ** Facts *)

Lemma fixed_keys_ok :
  bytes_ok NEXUS_INTEGRITY_CHECK_FIXED_00_KEY ∧ bytes_ok NEXUS_INTEGRITY_CHECK_FIXED_FF_KEY.
Proof. split; apply Forall_replicate; wrap. Qed.

Lemma siphash_ref_tag_length key msg : length (le_bytes 8 (siphash_ref key msg)) = 8%nat.
Proof. apply le_bytes_length. Qed.

Lemma check_compute_spec key data n :
  bytes_ok data → bytes_ok key → (16 ≤ length key)%nat → 0 ≤ n ≤ Z.of_nat (length data) →
  nexus_check_compute key data n = Some (le_bytes 8 (siphash_ref key (take (Z.to_nat n) data))).
Proof. intros. by apply siphash24_compute_spec. Qed.

Lemma check_compute_all key data n :
  bytes_ok data → bytes_ok key → (16 ≤ length key)%nat → n = Z.of_nat (length data) →
  nexus_check_compute key data n = Some (le_bytes 8 (siphash_ref key data)).
Proof. intros ??? ->. rewrite check_compute_spec by (done || lia). by rewrite Nat2Z.id, firstn_all. Qed.

Lemma check_value_uint64 h : nexus_check_value_as_uint64 (le_bytes 8 h) = Some (h mod 2 ^ 64).
Proof.
  unfold nexus_check_value_as_uint64.
  rewrite U8TO64_LE_spec by (auto with cint; by rewrite le_bytes_length).
  by rewrite take_ge, le_val_bytes by (by rewrite le_bytes_length).
Qed.

(** The pseudorandom bytes for a seed: a zero byte, then the seed, hashed. *)
Definition prng_ref (key seed : list Z) (n : Z) : list Z :=
  take (Z.to_nat n) (le_bytes 8 (siphash_ref key (0 :: seed))).

(** The bytes come from one eight-byte hash: more than eight are a read past
    it. *)
Lemma pseudorandom_bytes_cases key seed n :
  bytes_ok key → (16 ≤ length key)%nat → bytes_ok seed → (length seed ≤ 4)%nat →
  nexus_check_compute_pseudorandom_bytes key seed (Z.of_nat (length seed)) n =
  if decide (n ≤ 8) then Some (prng_ref key seed n) else None.
Proof.
  intros Hk Hkl Hs Hsl. unfold nexus_check_compute_pseudorandom_bytes.
  rewrite Nat2Z.id, firstn_all. unfold memcpy_at.
  rewrite decide_True by (rewrite length_replicate; lia). cbn [mbind option_bind].
  rewrite u16_small by wrap.
  assert (Hok : bytes_ok (take 1 (replicate 5 0) ++ seed ++ drop (1 + length seed) (replicate 5 0))).
  { repeat apply Forall_app_2; [apply Forall_take, Forall_replicate; wrap|done|
      apply Forall_drop, Forall_replicate; wrap]. }
  rewrite check_compute_spec; [|done|done|done|].
  - cbn [mbind option_bind]. rewrite le_bytes_length. change (Z.of_nat 8) with 8.
    case_decide; [|done]. unfold prng_ref. do 5 f_equal.
    replace (Z.to_nat (Z.of_nat (length seed) + 1)) with (S (length seed)) by lia.
    cbn [replicate take app]. f_equal. by rewrite take_app_length.
  - rewrite !length_app, length_take, length_drop, length_replicate. lia.
Qed.

Lemma pseudorandom_bytes_spec key seed n :
  bytes_ok key → (16 ≤ length key)%nat → bytes_ok seed → (length seed ≤ 4)%nat → 0 ≤ n ≤ 8 →
  nexus_check_compute_pseudorandom_bytes key seed (Z.of_nat (length seed)) n =
  Some (prng_ref key seed n).
Proof. intros. rewrite pseudorandom_bytes_cases by done. by rewrite decide_True by lia. Qed.

Lemma prng_ref_ok key seed n : bytes_ok (prng_ref key seed n).
Proof. apply Forall_take, le_bytes_ok. Qed.

Lemma prng_ref_length key seed n : 0 ≤ n ≤ 8 → length (prng_ref key seed n) = Z.to_nat n.
Proof. intros. unfold prng_ref. rewrite length_take, le_bytes_length. lia. Qed.

(** The byte-order helpers as numbers. *)
Lemma land_byte x k : 0 ≤ k → (x .& (0xFF * 2 ^ k)) ≫ k = (x / 2 ^ k) mod 256.
Proof.
  intros Hk. rewrite <- Z.shiftl_mul_pow2 by lia.
  rewrite Z.shiftr_land, Z.shiftr_shiftl_l, Z.sub_diag by lia.
  change 255 with (Z.ones 8). rewrite Z.shiftl_0_r, land_ones_mod by lia.
  by rewrite Z.shiftr_div_pow2 by lia.
Qed.

Lemma htole32_id x : is_u32 x → nexus_endian_htole32 x = x.
Proof.
  intros Hx. unfold nexus_endian_htole32.
  change 0x0000FF00 with (0xFF * 2 ^ 8). change 0x00FF0000 with (0xFF * 2 ^ 16).
  change (x .& 0xFF) with (x .& Z.ones 8).
  rewrite !land_byte, land_ones_mod, Z.shiftr_div_pow2 by lia. pow_const.
  cbn [le_val]. wrap.
Qed.

Lemma htole16_id x : is_u16 x → nexus_endian_htole16 x = x.
Proof.
  intros Hx. unfold nexus_endian_htole16. change 0x0000FF00 with (0xFF * 2 ^ 8).
  change (x .& 0xFF) with (x .& Z.ones 8).
  rewrite !land_byte, land_ones_mod by lia. pow_const. cbn [le_val]. wrap.
Qed.

Lemma htobe32_bytes x : is_u32 x → le_bytes 4 (nexus_endian_htobe32 x) = rev (le_bytes 4 x).
Proof.
  intros Hx. unfold nexus_endian_htobe32.
  change 0x0000FF00 with (0xFF * 2 ^ 8). change 0x00FF0000 with (0xFF * 2 ^ 16).
  change (x .& 0xFF) with (x .& Z.ones 8).
  rewrite !land_byte, land_ones_mod, Z.shiftr_div_pow2 by lia. pow_const.
  match goal with |- le_bytes 4 (le_val ?l) = _ => change 4%nat with (length l) at 1 end.
  rewrite le_bytes_val by (repeat constructor; wrap).
  cbn [le_bytes rev app]. repeat (apply (f_equal2 cons); [wrap|]). done.
Qed.

Lemma htobe16_val x : is_u16 x → nexus_endian_htobe16 x = (x mod 256) * 256 + x / 256.
Proof.
  intros Hx. unfold nexus_endian_htobe16. rewrite Z.shiftr_div_pow2 by lia. pow_const.
  rewrite (lor_shiftl_add _ _ 8) by (pow_const; wrap). pow_const. wrap.
Qed.

Lemma be16toh_htobe16 x : is_u16 x → nexus_endian_be16toh (nexus_endian_htobe16 x) = x.
Proof.
  intros Hx. rewrite htobe16_val by done. unfold nexus_endian_be16toh. cbn [le_bytes].
  rewrite Z.lor_comm, (lor_shiftl_add _ _ 8) by (pow_const; wrap). pow_const. wrap.
Qed.

Lemma secure_memclr_spec mem size_data n :
  0 ≤ size_data ≤ Z.of_nat (length mem) → 0 ≤ n →
  nexus_secure_memclr mem size_data n =
  Some (replicate (Z.to_nat (Z.min n size_data)) 0 ++ drop (Z.to_nat (Z.min n size_data)) mem).
Proof.
  intros Hsz Hn. unfold nexus_secure_memclr. cbv zeta.
  replace (if size_data <? n then size_data else n) with (Z.min n size_data)
    by (destruct (Z.ltb_spec size_data n); lia).
  set (m := Z.min n size_data).
  destruct (for_loop_invariant
    (λ i l, l = replicate (Z.to_nat i) 0 ++ drop (Z.to_nat i) mem)
    (Z.to_nat m) 0 memclr_body mem) as (r & Hr & ->).
  - by rewrite drop_0.
  - intros i l Hi ->. unfold memclr_body.
    rewrite aset_in by (rewrite length_app, length_replicate, length_drop; lia).
    eexists. split; [reflexivity|].
    rewrite insert_app_r_alt by (rewrite length_replicate; lia).
    rewrite length_replicate, Nat.sub_diag.
    replace (Z.to_nat (i + 1)) with (S (Z.to_nat i)) by lia.
    destruct (lookup_lt_is_Some_2 mem (Z.to_nat i)) as [x Hx]; [lia|].
    rewrite (drop_S _ _ _ Hx). cbn [insert list_insert].
    rewrite replicate_S_end, <- app_assoc. done.
  - rewrite Hr. by rewrite Z.add_0_l, Z2Nat.id by lia.
Qed.

(** The 12 highest bits of the SipHash tag. *)
Definition tag_upper (h : Z) : Z := h mod 2 ^ 64 / 2 ^ 52.

Lemma tag_upper_div h : tag_upper h = (h / 281474976710656) mod 65536 / 16.
Proof. unfold tag_upper. pow_const. lia. Qed.

Lemma tag_upper_range h : 0 ≤ tag_upper h < 4096.
Proof. rewrite tag_upper_div. lia. Qed.

#[global] Opaque tag_upper.
