(* ===== verification/NvBlock.v ===== *)
(** * Nexus NV blocks (nexus_nv.c, include/nx_common.h)

    A block in non-volatile memory is its 16-bit identifier, the data a module
    stores, and the CRC-CCITT of both.  [nx_common_nv_block_valid] is the test
    the library and the product apply to a block; the theorems say that the
    blocks the library builds pass it and that a block corrupted within two
    adjacent bytes does not. *)

From S2P Require Import Prelude Crc.
Local Open Scope Z_scope.

Definition NEXUS_NV_BLOCK_ID_WIDTH : nat := 2.
Definition NEXUS_NV_BLOCK_CRC_WIDTH : nat := 2.
Definition NEXUS_NV_BLOCK_WRAPPER_SIZE_BYTES : nat := 4.

(** The block lengths of a build with link security. *)
Definition NX_COMMON_NV_BLOCK_0_LENGTH : Z := 8.
Definition NX_COMMON_NV_BLOCK_1_LENGTH : Z := 16.
Definition NX_COMMON_NV_BLOCK_2_LENGTH : Z := 10.
Definition NX_COMMON_NV_BLOCK_3_LENGTH : Z := 12.
Definition NX_COMMON_NV_BLOCK_4_LENGTH : Z := 40.
Definition NX_COMMON_NV_MAX_BLOCK_LENGTH : Z := NX_COMMON_NV_BLOCK_4_LENGTH.

Record nx_common_nv_block_meta := mk_nv_block_meta { block_id : Z; nv_length : Z }.

#[export] Instance nv_block_meta_eq_dec : EqDecision nx_common_nv_block_meta.
Proof. solve_decision. Defined.

Definition NX_NV_BLOCK_KEYCODE_MAS := mk_nv_block_meta 0 NX_COMMON_NV_BLOCK_0_LENGTH.
Definition NX_NV_BLOCK_KEYCODE_PRO := mk_nv_block_meta 1 NX_COMMON_NV_BLOCK_1_LENGTH.
Definition NX_NV_BLOCK_CHANNEL_LINK_HS_ACCESSORY := mk_nv_block_meta 2 NX_COMMON_NV_BLOCK_2_LENGTH.
Definition NX_NV_BLOCK_CHANNEL_OM := mk_nv_block_meta 3 NX_COMMON_NV_BLOCK_3_LENGTH.
(** [NX_NV_BLOCK_CHANNEL_LM_LINK_1] to [_10]. *)
Definition NX_NV_BLOCK_CHANNEL_LM_LINK (k : Z) := mk_nv_block_meta (3 + k) NX_COMMON_NV_BLOCK_4_LENGTH.

(** ** The operations on a block *)

Definition nexus_nv_compute_crc (meta : nx_common_nv_block_meta) (full_block_data : list Z) : option Z :=
  compute_crc_ccitt full_block_data (u8 (nv_length meta - Z.of_nat NEXUS_NV_BLOCK_CRC_WIDTH)).

Definition nx_common_nv_block_valid (meta : nx_common_nv_block_meta) (full_block_data : list Z) : option bool :=
  id ← slice full_block_data 0 NEXUS_NV_BLOCK_ID_WIDTH;
  if negb (memeq (le_bytes 2 (block_id meta)) id) then Some false
  else
    stored_crc ← slice full_block_data
                   (Z.to_nat (nv_length meta) - NEXUS_NV_BLOCK_CRC_WIDTH) NEXUS_NV_BLOCK_CRC_WIDTH;
    computed_crc ← nexus_nv_compute_crc meta full_block_data;
    if negb (memeq (le_bytes 2 computed_crc) stored_crc) then Some false
    else Some true.

(** ** The blocks the library writes *)

(** The block that carries [inner]. *)
Definition nv_block (meta : nx_common_nv_block_meta) (inner : list Z) : list Z :=
  let body := le_bytes 2 (block_id meta) ++ inner in
  body ++ le_bytes 2 (crc_ref body).

(** A block of the configuration: it has room for data and fits the library's
    buffers. *)
Definition meta_ok (meta : nx_common_nv_block_meta) : Prop :=
  is_u16 (block_id meta) ∧ 4 < nv_length meta ≤ NX_COMMON_NV_MAX_BLOCK_LENGTH.

Definition inner_length (meta : nx_common_nv_block_meta) : nat :=
  Z.to_nat (nv_length meta) - NEXUS_NV_BLOCK_WRAPPER_SIZE_BYTES.

(** The data a module stores in the block. *)
Definition inner_ok (meta : nx_common_nv_block_meta) (inner : list Z) : Prop :=
  bytes_ok inner ∧ length inner = inner_length meta.

Lemma keycode_metas_ok : meta_ok NX_NV_BLOCK_KEYCODE_MAS ∧ meta_ok NX_NV_BLOCK_KEYCODE_PRO.
Proof. repeat split; by vm_compute. Qed.

Ltac nv_unfold :=
  unfold meta_ok, inner_length, NX_COMMON_NV_MAX_BLOCK_LENGTH, NX_COMMON_NV_BLOCK_4_LENGTH,
    NEXUS_NV_BLOCK_WRAPPER_SIZE_BYTES, NEXUS_NV_BLOCK_ID_WIDTH, NEXUS_NV_BLOCK_CRC_WIDTH in *.

Lemma nv_block_length meta inner :
  meta_ok meta → length inner = inner_length meta →
  length (nv_block meta inner) = Z.to_nat (nv_length meta).
Proof.
  intros Hm Hi. unfold nv_block. rewrite !length_app, !le_bytes_length. nv_unfold. lia.
Qed.

Lemma nv_block_ok meta inner : bytes_ok inner → bytes_ok (nv_block meta inner).
Proof. intros. unfold nv_block. repeat apply Forall_app_2; auto with cint. Qed.

(** The validity test in terms of the CRC's definition; bytes of the buffer
    after the block do not matter. *)
Lemma nv_block_valid_spec meta blk rest :
  meta_ok meta → bytes_ok (blk ++ rest) → length blk = Z.to_nat (nv_length meta) →
  nx_common_nv_block_valid meta (blk ++ rest) =
  Some (bool_decide (take 2 blk = le_bytes 2 (block_id meta)) &&
        bool_decide (drop (length blk - 2) blk =
                     le_bytes 2 (crc_ref (take (length blk - 2) blk)))).
Proof.
  intros Hm Hb Hlen. unfold nx_common_nv_block_valid, nexus_nv_compute_crc. nv_unfold.
  rewrite (slice_in _ 0 2) by (rewrite length_app; lia). cbn [mbind option_bind].
  change (drop 0 (blk ++ rest)) with (blk ++ rest). rewrite (take_app_le blk rest 2) by lia. unfold memeq.
  case_bool_decide as H1; case_bool_decide as H2; try congruence; [|done].
  rewrite slice_in by (rewrite length_app; lia). cbn [mbind option_bind negb].
  rewrite u8_small by wrap.
  rewrite compute_crc_ccitt_prefix by (try done; rewrite length_app; lia).
  cbn [mbind option_bind].
  rewrite take_app_le, drop_app_le, take_app_le by (rewrite ?length_drop; lia).
  rewrite (take_ge (drop _ blk)) by (rewrite length_drop; lia).
  replace (Z.to_nat (nv_length meta - Z.of_nat 2)) with (length blk - 2)%nat by lia.
  replace (Z.to_nat (nv_length meta) - 2)%nat with (length blk - 2)%nat by lia.
  case_bool_decide; case_bool_decide; first [done|congruence].
Qed.

Lemma nv_block_is_valid meta inner rest :
  meta_ok meta → inner_ok meta inner → bytes_ok rest →
  nx_common_nv_block_valid meta (nv_block meta inner ++ rest) = Some true.
Proof.
  intros Hm [Hi Hl] Hr. pose proof (nv_block_length meta inner Hm Hl) as Hlen.
  rewrite nv_block_valid_spec;
    [|done|apply Forall_app_2; [by apply nv_block_ok|done]|done].
  unfold nv_block. cbv zeta. set (body := le_bytes 2 (block_id meta) ++ inner).
  rewrite !length_app, le_bytes_length, Nat.add_sub.
  rewrite take_app_length, drop_app_length. unfold body.
  rewrite take_app_le by (rewrite length_app, le_bytes_length; lia).
  rewrite take_app_le by (rewrite le_bytes_length; lia).
  rewrite take_ge by (rewrite le_bytes_length; lia).
  by rewrite !bool_decide_true.
Qed.

(** Every valid block is the block of its own data. *)
Lemma valid_block_shape meta blk rest :
  meta_ok meta → bytes_ok (blk ++ rest) → length blk = Z.to_nat (nv_length meta) →
  nx_common_nv_block_valid meta (blk ++ rest) = Some true →
  blk = nv_block meta (take (inner_length meta) (drop 2 blk)).
Proof.
  intros Hm Hb Hlen Hv. rewrite nv_block_valid_spec in Hv by done.
  apply (inj Some), andb_true_iff in Hv as [H1 H2].
  apply bool_decide_eq_true in H1. apply bool_decide_eq_true in H2. unfold nv_block.
  assert (Hbody : le_bytes 2 (block_id meta) ++ take (inner_length meta) (drop 2 blk) =
                  take (length blk - 2) blk).
  { rewrite <- H1. replace (length blk - 2)%nat with (2 + inner_length meta)%nat by (nv_unfold; lia).
    by rewrite take_take_drop. }
  cbv zeta. by rewrite Hbody, <- H2, take_drop.
Qed.

(** A valid block in which any two adjacent bytes before the CRC are damaged is
    not valid. *)
Lemma corrupt_block_invalid meta pre a1 a2 b1 b2 post crc rest :
  meta_ok meta → length crc = 2%nat →
  bytes_ok pre → is_u8 a1 → is_u8 a2 → is_u8 b1 → is_u8 b2 → bytes_ok post →
  bytes_ok crc → bytes_ok rest →
  length (pre ++ a1 :: a2 :: post ++ crc) = Z.to_nat (nv_length meta) →
  nx_common_nv_block_valid meta ((pre ++ a1 :: a2 :: post ++ crc) ++ rest) = Some true →
  (b1, b2) ≠ (a1, a2) →
  nx_common_nv_block_valid meta ((pre ++ b1 :: b2 :: post ++ crc) ++ rest) = Some false.
Proof.
  intros Hm Hcl Hpre Ha1 Ha2 Hb1 Hb2 Hpost Hcrc Hrest Hlen Hv Hne.
  assert (Hsplit : ∀ x1 x2, pre ++ x1 :: x2 :: post ++ crc = (pre ++ x1 :: x2 :: post) ++ crc)
    by (intros; by rewrite <- app_assoc).
  assert (Hok : ∀ x1 x2, is_u8 x1 → is_u8 x2 → bytes_ok ((pre ++ x1 :: x2 :: post ++ crc) ++ rest)).
  { intros. repeat (apply Forall_app_2 || apply Forall_cons_2); done. }
  assert (Hlen' : length (pre ++ b1 :: b2 :: post ++ crc) = Z.to_nat (nv_length meta)).
  { rewrite <- Hlen, !length_app. done. }
  rewrite nv_block_valid_spec in * by auto.
  assert (Hdrop : ∀ x1 x2, drop (length (pre ++ x1 :: x2 :: post ++ crc) - 2)
                             (pre ++ x1 :: x2 :: post ++ crc) = crc ∧
                           take (length (pre ++ x1 :: x2 :: post ++ crc) - 2)
                             (pre ++ x1 :: x2 :: post ++ crc) = pre ++ x1 :: x2 :: post).
  { intros. rewrite Hsplit. rewrite (length_app _ crc), Hcl, Nat.add_sub.
    by rewrite drop_app_length, take_app_length. }
  rewrite (proj1 (Hdrop b1 b2)), (proj2 (Hdrop b1 b2)).
  rewrite (proj1 (Hdrop a1 a2)), (proj2 (Hdrop a1 a2)) in Hv.
  apply (inj Some), andb_true_iff in Hv as [_ H2]. apply bool_decide_eq_true in H2.
  f_equal. apply andb_false_iff. right. apply bool_decide_eq_false. intros H3.
  rewrite H2 in H3. apply (f_equal le_val) in H3. rewrite !le_val_bytes in H3.
  rewrite !Z.mod_small in H3 by apply crc_ref_range.
  apply crc_ref_burst in H3 as [-> ->]; done.
Qed.

(** ** Property *)

(** what the library writes for a block is valid, whatever follows it in
    the buffer, and its inner data is what was given; and damage to any two
    adjacent bytes before the CRC makes it invalid. *)
Theorem nv_block_integrity meta inner rest pre a1 a2 b1 b2 post :
  meta_ok meta → inner_ok meta inner → bytes_ok rest →
  nv_block meta inner = pre ++ a1 :: a2 :: post → (2 ≤ length post)%nat →
  is_u8 b1 → is_u8 b2 → (b1, b2) ≠ (a1, a2) →
  nx_common_nv_block_valid meta (nv_block meta inner ++ rest) = Some true ∧
  take (inner_length meta) (drop 2 (nv_block meta inner)) = inner ∧
  nx_common_nv_block_valid meta ((pre ++ b1 :: b2 :: post) ++ rest) = Some false.
Proof.
  intros Hm Hi Hrest Hsplit Hpost Hb1 Hb2 Hne.
  pose proof (nv_block_is_valid meta inner rest Hm Hi Hrest) as Hv. split; [done|].
  pose proof Hi as [Hib Hil]. split.
  { unfold nv_block. rewrite <- !app_assoc, drop_app_ge, le_bytes_length, drop_0 by (by rewrite le_bytes_length).
    by rewrite take_app_le, take_ge by lia. }
  pose proof (nv_block_ok meta inner Hib) as Hok. pose proof (nv_block_length meta inner Hm Hil) as Hlen.
  rewrite Hsplit in Hok, Hv, Hlen. apply Forall_app in Hok as [Hpre Hok].
  apply Forall_cons in Hok as [Ha1 Hok]. apply Forall_cons in Hok as [Ha2 Hok].
  rewrite <- (take_drop (length post - 2) post) in Hok, Hv, Hlen |- *. apply Forall_app in Hok as [? ?].
  assert (length (drop (length post - 2) post) = 2%nat) by (rewrite length_drop; lia).
  eapply (corrupt_block_invalid meta pre a1 a2 b1 b2 (take (length post - 2) post)); done.
Qed.
