(* ===== verification/Product.v ===== *)
(** * The product interface (include/nxp_common.h, include/nxp_keycode.h)

    The library runs on a product that stores its NV blocks, keeps the PAYG
    credit, shows feedback and knows the secret key.  [Product P] is that
    interface for a product whose state is [P]; [ProductLaws P] is what the
    headers document of it and the library's theorems rely on.  The sample
    product of the repository is an instance (DesktopProduct.v). *)

From S2P Require Import Prelude Crc NvBlock.
Local Open Scope Z_scope.

Inductive nxp_common_payg_state :=
| NXP_COMMON_PAYG_STATE_DISABLED
| NXP_COMMON_PAYG_STATE_ENABLED
| NXP_COMMON_PAYG_STATE_UNLOCKED.

Inductive nxp_keycode_feedback_type :=
| NXP_KEYCODE_FEEDBACK_TYPE_NONE
| NXP_KEYCODE_FEEDBACK_TYPE_MESSAGE_INVALID
| NXP_KEYCODE_FEEDBACK_TYPE_MESSAGE_VALID
| NXP_KEYCODE_FEEDBACK_TYPE_RESERVED
| NXP_KEYCODE_FEEDBACK_TYPE_MESSAGE_APPLIED
| NXP_KEYCODE_FEEDBACK_TYPE_KEY_ACCEPTED
| NXP_KEYCODE_FEEDBACK_TYPE_KEY_REJECTED
| NXP_KEYCODE_FEEDBACK_TYPE_DISPLAY_SERIAL_ID.

Inductive nxp_keycode_passthrough_error :=
| NXP_KEYCODE_PASSTHROUGH_ERROR_NONE
| NXP_KEYCODE_PASSTHROUGH_ERROR_DATA_UNRECOGNIZED
| NXP_KEYCODE_PASSTHROUGH_ERROR_DATA_INVALID_VALUE_OR_SIZE
| NXP_KEYCODE_PASSTHROUGH_ERROR_UNKNOWN.

#[export] Instance payg_state_eq_dec : EqDecision nxp_common_payg_state.
Proof. solve_decision. Defined.
#[export] Instance feedback_type_eq_dec : EqDecision nxp_keycode_feedback_type.
Proof. solve_decision. Defined.
#[export] Instance passthrough_error_eq_dec : EqDecision nxp_keycode_passthrough_error.
Proof. solve_decision. Defined.

(** [enum nx_keycode_custom_flag] is a bit mask with one member. *)
Definition NX_KEYCODE_CUSTOM_FLAG_RESTRICTED : Z := 1.

Definition NEXUS_COMMON_IDLE_TIME_BETWEEN_PROCESS_CALL_SECONDS : Z := 240.

(** Reads give the success flag and the buffer after the call. *)
Class Product (P : Type) := {
  nxp_common_nv_read : nx_common_nv_block_meta → list Z → P → bool * list Z;
  nxp_common_nv_write : nx_common_nv_block_meta → list Z → P → bool * P;
  nxp_common_request_processing : P → P;
  nxp_common_payg_state_get_current : P → nxp_common_payg_state;
  nxp_common_payg_credit_get_remaining : P → Z;
  nxp_keycode_feedback_start : nxp_keycode_feedback_type → P → P;
  nxp_keycode_payg_credit_add : Z → P → P;
  nxp_keycode_payg_credit_set : Z → P → P;
  nxp_keycode_payg_credit_unlock : P → P;
  nxp_keycode_get_secret_key : P → list Z;
  nxp_keycode_get_user_facing_id : P → Z;
  nxp_keycode_notify_custom_flag_changed : Z → bool → P → P;
  nxp_keycode_passthrough_keycode : list Z → P → nxp_keycode_passthrough_error * P
}.

(** Two product states that the library's NV and identity calls cannot tell
    apart. *)
Record nv_equiv {P} `{Product P} (p q : P) : Prop := mk_nv_equiv {
  nv_equiv_read : ∀ meta buf, nxp_common_nv_read meta buf p = nxp_common_nv_read meta buf q;
  nv_equiv_key : nxp_keycode_get_secret_key p = nxp_keycode_get_secret_key q;
  nv_equiv_id : nxp_keycode_get_user_facing_id p = nxp_keycode_get_user_facing_id q
}.

#[export] Instance nv_equiv_equivalence {P} `{Product P} : Equivalence (nv_equiv (P := P)).
Proof.
  split.
  - intros p. by split.
  - intros p q [H1 H2 H3]. by split.
  - intros p q r [H1 H2 H3] [H4 H5 H6]. split; [intros|..]; etransitivity; eauto.
Qed.

(** Two product states with the same PAYG credit. *)
Record payg_equiv {P} `{Product P} (p q : P) : Prop := mk_payg_equiv {
  payg_equiv_state : nxp_common_payg_state_get_current p = nxp_common_payg_state_get_current q;
  payg_equiv_remaining :
    nxp_common_payg_credit_get_remaining p = nxp_common_payg_credit_get_remaining q
}.

#[export] Instance payg_equiv_equivalence {P} `{Product P} : Equivalence (payg_equiv (P := P)).
Proof.
  split.
  - intros p. by split.
  - intros p q [H1 H2]. by split.
  - intros p q r [H1 H2] [H3 H4]. split; etransitivity; eauto.
Qed.

(** What the headers say: a read fills at most the block and leaves bytes; a
    successful write of a valid block is what the next read of that block
    returns, and touches no other block; the other calls touch no block and
    not the identity; the key is 16 bytes and never changes.  A passthrough
    keycode may write blocks of its own, not those of the keycode modules. *)
Class ProductLaws (P : Type) `{Product P} := {
  read_length meta buf p :
    nv_length meta ≤ Z.of_nat (length buf) →
    length (nxp_common_nv_read meta buf p).2 = length buf;
  read_bytes meta buf p :
    bytes_ok buf → bytes_ok (nxp_common_nv_read meta buf p).2;
  write_read meta blk buf rest p p' :
    meta_ok meta → length blk = Z.to_nat (nv_length meta) → (length blk ≤ length buf)%nat →
    nx_common_nv_block_valid meta (blk ++ rest) = Some true →
    bytes_ok (blk ++ rest) →
    nxp_common_nv_write meta (blk ++ rest) p = (true, p') →
    nxp_common_nv_read meta buf p' = (true, blk ++ drop (length blk) buf);
  write_read_other meta meta' blk buf p :
    is_u16 (block_id meta) → block_id meta' ≠ block_id meta →
    nxp_common_nv_read meta' buf (nxp_common_nv_write meta blk p).2 =
    nxp_common_nv_read meta' buf p;
  write_key meta blk p :
    nxp_keycode_get_secret_key (nxp_common_nv_write meta blk p).2 = nxp_keycode_get_secret_key p;
  write_id meta blk p :
    nxp_keycode_get_user_facing_id (nxp_common_nv_write meta blk p).2 = nxp_keycode_get_user_facing_id p;
  write_payg meta blk p : payg_equiv (nxp_common_nv_write meta blk p).2 p;
  request_frame p : nv_equiv (nxp_common_request_processing p) p;
  feedback_frame f p : nv_equiv (nxp_keycode_feedback_start f p) p;
  credit_add_frame c p : nv_equiv (nxp_keycode_payg_credit_add c p) p;
  credit_set_frame c p : nv_equiv (nxp_keycode_payg_credit_set c p) p;
  unlock_frame p : nv_equiv (nxp_keycode_payg_credit_unlock p) p;
  notify_frame f b p : nv_equiv (nxp_keycode_notify_custom_flag_changed f b p) p;
  request_payg p : payg_equiv (nxp_common_request_processing p) p;
  feedback_payg f p : payg_equiv (nxp_keycode_feedback_start f p) p;
  notify_payg f b p : payg_equiv (nxp_keycode_notify_custom_flag_changed f b p) p;
  credit_add_remaining c p :
    nxp_common_payg_state_get_current p ≠ NXP_COMMON_PAYG_STATE_UNLOCKED →
    0 ≤ c → nxp_common_payg_credit_get_remaining p + c < 4294967296 →
    nxp_common_payg_credit_get_remaining (nxp_keycode_payg_credit_add c p) =
    nxp_common_payg_credit_get_remaining p + c;
  credit_set_remaining c p :
    is_u32 c → nxp_common_payg_credit_get_remaining (nxp_keycode_payg_credit_set c p) = c;
  credit_set_state c p :
    is_u32 c →
    nxp_common_payg_state_get_current (nxp_keycode_payg_credit_set c p) =
    if c =? 0 then NXP_COMMON_PAYG_STATE_DISABLED else NXP_COMMON_PAYG_STATE_ENABLED;
  unlock_state p :
    nxp_common_payg_state_get_current (nxp_keycode_payg_credit_unlock p) =
    NXP_COMMON_PAYG_STATE_UNLOCKED;
  passthrough_read keys meta buf p :
    block_id meta ∈ [block_id NX_NV_BLOCK_KEYCODE_MAS; block_id NX_NV_BLOCK_KEYCODE_PRO] →
    nxp_common_nv_read meta buf (nxp_keycode_passthrough_keycode keys p).2 =
    nxp_common_nv_read meta buf p;
  passthrough_key keys p :
    nxp_keycode_get_secret_key (nxp_keycode_passthrough_keycode keys p).2 = nxp_keycode_get_secret_key p;
  secret_key_ok p : bytes_ok (nxp_keycode_get_secret_key p);
  secret_key_length p : length (nxp_keycode_get_secret_key p) = 16%nat
}.

(** A product whose NV is reliable: writes do not fail and a read that reports
    success delivers a valid block.  Where a write fails the library keeps its
    new state in memory only, and reads the old block back at the next keycode;
    where a damaged block is reported as read, an update of it with equal data
    is skipped. *)
Class ReliableNv (P : Type) `{Product P} := {
  nv_write_succeeds meta blk p : (nxp_common_nv_write meta blk p).1 = true;
  nv_read_valid meta blk n p :
    meta_ok meta → (Z.to_nat (nv_length meta) ≤ n)%nat →
    nxp_common_nv_read meta (replicate n 0) p = (true, blk) →
    nx_common_nv_block_valid meta blk = Some true
}.

(** ** Calls as statements on the product's state *)

Section Calls.
Context {P : Type} `{Product P}.

Definition feedback_start (f : nxp_keycode_feedback_type) : M P unit :=
  modify (nxp_keycode_feedback_start f).
Definition request_processing : M P unit := modify nxp_common_request_processing.
Definition payg_credit_add (c : Z) : M P unit := modify (nxp_keycode_payg_credit_add c).
Definition payg_credit_set (c : Z) : M P unit := modify (nxp_keycode_payg_credit_set c).
Definition payg_credit_unlock : M P unit := modify nxp_keycode_payg_credit_unlock.
Definition notify_custom_flag_changed (f : Z) (b : bool) : M P unit :=
  modify (nxp_keycode_notify_custom_flag_changed f b).
Definition passthrough_keycode (keys : list Z) : M P nxp_keycode_passthrough_error :=
  λ p, Some (nxp_keycode_passthrough_keycode keys p).
Definition nv_read (meta : nx_common_nv_block_meta) (buf : list Z) : M P (bool * list Z) :=
  gets (nxp_common_nv_read meta buf).
Definition nv_write (meta : nx_common_nv_block_meta) (blk : list Z) : M P bool :=
  λ p, Some (nxp_common_nv_write meta blk p).
End Calls.

#[export] Hint Resolve request_frame feedback_frame credit_add_frame credit_set_frame
  unlock_frame notify_frame request_payg feedback_payg notify_payg : cint.
