(* ===== verification/DesktopProduct.v ===== *)
(** * The sample product (examples/desktop_sample_program)

    The repository's own implementation of the product interface: an
    append-only file of NV records, a credit counter and an identity.  It is
    an instance of [Product], and its laws are proved, so every theorem about
    the library that assumes them holds of it.

    The file is the concatenation of the records written so far; the storage
    medium is assumed not to fail.  The passthrough handler accepts origin
    commands (their effect on Nexus Channel is outside this state) and rejects
    everything else.  Displayed feedback is kept in [d_shown], latest first. *)

From S2P Require Import Prelude Crc NvBlock Product.
Local Open Scope Z_scope.

Definition BLOCK_SENTINEL_NX : Z := 110. (* 'n' *)
Definition BLOCK_SENTINEL_PROD : Z := 112. (* 'p' *)
Definition PROD_PAYG_STATE_BLOCK_ID : Z := 0.
Definition PROD_IDENTITY_BLOCK_ID : Z := 1.

(** A record of the file: sentinel, block id, data. *)
Record nv_record := mk_nv_record { rec_sentinel : Z; rec_id : Z; rec_data : list Z }.

(** The bytes [nv_write] appends: sentinel, id, length, data. *)
Definition record_bytes (r : nv_record) : list Z :=
  let data := u8 <$> take 255 (rec_data r) in
  [u8 (rec_sentinel r)] ++ le_bytes 2 (rec_id r) ++ [Z.of_nat (length data)] ++ data.

Record desktop := mk_desktop {
  d_records : list nv_record;
  d_credit : Z;
  d_is_unlocked : bool;
  d_last_payg_state : bool;
  d_serial_id : Z;
  d_secret_key : list Z;
  d_processing_requested : bool;
  d_shown : list nxp_keycode_feedback_type
}.

Definition nv_file (d : desktop) : list Z := d_records d ≫= record_bytes.

Definition nv_write_record (sentinel id length : Z) (buf : list Z) (d : desktop) : desktop :=
  {| d with d_records := d_records d ++ [mk_nv_record sentinel id (take (Z.to_nat length) buf)] |}.

(** The loop of [nv_read] over the rest of the file. *)
Fixpoint nv_read_loop (fuel : nat) (file : list Z) (sentinel id len : Z) (success : bool) (buf : list Z)
    : bool * list Z :=
  match fuel, file with
  | S fuel, s :: i0 :: i1 :: l :: rest =>
    if bool_decide (length rest < Z.to_nat l)%nat then (success, buf)
    else
      let block := take (Z.to_nat l) rest in
      let rest := drop (Z.to_nat l) rest in
      if (s =? sentinel) && (le_val [i0; i1] =? id) && (l =? len)
      then nv_read_loop fuel rest sentinel id len true (block ++ drop (length block) buf)
      else nv_read_loop fuel rest sentinel id len success buf
  | _, _ => (success, buf)
  end.

Definition nv_read_file (sentinel id len : Z) (buf : list Z) (d : desktop) : bool * list Z :=
  nv_read_loop (S (length (nv_file d))) (nv_file d) sentinel id len false buf.

(** [nxp_common_nv_read]; its local buffer starts out arbitrary and is only
    used when a record was found, which fills it. *)
Definition desktop_nv_read (meta : nx_common_nv_block_meta) (buf : list Z) (d : desktop) : bool * list Z :=
  let '(found, inter) := nv_read_file BLOCK_SENTINEL_NX (block_id meta) (nv_length meta)
                           (replicate (Z.to_nat NX_COMMON_NV_MAX_BLOCK_LENGTH) 0) d in
  if found && bool_decide (nx_common_nv_block_valid meta inter = Some true)
  then (true, take (Z.to_nat (nv_length meta)) inter ++ drop (Z.to_nat (nv_length meta)) buf)
  else (false, buf).

Definition desktop_nv_write (meta : nx_common_nv_block_meta) (buf : list Z) (d : desktop) : bool * desktop :=
  (true, nv_write_record BLOCK_SENTINEL_NX (block_id meta) (nv_length meta) buf d).

Definition desktop_payg_state (d : desktop) : nxp_common_payg_state :=
  if d_is_unlocked d then NXP_COMMON_PAYG_STATE_UNLOCKED
  else if 0 <? u32 (d_credit d) then NXP_COMMON_PAYG_STATE_ENABLED
  else NXP_COMMON_PAYG_STATE_DISABLED.

Definition payg_state_number (s : nxp_common_payg_state) : Z :=
  match s with
  | NXP_COMMON_PAYG_STATE_DISABLED => 0
  | NXP_COMMON_PAYG_STATE_ENABLED => 1
  | NXP_COMMON_PAYG_STATE_UNLOCKED => 2
  end.

(** [struct payg_state_struct] in memory: the credit and the unlocked flag. *)
Definition payg_state_bytes (d : desktop) : list Z :=
  le_bytes 4 (d_credit d) ++ le_bytes 2 (Z.b2z (d_is_unlocked d)).

Definition payg_state_update_nv (d : desktop) : desktop :=
  nv_write_record BLOCK_SENTINEL_PROD PROD_PAYG_STATE_BLOCK_ID
    (Z.of_nat (length (payg_state_bytes d))) (payg_state_bytes d) d.

Definition desktop_request_processing (d : desktop) : desktop :=
  {| d with d_processing_requested := true |}.

(** [last_payg_state] is a [bool], so an unlocked unit never equals it. *)
Definition update_payg_state (is_unlocked : bool) (credit : Z) (d : desktop) : desktop :=
  let d := {| d with d_is_unlocked := is_unlocked |} in
  let d := {| d with d_credit := u32 credit |} in
  let current := payg_state_number (desktop_payg_state d) in
  let d := if negb (Z.b2z (d_last_payg_state d) =? current)
           then let d := desktop_request_processing d in
                {| d with d_last_payg_state := negb (current =? 0) |}
           else d in
  payg_state_update_nv d.

Definition desktop_credit_add (credit : Z) (d : desktop) : desktop :=
  update_payg_state (d_is_unlocked d) (u32 (d_credit d) + credit) d.
Definition desktop_credit_set (credit : Z) (d : desktop) : desktop := update_payg_state false credit d.
Definition desktop_credit_unlock (d : desktop) : desktop := update_payg_state true 0 d.

Definition payg_state_consume_credit (amount : Z) (d : desktop) : desktop :=
  let credit := if amount <=? u32 (d_credit d) then u32 (d_credit d) - amount else 0 in
  update_payg_state (d_is_unlocked d) credit d.

(** The key is sixteen bytes by its type. *)
Definition desktop_secret_key (d : desktop) : list Z :=
  u8 <$> take 16 (d_secret_key d ++ replicate 16 0).

Definition desktop_passthrough (keys : list Z) (d : desktop) : nxp_keycode_passthrough_error * desktop :=
  match keys with
  | k :: _ => (if u8 (k - 0x30) =? 1 then NXP_KEYCODE_PASSTHROUGH_ERROR_NONE
               else NXP_KEYCODE_PASSTHROUGH_ERROR_DATA_UNRECOGNIZED, d)
  | [] => (NXP_KEYCODE_PASSTHROUGH_ERROR_DATA_UNRECOGNIZED, d)
  end.

#[export] Instance desktop_product : Product desktop := {|
  nxp_common_nv_read := desktop_nv_read;
  nxp_common_nv_write := desktop_nv_write;
  nxp_common_request_processing := desktop_request_processing;
  nxp_common_payg_state_get_current := desktop_payg_state;
  nxp_common_payg_credit_get_remaining := λ d, u32 (d_credit d);
  nxp_keycode_feedback_start := λ f d, {| d with d_shown := f :: d_shown d |};
  nxp_keycode_payg_credit_add := desktop_credit_add;
  nxp_keycode_payg_credit_set := desktop_credit_set;
  nxp_keycode_payg_credit_unlock := desktop_credit_unlock;
  nxp_keycode_get_secret_key := desktop_secret_key;
  nxp_keycode_get_user_facing_id := d_serial_id;
  nxp_keycode_notify_custom_flag_changed := λ _ _ d, d;
  nxp_keycode_passthrough_keycode := desktop_passthrough
|}.

(** ** What the file holds *)

(** One record against the block asked for: its data when it matches. *)
Definition record_match (sentinel id len : Z) (r : nv_record) : option (list Z) :=
  let data := u8 <$> take 255 (rec_data r) in
  if (u8 (rec_sentinel r) =? sentinel) && (u16 (rec_id r) =? id) && (Z.of_nat (length data) =? len)
  then Some data else None.

(** The data of the last record of a block. *)
Fixpoint last_record (sentinel id len : Z) (rs : list nv_record) : option (list Z) :=
  match rs with
  | [] => None
  | r :: rs =>
    match last_record sentinel id len rs with
    | Some data => Some data
    | None => record_match sentinel id len r
    end
  end.

Lemma record_match_length sentinel id len r data :
  record_match sentinel id len r = Some data → Z.of_nat (length data) = len ∧ bytes_ok data.
Proof.
  unfold record_match. cbv zeta. destruct (_ && _ && _) eqn:Hm; [|done]. intros [= <-].
  apply andb_true_iff in Hm as [_ Hm]. split; [by apply Z.eqb_eq|].
  apply Forall_fmap, Forall_forall. intros x _. apply u8_range.
Qed.

Lemma last_record_length sentinel id len rs data :
  last_record sentinel id len rs = Some data → Z.of_nat (length data) = len ∧ bytes_ok data.
Proof.
  induction rs as [|r rs IH]; [done|]. simpl. destruct (last_record sentinel id len rs).
  - intros [= ->]. by apply IH.
  - apply record_match_length.
Qed.

Lemma last_record_snoc sentinel id len rs r :
  last_record sentinel id len (rs ++ [r]) =
  match record_match sentinel id len r with
  | Some data => Some data
  | None => last_record sentinel id len rs
  end.
Proof.
  induction rs as [|x rs IH]; cbn [last_record app]; [by destruct (record_match sentinel id len r)|].
  rewrite IH. by destruct (record_match sentinel id len r).
Qed.

(** The byte-level reader finds the last matching record. *)
Lemma nv_read_loop_records rs fuel sentinel id len success buf :
  (length (rs ≫= record_bytes) < fuel)%nat →
  nv_read_loop fuel (rs ≫= record_bytes) sentinel id len success buf =
  match last_record sentinel id len rs with
  | Some data => (true, data ++ drop (length data) buf)
  | None => (success, buf)
  end.
Proof.
  revert fuel success buf. induction rs as [|r rs IH]; intros fuel success buf Hf; [by destruct fuel|].
  cbn [mbind list_bind] in *. unfold record_bytes at 1. unfold record_bytes in Hf at 1.
  cbn [last_record]. unfold record_match.
  cbv zeta in *. set (data := u8 <$> take 255 (rec_data r)) in *.
  destruct fuel as [|fuel]; [lia|].
  change (le_bytes 2 (rec_id r)) with [rec_id r mod 256; rec_id r / 256 mod 256] in *.
  cbn [app nv_read_loop] in *. rewrite !length_cons, length_app in Hf.
  rewrite bool_decide_eq_false_2 by (rewrite length_app; lia).
  rewrite Nat2Z.id, take_app_length, drop_app_length.
  replace (le_val [rec_id r mod 256; rec_id r / 256 mod 256]) with (u16 (rec_id r))
    by (cbn [le_val]; unfold u16; lia).
  destruct (_ && _ && _) eqn:Hm; rewrite IH by lia; [|by destruct (last_record sentinel id len rs)].
  destruct (last_record sentinel id len rs) as [data'|] eqn:Hl; [|done].
  apply last_record_length in Hl as [Hl _].
  apply andb_true_iff in Hm as [_ Hm%Z.eqb_eq].
  f_equal. f_equal. replace (length data') with (length data) by lia. apply drop_app_length.
Qed.

Lemma nv_read_file_spec sentinel id len buf d :
  nv_read_file sentinel id len buf d =
  match last_record sentinel id len (d_records d) with
  | Some data => (true, data ++ drop (length data) buf)
  | None => (false, buf)
  end.
Proof. apply nv_read_loop_records. unfold nv_file. lia. Qed.

(** The block a read of the library finds, when its CRC is right. *)
Lemma desktop_nv_read_spec meta buf d :
  desktop_nv_read meta buf d =
  match last_record BLOCK_SENTINEL_NX (block_id meta) (nv_length meta) (d_records d) with
  | Some data =>
    if bool_decide (nx_common_nv_block_valid meta (data ++ drop (length data) (replicate 40 0)) = Some true)
    then (true, data ++ drop (length data) buf) else (false, buf)
  | None => (false, buf)
  end.
Proof.
  unfold desktop_nv_read. rewrite nv_read_file_spec.
  change (Z.to_nat NX_COMMON_NV_MAX_BLOCK_LENGTH) with 40%nat.
  destruct (last_record _ _ _ _) as [data|] eqn:Hl; [|done].
  apply last_record_length in Hl as [Hl _]. cbn [andb].
  case_bool_decide; [|done].
  replace (Z.to_nat (nv_length meta)) with (length data) by lia.
  by rewrite take_app_length.
Qed.

(** Records of the product's own blocks are not the library's. *)
Lemma desktop_read_same meta buf d d' rec :
  d_records d' = d_records d ++ [rec] → rec_sentinel rec = BLOCK_SENTINEL_PROD →
  desktop_nv_read meta buf d' = desktop_nv_read meta buf d.
Proof.
  intros Hrs Hr. rewrite !desktop_nv_read_spec, Hrs, last_record_snoc.
  unfold record_match. by rewrite Hr.
Qed.

Lemma desktop_read_eq meta buf d d' :
  d_records d' = d_records d → desktop_nv_read meta buf d' = desktop_nv_read meta buf d.
Proof. intros Hrs. by rewrite !desktop_nv_read_spec, Hrs. Qed.

(** What every credit operation does to the state. *)
Lemma update_payg_state_fields u c d :
  let d' := update_payg_state u c d in
  (∃ rec, d_records d' = d_records d ++ [rec] ∧ rec_sentinel rec = BLOCK_SENTINEL_PROD) ∧
  d_is_unlocked d' = u ∧ d_credit d' = u32 c ∧
  d_serial_id d' = d_serial_id d ∧ d_secret_key d' = d_secret_key d.
Proof.
  cbv zeta. unfold update_payg_state, payg_state_update_nv, nv_write_record. cbv zeta.
  destruct (negb _); cbn; (split; [by eexists|done]).
Qed.

Lemma update_payg_frame u c d : nv_equiv (update_payg_state u c d) d.
Proof.
  destruct (update_payg_state_fields u c d) as ((r & Hr & Hs) & _ & _ & Hid & Hk). split.
  - intros meta buf. by apply desktop_read_same with r.
  - change (desktop_secret_key (update_payg_state u c d) = desktop_secret_key d).
    unfold desktop_secret_key. by rewrite Hk.
  - exact Hid.
Qed.

Lemma u32_idemp x : u32 (u32 x) = u32 x.
Proof. apply u32_small, u32_range. Qed.

Lemma update_payg_state_state u c d :
  desktop_payg_state (update_payg_state u c d) =
  if u then NXP_COMMON_PAYG_STATE_UNLOCKED
  else if 0 <? u32 c then NXP_COMMON_PAYG_STATE_ENABLED else NXP_COMMON_PAYG_STATE_DISABLED.
Proof.
  destruct (update_payg_state_fields u c d) as (_ & Hu & Hc & _).
  unfold desktop_payg_state. by rewrite Hu, Hc, u32_idemp.
Qed.

Lemma u8_bytes l : bytes_ok l → u8 <$> l = l.
Proof.
  intros Hb. rewrite <- list_fmap_id. apply list_fmap_ext. intros i x Hx.
  apply u8_small. by eapply Forall_lookup_1.
Qed.

(** A library block reads back after it was appended. *)
Lemma desktop_write_read meta blk rest buf d :
  meta_ok meta → length blk = Z.to_nat (nv_length meta) →
  nx_common_nv_block_valid meta (blk ++ rest) = Some true → bytes_ok (blk ++ rest) →
  desktop_nv_read meta buf (desktop_nv_write meta (blk ++ rest) d).2 =
  (true, blk ++ drop (length blk) buf).
Proof.
  intros [Hid Hm] Hl Hv Hb. rewrite desktop_nv_read_spec. cbn. rewrite last_record_snoc.
  unfold record_match. cbn [rec_sentinel rec_id rec_data].
  assert (Hdata : u8 <$> take 255 (take (Z.to_nat (nv_length meta)) (blk ++ rest)) = blk).
  { rewrite <- Hl, take_app_length.
    assert (nv_length meta ≤ 40) by (nv_unfold; lia).
    rewrite take_ge by lia. apply Forall_app in Hb as [Hb _]. by apply u8_bytes. }
  rewrite Hdata, Hl, Z2Nat.id, u16_small, !Z.eqb_refl by (nv_unfold; lia || done).
  change (u8 BLOCK_SENTINEL_NX =? BLOCK_SENTINEL_NX) with true. cbn [andb].
  rewrite bool_decide_eq_true_2; [by rewrite Hl|].
  assert (Hok : ∀ n, bytes_ok (drop n (replicate 40 0)))
    by (intros; apply Forall_drop, Forall_replicate; wrap).
  rewrite nv_block_valid_spec in *; try done.
  apply Forall_app in Hb as [Hb _]. by apply Forall_app_2.
Qed.

Lemma desktop_read_length meta buf d :
  nv_length meta ≤ Z.of_nat (length buf) → length (desktop_nv_read meta buf d).2 = length buf.
Proof.
  intros Hm. rewrite desktop_nv_read_spec.
  destruct (last_record _ _ _ _) as [data|] eqn:Hl; [|done]. case_bool_decide; [|done]. cbn.
  apply last_record_length in Hl as [Hl _]. rewrite length_app, length_drop. lia.
Qed.

Lemma desktop_read_bytes meta buf d : bytes_ok buf → bytes_ok (desktop_nv_read meta buf d).2.
Proof.
  intros Hb. rewrite desktop_nv_read_spec.
  destruct (last_record _ _ _ _) as [data|] eqn:Hl; [|done]. case_bool_decide; [|done]. cbn.
  apply last_record_length in Hl as [_ Hl]. apply Forall_app_2; [done|by apply Forall_drop].
Qed.

Lemma desktop_write_other meta meta' blk buf d :
  block_id meta' ≠ block_id meta → is_u16 (block_id meta) → 
  desktop_nv_read meta' buf (desktop_nv_write meta blk d).2 = desktop_nv_read meta' buf d.
Proof.
  intros Hne Hid. rewrite !desktop_nv_read_spec. cbn. rewrite last_record_snoc.
  unfold record_match. cbn [rec_sentinel rec_id]. rewrite u16_small by done.
  by replace (block_id meta =? block_id meta') with false by lia.
Qed.

#[export] Instance desktop_laws : ProductLaws desktop.
Proof.
  split.
  - apply desktop_read_length.
  - apply desktop_read_bytes.
  - intros meta blk buf rest d d' Hm Hl _ Hv Hb [= <-]. by apply desktop_write_read.
  - intros meta meta' blk buf d Hid Hne. by apply desktop_write_other.
  - done.
  - done.
  - done.
  - intros d. by split; [intros meta buf; apply desktop_read_eq|..].
  - intros f d. by split; [intros meta buf; apply desktop_read_eq|..].
  - intros c d. apply update_payg_frame.
  - intros c d. apply update_payg_frame.
  - intros d. apply update_payg_frame.
  - done.
  - done.
  - done.
  - done.
  - intros c d Hu Hc Hlt. change (u32 (d_credit (desktop_credit_add c d)) = u32 (d_credit d) + c).
    change (u32 (d_credit d) + c < 4294967296) in Hlt.
    destruct (update_payg_state_fields (d_is_unlocked d) (u32 (d_credit d) + c) d) as (_ & _ & Hr & _).
    unfold desktop_credit_add. rewrite Hr, u32_idemp. apply u32_small.
    pose proof (u32_range (d_credit d)) as Hr0. unfold is_u32 in *. lia.
  - intros c d Hc. change (u32 (d_credit (desktop_credit_set c d)) = c).
    destruct (update_payg_state_fields false c d) as (_ & _ & Hr & _).
    unfold desktop_credit_set. by rewrite Hr, u32_idemp, u32_small.
  - intros c d Hc. etransitivity; [apply update_payg_state_state|]. rewrite u32_small by done.
    destruct (Z.eqb_spec c 0) as [->|]; [done|]. by replace (0 <? c) with true by wrap.
  - intros d. apply (update_payg_state_state true).
  - intros [|k keys] meta buf d _; done.
  - intros [|k keys] d; done.
  - intros d. apply Forall_fmap, Forall_forall. intros x _. apply u8_range.
  - intros d. cbn. unfold desktop_secret_key.
    rewrite length_fmap, length_take, length_app, length_replicate. lia.
Qed.

#[export] Instance desktop_reliable : ReliableNv desktop.
Proof.
  split; [done|]. intros meta blk n d Hm Hn Hr. cbn in Hr. rewrite desktop_nv_read_spec in Hr.
  destruct (last_record _ _ _ _) as [data|] eqn:Hl; [|done].
  apply last_record_length in Hl as [Hl Hb].
  case_bool_decide as Hv; [|done]. injection Hr as [= <-].
  assert (Hok : ∀ k j, bytes_ok (drop k (replicate j 0)))
    by (intros; apply Forall_drop, Forall_replicate; wrap).
  rewrite nv_block_valid_spec in *; try (done || lia || by apply Forall_app_2).
Qed.

(** A unit as it leaves the factory: no NV, no credit. *)
Definition factory_desktop (serial_id : Z) (secret_key : list Z) : desktop :=
  mk_desktop [] 0 false false serial_id secret_key false [].
