(* ===== verification/Nv.v ===== *)
(** * Reading and writing NV blocks (nexus_nv.c)

    [nexus_nv_update] wraps a module's data into a block and writes it unless
    the product already holds it; [nexus_nv_read] checks a block and unwraps
    it.  Proved against the product interface: after an update a read gives
    the data back, other blocks are untouched, and a read of anything but a
    valid block leaves the module's data alone. *)

From S2P Require Import Prelude Crc NvBlock Product.
Local Open Scope Z_scope.

Section Nv.
Context {P : Type} `{Product P}.

(** The valid block that [nexus_nv_update] builds for the new data. *)
Definition nv_new_block (meta : nx_common_nv_block_meta) (inner_data : list Z) : option (list Z) :=
  let inner_data_size :=
    Z.to_nat (u32 (nv_length meta - Z.of_nat NEXUS_NV_BLOCK_WRAPPER_SIZE_BYTES)) in
  let new_block := replicate (Z.to_nat NX_COMMON_NV_MAX_BLOCK_LENGTH) 0 in
  new_block ← memcpy_at new_block 0 (le_bytes 2 (block_id meta));
  inner ← slice inner_data 0 inner_data_size;
  new_block ← memcpy_at new_block NEXUS_NV_BLOCK_ID_WIDTH inner;
  new_crc ← compute_crc_ccitt new_block
              (u8 (nv_length meta - Z.of_nat NEXUS_NV_BLOCK_CRC_WIDTH));
  memcpy_at new_block (NEXUS_NV_BLOCK_ID_WIDTH + inner_data_size) (le_bytes 2 new_crc).

Definition nexus_nv_update (meta : nx_common_nv_block_meta) (inner_data : list Z) : M P bool :=
  let existing_block := replicate (Z.to_nat NX_COMMON_NV_MAX_BLOCK_LENGTH) 0 in
  '(found, existing_block) ← nv_read meta existing_block;
  let inner_len := Z.to_nat (u8 (nv_length meta - Z.of_nat NEXUS_NV_BLOCK_WRAPPER_SIZE_BYTES)) in
  identical ←
    (if (found : bool) then
       old_inner ← lift (slice existing_block NEXUS_NV_BLOCK_ID_WIDTH inner_len);
       new_inner ← lift (slice inner_data 0 inner_len);
       mret (memeq old_inner new_inner)
     else mret false);
  if (identical : bool) then mret true
  else
    new_block ← lift (nv_new_block meta inner_data);
    nv_write meta new_block.

(** The result is the flag and the module's data after the call. *)
Definition nexus_nv_read (meta : nx_common_nv_block_meta) (inner_data : list Z) : M P (bool * list Z) :=
  let block := replicate (Z.to_nat NX_COMMON_NV_MAX_BLOCK_LENGTH) 0 in
  '(_, block) ← nv_read meta block;
  valid ← lift (nx_common_nv_block_valid meta block);
  if (valid : bool) then
    inner ← lift (slice block NEXUS_NV_BLOCK_ID_WIDTH
              (Z.to_nat (u8 (nv_length meta - Z.of_nat NEXUS_NV_BLOCK_WRAPPER_SIZE_BYTES))));
    new ← lift (memcpy_at inner_data 0 inner);
    mret (true, new)
  else mret (false, inner_data).

Context `{!ProductLaws P}.

Lemma nv_buffer_ok : bytes_ok (replicate (Z.to_nat NX_COMMON_NV_MAX_BLOCK_LENGTH) 0).
Proof. apply Forall_replicate. wrap. Qed.

(** The data of the block that the product holds, when it is valid. *)
Definition nv_stored (meta : nx_common_nv_block_meta) (p : P) : option (list Z) :=
  let blk := (nxp_common_nv_read meta (replicate (Z.to_nat NX_COMMON_NV_MAX_BLOCK_LENGTH) 0) p).2 in
  if decide (nx_common_nv_block_valid meta blk = Some true)
  then Some (take (inner_length meta) (drop 2 blk)) else None.

Lemma nv_read_block meta p :
  meta_ok meta →
  let blk := (nxp_common_nv_read meta (replicate (Z.to_nat NX_COMMON_NV_MAX_BLOCK_LENGTH) 0) p).2 in
  bytes_ok blk ∧ length blk = 40%nat ∧
  ∃ b, nx_common_nv_block_valid meta blk = Some b.
Proof.
  intros Hm blk. assert (Hb : bytes_ok blk) by apply read_bytes, nv_buffer_ok.
  assert (Hl : length blk = 40%nat) by (etransitivity; [apply read_length; rewrite length_replicate; nv_unfold; lia|done]).
  split_and!; [done..|].
  generalize dependent blk. intros blk Hb Hl.
  rewrite <- (take_drop (Z.to_nat (nv_length meta)) blk).
  eexists. apply nv_block_valid_spec; [done|by rewrite take_drop|].
  rewrite length_take. nv_unfold. lia.
Qed.

Lemma nv_stored_ok meta p inner : meta_ok meta → nv_stored meta p = Some inner → inner_ok meta inner.
Proof.
  intros Hm. destruct (nv_read_block meta p Hm) as (Hb & Hl & _). unfold nv_stored. cbv zeta.
  generalize dependent (nxp_common_nv_read meta
    (replicate (Z.to_nat NX_COMMON_NV_MAX_BLOCK_LENGTH) 0) p).2. intros blk Hb Hl.
  case_decide; [|done]. intros [= <-]. split.
  - by apply Forall_take, Forall_drop.
  - rewrite length_take, length_drop, Hl. nv_unfold. lia.
Qed.

(** [nexus_nv_read] replaces the data by the stored data, when there is any. *)
Lemma nexus_nv_read_spec meta inner p :
  meta_ok meta → length inner = inner_length meta →
  nexus_nv_read meta inner p =
  Some (match nv_stored meta p with Some d => (true, d) | None => (false, inner) end, p).
Proof.
  intros Hm Hi. destruct (nv_read_block meta p Hm) as (Hb & Hl & b & Hv).
  unfold nexus_nv_read, nv_read, nv_stored. mstep.
  destruct (nxp_common_nv_read meta _ p) as [f blk]. cbn [snd] in *.
  rewrite Hv. cbn [mbind option_bind]. destruct b; [|done].
  rewrite decide_True by done.
  assert (Hil : Z.to_nat (u8 (nv_length meta - Z.of_nat NEXUS_NV_BLOCK_WRAPPER_SIZE_BYTES)) =
                inner_length meta) by (nv_unfold; rewrite u8_small by wrap; lia).
  rewrite Hil, slice_in by (nv_unfold; lia). cbn [mbind option_bind].
  set (d := take (inner_length meta) (drop NEXUS_NV_BLOCK_ID_WIDTH blk)).
  assert (Hd : length d = inner_length meta)
    by (unfold d; rewrite length_take, length_drop, Hl; nv_unfold; lia).
  rewrite memcpy_at_in by lia. cbn [mbind option_bind take app].
  rewrite drop_ge, app_nil_r by lia. done.
Qed.

Lemma nv_new_block_spec meta inner :
  meta_ok meta → inner_ok meta inner →
  nv_new_block meta inner = Some (nv_block meta inner ++ replicate (36 - length inner) 0).
Proof.
  intros Hm [Hb Hl]. set (body := le_bytes 2 (block_id meta) ++ inner).
  assert (Hbl : length body = (2 + length inner)%nat)
    by (unfold body; by rewrite length_app, le_bytes_length).
  assert (Hbody : bytes_ok (body ++ replicate (38 - length inner) 0)).
  { repeat apply Forall_app_2; [apply le_bytes_ok|done|apply Forall_replicate; wrap]. }
  unfold nv_new_block. nv_unfold. change (Z.to_nat 40) with 40%nat.
  rewrite u32_small, u8_small by wrap.
  replace (Z.to_nat (nv_length meta - Z.of_nat 4)) with (length inner) by lia.
  rewrite (memcpy_at_in (replicate 40 0)) by (rewrite le_bytes_length, length_replicate; lia).
  cbn [mbind option_bind]. rewrite slice_in, (take_ge (drop 0 inner)) by (rewrite ?length_drop; lia).
  cbn [mbind option_bind].
  change (take 0 (replicate 40 0) ++ _) with (le_bytes 2 (block_id meta) ++ replicate 38 0).
  change (drop 0 inner) with inner.
  rewrite memcpy_at_in by (rewrite length_app, le_bytes_length, length_replicate; lia).
  cbn [mbind option_bind].
  rewrite take_app_le, take_ge by (rewrite le_bytes_length; lia).
  rewrite drop_app_ge by (rewrite le_bytes_length; lia).
  rewrite le_bytes_length, drop_replicate.
  replace (38 - (2 + length inner - 2))%nat with (38 - length inner)%nat by lia.
  rewrite app_assoc. fold body.
  rewrite compute_crc_ccitt_prefix by (try done; rewrite length_app, length_replicate; lia).
  cbn [mbind option_bind].
  replace (Z.to_nat (nv_length meta - Z.of_nat 2)) with (length body) by lia.
  rewrite take_app_length.
  rewrite memcpy_at_in by (rewrite length_app, le_bytes_length, length_replicate; lia).
  rewrite take_app_le, take_ge by lia. rewrite drop_app_ge by (rewrite le_bytes_length; lia).
  rewrite le_bytes_length, drop_replicate. unfold nv_block. fold body.
  rewrite <- app_assoc. do 4 f_equal. lia.
Qed.

(** An update writes the block of the data, unless the product's block holds
    the same data, and says what the product said. *)
Lemma nexus_nv_update_cases meta inner p :
  meta_ok meta → inner_ok meta inner →
  nexus_nv_update meta inner p =
  (let '(found, old) := nxp_common_nv_read meta (replicate 40 0) p in
   if found && bool_decide (take (inner_length meta) (drop 2 old) = inner)
   then Some (true, p)
   else Some (nxp_common_nv_write meta (nv_block meta inner ++ replicate (36 - length inner) 0) p)).
Proof.
  intros Hm Hi. pose proof (nv_new_block_spec meta inner Hm Hi) as Hnew.
  destruct (nv_read_block meta p Hm) as (_ & Hl & _).
  unfold nexus_nv_update, nv_read, nv_write. mstep.
  change (Z.to_nat NX_COMMON_NV_MAX_BLOCK_LENGTH) with 40%nat in *.
  destruct (nxp_common_nv_read meta (replicate 40 0) p) as [found old]. cbn [snd] in Hl.
  rewrite Hnew. cbn [mbind option_bind].
  destruct Hi as [Hib Hil]. destruct found; [|done]. cbn [andb].
  replace (Z.to_nat (u8 (nv_length meta - Z.of_nat NEXUS_NV_BLOCK_WRAPPER_SIZE_BYTES)))
    with (inner_length meta) by (nv_unfold; rewrite u8_small by wrap; lia).
  rewrite (slice_in old) by (nv_unfold; lia). cbn [mbind option_bind].
  rewrite slice_in, (take_ge (drop 0 inner)) by (rewrite ?length_drop; lia). cbn [mbind option_bind].
  change (drop 0 inner) with inner. unfold memeq. unfold NEXUS_NV_BLOCK_ID_WIDTH.
  by case_bool_decide.
Qed.

#[global] Instance nv_stored_proper meta : Proper (nv_equiv ==> eq) (nv_stored meta).
Proof. intros p q [Hr _ _]. unfold nv_stored. by rewrite Hr. Qed.

Lemma nv_stored_write_other meta meta' blk p :
  is_u16 (block_id meta) → block_id meta' ≠ block_id meta →
  nv_stored meta' (nxp_common_nv_write meta blk p).2 = nv_stored meta' p.
Proof. intros. unfold nv_stored. by rewrite write_read_other. Qed.

(** What an update leaves of the product: everything but the block. *)
Record nv_updated (meta : nx_common_nv_block_meta) (inner : list Z) (p p' : P) : Prop := {
  updated_stored : nv_stored meta p' = Some inner;
  updated_other meta' : block_id meta' ≠ block_id meta → nv_stored meta' p' = nv_stored meta' p;
  updated_key : nxp_keycode_get_secret_key p' = nxp_keycode_get_secret_key p;
  updated_id : nxp_keycode_get_user_facing_id p' = nxp_keycode_get_user_facing_id p;
  updated_payg : payg_equiv p' p
}.

Context `{!ReliableNv P}.

Lemma nexus_nv_update_spec meta inner p :
  meta_ok meta → inner_ok meta inner →
  ∃ p', nexus_nv_update meta inner p = Some (true, p') ∧ nv_updated meta inner p p'.
Proof.
  intros Hm Hi. rewrite nexus_nv_update_cases by done.
  destruct (nxp_common_nv_read meta (replicate 40 0) p) as [found old] eqn:Hread.
  destruct (found && _) eqn:Hsame.
  - exists p. split; [done|].
    apply andb_true_iff in Hsame as [-> Hsame]. apply bool_decide_eq_true in Hsame.
    split; try done. unfold nv_stored. cbv zeta.
    change (Z.to_nat NX_COMMON_NV_MAX_BLOCK_LENGTH) with 40%nat. rewrite Hread. cbn [snd].
    rewrite decide_True, Hsame; [done|]. eapply nv_read_valid; [done| |done].
    nv_unfold. lia.
  - pose proof (nv_write_succeeds meta (nv_block meta inner ++ replicate (36 - length inner) 0) p) as Hw.
    pose proof (write_key meta (nv_block meta inner ++ replicate (36 - length inner) 0) p) as Hk.
    pose proof (write_id meta (nv_block meta inner ++ replicate (36 - length inner) 0) p) as Hd.
    pose proof (write_payg meta (nv_block meta inner ++ replicate (36 - length inner) 0) p) as Hg.
    pose proof (λ meta', nv_stored_write_other meta meta'
      (nv_block meta inner ++ replicate (36 - length inner) 0) p (proj1 Hm)) as Ho.
    destruct (nxp_common_nv_write _ _ p) as [b p'] eqn:Hwr. cbn [fst snd] in *. subst b.
    exists p'. split; [done|]. split; try done.
    destruct Hi as [Hib Hil]. pose proof (nv_block_length meta inner Hm Hil) as Hbl.
    assert (Hz : ∀ n, bytes_ok (replicate n 0)) by (intros; apply Forall_replicate; wrap).
    pose proof (nv_block_ok meta inner Hib) as Hbok.
    unfold nv_stored. cbv zeta.
    change (Z.to_nat NX_COMMON_NV_MAX_BLOCK_LENGTH) with 40%nat.
    rewrite (write_read meta (nv_block meta inner) (replicate 40 0)
               (replicate (36 - length inner) 0) p p'); [|done|done| | |by apply Forall_app_2|done].
    + cbn [snd]. rewrite decide_True.
      * f_equal. unfold nv_block. rewrite <- !app_assoc.
        rewrite drop_app_ge by (by rewrite le_bytes_length).
        rewrite le_bytes_length, drop_0, take_app_le, take_ge by lia. done.
      * apply nv_block_is_valid; [done|done|]. by apply Forall_drop.
    + rewrite length_replicate. nv_unfold. lia.
    + by apply nv_block_is_valid.
Qed.
(** ** Property *)

(** C33: after an update the block reads as the data given, every other block
    and the product's identity and credit are as before, and a second update
    with the same data leaves the NV alone. *)
Theorem nv_update_read_back meta inner buf p :
  meta_ok meta → inner_ok meta inner → length buf = inner_length meta →
  ∃ p', nexus_nv_update meta inner p = Some (true, p') ∧
    nexus_nv_read meta buf p' = Some ((true, inner), p') ∧
    (∀ meta', block_id meta' ≠ block_id meta → nv_stored meta' p' = nv_stored meta' p) ∧
    payg_equiv p' p ∧
    ((nxp_common_nv_read meta (replicate 40 0) p').1 = true → nexus_nv_update meta inner p' = Some (true, p')).
Proof.
  intros Hm Hi Hb. destruct (nexus_nv_update_spec meta inner p Hm Hi) as (p' & Hrun & [Hst Hoth _ _ Hpg]).
  exists p'. rewrite nexus_nv_read_spec, Hst by done. split_and!; try done.
  intros Hfound. rewrite nexus_nv_update_cases by done. revert Hst Hfound. unfold nv_stored. cbv zeta.
  change (Z.to_nat NX_COMMON_NV_MAX_BLOCK_LENGTH) with 40%nat.
  destruct (nxp_common_nv_read meta (replicate 40 0) p') as [found old]. cbn [fst snd].
  case_decide; [|done]. intros [= Hst] ->. by rewrite Hst, bool_decide_eq_true_2.
Qed.

End Nv.
