(* ===== verification/KeycodeState.v ===== *)
(** * Configuration and state of the keycode protocol
    (src/internal_keycode_config.h, nexus_keycode_pro.c, nexus_keycode_pro.h)

    [KeycodeConfig] is the build's configuration and [KeycodeConfigOk] what
    the headers' [#error] checks and static assertions enforce of it.
    [keycode_pro P] is the static state of nexus_keycode_pro.c together with
    the product [P] it runs on; [keycode_pro_stored] is the structure that is
    persisted, with its packed layout in memory. *)

From S2P Require Import Prelude Crc NvBlock Product Nv.
Local Open Scope Z_scope.

(** ** Configuration *)

Inductive keycode_protocol := NEXUS_KEYCODE_PROTOCOL_FULL | NEXUS_KEYCODE_PROTOCOL_SMALL.

#[export] Instance keycode_protocol_eq_dec : EqDecision keycode_protocol.
Proof. solve_decision. Defined.

Class KeycodeConfig := {
  NEXUS_KEYCODE_PROTOCOL : keycode_protocol;
  NEXUS_KEYCODE_PRO_FACTORY_QC_LONG_LIFETIME_MAX : Z;
  NEXUS_KEYCODE_PRO_FACTORY_QC_SHORT_LIFETIME_MAX : Z;
  NEXUS_KEYCODE_PROTOCOL_RATE_LIMIT_BUCKET_MAX : Z;
  NEXUS_KEYCODE_PROTOCOL_RATE_LIMIT_BUCKET_INITIAL_COUNT : Z;
  NEXUS_KEYCODE_PROTOCOL_RATE_LIMIT_REFILL_SECONDS_PER_ATTEMPT : Z;
  NEXUS_KEYCODE_PROTOCOL_ENTRY_TIMEOUT_SECONDS : Z
}.

Class KeycodeConfigOk `{KeycodeConfig} := {
  qc_long_max_ok : 0 ≤ NEXUS_KEYCODE_PRO_FACTORY_QC_LONG_LIFETIME_MAX ≤ 15;
  qc_short_max_ok : 0 ≤ NEXUS_KEYCODE_PRO_FACTORY_QC_SHORT_LIFETIME_MAX ≤ 15;
  bucket_max_ok : 0 ≤ NEXUS_KEYCODE_PROTOCOL_RATE_LIMIT_BUCKET_MAX < 256;
  bucket_initial_ok : 0 ≤ NEXUS_KEYCODE_PROTOCOL_RATE_LIMIT_BUCKET_INITIAL_COUNT ≤ 255;
  refill_ok : 0 ≤ NEXUS_KEYCODE_PROTOCOL_RATE_LIMIT_REFILL_SECONDS_PER_ATTEMPT ≤ 3600;
  refill_nonzero : 0 < NEXUS_KEYCODE_PROTOCOL_RATE_LIMIT_BUCKET_MAX →
    0 < NEXUS_KEYCODE_PROTOCOL_RATE_LIMIT_REFILL_SECONDS_PER_ATTEMPT;
  entry_timeout_ok : is_u32 NEXUS_KEYCODE_PROTOCOL_ENTRY_TIMEOUT_SECONDS
}.

(** The configuration of include/user_config.h. *)
Definition user_config : KeycodeConfig := {|
  NEXUS_KEYCODE_PROTOCOL := NEXUS_KEYCODE_PROTOCOL_FULL;
  NEXUS_KEYCODE_PRO_FACTORY_QC_LONG_LIFETIME_MAX := 5;
  NEXUS_KEYCODE_PRO_FACTORY_QC_SHORT_LIFETIME_MAX := 5;
  NEXUS_KEYCODE_PROTOCOL_RATE_LIMIT_BUCKET_MAX := 128;
  NEXUS_KEYCODE_PROTOCOL_RATE_LIMIT_BUCKET_INITIAL_COUNT := 6;
  NEXUS_KEYCODE_PROTOCOL_RATE_LIMIT_REFILL_SECONDS_PER_ATTEMPT := 720;
  NEXUS_KEYCODE_PROTOCOL_ENTRY_TIMEOUT_SECONDS := 16
|}.

(** The same build for a small keypad: short QC codes do not exist there. *)
Definition small_config : KeycodeConfig := {|
  NEXUS_KEYCODE_PROTOCOL := NEXUS_KEYCODE_PROTOCOL_SMALL;
  NEXUS_KEYCODE_PRO_FACTORY_QC_LONG_LIFETIME_MAX := 5;
  NEXUS_KEYCODE_PRO_FACTORY_QC_SHORT_LIFETIME_MAX := 0;
  NEXUS_KEYCODE_PROTOCOL_RATE_LIMIT_BUCKET_MAX := 128;
  NEXUS_KEYCODE_PROTOCOL_RATE_LIMIT_BUCKET_INITIAL_COUNT := 6;
  NEXUS_KEYCODE_PROTOCOL_RATE_LIMIT_REFILL_SECONDS_PER_ATTEMPT := 720;
  NEXUS_KEYCODE_PROTOCOL_ENTRY_TIMEOUT_SECONDS := 16
|}.

Lemma user_config_ok : KeycodeConfigOk (H := user_config).
Proof. split; cbn; wrap. Qed.
Lemma small_config_ok : KeycodeConfigOk (H := small_config).
Proof. split; cbn; wrap. Qed.

Definition NEXUS_KEYCODE_PROTOCOL_NO_STOP_LENGTH : Z := UINT8_MAX.
Definition NEXUS_KEYCODE_UNDEFINED_END_CHAR : Z := 63. (* '?' *)

Definition NEXUS_KEYCODE_PROTOCOL_STOP_LENGTH `{KeycodeConfig} : Z :=
  match NEXUS_KEYCODE_PROTOCOL with
  | NEXUS_KEYCODE_PROTOCOL_FULL => NEXUS_KEYCODE_PROTOCOL_NO_STOP_LENGTH
  | NEXUS_KEYCODE_PROTOCOL_SMALL => 14
  end.
Definition NEXUS_KEYCODE_START_CHAR `{KeycodeConfig} : Z :=
  match NEXUS_KEYCODE_PROTOCOL with
  | NEXUS_KEYCODE_PROTOCOL_FULL => 42 (* '*' *)
  | NEXUS_KEYCODE_PROTOCOL_SMALL => 49 (* '1' *)
  end.
Definition NEXUS_KEYCODE_END_CHAR `{KeycodeConfig} : Z :=
  match NEXUS_KEYCODE_PROTOCOL with
  | NEXUS_KEYCODE_PROTOCOL_FULL => 35 (* '#' *)
  | NEXUS_KEYCODE_PROTOCOL_SMALL => NEXUS_KEYCODE_UNDEFINED_END_CHAR
  end.
(** The alphabet string, its terminating zero included. *)
Definition NEXUS_KEYCODE_ALPHABET `{KeycodeConfig} : list Z :=
  match NEXUS_KEYCODE_PROTOCOL with
  | NEXUS_KEYCODE_PROTOCOL_FULL => seqZ 48 10 ++ [0]
  | NEXUS_KEYCODE_PROTOCOL_SMALL => [50; 51; 52; 53; 0]
  end.

(** ** Constants *)

Definition NEXUS_KEYCODE_MAX_MESSAGE_LENGTH : Z := 30.
Definition NEXUS_KEYCODE_PRO_RECEIVE_WINDOW_BEFORE_PD : Z := 23.
Definition NEXUS_KEYCODE_PRO_RECEIVE_WINDOW_AFTER_PD : Z := 40.
Definition NEXUS_KEYCODE_PRO_MAX_MESSAGE_ID_BYTE : nat := 3.
Definition NEXUS_KEYCODE_PRO_SECONDS_IN_HOUR : Z := 60 * 60.
Definition NEXUS_KEYCODE_PRO_SECONDS_IN_DAY : Z := 60 * 60 * 24.
Definition NEXUS_KEYCODE_PRO_QC_LONG_TEST_MESSAGE_SECONDS : Z := 3600.
Definition NEXUS_KEYCODE_PRO_QC_SHORT_TEST_MESSAGE_SECONDS : Z := 600.
Definition NEXUS_KEYCODE_PRO_UNIVERSAL_SHORT_TEST_SECONDS : Z := 127.

Inductive nexus_keycode_pro_response :=
| NEXUS_KEYCODE_PRO_RESPONSE_INVALID
| NEXUS_KEYCODE_PRO_RESPONSE_VALID_DUPLICATE
| NEXUS_KEYCODE_PRO_RESPONSE_VALID_APPLIED
| NEXUS_KEYCODE_PRO_RESPONSE_DISPLAY_DEVICE_ID
| NEXUS_KEYCODE_PRO_RESPONSE_NONE.

#[export] Instance response_eq_dec : EqDecision nexus_keycode_pro_response.
Proof. solve_decision. Defined.

(** ** State *)

(** [struct nexus_keycode_frame]: 30 keys, of which [length] are in use. *)
Record nexus_keycode_frame := mk_frame { fr_keys : list Z; fr_length : Z }.

Definition frame_ok (f : nexus_keycode_frame) : Prop :=
  length (fr_keys f) = 30%nat ∧ 0 ≤ fr_length f ≤ NEXUS_KEYCODE_MAX_MESSAGE_LENGTH.

(** [struct keycode_pro_stored], 12 packed bytes. *)
Record keycode_pro_stored := mk_stored {
  received_flags : list Z;          (* 5 bytes, of which 3 are used *)
  qc_test_codes_received : Z;
  pd_index : Z;
  custom_flags_bitmask : Z;
  stored_pad : Z
}.

Definition stored_bytes (st : keycode_pro_stored) : list Z :=
  received_flags st ++ [qc_test_codes_received st] ++ le_bytes 4 (pd_index st) ++
  [custom_flags_bitmask st; stored_pad st].

(** Reading the structure back from its bytes. *)
Definition stored_of_bytes (b : list Z) : keycode_pro_stored :=
  mk_stored (take 5 b) (default 0 (b !! 5%nat)) (le_val (take 4 (drop 6 b)))
    (default 0 (b !! 10%nat)) (default 0 (b !! 11%nat)).

Definition stored_zero : keycode_pro_stored := mk_stored (replicate 5 0) 0 0 0 0.

(** Assignments to single fields. *)
Definition with_flags (l : list Z) (st : keycode_pro_stored) : keycode_pro_stored :=
  {| st with received_flags := l |}.
Definition with_qc (q : Z) (st : keycode_pro_stored) : keycode_pro_stored :=
  {| st with qc_test_codes_received := q |}.
Definition with_pd (pd : Z) (st : keycode_pro_stored) : keycode_pro_stored :=
  {| st with pd_index := pd |}.
Definition with_mask (m : Z) (st : keycode_pro_stored) : keycode_pro_stored :=
  {| st with custom_flags_bitmask := m |}.

(** [_this_core], [_this_protocol] and [_nexus_keycode_stored] of
    nexus_keycode_pro.c, and the product.  The function pointer
    [parse_and_apply] is the protocol it belongs to. *)
Record keycode_pro (P : Type) := mk_keycode_pro {
  pro_frame : nexus_keycode_frame;
  pro_pending : bool;
  pro_parse_and_apply : keycode_protocol;
  pro_alphabet : list Z;
  pro_stored : keycode_pro_stored;
  pro_prod : P
}.
Arguments mk_keycode_pro {P}.
Arguments pro_frame {P}.
Arguments pro_pending {P}.
Arguments pro_parse_and_apply {P}.
Arguments pro_alphabet {P}.
Arguments pro_stored {P}.
Arguments pro_prod {P}.

Definition stored_ok (st : keycode_pro_stored) : Prop :=
  bytes_ok (received_flags st) ∧ length (received_flags st) = 5%nat ∧
  is_u8 (qc_test_codes_received st) ∧ is_u32 (pd_index st) ∧
  is_u8 (custom_flags_bitmask st) ∧ is_u8 (stored_pad st).

Lemma stored_bytes_length st : length (received_flags st) = 5%nat → length (stored_bytes st) = 12%nat.
Proof. intros H. unfold stored_bytes. by rewrite !length_app, H. Qed.

Lemma stored_bytes_inner_ok st : stored_ok st → inner_ok NX_NV_BLOCK_KEYCODE_PRO (stored_bytes st).
Proof.
  intros (Hb & Hl & Hq & Hp & Hm & Hpad). split.
  - unfold stored_bytes. repeat apply Forall_app_2; auto with cint.
  - by rewrite stored_bytes_length.
Qed.

Lemma stored_of_stored_bytes st : stored_ok st → stored_of_bytes (stored_bytes st) = st.
Proof.
  intros (Hb & Hl & Hq & Hp & Hm & Hpad). destruct st as [fl qc pd cm pad]. cbn in *.
  unfold stored_bytes, stored_of_bytes. cbn [received_flags qc_test_codes_received pd_index custom_flags_bitmask stored_pad].
  do 5 (destruct fl as [|? fl]; [done|]). destruct fl; [|done].
  cbn [app take drop lookup list_lookup le_bytes default length].
  f_equal. change ([pd mod 256; _; _; _]) with (le_bytes 4 pd). rewrite le_val_bytes.
  change (256 ^ Z.of_nat 4) with 4294967296. apply Z.mod_small. wrap.
Qed.

Lemma stored_bytes_of_bytes b : bytes_ok b → length b = 12%nat → stored_bytes (stored_of_bytes b) = b.
Proof.
  intros Hb Hl. do 12 (destruct b as [|? b]; [done|]). destruct b; [|done].
  unfold stored_of_bytes, stored_bytes.
  cbn [take drop lookup list_lookup default received_flags qc_test_codes_received pd_index custom_flags_bitmask stored_pad].
  match goal with |- context [le_bytes 4 (le_val ?l)] =>
    change (le_bytes 4 (le_val l)) with (le_bytes (length l) (le_val l)); rewrite (le_bytes_val l) end.
  - done.
  - repeat match goal with H : Forall _ (_ :: _) |- _ => apply Forall_cons in H as [? H] end.
    by repeat apply Forall_cons_2.
Qed.

Lemma stored_of_bytes_ok b : bytes_ok b → length b = 12%nat → stored_ok (stored_of_bytes b).
Proof.
  intros Hb Hl. do 12 (destruct b as [|? b]; [done|]). destruct b; [|done].
  repeat match goal with H : Forall _ (_ :: _) |- _ => apply Forall_cons in H as [? H] end.
  unfold stored_ok, stored_of_bytes.
  cbn [take drop lookup list_lookup default received_flags qc_test_codes_received pd_index custom_flags_bitmask stored_pad].
  split_and!; try done; [by repeat apply Forall_cons_2|].
  match goal with |- is_u32 (le_val ?l) => pose proof (le_val_range l) as Hr end.
  apply Hr. by repeat apply Forall_cons_2.
Qed.
