(* ===== verification/KeycodeWindow.v ===== *)
(** * Received message IDs, QC counters and custom flags (nexus_keycode_pro.c)

    The part of the keycode protocol that is persisted.  Message IDs in the 24
    up to [pd_index] ("Pd") have a received flag; the window moves up when an
    ID above Pd is received.  The abstract state is the set [received] of IDs
    that can no longer be used; the theorems say how each operation changes
    that set and that none but the wipes shrinks it. *)

From S2P Require Import Prelude Crc NvBlock Product Nv Window KeycodeState.
Local Open Scope Z_scope.
Local Open Scope c_scope.

(** [while (cur_id <= pd + above) { if ((cur_id & 0x3F) == id) break; cur_id++; }] *)
Fixpoint infer_loop (fuel : nat) (compressed_message_id limit cur_id : Z) : option Z :=
  match fuel with
  | O => None
  | S fuel =>
    if limit <? cur_id then Some cur_id
    else if cur_id .& 0x3F =? compressed_message_id then Some cur_id
    else infer_loop fuel compressed_message_id limit (u32 (cur_id + 1))
  end.

(** The window is 64 IDs wide, so 65 rounds of the loop suffice. *)
Definition nexus_keycode_pro_infer_full_message_id
    (compressed_message_id current_pd_index valid_id_count_below valid_id_count_above : Z) : option Z :=
  infer_loop 128 compressed_message_id
    (u32 (current_pd_index + valid_id_count_above))
    (u32 (current_pd_index - valid_id_count_below)).

Section Ops.
Context {P : Type} `{Product P} `{KeycodeConfig}.

Definition on_prod {A} (m : M P A) : M (keycode_pro P) A :=
  zoom pro_prod (λ p s, {| s with pro_prod := p |}) m.

Definition modify_stored (f : keycode_pro_stored → keycode_pro_stored) : M (keycode_pro P) unit :=
  modify (λ s, {| s with pro_stored := f (pro_stored s) |}).

Definition flags_of (s : keycode_pro P) : list Z := received_flags (pro_stored s).
Definition set_flags (l : list Z) : M (keycode_pro P) unit := modify_stored (with_flags l).

Definition _update_keycode_pro_nv_blocks : M (keycode_pro P) unit :=
  st ← gets pro_stored;
  _ ← on_prod (nexus_nv_update NX_NV_BLOCK_KEYCODE_PRO (stored_bytes st));
  mret tt.

Definition nexus_keycode_pro_get_current_pd_index : M (keycode_pro P) Z :=
  gets (λ s, pd_index (pro_stored s)).

Definition nexus_keycode_pro_reset_pd_index : M (keycode_pro P) unit :=
  modify_stored (with_pd NEXUS_KEYCODE_PRO_RECEIVE_WINDOW_BEFORE_PD).

Definition nexus_keycode_pro_reset_test_code_count : M (keycode_pro P) unit :=
  modify_stored (with_qc 0).

Definition nexus_keycode_pro_wipe_message_ids_in_window : M (keycode_pro P) unit :=
  flags ← gets flags_of;
  flags ← lift (memcpy_at flags 0
                  (nexus_bitset_clear (take NEXUS_KEYCODE_PRO_MAX_MESSAGE_ID_BYTE flags)));
  set_flags flags;;
  _update_keycode_pro_nv_blocks.

Definition nexus_keycode_pro_get_current_message_id_window : M (keycode_pro P) nexus_window :=
  s ← get_state;
  mret (nexus_util_window_init (flags_of s) 3 (pd_index (pro_stored s)) 23 40).

Definition nexus_keycode_pro_increase_pd_and_shift_window_right (pd_increment : Z) : M (keycode_pro P) unit :=
  (if NEXUS_KEYCODE_PRO_RECEIVE_WINDOW_BEFORE_PD <? pd_increment
   then nexus_keycode_pro_wipe_message_ids_in_window
   else
     flags ← gets flags_of;
     new_mask ← lift (shift_mask flags pd_increment NEXUS_KEYCODE_PRO_RECEIVE_WINDOW_BEFORE_PD
                        (replicate NEXUS_KEYCODE_PRO_MAX_MESSAGE_ID_BYTE 0));
     flags ← lift (memcpy_at flags 0 new_mask);
     set_flags flags);;
  modify_stored (λ st, with_pd (u32 (pd_index st + pd_increment)) st);;
  _update_keycode_pro_nv_blocks.

Definition nexus_keycode_pro_is_message_id_within_window (cur_pd full_message_id : Z) : bool :=
  (u32 (cur_pd - NEXUS_KEYCODE_PRO_RECEIVE_WINDOW_BEFORE_PD) <=? full_message_id) &&
  (full_message_id <=? u32 (cur_pd + NEXUS_KEYCODE_PRO_RECEIVE_WINDOW_AFTER_PD)).

Definition nexus_keycode_pro_mask_idx_from_message_id (full_message_id : Z) : M (keycode_pro P) (option Z) :=
  cur_pd ← nexus_keycode_pro_get_current_pd_index;
  mret (if negb (nexus_keycode_pro_is_message_id_within_window cur_pd full_message_id) then None
        else if full_message_id <=? cur_pd
        then Some (u8 (NEXUS_KEYCODE_PRO_RECEIVE_WINDOW_BEFORE_PD - u32 (cur_pd - full_message_id)))
        else Some (u8 (NEXUS_KEYCODE_PRO_RECEIVE_WINDOW_BEFORE_PD + u32 (full_message_id - cur_pd)))).

(** The result is whether Pd increased and the mask index. *)
Definition nexus_keycode_pro_update_window_and_message_mask_id (full_message_id : Z) : M (keycode_pro P) (bool * Z) :=
  cur_pd ← nexus_keycode_pro_get_current_pd_index;
  let mask_id_index := NEXUS_KEYCODE_PRO_RECEIVE_WINDOW_BEFORE_PD in
  if cur_pd <? full_message_id then
    nexus_keycode_pro_increase_pd_and_shift_window_right (u32 (full_message_id - cur_pd));;
    mret (true, mask_id_index)
  else if u32 (cur_pd - NEXUS_KEYCODE_PRO_RECEIVE_WINDOW_BEFORE_PD) <=? full_message_id then
    let mask_id_index :=
      u8 (NEXUS_KEYCODE_PRO_RECEIVE_WINDOW_BEFORE_PD - u32 (cur_pd - full_message_id)) in
    mret (false, if NEXUS_KEYCODE_PRO_RECEIVE_WINDOW_BEFORE_PD <? mask_id_index
                 then NEXUS_KEYCODE_PRO_RECEIVE_WINDOW_BEFORE_PD else mask_id_index)
  else mret (false, mask_id_index).

(** [nexus_nv_read(NX_NV_BLOCK_KEYCODE_PRO, &_nexus_keycode_stored)]. *)
Definition reload_stored : M (keycode_pro P) unit :=
  st ← gets pro_stored;
  '(_, bytes) ← on_prod (nexus_nv_read NX_NV_BLOCK_KEYCODE_PRO (stored_bytes st));
  modify_stored (λ _, stored_of_bytes bytes).

Definition nexus_keycode_pro_get_full_message_id_flag (full_message_id : Z) : M (keycode_pro P) bool :=
  reload_stored;;
  cur_pd ← nexus_keycode_pro_get_current_pd_index;
  if cur_pd <? full_message_id then mret false
  else
    mask_id ← nexus_keycode_pro_mask_idx_from_message_id full_message_id;
    match mask_id with
    | None => mret false
    | Some mask_id_index =>
      s ← get_state;
      lift (nexus_bitset_contains (stored_bytes (pro_stored s)) mask_id_index)
    end.

Definition nexus_keycode_pro_set_full_message_id_flag (full_message_id : Z) : M (keycode_pro P) unit :=
  already ← nexus_keycode_pro_get_full_message_id_flag full_message_id;
  if (already : bool) then mret tt
  else
    '(_, mask_id_index) ← nexus_keycode_pro_update_window_and_message_mask_id full_message_id;
    flags ← gets flags_of;
    flags ← lift (nexus_bitset_add flags mask_id_index);
    set_flags flags;;
    _update_keycode_pro_nv_blocks.

(** The body of [for (i = 0; i <= mask_id_index; i++)]. *)
Definition mask_all_body (i : Z) (flags : list Z) : option (list Z) := nexus_bitset_add flags i.

Definition nexus_keycode_pro_mask_below_message_id (full_message_id : Z) : M (keycode_pro P) unit :=
  if full_message_id =? 0 then mret tt
  else
    let max_full_id_to_mask := u16 (full_message_id - 1) in
    cur_pd ← nexus_keycode_pro_get_current_pd_index;
    if full_message_id <? u32 (cur_pd - NEXUS_KEYCODE_PRO_RECEIVE_WINDOW_BEFORE_PD) then mret tt
    else
      '(_, mask_id_index) ← nexus_keycode_pro_update_window_and_message_mask_id max_full_id_to_mask;
      flags ← gets flags_of;
      flags ← lift (for_loop (Z.to_nat (mask_id_index + 1)) 0 mask_all_body flags);
      set_flags flags;;
      _update_keycode_pro_nv_blocks.

(** ** QC code counters *)

Definition qc_of (s : keycode_pro P) : Z := qc_test_codes_received (pro_stored s).

Definition nexus_keycode_pro_get_long_qc_code_count : M (keycode_pro P) Z :=
  gets (λ s, u8 ((qc_of s .& 0xF0) ≫ 4)).

Definition nexus_keycode_pro_get_short_qc_code_count : M (keycode_pro P) Z :=
  gets (λ s, qc_of s .& 0x0F).

Definition nexus_keycode_pro_can_unit_accept_qc_code (qc_credit_seconds : Z) : M (keycode_pro P) bool :=
  short_code_count ← nexus_keycode_pro_get_short_qc_code_count;
  long_code_count ← nexus_keycode_pro_get_long_qc_code_count;
  let is_short_code := qc_credit_seconds <=? NEXUS_KEYCODE_PRO_QC_SHORT_TEST_MESSAGE_SECONDS in
  payg_state_before ← gets (λ s, nxp_common_payg_state_get_current (pro_prod s));
  mret (if bool_decide (payg_state_before = NXP_COMMON_PAYG_STATE_UNLOCKED) then false
        else if negb (qc_credit_seconds =? NEXUS_KEYCODE_PRO_QC_LONG_TEST_MESSAGE_SECONDS) &&
                negb (bool_decide (payg_state_before = NXP_COMMON_PAYG_STATE_DISABLED)) then false
        else if is_short_code then
          (0 <? NEXUS_KEYCODE_PRO_FACTORY_QC_SHORT_LIFETIME_MAX) &&
          (short_code_count <? NEXUS_KEYCODE_PRO_FACTORY_QC_SHORT_LIFETIME_MAX)
        else
          (0 <? NEXUS_KEYCODE_PRO_FACTORY_QC_LONG_LIFETIME_MAX) &&
          (long_code_count <? NEXUS_KEYCODE_PRO_FACTORY_QC_LONG_LIFETIME_MAX)).

Definition nexus_keycode_pro_increment_long_qc_test_message_count : M (keycode_pro P) unit :=
  count ← nexus_keycode_pro_get_long_qc_code_count;
  let new_long_code_count := u8 (count + 1) in
  if (15 <? new_long_code_count) ||
     (NEXUS_KEYCODE_PRO_FACTORY_QC_LONG_LIFETIME_MAX <? new_long_code_count) then mret tt
  else
    modify_stored (λ st, with_qc (qc_test_codes_received st .& 0x0F) st);;
    modify_stored (λ st, with_qc (qc_test_codes_received st .| u8 (new_long_code_count ≪ 4)) st);;
    _update_keycode_pro_nv_blocks.

Definition nexus_keycode_pro_increment_short_qc_test_message_count : M (keycode_pro P) unit :=
  count ← nexus_keycode_pro_get_short_qc_code_count;
  let new_short_code_count := u8 (count + 1) in
  if (15 <? new_short_code_count) ||
     (NEXUS_KEYCODE_PRO_FACTORY_QC_SHORT_LIFETIME_MAX <? new_short_code_count) then mret tt
  else
    modify_stored (λ st, with_qc (qc_test_codes_received st .& 0xF0) st);;
    modify_stored (λ st, with_qc (qc_test_codes_received st .| new_short_code_count) st);;
    _update_keycode_pro_nv_blocks.

(** ** Custom flags *)

Definition nx_keycode_set_custom_flag (flag : Z) : M (keycode_pro P) unit :=
  modify_stored (λ st, with_mask (custom_flags_bitmask st .| u8 flag) st);;
  _update_keycode_pro_nv_blocks;;
  on_prod (notify_custom_flag_changed flag true).

Definition nexus_keycode_pro_reset_custom_flag (flag : Z) : M (keycode_pro P) unit :=
  modify_stored (λ st, with_mask (u8 (custom_flags_bitmask st .& Z.lnot (u8 flag))) st);;
  _update_keycode_pro_nv_blocks;;
  on_prod (notify_custom_flag_changed flag false).

Definition nx_keycode_get_custom_flag (flag : Z) : M (keycode_pro P) bool :=
  gets (λ s, negb (custom_flags_bitmask (pro_stored s) .& u8 flag =? 0)).

(** ** Shared by the protocols *)

Definition payg_state : M (keycode_pro P) nxp_common_payg_state :=
  gets (λ s, nxp_common_payg_state_get_current (pro_prod s)).

(** The resets that the wipe codes share. *)
Definition wipe_ids_and_counts : M (keycode_pro P) unit :=
  nexus_keycode_pro_reset_pd_index;;
  nexus_keycode_pro_reset_test_code_count;;
  nexus_keycode_pro_wipe_message_ids_in_window.
End Ops.

(** ** The abstract state *)

(** The message IDs that can no longer be used: those below the window and
    those flagged in it. *)
Definition received (st : keycode_pro_stored) (id : Z) : Prop :=
  id < pd_index st - 23 ∨ (id ≤ pd_index st ∧ mem (received_flags st) (23 - (pd_index st - id)) = true).

(** Pd never leaves the 16 bits that the operations take IDs in. *)
Definition pd_ok (st : keycode_pro_stored) : Prop := 23 ≤ pd_index st ∧ pd_index st + 40 < 65535.

Lemma stored_flags_ok st : stored_ok st → bitset_ok (received_flags st) ∧ bitset_size (received_flags st) = 40.
Proof. intros (Hb & Hl & _). unfold bitset_ok, bitset_size. rewrite Hl. split; [split; [done|lia]|done]. Qed.

Section Laws.
Context {P : Type} `{ProductLaws P} `{!ReliableNv P} `{KeycodeConfigOk}.

(** The NV holds the stored data, or nothing valid. *)
Definition saved (s : keycode_pro P) : Prop :=
  nv_stored NX_NV_BLOCK_KEYCODE_PRO (pro_prod s) = Some (stored_bytes (pro_stored s)).
Definition synced (s : keycode_pro P) : Prop :=
  saved s ∨ nv_stored NX_NV_BLOCK_KEYCODE_PRO (pro_prod s) = None.

(** A step that changes the stored data and its NV block only. *)
Record stored_step (s s' : keycode_pro P) : Prop := mk_stored_step {
  step_frame : pro_frame s' = pro_frame s;
  step_pending : pro_pending s' = pro_pending s;
  step_parse : pro_parse_and_apply s' = pro_parse_and_apply s;
  step_alphabet : pro_alphabet s' = pro_alphabet s;
  step_key : nxp_keycode_get_secret_key (pro_prod s') = nxp_keycode_get_secret_key (pro_prod s);
  step_id : nxp_keycode_get_user_facing_id (pro_prod s') = nxp_keycode_get_user_facing_id (pro_prod s);
  step_payg : payg_equiv (pro_prod s') (pro_prod s);
  step_other meta : block_id meta ≠ block_id NX_NV_BLOCK_KEYCODE_PRO →
    nv_stored meta (pro_prod s') = nv_stored meta (pro_prod s)
}.

#[global] Instance stored_step_preorder : PreOrder stored_step.
Proof.
  split.
  - intros s. by split.
  - intros s1 s2 s3 [? ? ? ? ? ? Hp1 Ho1] [? ? ? ? ? ? Hp2 Ho2]. split; try congruence.
    + by transitivity (pro_prod s2).
    + intros meta Hm. by rewrite Ho2, Ho1.
Qed.

Lemma update_nv_spec (s : keycode_pro P) :
  stored_ok (pro_stored s) →
  ∃ s', _update_keycode_pro_nv_blocks s = Some (tt, s') ∧
    pro_stored s' = pro_stored s ∧ stored_step s s' ∧ saved s'.
Proof.
  intros Hok. unfold _update_keycode_pro_nv_blocks, on_prod. mstep.
  destruct (nexus_nv_update_spec NX_NV_BLOCK_KEYCODE_PRO (stored_bytes (pro_stored s)) (pro_prod s))
    as (p' & -> & [U1 U2 U3 U4 U5]); [apply keycode_metas_ok|by apply stored_bytes_inner_ok|].
  cbn [mbind option_bind]. eexists. split; [reflexivity|]. by split_and!.
Qed.

(** A change of the stored data that is then persisted. *)
Lemma modify_update_spec f (s : keycode_pro P) :
  stored_ok (f (pro_stored s)) →
  ∃ s', (modify_stored f;; _update_keycode_pro_nv_blocks) s = Some (tt, s') ∧
    pro_stored s' = f (pro_stored s) ∧ stored_step s s' ∧ saved s'.
Proof.
  intros Hok. unfold modify_stored. erewrite bind_Some by reflexivity.
  destruct (update_nv_spec {| s with pro_stored := f (pro_stored s) |} Hok) as (s' & -> & Hs & [] & Hsv).
  exists s'. split_and!; try done.
Qed.

Lemma reload_spec (s : keycode_pro P) :
  stored_ok (pro_stored s) → synced s → reload_stored s = Some (tt, s).
Proof.
  intros Hok Hsync. unfold reload_stored, on_prod, modify_stored. mstep.
  rewrite nexus_nv_read_spec; [|apply keycode_metas_ok|by apply stored_bytes_length, Hok].
  destruct Hsync as [Hs|Hs].
  - rewrite Hs. cbn [mbind option_bind]. rewrite stored_of_stored_bytes by done. by destruct s.
  - rewrite Hs. cbn [mbind option_bind]. rewrite stored_of_stored_bytes by done. by destruct s.
Qed.

(** The stored data with new flags for the window. *)
Lemma prefix_flags_ok st new :
  stored_ok st → bytes_ok new → length new = 3%nat →
  memcpy_at (received_flags st) 0 new = Some (new ++ drop 3 (received_flags st)) ∧
  stored_ok (with_flags (new ++ drop 3 (received_flags st)) st) ∧
  ∀ j, 0 ≤ j ≤ 23 → mem (new ++ drop 3 (received_flags st)) j = mem new j.
Proof.
  intros (Hb & Hl & ?) Hn Hnl. split_and!.
  - rewrite memcpy_at_in by lia. by rewrite Hnl.
  - split_and!; cbn; try tauto.
    + apply Forall_app_2; [done|by apply Forall_drop].
    + rewrite length_app, length_drop. lia.
  - intros j Hj. apply mem_app_l. unfold bitset_size. lia.
Qed.

Lemma wipe_spec (s : keycode_pro P) :
  stored_ok (pro_stored s) →
  ∃ s' flags, nexus_keycode_pro_wipe_message_ids_in_window s = Some (tt, s') ∧
    pro_stored s' = with_flags flags (pro_stored s) ∧
    stored_ok (pro_stored s') ∧ stored_step s s' ∧ saved s' ∧
    ∀ j, 0 ≤ j ≤ 23 → mem flags j = false.
Proof.
  intros Hok. unfold nexus_keycode_pro_wipe_message_ids_in_window.
  set (new := nexus_bitset_clear (take NEXUS_KEYCODE_PRO_MAX_MESSAGE_ID_BYTE (received_flags (pro_stored s)))).
  assert (Hnew : bytes_ok new ∧ length new = 3%nat ∧ ∀ e, mem new e = false).
  { pose proof Hok as (Hb & Hl & _). unfold new, NEXUS_KEYCODE_PRO_MAX_MESSAGE_ID_BYTE.
    destruct (bitset_clear_spec (take 3 (received_flags (pro_stored s)))) as ([? _] & Hcl & ?).
    - split; [by apply Forall_take|rewrite length_take; lia].
    - split_and!; [done| |done]. rewrite Hcl, length_take. lia. }
  destruct Hnew as (Hnb & Hnl & Hnm).
  destruct (prefix_flags_ok (pro_stored s) new Hok Hnb Hnl) as (Hcpy & Hok' & Hmem).
  erewrite bind_Some by reflexivity. unfold flags_of. fold new.
  erewrite bind_Some by (unfold lift; rewrite Hcpy; reflexivity).
  unfold set_flags.
  destruct (modify_update_spec
    (with_flags (new ++ drop 3 (received_flags (pro_stored s)))) s Hok')
    as (s' & -> & Hs & Hst & Hsv).
  exists s', (new ++ drop 3 (received_flags (pro_stored s))). rewrite Hs.
  split_and!; try done. intros j Hj. by rewrite Hmem, Hnm.
Qed.

Lemma increase_pd_spec inc (s : keycode_pro P) :
  stored_ok (pro_stored s) → 0 < inc → pd_index (pro_stored s) + inc < 4294967296 →
  ∃ s' flags, nexus_keycode_pro_increase_pd_and_shift_window_right inc s = Some (tt, s') ∧
    pro_stored s' = with_pd (pd_index (pro_stored s) + inc) (with_flags flags (pro_stored s)) ∧
    stored_ok (pro_stored s') ∧ stored_step s s' ∧ saved s' ∧
    ∀ j, 0 ≤ j ≤ 23 → mem flags j = (j + inc <=? 23) && mem (received_flags (pro_stored s)) (j + inc).
Proof.
  intros Hok Hinc Hpd. unfold nexus_keycode_pro_increase_pd_and_shift_window_right.
  assert (Hfirst : ∃ s1 flags,
    (if NEXUS_KEYCODE_PRO_RECEIVE_WINDOW_BEFORE_PD <? inc
     then nexus_keycode_pro_wipe_message_ids_in_window
     else
       flags ← gets flags_of;
       new_mask ← lift (shift_mask flags inc NEXUS_KEYCODE_PRO_RECEIVE_WINDOW_BEFORE_PD
                          (replicate NEXUS_KEYCODE_PRO_MAX_MESSAGE_ID_BYTE 0));
       flags ← lift (memcpy_at flags 0 new_mask);
       set_flags flags) s = Some (tt, s1) ∧
    pro_stored s1 = with_flags flags (pro_stored s) ∧
    stored_ok (pro_stored s1) ∧ stored_step s s1 ∧
    ∀ j, 0 ≤ j ≤ 23 → mem flags j = (j + inc <=? 23) && mem (received_flags (pro_stored s)) (j + inc)).
  { unfold NEXUS_KEYCODE_PRO_RECEIVE_WINDOW_BEFORE_PD, NEXUS_KEYCODE_PRO_MAX_MESSAGE_ID_BYTE.
    destruct (Z.ltb_spec 23 inc).
    - destruct (wipe_spec s Hok) as (s1 & fl & ? & ? & ? & ? & ? & Hm). exists s1, fl.
      split_and!; try done. intros j Hj. rewrite Hm by done. by replace (j + inc <=? 23) with false by lia.
    - destruct (stored_flags_ok _ Hok) as [Hfb Hfs].
      destruct (shift_mask_spec (received_flags (pro_stored s)) (replicate 3 0) inc 23)
        as (new & Hnew & [Hnb _] & Hnl & Hnm).
      + done.
      + split; [apply Forall_replicate; wrap|simpl; lia].
      + lia.
      + lia.
      + unfold bitset_size. rewrite length_replicate. lia.
      + apply mem_replicate.
      + rewrite length_replicate in Hnl.
        destruct (prefix_flags_ok (pro_stored s) new Hok Hnb Hnl) as (Hcpy & Hok' & Hmem).
        eexists _, _. erewrite bind_Some by reflexivity. unfold flags_of.
        erewrite bind_Some by (unfold lift; rewrite Hnew; reflexivity).
        erewrite bind_Some by (unfold lift; rewrite Hcpy; reflexivity).
        split; [reflexivity|]. split; [reflexivity|]. split; [exact Hok'|]. split; [by split|].
        intros j Hj. by rewrite Hmem, Hnm by lia. }
  destruct Hfirst as (s1 & fl & Hrun & Hs1 & Hok1 & Hst1 & Hm).
  rewrite (bind_Some _ _ _ _ _ Hrun).
  destruct (modify_update_spec
    (λ st, with_pd (u32 (pd_index st + inc)) st) s1) as (s' & -> & Hs & Hst & Hsv).
  { destruct Hok1 as (?&?&?&?&?&?). split_and!; cbn; auto with cint. }
  assert (Heq : pro_stored s' =
    with_pd (pd_index (pro_stored s) + inc) (with_flags fl (pro_stored s))).
  { rewrite Hs, Hs1. cbn. destruct Hok as (_&_&_&?&_). by rewrite u32_small by wrap. }
  exists s', fl. split_and!; try done.
  - rewrite Heq. destruct Hok as (?&?&?&?&?&?). rewrite Hs1 in Hok1.
    destruct Hok1 as (?&?&_). split_and!; cbn in *; try done; wrap.
  - by transitivity s1.
Qed.

(** ** Flags *)

Lemma stored_bytes_mem st j :
  stored_ok st → 0 ≤ j ≤ 23 →
  nexus_bitset_contains (stored_bytes st) j = Some (mem (received_flags st) j).
Proof.
  intros Hok Hj. pose proof Hok as (Hb & Hl & _).
  destruct (stored_bytes_inner_ok st Hok) as [Hbb _]. pose proof (stored_bytes_length st Hl) as Hbl.
  rewrite bitset_contains_spec.
  - f_equal. apply mem_app_l. unfold bitset_size. lia.
  - split; [done|lia].
  - unfold bitset_size. lia.
Qed.

(** The received flag of an ID of the window. *)
Definition id_flag (st : keycode_pro_stored) (id : Z) : bool :=
  (pd_index st - 23 <=? id) && (id <=? pd_index st) &&
  mem (received_flags st) (23 - (pd_index st - id)).

Lemma get_flag_spec id (s : keycode_pro P) :
  stored_ok (pro_stored s) → pd_ok (pro_stored s) → synced s → 0 ≤ id < 65536 →
  nexus_keycode_pro_get_full_message_id_flag id s = Some (id_flag (pro_stored s) id, s).
Proof.
  intros Hok [Hp1 Hp2] Hsync Hid. unfold nexus_keycode_pro_get_full_message_id_flag.
  rewrite (bind_Some _ _ _ _ _ (reload_spec s Hok Hsync)).
  unfold nexus_keycode_pro_get_current_pd_index, nexus_keycode_pro_mask_idx_from_message_id,
    nexus_keycode_pro_get_current_pd_index, nexus_keycode_pro_is_message_id_within_window,
    NEXUS_KEYCODE_PRO_RECEIVE_WINDOW_BEFORE_PD, NEXUS_KEYCODE_PRO_RECEIVE_WINDOW_AFTER_PD.
  mstep. unfold id_flag. set (pd := pd_index (pro_stored s)) in *.
  destruct (Z.ltb_spec pd id).
  { replace (id <=? pd) with false by lia. by rewrite andb_false_r. }
  fold pd.
  rewrite (u32_small (pd - 23)), (u32_small (pd + 40)) by wrap.
  replace (id <=? pd) with true by lia. replace (id <=? pd + 40) with true by lia.
  destruct (Z.leb_spec (pd - 23) id); cbn [andb negb]; [|done].
  rewrite (u32_small (pd - id)), u8_small by wrap. rewrite stored_bytes_mem by (done || lia).
  done.
Qed.

(** The flags of the IDs of the window [st'] are those of [st], for the IDs
    [st] had flags for. *)
Definition flags_carried (st st' : keycode_pro_stored) : Prop :=
  ∀ x, pd_index st' - 23 ≤ x ≤ pd_index st' →
       mem (received_flags st') (23 - (pd_index st' - x)) =
       (x <=? pd_index st) && mem (received_flags st) (23 - (pd_index st - x)).

Lemma update_window_spec id (s : keycode_pro P) :
  stored_ok (pro_stored s) → pd_ok (pro_stored s) → synced s →
  pd_index (pro_stored s) - 23 ≤ id < 65536 →
  ∃ s' fl b,
    nexus_keycode_pro_update_window_and_message_mask_id id s =
      Some ((b, 23 - (Z.max (pd_index (pro_stored s)) id - id)), s') ∧
    pro_stored s' = with_pd (Z.max (pd_index (pro_stored s)) id) (with_flags fl (pro_stored s)) ∧
    stored_ok (pro_stored s') ∧ stored_step s s' ∧ synced s' ∧
    flags_carried (pro_stored s) (pro_stored s').
Proof.
  intros Hok [Hp1 Hp2] Hsync Hid. unfold nexus_keycode_pro_update_window_and_message_mask_id.
  erewrite bind_Some by reflexivity. cbv zeta. unfold NEXUS_KEYCODE_PRO_RECEIVE_WINDOW_BEFORE_PD.
  destruct (Z.ltb_spec (pd_index (pro_stored s)) id).
  - rewrite (u32_small (id - _)) by wrap.
    destruct (increase_pd_spec (id - pd_index (pro_stored s)) s Hok) as
      (s' & fl & Hrun & Hs' & Hok' & Hst & Hsv & Hm); [lia..|].
    rewrite (bind_Some _ _ _ _ _ Hrun).
    exists s', fl, true. rewrite Z.max_r by lia. rewrite Z.sub_diag.
    replace (pd_index (pro_stored s) + (id - pd_index (pro_stored s))) with id in Hs' by lia.
    split_and!; try done; [by left|]. unfold flags_carried. rewrite Hs'. cbn. intros x Hx.
    rewrite Hm by lia. f_equal; [|f_equal; lia].
    apply eq_true_iff_eq. rewrite !Z.leb_le. lia.
  - rewrite (u32_small (_ - 23)) by wrap.
    replace (pd_index (pro_stored s) - 23 <=? id) with true by lia.
    rewrite (u32_small (_ - id)), u8_small by wrap.
    replace (23 <? 23 - (pd_index (pro_stored s) - id)) with false by lia.
    exists s, (received_flags (pro_stored s)), false. rewrite Z.max_l by lia.
    split_and!; try done; [by destruct (pro_stored s)|].
    intros x Hx. by replace (x <=? pd_index (pro_stored s)) with true by lia.
Qed.

Lemma set_full_message_id_flag_spec id (s : keycode_pro P) :
  stored_ok (pro_stored s) → pd_ok (pro_stored s) → synced s →
  pd_index (pro_stored s) - 23 ≤ id < 65536 →
  ∃ s' fl, nexus_keycode_pro_set_full_message_id_flag id s = Some (tt, s') ∧
    pro_stored s' = with_pd (Z.max (pd_index (pro_stored s)) id) (with_flags fl (pro_stored s)) ∧
    stored_ok (pro_stored s') ∧ stored_step s s' ∧ synced s' ∧
    ∀ x, received (pro_stored s') x ↔
         x < Z.max (pd_index (pro_stored s)) id - 23 ∨ x = id ∨ received (pro_stored s) x.
Proof.
  intros Hok Hpd Hsync Hid. unfold nexus_keycode_pro_set_full_message_id_flag.
  rewrite (bind_Some _ _ _ _ _ (get_flag_spec id s Hok Hpd Hsync ltac:(destruct Hpd; lia))).
  destruct (id_flag (pro_stored s) id) eqn:Hflag.
  - unfold id_flag in Hflag. rewrite !andb_true_iff, !Z.leb_le in Hflag.
    destruct Hflag as [[Hf1 Hf2] Hf3]. rewrite Z.max_l by lia.
    exists s, (received_flags (pro_stored s)). split_and!; try done.
    + by destruct (pro_stored s).
    + intros x. unfold received. split; [tauto|]. intros [?|[->|?]]; [by left|by right|done].
  - destruct (update_window_spec id s Hok Hpd Hsync Hid) as
      (s1 & fl1 & b & Hrun & Hs1 & Hok1 & Hst1 & Hsync1 & Hc).
    rewrite (bind_Some _ _ _ _ _ Hrun). unfold flags_carried in Hc.
    set (pd' := Z.max (pd_index (pro_stored s)) id) in *.
    destruct (stored_flags_ok _ Hok1) as [Hb1 Hz1].
    destruct (bitset_add_spec (received_flags (pro_stored s1)) (23 - (pd' - id)) Hb1)
      as (fl2 & Hadd & [Hb2 _] & Hl2 & Hm2); [lia|].
    erewrite bind_Some by reflexivity. unfold flags_of.
    erewrite bind_Some by (unfold lift; rewrite Hadd; reflexivity).
    unfold set_flags.
    destruct (modify_update_spec (with_flags fl2) s1) as (s' & -> & Hs' & Hst' & Hsv').
    { destruct Hok1 as (?&?&?). unfold stored_ok. cbn. rewrite Hl2. done. }
    rewrite Hs1 in Hs'. cbn in Hs'.
    exists s', fl2. split_and!; try done.
    + rewrite Hs'. rewrite Hs1 in Hok1, Hl2. destruct Hok1 as (?&?&?). unfold stored_ok. cbn in *.
      rewrite Hl2. done.
    + by transitivity s1.
    + by left.
    + intros x. rewrite Hs'. unfold received. cbn. rewrite Hs1 in Hc, Hm2. cbn in Hc, Hm2.
      destruct (Z.lt_ge_cases x (pd' - 23)) as [Hlt|Hge]; [tauto|].
      destruct (Z.le_gt_cases x pd') as [Hle|Hgt].
      * rewrite Hm2, Hc by lia. rewrite orb_true_iff, andb_true_iff, Z.eqb_eq, Z.leb_le.
        split; [intros [?|[? [?|?]]]; [lia| |tauto]; right; left; lia|].
        intros [?|[?|[?|[? ?]]]]; [lia|right; split; [lia|left; lia]| |right; tauto].
        unfold pd' in *. lia.
      * split; [lia|]. unfold pd' in *. intros [?|[?|[?|[? ?]]]]; lia.
Qed.

(** The loop that flags every ID up to an index. *)
Lemma mask_all_spec flags n :
  bitset_ok flags → 0 ≤ n < bitset_size flags →
  ∃ flags', for_loop (Z.to_nat (n + 1)) 0 mask_all_body flags = Some flags' ∧
    bitset_ok flags' ∧ length flags' = length flags ∧
    ∀ j, 0 ≤ j → mem flags' j = (j <=? n) || mem flags j.
Proof.
  intros Hb Hn.
  destruct (for_loop_invariant
    (λ k l, bitset_ok l ∧ length l = length flags ∧ ∀ j, 0 ≤ j → mem l j = (j <? k) || mem flags j)
    (Z.to_nat (n + 1)) 0 mask_all_body flags) as (l & Hl & Hlb & Hll & Hlm).
  - split_and!; [done|done|]. intros j Hj. by replace (j <? 0) with false by lia.
  - intros k l Hk (Hlb & Hll & Hlm). unfold mask_all_body.
    destruct (bitset_add_spec l k Hlb) as (l' & -> & ? & Hl' & Hm').
    { unfold bitset_size in *. rewrite Hll. lia. }
    exists l'. split; [done|]. split_and!; [done|congruence|]. intros j Hj.
    rewrite Hm', Hlm by lia. rewrite orb_assoc. f_equal.
    apply eq_true_iff_eq. rewrite orb_true_iff, Z.eqb_eq, !Z.ltb_lt. lia.
  - exists l. split_and!; [done..|]. intros j Hj. rewrite Hlm by lia. f_equal.
    apply eq_true_iff_eq. rewrite Z.ltb_lt, Z.leb_le. lia.
Qed.

Lemma mask_below_message_id_spec n (s : keycode_pro P) :
  stored_ok (pro_stored s) → pd_ok (pro_stored s) → synced s →
  pd_index (pro_stored s) - 22 ≤ n < 65536 →
  ∃ s' fl, nexus_keycode_pro_mask_below_message_id n s = Some (tt, s') ∧
    pro_stored s' = with_pd (Z.max (pd_index (pro_stored s)) (n - 1)) (with_flags fl (pro_stored s)) ∧
    stored_ok (pro_stored s') ∧ stored_step s s' ∧ saved s' ∧
    ∀ x, received (pro_stored s') x ↔
         x < Z.max (pd_index (pro_stored s)) (n - 1) - 23 ∨ x < n ∨ received (pro_stored s) x.
Proof.
  intros Hok Hpd Hsync Hn. pose proof Hpd as [Hp1 Hp2].
  unfold nexus_keycode_pro_mask_below_message_id, NEXUS_KEYCODE_PRO_RECEIVE_WINDOW_BEFORE_PD.
  replace (n =? 0) with false by lia. rewrite u16_small by wrap. cbv zeta.
  erewrite bind_Some by reflexivity. rewrite u32_small by wrap.
  replace (n <? pd_index (pro_stored s) - 23) with false by lia.
  destruct (update_window_spec (n - 1) s Hok Hpd Hsync ltac:(lia)) as
    (s1 & fl1 & b & Hrun & Hs1 & Hok1 & Hst1 & Hsync1 & Hc).
  rewrite (bind_Some _ _ _ _ _ Hrun). unfold flags_carried in Hc.
  set (pd' := Z.max (pd_index (pro_stored s)) (n - 1)) in *.
  destruct (stored_flags_ok _ Hok1) as [Hb1 Hz1].
  destruct (mask_all_spec (received_flags (pro_stored s1)) (23 - (pd' - (n - 1))) Hb1)
    as (fl2 & Hadd & [Hb2 _] & Hl2 & Hm2); [lia|].
  erewrite bind_Some by reflexivity. unfold flags_of.
  erewrite bind_Some by (unfold lift; rewrite Hadd; reflexivity). unfold set_flags.
  destruct (modify_update_spec (with_flags fl2) s1) as (s' & -> & Hs' & Hst' & Hsv').
  { destruct Hok1 as (?&?&?). unfold stored_ok. cbn. rewrite Hl2. done. }
  rewrite Hs1 in Hs'. cbn in Hs'.
  exists s', fl2. split_and!; try done.
  - rewrite Hs'. rewrite Hs1 in Hok1, Hl2. destruct Hok1 as (?&?&?). unfold stored_ok. cbn in *.
    rewrite Hl2. done.
  - by transitivity s1.
  - intros x. rewrite Hs'. unfold received. cbn. rewrite Hs1 in Hc, Hm2. cbn in Hc, Hm2.
    destruct (Z.lt_ge_cases x (pd' - 23)) as [Hlt|Hge]; [tauto|].
    destruct (Z.le_gt_cases x pd') as [Hle|Hgt].
    + rewrite Hm2, Hc by lia. rewrite orb_true_iff, andb_true_iff, !Z.leb_le.
      split; [intros [?|[? [?|?]]]; [lia| |tauto]; right; left; lia|].
      intros [?|[?|[?|[? ?]]]]; [lia|right; split; [lia|left; lia]| |right; tauto].
      unfold pd' in *. lia.
    + split; [lia|]. unfold pd' in *. intros [?|[?|[?|[? ?]]]]; lia.
Qed.
End Laws.
