(* ===== verification/KeycodeInfer.v ===== *)
(** * Message ID inference and the QC counters of nexus_keycode_pro.c

    A keycode carries six bits of its message ID; the whole ID is the one ID
    of the 64-wide window with those bits.  The two QC counters share a byte,
    and neither passes its lifetime maximum. *)

From S2P Require Import Prelude NvBlock Product Nv Window KeycodeState KeycodeWindow.
Local Open Scope Z_scope.
Local Open Scope c_scope.

(** ** Inference *)

Lemma land_3f x : x .& 0x3F = x mod 64.
Proof. change 0x3F with (Z.ones 6). by rewrite land_ones_mod by lia. Qed.

Lemma infer_loop_spec fuel c limit cur :
  0 ≤ cur ≤ limit + 1 → limit + 1 < 4294967296 → (Z.to_nat (limit + 1 - cur) < fuel)%nat →
  ∃ r, infer_loop fuel c limit cur = Some r ∧ cur ≤ r ≤ limit + 1 ∧
    (r ≤ limit → r mod 64 = c) ∧ ∀ x, cur ≤ x < r → x mod 64 ≠ c.
Proof.
  revert cur. induction fuel as [|fuel IH]; intros cur Hcur Hlim Hfuel; [lia|].
  cbn [infer_loop]. rewrite land_3f.
  destruct (Z.ltb_spec limit cur).
  { exists cur. split_and!; (done || lia). }
  destruct (Z.eqb_spec (cur mod 64) c) as [Heq|Hne].
  { exists cur. split_and!; (done || lia). }
  rewrite u32_small by wrap.
  destruct (IH (cur + 1)) as (r & -> & Hr & Hmod & Hmin); [lia|lia|lia|].
  exists r. split_and!; [done|lia|lia|done|]. intros x Hx.
  destruct (Z.eq_dec x cur) as [->|]; [done|]. apply Hmin. lia.
Qed.

(** The one ID of the window [pd - 23 .. pd + 40] with the six bits [c]. *)
Definition window_id (pd c : Z) : Z := pd - 23 + (c - (pd - 23)) mod 64.

Lemma window_id_spec pd c :
  0 ≤ c < 64 →
  pd - 23 ≤ window_id pd c ≤ pd + 40 ∧ window_id pd c mod 64 = c ∧
  ∀ x, pd - 23 ≤ x ≤ pd + 40 → x mod 64 = c → x = window_id pd c.
Proof. intros Hc. unfold window_id. split_and!; [lia..|]. intros x Hx Hxc. lia. Qed.

Lemma infer_full_message_id_spec c pd :
  23 ≤ pd → pd + 41 < 4294967296 → 0 ≤ c < 64 →
  nexus_keycode_pro_infer_full_message_id c pd 23 40 = Some (window_id pd c).
Proof.
  intros Hpd Hlim Hc. unfold nexus_keycode_pro_infer_full_message_id.
  rewrite !u32_small by wrap.
  destruct (infer_loop_spec 128 c (pd + 40) (pd - 23)) as (r & -> & Hr & Hmod & Hmin); [lia..|].
  f_equal. destruct (window_id_spec pd c Hc) as (Hw & Hwc & Huniq).
  destruct (Z.lt_ge_cases (pd + 40) r) as [Hout|Hin].
  - exfalso. apply (Hmin (window_id pd c)); [lia|done].
  - apply Huniq; [lia|]. apply Hmod. lia.
Qed.

(** Six bits that do not exist give the ID after the window. *)
Lemma infer_full_message_id_none c pd :
  23 ≤ pd → pd + 41 < 4294967296 → 64 ≤ c →
  nexus_keycode_pro_infer_full_message_id c pd 23 40 = Some (pd + 41).
Proof.
  intros Hpd Hlim Hc. unfold nexus_keycode_pro_infer_full_message_id.
  rewrite !u32_small by wrap.
  destruct (infer_loop_spec 128 c (pd + 40) (pd - 23)) as (r & -> & Hr & Hmod & Hmin); [lia..|].
  f_equal. destruct (Z.le_gt_cases r (pd + 40)); [|lia]. specialize (Hmod ltac:(lia)). lia.
Qed.

(** ** QC counters *)

(** The two counters of the byte. *)
Definition long_count (st : keycode_pro_stored) : Z := qc_test_codes_received st / 16.
Definition short_count (st : keycode_pro_stored) : Z := qc_test_codes_received st mod 16.

Lemma qc_long_bits q : is_u8 q → u8 ((q .& 0xF0) ≫ 4) = q / 16.
Proof.
  intros Hq. apply Z.eqb_eq.
  apply (byte_forallb (λ q, u8 ((q .& 0xF0) ≫ 4) =? q / 16)); [by vm_compute|done].
Qed.

Lemma qc_short_bits q : q .& 0x0F = q mod 16.
Proof. change 0x0F with (Z.ones 4). by rewrite land_ones_mod by lia. Qed.

Lemma qc_long_store q :
  is_u8 q → q / 16 < 15 → (q .& 0x0F) .| u8 (u8 (q / 16 + 1) ≪ 4) = q + 16.
Proof.
  intros Hq Hlt. rewrite qc_short_bits.
  rewrite (u8_small (q / 16 + 1)), Z.shiftl_mul_pow2, u8_small by (pow_const; wrap).
  rewrite <- Z.shiftl_mul_pow2, lor_shiftl_add by (pow_const; lia). pow_const. lia.
Qed.

Lemma qc_short_store q :
  is_u8 q → q mod 16 < 15 → (q .& 0xF0) .| u8 (q mod 16 + 1) = q + 1.
Proof.
  intros Hq Hlt.
  assert (Ht : implb (q mod 16 <? 15) ((q .& 0xF0) .| u8 (q mod 16 + 1) =? q + 1) = true).
  { apply (byte_forallb (λ q, implb (q mod 16 <? 15) ((q .& 0xF0) .| u8 (q mod 16 + 1) =? q + 1)));
      [by vm_compute|done]. }
  replace (q mod 16 <? 15) with true in Ht by lia. by apply Z.eqb_eq.
Qed.

Section Laws.
Context {P : Type} `{ProductLaws P} `{!ReliableNv P} `{KeycodeConfigOk}.

Lemma get_long_spec (s : keycode_pro P) :
  stored_ok (pro_stored s) →
  nexus_keycode_pro_get_long_qc_code_count s = Some (long_count (pro_stored s), s).
Proof.
  intros (_&_&Hq&_). unfold nexus_keycode_pro_get_long_qc_code_count, gets, qc_of, long_count.
  by rewrite qc_long_bits.
Qed.

Lemma get_short_spec (s : keycode_pro P) :
  nexus_keycode_pro_get_short_qc_code_count s = Some (short_count (pro_stored s), s).
Proof.
  unfold nexus_keycode_pro_get_short_qc_code_count, gets, qc_of, short_count.
  by rewrite qc_short_bits.
Qed.

Lemma modify_stored_twice f g {A} (k : M (keycode_pro P) A) s :
  (modify_stored f;; modify_stored g;; k) s = (modify_stored (λ st, g (f st));; k) s.
Proof. done. Qed.

(** Storing a new counter byte changes nothing else of the stored data. *)
Lemma qc_store_spec q (s : keycode_pro P) f :
  stored_ok (pro_stored s) → is_u8 q → f (pro_stored s) = with_qc q (pro_stored s) →
  ∃ s', (modify_stored f;; _update_keycode_pro_nv_blocks) s = Some (tt, s') ∧
    pro_stored s' = with_qc q (pro_stored s) ∧ stored_ok (pro_stored s') ∧
    stored_step s s' ∧ saved s'.
Proof.
  intros Hok Hq Hf.
  assert (Hok' : stored_ok (with_qc q (pro_stored s))).
  { destruct Hok as (?&?&?&?&?&?). by split_and!. }
  destruct (modify_update_spec f s) as (s' & -> & Hs & ? & ?); [by rewrite Hf|].
  exists s'. rewrite Hs, Hf. by split_and!.
Qed.

Lemma increment_long_spec (s : keycode_pro P) :
  stored_ok (pro_stored s) → synced s →
  ∃ s', nexus_keycode_pro_increment_long_qc_test_message_count s = Some (tt, s') ∧
    stored_ok (pro_stored s') ∧ stored_step s s' ∧ synced s' ∧
    pro_stored s' =
      if long_count (pro_stored s) <? NEXUS_KEYCODE_PRO_FACTORY_QC_LONG_LIFETIME_MAX
      then with_qc (qc_test_codes_received (pro_stored s) + 16) (pro_stored s) else pro_stored s.
Proof.
  intros Hok Hsync. unfold nexus_keycode_pro_increment_long_qc_test_message_count.
  rewrite (bind_Some _ _ _ _ _ (get_long_spec s Hok)). cbv zeta.
  pose proof Hok as (_&_&Hq&_). pose proof qc_long_max_ok as Hmax. unfold long_count.
  rewrite (u8_small (_ / 16 + 1)) by wrap.
  destruct (Z.ltb_spec (qc_test_codes_received (pro_stored s) / 16) NEXUS_KEYCODE_PRO_FACTORY_QC_LONG_LIFETIME_MAX).
  - replace ((15 <? _) || _) with false by lia. rewrite modify_stored_twice.
    destruct (qc_store_spec (qc_test_codes_received (pro_stored s) + 16) s
      (λ st, with_qc (qc_test_codes_received (with_qc (qc_test_codes_received st .& 0x0F) st)
                .| u8 ((qc_test_codes_received (pro_stored s) / 16 + 1) ≪ 4))
                (with_qc (qc_test_codes_received st .& 0x0F) st)))
      as (s' & Hrun & Hs & ? & ? & ?); [done|wrap| |].
    + cbn. pose proof (qc_long_store (qc_test_codes_received (pro_stored s)) Hq ltac:(lia)) as Hst.
      rewrite (u8_small (_ / 16 + 1)) in Hst by wrap. by rewrite Hst.
    + exists s'. split_and!; try done. by left.
  - replace ((15 <? _) || _) with true by lia. exists s. by split_and!.
Qed.

Lemma increment_short_spec (s : keycode_pro P) :
  stored_ok (pro_stored s) → synced s →
  ∃ s', nexus_keycode_pro_increment_short_qc_test_message_count s = Some (tt, s') ∧
    stored_ok (pro_stored s') ∧ stored_step s s' ∧ synced s' ∧
    pro_stored s' =
      if short_count (pro_stored s) <? NEXUS_KEYCODE_PRO_FACTORY_QC_SHORT_LIFETIME_MAX
      then with_qc (qc_test_codes_received (pro_stored s) + 1) (pro_stored s) else pro_stored s.
Proof.
  intros Hok Hsync. unfold nexus_keycode_pro_increment_short_qc_test_message_count.
  rewrite (bind_Some _ _ _ _ _ (get_short_spec s)). cbv zeta.
  pose proof Hok as (_&_&Hq&_). pose proof qc_short_max_ok as Hmax. unfold short_count.
  rewrite (u8_small (_ mod 16 + 1)) by wrap.
  destruct (Z.ltb_spec (qc_test_codes_received (pro_stored s) mod 16) NEXUS_KEYCODE_PRO_FACTORY_QC_SHORT_LIFETIME_MAX).
  - replace ((15 <? _) || _) with false by lia. rewrite modify_stored_twice.
    destruct (qc_store_spec (qc_test_codes_received (pro_stored s) + 1) s
      (λ st, with_qc (qc_test_codes_received (with_qc (qc_test_codes_received st .& 0xF0) st)
                .| (qc_test_codes_received (pro_stored s) mod 16 + 1))
                (with_qc (qc_test_codes_received st .& 0xF0) st)))
      as (s' & Hrun & Hs & ? & ? & ?); [done|wrap| |].
    + cbn. pose proof (qc_short_store (qc_test_codes_received (pro_stored s)) Hq ltac:(lia)) as Hst.
      rewrite (u8_small (_ mod 16 + 1)) in Hst by wrap. by rewrite Hst.
    + exists s'. split_and!; try done. by left.
  - replace ((15 <? _) || _) with true by lia. exists s. by split_and!.
Qed.

(** A QC code is accepted only while its counter is below the maximum, never
    on an unlocked unit, and a code other than the one-hour one only on a
    disabled unit. *)
Lemma can_accept_spec secs (s : keycode_pro P) :
  stored_ok (pro_stored s) →
  ∃ b, nexus_keycode_pro_can_unit_accept_qc_code secs s = Some (b, s) ∧
    (b = true ↔
      let state := nxp_common_payg_state_get_current (pro_prod s) in
      state ≠ NXP_COMMON_PAYG_STATE_UNLOCKED ∧
      (secs = 3600 ∨ state = NXP_COMMON_PAYG_STATE_DISABLED) ∧
      (if secs <=? 600
       then short_count (pro_stored s) < NEXUS_KEYCODE_PRO_FACTORY_QC_SHORT_LIFETIME_MAX
       else long_count (pro_stored s) < NEXUS_KEYCODE_PRO_FACTORY_QC_LONG_LIFETIME_MAX)).
Proof.
  intros Hok. unfold nexus_keycode_pro_can_unit_accept_qc_code.
  rewrite (bind_Some _ _ _ _ _ (get_short_spec s)), (bind_Some _ _ _ _ _ (get_long_spec s Hok)).
  erewrite bind_Some by reflexivity. cbv zeta. eexists. split; [reflexivity|].
  unfold NEXUS_KEYCODE_PRO_QC_LONG_TEST_MESSAGE_SECONDS, NEXUS_KEYCODE_PRO_QC_SHORT_TEST_MESSAGE_SECONDS.
  destruct Hok as (_&_&Hq&_).
  assert (0 ≤ short_count (pro_stored s) ∧ 0 ≤ long_count (pro_stored s))
    by (unfold short_count, long_count; wrap).
  set (state := nxp_common_payg_state_get_current (pro_prod s)).
  case_bool_decide as Hu; [by split; [|tauto]|].
  destruct (negb (secs =? 3600) && negb (bool_decide (state = NXP_COMMON_PAYG_STATE_DISABLED))) eqn:Hg.
  { split; [done|]. intros (_ & Hd & _). exfalso.
    apply andb_true_iff in Hg as [Hg1 Hg2]. rewrite negb_true_iff in *.
    rewrite Z.eqb_neq in Hg1. apply bool_decide_eq_false in Hg2. tauto. }
  assert (Hd : secs = 3600 ∨ state = NXP_COMMON_PAYG_STATE_DISABLED).
  { apply andb_false_iff in Hg. rewrite !negb_false_iff, Z.eqb_eq, bool_decide_eq_true in Hg. done. }
  destruct (secs <=? 600); rewrite andb_true_iff, !Z.ltb_lt; intuition lia.
Qed.
End Laws.

(** ** Property *)

(** C36: the loop that infers a full message ID from its six low bits ends, and
    gives the one ID of the receive window with these bits. *)
Theorem infer_is_window_id id pd :
  23 ≤ pd → pd + 41 < 4294967296 → pd - 23 ≤ id ≤ pd + 40 →
  nexus_keycode_pro_infer_full_message_id (id mod 64) pd 23 40 = Some id.
Proof.
  intros Hpd H32 Hid. rewrite infer_full_message_id_spec by (lia || (apply Z.mod_pos_bound; lia)).
  destruct (window_id_spec pd (id mod 64)) as (_ & _ & Huniq); [apply Z.mod_pos_bound; lia|].
  f_equal. symmetry. by apply Huniq.
Qed.
