(* ===== verification/KeycodeEffects.v ===== *)
(** * Effects that the keycode protocols share

    What a step of a keycode protocol does to the state between keycodes, in
    terms of the received IDs and of the PAYG credit, whichever protocol the
    message came by: masking and flagging IDs, wiping them, calls to the
    product. *)

From S2P Require Import Prelude NvBlock Product Nv Window KeycodeState KeycodeWindow KeycodeInfer.
Local Open Scope Z_scope.
Local Open Scope c_scope.

Definition id_in_window (st : keycode_pro_stored) (id : Z) : Prop :=
  pd_index st - 23 ≤ id ≤ pd_index st + 40.

Section Effects.
Context {P : Type} `{ProductLaws P} `{!ReliableNv P} `{KeycodeConfigOk}.

(** The state between keycodes: well formed, and its NV block, if valid, is
    up to date. *)
Definition pro_ok (s : keycode_pro P) : Prop := stored_ok (pro_stored s) ∧ synced s.

(** A product call that leaves NV and identity alone keeps the state well
    formed. *)
Lemma on_prod_frame (f : P → P) (s : keycode_pro P) :
  nv_equiv (f (pro_prod s)) (pro_prod s) →
  ∃ s', on_prod (modify f) s = Some (tt, s') ∧ pro_stored s' = pro_stored s ∧
    pro_prod s' = f (pro_prod s) ∧ pro_frame s' = pro_frame s ∧
    pro_pending s' = pro_pending s ∧ pro_parse_and_apply s' = pro_parse_and_apply s ∧
    pro_alphabet s' = pro_alphabet s ∧
    (pro_ok s → pro_ok s') ∧
    nxp_keycode_get_secret_key (pro_prod s') = nxp_keycode_get_secret_key (pro_prod s).
Proof.
  intros He. eexists. split; [reflexivity|]. cbn. split_and!; try done.
  - intros [Hok Hs]. split; [done|]. unfold synced, saved in *. cbn. by rewrite He.
  - apply He.
Qed.

(** ** IDs and credit *)

Lemma window_id_u16 id (s : keycode_pro P) :
  pd_ok (pro_stored s) → id_in_window (pro_stored s) id →
  u16 id = id ∧
  u16 (id + 1) = id + 1 ∧
  0 ≤ id < 65535.
Proof. intros [? ?] [? ?]. rewrite !u16_small by wrap. lia. Qed.

Lemma id_flag_received st id :
  id_in_window st id → id_flag st id = true ↔ received st id.
Proof.
  intros [Hlo Hhi]. unfold id_flag, received. rewrite !andb_true_iff, !Z.leb_le. intuition lia.
Qed.

(** The effect of one activation message: [pd] is the new
    Pd, [ids] says what became of the received IDs, [credit] what became of the PAYG credit. *)
Record effect (s s' : keycode_pro P) (pd : Z) (ids : Z → Prop) (credit : P → P → Prop) : Prop := mk_effect {
  effect_ok : pro_ok s';
  effect_pd : pd_index (pro_stored s') = pd;
  effect_ids x : received (pro_stored s') x ↔ ids x;
  effect_credit : credit (pro_prod s) (pro_prod s');
  effect_key : nxp_keycode_get_secret_key (pro_prod s') = nxp_keycode_get_secret_key (pro_prod s)
}.

(** The IDs that are received once [id] is, with the window above it. *)
Definition ids_add (st : keycode_pro_stored) (id x : Z) : Prop :=
  x < Z.max (pd_index st) id - 23 ∨ x = id ∨ received st x.
Definition ids_below (st : keycode_pro_stored) (id x : Z) : Prop :=
  x < Z.max (pd_index st) id - 23 ∨ x < id + 1 ∨ received st x.

(** Masking and flagging as effects that leave the credit alone. *)
Lemma mask_effect id (s : keycode_pro P) :
  pro_ok s → pd_ok (pro_stored s) → id_in_window (pro_stored s) id →
  ∃ s', nexus_keycode_pro_mask_below_message_id (u16 (id + 1)) s = Some (tt, s') ∧
    effect s s' (Z.max (pd_index (pro_stored s)) id)
      (ids_below (pro_stored s) id) (flip payg_equiv).
Proof.
  intros [Hok Hsync] Hpd Hin. destruct (window_id_u16 id s Hpd Hin) as (_ & -> & Hr).
  destruct (mask_below_message_id_spec (id + 1) s Hok Hpd Hsync)
    as (s' & fl & Hrun & Hs' & Hok' & Hst & Hsv & Hrec); [destruct Hin; lia|].
  exists s'. split; [done|]. split; [by split; [|left]| | |apply Hst|apply Hst].
  { rewrite Hs'. cbn. f_equal. lia. }
  intros x. rewrite Hrec. unfold ids_below.
  by replace (id + 1 - 1) with id by lia.
Qed.

Lemma flag_effect id (s : keycode_pro P) :
  pro_ok s → pd_ok (pro_stored s) → id_in_window (pro_stored s) id →
  ∃ s', nexus_keycode_pro_set_full_message_id_flag (u16 id) s = Some (tt, s') ∧
    effect s s' (Z.max (pd_index (pro_stored s)) id)
      (ids_add (pro_stored s) id) (flip payg_equiv).
Proof.
  intros [Hok Hsync] Hpd Hin. destruct (window_id_u16 id s Hpd Hin) as (-> & _ & Hr).
  destruct (set_full_message_id_flag_spec id s Hok Hpd Hsync)
    as (s' & fl & Hrun & Hs' & Hok' & Hst & Hsv & Hrec); [destruct Hin; lia|].
  exists s'. split; [done|]. split; [by split|by rewrite Hs'|done|apply Hst|apply Hst].
Qed.

(** A product call after an effect. *)
Lemma effect_then_prod (s s1 : keycode_pro P) pd ids (f : P → P) (C : P → P → Prop) :
  effect s s1 pd ids (flip payg_equiv) →
  nv_equiv (f (pro_prod s1)) (pro_prod s1) →
  (payg_equiv (pro_prod s1) (pro_prod s) → C (pro_prod s) (f (pro_prod s1))) →
  ∃ s', on_prod (modify f) s1 = Some (tt, s') ∧ effect s s' pd ids C.
Proof.
  intros [Hok Hpd Hids Hpayg Hkey] Hnv HC.
  destruct (on_prod_frame f s1 Hnv) as (s' & Hrun & Hst & Hp & _ & _ & _ & _ & Hok' & Hk).
  exists s'. split; [done|]. split; [auto|by rewrite Hst| | |congruence].
  - intros x. by rewrite Hst.
  - rewrite Hp. by apply HC.
Qed.

Lemma ids_below_mono st id x : received st x → ids_below st id x.
Proof. unfold ids_below. tauto. Qed.
Lemma ids_below_self st id : ids_below st id id.
Proof. unfold ids_below. right. left. lia. Qed.

(** Wiping the IDs and the QC counters. *)
Lemma wipe_ids_spec (s : keycode_pro P) :
  stored_ok (pro_stored s) →
  ∃ s', wipe_ids_and_counts s = Some (tt, s') ∧ pro_ok s' ∧ stored_step s s' ∧
    pd_index (pro_stored s') = 23 ∧ qc_test_codes_received (pro_stored s') = 0 ∧
    ∀ x, received (pro_stored s') x ↔ x < 0.
Proof.
  intros Hok. unfold wipe_ids_and_counts, nexus_keycode_pro_reset_pd_index,
    nexus_keycode_pro_reset_test_code_count, modify_stored.
  erewrite !bind_Some by reflexivity.
  set (s1 := mk_keycode_pro (pro_frame s) (pro_pending s) (pro_parse_and_apply s) (pro_alphabet s)
    (with_qc 0 (with_pd 23 (pro_stored s))) (pro_prod s)).
  assert (Hok1 : stored_ok (pro_stored s1)).
  { destruct Hok as (?&?&?&?&?&?). split_and!; cbn; try done; wrap. }
  destruct (wipe_spec s1 Hok1) as (s' & fl & Hrun & Hs' & Hok' & [] & Hsv & Hm).
  exists s'. split; [exact Hrun|]. split; [split; [done|by left]|]. split; [by split|].
  rewrite Hs'. cbn. split_and!; [done..|]. intros x. unfold received. cbn.
  split; [|lia]. intros [?|[? Hx]]; [lia|].
  destruct (Z.lt_ge_cases x 0); [done|]. rewrite Hm in Hx by lia. done.
Qed.

Lemma reset_custom_flag_spec flag (s : keycode_pro P) :
  stored_ok (pro_stored s) →
  ∃ s', nexus_keycode_pro_reset_custom_flag flag s = Some (tt, s') ∧ pro_ok s' ∧
    pro_stored s' = with_mask (u8 (custom_flags_bitmask (pro_stored s) .& Z.lnot (u8 flag))) (pro_stored s) ∧
    payg_equiv (pro_prod s') (pro_prod s) ∧
    nxp_keycode_get_secret_key (pro_prod s') = nxp_keycode_get_secret_key (pro_prod s).
Proof.
  intros Hok. unfold nexus_keycode_pro_reset_custom_flag. rewrite <- bind_assoc.
  destruct (modify_update_spec (λ st, with_mask (u8 (custom_flags_bitmask st .& Z.lnot (u8 flag))) st) s)
    as (s1 & Hrun & Hs1 & Hst & Hsv).
  { destruct Hok as (?&?&?&?&?&?). split_and!; cbn; auto with cint. }
  rewrite (bind_Some _ _ _ _ _ Hrun).
  destruct (on_prod_frame (nxp_keycode_notify_custom_flag_changed flag false) s1) as
    (s' & Hrun' & Hs' & Hp & _ & _ & _ & _ & Hok' & Hk); [auto with cint|].
  exists s'. split; [exact Hrun'|]. split.
  { apply Hok'. split; [|by left]. rewrite Hs1. destruct Hok as (?&?&?&?&?&?).
    split_and!; cbn; auto with cint. }
  split; [congruence|]. split.
  - rewrite Hp. transitivity (pro_prod s1); [auto with cint|apply Hst].
  - rewrite Hk. apply Hst.
Qed.

(** ** Any message ID

    Some messages carry an ID that the window may have left behind. *)

(** What handling any ID keeps. *)
Record kept (s s' : keycode_pro P) : Prop := mk_kept {
  kept_ok : pro_ok s';
  kept_pd : pd_index (pro_stored s) ≤ pd_index (pro_stored s') ≤ Z.max (pd_index (pro_stored s)) 65535;
  kept_payg : payg_equiv (pro_prod s') (pro_prod s);
  kept_key : nxp_keycode_get_secret_key (pro_prod s') = nxp_keycode_get_secret_key (pro_prod s)
}.

Lemma update_window_any id (s : keycode_pro P) :
  pro_ok s → pd_ok (pro_stored s) → is_u16 id →
  ∃ b i s', nexus_keycode_pro_update_window_and_message_mask_id id s = Some ((b, i), s') ∧
    0 ≤ i ≤ 23 ∧ kept s s'.
Proof.
  intros [Hok Hsync] Hpd Hid. pose proof Hpd as [Hp1 Hp2].
  destruct (Z.le_gt_cases (pd_index (pro_stored s) - 23) id).
  - destruct (update_window_spec id s Hok Hpd Hsync) as (s' & fl & b & Hrun & Hs' & Hok' & Hst & Hsync' & _);
      [wrap|].
    eexists b, _, s'. split; [exact Hrun|]. split; [lia|].
    split; [done|rewrite Hs'; cbn; wrap|apply Hst|apply Hst].
  - exists false, 23, s. split; [|split; [lia|split; [by split|lia|done|done]]].
    unfold nexus_keycode_pro_update_window_and_message_mask_id. erewrite bind_Some by reflexivity. cbv zeta.
    unfold NEXUS_KEYCODE_PRO_RECEIVE_WINDOW_BEFORE_PD. rewrite (u32_small (_ - 23)) by wrap.
    replace (pd_index (pro_stored s) <? id) with false by lia.
    by replace (pd_index (pro_stored s) - 23 <=? id) with false by lia.
Qed.

(** Writing a changed set of flags. *)
Lemma store_flags_kept fl (s s1 : keycode_pro P) :
  kept s s1 → bytes_ok fl → length fl = 5%nat →
  ∃ s', (set_flags fl;; _update_keycode_pro_nv_blocks) s1 = Some (tt, s') ∧ kept s s'.
Proof.
  intros [[Hok Hsync] Hpd Hpayg Hkey] Hb Hl. unfold set_flags.
  assert (Hok1 : stored_ok (with_flags fl (pro_stored s1))).
  { destruct Hok as (_&_&?). unfold stored_ok. cbn. tauto. }
  destruct (modify_update_spec (with_flags fl) s1 Hok1) as (s' & -> & Hs' & Hst & Hsv).
  exists s'. split; [done|]. split.
  - split; [by rewrite Hs'|by left].
  - by rewrite Hs'.
  - etransitivity; [apply Hst|done].
  - etransitivity; [apply Hst|done].
Qed.

Lemma set_flag_any id (s : keycode_pro P) :
  pro_ok s → pd_ok (pro_stored s) → is_u16 id →
  ∃ s', nexus_keycode_pro_set_full_message_id_flag id s = Some (tt, s') ∧ kept s s'.
Proof.
  intros Hok Hpd Hid. unfold nexus_keycode_pro_set_full_message_id_flag.
  rewrite (bind_Some _ _ _ _ _ (get_flag_spec id s (proj1 Hok) Hpd (proj2 Hok) Hid)).
  destruct (id_flag _ _).
  { exists s. split; [done|]. by split; [|lia|..]. }
  destruct (update_window_any id s Hok Hpd Hid) as (b & i & s1 & Hrun & Hi & Hk).
  rewrite (bind_Some _ _ _ _ _ Hrun).
  destruct (stored_flags_ok _ (proj1 (kept_ok _ _ Hk))) as [Hb1 Hz1].
  destruct (bitset_add_spec (received_flags (pro_stored s1)) i Hb1) as (fl & Hadd & [Hb2 _] & Hl2 & _); [lia|].
  erewrite bind_Some by reflexivity. unfold flags_of.
  erewrite bind_Some by (unfold lift; rewrite Hadd; reflexivity).
  apply store_flags_kept; [done|done|]. rewrite Hl2. apply (kept_ok _ _ Hk).
Qed.

Lemma mask_below_any id (s : keycode_pro P) :
  pro_ok s → pd_ok (pro_stored s) → is_u16 id →
  ∃ s', nexus_keycode_pro_mask_below_message_id id s = Some (tt, s') ∧ kept s s'.
Proof.
  intros Hok Hpd Hid. unfold nexus_keycode_pro_mask_below_message_id.
  assert (Hrefl : kept s s) by by split; [|lia|..].
  destruct (id =? 0); [by exists s|]. cbv zeta. erewrite bind_Some by reflexivity.
  destruct (_ <? _); [by exists s|].
  destruct (update_window_any (u16 (id - 1)) s Hok Hpd (u16_range _)) as (b & i & s1 & Hrun & Hi & Hk).
  rewrite (bind_Some _ _ _ _ _ Hrun).
  destruct (stored_flags_ok _ (proj1 (kept_ok _ _ Hk))) as [Hb1 Hz1].
  destruct (mask_all_spec (received_flags (pro_stored s1)) i Hb1) as (fl & Hadd & [Hb2 _] & Hl2 & _); [lia|].
  erewrite bind_Some by reflexivity. unfold flags_of.
  erewrite bind_Some by (unfold lift; rewrite Hadd; reflexivity).
  apply store_flags_kept; [done|done|]. rewrite Hl2. apply (kept_ok _ _ Hk).
Qed.

(** ** Statements that return *)

Definition returns (c : M (keycode_pro P) nexus_keycode_pro_response) (s : keycode_pro P) : Prop :=
  ∃ r s', c s = Some (r, s') ∧ pro_ok s' ∧
    nxp_keycode_get_secret_key (pro_prod s') = nxp_keycode_get_secret_key (pro_prod s).

Lemma returns_ret r (s : keycode_pro P) : pro_ok s → returns (mret r) s.
Proof. intros Hok. by exists r, s. Qed.

Lemma returns_bind (c : M (keycode_pro P) unit) k (s s1 : keycode_pro P) :
  c s = Some (tt, s1) →
  nxp_keycode_get_secret_key (pro_prod s1) = nxp_keycode_get_secret_key (pro_prod s) →
  returns k s1 → returns (c;; k) s.
Proof.
  intros Hc Hk (r & s' & Hrun & Hok & Hk'). exists r, s'. rewrite (bind_Some _ _ _ _ _ Hc).
  split; [done|]. split; [done|congruence].
Qed.

Lemma returns_prod (f : P → P) k (s : keycode_pro P) :
  nv_equiv (f (pro_prod s)) (pro_prod s) → pro_ok s →
  (∀ s1, pro_ok s1 → returns k s1) → returns (on_prod (modify f);; k) s.
Proof.
  intros Hf Hok Hk. destruct (on_prod_frame f s Hf) as (s1 & Hrun & _ & _ & _ & _ & _ & _ & Hok1 & Hk1).
  apply (returns_bind _ _ _ _ Hrun Hk1). auto.
Qed.
End Effects.
