(* ===== verification/KeycodeFull.v ===== *)
(** * The full keycode protocol (nexus_keycode_pro.c, [nexus_keycode_pro_full_*])

    Fourteen-digit activation codes, shorter factory codes, and passthrough
    codes: parsing a frame of digits, authenticating the message against the
    secret key, and applying it to credit, message IDs and QC counters.

    [garbage] is the contents of the 30-character automatic array that a
    parse reads from before it is filled. *)


From S2P Require Import Prelude Siphash Digits Window Check NvBlock Product Nv KeycodeState KeycodeWindow KeycodeInfer.
Local Open Scope Z_scope.
Local Open Scope c_scope.

Definition NEXUS_KEYCODE_MESSAGE_LENGTH_MAX_DIGITS_FULL : Z := 30.
Definition NEXUS_KEYCODE_MESSAGE_LENGTH_ACTIVATION_MESSAGE_FULL : Z := 14.
Definition NEXUS_KEYCODE_PRO_FULL_UNLOCK_INCREMENT : Z := 99999.
Definition NEXUS_KEYCODE_PRO_FULL_CHECK_CHARACTER_COUNT : Z := 6.
Definition NEXUS_KEYCODE_PRO_FULL_DEVICE_ID_MIN_CHARACTER_COUNT : Z := 8.
Definition NEXUS_KEYCODE_PRO_FULL_DEVICE_ID_MAX_CHARACTER_COUNT : Z := 10.
Definition NEXUS_KEYCODE_PRO_FULL_ACTIVATION_BODY_CHARACTER_COUNT : Z := 8.

(** [enum nexus_keycode_pro_full_message_type_codes]. *)
Definition NEXUS_KEYCODE_PRO_FULL_ACTIVATION_ADD_CREDIT : Z := 0.
Definition NEXUS_KEYCODE_PRO_FULL_ACTIVATION_SET_CREDIT : Z := 1.
Definition NEXUS_KEYCODE_PRO_FULL_ACTIVATION_WIPE_STATE : Z := 2.
Definition NEXUS_KEYCODE_PRO_FULL_ACTIVATION_DEMO_CODE : Z := 3.
Definition NEXUS_KEYCODE_PRO_FULL_FACTORY_ALLOW_TEST : Z := 4.
Definition NEXUS_KEYCODE_PRO_FULL_FACTORY_QC_TEST : Z := 5.
Definition NEXUS_KEYCODE_PRO_FULL_FACTORY_DEVICE_ID_DISPLAY : Z := 6.
Definition NEXUS_KEYCODE_PRO_FULL_FACTORY_NOMAC_DEVICE_ID_CONFIRMATION : Z := 7.
Definition NEXUS_KEYCODE_PRO_FULL_PASSTHROUGH_COMMAND : Z := 8.

(** [enum nexus_keycode_pro_full_wipe_state_target_codes]. *)
Definition NEXUS_KEYCODE_PRO_FULL_WIPE_STATE_TARGET_CREDIT : Z := 0.
Definition NEXUS_KEYCODE_PRO_FULL_WIPE_STATE_TARGET_CREDIT_AND_MASK : Z := 1.
Definition NEXUS_KEYCODE_PRO_FULL_WIPE_STATE_TARGET_MASK_ONLY : Z := 2.
Definition NEXUS_KEYCODE_PRO_FULL_WIPE_CUSTOM_FLAG_RESTRICTED : Z := 3.

(** [struct nexus_keycode_pro_full_message]; every member of the body union is
    one [uint32_t], so the body is that integer. *)
Record nexus_keycode_pro_full_message := mk_full_message {
  fm_full_message_id : Z;
  fm_type_code : Z;
  fm_body : Z;
  fm_check : Z
}.

Definition full_message_zero : nexus_keycode_pro_full_message := mk_full_message 0 0 0 0.

(** The packed bytes that the MAC covers: all but [check]. *)
Definition full_message_bytes (m : nexus_keycode_pro_full_message) : list Z :=
  le_bytes 4 (fm_full_message_id m) ++ [fm_type_code m] ++ le_bytes 4 (fm_body m).

(** The six decimal digits taken from a check value. *)
Definition lower_check_digits (check_val : list Z) : option Z :=
  v ← nexus_check_value_as_uint64 check_val;
  let lower_check := v .& 0xffffffff in
  Some (lower_check mod 1000000).

Definition nexus_keycode_pro_full_compute_check (m : nexus_keycode_pro_full_message) (key : list Z) : option Z :=
  check_val ← nexus_check_compute key (full_message_bytes m) (13 - 4);
  lower_check_digits check_val.

(** [while (x < 0) x += 10;], at most 26 rounds for the byte differences it is
    given. *)
Fixpoint mathmod10_loop (fuel : nat) (x : Z) : option Z :=
  match fuel with
  | O => None
  | S fuel => if x <? 0 then mathmod10_loop fuel (x + 10) else Some x
  end.
Definition _mathmod10 (x : Z) : option Z :=
  x ← mathmod10_loop 32 x; Some (u8 (u32 x mod 10)).

(** A local [char digit_chars[n]] after [memcpy(digit_chars, keys, length)]. *)
Definition digit_chars (n : nat) (garbage : list Z) (frame : nexus_keycode_frame) : option (list Z) :=
  keys ← slice (fr_keys frame) 0 (Z.to_nat (fr_length frame));
  memcpy_at (take n garbage) 0 keys.

(** The body of the loop that skips the non-check digits. *)
Definition skip_digit_body (_i : Z) (digits : nexus_digits) : option nexus_digits :=
  '(_, digits) ← nexus_digits_pull_uint8 1 digits; Some digits.

Definition nexus_keycode_pro_full_check_field_from_frame
    (garbage : list Z) (frame : nexus_keycode_frame) : option Z :=
  chars ← digit_chars 30 garbage frame;
  let digits := nexus_digits_init chars (fr_length frame) in
  let non_check_char_count := fr_length frame - NEXUS_KEYCODE_PRO_FULL_CHECK_CHARACTER_COUNT in
  if non_check_char_count <? 0 then Some 0
  else
    digits ← for_loop (Z.to_nat non_check_char_count) 0 skip_digit_body digits;
    '(check_as_int, _) ← nexus_digits_pull_uint32 NEXUS_KEYCODE_PRO_FULL_CHECK_CHARACTER_COUNT digits;
    Some check_as_int.

Definition deinterleave_body (prng_bytes : list Z) (i : Z) (keys : list Z) : option (list Z) :=
  body_char ← aget keys i;
  perturbation ← aget prng_bytes i;
  let body_digit := u8 (body_char - 48) in
  out_digit ← _mathmod10 (body_digit - perturbation);
  aset keys i (out_digit + 48).

Definition nexus_keycode_pro_full_deinterleave
    (frame : nexus_keycode_frame) (check_value : Z) : option nexus_keycode_frame :=
  prng_bytes ← nexus_check_compute_pseudorandom_bytes NEXUS_INTEGRITY_CHECK_FIXED_00_KEY
                 (le_bytes 4 check_value) 4 NEXUS_KEYCODE_PRO_FULL_ACTIVATION_BODY_CHARACTER_COUNT;
  keys ← for_loop (Z.to_nat NEXUS_KEYCODE_PRO_FULL_ACTIVATION_BODY_CHARACTER_COUNT) 0
           (deinterleave_body prng_bytes) (fr_keys frame);
  Some (mk_frame keys (fr_length frame)).

Section Full.
Context {P : Type} `{Product P} `{KeycodeConfig}.

Definition nexus_keycode_pro_full_init (alphabet : list Z) : M (keycode_pro P) unit :=
  modify (λ s, {| s with pro_alphabet := alphabet |}).

(** The result is the success flag and the parsed message. *)
Definition nexus_keycode_pro_full_parse_activation
    (garbage : list Z) (frame : nexus_keycode_frame) (parsed : nexus_keycode_pro_full_message)
    : M (keycode_pro P) (bool * nexus_keycode_pro_full_message) :=
  check ← lift (nexus_keycode_pro_full_check_field_from_frame garbage frame);
  let parsed := {| parsed with fm_check := check |} in
  frame ← lift (nexus_keycode_pro_full_deinterleave frame check);
  chars ← lift (digit_chars 14 garbage frame);
  let digits := nexus_digits_init chars (fr_length frame) in
  '(type_code, digits) ← lift (nexus_digits_pull_uint8 1 digits);
  let parsed := {| parsed with fm_type_code := type_code |} in
  '(received_message_id, digits) ← lift (nexus_digits_pull_uint8 2 digits);
  if NEXUS_KEYCODE_PRO_RECEIVE_WINDOW_AFTER_PD + NEXUS_KEYCODE_PRO_RECEIVE_WINDOW_BEFORE_PD
       <? received_message_id
  then mret (false, parsed)
  else
    pd ← nexus_keycode_pro_get_current_pd_index;
    full_message_id ← lift (nexus_keycode_pro_infer_full_message_id received_message_id pd
                              NEXUS_KEYCODE_PRO_RECEIVE_WINDOW_BEFORE_PD
                              NEXUS_KEYCODE_PRO_RECEIVE_WINDOW_AFTER_PD);
    let parsed := {| parsed with fm_full_message_id := full_message_id |} in
    let finish (body : Z) (digits : nexus_digits) :=
      let parsed := {| parsed with fm_body := body |} in
      '(_, digits) ← lift (nexus_digits_pull_uint32 NEXUS_KEYCODE_PRO_FULL_CHECK_CHARACTER_COUNT digits);
      mret (nexus_digits_length_in_digits digits =? nexus_digits_position digits, parsed) in
    if (type_code =? NEXUS_KEYCODE_PRO_FULL_ACTIVATION_ADD_CREDIT) ||
       (type_code =? NEXUS_KEYCODE_PRO_FULL_ACTIVATION_DEMO_CODE) ||
       (type_code =? NEXUS_KEYCODE_PRO_FULL_ACTIVATION_SET_CREDIT) then
      '(hours, digits) ← lift (nexus_digits_pull_uint32 5 digits);
      finish hours digits
    else if type_code =? NEXUS_KEYCODE_PRO_FULL_ACTIVATION_WIPE_STATE then
      '(_, digits) ← lift (nexus_digits_pull_uint32 4 digits);
      '(target, digits) ← lift (nexus_digits_pull_uint8 1 digits);
      finish target digits
    else mret (false, parsed).

Definition nexus_keycode_pro_full_parse_factory_and_passthrough
    (garbage : list Z) (frame : nexus_keycode_frame) (parsed : nexus_keycode_pro_full_message)
    : M (keycode_pro P) (bool * nexus_keycode_pro_full_message) :=
  if NEXUS_KEYCODE_MESSAGE_LENGTH_MAX_DIGITS_FULL <? fr_length frame then mret (false, parsed)
  else
    chars ← lift (digit_chars 30 garbage frame);
    let digits := nexus_digits_init chars (fr_length frame) in
    '((type_code_u32, underrun), digits) ← lift (nexus_digits_try_pull_uint32 1 false digits);
    let type_code := u8 type_code_u32 in
    let parsed := {| parsed with fm_type_code := type_code |} in
    let finish (digits : nexus_digits) (underrun : bool) (parsed : nexus_keycode_pro_full_message) :=
      mret (negb underrun && (nexus_digits_length_in_digits digits =? nexus_digits_position digits),
            parsed) : M (keycode_pro P) (bool * nexus_keycode_pro_full_message) in
    if type_code <? NEXUS_KEYCODE_PRO_FULL_FACTORY_NOMAC_DEVICE_ID_CONFIRMATION then
      '(body, digits) ←
        (if type_code =? NEXUS_KEYCODE_PRO_FULL_FACTORY_QC_TEST then
           '(_, digits) ← lift (nexus_digits_pull_uint32 3 digits);
           lift (nexus_digits_pull_uint8 2 digits)
         else mret (fm_body parsed, digits));
      let parsed := {| parsed with fm_body := body |} in
      '((check, underrun), digits) ←
        lift (nexus_digits_try_pull_uint32 NEXUS_KEYCODE_PRO_FULL_CHECK_CHARACTER_COUNT underrun digits);
      finish digits underrun {| parsed with fm_check := check |}
    else if type_code =? NEXUS_KEYCODE_PRO_FULL_FACTORY_NOMAC_DEVICE_ID_CONFIRMATION then
      let serial_id_length := u8 (fr_length frame - 1) in
      if (serial_id_length <? NEXUS_KEYCODE_PRO_FULL_DEVICE_ID_MIN_CHARACTER_COUNT) ||
         (NEXUS_KEYCODE_PRO_FULL_DEVICE_ID_MAX_CHARACTER_COUNT <? serial_id_length)
      then mret (false, parsed)
      else
        '((device_id, underrun), digits) ←
          lift (nexus_digits_try_pull_uint32 serial_id_length underrun digits);
        finish digits underrun {| parsed with fm_body := device_id |}
    else if type_code =? NEXUS_KEYCODE_PRO_FULL_PASSTHROUGH_COMMAND then
      if (2 <? dg_length digits) &&
         negb (dg_length digits =? NEXUS_KEYCODE_MESSAGE_LENGTH_ACTIVATION_MESSAGE_FULL)
      then
        keys ← lift (slice (dg_chars digits) (Z.to_nat (dg_position digits))
                       (Z.to_nat (u8 (dg_length digits - dg_position digits))));
        result ← on_prod (passthrough_keycode keys);
        mret (bool_decide (result = NXP_KEYCODE_PASSTHROUGH_ERROR_NONE), parsed)
      else mret (false, parsed)
    else finish digits underrun parsed.

Definition nexus_keycode_pro_full_parse (garbage : list Z) (frame : nexus_keycode_frame)
    : M (keycode_pro P) (bool * nexus_keycode_pro_full_message) :=
  if fr_length frame =? NEXUS_KEYCODE_MESSAGE_LENGTH_ACTIVATION_MESSAGE_FULL
  then nexus_keycode_pro_full_parse_activation garbage frame full_message_zero
  else nexus_keycode_pro_full_parse_factory_and_passthrough garbage frame full_message_zero.

Definition nexus_keycode_pro_full_apply_activation (m : nexus_keycode_pro_full_message)
    : M (keycode_pro P) nexus_keycode_pro_response :=
  applied ← nexus_keycode_pro_get_full_message_id_flag (u16 (fm_full_message_id m));
  if (applied : bool) then mret NEXUS_KEYCODE_PRO_RESPONSE_VALID_DUPLICATE
  else
    let credit_increment_seconds := u32 (fm_body m * NEXUS_KEYCODE_PRO_SECONDS_IN_HOUR) in
    if fm_type_code m =? NEXUS_KEYCODE_PRO_FULL_ACTIVATION_ADD_CREDIT then
      nexus_keycode_pro_set_full_message_id_flag (u16 (fm_full_message_id m));;
      state ← payg_state;
      if bool_decide (state ≠ NXP_COMMON_PAYG_STATE_UNLOCKED) then
        on_prod (payg_credit_add credit_increment_seconds);;
        mret NEXUS_KEYCODE_PRO_RESPONSE_VALID_APPLIED
      else mret NEXUS_KEYCODE_PRO_RESPONSE_VALID_DUPLICATE
    else if fm_type_code m =? NEXUS_KEYCODE_PRO_FULL_ACTIVATION_DEMO_CODE then
      state ← payg_state;
      (if bool_decide (state ≠ NXP_COMMON_PAYG_STATE_UNLOCKED)
       then on_prod (payg_credit_add (u32 (fm_body m * 60))) else mret tt);;
      mret NEXUS_KEYCODE_PRO_RESPONSE_VALID_APPLIED
    else if fm_type_code m =? NEXUS_KEYCODE_PRO_FULL_ACTIVATION_SET_CREDIT then
      nexus_keycode_pro_mask_below_message_id (u16 (fm_full_message_id m + 1));;
      (if fm_body m =? NEXUS_KEYCODE_PRO_FULL_UNLOCK_INCREMENT
       then on_prod payg_credit_unlock
       else on_prod (payg_credit_set credit_increment_seconds));;
      mret NEXUS_KEYCODE_PRO_RESPONSE_VALID_APPLIED
    else if fm_type_code m =? NEXUS_KEYCODE_PRO_FULL_ACTIVATION_WIPE_STATE then
      nexus_keycode_pro_mask_below_message_id (u16 (fm_full_message_id m + 1));;
      if fm_body m =? NEXUS_KEYCODE_PRO_FULL_WIPE_STATE_TARGET_CREDIT_AND_MASK then
        wipe_ids_and_counts;;
        on_prod (payg_credit_set 0);;
        mret NEXUS_KEYCODE_PRO_RESPONSE_VALID_APPLIED
      else if fm_body m =? NEXUS_KEYCODE_PRO_FULL_WIPE_STATE_TARGET_CREDIT then
        on_prod (payg_credit_set 0);;
        mret NEXUS_KEYCODE_PRO_RESPONSE_VALID_APPLIED
      else if fm_body m =? NEXUS_KEYCODE_PRO_FULL_WIPE_STATE_TARGET_MASK_ONLY then
        wipe_ids_and_counts;;
        mret NEXUS_KEYCODE_PRO_RESPONSE_VALID_APPLIED
      else if fm_body m =? NEXUS_KEYCODE_PRO_FULL_WIPE_CUSTOM_FLAG_RESTRICTED then
        nexus_keycode_pro_reset_custom_flag NX_KEYCODE_CUSTOM_FLAG_RESTRICTED;;
        mret NEXUS_KEYCODE_PRO_RESPONSE_VALID_APPLIED
      else mret NEXUS_KEYCODE_PRO_RESPONSE_INVALID
    else mret NEXUS_KEYCODE_PRO_RESPONSE_INVALID.

Definition nexus_keycode_pro_full_apply_factory (m : nexus_keycode_pro_full_message)
    : M (keycode_pro P) nexus_keycode_pro_response :=
  let respond (test_applied : bool) : M (keycode_pro P) nexus_keycode_pro_response :=
    mret (if test_applied then NEXUS_KEYCODE_PRO_RESPONSE_VALID_APPLIED
          else if fm_type_code m =? NEXUS_KEYCODE_PRO_FULL_FACTORY_DEVICE_ID_DISPLAY
          then NEXUS_KEYCODE_PRO_RESPONSE_DISPLAY_DEVICE_ID
          else NEXUS_KEYCODE_PRO_RESPONSE_VALID_DUPLICATE) in
  if fm_type_code m =? NEXUS_KEYCODE_PRO_FULL_FACTORY_ALLOW_TEST then
    state ← payg_state;
    if bool_decide (state = NXP_COMMON_PAYG_STATE_DISABLED) then
      on_prod (payg_credit_add NEXUS_KEYCODE_PRO_UNIVERSAL_SHORT_TEST_SECONDS);;
      respond true
    else respond false
  else if fm_type_code m =? NEXUS_KEYCODE_PRO_FULL_FACTORY_QC_TEST then
    let qc_credit_seconds := u32 (fm_body m * 60) in
    test_applied ← nexus_keycode_pro_can_unit_accept_qc_code qc_credit_seconds;
    (if (test_applied : bool) then
       on_prod (payg_credit_add qc_credit_seconds);;
       (if qc_credit_seconds <=? NEXUS_KEYCODE_PRO_QC_SHORT_TEST_MESSAGE_SECONDS
        then nexus_keycode_pro_increment_short_qc_test_message_count
        else nexus_keycode_pro_increment_long_qc_test_message_count)
     else mret tt);;
    respond test_applied
  else if fm_type_code m =? NEXUS_KEYCODE_PRO_FULL_FACTORY_DEVICE_ID_DISPLAY then respond false
  else if fm_type_code m =? NEXUS_KEYCODE_PRO_FULL_FACTORY_NOMAC_DEVICE_ID_CONFIRMATION then
    user_facing_id ← gets (λ s, nxp_keycode_get_user_facing_id (pro_prod s));
    respond (fm_body m =? user_facing_id)
  else mret NEXUS_KEYCODE_PRO_RESPONSE_INVALID.

Definition nexus_keycode_pro_full_apply (m : nexus_keycode_pro_full_message)
    : M (keycode_pro P) nexus_keycode_pro_response :=
  secret_key ← gets (λ s,
    if fm_type_code m <? NEXUS_KEYCODE_PRO_FULL_FACTORY_ALLOW_TEST
    then nxp_keycode_get_secret_key (pro_prod s) else NEXUS_INTEGRITY_CHECK_FIXED_00_KEY);
  check_expected ← lift (nexus_keycode_pro_full_compute_check m secret_key);
  if negb (fm_check m =? check_expected) &&
     (fm_type_code m <? NEXUS_KEYCODE_PRO_FULL_FACTORY_NOMAC_DEVICE_ID_CONFIRMATION)
  then mret NEXUS_KEYCODE_PRO_RESPONSE_INVALID
  else if fm_type_code m <? NEXUS_KEYCODE_PRO_FULL_FACTORY_ALLOW_TEST
  then nexus_keycode_pro_full_apply_activation m
  else nexus_keycode_pro_full_apply_factory m.

Definition nexus_keycode_pro_full_parse_and_apply (garbage : list Z) (raw_frame : nexus_keycode_frame)
    : M (keycode_pro P) nexus_keycode_pro_response :=
  '(parsed, message) ← nexus_keycode_pro_full_parse garbage raw_frame;
  if negb parsed then mret NEXUS_KEYCODE_PRO_RESPONSE_INVALID
  else if fm_type_code message =? NEXUS_KEYCODE_PRO_FULL_PASSTHROUGH_COMMAND
  then mret NEXUS_KEYCODE_PRO_RESPONSE_NONE
  else nexus_keycode_pro_full_apply message.
End Full.
