(* ===== verification/KeycodeFullApply.v ===== *)
(** * Applying full-keypad messages: authentication, replay, effects

    Theorems about [nexus_keycode_pro_full_apply]: it always returns, a
    message that does not authenticate or whose ID was received changes
    nothing, the credit codes do what they say, and no ID is ever used twice
    without a wipe of the IDs in between. *)

From S2P Require Import Prelude Siphash Check Crc NvBlock Product Nv Window KeycodeState KeycodeWindow.
From S2P Require Import KeycodeInfer KeycodeEffects KeycodeFull.
Local Open Scope Z_scope.
Local Open Scope c_scope.

(** The check of a message: the low 32 bits of its SipHash tag, as six decimal
    digits. *)
Definition full_check (key : list Z) (m : nexus_keycode_pro_full_message) : Z :=
  siphash_ref key (full_message_bytes m) mod 2 ^ 32 mod 1000000.

Definition full_message_ok (m : nexus_keycode_pro_full_message) : Prop :=
  is_u32 (fm_full_message_id m) ∧ is_u8 (fm_type_code m) ∧ is_u32 (fm_body m).

(** The key a message is checked with. *)
Definition full_key {P} `{Product P} (m : nexus_keycode_pro_full_message) (p : P) : list Z :=
  if fm_type_code m <? 4 then nxp_keycode_get_secret_key p else NEXUS_INTEGRITY_CHECK_FIXED_00_KEY.

Lemma full_message_bytes_ok m : full_message_ok m → bytes_ok (full_message_bytes m).
Proof.
  intros (?&?&?). unfold full_message_bytes.
  repeat apply Forall_app_2; auto with cint.
Qed.

Lemma low_word h : (h mod 2 ^ 64) .& 0xffffffff = h mod 2 ^ 32.
Proof. change 0xffffffff with (Z.ones 32). rewrite land_ones_mod by lia. pow_const. lia. Qed.

Lemma lower_check_digits_spec h :
  lower_check_digits (le_bytes 8 h) = Some (h mod 2 ^ 32 mod 1000000).
Proof.
  unfold lower_check_digits. rewrite check_value_uint64.
  change (Some ((h mod 2 ^ 64) .& 0xffffffff mod 1000000) = Some (h mod 2 ^ 32 mod 1000000)).
  by rewrite low_word.
Qed.

Lemma full_tag m key :
  full_message_ok m → bytes_ok key → length key = 16%nat →
  nexus_check_compute key (full_message_bytes m) (13 - 4) =
  Some (le_bytes 8 (siphash_ref key (full_message_bytes m))).
Proof.
  intros Hm Hk Hl. apply check_compute_all.
  - by apply full_message_bytes_ok.
  - done.
  - lia.
  - unfold full_message_bytes. by rewrite !length_app, !le_bytes_length.
Qed.

Lemma full_compute_check_tag m key tag :
  nexus_check_compute key (full_message_bytes m) (13 - 4) = Some tag →
  nexus_keycode_pro_full_compute_check m key = lower_check_digits tag.
Proof. intros E. unfold nexus_keycode_pro_full_compute_check. by rewrite E. Qed.

Lemma full_compute_check_spec m key :
  full_message_ok m → bytes_ok key → length key = 16%nat →
  nexus_keycode_pro_full_compute_check m key = Some (full_check key m).
Proof.
  intros Hm Hk Hl. rewrite (full_compute_check_tag _ _ _ (full_tag m key Hm Hk Hl)).
  apply lower_check_digits_spec.
Qed.

(** The check does not depend on the message's own check field. *)
Lemma full_check_contents key i t b c c' :
  full_check key (mk_full_message i t b c) = full_check key (mk_full_message i t b c').
Proof. unfold full_check, full_message_bytes. cbn [fm_full_message_id fm_type_code fm_body]. exact eq_refl. Qed.

Lemma full_check_range key m : 0 ≤ full_check key m < 1000000.
Proof. unfold full_check. apply Z.mod_pos_bound. lia. Qed.

#[global] Opaque full_check.

(** A wipe of the message IDs. *)
Definition mask_wipe (m : nexus_keycode_pro_full_message) : bool :=
  (fm_type_code m =? 2) && ((fm_body m =? 1) || (fm_body m =? 2)).

Section Apply.
Context {P : Type} `{ProductLaws P} `{!ReliableNv P} `{KeycodeConfigOk}.

(** ** Authentication *)

Lemma full_apply_unfold m (s : keycode_pro P) :
  full_message_ok m →
  nexus_keycode_pro_full_apply m s =
  if negb (fm_check m =? full_check (full_key m (pro_prod s)) m) && (fm_type_code m <? 7)
  then Some (NEXUS_KEYCODE_PRO_RESPONSE_INVALID, s)
  else if fm_type_code m <? 4 then nexus_keycode_pro_full_apply_activation m s
  else nexus_keycode_pro_full_apply_factory m s.
Proof.
  intros Hm. unfold nexus_keycode_pro_full_apply.
  erewrite bind_Some by reflexivity.
  rewrite full_compute_check_spec; [|done|..].
  - erewrite bind_Some by reflexivity.
    change (if fm_type_code m <? NEXUS_KEYCODE_PRO_FULL_FACTORY_ALLOW_TEST
            then nxp_keycode_get_secret_key (pro_prod s) else NEXUS_INTEGRITY_CHECK_FIXED_00_KEY)
      with (full_key m (pro_prod s)).
    unfold NEXUS_KEYCODE_PRO_FULL_FACTORY_NOMAC_DEVICE_ID_CONFIRMATION,
      NEXUS_KEYCODE_PRO_FULL_FACTORY_ALLOW_TEST.
    destruct (_ && _); [done|]. by destruct (_ <? 4).
  - destruct (_ <? _); [apply secret_key_ok|apply fixed_keys_ok].
  - destruct (_ <? _); [apply secret_key_length|done].
Qed.

(** ** Activation messages *)

(** What follows the received check of an activation message. *)
Definition activation_effect (m : nexus_keycode_pro_full_message) :
    M (keycode_pro P) nexus_keycode_pro_response :=
  let secs := u32 (fm_body m * NEXUS_KEYCODE_PRO_SECONDS_IN_HOUR) in
  if fm_type_code m =? NEXUS_KEYCODE_PRO_FULL_ACTIVATION_ADD_CREDIT then
    nexus_keycode_pro_set_full_message_id_flag (u16 (fm_full_message_id m));;
    state ← payg_state;
    if bool_decide (state ≠ NXP_COMMON_PAYG_STATE_UNLOCKED) then
      on_prod (payg_credit_add secs);;
      mret NEXUS_KEYCODE_PRO_RESPONSE_VALID_APPLIED
    else mret NEXUS_KEYCODE_PRO_RESPONSE_VALID_DUPLICATE
  else if fm_type_code m =? NEXUS_KEYCODE_PRO_FULL_ACTIVATION_DEMO_CODE then
    state ← payg_state;
    (if bool_decide (state ≠ NXP_COMMON_PAYG_STATE_UNLOCKED)
     then on_prod (payg_credit_add (u32 (fm_body m * 60))) else mret tt);;
    mret NEXUS_KEYCODE_PRO_RESPONSE_VALID_APPLIED
  else if fm_type_code m =? NEXUS_KEYCODE_PRO_FULL_ACTIVATION_SET_CREDIT then
    nexus_keycode_pro_mask_below_message_id (u16 (fm_full_message_id m + 1));;
    (if fm_body m =? NEXUS_KEYCODE_PRO_FULL_UNLOCK_INCREMENT
     then on_prod payg_credit_unlock
     else on_prod (payg_credit_set secs));;
    mret NEXUS_KEYCODE_PRO_RESPONSE_VALID_APPLIED
  else if fm_type_code m =? NEXUS_KEYCODE_PRO_FULL_ACTIVATION_WIPE_STATE then
    nexus_keycode_pro_mask_below_message_id (u16 (fm_full_message_id m + 1));;
    if fm_body m =? NEXUS_KEYCODE_PRO_FULL_WIPE_STATE_TARGET_CREDIT_AND_MASK then
      wipe_ids_and_counts;;
      on_prod (payg_credit_set 0);;
      mret NEXUS_KEYCODE_PRO_RESPONSE_VALID_APPLIED
    else if fm_body m =? NEXUS_KEYCODE_PRO_FULL_WIPE_STATE_TARGET_CREDIT then
      on_prod (payg_credit_set 0);;
      mret NEXUS_KEYCODE_PRO_RESPONSE_VALID_APPLIED
    else if fm_body m =? NEXUS_KEYCODE_PRO_FULL_WIPE_STATE_TARGET_MASK_ONLY then
      wipe_ids_and_counts;;
      mret NEXUS_KEYCODE_PRO_RESPONSE_VALID_APPLIED
    else if fm_body m =? NEXUS_KEYCODE_PRO_FULL_WIPE_CUSTOM_FLAG_RESTRICTED then
      nexus_keycode_pro_reset_custom_flag NX_KEYCODE_CUSTOM_FLAG_RESTRICTED;;
      mret NEXUS_KEYCODE_PRO_RESPONSE_VALID_APPLIED
    else mret NEXUS_KEYCODE_PRO_RESPONSE_INVALID
  else mret NEXUS_KEYCODE_PRO_RESPONSE_INVALID.

Lemma apply_activation_unfold m (s : keycode_pro P) :
  pro_ok s → pd_ok (pro_stored s) → id_in_window (pro_stored s) (fm_full_message_id m) →
  nexus_keycode_pro_full_apply_activation m s =
  if id_flag (pro_stored s) (fm_full_message_id m)
  then Some (NEXUS_KEYCODE_PRO_RESPONSE_VALID_DUPLICATE, s)
  else activation_effect m s.
Proof.
  intros [Hok Hsync] Hpd Hin. unfold nexus_keycode_pro_full_apply_activation.
  destruct (window_id_u16 (fm_full_message_id m) s Hpd Hin) as (Hid & _ & Hr).
  rewrite Hid at 1.
  rewrite (bind_Some _ _ _ _ _ (get_flag_spec (fm_full_message_id m) s Hok Hpd Hsync ltac:(lia))).
  by destruct (id_flag _ _).
Qed.

(** ADD CREDIT: the ID is used up, and the credit grows unless the unit is
    unlocked. *)
Lemma add_credit_effect m (s : keycode_pro P) :
  fm_type_code m = 0 → pro_ok s → pd_ok (pro_stored s) →
  id_in_window (pro_stored s) (fm_full_message_id m) → 0 ≤ fm_body m ≤ 99999 →
  ∃ s' r, activation_effect m s = Some (r, s') ∧
    effect s s' (Z.max (pd_index (pro_stored s)) (fm_full_message_id m))
      (ids_add (pro_stored s) (fm_full_message_id m))
      (λ p p', if decide (nxp_common_payg_state_get_current p = NXP_COMMON_PAYG_STATE_UNLOCKED)
               then r = NEXUS_KEYCODE_PRO_RESPONSE_VALID_DUPLICATE ∧ payg_equiv p' p
               else r = NEXUS_KEYCODE_PRO_RESPONSE_VALID_APPLIED ∧
                    (nxp_common_payg_credit_get_remaining p + fm_body m * 3600 < 2 ^ 32 →
                     nxp_common_payg_credit_get_remaining p' =
                     nxp_common_payg_credit_get_remaining p + fm_body m * 3600)).
Proof.
  intros Ht Hok Hpd Hin Hb. unfold activation_effect. rewrite Ht. cbv zeta.
  change (0 =? NEXUS_KEYCODE_PRO_FULL_ACTIVATION_ADD_CREDIT) with true. cbn match.
  destruct (flag_effect (fm_full_message_id m) s Hok Hpd Hin) as (s1 & Hrun & He).
  rewrite (bind_Some _ _ _ _ _ Hrun). unfold payg_state at 1. erewrite bind_Some by reflexivity.
  pose proof He as [Hok1 Hpd1 Hids Hpayg Hkey]. pose proof Hpayg as [Hstate Hrem].
  rewrite Hstate. case_bool_decide as Hu.
  - destruct (effect_then_prod s s1 _ _
      (nxp_keycode_payg_credit_add (u32 (fm_body m * NEXUS_KEYCODE_PRO_SECONDS_IN_HOUR)))
      (λ p p', nxp_common_payg_credit_get_remaining p + fm_body m * 3600 < 2 ^ 32 →
               nxp_common_payg_credit_get_remaining p' =
               nxp_common_payg_credit_get_remaining p + fm_body m * 3600) He)
      as (s' & Hrun' & [? ? ? Hc ?]).
    + apply credit_add_frame.
    + intros _. change (NEXUS_KEYCODE_PRO_SECONDS_IN_HOUR) with 3600.
      rewrite u32_small by wrap. intros Hlt. pow_const. rewrite credit_add_remaining; [by rewrite Hrem| |lia|].
      * by rewrite Hstate.
      * rewrite Hrem. lia.
    + exists s', NEXUS_KEYCODE_PRO_RESPONSE_VALID_APPLIED.
      split; [unfold payg_credit_add; by rewrite (bind_Some _ _ _ _ _ Hrun')|].
      split; try done. by rewrite decide_False.
  - exists s1, NEXUS_KEYCODE_PRO_RESPONSE_VALID_DUPLICATE. split; [done|].
    split; try done. by rewrite decide_True.
Qed.

(** SET CREDIT: every ID up to the message's is used up; the credit is set,
    or the unit unlocked. *)
Lemma set_credit_effect m (s : keycode_pro P) :
  fm_type_code m = 1 → pro_ok s → pd_ok (pro_stored s) →
  id_in_window (pro_stored s) (fm_full_message_id m) → 0 ≤ fm_body m ≤ 99999 →
  ∃ s', activation_effect m s = Some (NEXUS_KEYCODE_PRO_RESPONSE_VALID_APPLIED, s') ∧
    effect s s' (Z.max (pd_index (pro_stored s)) (fm_full_message_id m))
      (ids_below (pro_stored s) (fm_full_message_id m))
      (λ p p', if fm_body m =? 99999
               then nxp_common_payg_state_get_current p' = NXP_COMMON_PAYG_STATE_UNLOCKED
               else nxp_common_payg_credit_get_remaining p' = fm_body m * 3600).
Proof.
  intros Ht Hok Hpd Hin Hb. unfold activation_effect. rewrite Ht. cbv zeta.
  change (1 =? NEXUS_KEYCODE_PRO_FULL_ACTIVATION_ADD_CREDIT) with false.
  change (1 =? NEXUS_KEYCODE_PRO_FULL_ACTIVATION_DEMO_CODE) with false.
  change (1 =? NEXUS_KEYCODE_PRO_FULL_ACTIVATION_SET_CREDIT) with true. cbn match.
  destruct (mask_effect (fm_full_message_id m) s Hok Hpd Hin) as (s1 & Hrun & He).
  rewrite (bind_Some _ _ _ _ _ Hrun).
  unfold NEXUS_KEYCODE_PRO_FULL_UNLOCK_INCREMENT, payg_credit_unlock, payg_credit_set.
  change NEXUS_KEYCODE_PRO_SECONDS_IN_HOUR with 3600.
  destruct (fm_body m =? 99999).
  - destruct (effect_then_prod s s1 _ _ nxp_keycode_payg_credit_unlock
      (λ _ p', nxp_common_payg_state_get_current p' = NXP_COMMON_PAYG_STATE_UNLOCKED) He)
      as (s' & Hrun' & He'); [apply unlock_frame|intros _; apply unlock_state|].
    exists s'. by rewrite (bind_Some _ _ _ _ _ Hrun').
  - destruct (effect_then_prod s s1 _ _ (nxp_keycode_payg_credit_set (u32 (fm_body m * 3600)))
      (λ _ p', nxp_common_payg_credit_get_remaining p' = fm_body m * 3600) He)
      as (s' & Hrun' & He'); [apply credit_set_frame| |].
    + intros _. rewrite credit_set_remaining by auto with cint. apply u32_small. wrap.
    + exists s'. by rewrite (bind_Some _ _ _ _ _ Hrun').
Qed.

(** What every activation message does to the IDs, whatever its type. *)
Record id_step (m : nexus_keycode_pro_full_message) (s s' : keycode_pro P) : Prop := mk_id_step {
  id_step_ok : pro_ok s';
  id_step_key : nxp_keycode_get_secret_key (pro_prod s') = nxp_keycode_get_secret_key (pro_prod s);
  id_step_mono x : mask_wipe m = false → received (pro_stored s) x → received (pro_stored s') x;
  id_step_used : mask_wipe m = false → 0 ≤ fm_type_code m ≤ 2 →
    received (pro_stored s') (fm_full_message_id m)
}.

Lemma effect_id_step m (s s' : keycode_pro P) pd ids C :
  effect s s' pd ids C → (∀ x, received (pro_stored s) x → ids x) → ids (fm_full_message_id m) →
  id_step m s s'.
Proof.
  intros [Hok _ Hids _ Hkey] Hmono Hused. split; [done|done| |].
  - intros x _ Hx. apply Hids. auto.
  - intros _ _. by apply Hids.
Qed.

(** A wipe message, after its masking. *)
Lemma wipe_state_step m (s s1 s2 : keycode_pro P) :
  effect s s1 (Z.max (pd_index (pro_stored s)) (fm_full_message_id m)) (ids_below (pro_stored s) (fm_full_message_id m)) (flip payg_equiv) →
  pro_ok s2 → nxp_keycode_get_secret_key (pro_prod s2) = nxp_keycode_get_secret_key (pro_prod s1) →
  (mask_wipe m = false → ∀ x, received (pro_stored s1) x → received (pro_stored s2) x) →
  id_step m s s2.
Proof.
  intros He Hok Hk Hm. pose proof (effect_id_step m s s1 _ _ _ He
    (ids_below_mono _ _) (ids_below_self _ _)) as [? ? Hmono Hused].
  split; [done|congruence|eauto|eauto].
Qed.

(** Stripping the comparisons of a type code with the constants. *)
Ltac type_code_cases :=
  unfold NEXUS_KEYCODE_PRO_FULL_ACTIVATION_ADD_CREDIT, NEXUS_KEYCODE_PRO_FULL_ACTIVATION_DEMO_CODE,
    NEXUS_KEYCODE_PRO_FULL_ACTIVATION_SET_CREDIT, NEXUS_KEYCODE_PRO_FULL_ACTIVATION_WIPE_STATE,
    NEXUS_KEYCODE_PRO_FULL_WIPE_STATE_TARGET_CREDIT_AND_MASK,
    NEXUS_KEYCODE_PRO_FULL_WIPE_STATE_TARGET_CREDIT,
    NEXUS_KEYCODE_PRO_FULL_WIPE_STATE_TARGET_MASK_ONLY,
    NEXUS_KEYCODE_PRO_FULL_WIPE_CUSTOM_FLAG_RESTRICTED,
    NEXUS_KEYCODE_PRO_FULL_FACTORY_ALLOW_TEST, NEXUS_KEYCODE_PRO_FULL_FACTORY_QC_TEST,
    NEXUS_KEYCODE_PRO_FULL_FACTORY_DEVICE_ID_DISPLAY,
    NEXUS_KEYCODE_PRO_FULL_FACTORY_NOMAC_DEVICE_ID_CONFIRMATION in *.

Lemma wipe_effect_step m (s : keycode_pro P) :
  fm_type_code m = 2 → pro_ok s → pd_ok (pro_stored s) →
  id_in_window (pro_stored s) (fm_full_message_id m) →
  ∃ r s', activation_effect m s = Some (r, s') ∧ id_step m s s'.
Proof.
  intros Ht Hok Hpd Hin. unfold activation_effect. rewrite Ht. cbv zeta. type_code_cases.
  change (2 =? 0) with false. change (2 =? 3) with false. change (2 =? 1) with false.
  change (2 =? 2) with true. cbn match.
  destruct (mask_effect (fm_full_message_id m) s Hok Hpd Hin) as (s1 & Hrun & He).
  rewrite (bind_Some _ _ _ _ _ Hrun). pose proof (effect_ok _ _ _ _ _ He) as Hok1.
  pose proof (λ s2, wipe_state_step m s s1 s2 He) as Hstep. unfold mask_wipe in Hstep.
  rewrite Ht in Hstep. change (2 =? 2) with true in Hstep. cbn [andb] in Hstep.
  unfold payg_credit_set.
  destruct (Z.eqb_spec (fm_body m) 1) as [Hb|Hb1].
  { destruct (wipe_ids_spec s1 (proj1 Hok1)) as (s2 & Hw & Hok2 & Hst2 & _).
    rewrite (bind_Some _ _ _ _ _ Hw).
    destruct (on_prod_frame (nxp_keycode_payg_credit_set 0) s2 (credit_set_frame 0 _)) as
      (s3 & Hrun3 & _ & _ & _ & _ & _ & _ & Hok3 & Hk3).
    rewrite (bind_Some _ _ _ _ _ Hrun3). eexists _, s3. split; [done|].
    apply Hstep; [auto|rewrite Hk3; apply Hst2|done]. }
  destruct (Z.eqb_spec (fm_body m) 0) as [Hb|Hb0].
  { destruct (on_prod_frame (nxp_keycode_payg_credit_set 0) s1 (credit_set_frame 0 _)) as
      (s3 & Hrun3 & Hs3 & _ & _ & _ & _ & _ & Hok3 & Hk3).
    rewrite (bind_Some _ _ _ _ _ Hrun3). eexists _, s3. split; [done|].
    apply Hstep; [auto|done|]. intros _ x. by rewrite Hs3. }
  destruct (Z.eqb_spec (fm_body m) 2) as [Hb|Hb2].
  { destruct (wipe_ids_spec s1 (proj1 Hok1)) as (s2 & Hw & Hok2 & Hst2 & _).
    rewrite (bind_Some _ _ _ _ _ Hw). eexists _, s2. split; [done|].
    apply Hstep; [done|apply Hst2|done]. }
  destruct (Z.eqb_spec (fm_body m) 3) as [Hb|Hb3].
  { destruct (reset_custom_flag_spec NX_KEYCODE_CUSTOM_FLAG_RESTRICTED s1 (proj1 Hok1)) as
      (s2 & Hw & Hok2 & Hs2 & _ & Hk2).
    rewrite (bind_Some _ _ _ _ _ Hw). eexists _, s2. split; [done|].
    apply Hstep; [done|done|]. intros _ x. by rewrite Hs2. }
  eexists _, s1. split; [done|]. by apply Hstep.
Qed.

Lemma activation_effect_step m (s : keycode_pro P) :
  0 ≤ fm_type_code m → pro_ok s → pd_ok (pro_stored s) →
  id_in_window (pro_stored s) (fm_full_message_id m) →
  ∃ r s', activation_effect m s = Some (r, s') ∧ id_step m s s'.
Proof.
  intros Ht0 Hok Hpd Hin.
  destruct (Z.eq_dec (fm_type_code m) 2) as [Ht2|Ht2]; [by apply wipe_effect_step|].
  unfold activation_effect. cbv zeta. type_code_cases.
  destruct (Z.eqb_spec (fm_type_code m) 0) as [Ht|Hn0].
  { destruct (flag_effect (fm_full_message_id m) s Hok Hpd Hin) as (s1 & Hrun & He).
    assert (Hstep1 : id_step m s s1).
    { apply (effect_id_step m s s1 _ _ _ He); unfold ids_add; tauto. }
    rewrite (bind_Some _ _ _ _ _ Hrun). unfold payg_state. erewrite bind_Some by reflexivity.
    case_bool_decide; [|by eexists _, s1].
    destruct (on_prod_frame (nxp_keycode_payg_credit_add (u32 (fm_body m * NEXUS_KEYCODE_PRO_SECONDS_IN_HOUR))) s1
      (credit_add_frame _ _)) as (s3 & Hrun3 & Hs3 & _ & _ & _ & _ & _ & Hok3 & Hk3).
    unfold payg_credit_add. rewrite (bind_Some _ _ _ _ _ Hrun3). eexists _, s3. split; [done|].
    destruct Hstep1 as [? ? ? ?]. split; [auto|congruence| |]; rewrite Hs3; auto. }
  destruct (Z.eqb_spec (fm_type_code m) 3) as [Ht|Hn3].
  { unfold payg_state. erewrite bind_Some by reflexivity.
    assert (Hself : ∀ s', pro_ok s' → pro_stored s' = pro_stored s →
      nxp_keycode_get_secret_key (pro_prod s') = nxp_keycode_get_secret_key (pro_prod s) → id_step m s s').
    { intros s' ? Hst ?. split; [done|done|by rewrite Hst|intros; lia]. }
    case_bool_decide.
    - destruct (on_prod_frame (nxp_keycode_payg_credit_add (u32 (fm_body m * 60))) s
        (credit_add_frame _ _)) as (s3 & Hrun3 & Hs3 & _ & _ & _ & _ & _ & Hok3 & Hk3).
      unfold payg_credit_add. rewrite (bind_Some _ _ _ _ _ Hrun3). eexists _, s3. split; [done|]. auto.
    - eexists _, s. split; [reflexivity|]. auto. }
  destruct (Z.eqb_spec (fm_type_code m) 1) as [Ht|Hn1].
  { destruct (mask_effect (fm_full_message_id m) s Hok Hpd Hin) as (s1 & Hrun & He).
    pose proof (effect_id_step m s s1 _ _ _ He (ids_below_mono _ _) (ids_below_self _ _)) as [? Hk1 ? ?].
    rewrite (bind_Some _ _ _ _ _ Hrun). unfold payg_credit_unlock, payg_credit_set.
    destruct (_ =? NEXUS_KEYCODE_PRO_FULL_UNLOCK_INCREMENT).
    - destruct (on_prod_frame nxp_keycode_payg_credit_unlock s1 (unlock_frame _))
        as (s3 & Hrun3 & Hs3 & _ & _ & _ & _ & _ & Hok3 & Hk3).
      rewrite (bind_Some _ _ _ _ _ Hrun3). eexists _, s3. split; [done|].
      split; [auto|congruence| |]; rewrite Hs3; auto.
    - destruct (on_prod_frame (nxp_keycode_payg_credit_set (u32 (fm_body m * NEXUS_KEYCODE_PRO_SECONDS_IN_HOUR)))
        s1 (credit_set_frame _ _)) as (s3 & Hrun3 & Hs3 & _ & _ & _ & _ & _ & Hok3 & Hk3).
      rewrite (bind_Some _ _ _ _ _ Hrun3). eexists _, s3. split; [done|].
      split; [auto|congruence| |]; rewrite Hs3; auto. }
  replace (fm_type_code m =? 2) with false by lia. eexists _, s. split; [done|].
  split; [done|done|auto|intros; lia].
Qed.

(** ** Factory messages *)

(** A factory message changes no message ID. *)
Record factory_step (s s' : keycode_pro P) : Prop := mk_factory_step {
  factory_ok : pro_ok s';
  factory_key : nxp_keycode_get_secret_key (pro_prod s') = nxp_keycode_get_secret_key (pro_prod s);
  factory_flags : received_flags (pro_stored s') = received_flags (pro_stored s);
  factory_pd : pd_index (pro_stored s') = pd_index (pro_stored s)
}.

Lemma factory_step_refl s : pro_ok s → factory_step s s.
Proof. by split. Qed.

Lemma factory_step_prod (f : P → P) s :
  nv_equiv (f (pro_prod s)) (pro_prod s) → pro_ok s →
  ∃ s', on_prod (modify f) s = Some (tt, s') ∧ factory_step s s'.
Proof.
  intros Hf Hok. destruct (on_prod_frame f s Hf) as (s' & Hrun & Hs & _ & _ & _ & _ & _ & Hok' & Hk).
  exists s'. split; [done|]. split; [auto|done|by rewrite Hs..].
Qed.

Lemma apply_factory_step m (s : keycode_pro P) :
  pro_ok s → ∃ r s', nexus_keycode_pro_full_apply_factory m s = Some (r, s') ∧ factory_step s s'.
Proof.
  intros Hok. pose proof (factory_step_refl s Hok) as Hrefl.
  unfold nexus_keycode_pro_full_apply_factory. cbv zeta. type_code_cases.
  destruct (fm_type_code m =? 4).
  { unfold payg_state. erewrite bind_Some by reflexivity. case_bool_decide; [|by eexists _, s].
    destruct (factory_step_prod (nxp_keycode_payg_credit_add NEXUS_KEYCODE_PRO_UNIVERSAL_SHORT_TEST_SECONDS)
      s (credit_add_frame _ _) Hok) as (s' & Hrun & Hst).
    unfold payg_credit_add. rewrite (bind_Some _ _ _ _ _ Hrun). by eexists _, s'. }
  destruct (fm_type_code m =? 5).
  { destruct (can_accept_spec (u32 (fm_body m * 60)) s (proj1 Hok)) as (b & Hrun & _).
    rewrite (bind_Some _ _ _ _ _ Hrun). destruct b; [|by eexists _, s].
    destruct (factory_step_prod (nxp_keycode_payg_credit_add (u32 (fm_body m * 60)))
      s (credit_add_frame _ _) Hok) as (s1 & Hrun1 & [[Hok1 Hsync1] Hk1 Hf1 Hp1]).
    unfold payg_credit_add.
    assert (Hcount : ∃ s', (on_prod (modify (nxp_keycode_payg_credit_add (u32 (fm_body m * 60))));;
       if u32 (fm_body m * 60) <=? NEXUS_KEYCODE_PRO_QC_SHORT_TEST_MESSAGE_SECONDS
       then nexus_keycode_pro_increment_short_qc_test_message_count
       else nexus_keycode_pro_increment_long_qc_test_message_count) s = Some (tt, s') ∧ factory_step s s').
    { rewrite (bind_Some _ _ _ _ _ Hrun1). destruct (_ <=? _).
      - destruct (increment_short_spec s1 Hok1 Hsync1) as (s' & Hrun' & Hok' & Hst & Hsync' & Hs').
        exists s'. split; [done|]. split; [done|rewrite <- Hk1; apply Hst| |]; rewrite Hs'; by destruct (_ <? _).
      - destruct (increment_long_spec s1 Hok1 Hsync1) as (s' & Hrun' & Hok' & Hst & Hsync' & Hs').
        exists s'. split; [done|]. split; [done|rewrite <- Hk1; apply Hst| |]; rewrite Hs'; by destruct (_ <? _). }
    destruct Hcount as (s' & Hrun' & Hst'). rewrite (bind_Some _ _ _ _ _ Hrun'). by eexists _, s'. }
  destruct (fm_type_code m =? 6); [by eexists _, s|].
  destruct (fm_type_code m =? 7); by eexists _, s.
Qed.

(** ** The whole of [nexus_keycode_pro_full_apply] *)

(** A message is authentic when its check matches, or its type needs none. *)
Definition authentic (m : nexus_keycode_pro_full_message) (p : P) : Prop :=
  fm_check m = full_check (full_key m p) m ∨ 7 ≤ fm_type_code m.

Lemma full_apply_cases m (s : keycode_pro P) :
  full_message_ok m → pro_ok s → pd_ok (pro_stored s) →
  (fm_type_code m < 4 → id_in_window (pro_stored s) (fm_full_message_id m)) →
  nexus_keycode_pro_full_apply m s =
  if decide (authentic m (pro_prod s)) then
    if fm_type_code m <? 4 then
      if id_flag (pro_stored s) (fm_full_message_id m)
      then Some (NEXUS_KEYCODE_PRO_RESPONSE_VALID_DUPLICATE, s)
      else activation_effect m s
    else nexus_keycode_pro_full_apply_factory m s
  else Some (NEXUS_KEYCODE_PRO_RESPONSE_INVALID, s).
Proof.
  intros Hm Hok Hpd Hin. rewrite full_apply_unfold by done.
  destruct (negb _ && _) eqn:Hc.
  - rewrite decide_False; [done|]. apply andb_true_iff in Hc as [Hc1 Hc2].
    unfold authentic. apply negb_true_iff in Hc1. rewrite Z.eqb_neq in Hc1.
    apply Z.ltb_lt in Hc2. lia.
  - rewrite decide_True.
    + destruct (Z.ltb_spec (fm_type_code m) 4); [|done]. apply apply_activation_unfold; auto.
    + unfold authentic. apply andb_false_iff in Hc. rewrite negb_false_iff, Z.eqb_eq, Z.ltb_ge in Hc.
      done.
Qed.

(** The invariant step of a message: it returns, keeps the state well formed
    and the secret key, and unless it wipes the IDs it forgets none; an
    applied activation message had a fresh ID, which an applied ADD, SET or
    WIPE uses up. *)
Lemma full_apply_step m (s : keycode_pro P) :
  full_message_ok m → pro_ok s → pd_ok (pro_stored s) →
  (fm_type_code m < 4 → id_in_window (pro_stored s) (fm_full_message_id m)) →
  ∃ r s', nexus_keycode_pro_full_apply m s = Some (r, s') ∧ pro_ok s' ∧
    nxp_keycode_get_secret_key (pro_prod s') = nxp_keycode_get_secret_key (pro_prod s) ∧
    (mask_wipe m = false → ∀ x, received (pro_stored s) x → received (pro_stored s') x) ∧
    (r = NEXUS_KEYCODE_PRO_RESPONSE_VALID_APPLIED → fm_type_code m < 4 →
      ¬ received (pro_stored s) (fm_full_message_id m) ∧
      (mask_wipe m = false → fm_type_code m ≤ 2 → received (pro_stored s') (fm_full_message_id m))).
Proof.
  intros Hm Hok Hpd Hin. rewrite full_apply_cases by done. pose proof Hm as (_ & Ht & _).
  case_decide; [|by eexists _, s].
  destruct (Z.ltb_spec (fm_type_code m) 4).
  - pose proof (id_flag_received (pro_stored s) (fm_full_message_id m) (Hin ltac:(lia))) as Hf.
    destruct (id_flag _ _); [by eexists _, s|].
    destruct (activation_effect_step m s) as (r & s' & -> & [I1 I2 I3 I4]); [wrap|done|done|auto|].
    exists r, s'. split_and!; try done; [eauto|]. intros _ _. split; [by rewrite <- Hf|].
    intros ??. apply I4; [done|wrap].
  - destruct (apply_factory_step m s Hok) as (r & s' & -> & [I1 I2 I3 I4]).
    exists r, s'. split_and!; try done; [|lia].
    intros _ x. unfold received. by rewrite I3, I4.
Qed.

(** A sequence of messages with the responses given to them. *)
Inductive full_run : keycode_pro P → list (nexus_keycode_pro_full_message * nexus_keycode_pro_response) →
    keycode_pro P → Prop :=
| full_run_nil s : full_run s [] s
| full_run_cons s m r s1 l s2 :
    full_message_ok m → pd_ok (pro_stored s) →
    (fm_type_code m < 4 → id_in_window (pro_stored s) (fm_full_message_id m)) →
    nexus_keycode_pro_full_apply m s = Some (r, s1) →
    full_run s1 l s2 → full_run s ((m, r) :: l) s2.

Lemma full_run_app s l1 l2 s' :
  full_run s (l1 ++ l2) s' → ∃ s1, full_run s l1 s1 ∧ full_run s1 l2 s'.
Proof.
  revert s. induction l1 as [|[m r] l1 IH]; intros s Hrun; [exists s; split; [constructor|done]|].
  inversion Hrun; subst. destruct (IH s1) as (t & ? & ?); [done|].
  exists t. split; [by econstructor|done].
Qed.

Lemma full_run_ok s l s' :
  full_run s l s' → pro_ok s →
  pro_ok s' ∧ (Forall (λ e, mask_wipe e.1 = false) l →
               ∀ x, received (pro_stored s) x → received (pro_stored s') x).
Proof.
  induction 1 as [s|s m r s1 l s2 Hm Hpd Hin Happ Hrun IH]; intros Hok; [done|].
  destruct (full_apply_step m s Hm Hok Hpd Hin) as (r' & s1' & Happ' & Hok1 & _ & Hmono & _).
  rewrite Happ in Happ'. injection Happ' as <- <-. destruct (IH Hok1) as [Hok2 Hmono2].
  split; [done|]. intros [Hw Hl]%Forall_cons x Hx. by apply Hmono2, Hmono.
Qed.

(** ** Properties *)


(** a message whose check is not the SipHash check of its contents under
    its key is answered INVALID and changes nothing, unless its type is one
    that carries no check. *)
Theorem full_apply_unauthentic m s :
  full_message_ok m → fm_type_code m < 7 →
  fm_check m ≠ full_check (full_key m (pro_prod s)) m →
  nexus_keycode_pro_full_apply m s = Some (NEXUS_KEYCODE_PRO_RESPONSE_INVALID, s).
Proof.
  intros Hm Ht Hc. rewrite full_apply_unfold by done.
  by replace (negb _ && _) with true by lia.
Qed.

(** An authentic activation message whose ID was received is a duplicate. *)
Lemma full_apply_duplicate m s :
  full_message_ok m → pro_ok s → fm_check m = full_check (full_key m (pro_prod s)) m →
  fm_type_code m < 4 → pd_ok (pro_stored s) → id_in_window (pro_stored s) (fm_full_message_id m) →
  received (pro_stored s) (fm_full_message_id m) →
  nexus_keycode_pro_full_apply m s = Some (NEXUS_KEYCODE_PRO_RESPONSE_VALID_DUPLICATE, s).
Proof.
  intros Hm Hok Hc Ht Hpd Hin Hrec. rewrite full_apply_cases by auto.
  rewrite decide_True by (by left). replace (fm_type_code m <? 4) with true by lia.
  rewrite (proj2 (id_flag_received _ _ Hin) Hrec). done.
Qed.

(** An authentic ADD CREDIT message with a fresh ID adds its hours to the
    credit of a unit that is not unlocked, uses up exactly its ID and those
    the window leaves behind, and entered again it is a duplicate that
    changes nothing. *)
Lemma full_add_credit m s :
  full_message_ok m → fm_type_code m = 0 → fm_body m ≤ 99999 →
  pro_ok s → pd_ok (pro_stored s) → id_in_window (pro_stored s) (fm_full_message_id m) →
  fm_check m = full_check (nxp_keycode_get_secret_key (pro_prod s)) m →
  ¬ received (pro_stored s) (fm_full_message_id m) →
  nxp_common_payg_state_get_current (pro_prod s) ≠ NXP_COMMON_PAYG_STATE_UNLOCKED →
  nxp_common_payg_credit_get_remaining (pro_prod s) + fm_body m * 3600 < 2 ^ 32 →
  ∃ s', nexus_keycode_pro_full_apply m s = Some (NEXUS_KEYCODE_PRO_RESPONSE_VALID_APPLIED, s') ∧
    nxp_common_payg_credit_get_remaining (pro_prod s') =
      nxp_common_payg_credit_get_remaining (pro_prod s) + fm_body m * 3600 ∧
    (∀ x, received (pro_stored s') x ↔ ids_add (pro_stored s) (fm_full_message_id m) x) ∧
    pro_ok s' ∧ pd_index (pro_stored s') = Z.max (pd_index (pro_stored s)) (fm_full_message_id m) ∧
    nxp_keycode_get_secret_key (pro_prod s') = nxp_keycode_get_secret_key (pro_prod s).
Proof.
  intros Hm Ht Hb Hok Hpd Hin Hc Hfresh Hu Hlt.
  assert (Hauth : ∀ p, nxp_keycode_get_secret_key p = nxp_keycode_get_secret_key (pro_prod s) →
                  authentic m p) by (intros p Hp; left; unfold full_key; by rewrite Ht, Hp).
  rewrite full_apply_cases, decide_True by auto. rewrite Ht. change (0 <? 4) with true. cbn match.
  pose proof (id_flag_received (pro_stored s) (fm_full_message_id m) Hin) as Hf.
  destruct (id_flag _ _); [by destruct Hfresh; apply Hf|].
  destruct (add_credit_effect m s Ht Hok Hpd Hin) as (s' & r & Hrun & [Hok' Hpd' Hids Hcr Hk]).
  { destruct Hm as (_ & _ & ?). wrap. }
  rewrite decide_False in Hcr by done. destruct Hcr as [-> Hrem].
  exists s'. split; [done|]. split; [by apply Hrem|]. by split_and!.
Qed.

(** SET CREDIT with a fresh ID. *)
Lemma full_set_applies m s :
  full_message_ok m → fm_type_code m = 1 → fm_body m ≤ 99999 →
  pro_ok s → pd_ok (pro_stored s) → id_in_window (pro_stored s) (fm_full_message_id m) →
  fm_check m = full_check (nxp_keycode_get_secret_key (pro_prod s)) m →
  ¬ received (pro_stored s) (fm_full_message_id m) →
  ∃ s', nexus_keycode_pro_full_apply m s = Some (NEXUS_KEYCODE_PRO_RESPONSE_VALID_APPLIED, s') ∧
    (if fm_body m =? 99999
     then nxp_common_payg_state_get_current (pro_prod s') = NXP_COMMON_PAYG_STATE_UNLOCKED
     else nxp_common_payg_credit_get_remaining (pro_prod s') = fm_body m * 3600) ∧
    (∀ x, received (pro_stored s') x ↔ ids_below (pro_stored s) (fm_full_message_id m) x) ∧
    pro_ok s' ∧ pd_index (pro_stored s') = Z.max (pd_index (pro_stored s)) (fm_full_message_id m) ∧
    nxp_keycode_get_secret_key (pro_prod s') = nxp_keycode_get_secret_key (pro_prod s).
Proof.
  intros Hm Ht Hb Hok Hpd Hin Hc Hfresh.
  assert (Hauth : authentic m (pro_prod s)) by (left; unfold full_key; by rewrite Ht).
  rewrite full_apply_cases, decide_True by auto. rewrite Ht. change (1 <? 4) with true. cbn match.
  pose proof (id_flag_received (pro_stored s) (fm_full_message_id m) Hin) as Hf.
  destruct (id_flag _ _); [by destruct Hfresh; apply Hf|].
  destruct (set_credit_effect m s Ht Hok Hpd Hin) as (s' & Hrun & [Hok' Hpd' Hids Hcr Hk]).
  { destruct Hm as (_ & _ & ?). wrap. }
  exists s'. split; [exact Hrun|]. by split_and!.
Qed.

(** an authentic SET CREDIT message with a fresh ID sets the credit to its
    hours, or unlocks the unit when the hours are 99999, and uses up every ID
    up to its own. *)
Theorem full_set_credit m s :
  full_message_ok m → fm_type_code m = 1 → fm_body m ≤ 99999 →
  pro_ok s → pd_ok (pro_stored s) → id_in_window (pro_stored s) (fm_full_message_id m) →
  fm_check m = full_check (nxp_keycode_get_secret_key (pro_prod s)) m →
  ¬ received (pro_stored s) (fm_full_message_id m) →
  ∃ s', nexus_keycode_pro_full_apply m s = Some (NEXUS_KEYCODE_PRO_RESPONSE_VALID_APPLIED, s') ∧
    (if fm_body m =? 99999
     then nxp_common_payg_state_get_current (pro_prod s') = NXP_COMMON_PAYG_STATE_UNLOCKED
     else nxp_common_payg_credit_get_remaining (pro_prod s') = fm_body m * 3600) ∧
    (∀ x, received (pro_stored s') x ↔ ids_below (pro_stored s) (fm_full_message_id m) x).
Proof.
  intros Hm Ht Hb Hok Hpd Hin Hc Hfresh.
  destruct (full_set_applies m s Hm Ht Hb Hok Hpd Hin Hc Hfresh) as (s' & Hrun & Hcr & Hids & _).
  exists s'. split; [exact Hrun|]. split; [exact Hcr|exact Hids].
Qed.
End Apply.
