(* ===== verification/KeycodeFullParse.v ===== *)
(** * Parsing full-keypad frames

    [activation_keys] is the encoder of the protocol: the digits of the type,
    of the low six bits of the message ID and of the body, each shifted by a
    pseudorandom digit that depends on the check, then the check.  The
    theorems say that parsing such a frame gives back the message, and that
    parsing and applying never fails on any frame of keys. *)


From S2P Require Import Prelude Crc Siphash Digits Window Check NvBlock Product Nv KeycodeState KeycodeWindow KeycodeInfer KeycodeEffects.
From S2P Require Import KeycodeFull KeycodeFullApply.
Local Open Scope Z_scope.

(** ** Arithmetic on digits *)

Lemma mathmod10_loop_spec fuel x :
  x < 10 * Z.of_nat fuel → - (10 * Z.of_nat fuel) < x - 10 → 
  ∃ y, mathmod10_loop fuel x = Some y ∧ 0 ≤ y ∧ y mod 10 = x mod 10 ∧ (0 ≤ x → y = x) ∧ (x < 0 → y < 10).
Proof.
  revert x. induction fuel as [|fuel IH]; intros x Hx Hlo; [lia|].
  cbn [mathmod10_loop]. destruct (Z.ltb_spec x 0).
  - destruct (Z.lt_ge_cases (x + 10) 0).
    + destruct (IH (x + 10)) as (y & -> & ? & ? & ? & ?); [lia..|]. exists y. split_and!; try (done || lia).
    + destruct fuel as [|fuel']; [lia|]. exists (x + 10). cbn [mathmod10_loop].
      replace (x + 10 <? 0) with false by lia. split_and!; try (done || lia).
  - exists x. split_and!; (done || lia).
Qed.

Lemma mathmod10_spec x : -300 < x < 300 → _mathmod10 x = Some (x mod 10).
Proof.
  intros Hx. unfold _mathmod10.
  destruct (mathmod10_loop_spec 32 x) as (y & -> & Hy & Hmod & Hpos & Hneg); [lia..|].
  cbn [mbind option_bind]. f_equal. rewrite u32_small by wrap. rewrite u8_small by wrap. done.
Qed.

(** ** Deinterleaving *)

(** The first eight keys of a frame, unshifted. *)
Definition deinterleaved (keys prng : list Z) : list Z :=
  zip_with deinterleave_key (take 8 keys) prng ++ drop 8 keys.

Lemma deinterleave_spec frame check :
  is_u32 check → (8 ≤ length (fr_keys frame))%nat →
  nexus_keycode_pro_full_deinterleave frame check =
  Some (mk_frame (deinterleaved (fr_keys frame)
                    (prng_ref NEXUS_INTEGRITY_CHECK_FIXED_00_KEY (le_bytes 4 check) 8))
          (fr_length frame)).
Proof.
  intros Hc Hl. unfold nexus_keycode_pro_full_deinterleave.
  change 4 with (Z.of_nat (length (le_bytes 4 check))).
  rewrite pseudorandom_bytes_spec;
    [|apply fixed_keys_ok|by vm_compute; lia|apply le_bytes_ok|by rewrite le_bytes_length|
      unfold NEXUS_KEYCODE_PRO_FULL_ACTIVATION_BODY_CHARACTER_COUNT; lia].
  cbn [mbind option_bind].
  change NEXUS_KEYCODE_PRO_FULL_ACTIVATION_BODY_CHARACTER_COUNT with 8.
  set (prng := prng_ref _ _ 8).
  assert (Hpl : length prng = 8%nat) by (unfold prng; by rewrite prng_ref_length by lia).
  assert (Hpb : bytes_ok prng) by apply prng_ref_ok.
  generalize dependent prng. intros prng Hpl Hpb.
  destruct (for_loop_invariant
    (λ i keys, keys = zip_with deinterleave_key (take (Z.to_nat i) (fr_keys frame)) prng ++
                      drop (Z.to_nat i) (fr_keys frame))
    (Z.to_nat 8) 0 (deinterleave_body prng) (fr_keys frame)) as (r & -> & ->).
  - by rewrite take_0, drop_0.
  - intros i keys Hi ->. change (0 + Z.of_nat (Z.to_nat 8)) with 8 in Hi.
    destruct (lookup_lt_is_Some_2 (fr_keys frame) (Z.to_nat i)) as [k Hk]; [lia|].
    destruct (lookup_lt_is_Some_2 prng (Z.to_nat i)) as [p Hp]; [lia|].
    set (pre := zip_with deinterleave_key (take (Z.to_nat i) (fr_keys frame)) prng).
    assert (Hpre : length pre = Z.to_nat i).
    { unfold pre. rewrite length_zip_with, length_take. lia. }
    rewrite (drop_S _ _ _ Hk). unfold deinterleave_body.
    rewrite !aget_lookup by lia. rewrite Hp.
    rewrite lookup_app_r, Hpre, Nat.sub_diag by lia. cbn [lookup list_lookup mbind option_bind].
    pose proof (Forall_lookup_1 _ _ _ _ Hpb Hp) as Hp8. pose proof (u8_range (k - 48)) as Hk8.
    rewrite mathmod10_spec by (unfold is_u8 in *; lia). cbn [mbind option_bind].
    rewrite aset_in by (rewrite length_app; cbn [length]; lia).
    eexists. split; [reflexivity|]. rewrite insert_app_r_alt, Hpre, Nat.sub_diag by lia.
    cbn [insert list_insert]. replace (Z.to_nat (i + 1)) with (S (Z.to_nat i)) by lia.
    rewrite (take_S_r _ _ _ Hk).
    rewrite zip_with_app_l, length_take, Nat.min_l by (pose proof (lookup_lt_Some _ _ _ Hk); lia).
    rewrite (drop_S _ _ _ Hp). cbn [zip_with]. rewrite <- app_assoc. f_equal.
    unfold pre. rewrite zip_with_take_r'; [done|]. rewrite length_take. lia.
  - done.
Qed.

(** ** The encoder *)

(** The eight digits of type, compressed ID and body. *)
Definition activation_body (m : nexus_keycode_pro_full_message) : list Z :=
  dec_digits 1 (fm_type_code m) ++ dec_digits 2 (fm_full_message_id m mod 64) ++
  dec_digits 5 (fm_body m).

Definition activation_keys (m : nexus_keycode_pro_full_message) : list Z :=
  zip_with interleave_key (activation_body m)
    (prng_ref NEXUS_INTEGRITY_CHECK_FIXED_00_KEY (le_bytes 4 (fm_check m)) 8) ++
  dec_digits 6 (fm_check m).

(** The messages a fourteen-digit code can carry. *)
Definition encodable (m : nexus_keycode_pro_full_message) : Prop :=
  0 ≤ fm_check m < 1000000 ∧
  (fm_type_code m = 0 ∨ fm_type_code m = 1 ∨ fm_type_code m = 3) ∧ 0 ≤ fm_body m < 100000 ∨
  0 ≤ fm_check m < 1000000 ∧ fm_type_code m = 2 ∧ 0 ≤ fm_body m < 10.

Lemma activation_body_length m : length (activation_body m) = 8%nat.
Proof. unfold activation_body. by rewrite !length_app, !dec_digits_length. Qed.

Lemma activation_keys_length m : length (activation_keys m) = 14%nat.
Proof.
  unfold activation_keys. rewrite length_app, length_zip_with, activation_body_length, dec_digits_length.
  by rewrite prng_ref_length by lia.
Qed.

Lemma deinterleaved_activation m pad :
  is_u32 (fm_check m) →
  deinterleaved (activation_keys m ++ pad)
    (prng_ref NEXUS_INTEGRITY_CHECK_FIXED_00_KEY (le_bytes 4 (fm_check m)) 8) =
  activation_body m ++ dec_digits 6 (fm_check m) ++ pad.
Proof.
  intros Hc. unfold deinterleaved, activation_keys.
  set (prng := prng_ref _ _ 8). assert (Hpl : length prng = 8%nat) by (unfold prng; by rewrite prng_ref_length by lia).
  pose proof (activation_body_length m) as Hbl.
  assert (Hzl : length (zip_with interleave_key (activation_body m) prng) = 8%nat) by (rewrite length_zip_with; lia).
  rewrite <- app_assoc, <- Hzl, take_app_length, drop_app_length, deinterleave_zip; [done| | |by rewrite Hbl].
  - unfold activation_body. rewrite !Forall_app. split_and!; apply dec_digits_ok.
  - apply prng_ref_ok.
Qed.

(** ** The check field *)

(** The character array after the copy of the frame's keys. *)
Lemma digit_chars_spec (n : nat) garbage frame :
  (n ≤ length garbage)%nat → length (fr_keys frame) = 30%nat → 0 ≤ fr_length frame ≤ 30 →
  (Z.to_nat (fr_length frame) ≤ n)%nat →
  digit_chars n garbage frame =
  Some (take (Z.to_nat (fr_length frame)) (fr_keys frame) ++
        drop (Z.to_nat (fr_length frame)) (take n garbage)).
Proof.
  intros Hg Hk Hl Hn. unfold digit_chars. rewrite slice_in by lia. cbn [mbind option_bind].
  rewrite drop_0, memcpy_at_in by (rewrite !length_take; lia).
  rewrite take_0, length_take, Nat.min_l by lia. done.
Qed.

Lemma interleaved_digits m :
  Forall is_digit_char (activation_keys m).
Proof.
  unfold activation_keys. apply Forall_app. split; [|apply dec_digits_ok].
  apply interleave_zip_digits.
Qed.

Lemma skip_digits chars len n pos :
  Forall is_digit_char (take (n + pos) chars) → Z.of_nat (n + pos) ≤ len →
  len ≤ Z.of_nat (length chars) → len < 65536 →
  for_loop n (Z.of_nat pos) skip_digit_body (digits_at chars len (Z.of_nat pos)) =
  Some (digits_at chars len (Z.of_nat (n + pos))).
Proof.
  revert pos. induction n as [|n IH]; intros pos Hd Hfit Hlen H16; [done|].
  destruct (lookup_lt_is_Some_2 chars pos) as [k Hk]; [lia|].
  assert (Hkd : is_digit_char k).
  { apply (Forall_lookup_1 _ _ pos k Hd). by rewrite lookup_take_lt by lia. }
  assert (Hbody : skip_digit_body (Z.of_nat pos) (digits_at chars len (Z.of_nat pos)) =
                  Some (digits_at chars len (Z.of_nat pos + 1))).
  { unfold skip_digit_body. rewrite (pull8_at chars len (Z.of_nat pos) 1 [k]); [done|].
    split; [|by constructor|lia..]. unfold next_digits. cbn [dg_position dg_chars digits_at].
    by rewrite Nat2Z.id, (drop_S _ _ _ Hk). }
  cbn [for_loop]. rewrite Hbody. cbn [mbind option_bind].
  replace (Z.of_nat pos + 1) with (Z.of_nat (S pos)) by lia.
  rewrite IH; [do 2 f_equal; lia|by rewrite Nat.add_succ_r|lia..].
Qed.

Definition activation_frame (m : nexus_keycode_pro_full_message) (pad : list Z) : nexus_keycode_frame :=
  mk_frame (activation_keys m ++ pad) 14.

Lemma check_field_spec m pad garbage :
  0 ≤ fm_check m < 1000000 → length pad = 16%nat → (30 ≤ length garbage)%nat →
  nexus_keycode_pro_full_check_field_from_frame garbage (activation_frame m pad) = Some (fm_check m).
Proof.
  intros Hc Hpad Hg. unfold nexus_keycode_pro_full_check_field_from_frame.
  pose proof (activation_keys_length m) as Hkl.
  assert (Hfl : length (activation_keys m ++ pad) = 30%nat) by (rewrite length_app; lia).
  rewrite digit_chars_spec; [|done|done|cbn [fr_length activation_frame]; lia|cbn [fr_length activation_frame]; lia]. cbn [mbind option_bind fr_length fr_keys activation_frame].
  change (Z.to_nat 14) with 14%nat. rewrite take_app_le, take_ge by lia.
  set (chars := activation_keys m ++ _).
  assert (Hcl : (30 ≤ length chars)%nat)
    by (unfold chars; rewrite length_app, length_drop, length_take; lia).
  change (14 - NEXUS_KEYCODE_PRO_FULL_CHECK_CHARACTER_COUNT <? 0) with false. cbv iota beta zeta.
  change (Z.to_nat (14 - NEXUS_KEYCODE_PRO_FULL_CHECK_CHARACTER_COUNT)) with 8%nat.
  change (nexus_digits_init chars 14) with (digits_at chars 14 (Z.of_nat 0)).
  change (for_loop 8 0) with (for_loop (A := nexus_digits) 8 (Z.of_nat 0)).
  rewrite skip_digits; [|unfold chars; rewrite take_app_le by (rewrite Hkl; lia);
    apply Forall_take, interleaved_digits|lia..].
  cbn [mbind option_bind]. change (Z.of_nat (8 + 0)) with 8.
  rewrite (pull32_at chars 14 8 NEXUS_KEYCODE_PRO_FULL_CHECK_CHARACTER_COUNT (dec_digits 6 (fm_check m))).
  - cbn [mbind option_bind]. f_equal. rewrite dec_val_digits by lia. apply Z.mod_small. by pow_const.
  - split; [|apply dec_digits_ok|unfold NEXUS_KEYCODE_PRO_FULL_CHECK_CHARACTER_COUNT; lia..].
    unfold chars, activation_keys. rewrite <- app_assoc.
    match goal with |- context [zip_with ?f ?b ?p ++ _] => set (pre := zip_with f b p) end.
    change 8 with (Z.of_nat 8). replace 8%nat with (length pre);
      [apply next_digits_at; by rewrite dec_digits_length|].
    unfold pre. rewrite length_zip_with, activation_body_length, prng_ref_length by lia. done.
Qed.

(** ** Parsing an activation frame *)

Section Parse.
Context {P : Type} `{Product P} `{KeycodeConfig}.

(** The digits of the message, after the deinterleaving, in the parser's
    14-character array. *)
Definition plain_chars (m : nexus_keycode_pro_full_message) : list Z :=
  activation_body m ++ dec_digits 6 (fm_check m).

Lemma plain_chars_spec m pad garbage :
  length pad = 16%nat → (30 ≤ length garbage)%nat →
  digit_chars 14 garbage (mk_frame (activation_body m ++ dec_digits 6 (fm_check m) ++ pad) 14) =
  Some (plain_chars m).
Proof.
  intros Hpad Hg. pose proof (activation_body_length m) as Hb.
  rewrite digit_chars_spec; cbn [fr_length fr_keys]; [|lia| |lia..].
  - change (Z.to_nat 14) with 14%nat. rewrite (drop_ge (take 14 _)) by (rewrite length_take; lia).
    rewrite app_nil_r. unfold plain_chars. rewrite !take_app, Hb, dec_digits_length.
    cbn [Nat.sub]. rewrite take_0, app_nil_r, !take_ge by (rewrite ?Hb, ?dec_digits_length; lia). done.
  - rewrite !length_app, Hb, dec_digits_length. lia.
Qed.

Lemma pull_plain m pre ds post pos n :
  plain_chars m = pre ++ ds ++ post → pos = Z.of_nat (length pre) →
  n = Z.of_nat (length ds) → (length ds ≤ 9)%nat → Forall is_digit_char ds →
  pullable (plain_chars m) 14 pos n ds.
Proof.
  intros E -> -> Hn Hd.
  assert (Hl : length (plain_chars m) = 14%nat)
    by (unfold plain_chars; rewrite length_app, activation_body_length, dec_digits_length; done).
  pose proof Hl as Hl'. rewrite E, !length_app in Hl'. split; try done; try lia.
  rewrite E. by apply next_digits_at.
Qed.

(** The fields of the message, by position. *)
Ltac plain :=
  first [ apply dec_digits_ok
        | rewrite ?length_app, ?activation_body_length, ?dec_digits_length; cbn; lia
        | unfold plain_chars, activation_body; by rewrite ?app_nil_r, <- ?app_assoc ].

Lemma plain_type m : pullable (plain_chars m) 14 0 1 (dec_digits 1 (fm_type_code m)).
Proof.
  apply (pull_plain m [] _ (dec_digits 2 (fm_full_message_id m mod 64) ++ dec_digits 5 (fm_body m) ++
    dec_digits 6 (fm_check m))); plain.
Qed.

Lemma plain_id m : pullable (plain_chars m) 14 1 2 (dec_digits 2 (fm_full_message_id m mod 64)).
Proof.
  apply (pull_plain m (dec_digits 1 (fm_type_code m)) _ (dec_digits 5 (fm_body m) ++
    dec_digits 6 (fm_check m))); plain.
Qed.

Lemma plain_body m : pullable (plain_chars m) 14 3 5 (dec_digits 5 (fm_body m)).
Proof.
  apply (pull_plain m (dec_digits 1 (fm_type_code m) ++ dec_digits 2 (fm_full_message_id m mod 64)) _
    (dec_digits 6 (fm_check m))); plain.
Qed.

Lemma plain_check m : pullable (plain_chars m) 14 8 6 (dec_digits 6 (fm_check m)).
Proof. apply (pull_plain m (activation_body m) _ []); plain. Qed.

(** A wipe code has its target in the last digit of the body. *)
Lemma plain_wipe m :
  pullable (plain_chars m) 14 3 4 (dec_digits 4 (fm_body m / 10)) ∧
  pullable (plain_chars m) 14 7 1 (dec_digits 1 (fm_body m)).
Proof.
  assert (Hsplit : dec_digits 5 (fm_body m) = dec_digits 4 (fm_body m / 10) ++ dec_digits 1 (fm_body m)) by done.
  assert (Heq : plain_chars m = (dec_digits 1 (fm_type_code m) ++ dec_digits 2 (fm_full_message_id m mod 64)) ++
    dec_digits 4 (fm_body m / 10) ++ dec_digits 1 (fm_body m) ++ dec_digits 6 (fm_check m)).
  { unfold plain_chars, activation_body. by rewrite Hsplit, <- !app_assoc. }
  split.
  - apply (pull_plain m _ _ _ _ _ Heq); plain.
  - rewrite (app_assoc _ (dec_digits 4 _)) in Heq. apply (pull_plain m _ _ _ _ _ Heq); plain.
Qed.

Lemma parse_activation_spec m (s : keycode_pro P) pad garbage parsed :
  encodable m → pd_ok (pro_stored s) → id_in_window (pro_stored s) (fm_full_message_id m) →
  length pad = 16%nat → (30 ≤ length garbage)%nat →
  nexus_keycode_pro_full_parse_activation garbage (activation_frame m pad) parsed s =
  Some ((true, m), s).
Proof.
  intros He Hpd Hin Hpad Hg. unfold nexus_keycode_pro_full_parse_activation.
  assert (Hc : 0 ≤ fm_check m < 1000000) by (destruct He as [[??]|[??]]; done).
  rewrite (bind_lift _ _ _ _ (check_field_spec m pad garbage Hc Hpad Hg)).
  pose proof (activation_keys_length m) as Hkl.
  rewrite (bind_lift _ _ (mk_frame (activation_body m ++ dec_digits 6 (fm_check m) ++ pad) 14)).
  2: { rewrite deinterleave_spec; [|wrap|cbn [fr_keys activation_frame]; rewrite length_app; lia].
       cbn [fr_keys fr_length activation_frame]. by rewrite deinterleaved_activation by wrap. }
  rewrite (bind_lift _ _ _ _ (plain_chars_spec m pad garbage Hpad Hg)).
  cbn [fr_length]. change (nexus_digits_init (plain_chars m) 14) with (digits_at (plain_chars m) 14 0).
  assert (Hid : 0 ≤ fm_full_message_id m mod 64 < 64) by lia.
  rewrite (bind_lift _ _ _ _ (pull8_at _ _ _ _ _ (plain_type m))). cbv beta iota zeta. change (0 + 1) with 1.
  rewrite (bind_lift _ _ _ _ (pull8_at _ _ _ _ _ (plain_id m))). cbv beta iota zeta. change (1 + 2) with 3.
  rewrite !dec_val_digits by (destruct He as [(_ & ? & _)|(_ & ? & _)]; lia).
  assert (Ht : fm_type_code m mod 10 ^ Z.of_nat 1 = fm_type_code m)
    by (apply Z.mod_small; pow_const; destruct He as [(_ & ? & _)|(_ & ? & _)]; lia).
  rewrite (Z.mod_small (fm_full_message_id m mod 64)) by (pow_const; lia).
  rewrite Ht, !Z.min_r by (destruct He as [(_ & ? & _)|(_ & ? & _)]; lia).
  rewrite (proj2 (Z.ltb_ge _ _)) by
    (unfold NEXUS_KEYCODE_PRO_RECEIVE_WINDOW_AFTER_PD, NEXUS_KEYCODE_PRO_RECEIVE_WINDOW_BEFORE_PD; lia).
  unfold nexus_keycode_pro_get_current_pd_index. erewrite bind_Some by reflexivity.
  destruct (window_id_spec (pd_index (pro_stored s)) _ Hid) as (_ & _ & Huniq).
  unfold pd_ok, id_in_window in *.
  rewrite (bind_lift _ _ _ _ (infer_full_message_id_spec _ (pd_index (pro_stored s)) ltac:(lia) ltac:(lia) Hid)).
  rewrite <- (Huniq (fm_full_message_id m)) by done. cbv zeta.
  change NEXUS_KEYCODE_PRO_FULL_ACTIVATION_ADD_CREDIT with 0.
  change NEXUS_KEYCODE_PRO_FULL_ACTIVATION_SET_CREDIT with 1.
  change NEXUS_KEYCODE_PRO_FULL_ACTIVATION_WIPE_STATE with 2.
  change NEXUS_KEYCODE_PRO_FULL_ACTIVATION_DEMO_CODE with 3.
  pose proof (pull32_at _ _ _ _ _ (plain_check m)) as Hck.
  rewrite dec_val_digits, Z.mod_small in Hck by (try pow_const; lia).
  destruct He as [(_ & He & Hb)|(_ & He & Hb)].
  - rewrite (proj2 (orb_true_iff _ _)) by (rewrite orb_true_iff, !Z.eqb_eq; lia).
    rewrite (bind_lift _ _ _ _ (pull32_at _ _ _ _ _ (plain_body m))).
    cbv beta iota zeta. rewrite (bind_lift _ _ _ _ Hck).
    rewrite dec_val_digits, Z.mod_small by (try pow_const; lia). by destruct m.
  - destruct (plain_wipe m) as [Hw1 Hw2]. rewrite He. cbn [orb Z.eqb Pos.eqb].
    rewrite (bind_lift _ _ _ _ (pull32_at _ _ _ _ _ Hw1)). cbv beta iota zeta.
    rewrite (bind_lift _ _ _ _ (pull8_at _ _ _ _ _ Hw2)).
    cbv beta iota zeta. rewrite (bind_lift _ _ _ _ Hck).
    rewrite dec_val_digits, Z.mod_small, Z.min_r by (try pow_const; lia). destruct m; cbn in *. by subst.
Qed.
End Parse.

(** ** Any frame at all *)

Lemma pull32_safe chars len pos n :
  0 ≤ pos → 0 ≤ n → pos + n ≤ Z.of_nat (length chars) → Z.of_nat (length chars) < 65536 →
  ∃ v, is_u32 v ∧
    nexus_digits_pull_uint32 n (digits_at chars len pos) = Some (v, digits_at chars len (pos + n)).
Proof.
  intros Hp Hn Hf Hl. eexists. split; [|rewrite pull_uint32_spec by (cbn; lia); reflexivity].
  apply u32_range.
Qed.

Lemma pull8_safe chars len pos n :
  0 ≤ pos → 0 ≤ n → pos ≤ len → len ≤ Z.of_nat (length chars) → Z.of_nat (length chars) < 65536 →
  ∃ v pos', is_u8 v ∧
    nexus_digits_pull_uint8 n (digits_at chars len pos) = Some (v, digits_at chars len pos') ∧
    pos' = if len - pos <? n then pos else pos + n.
Proof.
  intros Hp Hn Hpl Hf Hl. unfold nexus_digits_pull_uint8, nexus_digits_remaining.
  erewrite bind_Some by reflexivity. cbn [dg_length dg_position digits_at]. rewrite u16_small by wrap.
  destruct (Z.ltb_spec (len - pos) n).
  - exists 255, pos. split_and!; [wrap|done|done].
  - destruct (pull32_safe chars len pos n) as (v & Hv & Hrun); [lia..|].
    rewrite (bind_Some _ _ _ _ _ Hrun). unfold UINT8_MAX.
    destruct (Z.ltb_spec 255 v).
    + exists 255, (pos + n). split_and!; [wrap|done|done].
    + exists (u8 v), (pos + n). split_and!; [apply u8_range|done|done].
Qed.

(** A pull of one digit inside the length moves by one. *)
Lemma skip_safe chars len n pos :
  0 ≤ pos → pos + Z.of_nat n ≤ len → len ≤ Z.of_nat (length chars) → Z.of_nat (length chars) < 65536 →
  for_loop n pos skip_digit_body (digits_at chars len pos) = Some (digits_at chars len (pos + Z.of_nat n)).
Proof.
  revert pos. induction n as [|n IH]; intros pos Hp Hf Hl H16; [by rewrite Z.add_0_r|].
  destruct (pull8_safe chars len pos 1) as (v & pos' & _ & Hrun & ->); [lia..|].
  assert (Hbody : skip_digit_body pos (digits_at chars len pos) = Some (digits_at chars len (pos + 1))).
  { unfold skip_digit_body. rewrite Hrun. cbn [mbind option_bind].
    by replace (len - pos <? 1) with false by lia. }
  cbn [for_loop]. rewrite Hbody. cbn [mbind option_bind]. rewrite IH by lia. do 2 f_equal. lia.
Qed.

Lemma check_field_safe garbage frame :
  frame_ok frame → (30 ≤ length garbage)%nat → 14 ≤ fr_length frame →
  ∃ v, is_u32 v ∧ nexus_keycode_pro_full_check_field_from_frame garbage frame = Some v.
Proof.
  intros [Hk Hl] Hg Hlen. unfold NEXUS_KEYCODE_MAX_MESSAGE_LENGTH in *.
  unfold nexus_keycode_pro_full_check_field_from_frame.
  rewrite digit_chars_spec by (done || lia). cbn [mbind option_bind].
  set (chars := take _ _ ++ _).
  assert (Hcl : Z.of_nat (length chars) = 30).
  { unfold chars. rewrite length_app, length_drop, !length_take. lia. }
  change NEXUS_KEYCODE_PRO_FULL_CHECK_CHARACTER_COUNT with 6.
  replace (fr_length frame - 6 <? 0) with false by lia.
  change (nexus_digits_init chars (fr_length frame)) with (digits_at chars (fr_length frame) 0).
  rewrite skip_safe by lia. cbn [mbind option_bind].
  destruct (pull32_safe chars (fr_length frame) (0 + Z.of_nat (Z.to_nat (fr_length frame - 6))) 6)
    as (v & Hv & ->); [lia..|]. by exists v.
Qed.

Section Total.
Context {P : Type} `{ProductLaws P} `{!ReliableNv P} `{KeycodeConfigOk}.

(** Any fourteen keys parse without a state change, and a message that
    parses has an ID in the window. *)
Lemma parse_activation_safe garbage frame (s : keycode_pro P) :
  frame_ok frame → (30 ≤ length garbage)%nat → fr_length frame = 14 → pd_ok (pro_stored s) →
  ∃ b m, nexus_keycode_pro_full_parse_activation garbage frame full_message_zero s = Some ((b, m), s) ∧
    (b = true → full_message_ok m ∧ fm_type_code m < 4 ∧ id_in_window (pro_stored s) (fm_full_message_id m)).
Proof.
  intros Hf Hg Hlen Hpd. unfold nexus_keycode_pro_full_parse_activation.
  destruct (check_field_safe garbage frame Hf Hg ltac:(lia)) as (c & Hc & Hcheck).
  rewrite (bind_lift _ _ _ _ Hcheck). destruct Hf as [Hk _].
  rewrite (bind_lift _ _ _ _ (deinterleave_spec frame c Hc ltac:(lia))). rewrite Hlen. cbn [fr_keys].
  set (keys := deinterleaved _ _).
  assert (Hkl : length keys = 30%nat).
  { unfold keys, deinterleaved.
    rewrite length_app, length_zip_with, length_take, length_drop, prng_ref_length by lia. lia. }
  rewrite (bind_lift _ _ _ _ (digit_chars_spec 14 garbage (mk_frame keys 14) ltac:(lia) Hkl
    ltac:(cbn; lia) ltac:(cbn; lia))). cbn [fr_length fr_keys].
  set (chars := take (Z.to_nat 14) keys ++ _).
  assert (Hcl : length chars = 14%nat).
  { unfold chars. rewrite length_app, length_drop, !length_take. lia. }
  change (nexus_digits_init chars 14) with (digits_at chars 14 0).
  destruct (pull8_safe chars 14 0 1) as (t & ? & Ht & Hrun & ->); [lia..|].
  rewrite (bind_lift _ _ _ _ Hrun). clear Hrun. change (if 14 - 0 <? 1 then 0 else 0 + 1) with 1.
  destruct (pull8_safe chars 14 1 2) as (i & ? & Hi & Hrun & ->); [lia..|].
  cbv beta iota zeta. rewrite (bind_lift _ _ _ _ Hrun). clear Hrun. change (if 14 - 1 <? 2 then 1 else 1 + 2) with 3.
  cbv beta iota zeta. change (NEXUS_KEYCODE_PRO_RECEIVE_WINDOW_AFTER_PD + NEXUS_KEYCODE_PRO_RECEIVE_WINDOW_BEFORE_PD) with 63.
  destruct (Z.ltb_spec 63 i); [by eexists false, _|].
  unfold nexus_keycode_pro_get_current_pd_index. erewrite bind_Some by reflexivity.
  pose proof Hpd as [Hp1 Hp2].
  rewrite (bind_lift _ _ _ _ (infer_full_message_id_spec i (pd_index (pro_stored s)) ltac:(lia) ltac:(lia) ltac:(wrap))).
  destruct (window_id_spec (pd_index (pro_stored s)) i ltac:(wrap)) as (Hw & _ & _).
  change NEXUS_KEYCODE_PRO_FULL_ACTIVATION_ADD_CREDIT with 0.
  change NEXUS_KEYCODE_PRO_FULL_ACTIVATION_SET_CREDIT with 1.
  change NEXUS_KEYCODE_PRO_FULL_ACTIVATION_WIPE_STATE with 2.
  change NEXUS_KEYCODE_PRO_FULL_ACTIVATION_DEMO_CODE with 3.
  change NEXUS_KEYCODE_PRO_FULL_CHECK_CHARACTER_COUNT with 6.
  destruct (pull32_safe chars 14 8 6) as (cv & _ & Hcv); [lia..|].
  assert (Hdone : ∀ body, is_u32 body → t < 4 →
    full_message_ok (mk_full_message (window_id (pd_index (pro_stored s)) i) t body c) ∧ t < 4 ∧
    id_in_window (pro_stored s) (window_id (pd_index (pro_stored s)) i)).
  { intros body Hb Ht4. split_and!; [|done|apply Hw]. split_and!; cbn; try done. wrap. }
  destruct ((t =? 0) || (t =? 3) || (t =? 1)) eqn:Htype.
  - destruct (pull32_safe chars 14 3 5) as (b & Hb & Hrun); [lia..|].
    rewrite (bind_lift _ _ _ _ Hrun). cbv beta iota zeta. rewrite (bind_lift _ _ _ _ Hcv).
    eexists _, _. split; [reflexivity|]. intros _. apply Hdone; [done|].
    rewrite !orb_true_iff, !Z.eqb_eq in Htype. lia.
  - destruct (Z.eqb_spec t 2); [|by eexists false, _].
    destruct (pull32_safe chars 14 3 4) as (b & _ & Hrun); [lia..|].
    rewrite (bind_lift _ _ _ _ Hrun). clear Hrun. change (3 + 4) with 7.
    destruct (pull8_safe chars 14 7 1) as (b' & ? & Hb' & Hrun & ->); [lia..|].
    cbv beta iota zeta. rewrite (bind_lift _ _ _ _ Hrun). change (if 14 - 7 <? 1 then 7 else 7 + 1) with 8.
    cbv beta iota zeta. rewrite (bind_lift _ _ _ _ Hcv).
    eexists _, _. split; [reflexivity|]. intros _. apply Hdone; [wrap|lia].
Qed.

(** Pulls that need not fit the length, only the array. *)
Lemma pull8_any chars len pos n :
  0 ≤ pos → 0 ≤ n → pos + n ≤ Z.of_nat (length chars) → Z.of_nat (length chars) < 65536 →
  ∃ v pos', is_u8 v ∧ pos ≤ pos' ≤ pos + n ∧
    nexus_digits_pull_uint8 n (digits_at chars len pos) = Some (v, digits_at chars len pos').
Proof.
  intros Hp Hn Hf Hl. unfold nexus_digits_pull_uint8, nexus_digits_remaining.
  erewrite bind_Some by reflexivity. cbn [dg_length dg_position digits_at].
  destruct (_ <? n); [exists 255, pos; split_and!; (done || wrap)|].
  destruct (pull32_safe chars len pos n) as (v & Hv & Hrun); [lia..|].
  rewrite (bind_Some _ _ _ _ _ Hrun). unfold UINT8_MAX.
  destruct (255 <? v); eexists _, (pos + n); (split; [|split; [lia|reflexivity]]); [wrap|apply u8_range].
Qed.

Lemma try_pull_any chars len pos n u :
  0 ≤ pos → 0 ≤ n → pos + n ≤ Z.of_nat (length chars) → Z.of_nat (length chars) < 65536 →
  ∃ v u' pos', is_u32 v ∧ pos ≤ pos' ≤ pos + n ∧
    nexus_digits_try_pull_uint32 n u (digits_at chars len pos) = Some ((v, u'), digits_at chars len pos').
Proof.
  intros Hp Hn Hf Hl. unfold nexus_digits_try_pull_uint32, nexus_digits_remaining.
  erewrite bind_Some by reflexivity. cbn [dg_length dg_position digits_at].
  destruct (_ || _); [exists UINT32_MAX, true, pos; split_and!; (done || lia)|].
  destruct (pull32_safe chars len pos n) as (v & Hv & Hrun); [lia..|].
  rewrite (bind_Some _ _ _ _ _ Hrun). exists v, u, (pos + n). split_and!; (done || lia).
Qed.

(** What a frame that is not fourteen keys long may do to the state: hand
    its keys to the product. *)
Record passthrough_step (s s' : keycode_pro P) : Prop := mk_passthrough_step {
  passthrough_ok : pro_ok s → pro_ok s';
  passthrough_stored : pro_stored s' = pro_stored s;
  passthrough_secret : nxp_keycode_get_secret_key (pro_prod s') = nxp_keycode_get_secret_key (pro_prod s)
}.

Lemma passthrough_step_run keys (s : keycode_pro P) :
  ∃ r s', on_prod (passthrough_keycode keys) s = Some (r, s') ∧ passthrough_step s s'.
Proof.
  unfold on_prod, zoom, passthrough_keycode. cbn [mbind option_bind].
  destruct (nxp_keycode_passthrough_keycode keys (pro_prod s)) as [r p] eqn:E.
  eexists _, _. split; [reflexivity|]. assert (p = (nxp_keycode_passthrough_keycode keys (pro_prod s)).2)
    as -> by by rewrite E.
  split; [|done|by cbn; rewrite passthrough_key].
  intros [Hok Hs]. split; [done|]. unfold synced, saved, nv_stored in *. cbn [pro_prod pro_stored].
  rewrite passthrough_read by (right; left). exact Hs.
Qed.

Lemma parse_factory_safe garbage frame (s : keycode_pro P) :
  frame_ok frame → (30 ≤ length garbage)%nat →
  ∃ b m s', nexus_keycode_pro_full_parse_factory_and_passthrough garbage frame full_message_zero s =
      Some ((b, m), s') ∧ passthrough_step s s' ∧ full_message_ok m ∧ fm_full_message_id m = 0.
Proof.
  intros [Hk Hl] Hg. unfold NEXUS_KEYCODE_MAX_MESSAGE_LENGTH in *.
  unfold nexus_keycode_pro_full_parse_factory_and_passthrough, NEXUS_KEYCODE_MESSAGE_LENGTH_MAX_DIGITS_FULL.
  replace (30 <? fr_length frame) with false by lia.
  rewrite (bind_lift _ _ _ _ (digit_chars_spec 30 garbage frame Hg Hk Hl ltac:(lia))).
  set (chars := take _ _ ++ _).
  assert (Hcl : Z.of_nat (length chars) = 30).
  { unfold chars. rewrite length_app, length_drop, !length_take. lia. }
  set (len := fr_length frame) in *.
  change (nexus_digits_init chars len) with (digits_at chars len 0).
  assert (Hrefl : passthrough_step s s) by by split.
  destruct (try_pull_any chars len 0 1 false) as (t32 & u & pos & Ht32 & Hpos & Hrun); [lia..|].
  rewrite (bind_lift _ _ _ _ Hrun). clear Hrun. cbv beta iota zeta.
  pose proof (u8_range t32) as Ht. set (t := u8 t32) in *.
  assert (Hm : ∀ body c, is_u32 body → full_message_ok (mk_full_message 0 t body c)).
  { intros. split_and!; cbn; (done || wrap). }
  change NEXUS_KEYCODE_PRO_FULL_FACTORY_NOMAC_DEVICE_ID_CONFIRMATION with 7.
  change NEXUS_KEYCODE_PRO_FULL_FACTORY_QC_TEST with 5.
  change NEXUS_KEYCODE_PRO_FULL_CHECK_CHARACTER_COUNT with 6.
  change NEXUS_KEYCODE_PRO_FULL_PASSTHROUGH_COMMAND with 8.
  destruct (Z.ltb_spec t 7).
  { assert (Hbody : ∃ body pos', is_u32 body ∧ 0 ≤ pos' ≤ 6 ∧
      (if t =? 5 then '(_, digits) ← lift (nexus_digits_pull_uint32 3 (digits_at chars len pos));
                      lift (nexus_digits_pull_uint8 2 digits)
       else mret (fm_body full_message_zero, digits_at chars len pos)) s =
      Some ((body, digits_at chars len pos'), s)).
    { destruct (t =? 5); [|exists 0, pos; split_and!; (done || wrap)].
      destruct (pull32_safe chars len pos 3) as (v & _ & Hrun); [lia..|].
      rewrite (bind_lift _ _ _ _ Hrun).
      destruct (pull8_any chars len (pos + 3) 2) as (v' & pos' & Hv' & Hpos' & Hrun'); [lia..|].
      exists v', pos'. split_and!; [wrap|lia|lia|]. unfold lift. by rewrite Hrun'. }
    destruct Hbody as (body & pos' & Hb & Hpos' & Hrun). rewrite (bind_Some _ _ _ _ _ Hrun). clear Hrun.
    destruct (try_pull_any chars len pos' 6 u) as (c & u' & pos'' & Hc & _ & Hrun); [lia..|].
    cbv beta iota zeta. rewrite (bind_lift _ _ _ _ Hrun).
    eexists _, _, s. split; [reflexivity|]. split; [done|]. split; [by apply Hm|done]. }
  destruct (Z.eqb_spec t 7).
  { unfold NEXUS_KEYCODE_PRO_FULL_DEVICE_ID_MIN_CHARACTER_COUNT,
      NEXUS_KEYCODE_PRO_FULL_DEVICE_ID_MAX_CHARACTER_COUNT.
    destruct (Z.ltb_spec (u8 (len - 1)) 8); [eexists false, _, s; split; [reflexivity|]; split; [done|split; [by apply Hm|done]]|].
    destruct (Z.ltb_spec 10 (u8 (len - 1))); [eexists false, _, s; split; [reflexivity|]; split; [done|split; [by apply Hm|done]]|].
    cbn [orb].
    destruct (try_pull_any chars len pos (u8 (len - 1)) u) as (c & u' & pos'' & Hc & _ & Hrun); [lia..|].
    rewrite (bind_lift _ _ _ _ Hrun).
    eexists _, _, s. split; [reflexivity|]. split; [done|]. split; [by apply Hm|done]. }
  destruct (Z.eqb_spec t 8).
  { cbn [dg_length digits_at dg_position dg_chars]. destruct (Z.ltb_spec 2 len); cbn [andb].
    - destruct (negb _).
      + assert (Hfit : (Z.to_nat pos + Z.to_nat (u8 (len - pos)) ≤ length chars)%nat).
        { rewrite u8_small by wrap. lia. }
        rewrite (bind_lift _ _ _ _ (slice_in _ _ _ Hfit)).
        destruct (passthrough_step_run (take (Z.to_nat (u8 (len - pos))) (drop (Z.to_nat pos) chars)) s)
          as (r & s' & Hrun & Hs'). rewrite (bind_Some _ _ _ _ _ Hrun).
        eexists _, _, s'. split; [reflexivity|]. split; [done|]. split; [by apply Hm|done].
      + eexists false, _, s. split; [reflexivity|]; split; [done|split; [by apply Hm|done]].
    - eexists false, _, s. split; [reflexivity|]; split; [done|split; [by apply Hm|done]]. }
  eexists _, _, s. split; [reflexivity|]. split; [done|]. split; [by apply Hm|done].
Qed.
End Total.
