(* ===== verification/KeycodeFullTotal.v ===== *)
(** * Full-keypad keycodes from the key presses to the product

    [nexus_keycode_pro_full_parse_and_apply] as a whole: it returns on every
    frame, whatever the window and the uninitialised array hold, and an encoded
    message has the effect of the message. *)


From S2P Require Import Prelude Crc Siphash Digits Window Check NvBlock Product Nv KeycodeState KeycodeWindow KeycodeInfer KeycodeEffects.
From S2P Require Import KeycodeFull KeycodeFullApply KeycodeFullParse.
Local Open Scope Z_scope.

Section FullTotal.
Context {P : Type} `{ProductLaws P} `{!ReliableNv P} `{KeycodeConfigOk}.

(** ** Every activation message returns *)

Lemma apply_activation_returns m (s : keycode_pro P) :
  pro_ok s → pd_ok (pro_stored s) → returns (nexus_keycode_pro_full_apply_activation m) s.
Proof.
  intros Hok Hpd. unfold nexus_keycode_pro_full_apply_activation, returns.
  rewrite (bind_Some _ _ _ _ _ (get_flag_spec _ s (proj1 Hok) Hpd (proj2 Hok) (u16_range _))).
  fold (returns (if id_flag (pro_stored s) (u16 (fm_full_message_id m))
    then mret NEXUS_KEYCODE_PRO_RESPONSE_VALID_DUPLICATE else activation_effect m) s).
  destruct (id_flag _ _); [by apply returns_ret|].
  assert (Hend : ∀ r s1, pro_ok s1 → returns (mret r) s1) by apply returns_ret.
  destruct (set_flag_any (u16 (fm_full_message_id m)) s Hok Hpd (u16_range _)) as (sf & Hsf & Hkf).
  destruct (mask_below_any (u16 (fm_full_message_id m + 1)) s Hok Hpd (u16_range _)) as (sm & Hsm & Hkm).
  pose proof (kept_ok _ _ Hkm) as Hokm.
  unfold activation_effect. cbv zeta. unfold payg_state, payg_credit_add, payg_credit_set, payg_credit_unlock.
  destruct (_ =? NEXUS_KEYCODE_PRO_FULL_ACTIVATION_ADD_CREDIT).
  { apply (returns_bind _ _ _ _ Hsf (kept_key _ _ Hkf)).
    pose proof (kept_ok _ _ Hkf) as Hokf. unfold returns. erewrite bind_Some by reflexivity.
    case_bool_decide; [apply returns_prod; auto using credit_add_frame|by apply returns_ret]. }
  destruct (_ =? NEXUS_KEYCODE_PRO_FULL_ACTIVATION_DEMO_CODE).
  { unfold returns. erewrite bind_Some by reflexivity.
    case_bool_decide; [apply returns_prod; auto using credit_add_frame|by apply returns_ret]. }
  destruct (_ =? NEXUS_KEYCODE_PRO_FULL_ACTIVATION_SET_CREDIT).
  { apply (returns_bind _ _ _ _ Hsm (kept_key _ _ Hkm)).
    destruct (fm_body m =? _); apply returns_prod; auto using credit_set_frame, unlock_frame. }
  destruct (_ =? NEXUS_KEYCODE_PRO_FULL_ACTIVATION_WIPE_STATE); [|by apply returns_ret].
  apply (returns_bind _ _ _ _ Hsm (kept_key _ _ Hkm)).
  destruct (wipe_ids_spec sm (proj1 Hokm)) as (sw & Hw & Hokw & Hstw & _).
  destruct (_ =? NEXUS_KEYCODE_PRO_FULL_WIPE_STATE_TARGET_CREDIT_AND_MASK).
  { apply (returns_bind _ _ _ _ Hw); [apply Hstw|]. apply returns_prod; auto using credit_set_frame. }
  destruct (_ =? NEXUS_KEYCODE_PRO_FULL_WIPE_STATE_TARGET_CREDIT);
    [apply returns_prod; auto using credit_set_frame|].
  destruct (_ =? NEXUS_KEYCODE_PRO_FULL_WIPE_STATE_TARGET_MASK_ONLY).
  { apply (returns_bind _ _ _ _ Hw); [apply Hstw|auto]. }
  destruct (_ =? NEXUS_KEYCODE_PRO_FULL_WIPE_CUSTOM_FLAG_RESTRICTED); [|auto].
  destruct (reset_custom_flag_spec NX_KEYCODE_CUSTOM_FLAG_RESTRICTED sm (proj1 Hokm)) as
    (sr & Hr & Hokr & _ & _ & Hkr).
  apply (returns_bind _ _ _ _ Hr Hkr). auto.
Qed.

Lemma full_apply_returns m (s : keycode_pro P) :
  full_message_ok m → pro_ok s → pd_ok (pro_stored s) → returns (nexus_keycode_pro_full_apply m) s.
Proof.
  intros Hm Hok Hpd. unfold returns. rewrite full_apply_unfold by done.
  destruct (negb _ && _); [by apply returns_ret|].
  destruct (_ <? 4); [by apply apply_activation_returns|].
  destruct (apply_factory_step m s Hok) as (r & s' & -> & [? ? _ _]). by exists r, s'.
Qed.

(** ** Factory frames *)

(** The keys of a message that is not an activation message: the type, for
    QC codes three reserved digits and the minutes, and the check. *)
Definition factory_body (m : nexus_keycode_pro_full_message) (reserved : Z) : list Z :=
  if fm_type_code m =? 5 then dec_digits 3 reserved ++ dec_digits 2 (fm_body m) else [].
Definition factory_keys (m : nexus_keycode_pro_full_message) (reserved : Z) : list Z :=
  dec_digits 1 (fm_type_code m) ++ factory_body m reserved ++ dec_digits 6 (fm_check m).
Definition factory_frame (m : nexus_keycode_pro_full_message) (reserved : Z) (pad : list Z) : nexus_keycode_frame :=
  mk_frame (factory_keys m reserved ++ pad) (Z.of_nat (length (factory_keys m reserved))).

(** Messages with a seven-key code, and QC codes of twelve keys. *)
Definition factory_encodable (m : nexus_keycode_pro_full_message) : Prop :=
  fm_full_message_id m = 0 ∧ 0 ≤ fm_type_code m < 7 ∧ 0 ≤ fm_check m < 1000000 ∧
  if fm_type_code m =? 5 then 0 ≤ fm_body m < 100 else fm_body m = 0.

Lemma factory_body_length m reserved :
  length (factory_body m reserved) = if fm_type_code m =? 5 then 5%nat else 0%nat.
Proof. unfold factory_body. destruct (_ =? 5); [|done]. by rewrite length_app, !dec_digits_length. Qed.

Lemma pullable_app pre ds post len n :
  n = Z.of_nat (length ds) → n ≤ 9 → Forall is_digit_char ds →
  Z.of_nat (length pre) + n ≤ len → len ≤ Z.of_nat (length (pre ++ ds ++ post)) → len < 65536 →
  pullable (pre ++ ds ++ post) len (Z.of_nat (length pre)) n ds.
Proof. intros. split; try (done || lia). by apply next_digits_at. Qed.

Lemma try_pull_at chars len pos n ds :
  pullable chars len pos n ds →
  nexus_digits_try_pull_uint32 n false (digits_at chars len pos) =
  Some ((dec_val ds, false), digits_at chars len (pos + n)).
Proof.
  intros Hp. unfold nexus_digits_try_pull_uint32, nexus_digits_remaining. erewrite bind_Some by reflexivity.
  pose proof (pull32_at _ _ _ _ _ Hp) as Hrun. destruct Hp. cbn [dg_length dg_position digits_at orb].
  rewrite u16_small by wrap. replace (len - pos <? n) with false by lia.
  by rewrite (bind_Some _ _ _ _ _ Hrun).
Qed.

Lemma parse_factory_spec m reserved pad garbage (s : keycode_pro P) :
  factory_encodable m → length (factory_keys m reserved ++ pad) = 30%nat → (30 ≤ length garbage)%nat →
  nexus_keycode_pro_full_parse_factory_and_passthrough garbage (factory_frame m reserved pad)
    full_message_zero s = Some ((true, m), s).
Proof.
  intros (Hid & Ht & Hc & Hb) Hl Hg.
  unfold nexus_keycode_pro_full_parse_factory_and_passthrough, NEXUS_KEYCODE_MESSAGE_LENGTH_MAX_DIGITS_FULL.
  unfold factory_frame. cbn [fr_length]. set (len := Z.of_nat (length (factory_keys m reserved))) in *.
  assert (Hlen : len = 7 + Z.of_nat (length (factory_body m reserved))).
  { unfold len, factory_keys. rewrite !length_app, !dec_digits_length. lia. }
  assert (Hn : Z.to_nat len = length (factory_keys m reserved)) by (unfold len; lia). clearbody len.
  pose proof (factory_body_length m reserved) as Hbl.
  assert (Hl30 : len ≤ 12) by (destruct (fm_type_code m =? 5); lia).
  replace (30 <? len) with false by lia.
  rewrite (bind_lift _ _ _ _ (digit_chars_spec 30 garbage (mk_frame (factory_keys m reserved ++ pad) len) Hg Hl
    ltac:(cbn [fr_length]; lia)
    ltac:(cbn [fr_length]; lia))).
  cbn [fr_length fr_keys].
  rewrite Hn, take_app_length.
  set (post := drop _ (take 30 garbage)).
  assert (Hpl : Z.of_nat (length (factory_keys m reserved ++ post)) = 30).
  { unfold post. rewrite length_app, length_drop, length_take. lia. }
  unfold factory_keys in Hpl |- *. rewrite <- !app_assoc in Hpl |- *.
  change (nexus_digits_init ?c len) with (digits_at c len 0).
  set (chars := dec_digits 1 _ ++ _) in *.
  rewrite (bind_lift _ _ _ _ (try_pull_at _ _ _ _ _
    (pullable_app [] (dec_digits 1 (fm_type_code m)) (factory_body m reserved ++ dec_digits 6 (fm_check m) ++ post)
      len 1 eq_refl ltac:(lia) (dec_digits_ok _ _) ltac:(cbn; lia) ltac:(cbn [app]; fold chars; lia) ltac:(lia)))).
  cbv beta iota zeta. cbn [app]. fold chars. change (Z.of_nat (length []) + 1) with 1.
  rewrite dec_val_digits by lia. rewrite (Z.mod_small (fm_type_code m)) by (pow_const; lia).
  rewrite u8_small by wrap. change NEXUS_KEYCODE_PRO_FULL_FACTORY_NOMAC_DEVICE_ID_CONFIRMATION with 7.
  replace (fm_type_code m <? 7) with true by lia.
  change NEXUS_KEYCODE_PRO_FULL_FACTORY_QC_TEST with 5.
  change NEXUS_KEYCODE_PRO_FULL_CHECK_CHARACTER_COUNT with 6.
  assert (Hck : pullable chars len (1 + Z.of_nat (length (factory_body m reserved))) 6 (dec_digits 6 (fm_check m))).
  { pose proof (pullable_app (dec_digits 1 (fm_type_code m) ++ factory_body m reserved) (dec_digits 6 (fm_check m))
      post len 6) as Hpa. rewrite <- app_assoc, length_app, !dec_digits_length in Hpa. fold chars in Hpa.
    rewrite Nat2Z.inj_add in Hpa. apply Hpa; (apply dec_digits_ok || lia). }
  assert (Hbody : (if fm_type_code m =? 5
       then '(_, digits) ← lift (nexus_digits_pull_uint32 3 (digits_at chars len 1));
            lift (nexus_digits_pull_uint8 2 digits)
       else mret (fm_body full_message_zero, digits_at chars len 1)) s =
      Some ((fm_body m, digits_at chars len (1 + Z.of_nat (length (factory_body m reserved)))), s)).
  { revert Hpl. rewrite Hbl. subst chars. unfold factory_body. destruct (Z.eqb_spec (fm_type_code m) 5) as [H5|Hn5].
    - rewrite <- app_assoc. intros Hpl.
      rewrite (bind_lift _ _ _ _ (pull32_at _ _ _ _ _ (pullable_app (dec_digits 1 (fm_type_code m))
        (dec_digits 3 reserved) (dec_digits 2 (fm_body m) ++ dec_digits 6 (fm_check m) ++ post) len 3
        eq_refl ltac:(lia) (dec_digits_ok _ _) ltac:(rewrite dec_digits_length; lia) ltac:(lia) ltac:(lia)))).
      revert Hpl. rewrite app_assoc. intros Hpl. unfold lift.
      rewrite (pull8_at _ len (Z.of_nat (length (dec_digits 1 (fm_type_code m))) + 3) 2 (dec_digits 2 (fm_body m))).
      + rewrite dec_val_digits, Z.mod_small, Z.min_r by (try pow_const; lia). done.
      + apply (pullable_app (dec_digits 1 (fm_type_code m) ++ dec_digits 3 reserved)); rewrite ?length_app, ?dec_digits_length;
          (apply dec_digits_ok || (rewrite ?length_app, ?dec_digits_length in Hpl; lia)).
    - intros _. by rewrite Hb. }
  rewrite (bind_Some _ _ _ _ _ Hbody). rewrite (bind_lift _ _ _ _ (try_pull_at _ _ _ _ _ Hck)).
  rewrite dec_val_digits, Z.mod_small by (try pow_const; lia).
  unfold mret, M_ret. cbn [negb andb nexus_digits_length_in_digits nexus_digits_position dg_length dg_position digits_at].
  do 2 f_equal. f_equal; [lia|]. destruct m; cbn in *. by subst.
Qed.

(** ** Properties *)

(** Whatever keys are entered, parsing and applying the frame returns (no
    array is overrun and every loop ends), and leaves a well-formed state
    that is saved to NV. *)
Lemma full_frame_returns garbage frame (s : keycode_pro P) :
  frame_ok frame → (30 ≤ length garbage)%nat → pro_ok s → pd_ok (pro_stored s) →
  ∃ r s', nexus_keycode_pro_full_parse_and_apply garbage frame s = Some (r, s') ∧ pro_ok s' ∧
    nxp_keycode_get_secret_key (pro_prod s') = nxp_keycode_get_secret_key (pro_prod s).
Proof.
  intros Hf Hg Hok Hpd. unfold nexus_keycode_pro_full_parse_and_apply, nexus_keycode_pro_full_parse.
  change NEXUS_KEYCODE_MESSAGE_LENGTH_ACTIVATION_MESSAGE_FULL with 14.
  change NEXUS_KEYCODE_PRO_FULL_PASSTHROUGH_COMMAND with 8.
  destruct (Z.eqb_spec (fr_length frame) 14) as [Hlen|_].
  - destruct (parse_activation_safe garbage frame s Hf Hg Hlen Hpd) as (b & m & Hrun & Hm).
    rewrite (bind_Some _ _ _ _ _ Hrun). destruct b; cbn [negb]; [|by eexists _, s].
    destruct (Hm eq_refl) as (Hmok & _). destruct (_ =? 8); [by eexists _, s|].
    by apply full_apply_returns.
  - destruct (parse_factory_safe garbage frame s Hf Hg) as (b & m & s1 & Hrun & [Hok1 Hst1 Hk1] & Hm & _).
    rewrite (bind_Some _ _ _ _ _ Hrun). destruct b; cbn [negb]; [|eexists _, s1; by auto].
    destruct (_ =? 8); [eexists _, s1; by auto|].
    destruct (full_apply_returns m s1 Hm (Hok1 Hok)) as (r & s' & Hrun' & Hok' & Hk'); [by rewrite Hst1|].
    exists r, s'. split; [done|]. split; [done|congruence].
Qed.

(** Entering the fourteen keys that encode a message is applying the
    message: the deinterleaving, the digits and the inference of the full ID
    give back what was encoded, whatever follows the keys in the frame. *)
Lemma full_keycode_applies m pad garbage (s : keycode_pro P) :
  encodable m → pd_ok (pro_stored s) → id_in_window (pro_stored s) (fm_full_message_id m) →
  length pad = 16%nat → (30 ≤ length garbage)%nat →
  nexus_keycode_pro_full_parse_and_apply garbage (activation_frame m pad) s =
  nexus_keycode_pro_full_apply m s.
Proof.
  intros He Hpd Hin Hpad Hg. unfold nexus_keycode_pro_full_parse_and_apply, nexus_keycode_pro_full_parse.
  change (fr_length (activation_frame m pad) =? NEXUS_KEYCODE_MESSAGE_LENGTH_ACTIVATION_MESSAGE_FULL) with true.
  rewrite (bind_Some _ _ _ _ _ (parse_activation_spec m s pad garbage full_message_zero He Hpd Hin Hpad Hg)).
  cbn [negb]. unfold NEXUS_KEYCODE_PRO_FULL_PASSTHROUGH_COMMAND.
  replace (fm_type_code m =? 8) with false; [done|].
  destruct He as [(_ & ? & _)|(_ & ? & _)]; lia.
Qed.

(** Entering the seven keys of a factory message, or the twelve of a QC
    message, is applying the message, whatever the reserved digits are. *)
Lemma full_factory_applies m reserved pad garbage (s : keycode_pro P) :
  factory_encodable m → length (factory_keys m reserved ++ pad) = 30%nat → (30 ≤ length garbage)%nat →
  nexus_keycode_pro_full_parse_and_apply garbage (factory_frame m reserved pad) s =
  nexus_keycode_pro_full_apply m s.
Proof.
  intros He Hl Hg. unfold nexus_keycode_pro_full_parse_and_apply, nexus_keycode_pro_full_parse.
  replace (fr_length (factory_frame m reserved pad) =? NEXUS_KEYCODE_MESSAGE_LENGTH_ACTIVATION_MESSAGE_FULL)
    with false.
  - rewrite (bind_Some _ _ _ _ _ (parse_factory_spec m reserved pad garbage s He Hl Hg)).
    cbn [negb]. unfold NEXUS_KEYCODE_PRO_FULL_PASSTHROUGH_COMMAND. destruct He as (_ & ? & _).
    by replace (fm_type_code m =? 8) with false by lia.
  - symmetry. apply Z.eqb_neq. cbn [factory_frame fr_length]. unfold factory_keys.
    rewrite !length_app, !dec_digits_length, factory_body_length.
    unfold NEXUS_KEYCODE_MESSAGE_LENGTH_ACTIVATION_MESSAGE_FULL. destruct (_ =? 5); lia.
Qed.

(** The SET CREDIT message of a seven-key frame. *)
Definition short_set_credit (p : P) : nexus_keycode_pro_full_message :=
  mk_full_message 0 1 0 (full_check (nxp_keycode_get_secret_key p) (mk_full_message 0 1 0 0)).

Lemma short_set_credit_fields p :
  let m := short_set_credit p in
  fm_full_message_id m = 0 ∧ fm_type_code m = 1 ∧ fm_body m = 0 ∧ fm_check m = full_check (full_key m p) m.
Proof.
  split; [reflexivity|]. split; [reflexivity|]. split; [reflexivity|].
  unfold full_key, short_set_credit. cbn [fm_type_code fm_check]. change (1 <? 4) with true. cbn match.
  apply full_check_contents.
Qed.

(** a seven-key frame of type SET CREDIT is not rejected but taken for an
    activation message with ID 0 and no hours; once the window has moved past
    ID 0 its replay is not noticed, and every entry is applied and clears the
    credit. *)
Theorem full_short_frame_replay pad garbage (s : keycode_pro P) :
  pro_ok s → pd_ok (pro_stored s) → 24 < pd_index (pro_stored s) →
  length pad = 23%nat → (30 ≤ length garbage)%nat →
  ∃ s', nexus_keycode_pro_full_parse_and_apply garbage
          (factory_frame (short_set_credit (pro_prod s)) 0 pad) s =
        Some (NEXUS_KEYCODE_PRO_RESPONSE_VALID_APPLIED, s') ∧
    pro_stored s' = pro_stored s ∧ nxp_common_payg_credit_get_remaining (pro_prod s') = 0 ∧
    nxp_keycode_get_secret_key (pro_prod s') = nxp_keycode_get_secret_key (pro_prod s).
Proof.
  intros [Hok Hsync] Hpd Hlow Hpad Hg. pose proof (short_set_credit_fields (pro_prod s)) as (Hid & Ht & Hb & Hkey).
  generalize dependent (short_set_credit (pro_prod s)). intros m Hid Ht Hb Hkey.
  pose proof (full_check_range (full_key m (pro_prod s)) m) as Hc. rewrite <- Hkey in Hc.
  rewrite full_factory_applies; [| | |done].
  2: { unfold factory_encodable. rewrite Hid, Ht. split; [reflexivity|]. split; [lia|]. split; [exact Hc|exact Hb]. }
  2: { unfold factory_keys, factory_body. rewrite Ht, !length_app, !dec_digits_length, Hpad. done. }
  rewrite full_apply_unfold by (unfold full_message_ok; rewrite Hid, Ht, Hb; split_and!; wrap).
  rewrite Ht. change (1 <? 7) with true. change (1 <? 4) with true.
  rewrite Hkey, Z.eqb_refl. cbn [negb andb]. unfold nexus_keycode_pro_full_apply_activation.
  rewrite (bind_Some _ _ _ _ _ (get_flag_spec (u16 (fm_full_message_id m)) s Hok Hpd Hsync (u16_range _))).
  rewrite Hid, Ht, Hb. assert (Hflag : id_flag (pro_stored s) (u16 0) = false).
  { unfold id_flag. change (u16 0) with 0.
    by replace (pd_index (pro_stored s) - 23 <=? 0) with false by lia. }
  rewrite Hflag. cbv zeta.
  change (1 =? NEXUS_KEYCODE_PRO_FULL_ACTIVATION_ADD_CREDIT) with false.
  change (1 =? NEXUS_KEYCODE_PRO_FULL_ACTIVATION_DEMO_CODE) with false.
  change (1 =? NEXUS_KEYCODE_PRO_FULL_ACTIVATION_SET_CREDIT) with true. cbn match.
  assert (Hmask : nexus_keycode_pro_mask_below_message_id (u16 (0 + 1)) s = Some (tt, s)).
  { change (u16 (0 + 1)) with 1. unfold nexus_keycode_pro_mask_below_message_id.
    change (1 =? 0) with false. cbn match. cbv zeta. erewrite bind_Some by reflexivity.
    unfold NEXUS_KEYCODE_PRO_RECEIVE_WINDOW_BEFORE_PD. destruct Hpd. rewrite u32_small by wrap.
    by replace (1 <? pd_index (pro_stored s) - 23) with true by lia. }
  rewrite (bind_Some _ _ _ _ _ Hmask).
  change (0 =? NEXUS_KEYCODE_PRO_FULL_UNLOCK_INCREMENT) with false.
  change (u32 (0 * NEXUS_KEYCODE_PRO_SECONDS_IN_HOUR)) with 0. unfold payg_credit_set.
  destruct (on_prod_frame (nxp_keycode_payg_credit_set 0) s (credit_set_frame 0 _))
    as (s' & Hrun & Hst & Hp & _ & _ & _ & _ & _ & Hk).
  rewrite (bind_Some _ _ _ _ _ Hrun). exists s'. split_and!; [done|done| |done].
  rewrite Hp. apply credit_set_remaining. wrap.
Qed.
(** C18: the fourteen keys of a message (its ID in six bits, its type, its body
    and its check, obfuscated with the check) have the effect of applying the
    message, for every message whose ID is in the receive window. *)
Theorem full_keycode_round_trip m pad garbage (s : keycode_pro P) :
  encodable m → pd_ok (pro_stored s) → id_in_window (pro_stored s) (fm_full_message_id m) →
  length pad = 16%nat → (30 ≤ length garbage)%nat →
  nexus_keycode_pro_full_parse_and_apply garbage (activation_frame m pad) s =
  nexus_keycode_pro_full_apply m s.
Proof. exact (full_keycode_applies m pad garbage s). Qed.

(** The same for the factory messages of seven keys, and the QC codes of
    twelve. *)
Theorem full_factory_round_trip m reserved pad garbage (s : keycode_pro P) :
  factory_encodable m → length (factory_keys m reserved ++ pad) = 30%nat → (30 ≤ length garbage)%nat →
  nexus_keycode_pro_full_parse_and_apply garbage (factory_frame m reserved pad) s =
  nexus_keycode_pro_full_apply m s.
Proof. exact (full_factory_applies m reserved pad garbage s). Qed.
End FullTotal.
