(* ===== verification/KeycodeExtended.v ===== *)
(** * Extended small-keypad keycodes (nexus_keycode_pro_extended.c)

    A passthrough message of the small protocol carries 26 bits; when the first
    is 1 the other 25 are an extended message: set the credit and clear the
    "restricted" flag.  Its ID is not transmitted but found by trying the check
    of every unused ID of the window.  The tables that turn an increment ID
    into days are here too, since both protocols use them. *)

From S2P Require Import Prelude Siphash Check Bitstream NvBlock Product Nv Window KeycodeState KeycodeWindow.
Local Open Scope Z_scope.
Local Open Scope c_scope.

Definition NEXUS_KEYCODE_PRO_SMALL_UNLOCK_INCREMENT : Z := UINT16_MAX.

(** ** Increment IDs *)

Definition nexus_keycode_pro_small_get_add_credit_increment_days (increment_id : Z) : Z :=
  if increment_id =? 255 then NEXUS_KEYCODE_PRO_SMALL_UNLOCK_INCREMENT
  else if increment_id <? 180 then u16 (increment_id + 1)
  else u16 ((increment_id - 179) * 3 + 180).

Definition nexus_keycode_pro_small_get_set_credit_increment_days (increment_id : Z) : Z :=
  if increment_id <? 90 then u16 (increment_id + 1)
  else if increment_id <? 135 then u16 ((increment_id - 89) * 2 + 90)
  else if increment_id <? 180 then u16 ((increment_id - 134) * 4 + 180)
  else if increment_id <? 225 then u16 ((increment_id - 179) * 8 + 360)
  else if increment_id <? 240 then u16 ((increment_id - 224) * 16 + 720)
  else if increment_id =? 254 then 0
  else if increment_id =? 255 then NEXUS_KEYCODE_PRO_SMALL_UNLOCK_INCREMENT
  else 0.

(** ** Extended messages *)

Definition NEXUS_KEYCODE_PRO_EXTENDED_SMALL_PASSTHROUGH_BIT_ID_EXTENDED_KEYCODE : bool := true.
Definition NEXUS_KEYCODE_PRO_EXTENDED_SMALL_TYPE_SET_CREDIT_AND_WIPE_FLAG : Z := 0.
Definition NEXUS_KEYCODE_EXTENDED_COMPUTE_BYTES_MAX_SIZE : nat := 10.

(** [struct nexus_keycode_pro_extended_small_message]; the members of the body
    are fields of the message, and [raw_body_bits], which nothing uses, is
    left out. *)
Record nexus_keycode_pro_extended_small_message := mk_ext_message {
  em_inferred_message_id : Z;
  em_type_code : Z;
  em_truncated_message_id : Z;
  em_increment_id : Z;
  em_check : Z
}.

Definition nexus_keycode_pro_extended_small_parse (message : nexus_keycode_pro_extended_small_message)
    : M nexus_bitstream (bool * nexus_keycode_pro_extended_small_message) :=
  type_code ← nexus_bitstream_pull_uint8 3;
  if negb (type_code =? NEXUS_KEYCODE_PRO_EXTENDED_SMALL_TYPE_SET_CREDIT_AND_WIPE_FLAG)
  then mret (false, message)
  else
    let message := {| message with em_type_code := type_code |} in
    truncated ← nexus_bitstream_pull_uint8 2;
    let message := {| message with em_truncated_message_id := truncated |} in
    increment ← nexus_bitstream_pull_uint8 8;
    let message := {| message with em_increment_id := increment |} in
    check ← nexus_bitstream_pull_uint16_be 12;
    mret (true, {| message with em_check := check |}).

Definition _nexus_keycode_pro_extended_small_auth_arbitrary_bytes
    (bytes : list Z) (bytes_count : Z) (key : list Z) : option Z :=
  check_val ← nexus_check_compute key bytes bytes_count;
  v ← nexus_check_value_as_uint64 check_val;
  Some (u16 (v ≫ 52)).

Definition _nexus_keycode_pro_extended_small_message_infer_inner_compute_auth
    (message : nexus_keycode_pro_extended_small_message) (secret_key : list Z) : option bool :=
  let compute_bytes := replicate NEXUS_KEYCODE_EXTENDED_COMPUTE_BYTES_MAX_SIZE 0 in
  let inferred_message_id := nexus_endian_htole32 (em_inferred_message_id message) in
  compute_bytes ← memcpy_at compute_bytes 0 (le_bytes 4 inferred_message_id);
  compute_bytes ← aset compute_bytes 4 (u8 (em_type_code message));
  let bytes_count := 5 in
  if em_type_code message =? NEXUS_KEYCODE_PRO_EXTENDED_SMALL_TYPE_SET_CREDIT_AND_WIPE_FLAG then
    compute_bytes ← aset compute_bytes 5 (em_increment_id message);
    compute_bytes ← aset compute_bytes 6 (em_truncated_message_id message);
    let bytes_count := u8 (bytes_count + 2) in
    computed_check ← _nexus_keycode_pro_extended_small_auth_arbitrary_bytes compute_bytes bytes_count secret_key;
    Some (computed_check =? em_check message)
  else Some false.

(** The loop over the IDs of the window, at most 64 of them; the result is
    [validated] and the message with the ID the loop stopped at. *)
Fixpoint infer_windowed_loop (fuel : nat) (w : nexus_window) (secret_key : list Z)
    (message : nexus_keycode_pro_extended_small_message)
    : option (bool * nexus_keycode_pro_extended_small_message) :=
  match fuel with
  | O => None
  | S fuel =>
    if nexus_util_window_id_within_window w (em_inferred_message_id message) then
      found ←
        (if em_inferred_message_id message .& 0x03 =? em_truncated_message_id message then
           already ← nexus_util_window_id_flag_already_set w (em_inferred_message_id message);
           if negb already
           then _nexus_keycode_pro_extended_small_message_infer_inner_compute_auth message secret_key
           else Some false
         else Some false);
      if (found : bool) then Some (true, message)
      else infer_windowed_loop fuel w secret_key
             {| message with em_inferred_message_id := u32 (em_inferred_message_id message + 1) |}
    else Some (false, message)
  end.

Definition nexus_keycode_pro_extended_small_infer_windowed_message_id
    (message : nexus_keycode_pro_extended_small_message) (w : nexus_window) (secret_key : list Z)
    : option (bool * nexus_keycode_pro_extended_small_message) :=
  let message := {| message with em_inferred_message_id := u32 (center_index w - flags_below w) |} in
  if negb (em_type_code message =? NEXUS_KEYCODE_PRO_EXTENDED_SMALL_TYPE_SET_CREDIT_AND_WIPE_FLAG)
  then Some (false, message)
  else infer_windowed_loop 66 w secret_key message.

Section Extended.
Context {P : Type} `{Product P} `{KeycodeConfig}.

Definition nexus_keycode_pro_extended_small_apply (message : nexus_keycode_pro_extended_small_message)
    : M (keycode_pro P) nexus_keycode_pro_response :=
  window ← nexus_keycode_pro_get_current_message_id_window;
  secret_key ← gets (λ s, nxp_keycode_get_secret_key (pro_prod s));
  '(inferred, message) ←
    lift (nexus_keycode_pro_extended_small_infer_windowed_message_id message window secret_key);
  if negb inferred then
    on_prod (feedback_start NXP_KEYCODE_FEEDBACK_TYPE_MESSAGE_INVALID);;
    mret NEXUS_KEYCODE_PRO_RESPONSE_INVALID
  else
    let increment_days :=
      u16 (nexus_keycode_pro_small_get_set_credit_increment_days (u8 (em_increment_id message))) in
    (if negb (increment_days =? NEXUS_KEYCODE_PRO_SMALL_UNLOCK_INCREMENT)
     then on_prod (payg_credit_set (u32 (increment_days * NEXUS_KEYCODE_PRO_SECONDS_IN_DAY)))
     else on_prod payg_credit_unlock);;
    nexus_keycode_pro_mask_below_message_id (u16 (u16 (em_inferred_message_id message) + 1));;
    nexus_keycode_pro_reset_custom_flag NX_KEYCODE_CUSTOM_FLAG_RESTRICTED;;
    on_prod (feedback_start NXP_KEYCODE_FEEDBACK_TYPE_MESSAGE_APPLIED);;
    mret NEXUS_KEYCODE_PRO_RESPONSE_VALID_APPLIED.

(** [garbage] is the message structure before it is filled in. *)
Definition nexus_keycode_pro_extended_small_parse_and_apply_keycode
    (garbage : nexus_keycode_pro_extended_small_message) (bitstream : nexus_bitstream)
    : M (keycode_pro P) bool :=
  '((parsed, message), _) ← lift (nexus_keycode_pro_extended_small_parse garbage bitstream);
  if negb parsed then
    on_prod (feedback_start NXP_KEYCODE_FEEDBACK_TYPE_MESSAGE_INVALID);;
    mret false
  else
    response ← nexus_keycode_pro_extended_small_apply message;
    mret (bool_decide (response = NEXUS_KEYCODE_PRO_RESPONSE_VALID_APPLIED)).
End Extended.
