(* ===== verification/KeycodeExtendedApply.v ===== *)
(** * Extended messages: inference by trial, and application

    The inference finds the lowest unused ID of the window that fits the two
    transmitted bits and the check, or there is none.  An applied message sets
    the credit and uses up its ID and every ID below. *)

From S2P Require Import Prelude Siphash Check Crc Bitstream NvBlock Product Nv Window KeycodeState.
From S2P Require Import KeycodeWindow KeycodeInfer KeycodeEffects KeycodeExtended.
Local Open Scope Z_scope.
Local Open Scope c_scope.

(** The check of an extended message with a full ID. *)
Definition ext_check (key : list Z) (id increment truncated : Z) : Z :=
  tag_upper (siphash_ref key (le_bytes 4 id ++ [0; increment; truncated])).

Definition ext_message_ok (m : nexus_keycode_pro_extended_small_message) : Prop :=
  em_type_code m = 0 ∧ is_u8 (em_increment_id m) ∧ 0 ≤ em_truncated_message_id m < 4.

(** Authentic under [id]. *)
Definition ext_auth (key : list Z) (m : nexus_keycode_pro_extended_small_message) (id : Z) : Prop :=
  ext_check key id (em_increment_id m) (em_truncated_message_id m) = em_check m.

Lemma auth_bytes_spec bytes n key tag :
  nexus_check_compute key bytes n = Some (le_bytes 8 tag) →
  _nexus_keycode_pro_extended_small_auth_arbitrary_bytes bytes n key = Some (tag_upper tag).
Proof.
  intros E. unfold _nexus_keycode_pro_extended_small_auth_arbitrary_bytes. rewrite E.
  cbn [mbind option_bind]. rewrite check_value_uint64. cbn [mbind option_bind].
  rewrite Z.shiftr_div_pow2 by lia. f_equal. pose proof (tag_upper_range tag) as Hr.
  rewrite tag_upper_div in *. pow_const. change (2 ^ 52) with 4503599627370496. wrap.
Qed.

Definition ext_bytes (id increment truncated : Z) : list Z :=
  (le_bytes 4 id ++ [0; increment; truncated]) ++ [0; 0; 0].

Lemma ext_tag key id increment truncated :
  is_u8 increment → is_u8 truncated → bytes_ok key → length key = 16%nat →
  nexus_check_compute key (ext_bytes id increment truncated) 7 =
  Some (le_bytes 8 (siphash_ref key (le_bytes 4 id ++ [0; increment; truncated]))).
Proof.
  intros Hi Ht Hk Hl. unfold ext_bytes. set (body := le_bytes 4 id ++ _).
  assert (Hb : bytes_ok body) by (apply Forall_app_2; [apply le_bytes_ok|repeat constructor; (done || wrap)]).
  rewrite check_compute_spec; [|by apply Forall_app_2; [|repeat constructor; wrap]|done|lia|].
  - do 3 f_equal.
  - rewrite length_app. change (length body) with 7%nat. cbn. lia.
Qed.

Lemma inner_compute_auth_spec m key id :
  ext_message_ok m → em_inferred_message_id m = id → is_u32 id → bytes_ok key → length key = 16%nat →
  _nexus_keycode_pro_extended_small_message_infer_inner_compute_auth m key =
  Some (ext_check key id (em_increment_id m) (em_truncated_message_id m) =? em_check m).
Proof.
  intros (Ht & Hi & Htr) <- Hid Hk Hl.
  unfold _nexus_keycode_pro_extended_small_message_infer_inner_compute_auth. rewrite htole32_id by done.
  rewrite Ht. cbn [le_bytes NEXUS_KEYCODE_EXTENDED_COMPUTE_BYTES_MAX_SIZE replicate].
  change (u8 0) with 0. rewrite memcpy_at_in by (cbn; lia). cbn [mbind option_bind take drop length app].
  rewrite aset_in by (cbn; lia). cbn [mbind option_bind].
  change (0 =? NEXUS_KEYCODE_PRO_EXTENDED_SMALL_TYPE_SET_CREDIT_AND_WIPE_FLAG) with true. cbn match.
  rewrite aset_in by (rewrite length_insert; cbn; lia). cbn [mbind option_bind]. rewrite aset_in by (rewrite !length_insert; cbn; lia).
  cbn [mbind option_bind].
  pose proof (ext_tag key (em_inferred_message_id m) (em_increment_id m) (em_truncated_message_id m)
    Hi ltac:(wrap) Hk Hl) as Htag.
  apply auth_bytes_spec in Htag. unfold ext_bytes in Htag. cbn [le_bytes app] in Htag.
  change (u8 (5 + 2)) with 7. change (Z.to_nat 4) with 4%nat. change (Z.to_nat 5) with 5%nat.
  change (Z.to_nat 6) with 6%nat. cbn [insert list_insert Nat.add drop]. rewrite Htag. done.
Qed.

Lemma ext_check_range key id increment truncated : 0 ≤ ext_check key id increment truncated < 4096.
Proof. apply tag_upper_range. Qed.

#[global] Opaque ext_check.

(** ** Inference *)

(** The IDs that may be the message's: in the window, unused, with the
    transmitted bits, and authentic. *)
Definition ext_candidate (key : list Z) (w : nexus_window) (m : nexus_keycode_pro_extended_small_message) (id : Z) : Prop :=
  center_index w - flags_below w ≤ id ≤ center_index w + flags_above w ∧
  id mod 4 = em_truncated_message_id m ∧ ¬ window_received w id ∧ ext_auth key m id.

Definition with_id (id : Z) (m : nexus_keycode_pro_extended_small_message) : nexus_keycode_pro_extended_small_message :=
  {| m with em_inferred_message_id := id |}.

Lemma infer_loop_step fuel w key m id :
  window_ok w → center_index w + flags_above w + 1 < 4294967296 → ext_message_ok m → bytes_ok key → length key = 16%nat →
  center_index w - flags_below w ≤ id ≤ center_index w + flags_above w →
  ∃ found : bool, (found = true ↔ ext_candidate key w m id) ∧
    infer_windowed_loop (S fuel) w key (with_id id m) =
    if found then Some (true, with_id id m) else infer_windowed_loop fuel w key (with_id (id + 1) m).
Proof.
  intros Hw Hlim Hm Hk Hl Hid. pose proof Hw as (_ & _ & _ & ? & ? & ? & ? & ?).
  cbn [infer_windowed_loop]. change (em_inferred_message_id (with_id id m)) with id.
  change (em_truncated_message_id (with_id id m)) with (em_truncated_message_id m).
  rewrite (proj2 (within_window_spec w id Hw)) by lia.
  rewrite u32_small by wrap. fold (with_id (id + 1) (with_id id m)).
  change (with_id (id + 1) (with_id id m)) with (with_id (id + 1) m).
  change 0x03 with (Z.ones 2). rewrite land_ones_mod by lia. change (2 ^ 2) with 4.
  unfold ext_candidate.
  destruct (Z.eqb_spec (id mod 4) (em_truncated_message_id m)) as [Htr|Htr].
  2: { exists false. split; [split; [done|tauto]|done]. }
  destruct (already_set_spec w id Hw) as (b & -> & Hb). cbn [mbind option_bind].
  destruct b; cbn [negb].
  { exists false. split; [split; [done|]|done]. intros (_ & _ & Hn & _). by destruct Hn, Hb; auto. }
  rewrite (inner_compute_auth_spec (with_id id m) key id) by (try done; wrap). cbn [mbind option_bind].
  change (em_increment_id (with_id id m)) with (em_increment_id m).
  change (em_truncated_message_id (with_id id m)) with (em_truncated_message_id m).
  change (em_check (with_id id m)) with (em_check m). unfold ext_auth.
  exists (ext_check key id (em_increment_id m) (em_truncated_message_id m) =? em_check m).
  split; [|by destruct (_ =? em_check m)].
  rewrite Z.eqb_eq. split; [|tauto]. intros Hc. split_and!; try done; try lia.
  intros Hr. apply Hb in Hr. done.
Qed.

Lemma infer_windowed_loop_spec fuel w key m id :
  window_ok w → center_index w + flags_above w + 1 < 4294967296 → ext_message_ok m →
  bytes_ok key → length key = 16%nat →
  center_index w - flags_below w ≤ id ≤ center_index w + flags_above w + 1 →
  (Z.to_nat (center_index w + flags_above w + 1 - id) < fuel)%nat →
  ∃ found id', infer_windowed_loop fuel w key (with_id id m) = Some (found, with_id id' m) ∧
    id ≤ id' ∧ (∀ x, id ≤ x < id' → ¬ ext_candidate key w m x) ∧
    if (found : bool) then ext_candidate key w m id' else id' = center_index w + flags_above w + 1.
Proof.
  intros Hw Hlim Hm Hk Hl. revert id. induction fuel as [|fuel IH]; intros id Hid Hfuel; [lia|].
  destruct (Z.le_gt_cases id (center_index w + flags_above w)) as [Hin|Hout].
  - destruct (infer_loop_step fuel w key m id Hw Hlim Hm Hk Hl ltac:(lia)) as (found & Hf & ->).
    destruct found.
    + exists true, id. split_and!; [done|lia|lia|by apply Hf].
    + destruct (IH (id + 1)) as (found & id' & Hrun & Hle & Hnone & Hres); [lia..|].
      exists found, id'. split_and!; [done|lia| |done]. intros x Hx.
      destruct (Z.eq_dec x id) as [->|]; [|apply Hnone; lia]. intros Hc. apply Hf in Hc. done.
  - exists false, id. split_and!; [|lia|lia|lia]. cbn [infer_windowed_loop].
    change (em_inferred_message_id (with_id id m)) with id.
    assert (Hno : nexus_util_window_id_within_window w id = false).
    { apply not_true_iff_false. rewrite within_window_spec by done. lia. }
    by rewrite Hno.
Qed.

(** ** Application *)

Lemma set_days_range i :
  is_u8 i → i ≠ 255 → 0 ≤ nexus_keycode_pro_small_get_set_credit_increment_days i ≤ 960.
Proof.
  intros Hi Hne. unfold nexus_keycode_pro_small_get_set_credit_increment_days.
  repeat (case_match; rewrite ?Z.ltb_lt, ?Z.ltb_ge, ?Z.eqb_eq, ?Z.eqb_neq in *); wrap.
Qed.

Section ExtendedApply.
Context {P : Type} `{ProductLaws P} `{!ReliableNv P} `{KeycodeConfigOk}.

Definition pro_window (st : keycode_pro_stored) : nexus_window :=
  nexus_util_window_init (received_flags st) 3 (pd_index st) 23 40.

Lemma pro_window_ok st : stored_ok st → pd_ok st → window_ok (pro_window st).
Proof.
  intros (Hb & Hl & _) [? ?]. unfold pro_window, nexus_util_window_init, window_ok, bitset_ok, bitset_size.
  cbn [flags flags_below flags_above center_index].
  assert (Hl3 : length (take 3 (received_flags st)) = 3%nat) by (rewrite length_take; lia).
  rewrite Hl3. split_and!; try (done || lia); try (by apply Forall_take). unfold NEXUS_UTIL_MAX_WINDOW_BITSET_SIZE_BYTES. lia.
Qed.

Lemma pro_window_received st id :
  stored_ok st → id_in_window st id → window_received (pro_window st) id ↔ received st id.
Proof.
  intros (_ & Hl & _) [Hlo Hhi]. unfold window_received, received, pro_window, nexus_util_window_init.
  cbn [flags flags_below flags_above center_index].
  assert (Hmem : id ≤ pd_index st → mem (take 3 (received_flags st)) (23 - (pd_index st - id)) =
    mem (received_flags st) (23 - (pd_index st - id))).
  { intros Hle. rewrite <- (take_drop 3 (received_flags st)) at 2. symmetry. apply mem_app_l.
    unfold bitset_size. rewrite length_take. lia. }
  split.
  - intros [[_ Hle] Hm]. right. split; [done|]. by rewrite <- Hmem.
  - intros [?|[Hle Hm]]; [lia|]. split; [lia|]. by rewrite Hmem.
Qed.

(** The message may be applied under [id]. *)
Definition ext_applicable (m : nexus_keycode_pro_extended_small_message) (s : keycode_pro P) (id : Z) : Prop :=
  id_in_window (pro_stored s) id ∧ id mod 4 = em_truncated_message_id m ∧
  ¬ received (pro_stored s) id ∧ ext_auth (nxp_keycode_get_secret_key (pro_prod s)) m id.

Lemma ext_candidate_applicable m (s : keycode_pro P) id :
  stored_ok (pro_stored s) →
  ext_candidate (nxp_keycode_get_secret_key (pro_prod s)) (pro_window (pro_stored s)) m id ↔ ext_applicable m s id.
Proof.
  intros Hok. unfold ext_candidate, ext_applicable.
  change (center_index (pro_window (pro_stored s)) - flags_below (pro_window (pro_stored s)) ≤ id
    ≤ center_index (pro_window (pro_stored s)) + flags_above (pro_window (pro_stored s)))
    with (id_in_window (pro_stored s) id).
  split; intros (Hin & ? & Hr & ?); (split_and!; [done..| |done]); by rewrite pro_window_received in * by done.
Qed.

Lemma infer_windowed_spec m (s : keycode_pro P) :
  ext_message_ok m → pro_ok s → pd_ok (pro_stored s) →
  ∃ found id,
    nexus_keycode_pro_extended_small_infer_windowed_message_id m (pro_window (pro_stored s))
      (nxp_keycode_get_secret_key (pro_prod s)) = Some (found, with_id id m) ∧
    if (found : bool)
    then ext_applicable m s id ∧ ∀ x, ext_applicable m s x → id ≤ x
    else ∀ x, ¬ ext_applicable m s x.
Proof.
  intros Hm [Hok _] Hpd. pose proof Hpd as [Hp1 Hp2]. pose proof Hm as (Ht & _ & _).
  unfold nexus_keycode_pro_extended_small_infer_windowed_message_id.
  set (w := pro_window (pro_stored s)). change (flags_below w) with 23. change (center_index w) with (pd_index (pro_stored s)).
  rewrite u32_small by wrap. cbv zeta. fold (with_id (pd_index (pro_stored s) - 23) m).
  change (em_type_code (with_id (pd_index (pro_stored s) - 23) m)) with (em_type_code m). rewrite Ht.
  change (negb (0 =? NEXUS_KEYCODE_PRO_EXTENDED_SMALL_TYPE_SET_CREDIT_AND_WIPE_FLAG)) with false. cbn match.
  destruct (infer_windowed_loop_spec 66 w (nxp_keycode_get_secret_key (pro_prod s)) m (pd_index (pro_stored s) - 23))
    as (found & id & Hrun & Hle & Hnone & Hres).
  { by apply pro_window_ok. }
  { change (pd_index (pro_stored s) + 40 + 1 < 4294967296). lia. }
  { done. }
  { apply secret_key_ok. }
  { apply secret_key_length. }
  { change (pd_index (pro_stored s) - 23 ≤ pd_index (pro_stored s) - 23 ≤ pd_index (pro_stored s) + 40 + 1). lia. }
  { change (Z.to_nat (pd_index (pro_stored s) + 40 + 1 - (pd_index (pro_stored s) - 23)) < 66)%nat. lia. }
  exists found, id. split; [exact Hrun|].
  assert (Hno : ∀ x, ext_applicable m s x → x < id → False).
  { intros x Hx Hlt. apply (Hnone x); [|by apply ext_candidate_applicable]. destruct Hx as [[? ?] _]. lia. }
  destruct found.
  - split; [by apply ext_candidate_applicable|]. intros x Hx.
    destruct (Z.lt_ge_cases x id); [by exfalso; eapply Hno|done].
  - intros x Hx. apply (Hno x Hx). destruct Hx as [[? Hx] _]. change (id = pd_index (pro_stored s) + 40 + 1) in Hres.
    lia.
Qed.

(** The credit after an applied extended message. *)
Definition ext_outcome (increment : Z) (p' : P) : Prop :=
  if increment =? 255 then nxp_common_payg_state_get_current p' = NXP_COMMON_PAYG_STATE_UNLOCKED
  else nxp_common_payg_credit_get_remaining p' =
       nexus_keycode_pro_small_get_set_credit_increment_days increment * 86400.

(** The product call that sets the credit. *)
Lemma ext_credit_step increment (s : keycode_pro P) :
  is_u8 increment → pro_ok s →
  ∃ s', (if negb (u16 (nexus_keycode_pro_small_get_set_credit_increment_days (u8 increment)) =?
                  NEXUS_KEYCODE_PRO_SMALL_UNLOCK_INCREMENT)
         then on_prod (payg_credit_set (u32 (u16 (nexus_keycode_pro_small_get_set_credit_increment_days (u8 increment)) *
                                             NEXUS_KEYCODE_PRO_SECONDS_IN_DAY)))
         else on_prod payg_credit_unlock) s = Some (tt, s') ∧
    pro_ok s' ∧ pro_stored s' = pro_stored s ∧ ext_outcome increment (pro_prod s') ∧
    nxp_keycode_get_secret_key (pro_prod s') = nxp_keycode_get_secret_key (pro_prod s).
Proof.
  intros Hi Hok. rewrite (u8_small increment) by done. unfold ext_outcome, payg_credit_set, payg_credit_unlock.
  change NEXUS_KEYCODE_PRO_SECONDS_IN_DAY with 86400.
  destruct (Z.eqb_spec increment 255) as [->|Hne].
  - change (negb _) with false. cbn match.
    destruct (on_prod_frame nxp_keycode_payg_credit_unlock s (unlock_frame _))
      as (s' & Hrun & Hs & Hp & _ & _ & _ & _ & Hok' & Hk).
    exists s'. split_and!; auto. rewrite Hp. apply unlock_state.
  - pose proof (set_days_range increment Hi Hne). rewrite u16_small by wrap.
    replace (_ =? NEXUS_KEYCODE_PRO_SMALL_UNLOCK_INCREMENT) with false
      by (unfold NEXUS_KEYCODE_PRO_SMALL_UNLOCK_INCREMENT, UINT16_MAX; lia). cbn [negb].
    rewrite u32_small by wrap.
    destruct (on_prod_frame (nxp_keycode_payg_credit_set
        (nexus_keycode_pro_small_get_set_credit_increment_days increment * 86400)) s (credit_set_frame _ _))
      as (s' & Hrun & Hs & Hp & _ & _ & _ & _ & Hok' & Hk).
    exists s'. split_and!; auto. rewrite Hp. apply credit_set_remaining. wrap.
Qed.

Lemma ext_apply_invalid m (s : keycode_pro P) :
  ext_message_ok m → pro_ok s → pd_ok (pro_stored s) → (∀ x, ¬ ext_applicable m s x) →
  ∃ s', nexus_keycode_pro_extended_small_apply m s = Some (NEXUS_KEYCODE_PRO_RESPONSE_INVALID, s') ∧
    pro_ok s' ∧ pro_stored s' = pro_stored s ∧ payg_equiv (pro_prod s') (pro_prod s) ∧
    nxp_keycode_get_secret_key (pro_prod s') = nxp_keycode_get_secret_key (pro_prod s).
Proof.
  intros Hm Hok Hpd Hno. unfold nexus_keycode_pro_extended_small_apply,
    nexus_keycode_pro_get_current_message_id_window. erewrite !bind_Some by reflexivity.
  fold (pro_window (pro_stored s)).
  destruct (infer_windowed_spec m s Hm Hok Hpd) as (found & id & Hrun & Hres).
  unfold flags_of. fold (pro_window (pro_stored s)).
  erewrite bind_Some by (unfold lift; rewrite Hrun; reflexivity).
  destruct found; [by destruct (Hno id), Hres|]. cbn [negb].
  destruct (on_prod_frame (nxp_keycode_feedback_start NXP_KEYCODE_FEEDBACK_TYPE_MESSAGE_INVALID) s
    (feedback_frame _ _)) as (s' & Hrun' & Hs & Hp & _ & _ & _ & _ & Hok' & Hk).
  unfold feedback_start. rewrite (bind_Some _ _ _ _ _ Hrun'). exists s'.
  split_and!; auto. rewrite Hp. apply feedback_payg.
Qed.

Lemma ext_apply_valid m (s : keycode_pro P) id :
  ext_message_ok m → pro_ok s → pd_ok (pro_stored s) →
  ext_applicable m s id → (∀ x, ext_applicable m s x → id ≤ x) →
  ∃ s', nexus_keycode_pro_extended_small_apply m s = Some (NEXUS_KEYCODE_PRO_RESPONSE_VALID_APPLIED, s') ∧
    effect s s' (Z.max (pd_index (pro_stored s)) id) (ids_below (pro_stored s) id)
      (λ _ p', ext_outcome (em_increment_id m) p').
Proof.
  intros Hm Hok Hpd Hid Hmin. unfold nexus_keycode_pro_extended_small_apply,
    nexus_keycode_pro_get_current_message_id_window. erewrite !bind_Some by reflexivity.
  unfold flags_of. fold (pro_window (pro_stored s)).
  destruct (infer_windowed_spec m s Hm Hok Hpd) as (found & id' & Hrun & Hres).
  erewrite bind_Some by (unfold lift; rewrite Hrun; reflexivity).
  destruct found; [|by destruct (Hres id)]. cbn [negb]. destruct Hres as [Hid' Hmin'].
  assert (id' = id) as -> by (apply Z.le_antisymm; auto). clear Hid' Hmin' Hrun. cbv zeta.
  change (em_increment_id (with_id id m)) with (em_increment_id m).
  change (em_inferred_message_id (with_id id m)) with id. destruct Hm as (_ & Hi & _).
  destruct (ext_credit_step (em_increment_id m) s Hi Hok) as (s1 & Hrun1 & Hok1 & Hs1 & Hcr1 & Hk1).
  rewrite (bind_Some _ _ _ _ _ Hrun1). rewrite <- Hs1 in Hpd. destruct Hid as (Hin & _). rewrite <- Hs1 in Hin.
  destruct (mask_effect id s1 Hok1 Hpd Hin) as (s2 & Hrun2 & [Hok2 Hpd2 Hids2 Hpayg2 Hk2]).
  destruct (window_id_u16 id s1 Hpd Hin) as (-> & _ & _).
  rewrite (bind_Some _ _ _ _ _ Hrun2).
  destruct (reset_custom_flag_spec NX_KEYCODE_CUSTOM_FLAG_RESTRICTED s2 (proj1 Hok2))
    as (s3 & Hrun3 & Hok3 & Hs3 & Hpayg3 & Hk3). rewrite (bind_Some _ _ _ _ _ Hrun3).
  destruct (on_prod_frame (nxp_keycode_feedback_start NXP_KEYCODE_FEEDBACK_TYPE_MESSAGE_APPLIED) s3
    (feedback_frame _ _)) as (s4 & Hrun4 & Hs4 & Hp4 & _ & _ & _ & _ & Hok4 & Hk4).
  unfold feedback_start. rewrite (bind_Some _ _ _ _ _ Hrun4). exists s4. split; [done|]. split.
  - auto.
  - rewrite Hs4, Hs3, <- Hs1. exact Hpd2.
  - intros x. rewrite <- Hs1, <- Hids2, Hs4, Hs3. done.
  - assert (Heq : payg_equiv (pro_prod s4) (pro_prod s1)).
    { rewrite Hp4. etransitivity; [apply feedback_payg|]. by etransitivity. }
    destruct Heq as [Hstate Hrem]. unfold ext_outcome in *. by rewrite Hstate, Hrem.
  - congruence.
Qed.

(** Whatever the message, application returns, and forgets no received ID. *)
Lemma ext_apply_step m (s : keycode_pro P) :
  ext_message_ok m → pro_ok s → pd_ok (pro_stored s) →
  ∃ r s', nexus_keycode_pro_extended_small_apply m s = Some (r, s') ∧ pro_ok s' ∧
    nxp_keycode_get_secret_key (pro_prod s') = nxp_keycode_get_secret_key (pro_prod s) ∧
    (∀ x, received (pro_stored s) x → received (pro_stored s') x).
Proof.
  intros Hm Hok Hpd. destruct (infer_windowed_spec m s Hm Hok Hpd) as (found & id & _ & Hres). destruct found.
  - destruct Hres as [Hid Hmin].
    destruct (ext_apply_valid m s id Hm Hok Hpd Hid Hmin) as (s' & Hrun & [Hok' _ Hids _ Hk]).
    eexists _, s'. split_and!; [exact Hrun|done|done|]. intros x Hx. apply Hids. by apply ids_below_mono.
  - destruct (ext_apply_invalid m s Hm Hok Hpd Hres) as (s' & Hrun & Hok' & Hs' & _ & Hk).
    eexists _, s'. split_and!; [exact Hrun|done|done|]. intros x. by rewrite Hs'.
Qed.

(** ** Properties *)

(** an extended message that is authentic for an unused ID of the window
    sets the credit its increment ID stands for (or unlocks), uses up the
    lowest such ID and every ID below it, and could afterwards be applied
    under a higher ID only. *)
Theorem extended_apply_valid m (s : keycode_pro P) id :
  ext_message_ok m → pro_ok s → pd_ok (pro_stored s) →
  ext_applicable m s id → (∀ x, ext_applicable m s x → id ≤ x) →
  ∃ s', nexus_keycode_pro_extended_small_apply m s = Some (NEXUS_KEYCODE_PRO_RESPONSE_VALID_APPLIED, s') ∧
    ext_outcome (em_increment_id m) (pro_prod s') ∧
    (∀ x, received (pro_stored s') x ↔ ids_below (pro_stored s) id x) ∧
    ∀ x, ext_applicable m s' x → id < x.
Proof.
  intros Hm Hok Hpd Hid Hmin.
  destruct (ext_apply_valid m s id Hm Hok Hpd Hid Hmin) as (s' & Hrun & [Hok' Hpd' Hids Hcr Hk]).
  exists s'. split_and!; [done..|]. intros x (_ & _ & Hnr & _).
  destruct (Z.lt_ge_cases id x); [done|]. destruct Hnr. apply Hids. right. left. lia.
Qed.

(** An extended message that is authentic for no unused ID of the window
    is answered INVALID and changes nothing but the feedback. *)
Theorem extended_apply_invalid m (s : keycode_pro P) :
  ext_message_ok m → pro_ok s → pd_ok (pro_stored s) → (∀ x, ¬ ext_applicable m s x) →
  ∃ s', nexus_keycode_pro_extended_small_apply m s = Some (NEXUS_KEYCODE_PRO_RESPONSE_INVALID, s') ∧
    pro_stored s' = pro_stored s ∧ payg_equiv (pro_prod s') (pro_prod s).
Proof.
  intros Hm Hok Hpd Hno. destruct (ext_apply_invalid m s Hm Hok Hpd Hno) as (s' & ? & _ & ? & ? & _).
  by exists s'.
Qed.
End ExtendedApply.

(** The days of a SET CREDIT increment ID grow with the ID, from 1 day to
    960, up to ID 239; the IDs from 240 to 253, which have no days assigned,
    read as no days. *)
Theorem set_credit_days_table i j :
  0 ≤ i < j → j < 240 →
  1 ≤ nexus_keycode_pro_small_get_set_credit_increment_days i <
      nexus_keycode_pro_small_get_set_credit_increment_days j ∧
  nexus_keycode_pro_small_get_set_credit_increment_days j ≤ 960 ∧
  ∀ k, 240 ≤ k < 255 → nexus_keycode_pro_small_get_set_credit_increment_days k = 0.
Proof.
  intros Hij Hj. unfold nexus_keycode_pro_small_get_set_credit_increment_days.
  split; [|split].
  - repeat match goal with |- context [?a <? ?b] => destruct (Z.ltb_spec a b) end; try lia;
      rewrite !u16_small by wrap; lia.
  - repeat match goal with |- context [?a <? ?b] => destruct (Z.ltb_spec a b) end; try lia;
      rewrite !u16_small by wrap; lia.
  - intros k Hk. repeat match goal with |- context [?a <? ?b] => destruct (Z.ltb_spec a b) end; try lia.
    replace (k =? 255) with false by lia. by destruct (k =? 254).
Qed.
