(* ===== verification/KeycodeSmall.v ===== *)
(** * The small-keypad keycode protocol (nexus_keycode_pro.c, [nexus_keycode_pro_small_*])

    Fourteen keys of a four-key alphabet spell 28 bits: 16 obfuscated with a
    pseudorandom stream that depends on the 12 check bits that follow.  The
    message is one of ADD CREDIT, SET CREDIT, a maintenance or test function, or
    passthrough bits for the extended protocol. *)

From S2P Require Import Prelude Siphash Check Bitstream NvBlock Product Nv Window KeycodeState KeycodeWindow.
From S2P Require Import KeycodeExtended.
Local Open Scope Z_scope.
Local Open Scope c_scope.

Definition NEXUS_KEYCODE_MESSAGE_LENGTH_MAX_DIGITS_SMALL : Z := 14.
Definition NEXUS_KEYCODE_PRO_SMALL_MAX_TEST_FUNCTION_ID : Z := 127.
Definition NEXUS_KEYCODE_PRO_SMALL_SET_CLEAR_CUSTOM_FLAG_RESTRICTED : Z := 253.
Definition NEXUS_KEYCODE_PRO_SMALL_SET_LOCK_INCREMENT_ID : Z := 254.
Definition NEXUS_KEYCODE_PRO_SMALL_SET_UNLOCK_INCREMENT_ID : Z := 255.
Definition NEXUS_KEYCODE_PRO_SMALL_OBFUSCATED_MESSAGE_BITS_COUNT : Z := 16.
Definition NEXUS_KEYCODE_PRO_SMALL_MAC_BITS_COUNT : Z := 12.

(** [enum nexus_keycode_pro_small_type_codes]. *)
Definition NEXUS_KEYCODE_PRO_SMALL_ACTIVATION_ADD_CREDIT_TYPE : Z := 0.
Definition NEXUS_KEYCODE_PRO_SMALL_TYPE_PASSTHROUGH : Z := 1.
Definition NEXUS_KEYCODE_PRO_SMALL_ACTIVATION_SET_CREDIT_TYPE : Z := 2.
Definition NEXUS_KEYCODE_PRO_SMALL_MAINTENANCE_OR_TEST_TYPE : Z := 3.

(** Maintenance and test functions. *)
Definition NEXUS_KEYCODE_PRO_SMALL_WIPE_STATE_TARGET_CREDIT : Z := 0.
Definition NEXUS_KEYCODE_PRO_SMALL_WIPE_STATE_TARGET_CREDIT_AND_MASK : Z := 1.
Definition NEXUS_KEYCODE_PRO_SMALL_WIPE_STATE_TARGET_MASK : Z := 2.
Definition NEXUS_KEYCODE_PRO_SMALL_ENABLE_SHORT_TEST : Z := 0.
Definition NEXUS_KEYCODE_PRO_SMALL_ENABLE_QC_TEST : Z := 1.

(** [struct nexus_keycode_pro_small_message]; both members of the body union
    are one byte, so the body is that byte. *)
Record nexus_keycode_pro_small_message := mk_small_message {
  sm_full_message_id : Z;
  sm_type_code : Z;
  sm_body : Z;
  sm_check : Z
}.

Definition small_message_zero : nexus_keycode_pro_small_message := mk_small_message 0 0 0 0.

(** The packed bytes that the MAC covers: all but [check]. *)
Definition small_message_bytes (m : nexus_keycode_pro_small_message) : list Z :=
  le_bytes 4 (sm_full_message_id m) ++ [sm_type_code m; sm_body m].

(** The 12 most significant bits of a check value. *)
Definition upper_check_bits (value : list Z) : option Z :=
  b7 ← aget value 7;
  b6 ← aget value 6;
  Some (u16 ((b7 ≪ 4) .| (b6 ≫ 4))).

Definition nexus_keycode_pro_small_compute_check (m : nexus_keycode_pro_small_message) (key : list Z) : option Z :=
  value ← nexus_check_compute key (small_message_bytes m) (8 - 2);
  upper_check_bits value.

(** ** Bit streams *)

Definition obfuscate_body (_i : Z) (x : nexus_bitstream * nexus_bitstream * nexus_bitstream)
    : option (nexus_bitstream * nexus_bitstream * nexus_bitstream) :=
  let '(input, output, prng) := x in
  '(b, input) ← nexus_bitstream_pull_bit input;
  '(p, prng) ← nexus_bitstream_pull_bit prng;
  '(_, output) ← nexus_bitstream_push_bit (xorb b p) output;
  Some (input, output, prng).

(** The bits that are copied as they are. *)
Definition copy_bit_body (_i : Z) (x : nexus_bitstream * nexus_bitstream)
    : option (nexus_bitstream * nexus_bitstream) :=
  let '(input, output) := x in
  '(b, input) ← nexus_bitstream_pull_bit input;
  '(_, output) ← nexus_bitstream_push_bit b output;
  Some (input, output).

(** The three streams after the call; all three are rewound first. *)
Definition nexus_keycode_pro_small_reversibly_obfuscate
    (input output prng : nexus_bitstream) (obfuscation_bit_count : Z)
    : option (nexus_bitstream * nexus_bitstream * nexus_bitstream) :=
  '(_, output) ← nexus_bitstream_set_bit_position 0 output;
  '(_, input) ← nexus_bitstream_set_bit_position 0 input;
  '(_, prng) ← nexus_bitstream_set_bit_position 0 prng;
  '(input, output, prng) ←
    for_loop (Z.to_nat obfuscation_bit_count) 0 obfuscate_body (input, output, prng);
  '(input, output) ←
    for_loop (Z.to_nat (bs_length input - bs_position input)) (bs_position input) copy_bit_body (input, output);
  Some (input, output, prng).

Definition _nexus_keycode_pro_small_internal_extract_passthrough_message
    (passthrough deobscured : nexus_bitstream) : option (nexus_bitstream * nexus_bitstream) :=
  '(_, deobscured) ← nexus_bitstream_set_bit_position 0 deobscured;
  '(_, passthrough) ← nexus_bitstream_set_bit_position 0 passthrough;
  '(deobscured, passthrough) ← for_loop 6 0 copy_bit_body (deobscured, passthrough);
  '(_, deobscured) ← nexus_bitstream_set_bit_position 8 deobscured;
  '(deobscured, passthrough) ← for_loop 20 0 copy_bit_body (deobscured, passthrough);
  Some (passthrough, deobscured).

(** The index of a key in the alphabet; [None] in the result is a key outside
    it, the alphabet ends at its zero. *)
Fixpoint alphabet_index (alphabet : list Z) (j key : Z) : option (option Z) :=
  match alphabet with
  | [] => None
  | a :: rest =>
    if a =? 0 then Some None
    else if key =? a then Some (Some j)
    else alphabet_index rest (j + 1) key
  end.

(** The loop that pushes two bits for each key; [false] when a key was not in
    the alphabet. *)
Fixpoint push_keys (n : nat) (i : Z) (alphabet keys : list Z) (s : nexus_bitstream)
    : option (bool * nexus_bitstream) :=
  match n with
  | O => Some (true, s)
  | S n =>
    key ← aget keys i;
    j ← alphabet_index alphabet 0 key;
    '(_, s) ← (match j with
               | Some j => nexus_bitstream_push_uint8 (u8 j) 2
               | None => mret tt
               end) s;
    if negb (bs_length s =? (i + 1) * 2) then Some (false, s)
    else push_keys n (i + 1) alphabet keys s
  end.

Section Small.
Context {P : Type} `{Product P} `{KeycodeConfig}.

Definition nexus_keycode_pro_small_init (alphabet : list Z) : M (keycode_pro P) unit :=
  modify (λ s, {| s with pro_alphabet := alphabet |}).

Definition nexus_keycode_pro_small_internal_bitstream_passthrough
    (garbage : nexus_keycode_pro_extended_small_message) (passthrough : nexus_bitstream)
    : M (keycode_pro P) nxp_keycode_passthrough_error :=
  '(b, passthrough) ← lift (nexus_bitstream_pull_bit passthrough);
  if negb (eqb b NEXUS_KEYCODE_PRO_EXTENDED_SMALL_PASSTHROUGH_BIT_ID_EXTENDED_KEYCODE)
  then mret NXP_KEYCODE_PASSTHROUGH_ERROR_DATA_UNRECOGNIZED
  else
    _ ← nexus_keycode_pro_extended_small_parse_and_apply_keycode garbage passthrough;
    mret NXP_KEYCODE_PASSTHROUGH_ERROR_NONE.

(** [garbage] is what the automatic arrays hold before they are written. *)
Definition nexus_keycode_pro_small_parse (garbage : list Z)
    (ext_garbage : nexus_keycode_pro_extended_small_message)
    (frame : nexus_keycode_frame) (message : nexus_keycode_pro_small_message)
    : M (keycode_pro P) (bool * nexus_keycode_pro_small_message) :=
  if negb (fr_length frame =? NEXUS_KEYCODE_MESSAGE_LENGTH_MAX_DIGITS_SMALL) then mret (false, message)
  else
    let message_bitstream := nexus_bitstream_init (take 4 garbage) 32 0 in
    alphabet ← gets pro_alphabet;
    '(in_alphabet, message_bitstream) ←
      lift (push_keys (Z.to_nat NEXUS_KEYCODE_MESSAGE_LENGTH_MAX_DIGITS_SMALL) 0 alphabet
              (fr_keys frame) message_bitstream);
    if negb in_alphabet then mret (false, message)
    else
      '(_, message_bitstream) ←
        lift (nexus_bitstream_set_bit_position NEXUS_KEYCODE_PRO_SMALL_OBFUSCATED_MESSAGE_BITS_COUNT
                message_bitstream);
      '(check, message_bitstream) ←
        lift (nexus_bitstream_pull_uint16_be NEXUS_KEYCODE_PRO_SMALL_MAC_BITS_COUNT message_bitstream);
      let check_be := nexus_endian_htobe16 check in
      prng_bytes ← lift (nexus_check_compute_pseudorandom_bytes NEXUS_INTEGRITY_CHECK_FIXED_00_KEY
                           (le_bytes 2 check_be) 2 4);
      let message := {| message with sm_check := nexus_endian_be16toh check_be |} in
      let prng_bitstream := nexus_bitstream_init prng_bytes 32 32 in
      let deobfuscated_bitstream := nexus_bitstream_init (take 4 garbage) 32 0 in
      '(_, deobfuscated_bitstream, _) ←
        lift (nexus_keycode_pro_small_reversibly_obfuscate message_bitstream deobfuscated_bitstream
                prng_bitstream NEXUS_KEYCODE_PRO_SMALL_OBFUSCATED_MESSAGE_BITS_COUNT);
      '(_, deobfuscated_bitstream) ← lift (nexus_bitstream_set_bit_position 0 deobfuscated_bitstream);
      '(received_message_id, deobfuscated_bitstream) ←
        lift (nexus_bitstream_pull_uint8 6 deobfuscated_bitstream);
      '(type_code, deobfuscated_bitstream) ← lift (nexus_bitstream_pull_uint8 2 deobfuscated_bitstream);
      let message := {| message with sm_type_code := type_code |} in
      '(increment_id, deobfuscated_bitstream) ←
        lift (nexus_bitstream_pull_uint8 8 deobfuscated_bitstream);
      let message := {| message with sm_body := increment_id |} in
      pd ← nexus_keycode_pro_get_current_pd_index;
      full_message_id ←
        (if (type_code =? NEXUS_KEYCODE_PRO_SMALL_ACTIVATION_ADD_CREDIT_TYPE) ||
            (type_code =? NEXUS_KEYCODE_PRO_SMALL_ACTIVATION_SET_CREDIT_TYPE)
         then lift (nexus_keycode_pro_infer_full_message_id received_message_id pd
                      NEXUS_KEYCODE_PRO_RECEIVE_WINDOW_BEFORE_PD
                      NEXUS_KEYCODE_PRO_RECEIVE_WINDOW_AFTER_PD)
         else mret received_message_id);
      let message := {| message with sm_full_message_id := full_message_id |} in
      if type_code =? NEXUS_KEYCODE_PRO_SMALL_TYPE_PASSTHROUGH then
        let passthrough_bitstream := nexus_bitstream_init (take 4 garbage) 32 0 in
        '(passthrough_bitstream, _) ←
          lift (_nexus_keycode_pro_small_internal_extract_passthrough_message
                  passthrough_bitstream deobfuscated_bitstream);
        '(_, passthrough_bitstream) ← lift (nexus_bitstream_set_bit_position 0 passthrough_bitstream);
        result ← nexus_keycode_pro_small_internal_bitstream_passthrough ext_garbage passthrough_bitstream;
        mret (bool_decide (result = NXP_KEYCODE_PASSTHROUGH_ERROR_NONE), message)
      else mret (true, message).

(** ** Application *)

(** The activation branch of [nexus_keycode_pro_small_apply]. *)
Definition small_apply_activation (m : nexus_keycode_pro_small_message)
    : M (keycode_pro P) nexus_keycode_pro_response :=
  already ← nexus_keycode_pro_get_full_message_id_flag (u16 (sm_full_message_id m));
  if (already : bool) then mret NEXUS_KEYCODE_PRO_RESPONSE_VALID_DUPLICATE
  else if sm_type_code m =? NEXUS_KEYCODE_PRO_SMALL_ACTIVATION_SET_CREDIT_TYPE then
    nexus_keycode_pro_mask_below_message_id (u16 (sm_full_message_id m + 1));;
    (if sm_body m =? NEXUS_KEYCODE_PRO_SMALL_SET_UNLOCK_INCREMENT_ID then on_prod payg_credit_unlock
     else if sm_body m =? NEXUS_KEYCODE_PRO_SMALL_SET_LOCK_INCREMENT_ID then on_prod (payg_credit_set 0)
     else if sm_body m =? NEXUS_KEYCODE_PRO_SMALL_SET_CLEAR_CUSTOM_FLAG_RESTRICTED
     then nexus_keycode_pro_reset_custom_flag NX_KEYCODE_CUSTOM_FLAG_RESTRICTED
     else
       let increment_days := nexus_keycode_pro_small_get_set_credit_increment_days (sm_body m) in
       on_prod (payg_credit_set (u32 (increment_days * NEXUS_KEYCODE_PRO_SECONDS_IN_DAY))));;
    mret NEXUS_KEYCODE_PRO_RESPONSE_VALID_APPLIED
  else if sm_type_code m =? NEXUS_KEYCODE_PRO_SMALL_ACTIVATION_ADD_CREDIT_TYPE then
    nexus_keycode_pro_set_full_message_id_flag (u16 (sm_full_message_id m));;
    state ← payg_state;
    if bool_decide (state ≠ NXP_COMMON_PAYG_STATE_UNLOCKED) then
      let increment_days := nexus_keycode_pro_small_get_add_credit_increment_days (sm_body m) in
      (if increment_days =? NEXUS_KEYCODE_PRO_SMALL_UNLOCK_INCREMENT
       then on_prod payg_credit_unlock
       else on_prod (payg_credit_add (u32 (increment_days * NEXUS_KEYCODE_PRO_SECONDS_IN_DAY))));;
      mret NEXUS_KEYCODE_PRO_RESPONSE_VALID_APPLIED
    else mret NEXUS_KEYCODE_PRO_RESPONSE_VALID_DUPLICATE
  else mret NEXUS_KEYCODE_PRO_RESPONSE_INVALID.

(** The maintenance branch. *)
Definition small_apply_maintenance (m : nexus_keycode_pro_small_message)
    : M (keycode_pro P) nexus_keycode_pro_response :=
  let function := sm_body m .& 0x7F in
  if function =? NEXUS_KEYCODE_PRO_SMALL_WIPE_STATE_TARGET_CREDIT_AND_MASK then
    wipe_ids_and_counts;;
    on_prod (payg_credit_set 0);;
    mret NEXUS_KEYCODE_PRO_RESPONSE_VALID_APPLIED
  else if function =? NEXUS_KEYCODE_PRO_SMALL_WIPE_STATE_TARGET_CREDIT then
    on_prod (payg_credit_set 0);;
    mret NEXUS_KEYCODE_PRO_RESPONSE_VALID_APPLIED
  else if function =? NEXUS_KEYCODE_PRO_SMALL_WIPE_STATE_TARGET_MASK then
    wipe_ids_and_counts;;
    mret NEXUS_KEYCODE_PRO_RESPONSE_VALID_APPLIED
  else mret NEXUS_KEYCODE_PRO_RESPONSE_INVALID.

(** The test branch; the [#if] of the QC code is a test of the
    configuration. *)
Definition small_apply_test (m : nexus_keycode_pro_small_message)
    : M (keycode_pro P) nexus_keycode_pro_response :=
  let respond (test_applied : bool) (test_credit_secs : Z) : M (keycode_pro P) nexus_keycode_pro_response :=
    if test_applied then
      on_prod (payg_credit_add test_credit_secs);;
      (if sm_body m =? NEXUS_KEYCODE_PRO_SMALL_ENABLE_QC_TEST
       then nexus_keycode_pro_increment_long_qc_test_message_count else mret tt);;
      mret NEXUS_KEYCODE_PRO_RESPONSE_VALID_APPLIED
    else mret NEXUS_KEYCODE_PRO_RESPONSE_VALID_DUPLICATE in
  if sm_body m =? NEXUS_KEYCODE_PRO_SMALL_ENABLE_SHORT_TEST then
    state ← payg_state;
    respond (bool_decide (state = NXP_COMMON_PAYG_STATE_DISABLED))
      NEXUS_KEYCODE_PRO_UNIVERSAL_SHORT_TEST_SECONDS
  else if sm_body m =? NEXUS_KEYCODE_PRO_SMALL_ENABLE_QC_TEST then
    if 0 <? NEXUS_KEYCODE_PRO_FACTORY_QC_LONG_LIFETIME_MAX then
      count ← nexus_keycode_pro_get_long_qc_code_count;
      state ← payg_state;
      respond ((count <? NEXUS_KEYCODE_PRO_FACTORY_QC_LONG_LIFETIME_MAX) &&
               bool_decide (state ≠ NXP_COMMON_PAYG_STATE_UNLOCKED))
        NEXUS_KEYCODE_PRO_QC_LONG_TEST_MESSAGE_SECONDS
    else respond false 0
  else mret NEXUS_KEYCODE_PRO_RESPONSE_INVALID.

Definition nexus_keycode_pro_small_apply (m : nexus_keycode_pro_small_message)
    : M (keycode_pro P) nexus_keycode_pro_response :=
  secret_key ← gets (λ s, nxp_keycode_get_secret_key (pro_prod s));
  check_expected ← lift (
    if (sm_type_code m =? NEXUS_KEYCODE_PRO_SMALL_MAINTENANCE_OR_TEST_TYPE) &&
       (sm_body m <=? NEXUS_KEYCODE_PRO_SMALL_MAX_TEST_FUNCTION_ID)
    then nexus_keycode_pro_small_compute_check m NEXUS_INTEGRITY_CHECK_FIXED_FF_KEY
    else nexus_keycode_pro_small_compute_check m secret_key);
  if negb (sm_check m =? check_expected) then mret NEXUS_KEYCODE_PRO_RESPONSE_INVALID
  else if sm_type_code m <? NEXUS_KEYCODE_PRO_SMALL_MAINTENANCE_OR_TEST_TYPE
  then small_apply_activation m
  else if NEXUS_KEYCODE_PRO_SMALL_MAX_TEST_FUNCTION_ID <? sm_body m
  then small_apply_maintenance m
  else small_apply_test m.

Definition nexus_keycode_pro_small_parse_and_apply (garbage : list Z)
    (ext_garbage : nexus_keycode_pro_extended_small_message) (frame : nexus_keycode_frame)
    : M (keycode_pro P) nexus_keycode_pro_response :=
  '(parsed, pro_message) ← nexus_keycode_pro_small_parse garbage ext_garbage frame small_message_zero;
  if negb parsed then mret NEXUS_KEYCODE_PRO_RESPONSE_INVALID
  else if sm_type_code pro_message =? NEXUS_KEYCODE_PRO_SMALL_TYPE_PASSTHROUGH
  then mret NEXUS_KEYCODE_PRO_RESPONSE_NONE
  else nexus_keycode_pro_small_apply pro_message.
End Small.
