(* ===== verification/KeycodeSmallApply.v ===== *)
(** * Applying small-keypad messages

    The day tables, and [nexus_keycode_pro_small_apply]: authentication, what
    each message does to the credit and to the received IDs, totality. *)

From S2P Require Import Prelude Siphash Check Crc Bitstream NvBlock Product Nv Window KeycodeState.
From S2P Require Import KeycodeWindow KeycodeInfer KeycodeEffects KeycodeExtended KeycodeExtendedApply.
From S2P Require Import KeycodeSmall.
Local Open Scope Z_scope.
Local Open Scope c_scope.

(** ** The tables *)

Abbreviation add_days := nexus_keycode_pro_small_get_add_credit_increment_days (only parsing).
Abbreviation set_days := nexus_keycode_pro_small_get_set_credit_increment_days (only parsing).

Lemma add_days_range i : is_u8 i → i ≠ 255 → 1 ≤ add_days i ≤ 405.
Proof.
  intros Hi Hne. unfold add_days.
  repeat (case_match; rewrite ?Z.ltb_lt, ?Z.ltb_ge, ?Z.eqb_eq, ?Z.eqb_neq in *); wrap.
Qed.

(** ** The check *)

Definition small_check (key : list Z) (m : nexus_keycode_pro_small_message) : Z :=
  tag_upper (siphash_ref key (small_message_bytes m)).

Definition small_message_ok (m : nexus_keycode_pro_small_message) : Prop :=
  is_u32 (sm_full_message_id m) ∧ is_u8 (sm_type_code m) ∧ is_u8 (sm_body m).

(** The key a message is checked with. *)
Definition small_key {P} `{Product P} (m : nexus_keycode_pro_small_message) (p : P) : list Z :=
  if (sm_type_code m =? 3) && (sm_body m <=? 127) then NEXUS_INTEGRITY_CHECK_FIXED_FF_KEY
  else nxp_keycode_get_secret_key p.

Lemma small_message_bytes_ok m : small_message_ok m → bytes_ok (small_message_bytes m).
Proof. intros (?&?&?). unfold small_message_bytes. apply Forall_app_2; auto with cint. Qed.

Lemma upper_bytes y : u16 ((((y / 256) mod 256) ≪ 4) .| ((y mod 256) ≫ 4)) = y mod 65536 / 16.
Proof.
  rewrite Z.shiftl_mul_pow2, Z.shiftr_div_pow2 by lia.
  rewrite lor_add_disjoint.
  - change (2 ^ 4) with 16. wrap.
  - apply Z.bits_inj'. intros i Hi. rewrite Z.land_spec, Z.bits_0.
    destruct (Z.lt_ge_cases i 4).
    + by rewrite Z.mul_pow2_bits_low by lia.
    + rewrite (testbit_high (y mod 256 / 2 ^ 4) 4) by (change (2 ^ 4) with 16; lia). apply andb_false_r.
Qed.

Lemma upper_check_bits_spec h : upper_check_bits (le_bytes 8 h) = Some (tag_upper h).
Proof.
  unfold upper_check_bits. cbn [le_bytes]. rewrite !aget_lookup by lia.
  cbn [Z.to_nat Pos.to_nat Pos.iter_op Nat.add lookup list_lookup mbind option_bind].
  rewrite tag_upper_div, <- upper_bytes. rewrite !Z.div_div by lia. done.
Qed.

Lemma small_tag m key :
  small_message_ok m → bytes_ok key → length key = 16%nat →
  nexus_check_compute key (small_message_bytes m) (8 - 2) =
  Some (le_bytes 8 (siphash_ref key (small_message_bytes m))).
Proof.
  intros Hm Hk Hl. apply check_compute_all; [by apply small_message_bytes_ok|done|lia|done].
Qed.

Lemma small_compute_check_tag m key tag :
  nexus_check_compute key (small_message_bytes m) (8 - 2) = Some tag →
  nexus_keycode_pro_small_compute_check m key = upper_check_bits tag.
Proof. intros E. unfold nexus_keycode_pro_small_compute_check. by rewrite E. Qed.

Lemma small_compute_check_spec m key :
  small_message_ok m → bytes_ok key → length key = 16%nat →
  nexus_keycode_pro_small_compute_check m key = Some (small_check key m).
Proof.
  intros Hm Hk Hl. rewrite (small_compute_check_tag _ _ _ (small_tag m key Hm Hk Hl)).
  apply upper_check_bits_spec.
Qed.

Lemma small_check_range key m : 0 ≤ small_check key m < 4096.
Proof. apply tag_upper_range. Qed.

(** The check does not depend on the message's own check field. *)
Lemma small_check_contents key i t b c c' :
  small_check key (mk_small_message i t b c) = small_check key (mk_small_message i t b c').
Proof. unfold small_check, small_message_bytes. cbn [sm_full_message_id sm_type_code sm_body]. exact eq_refl. Qed.

#[global] Opaque small_check.

(** A wipe of the message IDs. *)
Definition small_mask_wipe (m : nexus_keycode_pro_small_message) : bool :=
  (sm_type_code m =? 3) && ((sm_body m =? 129) || (sm_body m =? 130)).

Section SmallApply.
Context {P : Type} `{ProductLaws P} `{!ReliableNv P} `{KeycodeConfigOk}.

(** ** Authentication *)

Lemma small_key_ok m (p : P) : bytes_ok (small_key m p) ∧ length (small_key m p) = 16%nat.
Proof.
  unfold small_key. destruct (_ && _); [split; [apply fixed_keys_ok|done]|].
  split; [apply secret_key_ok|apply secret_key_length].
Qed.

Lemma small_apply_unfold m (s : keycode_pro P) :
  small_message_ok m →
  nexus_keycode_pro_small_apply m s =
  if negb (sm_check m =? small_check (small_key m (pro_prod s)) m)
  then Some (NEXUS_KEYCODE_PRO_RESPONSE_INVALID, s)
  else if sm_type_code m <? 3 then small_apply_activation m s
  else if 127 <? sm_body m then small_apply_maintenance m s
  else small_apply_test m s.
Proof.
  intros Hm. unfold nexus_keycode_pro_small_apply. erewrite bind_Some by reflexivity.
  destruct (small_key_ok m (pro_prod s)) as [Hkb Hkl].
  assert (Hc : (if (sm_type_code m =? NEXUS_KEYCODE_PRO_SMALL_MAINTENANCE_OR_TEST_TYPE) &&
       (sm_body m <=? NEXUS_KEYCODE_PRO_SMALL_MAX_TEST_FUNCTION_ID)
    then nexus_keycode_pro_small_compute_check m NEXUS_INTEGRITY_CHECK_FIXED_FF_KEY
    else nexus_keycode_pro_small_compute_check m (nxp_keycode_get_secret_key (pro_prod s))) =
    nexus_keycode_pro_small_compute_check m (small_key m (pro_prod s))).
  { unfold small_key, NEXUS_KEYCODE_PRO_SMALL_MAINTENANCE_OR_TEST_TYPE,
      NEXUS_KEYCODE_PRO_SMALL_MAX_TEST_FUNCTION_ID. by destruct (_ && _). }
  rewrite Hc, (small_compute_check_spec m _ Hm Hkb Hkl). clear Hc.
  erewrite bind_Some by reflexivity.
  change NEXUS_KEYCODE_PRO_SMALL_MAINTENANCE_OR_TEST_TYPE with 3.
  change NEXUS_KEYCODE_PRO_SMALL_MAX_TEST_FUNCTION_ID with 127.
  destruct (negb _); [done|]. destruct (_ <? 3); [done|]. by destruct (_ <? _).
Qed.

(** ** Activation messages *)

(** What follows the received check of an activation message. *)
Definition small_effect (m : nexus_keycode_pro_small_message) : M (keycode_pro P) nexus_keycode_pro_response :=
  if sm_type_code m =? NEXUS_KEYCODE_PRO_SMALL_ACTIVATION_SET_CREDIT_TYPE then
    nexus_keycode_pro_mask_below_message_id (u16 (sm_full_message_id m + 1));;
    (if sm_body m =? NEXUS_KEYCODE_PRO_SMALL_SET_UNLOCK_INCREMENT_ID then on_prod payg_credit_unlock
     else if sm_body m =? NEXUS_KEYCODE_PRO_SMALL_SET_LOCK_INCREMENT_ID then on_prod (payg_credit_set 0)
     else if sm_body m =? NEXUS_KEYCODE_PRO_SMALL_SET_CLEAR_CUSTOM_FLAG_RESTRICTED
     then nexus_keycode_pro_reset_custom_flag NX_KEYCODE_CUSTOM_FLAG_RESTRICTED
     else on_prod (payg_credit_set (u32 (set_days (sm_body m) * NEXUS_KEYCODE_PRO_SECONDS_IN_DAY))));;
    mret NEXUS_KEYCODE_PRO_RESPONSE_VALID_APPLIED
  else if sm_type_code m =? NEXUS_KEYCODE_PRO_SMALL_ACTIVATION_ADD_CREDIT_TYPE then
    nexus_keycode_pro_set_full_message_id_flag (u16 (sm_full_message_id m));;
    state ← payg_state;
    if bool_decide (state ≠ NXP_COMMON_PAYG_STATE_UNLOCKED) then
      (if add_days (sm_body m) =? NEXUS_KEYCODE_PRO_SMALL_UNLOCK_INCREMENT
       then on_prod payg_credit_unlock
       else on_prod (payg_credit_add (u32 (add_days (sm_body m) * NEXUS_KEYCODE_PRO_SECONDS_IN_DAY))));;
      mret NEXUS_KEYCODE_PRO_RESPONSE_VALID_APPLIED
    else mret NEXUS_KEYCODE_PRO_RESPONSE_VALID_DUPLICATE
  else mret NEXUS_KEYCODE_PRO_RESPONSE_INVALID.

Lemma small_activation_unfold m (s : keycode_pro P) :
  pro_ok s → pd_ok (pro_stored s) →
  small_apply_activation m s =
  if id_flag (pro_stored s) (u16 (sm_full_message_id m))
  then Some (NEXUS_KEYCODE_PRO_RESPONSE_VALID_DUPLICATE, s)
  else small_effect m s.
Proof.
  intros [Hok Hsync] Hpd. unfold small_apply_activation.
  rewrite (bind_Some _ _ _ _ _ (get_flag_spec _ s Hok Hpd Hsync (u16_range _))).
  by destruct (id_flag _ _).
Qed.

(** The credit after an authentic, fresh SET CREDIT message. *)
Definition small_set_outcome (body : Z) (p p' : P) : Prop :=
  if body =? 255 then nxp_common_payg_state_get_current p' = NXP_COMMON_PAYG_STATE_UNLOCKED
  else if body =? 253 then payg_equiv p' p
  else nxp_common_payg_credit_get_remaining p' = (if body =? 254 then 0 else set_days body * 86400).

Lemma small_set_effect m (s : keycode_pro P) :
  sm_type_code m = 2 → is_u8 (sm_body m) → pro_ok s → pd_ok (pro_stored s) →
  id_in_window (pro_stored s) (sm_full_message_id m) →
  ∃ s', small_effect m s = Some (NEXUS_KEYCODE_PRO_RESPONSE_VALID_APPLIED, s') ∧
    effect s s' (Z.max (pd_index (pro_stored s)) (sm_full_message_id m))
      (ids_below (pro_stored s) (sm_full_message_id m)) (small_set_outcome (sm_body m)).
Proof.
  intros Ht Hb Hok Hpd Hin. unfold small_effect. rewrite Ht.
  change (2 =? NEXUS_KEYCODE_PRO_SMALL_ACTIVATION_SET_CREDIT_TYPE) with true. cbn match.
  destruct (mask_effect (sm_full_message_id m) s Hok Hpd Hin) as (s1 & Hrun & He).
  rewrite (bind_Some _ _ _ _ _ Hrun). unfold small_set_outcome, payg_credit_unlock, payg_credit_set.
  change NEXUS_KEYCODE_PRO_SMALL_SET_UNLOCK_INCREMENT_ID with 255.
  change NEXUS_KEYCODE_PRO_SMALL_SET_LOCK_INCREMENT_ID with 254.
  change NEXUS_KEYCODE_PRO_SMALL_SET_CLEAR_CUSTOM_FLAG_RESTRICTED with 253.
  change NEXUS_KEYCODE_PRO_SECONDS_IN_DAY with 86400.
  pose proof (λ f C, effect_then_prod s s1 _ _ f C He) as Hprod.
  destruct (Z.eqb_spec (sm_body m) 255) as [_|Hn255].
  { destruct (Hprod nxp_keycode_payg_credit_unlock
      (λ _ p', nxp_common_payg_state_get_current p' = NXP_COMMON_PAYG_STATE_UNLOCKED))
      as (s' & Hrun' & He'); [apply unlock_frame|intros _; apply unlock_state|].
    exists s'. by rewrite (bind_Some _ _ _ _ _ Hrun'). }
  destruct (Z.eqb_spec (sm_body m) 254) as [->|Hn254].
  { destruct (Hprod (nxp_keycode_payg_credit_set 0)
      (λ _ p', nxp_common_payg_credit_get_remaining p' = 0)) as (s' & Hrun' & He');
      [apply credit_set_frame|intros _; apply credit_set_remaining; wrap|].
    exists s'. by rewrite (bind_Some _ _ _ _ _ Hrun'). }
  destruct (Z.eqb_spec (sm_body m) 253) as [_|Hn253].
  { pose proof He as [[Hok1 _] Hpd1 Hids1 Hpayg1 Hkey1].
    destruct (reset_custom_flag_spec NX_KEYCODE_CUSTOM_FLAG_RESTRICTED s1 Hok1)
      as (s' & Hrun' & Hok' & Hs' & Hpayg' & Hk'). exists s'. rewrite (bind_Some _ _ _ _ _ Hrun').
    split; [done|]. split; [done|by rewrite Hs'| |by transitivity (pro_prod s1)|congruence].
    intros x. rewrite <- Hids1. by rewrite Hs'. }
  pose proof (set_days_range (sm_body m) Hb Hn255).
  destruct (Hprod (nxp_keycode_payg_credit_set (u32 (set_days (sm_body m) * 86400)))
    (λ _ p', nxp_common_payg_credit_get_remaining p' = set_days (sm_body m) * 86400)) as (s' & Hrun' & He').
  - apply credit_set_frame.
  - intros _. rewrite u32_small by wrap. apply credit_set_remaining. wrap.
  - exists s'. by rewrite (bind_Some _ _ _ _ _ Hrun').
Qed.

(** The credit after an authentic, fresh ADD CREDIT message, and the
    response. *)
Definition small_add_outcome (body : Z) (r : nexus_keycode_pro_response) (p p' : P) : Prop :=
  if decide (nxp_common_payg_state_get_current p = NXP_COMMON_PAYG_STATE_UNLOCKED)
  then r = NEXUS_KEYCODE_PRO_RESPONSE_VALID_DUPLICATE ∧ payg_equiv p' p
  else r = NEXUS_KEYCODE_PRO_RESPONSE_VALID_APPLIED ∧
    if body =? 255 then nxp_common_payg_state_get_current p' = NXP_COMMON_PAYG_STATE_UNLOCKED
    else nxp_common_payg_credit_get_remaining p + add_days body * 86400 < 2 ^ 32 →
         nxp_common_payg_credit_get_remaining p' =
         nxp_common_payg_credit_get_remaining p + add_days body * 86400.

Lemma small_add_effect m (s : keycode_pro P) :
  sm_type_code m = 0 → is_u8 (sm_body m) → pro_ok s → pd_ok (pro_stored s) →
  id_in_window (pro_stored s) (sm_full_message_id m) →
  ∃ r s', small_effect m s = Some (r, s') ∧
    effect s s' (Z.max (pd_index (pro_stored s)) (sm_full_message_id m))
      (ids_add (pro_stored s) (sm_full_message_id m)) (small_add_outcome (sm_body m) r).
Proof.
  intros Ht Hb Hok Hpd Hin. unfold small_effect. rewrite Ht.
  change (0 =? NEXUS_KEYCODE_PRO_SMALL_ACTIVATION_SET_CREDIT_TYPE) with false.
  change (0 =? NEXUS_KEYCODE_PRO_SMALL_ACTIVATION_ADD_CREDIT_TYPE) with true. cbn match.
  destruct (flag_effect (sm_full_message_id m) s Hok Hpd Hin) as (s1 & Hrun & He).
  rewrite (bind_Some _ _ _ _ _ Hrun). unfold payg_state at 1. erewrite bind_Some by reflexivity.
  pose proof He as [Hok1 Hpd1 Hids Hpayg Hkey]. pose proof Hpayg as [Hstate Hrem].
  unfold small_add_outcome. rewrite Hstate.
  destruct (decide (nxp_common_payg_state_get_current (pro_prod s) = NXP_COMMON_PAYG_STATE_UNLOCKED)) as [Hu|Hu].
  { rewrite bool_decide_eq_false_2 by tauto. eexists _, s1. split; [done|].
    split; try done. rewrite decide_True by done. done. }
  rewrite bool_decide_eq_true_2 by done. unfold payg_credit_unlock, payg_credit_add.
  change NEXUS_KEYCODE_PRO_SECONDS_IN_DAY with 86400.
  destruct (Z.eqb_spec (sm_body m) 255) as [->|Hn255].
  - change (add_days 255 =? NEXUS_KEYCODE_PRO_SMALL_UNLOCK_INCREMENT) with true.
    destruct (effect_then_prod s s1 _ _ nxp_keycode_payg_credit_unlock
      (λ _ p', nxp_common_payg_state_get_current p' = NXP_COMMON_PAYG_STATE_UNLOCKED) He)
      as (s' & Hrun' & [? ? ? Hc ?]); [apply unlock_frame|intros _; apply unlock_state|].
    eexists _, s'. rewrite (bind_Some _ _ _ _ _ Hrun'). split; [done|]. split; try done.
    rewrite decide_False by done. done.
  - pose proof (add_days_range (sm_body m) Hb Hn255).
    replace (add_days (sm_body m) =? NEXUS_KEYCODE_PRO_SMALL_UNLOCK_INCREMENT) with false
      by (unfold NEXUS_KEYCODE_PRO_SMALL_UNLOCK_INCREMENT, UINT16_MAX; lia).
    destruct (effect_then_prod s s1 _ _ (nxp_keycode_payg_credit_add (u32 (add_days (sm_body m) * 86400)))
      (λ p p', nxp_common_payg_credit_get_remaining p + add_days (sm_body m) * 86400 < 2 ^ 32 →
         nxp_common_payg_credit_get_remaining p' =
         nxp_common_payg_credit_get_remaining p + add_days (sm_body m) * 86400) He)
      as (s' & Hrun' & [? ? ? Hc ?]); [apply credit_add_frame| |].
    + intros _. rewrite u32_small by wrap. intros Hlt. pow_const.
      rewrite credit_add_remaining; [by rewrite Hrem|by rewrite Hstate|lia|rewrite Hrem; lia].
    + eexists _, s'. rewrite (bind_Some _ _ _ _ _ Hrun'). split; [done|]. split; try done.
      rewrite decide_False by done. done.
Qed.

(** ** Totality *)

Lemma small_activation_returns m (s : keycode_pro P) :
  pro_ok s → pd_ok (pro_stored s) → returns (small_apply_activation m) s.
Proof.
  intros Hok Hpd. unfold returns. rewrite small_activation_unfold by done.
  destruct (id_flag _ _); [by eexists _, s|]. fold (returns (small_effect m) s).
  unfold small_effect, payg_credit_unlock, payg_credit_set, payg_credit_add.
  destruct (_ =? NEXUS_KEYCODE_PRO_SMALL_ACTIVATION_SET_CREDIT_TYPE).
  { destruct (mask_below_any (u16 (sm_full_message_id m + 1)) s Hok Hpd (u16_range _)) as (s1 & Hrun & [Hok1 _ _ Hk1]).
    apply (returns_bind _ _ _ _ Hrun Hk1).
    destruct (_ =? NEXUS_KEYCODE_PRO_SMALL_SET_UNLOCK_INCREMENT_ID);
      [by apply returns_prod; [apply unlock_frame|..|apply returns_ret]|].
    destruct (_ =? NEXUS_KEYCODE_PRO_SMALL_SET_LOCK_INCREMENT_ID);
      [by apply returns_prod; [apply credit_set_frame|..|apply returns_ret]|].
    destruct (_ =? NEXUS_KEYCODE_PRO_SMALL_SET_CLEAR_CUSTOM_FLAG_RESTRICTED);
      [|by apply returns_prod; [apply credit_set_frame|..|apply returns_ret]].
    destruct (reset_custom_flag_spec NX_KEYCODE_CUSTOM_FLAG_RESTRICTED s1 (proj1 Hok1)) as
      (s2 & Hrun2 & Hok2 & _ & _ & Hk2).
    apply (returns_bind _ _ _ _ Hrun2 Hk2). by apply returns_ret. }
  destruct (_ =? NEXUS_KEYCODE_PRO_SMALL_ACTIVATION_ADD_CREDIT_TYPE); [|by apply returns_ret].
  destruct (set_flag_any (u16 (sm_full_message_id m)) s Hok Hpd (u16_range _)) as (s1 & Hrun & [Hok1 _ _ Hk1]).
  apply (returns_bind _ _ _ _ Hrun Hk1). unfold returns, payg_state. erewrite bind_Some by reflexivity.
  case_bool_decide; [|by apply returns_ret].
  destruct (_ =? NEXUS_KEYCODE_PRO_SMALL_UNLOCK_INCREMENT);
    apply returns_prod; auto using unlock_frame, credit_add_frame, returns_ret.
Qed.

(** Maintenance and test messages keep the IDs unless they wipe them. *)
Lemma small_maintenance_step m (s : keycode_pro P) :
  pro_ok s →
  ∃ r s', small_apply_maintenance m s = Some (r, s') ∧ pro_ok s' ∧
    nxp_keycode_get_secret_key (pro_prod s') = nxp_keycode_get_secret_key (pro_prod s) ∧
    (sm_body m .& 0x7F ≠ 1 → sm_body m .& 0x7F ≠ 2 → pro_stored s' = pro_stored s).
Proof.
  intros Hok. unfold small_apply_maintenance, payg_credit_set. cbv zeta.
  destruct (wipe_ids_spec s (proj1 Hok)) as (s1 & Hrun & Hok1 & Hst1 & _).
  change NEXUS_KEYCODE_PRO_SMALL_WIPE_STATE_TARGET_CREDIT_AND_MASK with 1.
  change NEXUS_KEYCODE_PRO_SMALL_WIPE_STATE_TARGET_CREDIT with 0.
  change NEXUS_KEYCODE_PRO_SMALL_WIPE_STATE_TARGET_MASK with 2.
  destruct (Z.eqb_spec (sm_body m .& 0x7F) 1).
  { rewrite (bind_Some _ _ _ _ _ Hrun).
    destruct (on_prod_frame (nxp_keycode_payg_credit_set 0) s1 (credit_set_frame 0 _)) as
      (s2 & Hrun2 & Hs2 & _ & _ & _ & _ & _ & Hok2 & Hk2).
    rewrite (bind_Some _ _ _ _ _ Hrun2). eexists _, s2. split_and!; [done|auto|rewrite Hk2; apply Hst1|done]. }
  destruct (Z.eqb_spec (sm_body m .& 0x7F) 0).
  { destruct (on_prod_frame (nxp_keycode_payg_credit_set 0) s (credit_set_frame 0 _)) as
      (s2 & Hrun2 & Hs2 & _ & _ & _ & _ & _ & Hok2 & Hk2).
    rewrite (bind_Some _ _ _ _ _ Hrun2). eexists _, s2. by split_and!; auto. }
  destruct (Z.eqb_spec (sm_body m .& 0x7F) 2); [|by eexists _, s].
  rewrite (bind_Some _ _ _ _ _ Hrun). eexists _, s1. split_and!; [done..|apply Hst1|done].
Qed.

Lemma small_test_step m (s : keycode_pro P) :
  pro_ok s →
  ∃ r s', small_apply_test m s = Some (r, s') ∧ pro_ok s' ∧
    nxp_keycode_get_secret_key (pro_prod s') = nxp_keycode_get_secret_key (pro_prod s) ∧
    received_flags (pro_stored s') = received_flags (pro_stored s) ∧
    pd_index (pro_stored s') = pd_index (pro_stored s).
Proof.
  intros Hok. unfold small_apply_test, payg_credit_add. cbv zeta.
  assert (Hrespond : ∀ (b : bool) secs, ∃ r s',
    (if b then on_prod (modify (nxp_keycode_payg_credit_add secs));;
       (if sm_body m =? NEXUS_KEYCODE_PRO_SMALL_ENABLE_QC_TEST
        then nexus_keycode_pro_increment_long_qc_test_message_count else mret tt);;
       mret NEXUS_KEYCODE_PRO_RESPONSE_VALID_APPLIED
     else mret NEXUS_KEYCODE_PRO_RESPONSE_VALID_DUPLICATE) s = Some (r, s') ∧ pro_ok s' ∧
    nxp_keycode_get_secret_key (pro_prod s') = nxp_keycode_get_secret_key (pro_prod s) ∧
    received_flags (pro_stored s') = received_flags (pro_stored s) ∧
    pd_index (pro_stored s') = pd_index (pro_stored s)).
  { intros [] secs; [|by eexists _, s].
    destruct (on_prod_frame (nxp_keycode_payg_credit_add secs) s (credit_add_frame _ _)) as
      (s1 & Hrun1 & Hs1 & _ & _ & _ & _ & _ & Hok1 & Hk1).
    rewrite (bind_Some _ _ _ _ _ Hrun1). destruct (_ =? _); [|eexists _, s1; by rewrite Hs1; auto].
    destruct (increment_long_spec s1 (proj1 (Hok1 Hok)) (proj2 (Hok1 Hok))) as
      (s2 & Hrun2 & Hok2 & Hst2 & Hsync2 & Hs2).
    rewrite (bind_Some _ _ _ _ _ Hrun2). eexists _, s2.
    split; [done|]. split; [by split|]. split; [rewrite <- Hk1; apply Hst2|].
    rewrite Hs2. destruct (_ <? _); by rewrite <- Hs1. }
  destruct (_ =? NEXUS_KEYCODE_PRO_SMALL_ENABLE_SHORT_TEST).
  { unfold payg_state. erewrite bind_Some by reflexivity. apply Hrespond. }
  destruct (sm_body m =? NEXUS_KEYCODE_PRO_SMALL_ENABLE_QC_TEST); [|by eexists _, s].
  destruct (0 <? _); [|by eexists _, s].
  rewrite (bind_Some _ _ _ _ _ (get_long_spec s (proj1 Hok))). unfold payg_state.
  erewrite bind_Some by reflexivity. apply Hrespond.
Qed.

(** ** Steps and runs *)

Definition small_activation (m : nexus_keycode_pro_small_message) : Prop :=
  sm_type_code m = 0 ∨ sm_type_code m = 2.

(** What any message does: it returns, and unless it wipes the IDs it forgets
    none; an applied activation message had a fresh ID and uses it up. *)
Lemma small_apply_step m (s : keycode_pro P) :
  small_message_ok m → sm_type_code m < 4 → pro_ok s → pd_ok (pro_stored s) →
  (small_activation m → id_in_window (pro_stored s) (sm_full_message_id m)) →
  ∃ r s', nexus_keycode_pro_small_apply m s = Some (r, s') ∧ pro_ok s' ∧
    nxp_keycode_get_secret_key (pro_prod s') = nxp_keycode_get_secret_key (pro_prod s) ∧
    (small_mask_wipe m = false → ∀ x, received (pro_stored s) x → received (pro_stored s') x) ∧
    (r = NEXUS_KEYCODE_PRO_RESPONSE_VALID_APPLIED → small_activation m →
      ¬ received (pro_stored s) (sm_full_message_id m) ∧ received (pro_stored s') (sm_full_message_id m)).
Proof.
  intros Hm Ht4 Hok Hpd Hin. rewrite small_apply_unfold by done. pose proof Hm as (_ & Ht & Hb).
  unfold small_activation in *.
  destruct (negb _); [by eexists _, s|].
  destruct (Z.ltb_spec (sm_type_code m) 3).
  - rewrite small_activation_unfold by done.
    destruct (decide (sm_type_code m = 1)) as [Ht1|Ht1].
    { destruct (id_flag _ _); [by eexists _, s|]. unfold small_effect. rewrite Ht1.
      eexists _, s. split; [done|]. split_and!; try done. }
    assert (Hact : sm_type_code m = 0 ∨ sm_type_code m = 2) by (unfold is_u8 in *; lia).
    specialize (Hin Hact). destruct (window_id_u16 _ s Hpd Hin) as (Hu & _ & _). rewrite Hu.
    pose proof (id_flag_received (pro_stored s) (sm_full_message_id m) Hin) as Hf.
    destruct (id_flag _ _); [by eexists _, s|]. destruct Hact as [Ht0|Ht2].
    + destruct (small_add_effect m s Ht0 Hb Hok Hpd Hin) as (r & s' & Hrun & [Hok' _ Hids _ Hk]).
      exists r, s'. split_and!; [done..| |].
      * intros _ x Hx. apply Hids. right. by right.
      * intros _ _. split; [by rewrite <- Hf|]. apply Hids. right. by left.
    + destruct (small_set_effect m s Ht2 Hb Hok Hpd Hin) as (s' & Hrun & [Hok' _ Hids _ Hk]).
      eexists _, s'. split_and!; [exact Hrun|done..| |].
      * intros _ x Hx. apply Hids. by apply ids_below_mono.
      * intros _ _. split; [by rewrite <- Hf|]. apply Hids, ids_below_self.
  - assert (Hw : small_mask_wipe m = (sm_body m =? 129) || (sm_body m =? 130)).
    { unfold small_mask_wipe. by replace (sm_type_code m =? 3) with true by (unfold is_u8 in *; lia). }
    destruct (Z.ltb_spec 127 (sm_body m)).
    + destruct (small_maintenance_step m s Hok) as (r & s' & Hrun & Hok' & Hk & Hst).
      exists r, s'. split_and!; [done..| |lia]. rewrite Hw, orb_false_iff, !Z.eqb_neq. intros [Hn1 Hn2] x.
      change 0x7F with (Z.ones 7) in Hst. rewrite land_ones_mod in Hst by lia. change (2 ^ 7) with 128 in Hst.
      rewrite Hst; [done|unfold is_u8 in *; lia..].
    + destruct (small_test_step m s Hok) as (r & s' & Hrun & Hok' & Hk & Hf & Hp).
      exists r, s'. split_and!; [done..| |lia]. intros _ x. unfold received. by rewrite Hf, Hp.
Qed.

(** Messages of the small protocol as they come in, with the responses. *)
Inductive small_event :=
| SmallMessage (m : nexus_keycode_pro_small_message) (r : nexus_keycode_pro_response)
| ExtendedMessage (m : nexus_keycode_pro_extended_small_message) (r : nexus_keycode_pro_response).

Definition event_wipes (e : small_event) : bool :=
  match e with SmallMessage m _ => small_mask_wipe m | ExtendedMessage _ _ => false end.

Inductive small_step : keycode_pro P → small_event → keycode_pro P → Prop :=
| small_step_message s m r s' :
    small_message_ok m → sm_type_code m < 4 → pd_ok (pro_stored s) →
    (small_activation m → id_in_window (pro_stored s) (sm_full_message_id m)) →
    nexus_keycode_pro_small_apply m s = Some (r, s') →
    small_step s (SmallMessage m r) s'
| small_step_extended s m r s' :
    ext_message_ok m → pd_ok (pro_stored s) →
    nexus_keycode_pro_extended_small_apply m s = Some (r, s') →
    small_step s (ExtendedMessage m r) s'.

Inductive small_run : keycode_pro P → list small_event → keycode_pro P → Prop :=
| small_run_nil s : small_run s [] s
| small_run_cons s e s1 l s2 : small_step s e s1 → small_run s1 l s2 → small_run s (e :: l) s2.

Lemma small_step_ok s e s' :
  small_step s e s' → pro_ok s →
  pro_ok s' ∧ (event_wipes e = false → ∀ x, received (pro_stored s) x → received (pro_stored s') x).
Proof.
  intros Hstep Hok. inversion Hstep as [? m r ? Hm Ht Hpd Hin Hrun|? m r ? Hm Hpd Hrun]; subst.
  - destruct (small_apply_step m s Hm Ht Hok Hpd Hin) as (r' & s1 & Hrun' & Hok1 & _ & Hmono & _).
    rewrite Hrun in Hrun'. injection Hrun' as <- <-. done.
  - destruct (ext_apply_step m s Hm Hok Hpd) as (r' & s1 & Hrun' & Hok1 & _ & Hmono).
    rewrite Hrun in Hrun'. injection Hrun' as <- <-. done.
Qed.

Lemma small_run_ok s l s' :
  small_run s l s' → pro_ok s →
  pro_ok s' ∧ (Forall (λ e, event_wipes e = false) l →
               ∀ x, received (pro_stored s) x → received (pro_stored s') x).
Proof.
  induction 1 as [|s e s1 l s2 Hstep Hrun IH]; intros Hok; [done|].
  destruct (small_step_ok s e s1 Hstep Hok) as [Hok1 Hmono1]. destruct (IH Hok1) as [Hok2 Hmono2].
  split; [done|]. intros [He Hl]%Forall_cons x Hx. auto.
Qed.

Lemma small_run_app s l1 l2 s' :
  small_run s (l1 ++ l2) s' → ∃ s1, small_run s l1 s1 ∧ small_run s1 l2 s'.
Proof.
  revert s. induction l1 as [|e l1 IH]; intros s Hrun; [exists s; split; [constructor|done]|].
  inversion Hrun; subst. destruct (IH s1) as (t & ? & ?); [done|]. exists t. split; [by econstructor|done].
Qed.

Lemma small_event_fresh m s s' :
  small_step s (SmallMessage m NEXUS_KEYCODE_PRO_RESPONSE_VALID_APPLIED) s' → pro_ok s → small_activation m →
  ¬ received (pro_stored s) (sm_full_message_id m) ∧ received (pro_stored s') (sm_full_message_id m).
Proof.
  intros Hstep Hok Hact. inversion Hstep as [? ? ? ? Hm Ht Hpd Hin Hrun|]; subst.
  destruct (small_apply_step m s Hm Ht Hok Hpd Hin) as (r' & s1 & Hrun' & _ & _ & _ & Hfresh).
  rewrite Hrun in Hrun'. injection Hrun' as <- <-. auto.
Qed.

(** SET CREDIT with a fresh ID. *)
Lemma small_set_applies m (s : keycode_pro P) :
  small_message_ok m → sm_type_code m = 2 → pro_ok s → pd_ok (pro_stored s) →
  id_in_window (pro_stored s) (sm_full_message_id m) →
  sm_check m = small_check (nxp_keycode_get_secret_key (pro_prod s)) m →
  ¬ received (pro_stored s) (sm_full_message_id m) →
  ∃ s', nexus_keycode_pro_small_apply m s = Some (NEXUS_KEYCODE_PRO_RESPONSE_VALID_APPLIED, s') ∧
    effect s s' (Z.max (pd_index (pro_stored s)) (sm_full_message_id m))
      (ids_below (pro_stored s) (sm_full_message_id m)) (small_set_outcome (sm_body m)).
Proof.
  intros Hm Ht Hok Hpd Hin Hc Hfresh. rewrite small_apply_unfold by done.
  assert (Hkey : small_key m (pro_prod s) = nxp_keycode_get_secret_key (pro_prod s))
    by (unfold small_key; by rewrite Ht).
  rewrite Hkey, Hc, Z.eqb_refl, Ht. change (2 <? 3) with true. cbn [negb].
  rewrite small_activation_unfold by done. destruct (window_id_u16 _ s Hpd Hin) as (-> & _ & _).
  pose proof (id_flag_received _ _ Hin) as Hf.
  destruct (id_flag _ _); [by destruct Hfresh; apply Hf|].
  by apply small_set_effect; [|apply Hm|..].
Qed.

(** ADD CREDIT with a fresh ID. *)
Lemma small_add_applies m (s : keycode_pro P) :
  small_message_ok m → sm_type_code m = 0 → pro_ok s → pd_ok (pro_stored s) →
  id_in_window (pro_stored s) (sm_full_message_id m) →
  sm_check m = small_check (nxp_keycode_get_secret_key (pro_prod s)) m →
  ¬ received (pro_stored s) (sm_full_message_id m) →
  ∃ r s', nexus_keycode_pro_small_apply m s = Some (r, s') ∧
    small_add_outcome (sm_body m) r (pro_prod s) (pro_prod s') ∧
    ∀ x, received (pro_stored s') x ↔ ids_add (pro_stored s) (sm_full_message_id m) x.
Proof.
  intros Hm Ht Hok Hpd Hin Hc Hfresh. rewrite small_apply_unfold by done.
  assert (Hkey : small_key m (pro_prod s) = nxp_keycode_get_secret_key (pro_prod s))
    by (unfold small_key; by rewrite Ht).
  rewrite Hkey, Hc, Z.eqb_refl, Ht. change (0 <? 3) with true. cbn [negb].
  rewrite small_activation_unfold by done. destruct (window_id_u16 _ s Hpd Hin) as (-> & _ & _).
  pose proof (id_flag_received _ _ Hin) as Hf.
  destruct (id_flag _ _); [by destruct Hfresh; apply Hf|].
  destruct (small_add_effect m s Ht ltac:(apply Hm) Hok Hpd Hin) as (r & s' & Hrun & [_ _ Hids Hcr _]).
  by exists r, s'.
Qed.

(** ** Properties *)

(** C16: between two wipes of the message IDs, no small-keypad ADD or SET
    CREDIT message is applied under an ID that one was applied under before,
    whatever small or extended messages come in between. *)
Theorem small_no_replay s l1 m l2 m' l3 s' :
  pro_ok s →
  small_run s (l1 ++ SmallMessage m NEXUS_KEYCODE_PRO_RESPONSE_VALID_APPLIED ::
               l2 ++ SmallMessage m' NEXUS_KEYCODE_PRO_RESPONSE_VALID_APPLIED :: l3) s' →
  small_activation m → small_activation m' → Forall (λ e, event_wipes e = false) l2 →
  sm_full_message_id m ≠ sm_full_message_id m'.
Proof.
  intros Hok (t1 & Hrun1 & Hrun2)%small_run_app Hact Hact' Hl2 Heq.
  destruct (small_run_ok _ _ _ Hrun1 Hok) as [Hok1 _].
  inversion Hrun2 as [|? ? t2 ? ? Hstep Hrun3]; subst.
  destruct (small_event_fresh m t1 t2 Hstep Hok1 Hact) as [_ Hused].
  destruct (small_step_ok _ _ _ Hstep Hok1) as [Hok2 _].
  apply small_run_app in Hrun3 as (t3 & Hrun3 & Hrun4).
  destruct (small_run_ok _ _ _ Hrun3 Hok2) as [Hok3 Hmono].
  inversion Hrun4 as [|? ? t4 ? ? Hstep' _]; subst.
  destruct (small_event_fresh m' t3 t4 Hstep' Hok3 Hact') as [Hfresh _]. apply Hfresh.
  rewrite <- Heq. by apply Hmono.
Qed.

(** A small-keypad message whose check is not the SipHash check of its
    contents under its key is answered INVALID and changes nothing. *)
Theorem small_apply_unauthentic m (s : keycode_pro P) :
  small_message_ok m → sm_check m ≠ small_check (small_key m (pro_prod s)) m →
  nexus_keycode_pro_small_apply m s = Some (NEXUS_KEYCODE_PRO_RESPONSE_INVALID, s).
Proof.
  intros Hm Hc. rewrite small_apply_unfold by done.
  replace (sm_check m =? _) with false; [done|]. symmetry. by apply Z.eqb_neq.
Qed.

(** an authentic SET CREDIT message with a fresh ID is applied whatever
    the credit state: it sets the days of its increment ID, locks (254),
    unlocks (255) or clears the restricted flag (253), and uses up every ID up
    to its own. *)
Theorem small_set_credit m (s : keycode_pro P) :
  small_message_ok m → sm_type_code m = 2 → pro_ok s → pd_ok (pro_stored s) →
  id_in_window (pro_stored s) (sm_full_message_id m) →
  sm_check m = small_check (nxp_keycode_get_secret_key (pro_prod s)) m →
  ¬ received (pro_stored s) (sm_full_message_id m) →
  ∃ s', nexus_keycode_pro_small_apply m s = Some (NEXUS_KEYCODE_PRO_RESPONSE_VALID_APPLIED, s') ∧
    small_set_outcome (sm_body m) (pro_prod s) (pro_prod s') ∧
    ∀ x, received (pro_stored s') x ↔ ids_below (pro_stored s) (sm_full_message_id m) x.
Proof.
  intros Hm Ht Hok Hpd Hin Hc Hfresh.
  destruct (small_set_applies m s Hm Ht Hok Hpd Hin Hc Hfresh) as (s' & Hrun & [_ _ Hids Hcr _]).
  exists s'. split; [exact Hrun|]. split; [exact Hcr|exact Hids].
Qed.

(** an authentic ADD CREDIT message with a fresh ID uses up that ID; on a
    unit that is not unlocked it adds the days of its increment ID (or
    unlocks, 255), on an unlocked one it is answered as a duplicate. *)
Theorem small_add_credit m (s : keycode_pro P) :
  small_message_ok m → sm_type_code m = 0 → pro_ok s → pd_ok (pro_stored s) →
  id_in_window (pro_stored s) (sm_full_message_id m) →
  sm_check m = small_check (nxp_keycode_get_secret_key (pro_prod s)) m →
  ¬ received (pro_stored s) (sm_full_message_id m) →
  ∃ r s', nexus_keycode_pro_small_apply m s = Some (r, s') ∧
    small_add_outcome (sm_body m) r (pro_prod s) (pro_prod s') ∧
    ∀ x, received (pro_stored s') x ↔ ids_add (pro_stored s) (sm_full_message_id m) x.
Proof. exact (small_add_applies m s). Qed.
End SmallApply.
