(* ===== verification/KeycodeSmallTotal.v ===== *)
(** * Parsing small-keypad frames

    [small_frame] is the encoder of the protocol: six bits, two type bits and
    eight body bits, exclusive-or'ed with the pseudorandom bits of the check,
    then the twelve check bits, two bits to a key.  Every frame of fourteen
    keys of the alphabet is the encoding of one message, and parsing gives that
    message back. *)


From S2P Require Import Prelude Crc Siphash Bitstream Window Check NvBlock Product Nv KeycodeState KeycodeWindow KeycodeInfer.
From S2P Require Import KeycodeEffects KeycodeExtended KeycodeExtendedApply KeycodeSmall KeycodeSmallApply.
Local Open Scope Z_scope.
Local Open Scope c_scope.

(** ** Streams that spell a sequence of bits *)

(** A 32-bit stream whose first [n] bits, all that were written, are [f]. *)
Record spells (s : nexus_bitstream) (n : Z) (f : Z → bool) : Prop := mk_spells {
  spells_ok : bs_ok s;
  spells_bits : bs_bits s = 32;
  spells_length : bs_length s = n;
  spells_range : 0 ≤ n ≤ 32;
  spells_at i : 0 ≤ i < n → bit_at (bs_data s) i = f i
}.

Definition at_position (p : Z) (s : nexus_bitstream) : nexus_bitstream :=
  {| s with bs_position := p |}.

Lemma spells_at_position s n f p : spells s n f → 0 ≤ p ≤ 32 → spells (at_position p s) n f.
Proof.
  intros [Hok Hb Hl Hr Hat] Hp. split; try done. apply bs_ok_position; [done|lia].
Qed.

Lemma pull_bit_spells s n f p :
  spells s n f → 0 ≤ p < n →
  nexus_bitstream_pull_bit (at_position p s) = Some (f p, at_position (p + 1) s).
Proof.
  intros Hs Hp. pose proof (spells_at_position s n f p Hs ltac:(destruct Hs; lia)) as [Hok Hb Hl Hr Hat].
  rewrite pull_bit_spec by (done || (rewrite Hb; cbn; lia)).
  cbn [at_position bs_data bs_position]. cbn [at_position bs_data] in Hat. by rewrite Hat.
Qed.

(** A written stream is at its end. *)
Definition written (s : nexus_bitstream) (n : Z) (f : Z → bool) : Prop :=
  spells s n f ∧ bs_position s = n.

Lemma written_init (garbage : list Z) f :
  bytes_ok garbage → length garbage = 4%nat → written (nexus_bitstream_init garbage 32 0) 0 f.
Proof.
  intros Hb Hl. split; [|done]. split; cbn; try lia.
  - unfold bs_ok, bs_bits. cbn. rewrite Hl. split_and!; (done || lia).
  - unfold bs_bits. cbn. rewrite Hl. done.
Qed.

Lemma push_bit_written b s n f :
  written s n f → n < 32 → b = f n →
  ∃ s', nexus_bitstream_push_bit b s = Some (tt, s') ∧ written s' (n + 1) f.
Proof.
  intros [[Hok Hb Hl Hr Hat] Hpos] Hn ->.
  destruct (push_bit_spec (f n) s Hok) as (s' & Hrun & Hpo & Hbit); [lia..|].
  exists s'. split; [done|]. destruct (pushed_ok_bs_ok s s' 1 Hok Hpo) as [Hok' Hb']; [lia..|].
  destruct Hpo as (P1 & P2 & P3 & P4 & P5 & P6).
  split; [|lia]. split; [done|lia|lia|lia|]. intros i Hi.
  destruct (Z.eq_dec i n) as [->|]; [by rewrite <- Hbit, Hpos|]. rewrite P6 by lia. apply Hat. lia.
Qed.

Lemma push_uint8_written x k s n f :
  written s n f → is_u8 x → 0 ≤ k ≤ 8 → n + k ≤ 32 →
  (∀ i, 0 ≤ i < k → Z.testbit x (k - 1 - i) = f (n + i)) →
  ∃ s', nexus_bitstream_push_uint8 x k s = Some (tt, s') ∧ written s' (n + k) f.
Proof.
  intros [[Hok Hb Hl Hr Hat] Hpos] Hx Hk Hn Hf.
  destruct (push_uint8_spec x k s Hok Hx Hk) as (s' & Hrun & Hpo & Hbit); [lia..|].
  exists s'. split; [done|]. destruct (pushed_ok_bs_ok s s' k Hok Hpo) as [Hok' Hb']; [lia..|].
  destruct Hpo as (P1 & P2 & P3 & P4 & P5 & P6).
  split; [|lia]. split; [done|lia|lia|lia|]. intros i Hi.
  destruct (Z.lt_ge_cases i n); [rewrite P6 by lia; apply Hat; lia|].
  replace i with (bs_position s + (i - n)) by lia. rewrite Hbit, Hf by lia. f_equal. lia.
Qed.

(** [k] bits of a stream that spells the word [w] of [n] bits, from [p]. *)
Lemma pull_field s n w p k :
  spells s n (λ i, Z.testbit w (n - 1 - i)) → 0 ≤ p → 0 ≤ k → p + k ≤ n →
  bits_val (bs_data s) p (Z.to_nat k) = (w / 2 ^ (n - p - k)) mod 2 ^ k.
Proof.
  intros [Hok Hb Hl Hr Hat] Hp Hk Hfit.
  rewrite (bits_val_testbit _ _ _ (w / 2 ^ (n - p - k))); rewrite Z2Nat.id by lia; [done|].
  intros i Hi. rewrite Hat, Z.div_pow2_bits by lia. f_equal. lia.
Qed.

Lemma pull8_field s n w p k :
  spells s n (λ i, Z.testbit w (n - 1 - i)) → 0 ≤ p → 0 ≤ k ≤ 8 → p + k ≤ n →
  nexus_bitstream_pull_uint8 k (at_position p s) =
  Some ((w / 2 ^ (n - p - k)) mod 2 ^ k, at_position (p + k) s).
Proof.
  intros Hs Hp Hk Hfit. pose proof (spells_at_position s n _ p Hs ltac:(destruct Hs; lia)) as Hs'.
  pose proof Hs as [_ _ _ ? _]. pose proof Hs' as [Hok Hb Hl Hr Hat].
  rewrite pull_uint8_spec by (done || (rewrite Hb; cbn; lia)).
  rewrite (pull_field _ n w) by (done || (cbn; lia)). done.
Qed.

Lemma pull16_field s n w p k :
  spells s n (λ i, Z.testbit w (n - 1 - i)) → 0 ≤ p → 0 ≤ k ≤ 16 → p + k ≤ n →
  nexus_bitstream_pull_uint16_be k (at_position p s) =
  Some ((w / 2 ^ (n - p - k)) mod 2 ^ k, at_position (p + k) s).
Proof.
  intros Hs Hp Hk Hfit. pose proof (spells_at_position s n _ p Hs ltac:(destruct Hs; lia)) as Hs'.
  pose proof Hs as [_ _ _ ? _]. pose proof Hs' as [Hok Hb Hl Hr Hat].
  rewrite pull_uint16_be_spec by (done || (rewrite Hb; cbn; lia)).
  rewrite (pull_field _ n w) by (done || (cbn; lia)). done.
Qed.

(** ** Keys *)

(** The fourteen keys of a 28-bit word, from the top. *)
Definition word_key (w i : Z) : Z := 50 + (w / 4 ^ (13 - i)) mod 4.
Definition word_keys (w : Z) : list Z := word_key w <$> seqZ 0 14.

(** The word that keys spell. *)
Fixpoint keys_word (keys : list Z) : Z :=
  match keys with
  | [] => 0
  | k :: rest => (k - 50) * 4 ^ Z.of_nat (length rest) + keys_word rest
  end.

Definition small_key_ok (k : Z) : Prop := 50 ≤ k ≤ 53.

Lemma keys_word_range keys :
  Forall small_key_ok keys → 0 ≤ keys_word keys < 4 ^ Z.of_nat (length keys).
Proof.
  induction 1 as [|k rest Hk Hrest IH]; [done|]. cbn [keys_word length].
  rewrite Nat2Z.inj_succ, Z.pow_succ_r by lia. unfold small_key_ok in Hk. nia.
Qed.

Lemma keys_word_at keys i k :
  Forall small_key_ok keys → keys !! i = Some k →
  50 + (keys_word keys / 4 ^ (Z.of_nat (length keys) - 1 - Z.of_nat i)) mod 4 = k.
Proof.
  intros Hall. revert i. induction Hall as [|k0 rest Hk Hrest IH]; intros i Hi; [done|].
  pose proof (keys_word_range rest Hrest) as Hr. unfold small_key_ok in Hk.
  cbn [keys_word length]. rewrite Nat2Z.inj_succ. destruct i as [|i].
  - injection Hi as ->. replace (Z.succ (Z.of_nat (length rest)) - 1 - Z.of_nat 0) with (Z.of_nat (length rest)) by lia.
    rewrite Z.div_add_l by lia. rewrite (Z.div_small (keys_word rest)) by lia. lia.
  - cbn [lookup list_lookup] in Hi. pose proof (lookup_lt_Some _ _ _ Hi) as Hlt.
    rewrite <- (IH i Hi). f_equal.
    replace (Z.succ (Z.of_nat (length rest)) - 1 - Z.of_nat (S i)) with (Z.of_nat (length rest) - 1 - Z.of_nat i) by lia.
    set (e := Z.of_nat (length rest) - 1 - Z.of_nat i).
    replace (Z.of_nat (length rest)) with (1 + Z.of_nat i + e) by (unfold e; lia).
    rewrite !Z.pow_add_r by (unfold e; lia). change (4 ^ 1) with 4.
    rewrite (Z.mul_assoc (k0 - 50)). rewrite Z.div_add_l by (apply Z.pow_nonzero; unfold e; lia).
    rewrite (Z.add_comm (_ * (_ * _))). rewrite (Z.mul_comm 4), Z.mul_assoc. apply Z.mod_add. lia.
Qed.

Lemma word_keys_of_keys keys :
  Forall small_key_ok keys → length keys = 14%nat → word_keys (keys_word keys) = keys.
Proof.
  intros Hk Hl. apply list_eq. intros i. unfold word_keys. rewrite list_lookup_fmap.
  destruct (decide (i < 14)%nat).
  - rewrite lookup_seqZ_lt by lia. cbn [fmap option_fmap option_map].
    destruct (lookup_lt_is_Some_2 keys i) as [k Hki]; [lia|]. rewrite Hki. f_equal.
    rewrite <- (keys_word_at keys i k Hk Hki), Hl. unfold word_key. do 4 f_equal.
  - rewrite lookup_seqZ_ge by lia. rewrite lookup_ge_None_2 by lia. done.
Qed.

Lemma word_keys_length w : length (word_keys w) = 14%nat.
Proof. done. Qed.

Lemma word_key_ok w i : small_key_ok (word_key w i).
Proof. unfold small_key_ok, word_key. lia. Qed.

Lemma word_key_bit w i k :
  0 ≤ k < 2 → 0 ≤ i ≤ 13 → Z.testbit (word_key w i - 50) k = Z.testbit w (2 * (13 - i) + k).
Proof.
  intros Hk Hi. unfold word_key. replace (50 + _ - 50) with ((w / 4 ^ (13 - i)) mod 4) by lia.
  change 4 with (2 ^ 2) at 2. rewrite Z.mod_pow2_bits_low by lia.
  change 4 with (2 ^ 2). rewrite <- Z.pow_mul_r by lia. rewrite Z.div_pow2_bits by lia. f_equal. lia.
Qed.

Definition small_alphabet : list Z := [50; 51; 52; 53; 0].

Lemma alphabet_index_in k : small_key_ok k → alphabet_index small_alphabet 0 k = Some (Some (k - 50)).
Proof.
  unfold small_key_ok. intros Hk. assert (k = 50 ∨ k = 51 ∨ k = 52 ∨ k = 53) as [-> | [-> | [-> | ->]]] by lia; done.
Qed.

Lemma alphabet_index_out k : ¬ small_key_ok k → alphabet_index small_alphabet 0 k = Some None.
Proof.
  unfold small_key_ok. intros Hk. cbn [alphabet_index small_alphabet]. change (50 =? 0) with false.
  change (51 =? 0) with false. change (52 =? 0) with false. change (53 =? 0) with false. change (0 =? 0) with true.
  destruct (Z.eqb_spec k 50); [lia|]. destruct (Z.eqb_spec k 51); [lia|].
  destruct (Z.eqb_spec k 52); [lia|]. destruct (Z.eqb_spec k 53); [lia|]. done.
Qed.

Lemma push_keys_spec n i w keys s :
  written s (2 * i) (λ j, Z.testbit w (27 - j)) → 0 ≤ i → i + Z.of_nat n = 14 →
  (∀ j, i ≤ j < 14 → keys !! Z.to_nat j = Some (word_key w j)) →
  ∃ s', push_keys n i small_alphabet keys s = Some (true, s') ∧
    written s' 28 (λ j, Z.testbit w (27 - j)).
Proof.
  revert i s. induction n as [|n IH]; intros i s Hs Hi Hn Hkeys.
  { exists s. split; [done|]. by replace 28 with (2 * i) by lia. }
  cbn [push_keys]. rewrite aget_lookup, Hkeys by lia. cbn [mbind option_bind].
  pose proof (word_key_ok w i) as Hk. rewrite alphabet_index_in by done. cbn [mbind option_bind].
  unfold small_key_ok in Hk. rewrite u8_small by wrap.
  destruct (push_uint8_written (word_key w i - 50) 2 s (2 * i) _ Hs) as (s' & -> & Hs'); [wrap|lia|lia| |].
  { intros k Hk2. rewrite word_key_bit by lia. f_equal. lia. }
  cbn [mbind option_bind]. replace (2 * i + 2) with (2 * (i + 1)) in Hs' by lia.
  pose proof Hs' as [[_ _ Hl _ _] _]. rewrite Hl.
  replace (2 * (i + 1) =? (i + 1) * 2) with true by lia. cbn [negb].
  apply IH; [done|lia|lia|]. intros j Hj. apply Hkeys. lia.
Qed.

(** The first key that is not in the alphabet stops the loop. *)
Lemma push_keys_reject n i keys s f :
  written s (2 * i) f → 0 ≤ i → i + Z.of_nat n = 14 → (14 ≤ length keys)%nat →
  (∃ j k, i ≤ j < 14 ∧ keys !! Z.to_nat j = Some k ∧ ¬ small_key_ok k) →
  ∃ s', push_keys n i small_alphabet keys s = Some (false, s').
Proof.
  revert i s f. induction n as [|n IH]; intros i s f Hs Hi Hn Hlen (j & k & Hj & Hkj & Hbad); [lia|].
  cbn [push_keys]. destruct (lookup_lt_is_Some_2 keys (Z.to_nat i)) as [k0 Hk0]; [lia|].
  rewrite aget_lookup, Hk0 by lia. cbn [mbind option_bind].
  assert (Hdec : small_key_ok k0 ∨ ¬ small_key_ok k0) by (unfold small_key_ok; lia).
  destruct Hdec as [Hin|Hout].
  - rewrite alphabet_index_in by done. cbn [mbind option_bind]. unfold small_key_ok in Hin.
    rewrite u8_small by wrap.
    set (g := λ x, if x <? 2 * i then f x else Z.testbit (k0 - 50) (1 - (x - 2 * i))).
    assert (Hg : written s (2 * i) g).
    { destruct Hs as [[? ? ? ? Hat] ?]. split; [|done]. split; try done. intros x Hx. unfold g.
      replace (x <? 2 * i) with true by lia. by apply Hat. }
    destruct (push_uint8_written (k0 - 50) 2 s (2 * i) g Hg) as (s' & -> & Hs'); [wrap|lia|lia| |].
    { intros x Hx. unfold g. replace (2 * i + x <? 2 * i) with false by lia. f_equal. lia. }
    cbn [mbind option_bind]. replace (2 * i + 2) with (2 * (i + 1)) in Hs' by lia.
    pose proof Hs' as [[_ _ Hl _ _] _]. rewrite Hl.
    replace (2 * (i + 1) =? (i + 1) * 2) with true by lia. cbn [negb].
    apply (IH (i + 1) s' g); [done|lia|lia|done|]. exists j, k.
    destruct (Z.eq_dec j i) as [->|]; [|by split_and!; (done || lia)].
    rewrite Hkj in Hk0. injection Hk0 as ->. by destruct Hbad.
  - rewrite alphabet_index_out by done. cbn [mbind option_bind]. unfold mret, M_ret.
    cbn [mbind option_bind]. destruct Hs as [[_ _ Hl _ _] _]. rewrite Hl.
    replace (2 * i =? (i + 1) * 2) with false by lia. cbn [negb]. by exists s.
Qed.

(** ** Obfuscation *)

Lemma obfuscate_loop n p f g h s out prng :
  spells s 28 f → spells prng 32 g → written out p h → 0 ≤ p → p + Z.of_nat n ≤ 28 →
  (∀ i, p ≤ i < p + Z.of_nat n → h i = xorb (f i) (g i)) →
  ∃ out', for_loop n p obfuscate_body (at_position p s, out, at_position p prng) =
      Some (at_position (p + Z.of_nat n) s, out', at_position (p + Z.of_nat n) prng) ∧
    written out' (p + Z.of_nat n) h.
Proof.
  intros Hs Hg. revert p out. induction n as [|n IH]; intros p out Ho Hp Hfit Hh.
  { exists out. cbn [for_loop]. rewrite !Z.add_0_r. done. }
  destruct (push_bit_written (xorb (f p) (g p)) out p h Ho) as (out' & Hpush & Ho'); [lia|by rewrite Hh by lia|].
  assert (Hbody : obfuscate_body p (at_position p s, out, at_position p prng) =
                  Some (at_position (p + 1) s, out', at_position (p + 1) prng)).
  { unfold obfuscate_body. rewrite (pull_bit_spells s 28 f p Hs) by lia. cbn [mbind option_bind].
    rewrite (pull_bit_spells prng 32 g p Hg) by lia. cbn [mbind option_bind]. by rewrite Hpush. }
  cbn [for_loop]. rewrite Hbody. cbn [mbind option_bind]. destruct (IH (p + 1) out' Ho') as (out'' & -> & Ho''); [lia|lia| |].
  { intros i Hi. apply Hh. lia. }
  replace (p + 1 + Z.of_nat n) with (p + Z.of_nat (S n)) in * by lia. by exists out''.
Qed.

(** Bits copied from position [p] of one stream to the end of another; the
    loop variable does not matter. *)
Lemma copy_loop n i p q f h s out len :
  spells s len f → written out q h → 0 ≤ p → p + Z.of_nat n ≤ len → q + Z.of_nat n ≤ 32 →
  (∀ j, 0 ≤ j < Z.of_nat n → h (q + j) = f (p + j)) →
  ∃ out', for_loop n i copy_bit_body (at_position p s, out) =
      Some (at_position (p + Z.of_nat n) s, out') ∧ written out' (q + Z.of_nat n) h.
Proof.
  intros Hs. revert i p q out. induction n as [|n IH]; intros i p q out Ho Hp Hfit Hq Hh.
  { exists out. cbn [for_loop]. rewrite !Z.add_0_r. done. }
  destruct (push_bit_written (f p) out q h Ho) as (out' & Hpush & Ho'); [lia| |].
  { specialize (Hh 0 ltac:(lia)). rewrite !Z.add_0_r in Hh. done. }
  assert (Hbody : copy_bit_body i (at_position p s, out) = Some (at_position (p + 1) s, out')).
  { unfold copy_bit_body. rewrite (pull_bit_spells s len f p Hs) by lia. cbn [mbind option_bind].
    by rewrite Hpush. }
  cbn [for_loop]. rewrite Hbody. cbn [mbind option_bind]. destruct (IH (i + 1) (p + 1) (q + 1) out' Ho') as (out'' & -> & Ho''); [lia..| |].
  { intros j Hj. specialize (Hh (j + 1) ltac:(lia)).
    replace (q + 1 + j) with (q + (j + 1)) by lia. by replace (p + 1 + j) with (p + (j + 1)) by lia. }
  replace (p + 1 + Z.of_nat n) with (p + Z.of_nat (S n)) by lia.
  replace (q + 1 + Z.of_nat n) with (q + Z.of_nat (S n)) in Ho'' by lia. by exists out''.
Qed.

Lemma testbit_bits_val data pos n k :
  0 ≤ k < Z.of_nat n → Z.testbit (bits_val data pos n) k = bit_at data (pos + (Z.of_nat n - 1 - k)).
Proof.
  revert k. induction n as [|n IH]; intros k Hk; [lia|]. cbn [bits_val].
  rewrite Z.add_comm, (Z.mul_comm 2).
  assert (Hb2z : Z.b2z (bit_at data (pos + Z.of_nat n)) + bits_val data pos n * 2 =
                 Z.b2z (bit_at data (pos + Z.of_nat n)) + 2 * bits_val data pos n) by lia.
  rewrite Hb2z. destruct (Z.eq_dec k 0) as [->|Hne].
  - rewrite Z.add_b2z_double_bit0. f_equal. lia.
  - replace k with (Z.succ (k - 1)) by lia. rewrite <- Z.div2_bits by lia.
    replace ((_ + 2 * bits_val data pos n) / 2) with (bits_val data pos n) by (destruct (bit_at _ _); simpl Z.b2z; lia).
    rewrite IH by lia. f_equal. lia.
Qed.

Lemma testbit_pack x c n j :
  0 ≤ n → 0 ≤ c < 2 ^ n → 0 ≤ j →
  Z.testbit (x * 2 ^ n + c) j = if j <? n then Z.testbit c j else Z.testbit x (j - n).
Proof.
  intros Hn Hc Hj. destruct (Z.ltb_spec j n).
  - rewrite <- (Z.mod_pow2_bits_low _ n) by lia. rewrite Z.add_comm, Z.mod_add, Z.mod_small by lia. done.
  - replace j with (j - n + n) at 1 by lia. rewrite <- Z.div_pow2_bits by lia.
    rewrite Z.add_comm, Z.div_add by (apply Z.pow_nonzero; lia). rewrite Z.div_small by lia. done.
Qed.

(** ** The encoder *)

(** The sixteen obfuscated bits of a message: six bits of ID, the type, eight
    bits of body. *)
Definition small_word (six type eight : Z) : Z := (six * 4 + type) * 256 + eight.

(** The pseudorandom bits of a check. *)
Definition small_prng (check : Z) : list Z :=
  prng_ref NEXUS_INTEGRITY_CHECK_FIXED_00_KEY (le_bytes 2 (nexus_endian_htobe16 check)) 4.
Definition small_pad (check : Z) : Z := bits_val (small_prng check) 0 16.

Definition small_code (six type eight check : Z) : Z :=
  (small_word six type eight .^ small_pad check) * 2 ^ 12 + check.
Definition small_plain (six type eight check : Z) : Z := small_word six type eight * 2 ^ 12 + check.

Definition small_frame (six type eight check : Z) (pad : list Z) : nexus_keycode_frame :=
  mk_frame (word_keys (small_code six type eight check) ++ pad) 14.

Definition small_fields (six type eight check : Z) : Prop :=
  0 ≤ six < 64 ∧ 0 ≤ type < 4 ∧ 0 ≤ eight < 256 ∧ 0 ≤ check < 4096.

Lemma small_prng_length check : length (small_prng check) = 4%nat.
Proof. unfold small_prng. by rewrite prng_ref_length by lia. Qed.

Lemma small_prng_stream check :
  spells (nexus_bitstream_init (small_prng check) 32 32) 32 (bit_at (small_prng check)).
Proof.
  pose proof (small_prng_length check) as Hl.
  split; cbn; try lia; try done.
  - unfold bs_ok, bs_bits. cbn. rewrite Hl. split_and!; try lia. apply prng_ref_ok.
Qed.

#[global] Opaque small_prng.

(** Every word of 28 bits is the code of one message. *)
Lemma small_code_surjective w :
  0 ≤ w < 2 ^ 28 → ∃ six type eight check, small_fields six type eight check ∧ w = small_code six type eight check.
Proof.
  intros Hw. set (check := w mod 4096). set (v := (w / 4096) .^ small_pad check).
  assert (Hpad : 0 ≤ small_pad check < 2 ^ 16) by apply (bits_val_range _ _ 16).
  assert (Hv : 0 ≤ v < 2 ^ 16).
  { apply lxor_range; [lia| |done]. pow_const. lia. }
  exists (v / 1024), (v / 256 mod 4), (v mod 256), check. unfold small_fields.
  split; [unfold check; pow_const; lia|].
  unfold small_code. assert (Hword : small_word (v / 1024) (v / 256 mod 4) (v mod 256) = v)
    by (unfold small_word; pow_const; lia).
  rewrite Hword. unfold v. rewrite Z.lxor_assoc, Z.lxor_nilpotent, Z.lxor_0_r. unfold check.
  change (2 ^ 12) with 4096. lia.
Qed.

Lemma obfuscate_spec six type eight check s out :
  small_fields six type eight check →
  spells s 28 (λ i, Z.testbit (small_code six type eight check) (27 - i)) →
  (∀ f, written out 0 f) →
  ∃ s' out' prng', nexus_keycode_pro_small_reversibly_obfuscate s out
      (nexus_bitstream_init (small_prng check) 32 32) 16 = Some (s', out', prng') ∧
    written out' 28 (λ i, Z.testbit (small_plain six type eight check) (27 - i)).
Proof.
  intros (Hsix & Htype & Height & Hcheck) Hs Hout.
  unfold nexus_keycode_pro_small_reversibly_obfuscate, nexus_bitstream_set_bit_position, modify.
  cbn [mbind option_bind]. fold (at_position 0 out). fold (at_position 0 s).
  set (prng := nexus_bitstream_init (small_prng check) 32 32).
  fold (at_position 0 prng). set (h := λ i, Z.testbit (small_plain six type eight check) (27 - i)).
  assert (Ho : at_position 0 out = out) by (destruct (Hout h) as [_ Hp]; destruct out; cbn in *; by rewrite Hp).
  rewrite Ho. change (Z.to_nat 16) with 16%nat.
  assert (Hh : ∀ i, 0 ≤ i < 28 → h i =
    if i <? 16 then xorb (Z.testbit (small_code six type eight check) (27 - i)) (bit_at (small_prng check) i)
    else Z.testbit (small_code six type eight check) (27 - i)).
  { intros i Hi. unfold h, small_plain, small_code. rewrite !testbit_pack by (try done; lia).
    destruct (Z.ltb_spec i 16).
    - replace (27 - i <? 12) with false by lia. rewrite Z.lxor_spec. unfold small_pad.
      rewrite testbit_bits_val by lia. replace (0 + _) with i by lia.
      by destruct (Z.testbit (small_word six type eight) (27 - i - 12)), (bit_at _ i).
    - by replace (27 - i <? 12) with true by lia. }
  destruct (obfuscate_loop 16 0 _ _ h s out prng Hs (small_prng_stream check) (Hout h)) as (out1 & -> & Ho1);
    [lia|lia| |].
  { intros i Hi. rewrite Hh by lia. by replace (i <? 16) with true by lia. }
  cbn [mbind option_bind]. change (0 + Z.of_nat 16) with 16 in *.
  pose proof Hs as [_ _ Hl _ _].
  cbn [at_position bs_length bs_position]. rewrite Hl. change (Z.to_nat (28 - 16)) with 12%nat.
  destruct (copy_loop 12 16 16 16 _ h s out1 28 Hs Ho1) as (out2 & Hrun & Ho2); [lia..| |].
  { intros j Hj. rewrite Hh by lia. by replace (16 + j <? 16) with false by lia. }
  fold (at_position 16 s). rewrite Hrun. cbn [mbind option_bind]. by eexists _, out2, _.
Qed.

Lemma small_prng_spec check :
  nexus_check_compute_pseudorandom_bytes NEXUS_INTEGRITY_CHECK_FIXED_00_KEY
    (le_bytes 2 (nexus_endian_htobe16 check)) 2 4 = Some (small_prng check).
Proof.
  apply (pseudorandom_bytes_spec NEXUS_INTEGRITY_CHECK_FIXED_00_KEY (le_bytes 2 (nexus_endian_htobe16 check)) 4);
    [apply fixed_keys_ok|by vm_compute; lia|apply le_bytes_ok|rewrite le_bytes_length; lia|lia].
Qed.

(** The fields of the two words. *)
Lemma small_code_check six type eight check :
  small_fields six type eight check → (small_code six type eight check / 2 ^ 0) mod 2 ^ 12 = check.
Proof.
  intros (_ & _ & _ & Hc). unfold small_code. rewrite Z.div_1_r, Z.add_comm, Z.mod_add by done.
  apply Z.mod_small. by pow_const.
Qed.

Lemma small_plain_fields six type eight check :
  small_fields six type eight check →
  (small_plain six type eight check / 2 ^ 22) mod 2 ^ 6 = six ∧
  (small_plain six type eight check / 2 ^ 20) mod 2 ^ 2 = type ∧
  (small_plain six type eight check / 2 ^ 12) mod 2 ^ 8 = eight.
Proof.
  intros (?&?&?&?). unfold small_plain, small_word.
  change (2 ^ 22) with 4194304. change (2 ^ 20) with 1048576. change (2 ^ 12) with 4096.
  change (2 ^ 6) with 64. change (2 ^ 2) with 4. change (2 ^ 8) with 256. lia.
Qed.

Lemma word_keys_lookup w pad j :
  0 ≤ j < 14 → (word_keys w ++ pad) !! Z.to_nat j = Some (word_key w j).
Proof.
  intros Hj. rewrite lookup_app_l by (rewrite word_keys_length; lia). unfold word_keys.
  rewrite list_lookup_fmap, lookup_seqZ_lt by lia. cbn [fmap option_fmap option_map]. do 2 f_equal. lia.
Qed.

Section SmallParse.
Context {P : Type} `{ProductLaws P} `{!ReliableNv P} `{KeycodeConfigOk}.

(** What parsing makes of the fields: the deobfuscated stream, the message
    and, for a passthrough message, the call that handles its bits. *)
Definition small_parsed (garbage : list Z) (ext_garbage : nexus_keycode_pro_extended_small_message)
    (six type eight check : Z) (out : nexus_bitstream)
    : M (keycode_pro P) (bool * nexus_keycode_pro_small_message) := λ s,
  let id := if (type =? 0) || (type =? 2) then window_id (pd_index (pro_stored s)) six else six in
  let m := mk_small_message id type eight check in
  if type =? 1 then
    ('(passthrough, _) ← lift (_nexus_keycode_pro_small_internal_extract_passthrough_message
        (nexus_bitstream_init (take 4 garbage) 32 0) out);
     '(_, passthrough) ← lift (nexus_bitstream_set_bit_position 0 passthrough);
     result ← nexus_keycode_pro_small_internal_bitstream_passthrough ext_garbage passthrough;
     mret (bool_decide (result = NXP_KEYCODE_PASSTHROUGH_ERROR_NONE), m)) s
  else Some ((true, m), s).

Lemma small_parse_fields garbage ext_garbage six type eight check pad (s : keycode_pro P) :
  small_fields six type eight check → pro_alphabet s = small_alphabet → pd_ok (pro_stored s) →
  bytes_ok garbage → (4 ≤ length garbage)%nat →
  ∃ out, written out 28 (λ i, Z.testbit (small_plain six type eight check) (27 - i)) ∧
    nexus_keycode_pro_small_parse garbage ext_garbage (small_frame six type eight check pad)
      small_message_zero s =
    small_parsed garbage ext_garbage six type eight check (at_position 16 out) s.
Proof.
  intros Hf Ha Hpd Hg Hgl. unfold nexus_keycode_pro_small_parse.
  change (negb (fr_length (small_frame six type eight check pad) =? NEXUS_KEYCODE_MESSAGE_LENGTH_MAX_DIGITS_SMALL))
    with false. cbn match. cbv zeta. erewrite bind_Some by reflexivity. rewrite Ha.
  set (W := small_code six type eight check).
  assert (Hg4 : length (take 4 garbage) = 4%nat) by (rewrite length_take; lia).
  assert (Hgb : bytes_ok (take 4 garbage)) by by apply Forall_take.
  destruct (push_keys_spec 14 0 W (fr_keys (small_frame six type eight check pad))
    (nexus_bitstream_init (take 4 garbage) 32 0)) as (ms & Hpush & [Hms _]).
  { by apply written_init. }
  { lia. }
  { lia. }
  { intros j Hj. by apply word_keys_lookup. }
  change (Z.to_nat NEXUS_KEYCODE_MESSAGE_LENGTH_MAX_DIGITS_SMALL) with 14%nat.
  rewrite (bind_lift _ _ _ _ Hpush). cbn [negb].
  erewrite bind_Some by reflexivity. cbv beta iota zeta.
  change NEXUS_KEYCODE_PRO_SMALL_OBFUSCATED_MESSAGE_BITS_COUNT with 16.
  change NEXUS_KEYCODE_PRO_SMALL_MAC_BITS_COUNT with 12. fold (at_position 16 ms).
  pose proof (pull16_field ms 28 W 16 12 Hms ltac:(lia) ltac:(lia) ltac:(lia)) as Hcheck.
  replace (28 - 16 - 12) with 0 in Hcheck by lia. unfold W in Hcheck. rewrite small_code_check in Hcheck by done.
  rewrite (bind_lift _ _ _ _ Hcheck). cbv beta iota zeta.
  rewrite (bind_lift _ _ _ _ (small_prng_spec check)).
  destruct (obfuscate_spec six type eight check (at_position (16 + 12) ms)
    (nexus_bitstream_init (take 4 garbage) 32 0) Hf) as (s1 & out & p1 & Hobf & Hout).
  { by apply spells_at_position. }
  { intros f. by apply written_init. }
  rewrite (bind_lift _ _ _ _ Hobf). cbv beta iota zeta. erewrite bind_Some by reflexivity.
  cbv beta iota zeta. fold (at_position 0 out). exists out. split; [done|]. destruct Hout as [Hout _].
  destruct (small_plain_fields six type eight check Hf) as (E6 & E2 & E8).
  assert (Hf6 := pull8_field out 28 (small_plain six type eight check) 0 6 Hout ltac:(lia) ltac:(lia) ltac:(lia)).
  replace (28 - 0 - 6) with 22 in Hf6 by lia. rewrite E6 in Hf6. change (0 + 6) with 6 in Hf6.
  rewrite (bind_lift _ _ _ _ Hf6). cbv beta iota zeta.
  assert (Hf2 := pull8_field out 28 (small_plain six type eight check) 6 2 Hout ltac:(lia) ltac:(lia) ltac:(lia)).
  replace (28 - 6 - 2) with 20 in Hf2 by lia. rewrite E2 in Hf2. change (6 + 2) with 8 in Hf2.
  rewrite (bind_lift _ _ _ _ Hf2). cbv beta iota zeta.
  assert (Hf8 := pull8_field out 28 (small_plain six type eight check) 8 8 Hout ltac:(lia) ltac:(lia) ltac:(lia)).
  replace (28 - 8 - 8) with 12 in Hf8 by lia. rewrite E8 in Hf8. change (8 + 8) with 16 in Hf8.
  rewrite (bind_lift _ _ _ _ Hf8). cbv beta iota zeta.
  destruct Hf as (Hsix & Htype & Height & Hc).
  rewrite be16toh_htobe16 by (unfold is_u16; lia).
  unfold nexus_keycode_pro_get_current_pd_index. erewrite bind_Some by reflexivity.
  change NEXUS_KEYCODE_PRO_SMALL_ACTIVATION_ADD_CREDIT_TYPE with 0.
  change NEXUS_KEYCODE_PRO_SMALL_ACTIVATION_SET_CREDIT_TYPE with 2.
  change NEXUS_KEYCODE_PRO_SMALL_TYPE_PASSTHROUGH with 1. destruct Hpd as [Hp1 Hp2].
  assert (Hid : (if (type =? 0) || (type =? 2)
    then lift (nexus_keycode_pro_infer_full_message_id six (pd_index (pro_stored s))
           NEXUS_KEYCODE_PRO_RECEIVE_WINDOW_BEFORE_PD NEXUS_KEYCODE_PRO_RECEIVE_WINDOW_AFTER_PD)
    else mret six) s =
    Some (if (type =? 0) || (type =? 2) then window_id (pd_index (pro_stored s)) six else six, s)).
  { destruct (_ || _); [|done]. unfold lift.
    unfold NEXUS_KEYCODE_PRO_RECEIVE_WINDOW_BEFORE_PD, NEXUS_KEYCODE_PRO_RECEIVE_WINDOW_AFTER_PD.
    by rewrite (infer_full_message_id_spec six (pd_index (pro_stored s))) by lia. }
  rewrite (bind_Some _ _ _ _ _ Hid). unfold small_parsed. cbv zeta. by destruct (type =? 1).
Qed.

(** ** Passthrough messages *)

(** The 26 passthrough bits. *)
Definition ext_word (six eight check : Z) : Z := (six * 256 + eight) * 2 ^ 12 + check.

Lemma small_plain_ext_bit six eight check i :
  0 ≤ six < 64 → 0 ≤ eight < 256 → 0 ≤ check < 4096 → 0 ≤ i < 26 →
  Z.testbit (ext_word six eight check) (25 - i) =
  Z.testbit (small_plain six 1 eight check) (27 - if i <? 6 then i else i + 2).
Proof.
  intros Hsix Height Hc Hi. unfold ext_word, small_plain, small_word.
  assert (Hplain : ((six * 4 + 1) * 256 + eight) * 2 ^ 12 + check =
    (six * 2 ^ 2 + 1) * 2 ^ 20 + (eight * 2 ^ 12 + check)) by (change (2 ^ 20) with (256 * 2 ^ 12); change (2 ^ 2) with 4; ring).
  assert (Hext : (six * 256 + eight) * 2 ^ 12 + check = six * 2 ^ 20 + (eight * 2 ^ 12 + check))
    by (change (2 ^ 20) with (256 * 2 ^ 12); ring).
  assert (Hlow : 0 ≤ eight * 2 ^ 12 + check < 2 ^ 20).
  { change (2 ^ 12) with 4096. change (2 ^ 20) with 1048576. lia. }
  rewrite Hplain, Hext.
  destruct (Z.ltb_spec i 6).
  - rewrite (testbit_pack six), (testbit_pack (six * 2 ^ 2 + 1)) by lia.
    replace (25 - i <? 20) with false by lia. replace (27 - i <? 20) with false by lia.
    rewrite testbit_pack by lia. replace (27 - i - 20 <? 2) with false by lia. f_equal. lia.
  - rewrite (testbit_pack six), (testbit_pack (six * 2 ^ 2 + 1)) by lia.
    replace (25 - i <? 20) with true by lia. replace (27 - (i + 2) <? 20) with true by lia. f_equal. lia.
Qed.

Lemma extract_spec six eight check out pass p :
  0 ≤ six < 64 → 0 ≤ eight < 256 → 0 ≤ check < 4096 → 0 ≤ p ≤ 32 →
  spells out 28 (λ i, Z.testbit (small_plain six 1 eight check) (27 - i)) → (∀ f, written pass 0 f) →
  ∃ pass' out', _nexus_keycode_pro_small_internal_extract_passthrough_message pass (at_position p out) =
      Some (pass', out') ∧ written pass' 26 (λ i, Z.testbit (ext_word six eight check) (25 - i)).
Proof.
  intros Hsix Height Hc Hp Hout Hpass. set (q := λ i, Z.testbit (ext_word six eight check) (25 - i)).
  unfold _nexus_keycode_pro_small_internal_extract_passthrough_message, nexus_bitstream_set_bit_position, modify.
  cbn [mbind option_bind]. fold (at_position 0 (at_position p out)). fold (at_position 0 pass).
  change (at_position 0 (at_position p out)) with (at_position 0 out).
  assert (Hp0 : at_position 0 pass = pass) by (destruct (Hpass q) as [_ E]; destruct pass; cbn in *; by rewrite E).
  rewrite Hp0.
  destruct (copy_loop 6 0 0 0 _ q out pass 28 Hout (Hpass q)) as (p1 & -> & Hp1); [lia..| |].
  { intros j Hj. unfold q. rewrite small_plain_ext_bit by lia. by replace (0 + j <? 6) with true by lia. }
  cbn [mbind option_bind]. fold (at_position 8 (at_position (0 + Z.of_nat 6) out)).
  change (at_position 8 (at_position (0 + Z.of_nat 6) out)) with (at_position 8 out).
  destruct (copy_loop 20 0 8 (0 + Z.of_nat 6) _ q out p1 28 Hout Hp1) as (p2 & -> & Hp2); [lia..| |].
  { intros j Hj. unfold q. rewrite small_plain_ext_bit by lia.
    match goal with |- context [if ?b then _ else _] => destruct b eqn:Eb end; [exfalso; apply Z.ltb_lt in Eb; cbn in Eb; lia|]. f_equal. lia. }
  cbn [mbind option_bind]. by eexists p2, _.
Qed.

Lemma ext_word_fields six eight check :
  0 ≤ six < 64 → 0 ≤ eight < 256 → 0 ≤ check < 4096 →
  Z.testbit (ext_word six eight check) 25 = (32 <=? six) ∧
  (ext_word six eight check / 2 ^ 22) mod 2 ^ 3 = six / 4 mod 8 ∧
  (ext_word six eight check / 2 ^ 20) mod 2 ^ 2 = six mod 4 ∧
  (ext_word six eight check / 2 ^ 12) mod 2 ^ 8 = eight ∧
  (ext_word six eight check / 2 ^ 0) mod 2 ^ 12 = check.
Proof.
  intros. unfold ext_word. change (2 ^ 22) with 4194304. change (2 ^ 20) with 1048576. change (2 ^ 12) with 4096.
  change (2 ^ 3) with 8. change (2 ^ 2) with 4. change (2 ^ 8) with 256. change (2 ^ 0) with 1.
  split; [|lia]. rewrite Z.testbit_eqb by lia. change (2 ^ 25) with 33554432.
  apply eq_true_iff_eq. rewrite Z.eqb_eq, Z.leb_le. lia.
Qed.

(** The extended message a passthrough message carries. *)
Definition ext_of_fields (ext_garbage : nexus_keycode_pro_extended_small_message) (six eight check : Z) :=
  mk_ext_message (em_inferred_message_id ext_garbage) 0 (six mod 4) eight check.

Lemma ext_parse_spec eg six eight check pass :
  0 ≤ six < 64 → 0 ≤ eight < 256 → 0 ≤ check < 4096 →
  spells pass 26 (λ i, Z.testbit (ext_word six eight check) (25 - i)) →
  ∃ b m pass', nexus_keycode_pro_extended_small_parse eg (at_position 1 pass) = Some ((b, m), pass') ∧
    b = (six / 4 mod 8 =? 0) ∧ (b = true → m = ext_of_fields eg six eight check).
Proof.
  intros Hsix Height Hc Hs. destruct (ext_word_fields six eight check Hsix Height Hc) as (_ & E3 & E2 & E8 & E12).
  unfold nexus_keycode_pro_extended_small_parse.
  assert (Hf3 := pull8_field pass 26 (ext_word six eight check) 1 3 Hs ltac:(lia) ltac:(lia) ltac:(lia)).
  replace (26 - 1 - 3) with 22 in Hf3 by lia. rewrite E3 in Hf3. change (1 + 3) with 4 in Hf3.
  rewrite (bind_Some _ _ _ _ _ Hf3). change NEXUS_KEYCODE_PRO_EXTENDED_SMALL_TYPE_SET_CREDIT_AND_WIPE_FLAG with 0.
  destruct (Z.eqb_spec (six / 4 mod 8) 0) as [Ht|Ht]; cbn [negb].
  2: { eexists false, _, _. split; [reflexivity|]. done. }
  assert (Hf2 := pull8_field pass 26 (ext_word six eight check) 4 2 Hs ltac:(lia) ltac:(lia) ltac:(lia)).
  replace (26 - 4 - 2) with 20 in Hf2 by lia. rewrite E2 in Hf2. change (4 + 2) with 6 in Hf2.
  rewrite (bind_Some _ _ _ _ _ Hf2). cbv zeta.
  assert (Hf8 := pull8_field pass 26 (ext_word six eight check) 6 8 Hs ltac:(lia) ltac:(lia) ltac:(lia)).
  replace (26 - 6 - 8) with 12 in Hf8 by lia. rewrite E8 in Hf8. change (6 + 8) with 14 in Hf8.
  rewrite (bind_Some _ _ _ _ _ Hf8).
  assert (Hf12 := pull16_field pass 26 (ext_word six eight check) 14 12 Hs ltac:(lia) ltac:(lia) ltac:(lia)).
  replace (26 - 14 - 12) with 0 in Hf12 by lia. rewrite E12 in Hf12.
  rewrite (bind_Some _ _ _ _ _ Hf12).
  eexists true, _, _. split; [reflexivity|]. split; [done|]. intros _. unfold ext_of_fields.
  cbn [em_inferred_message_id em_type_code em_truncated_message_id em_increment_id em_check]. by rewrite Ht.
Qed.

Definition passthrough_effect (eg : nexus_keycode_pro_extended_small_message) (six eight check : Z)
    : M (keycode_pro P) bool :=
  if six <? 32 then mret false
  else if six / 4 mod 8 =? 0 then
    nexus_keycode_pro_extended_small_apply (ext_of_fields eg six eight check);; mret true
  else on_prod (feedback_start NXP_KEYCODE_FEEDBACK_TYPE_MESSAGE_INVALID);; mret true.

Lemma small_parsed_passthrough garbage eg six eight check out (s : keycode_pro P) :
  small_fields six 1 eight check → bytes_ok garbage → (4 ≤ length garbage)%nat →
  written out 28 (λ i, Z.testbit (small_plain six 1 eight check) (27 - i)) →
  small_parsed garbage eg six 1 eight check (at_position 16 out) s =
  (parsed ← passthrough_effect eg six eight check;
   mret (parsed, mk_small_message six 1 eight check)) s.
Proof.
  intros (Hsix & _ & Height & Hc) Hg Hgl [Hout _]. unfold small_parsed. cbv zeta.
  change (1 =? 1) with true. change ((1 =? 0) || (1 =? 2)) with false. cbn match.
  destruct (extract_spec six eight check out (nexus_bitstream_init (take 4 garbage) 32 0) 16 Hsix Height Hc)
    as (pass & out' & Hrun & [Hpass _]); [lia|done| |].
  { intros f. apply written_init; [by apply Forall_take|]. rewrite length_take. lia. }
  rewrite (bind_lift _ _ _ _ Hrun). erewrite bind_Some by reflexivity. cbv beta iota zeta.
  unfold nexus_keycode_pro_small_internal_bitstream_passthrough. fold (at_position 0 pass).
  destruct (ext_word_fields six eight check Hsix Height Hc) as (E0 & _).
  pose proof (pull_bit_spells pass 26 _ 0 Hpass ltac:(lia)) as Hb. cbv beta in Hb. change (25 - 0) with 25 in Hb.
  rewrite E0 in Hb. change (0 + 1) with 1 in Hb. rewrite bind_assoc, (bind_lift _ _ _ _ Hb).
  unfold passthrough_effect.
  destruct (Z.leb_spec 32 six).
  2: { by replace (six <? 32) with true by lia. }
  replace (six <? 32) with false by lia. cbn [eqb negb NEXUS_KEYCODE_PRO_EXTENDED_SMALL_PASSTHROUGH_BIT_ID_EXTENDED_KEYCODE].
  unfold nexus_keycode_pro_extended_small_parse_and_apply_keycode.
  destruct (ext_parse_spec eg six eight check pass Hsix Height Hc Hpass) as (b & m & pass' & Hparse & -> & Hm).
  rewrite !bind_assoc, (bind_lift _ _ _ _ Hparse).
  destruct (six / 4 mod 8 =? 0); cbn [negb].
  - rewrite Hm by done. rewrite !bind_assoc. unfold mbind, M_bind.
    by destruct (nexus_keycode_pro_extended_small_apply _ _) as [[r s1]|].
  - rewrite !bind_assoc. done.
Qed.
End SmallParse.

(** ** Small-keypad keycodes from the key presses to the product

    [nexus_keycode_pro_small_parse_and_apply] as a whole: it returns on every
    frame, and the keys that encode a message have the message's effect. *)


Section SmallTotal.
Context {P : Type} `{ProductLaws P} `{!ReliableNv P} `{KeycodeConfigOk}.

(** What parsing needs of the state. *)
Definition small_ready (s : keycode_pro P) : Prop :=
  pro_ok s ∧ pd_ok (pro_stored s) ∧ pro_alphabet s = small_alphabet.

Lemma small_fields_message id type body check :
  small_fields (id mod 64) type body check → is_u32 id → small_message_ok (mk_small_message id type body check).
Proof. intros (_ & ? & ? & _) Hid. split_and!; cbn; (done || wrap). Qed.

Lemma ext_of_fields_ok eg six eight check :
  0 ≤ six < 64 → 0 ≤ eight < 256 → ext_message_ok (ext_of_fields eg six eight check).
Proof. intros. unfold ext_message_ok, ext_of_fields. cbn. split_and!; (done || wrap). Qed.

(** Parsing anything: rejected without a change, or the fields of the one
    message that the keys encode. *)
Lemma small_parse_cases garbage eg frame (s : keycode_pro P) :
  frame_ok frame → small_ready s → bytes_ok garbage → (4 ≤ length garbage)%nat →
  (∃ m, nexus_keycode_pro_small_parse garbage eg frame small_message_zero s = Some ((false, m), s)) ∨
  ∃ six type eight check pad, small_fields six type eight check ∧
    frame = small_frame six type eight check pad.
Proof.
  intros [Hk Hl] (_ & _ & Ha) Hg Hgl.
  destruct (Z.eq_dec (fr_length frame) 14) as [Hlen|Hlen].
  2: { left. eexists. unfold nexus_keycode_pro_small_parse, NEXUS_KEYCODE_MESSAGE_LENGTH_MAX_DIGITS_SMALL.
       by replace (fr_length frame =? 14) with false by lia. }
  assert (Hdec : ∀ k, Decision (small_key_ok k)) by (intros; unfold small_key_ok; solve_decision).
  destruct (decide (Forall small_key_ok (take 14 (fr_keys frame)))) as [Hall|Hbad].
  - right. assert (Hl14 : length (take 14 (fr_keys frame)) = 14%nat) by (rewrite length_take; lia).
    pose proof (keys_word_range _ Hall) as Hr. rewrite Hl14 in Hr. change (4 ^ Z.of_nat 14) with (2 ^ 28) in Hr.
    destruct (small_code_surjective _ Hr) as (six & type & eight & check & Hf & Hw).
    exists six, type, eight, check, (drop 14 (fr_keys frame)). split; [done|].
    unfold small_frame. rewrite <- Hw, word_keys_of_keys by done. rewrite take_drop, <- Hlen. by destruct frame.
  - left. unfold nexus_keycode_pro_small_parse. rewrite Hlen. eexists.
    change (negb (14 =? NEXUS_KEYCODE_MESSAGE_LENGTH_MAX_DIGITS_SMALL)) with false. cbn match. cbv zeta.
    erewrite bind_Some by reflexivity. rewrite Ha.
    destruct (push_keys_reject 14 0 (fr_keys frame) (nexus_bitstream_init (take 4 garbage) 32 0) (λ _, false))
      as (s' & Hrun).
    { apply written_init; [by apply Forall_take|]. rewrite length_take. lia. }
    { lia. }
    { lia. }
    { lia. }
    { apply not_Forall_Exists, Exists_exists in Hbad as (k & Hin & Hk'); [|done].
      apply list_elem_of_lookup in Hin as [i Hi]. apply lookup_take_Some in Hi as [Hi Hlt].
      exists (Z.of_nat i), k. rewrite Nat2Z.id. split_and!; (done || lia). }
    change (Z.to_nat NEXUS_KEYCODE_MESSAGE_LENGTH_MAX_DIGITS_SMALL) with 14%nat.
    by rewrite (bind_lift _ _ _ _ Hrun).
Qed.

(** The handling of a passthrough message. *)
Lemma passthrough_effect_returns eg six eight check (s : keycode_pro P) :
  0 ≤ six < 64 → 0 ≤ eight < 256 → pro_ok s → pd_ok (pro_stored s) →
  ∃ b s', passthrough_effect eg six eight check s = Some (b, s') ∧ pro_ok s' ∧
    nxp_keycode_get_secret_key (pro_prod s') = nxp_keycode_get_secret_key (pro_prod s).
Proof.
  intros Hsix Height Hok Hpd. unfold passthrough_effect.
  destruct (six <? 32); [by eexists false, s|]. destruct (_ =? 0).
  - destruct (ext_apply_step (ext_of_fields eg six eight check) s (ext_of_fields_ok eg six eight check Hsix Height) Hok Hpd)
      as (r & s' & Hrun & Hok' & Hk & _).
    rewrite (bind_Some _ _ _ _ _ Hrun). by exists true, s'.
  - unfold feedback_start.
    destruct (on_prod_frame (nxp_keycode_feedback_start NXP_KEYCODE_FEEDBACK_TYPE_MESSAGE_INVALID) s
      (feedback_frame _ _)) as (s' & Hrun & _ & _ & _ & _ & _ & _ & Hok' & Hk).
    rewrite (bind_Some _ _ _ _ _ Hrun). exists true, s'. by auto.
Qed.

(** ** Properties *)

(** the fourteen keys that encode an ADD CREDIT, SET CREDIT, maintenance
    or test message have the effect of applying the message: the key bits, the
    obfuscation and the inference of the full ID give back what was encoded. *)
Theorem small_keycode_round_trip m pad garbage eg (s : keycode_pro P) :
  small_ready s → bytes_ok garbage → (4 ≤ length garbage)%nat →
  small_fields (sm_full_message_id m mod 64) (sm_type_code m) (sm_body m) (sm_check m) →
  sm_type_code m ≠ 1 →
  (if sm_type_code m =? 3 then 0 ≤ sm_full_message_id m < 64
   else id_in_window (pro_stored s) (sm_full_message_id m)) →
  nexus_keycode_pro_small_parse_and_apply garbage eg
    (small_frame (sm_full_message_id m mod 64) (sm_type_code m) (sm_body m) (sm_check m) pad) s =
  nexus_keycode_pro_small_apply m s.
Proof.
  intros (Hok & Hpd & Ha) Hg Hgl Hf Hne Hid. unfold nexus_keycode_pro_small_parse_and_apply.
  destruct (small_parse_fields garbage eg _ _ _ _ pad s Hf Ha Hpd Hg Hgl) as (out & _ & Hrun).
  unfold small_parsed in Hrun. cbv zeta in Hrun. destruct Hf as (Hsix & Ht & Hb & Hc).
  replace (sm_type_code m =? 1) with false in Hrun by lia.
  assert (Hm : (if (sm_type_code m =? 0) || (sm_type_code m =? 2)
    then window_id (pd_index (pro_stored s)) (sm_full_message_id m mod 64)
    else sm_full_message_id m mod 64) = sm_full_message_id m).
  { destruct (Z.eqb_spec (sm_type_code m) 3) as [H3|H3].
    - rewrite H3. cbn [orb Z.eqb Pos.eqb]. by apply Z.mod_small.
    - replace ((sm_type_code m =? 0) || (sm_type_code m =? 2)) with true by lia.
      destruct (window_id_spec (pd_index (pro_stored s)) _ Hsix) as (_ & _ & Huniq).
      symmetry. by apply Huniq. }
  rewrite Hm in Hrun. rewrite (bind_Some _ _ _ _ _ Hrun). cbn [negb sm_type_code].
  change NEXUS_KEYCODE_PRO_SMALL_TYPE_PASSTHROUGH with 1.
  replace (sm_type_code m =? 1) with false by lia. by destruct m.
Qed.

(** the fourteen keys that carry an extended message, of which they hold
    two bits of the ID, the increment ID and the check, have the effect of
    applying that message; the feedback is the extended protocol's. *)
Theorem extended_keycode_round_trip truncated increment check pad garbage eg (s : keycode_pro P) :
  small_ready s → bytes_ok garbage → (4 ≤ length garbage)%nat →
  0 ≤ truncated < 4 → is_u8 increment → 0 ≤ check < 4096 →
  nexus_keycode_pro_small_parse_and_apply garbage eg (small_frame (32 + truncated) 1 increment check pad) s =
  (nexus_keycode_pro_extended_small_apply
     (mk_ext_message (em_inferred_message_id eg) 0 truncated increment check);;
   mret NEXUS_KEYCODE_PRO_RESPONSE_NONE) s.
Proof.
  intros (Hok & Hpd & Ha) Hg Hgl Htr Hi Hc. unfold nexus_keycode_pro_small_parse_and_apply.
  assert (Hf : small_fields (32 + truncated) 1 increment check) by (split_and!; (lia || wrap)).
  destruct (small_parse_fields garbage eg _ _ _ _ pad s Hf Ha Hpd Hg Hgl) as (out & Hout & Hrun).
  rewrite small_parsed_passthrough in Hrun by done.
  unfold mbind at 1, M_bind at 1. rewrite Hrun. unfold passthrough_effect.
  replace (32 + truncated <? 32) with false by lia.
  replace ((32 + truncated) / 4 mod 8 =? 0) with true by lia. rewrite bind_assoc.
  unfold ext_of_fields. replace ((32 + truncated) mod 4) with truncated by lia.
  unfold mbind, M_bind.
  destruct (nexus_keycode_pro_extended_small_apply _ s) as [[r s']|]; [|done]. done.
Qed.

(** Whatever keys are entered, parsing and applying the frame returns,
    and leaves a well-formed state that is saved to NV. *)
Lemma small_frame_returns garbage eg frame (s : keycode_pro P) :
  frame_ok frame → small_ready s → bytes_ok garbage → (4 ≤ length garbage)%nat →
  ∃ r s', nexus_keycode_pro_small_parse_and_apply garbage eg frame s = Some (r, s') ∧ pro_ok s' ∧
    nxp_keycode_get_secret_key (pro_prod s') = nxp_keycode_get_secret_key (pro_prod s).
Proof.
  intros Hframe Hready Hg Hgl. pose proof Hready as (Hok & Hpd & Ha).
  unfold nexus_keycode_pro_small_parse_and_apply.
  destruct (small_parse_cases garbage eg frame s Hframe Hready Hg Hgl)
    as [[m Hrun]|(six & type & eight & check & pad & Hf & ->)].
  { rewrite (bind_Some _ _ _ _ _ Hrun). by eexists _, s. }
  destruct (small_parse_fields garbage eg six type eight check pad s Hf Ha Hpd Hg Hgl) as (out & Hout & Hrun).
  pose proof Hf as (Hsix & Ht & Height & Hc).
  destruct (Z.eq_dec type 1) as [->|Hne].
  - rewrite small_parsed_passthrough in Hrun by done.
    destruct (passthrough_effect_returns eg six eight check s Hsix Height Hok Hpd) as (b & s' & Hp & Hok' & Hk).
    rewrite (bind_Some _ _ _ _ _ Hp) in Hrun. rewrite (bind_Some _ _ _ _ _ Hrun).
    destruct b; cbn [negb]; by eexists _, s'.
  - unfold small_parsed in Hrun. cbv zeta in Hrun. replace (type =? 1) with false in Hrun by lia.
    rewrite (bind_Some _ _ _ _ _ Hrun). cbn [negb sm_type_code].
    change NEXUS_KEYCODE_PRO_SMALL_TYPE_PASSTHROUGH with 1. replace (type =? 1) with false by lia.
    destruct (window_id_spec (pd_index (pro_stored s)) six Hsix) as (Hw & _ & _). pose proof Hpd as [Hp1 Hp2].
    set (id := if (type =? 0) || (type =? 2) then _ else six).
    destruct (small_apply_step (mk_small_message id type eight check) s) as (r & s' & Happ & Hok' & Hk & _).
    { split_and!; cbn; [|wrap|wrap]. unfold id. destruct (_ || _); wrap. }
    { cbn. lia. }
    { done. }
    { done. }
    { unfold small_activation, id. cbn. intros Hact.
      by replace ((type =? 0) || (type =? 2)) with true by lia. }
    by exists r, s'.
Qed.
End SmallTotal.
