(* ===== verification/KeycodeMas.v ===== *)
(** * Message assembly (nexus_keycode_mas.c)

    Keys come in one by one or as a complete keycode; between a start key and
    an end key (or a number of keys) they are collected into a frame, and the
    frame is handed to the protocol.  A bucket of seconds limits how many frames
    a unit accepts, and a counter in NV keeps power cycles from refilling it.

    What the module needs of the rest of the library is the interface [MasEnv]:
    its own state inside the whole, the product, the uptime, whether the keycode
    core is initialised, and the handler it was initialised with. *)

From S2P Require Import Prelude Crc NvBlock Product Nv KeycodeState.
Local Open Scope Z_scope.

(** ** State: [_this_core] and [_this_bookend] *)

Record mas_state := mk_mas_state {
  mas_graceperiod_keycodes : Z;
  mas_pad : list Z;
  mas_partial : nexus_keycode_frame;
  mas_max_length_exceeded : bool;
  mas_rl_bucket : Z;
  bk_start : Z;
  bk_end : Z;
  bk_stop_length : Z;
  bk_start_seen : bool;
  bk_latest_uptime : Z
}.

Definition mas_stored_bytes (m : mas_state) : list Z := mas_graceperiod_keycodes m :: mas_pad m.

(** Assignments. *)
Definition with_bucket (b : Z) (m : mas_state) : mas_state := {| m with mas_rl_bucket := b |}.
Definition with_partial (f : nexus_keycode_frame) (m : mas_state) : mas_state := {| m with mas_partial := f |}.
Definition with_exceeded (b : bool) (m : mas_state) : mas_state := {| m with mas_max_length_exceeded := b |}.
Definition with_start_seen (b : bool) (m : mas_state) : mas_state := {| m with bk_start_seen := b |}.
Definition with_latest_uptime (t : Z) (m : mas_state) : mas_state := {| m with bk_latest_uptime := t |}.
Definition with_graceperiod (g : Z) (m : mas_state) : mas_state := {| m with mas_graceperiod_keycodes := g |}.
Definition with_mas_stored (b : list Z) (m : mas_state) : mas_state :=
  {| m with mas_graceperiod_keycodes := default 0 (b !! 0%nat); mas_pad := take 3 (drop 1 b) |}.

(** ** What the module calls *)

Class MasEnv (W P : Type) `{Product P} := {
  env_mas : W → mas_state;
  env_set_mas : mas_state → W → W;
  env_prod : W → P;
  env_set_prod : P → W → W;
  env_uptime : W → Z;                                  (* nexus_common_uptime *)
  env_core_init : W → bool;                            (* nexus_keycode_core_init_completed *)
  env_handler : nexus_keycode_frame → M W unit         (* the handler of mas_init *)
}.

Section Mas.
Context {W P : Type} `{MasEnv W P} `{KeycodeConfig}.

Definition mas_gets {A} (f : mas_state → A) : M W A := gets (λ w, f (env_mas w)).
Definition mas_modify (f : mas_state → mas_state) : M W unit := modify (λ w, env_set_mas (f (env_mas w)) w).
Definition mas_prod {A} (m : M P A) : M W A := zoom env_prod env_set_prod m.

(** ** Rate limiting *)

Definition max_rate_limit_seconds : Z :=
  u32 (NEXUS_KEYCODE_PROTOCOL_RATE_LIMIT_BUCKET_MAX *
       NEXUS_KEYCODE_PROTOCOL_RATE_LIMIT_REFILL_SECONDS_PER_ATTEMPT).

Definition nexus_keycode_rate_limit_add_time (seconds_elapsed : Z) : M W unit :=
  rl_bucket ← mas_gets mas_rl_bucket;
  if (UINT32_MAX - rl_bucket <? seconds_elapsed) ||
     (max_rate_limit_seconds <=? u32 (rl_bucket + seconds_elapsed))
  then mas_modify (with_bucket max_rate_limit_seconds)
  else mas_modify (λ m, with_bucket (u32 (mas_rl_bucket m + seconds_elapsed)) m).

Definition nx_keycode_is_rate_limited : M W bool :=
  if NEXUS_KEYCODE_PROTOCOL_RATE_LIMIT_BUCKET_MAX =? 0 then mret false
  else mas_gets (λ m, mas_rl_bucket m <? NEXUS_KEYCODE_PROTOCOL_RATE_LIMIT_REFILL_SECONDS_PER_ATTEMPT).

(** The loop of [nexus_keycode_rate_limit_attempts_remaining]; the bucket
    holds at most 255 attempts. *)
Fixpoint attempts_loop (fuel : nat) (seconds_remaining attempts_remaining : Z) : option Z :=
  match fuel with
  | O => None
  | S fuel =>
    if NEXUS_KEYCODE_PROTOCOL_RATE_LIMIT_REFILL_SECONDS_PER_ATTEMPT <=? seconds_remaining
    then attempts_loop fuel
           (u32 (seconds_remaining - NEXUS_KEYCODE_PROTOCOL_RATE_LIMIT_REFILL_SECONDS_PER_ATTEMPT))
           (u32 (attempts_remaining + 1))
    else Some attempts_remaining
  end.

Definition nexus_keycode_rate_limit_attempts_remaining : M W Z :=
  if 0 <? NEXUS_KEYCODE_PROTOCOL_RATE_LIMIT_BUCKET_MAX then
    seconds_remaining ← mas_gets mas_rl_bucket;
    lift (attempts_loop 257 seconds_remaining 0)
  else mret 0.

Definition nexus_keycode_rate_limit_deduct_msg : M W unit :=
  if 0 <? NEXUS_KEYCODE_PROTOCOL_RATE_LIMIT_BUCKET_MAX then
    rl_bucket ← mas_gets mas_rl_bucket;
    when (NEXUS_KEYCODE_PROTOCOL_RATE_LIMIT_REFILL_SECONDS_PER_ATTEMPT <=? rl_bucket)
      (mas_modify (λ m, with_bucket
         (u32 (mas_rl_bucket m - NEXUS_KEYCODE_PROTOCOL_RATE_LIMIT_REFILL_SECONDS_PER_ATTEMPT)) m))
  else mret tt.

Definition nexus_keycode_mas_remaining_graceperiod_keycodes (cur_rl_bucket_seconds : Z) : M W Z :=
  if 0 <? NEXUS_KEYCODE_PROTOCOL_RATE_LIMIT_BUCKET_MAX then
    if NEXUS_KEYCODE_PROTOCOL_RATE_LIMIT_BUCKET_INITIAL_COUNT *
       NEXUS_KEYCODE_PROTOCOL_RATE_LIMIT_REFILL_SECONDS_PER_ATTEMPT <=? cur_rl_bucket_seconds
    then mret (u8 NEXUS_KEYCODE_PROTOCOL_RATE_LIMIT_BUCKET_INITIAL_COUNT)
    else attempts ← nexus_keycode_rate_limit_attempts_remaining; mret (u8 attempts)
  else mret 0.

Definition nexus_keycode_mas_graceperiod_keycodes_update_nv (new_graceperiod_keycodes : Z) : M W bool :=
  graceperiod_keycodes ← mas_gets mas_graceperiod_keycodes;
  if new_graceperiod_keycodes =? graceperiod_keycodes then mret false
  else
    mas_modify (with_graceperiod new_graceperiod_keycodes);;
    stored ← mas_gets mas_stored_bytes;
    _ ← mas_prod (nexus_nv_update NX_NV_BLOCK_KEYCODE_MAS stored);
    mret true.

(** ** Assembly *)

Definition nexus_keycode_mas_reset : M W unit :=
  mas_modify (λ m, with_partial (mk_frame (fr_keys (mas_partial m)) 0) m);;
  mas_modify (with_exceeded false).

(** The assignment of the handler is the environment's [env_handler]. *)
Definition nexus_keycode_mas_init : M W unit :=
  mas_modify (with_graceperiod (u8 NEXUS_KEYCODE_PROTOCOL_RATE_LIMIT_BUCKET_INITIAL_COUNT));;
  stored ← mas_gets mas_stored_bytes;
  '(_, stored) ← mas_prod (nexus_nv_read NX_NV_BLOCK_KEYCODE_MAS stored);
  mas_modify (with_mas_stored stored);;
  mas_modify (λ m, with_bucket
    (u32 (mas_graceperiod_keycodes m * NEXUS_KEYCODE_PROTOCOL_RATE_LIMIT_REFILL_SECONDS_PER_ATTEMPT)) m);;
  nexus_keycode_mas_reset.

Definition nexus_keycode_mas_deinit : M W unit := nexus_keycode_mas_reset.

Definition nexus_keycode_mas_push (key : Z) : M W unit :=
  partial ← mas_gets mas_partial;
  if fr_length partial <? NEXUS_KEYCODE_MAX_MESSAGE_LENGTH then
    keys ← lift (aset (fr_keys partial) (fr_length partial) key);
    mas_modify (with_partial (mk_frame keys (u8 (fr_length partial + 1))))
  else mas_modify (with_exceeded true).

Definition mas_feedback (f : nxp_keycode_feedback_type) : M W unit := mas_prod (feedback_start f).

Definition nexus_keycode_mas_finish : M W unit :=
  m ← mas_gets id;
  (if (0 <? fr_length (mas_partial m)) && negb (mas_max_length_exceeded m)
   then env_handler (mas_partial m)
   else mas_feedback NXP_KEYCODE_FEEDBACK_TYPE_MESSAGE_INVALID);;
  nexus_keycode_rate_limit_deduct_msg;;
  nexus_keycode_mas_reset.

(** ** The bookend scheme *)

Definition nexus_keycode_mas_bookend_reset : M W unit := mas_modify (with_start_seen false).

Definition nexus_keycode_mas_bookend_init (start end_ stop_length : Z) : M W unit :=
  mas_modify (λ m, {| m with bk_start := start; bk_end := end_; bk_stop_length := stop_length |});;
  nexus_keycode_mas_bookend_reset.

Definition nexus_keycode_has_reached_stop_length : M W bool :=
  mas_gets (λ m, if bk_stop_length m =? NEXUS_KEYCODE_PROTOCOL_NO_STOP_LENGTH then false
                 else bk_stop_length m <=? fr_length (mas_partial m)).

Definition nexus_keycode_mas_bookend_process : M W Z :=
  start_seen ← mas_gets bk_start_seen;
  (if (start_seen : bool) then
     latest_uptime ← mas_gets bk_latest_uptime;
     uptime ← gets env_uptime;
     when (latest_uptime =? UINT32_MAX) (mas_modify (with_latest_uptime uptime));;
     latest_uptime ← mas_gets bk_latest_uptime;
     let elapsed := u32 (uptime - latest_uptime) in
     when (NEXUS_KEYCODE_PROTOCOL_ENTRY_TIMEOUT_SECONDS <? elapsed)
       (nexus_keycode_mas_bookend_reset;; nexus_keycode_mas_reset)
   else mret tt);;
  mas_gets (λ m, if bk_start_seen m then 1 else NEXUS_COMMON_IDLE_TIME_BETWEEN_PROCESS_CALL_SECONDS).

Definition nexus_keycode_mas_process (seconds_elapsed : Z) : M W Z :=
  nexus_keycode_rate_limit_add_time seconds_elapsed;;
  rl_bucket ← mas_gets mas_rl_bucket;
  graceperiod_count ← nexus_keycode_mas_remaining_graceperiod_keycodes rl_bucket;
  _ ← nexus_keycode_mas_graceperiod_keycodes_update_nv graceperiod_count;
  nexus_keycode_mas_bookend_process.

Definition nexus_keycode_mas_bookend_push (key : Z) : M W unit :=
  mas_modify (with_latest_uptime UINT32_MAX);;
  mas_prod request_processing;;
  rate_limited ← nx_keycode_is_rate_limited;
  m ← mas_gets id;
  if (rate_limited : bool) then mas_feedback NXP_KEYCODE_FEEDBACK_TYPE_KEY_REJECTED
  else if key =? bk_start m then
    mas_feedback NXP_KEYCODE_FEEDBACK_TYPE_KEY_ACCEPTED;;
    mas_modify (with_start_seen true);;
    nexus_keycode_mas_reset
  else if bk_start_seen m then
    if key =? bk_end m then
      nexus_keycode_mas_bookend_reset;;
      nexus_keycode_mas_finish
    else
      nexus_keycode_mas_push key;;
      reached ← nexus_keycode_has_reached_stop_length;
      if (reached : bool) then
        nexus_keycode_mas_bookend_reset;;
        nexus_keycode_mas_finish
      else mas_feedback NXP_KEYCODE_FEEDBACK_TYPE_KEY_ACCEPTED
  else mas_feedback NXP_KEYCODE_FEEDBACK_TYPE_KEY_REJECTED.

(** ** What the product calls *)

Definition nx_keycode_handle_single_key (key : Z) : M W bool :=
  init_completed ← gets env_core_init;
  if negb init_completed then mret false
  else nexus_keycode_mas_bookend_push key;; mret true.

(** [for (i = 1; i < last_keycode_char; i++)], left when the stop length is
    reached. *)
Fixpoint complete_keycode_loop (n : nat) (i : Z) (keys : list Z) : M W unit :=
  match n with
  | O => mret tt
  | S n =>
    key ← lift (aget keys i);
    nexus_keycode_mas_push key;;
    reached ← nexus_keycode_has_reached_stop_length;
    if (reached : bool) then mret tt else complete_keycode_loop n (i + 1) keys
  end.

(** [keys] is the memory the product points to, [length] what it says of it. *)
Definition nx_keycode_handle_complete_keycode (keys : list Z) (length : Z) : M W bool :=
  init_completed ← gets env_core_init;
  if negb init_completed then mret false
  else
    rate_limited ← nx_keycode_is_rate_limited;
    if (rate_limited : bool) then mas_feedback NXP_KEYCODE_FEEDBACK_TYPE_MESSAGE_INVALID;; mret true
    else
      first ← lift (aget keys 0);
      m ← mas_gets id;
      if negb (first =? bk_start m) then mas_feedback NXP_KEYCODE_FEEDBACK_TYPE_MESSAGE_INVALID;; mret true
      else
        mas_modify (with_start_seen true);;
        nexus_keycode_mas_reset;;
        let last_keycode_char :=
          match NEXUS_KEYCODE_PROTOCOL with
          | NEXUS_KEYCODE_PROTOCOL_SMALL => length
          | NEXUS_KEYCODE_PROTOCOL_FULL => u8 (length - 1)
          end in
        complete_keycode_loop (Z.to_nat (last_keycode_char - 1)) 1 keys;;
        nexus_keycode_mas_bookend_reset;;
        nexus_keycode_mas_finish;;
        mret true.
End Mas.
