(* ===== verification/KeycodeMasSpec.v ===== *)
(** * Message assembly: its abstract machine, and the refinement

    [key_step], [complete_step] and [time_step] say what a key, a complete
    keycode and a call of process do to the assembler's state and which frames
    they hand over.  The operations of KeycodeMas implement them in any
    environment that keeps the laws of [MasEnvLaws]. *)

From S2P Require Import Prelude Crc NvBlock Product Nv KeycodeState KeycodeMas.
Local Open Scope Z_scope.

(** ** The abstract machine *)

Section Machine.
Context `{KeycodeConfigOk}.

#[local] Abbreviation REFILL := NEXUS_KEYCODE_PROTOCOL_RATE_LIMIT_REFILL_SECONDS_PER_ATTEMPT.
#[local] Abbreviation BUCKET_MAX := NEXUS_KEYCODE_PROTOCOL_RATE_LIMIT_BUCKET_MAX.
#[local] Abbreviation INITIAL := NEXUS_KEYCODE_PROTOCOL_RATE_LIMIT_BUCKET_INITIAL_COUNT.

(** Rate limiting is on and there is no attempt left. *)
Definition limited (m : mas_state) : bool := (0 <? BUCKET_MAX) && (mas_rl_bucket m <? REFILL).

Definition reset (m : mas_state) : mas_state :=
  with_exceeded false (with_partial (mk_frame (fr_keys (mas_partial m)) 0) m).

Definition pushed (key : Z) (m : mas_state) : mas_state :=
  let len := fr_length (mas_partial m) in
  if len <? 30 then with_partial (mk_frame (<[Z.to_nat len := key]> (fr_keys (mas_partial m))) (len + 1)) m
  else with_exceeded true m.

(** The frames that finishing a message hands over: one, or none. *)
Definition finish_frames (m : mas_state) : list nexus_keycode_frame :=
  if (0 <? fr_length (mas_partial m)) && negb (mas_max_length_exceeded m) then [mas_partial m] else [].

Definition deducted (m : mas_state) : mas_state :=
  if (0 <? BUCKET_MAX) && (REFILL <=? mas_rl_bucket m) then with_bucket (mas_rl_bucket m - REFILL) m else m.

Definition finished (m : mas_state) : mas_state := reset (deducted m).

Definition stop_reached (m : mas_state) : bool :=
  negb (bk_stop_length m =? 255) && (bk_stop_length m <=? fr_length (mas_partial m)).

(** A key from the keypad. *)
Definition key_step (key : Z) (m : mas_state) : mas_state * list nexus_keycode_frame :=
  let m := with_latest_uptime UINT32_MAX m in
  if limited m then (m, [])
  else if key =? bk_start m then (reset (with_start_seen true m), [])
  else if bk_start_seen m then
    if key =? bk_end m then
      let m := with_start_seen false m in (finished m, finish_frames m)
    else
      let m := pushed key m in
      if stop_reached m then let m := with_start_seen false m in (finished m, finish_frames m)
      else (m, [])
  else (m, []).

Fixpoint keys_step (keys : list Z) (m : mas_state) : mas_state * list nexus_keycode_frame :=
  match keys with
  | [] => (m, [])
  | key :: keys =>
    let '(m1, frames1) := key_step key m in
    let '(m2, frames2) := keys_step keys m1 in (m2, frames1 ++ frames2)
  end.

(** The keys of a complete keycode, up to the stop length. *)
Fixpoint push_all (keys : list Z) (m : mas_state) : mas_state :=
  match keys with
  | [] => m
  | key :: keys => let m := pushed key m in if stop_reached m then m else push_all keys m
  end.

Definition complete_step (keys : list Z) (m : mas_state) : mas_state * list nexus_keycode_frame :=
  match keys with
  | first :: rest =>
    if limited m then (m, [])
    else if negb (first =? bk_start m) then (m, [])
    else
      let body := match NEXUS_KEYCODE_PROTOCOL with
                  | NEXUS_KEYCODE_PROTOCOL_SMALL => rest
                  | NEXUS_KEYCODE_PROTOCOL_FULL => removelast rest
                  end in
      let m := with_start_seen false (push_all body (reset (with_start_seen true m))) in
      (finished m, finish_frames m)
  | [] => (m, [])
  end.

(** The bucket after [seconds]. *)
Definition refilled (seconds : Z) (m : mas_state) : mas_state :=
  with_bucket (Z.min (BUCKET_MAX * REFILL) (mas_rl_bucket m + seconds)) m.

Definition remaining (m : mas_state) : Z :=
  if 0 <? BUCKET_MAX then Z.min INITIAL (mas_rl_bucket m / REFILL) else 0.

Definition timed_out (uptime : Z) (m : mas_state) : mas_state :=
  if bk_start_seen m then
    let m := if bk_latest_uptime m =? UINT32_MAX then with_latest_uptime uptime m else m in
    if NEXUS_KEYCODE_PROTOCOL_ENTRY_TIMEOUT_SECONDS <? u32 (uptime - bk_latest_uptime m)
    then reset (with_start_seen false m) else m
  else m.

Definition time_step (seconds uptime : Z) (m : mas_state) : mas_state :=
  let m := refilled seconds m in timed_out uptime (with_graceperiod (remaining m) m).

(** ** The invariant *)

Definition mas_ok (m : mas_state) : Prop :=
  frame_ok (mas_partial m) ∧ is_u8 (mas_graceperiod_keycodes m) ∧
  bytes_ok (mas_pad m) ∧ length (mas_pad m) = 3%nat ∧
  0 ≤ mas_rl_bucket m ≤ 255 * REFILL ∧ 0 ≤ bk_stop_length m < 256.

Lemma mas_ok_fields f m :
  mas_partial (f m) = mas_partial m → mas_graceperiod_keycodes (f m) = mas_graceperiod_keycodes m →
  mas_pad (f m) = mas_pad m → mas_rl_bucket (f m) = mas_rl_bucket m → bk_stop_length (f m) = bk_stop_length m →
  mas_ok m → mas_ok (f m).
Proof. unfold mas_ok. intros -> -> -> -> ->. done. Qed.

Lemma reset_ok m : mas_ok m → mas_ok (reset m).
Proof. intros ([Hk _] & ?). unfold mas_ok, frame_ok, NEXUS_KEYCODE_MAX_MESSAGE_LENGTH. cbn. split; [lia|done]. Qed.

Lemma pushed_ok key m : mas_ok m → mas_ok (pushed key m).
Proof.
  intros ([Hk Hl] & Hrest). unfold pushed, NEXUS_KEYCODE_MAX_MESSAGE_LENGTH in *. cbv zeta.
  destruct (Z.ltb_spec (fr_length (mas_partial m)) 30); unfold mas_ok, frame_ok, NEXUS_KEYCODE_MAX_MESSAGE_LENGTH; cbn.
  - rewrite length_insert. split; [lia|done].
  - split; [lia|done].
Qed.

Lemma push_all_ok keys m : mas_ok m → mas_ok (push_all keys m).
Proof.
  revert m. induction keys as [|key keys IH]; intros m Hm; [done|]. cbn [push_all]. cbv zeta.
  pose proof (pushed_ok key m Hm). destruct (stop_reached _); auto.
Qed.

Lemma deducted_bucket m : mas_rl_bucket (deducted m) =
  if (0 <? BUCKET_MAX) && (REFILL <=? mas_rl_bucket m) then mas_rl_bucket m - REFILL else mas_rl_bucket m.
Proof. unfold deducted. by destruct (_ && _). Qed.

Lemma finished_ok m : mas_ok m → mas_ok (finished m).
Proof.
  intros Hm. apply reset_ok. unfold deducted. destruct (_ && _) eqn:Hc; [|done].
  destruct Hm as (? & ? & ? & ? & ? & ?). apply andb_true_iff in Hc as [_ Hc].
  pose proof refill_ok. unfold mas_ok. cbn. split_and!; try (done || lia).
Qed.
End Machine.

(** ** The environment's laws *)

Class MasEnvLaws (W P : Type) `{MasEnv W P} := {
  mas_of_set m w : env_mas (env_set_mas m w) = m;
  mas_of_set_prod p w : env_mas (env_set_prod p w) = env_mas w;
  prod_of_set m w : env_prod (env_set_mas m w) = env_prod w;
  prod_of_set_prod p w : env_prod (env_set_prod p w) = p;
  uptime_of_set m w : env_uptime (env_set_mas m w) = env_uptime w;
  uptime_of_set_prod p w : env_uptime (env_set_prod p w) = env_uptime w;
  core_init_of_set m w : env_core_init (env_set_mas m w) = env_core_init w;
  core_init_of_set_prod p w : env_core_init (env_set_prod p w) = env_core_init w;
  handed : list nexus_keycode_frame → W → W → Prop;   (* what the handler was given in between *)
  handed_nil w : handed [] w w;
  handed_app f g w w1 w2 : handed f w w1 → handed g w1 w2 → handed (f ++ g) w w2;
  handed_set m w : handed [] w (env_set_mas m w);
  handed_set_prod p w : handed [] w (env_set_prod p w);
  handler_returns f w : ∃ w', env_handler f w = Some (tt, w') ∧ handed [f] w w' ∧
    env_mas w' = env_mas w ∧ env_uptime w' = env_uptime w ∧ env_core_init w' = env_core_init w ∧
    nv_equiv (env_prod w') (env_prod w) ∧ payg_equiv (env_prod w') (env_prod w)
}.

(** An environment that also keeps the frames its handler was given. *)
Definition logged (W : Type) : Type := W * list nexus_keycode_frame.

#[export] Instance logged_env {W P} `{MasEnv W P} : MasEnv (logged W) P := {
  env_mas w := env_mas w.1;
  env_set_mas m w := (env_set_mas m w.1, w.2);
  env_prod w := env_prod w.1;
  env_set_prod p w := (env_set_prod p w.1, w.2);
  env_uptime w := env_uptime w.1;
  env_core_init w := env_core_init w.1;
  env_handler f := λ w, '(_, w') ← env_handler f w.1; Some (tt, (w', w.2 ++ [f]))
}.

#[export] Instance logged_laws {W P} `{MasEnvLaws W P} : MasEnvLaws (logged W) P.
Proof.
  refine {| handed f (w w' : logged W) := w'.2 = w.2 ++ f ∧ handed f w.1 w'.1 |}; intros; cbn.
  - apply mas_of_set.
  - apply mas_of_set_prod.
  - apply prod_of_set.
  - apply prod_of_set_prod.
  - apply uptime_of_set.
  - apply uptime_of_set_prod.
  - apply core_init_of_set.
  - apply core_init_of_set_prod.
  - rewrite app_nil_r. split; [done|apply handed_nil].
  - destruct H2 as [L1 H2], H3 as [L2 H3]. split; [by rewrite L2, L1, app_assoc|by eapply handed_app].
  - rewrite app_nil_r. split; [done|apply handed_set].
  - rewrite app_nil_r. split; [done|apply handed_set_prod].
  - destruct (handler_returns f w.1) as (w' & -> & ? & ?). cbn. eexists. split; [reflexivity|]. done.
Defined.

Section Refinement.
Context {W P : Type} `{HP : ProductLaws P} `{!ReliableNv P} `{!MasEnv W P} `{!MasEnvLaws W P} `{KeycodeConfigOk}.

#[local] Abbreviation REFILL := NEXUS_KEYCODE_PROTOCOL_RATE_LIMIT_REFILL_SECONDS_PER_ATTEMPT.
#[local] Abbreviation BUCKET_MAX := NEXUS_KEYCODE_PROTOCOL_RATE_LIMIT_BUCKET_MAX.

(** A statement that gives the assembler the state [m] and hands over
    [frames], and leaves the NV, the uptime and the initialisation alone. *)
Record moved (w w' : W) (m : mas_state) (frames : list nexus_keycode_frame) : Prop := mk_moved {
  moved_mas : env_mas w' = m;
  moved_handed : handed frames w w';
  moved_uptime : env_uptime w' = env_uptime w;
  moved_init : env_core_init w' = env_core_init w;
  moved_nv : nv_equiv (env_prod w') (env_prod w);
  moved_payg : payg_equiv (env_prod w') (env_prod w)
}.

Lemma moved_refl w : moved w w (env_mas w) [].
Proof. split; try done. apply handed_nil. Qed.

Lemma moved_trans w w1 w2 m1 m2 f1 f2 :
  moved w w1 m1 f1 → moved w1 w2 m2 f2 → moved w w2 m2 (f1 ++ f2).
Proof.
  intros [? L1 ? ? ? ?] [? L2 ? ? ? ?]. split; try congruence.
  - by eapply handed_app.
  - by etransitivity.
  - by etransitivity.
Qed.

Definition runs {A} (c : M W A) (w : W) (x : A) (m : mas_state)
    (frames : list nexus_keycode_frame) : Prop :=
  ∃ w', c w = Some (x, w') ∧ moved w w' m frames.

(** Sequencing, where one of the two hands over no frame. *)
Lemma runs_then {A B} (c : M W A) (k : A → M W B) w x y m m' f :
  runs c w x m [] →
  (∀ w1, env_mas w1 = m → env_uptime w1 = env_uptime w → env_core_init w1 = env_core_init w →
         runs (k x) w1 y m' f) →
  runs (c ≫= k) w y m' f.
Proof.
  intros (w1 & Hc & Hm) Hk. destruct (Hk w1) as (w2 & Hk2 & Hm2); [apply Hm..|].
  exists w2. rewrite (bind_Some _ _ _ _ _ Hc). split; [done|].
  change f with ([] ++ f). by eapply moved_trans.
Qed.

Lemma runs_last {A B} (c : M W A) (k : A → M W B) w x y m m' f :
  runs c w x m f →
  (∀ w1, env_mas w1 = m → env_uptime w1 = env_uptime w → env_core_init w1 = env_core_init w →
         runs (k x) w1 y m' []) →
  runs (c ≫= k) w y m' f.
Proof.
  intros (w1 & Hc & Hm) Hk. destruct (Hk w1) as (w2 & Hk2 & Hm2); [apply Hm..|].
  exists w2. rewrite (bind_Some _ _ _ _ _ Hc). split; [done|].
  rewrite <- (app_nil_r f). by eapply moved_trans.
Qed.

Lemma runs_assoc {A B C} (c : M W A) (k : A → M W B) (k' : B → M W C) w y m f :
  runs ((c ≫= k) ≫= k') w y m f → runs (c ≫= λ x, k x ≫= k') w y m f.
Proof. unfold runs. by rewrite bind_assoc. Qed.

Lemma runs_ret {A} (x : A) w : runs (mret x) w x (env_mas w) [].
Proof. exists w. split; [done|apply moved_refl]. Qed.

Lemma runs_gets {A} (f : mas_state → A) w : runs (mas_gets f) w (f (env_mas w)) (env_mas w) [].
Proof. exists w. split; [done|apply moved_refl]. Qed.

Lemma runs_modify f w : runs (mas_modify f) w tt (f (env_mas w)) [].
Proof.
  exists (env_set_mas (f (env_mas w)) w). split; [done|].
  split; cbn; [apply mas_of_set|apply handed_set|apply uptime_of_set|apply core_init_of_set|..];
    by rewrite prod_of_set.
Qed.

Lemma runs_prod (f : P → P) w :
  (∀ p, nv_equiv (f p) p) → (∀ p, payg_equiv (f p) p) → runs (mas_prod (modify f)) w tt (env_mas w) [].
Proof.
  intros Hf Hp. exists (env_set_prod (f (env_prod w)) w). split; [done|].
  split; cbn; [apply mas_of_set_prod|apply handed_set_prod|apply uptime_of_set_prod|apply core_init_of_set_prod|..];
    by rewrite prod_of_set_prod.
Qed.

Lemma runs_feedback k w : runs (mas_feedback k) w tt (env_mas w) [].
Proof. apply (runs_prod (nxp_keycode_feedback_start k)); intros p; [apply feedback_frame|apply feedback_payg]. Qed.

Lemma runs_handler f w : runs (env_handler f) w tt (env_mas w) [f].
Proof.
  destruct (handler_returns f w) as (w' & Hrun & Hh & Hm & Hu & Hi & Hn & Hp). exists w'. by split.
Qed.

(** A statement whose effect on the assembler is [m'], reached in steps. *)
Lemma runs_eq {A} (c : M W A) w x m f x' m' f' :
  runs c w x m f → x = x' → m = m' → f = f' → runs c w x' m' f'.
Proof. by intros ? -> -> ->. Qed.

(** ** Rate limiting *)

Lemma runs_limited w : runs nx_keycode_is_rate_limited w (limited (env_mas w)) (env_mas w) [].
Proof.
  unfold nx_keycode_is_rate_limited, limited. pose proof bucket_max_ok.
  destruct (Z.eqb_spec BUCKET_MAX 0) as [->|?]; [apply runs_ret|].
  replace (0 <? BUCKET_MAX) with true by lia. apply runs_gets.
Qed.

Lemma runs_deduct w :
  mas_ok (env_mas w) → runs nexus_keycode_rate_limit_deduct_msg w tt (deducted (env_mas w)) [].
Proof.
  intros (_ & _ & _ & _ & Hb & _). pose proof refill_ok.
  unfold nexus_keycode_rate_limit_deduct_msg, deducted. destruct (0 <? BUCKET_MAX); [|apply runs_ret].
  eapply runs_then; [apply runs_gets|]. intros w1 Hw1 _ _. cbn [andb]. rewrite <- Hw1 in *.
  unfold when. destruct (Z.leb_spec REFILL (mas_rl_bucket (env_mas w1))); [|apply runs_ret].
  eapply runs_eq; [apply runs_modify|done| |done]. cbv beta. f_equal. apply u32_small. wrap.
Qed.

Lemma runs_reset w : runs nexus_keycode_mas_reset w tt (reset (env_mas w)) [].
Proof.
  unfold nexus_keycode_mas_reset, reset.
  eapply runs_then; [apply runs_modify|]. intros w1 Hw1 _ _.
  eapply runs_eq; [apply runs_modify|done| |done]. by rewrite Hw1.
Qed.

Lemma runs_push key w :
  mas_ok (env_mas w) → runs (nexus_keycode_mas_push key) w tt (pushed key (env_mas w)) [].
Proof.
  intros ([Hk Hl] & _). unfold NEXUS_KEYCODE_MAX_MESSAGE_LENGTH in *.
  unfold nexus_keycode_mas_push, pushed, NEXUS_KEYCODE_MAX_MESSAGE_LENGTH. cbv zeta.
  eapply runs_then; [apply runs_gets|]. intros w1 Hw1 _ _. rewrite <- Hw1 in *.
  destruct (Z.ltb_spec (fr_length (mas_partial (env_mas w1))) 30); [|apply runs_modify].
  unfold runs. erewrite bind_lift by (rewrite aset_in by lia; reflexivity).
  fold (runs (mas_modify (with_partial (mk_frame (<[Z.to_nat (fr_length (mas_partial (env_mas w1))):=key]>
    (fr_keys (mas_partial (env_mas w1)))) (u8 (fr_length (mas_partial (env_mas w1)) + 1))))) w1 tt
    (with_partial (mk_frame (<[Z.to_nat (fr_length (mas_partial (env_mas w1))):=key]>
    (fr_keys (mas_partial (env_mas w1)))) (fr_length (mas_partial (env_mas w1)) + 1)) (env_mas w1)) []).
  rewrite u8_small by wrap. apply runs_modify.
Qed.

Lemma runs_finish w :
  mas_ok (env_mas w) →
  runs nexus_keycode_mas_finish w tt (finished (env_mas w)) (finish_frames (env_mas w)).
Proof.
  intros Hok. unfold nexus_keycode_mas_finish, finished.
  eapply runs_then; [apply (runs_gets id)|]. intros w0 Hw0 _ _. cbn [id] in *. rewrite <- Hw0 in *.
  eapply runs_last with (m := env_mas w0).
  - unfold finish_frames. destruct (_ && _); [apply runs_handler|apply runs_feedback].
  - intros w1 Hw1 _ _. eapply runs_then; [apply runs_deduct; by rewrite Hw1|]. intros w2 Hw2 _ _.
    eapply runs_eq; [apply runs_reset|done| |done]. by rewrite Hw2, Hw1.
Qed.

(** ** Keys *)

Lemma runs_stop w : runs nexus_keycode_has_reached_stop_length w (stop_reached (env_mas w)) (env_mas w) [].
Proof.
  eapply runs_eq; [apply runs_gets|  |done..]. unfold stop_reached, NEXUS_KEYCODE_PROTOCOL_NO_STOP_LENGTH, UINT8_MAX.
  by destruct (_ =? 255).
Qed.

(** Ending the message: the bookend is reset, then the message finished. *)
Lemma runs_end w m :
  env_mas w = m → mas_ok m →
  runs (nexus_keycode_mas_bookend_reset;; nexus_keycode_mas_finish) w tt
    (finished (with_start_seen false m)) (finish_frames (with_start_seen false m)).
Proof.
  intros <- Hok. eapply runs_then; [apply runs_modify|]. intros w1 Hw1 _ _.
  rewrite <- Hw1. apply runs_finish. rewrite Hw1. done.
Qed.

Lemma runs_bookend_push key w :
  mas_ok (env_mas w) →
  runs (nexus_keycode_mas_bookend_push key) w tt
    (key_step key (env_mas w)).1 (key_step key (env_mas w)).2.
Proof.
  intros Hok. unfold nexus_keycode_mas_bookend_push, key_step. cbv zeta.
  eapply runs_then; [apply runs_modify|]. intros w1 Hw1 _ _. rewrite <- Hw1.
  assert (Hok1 : mas_ok (env_mas w1)) by (by rewrite Hw1). clear Hok Hw1 w.
  eapply runs_then; [apply (runs_prod nxp_common_request_processing); [apply request_frame|apply request_payg]|]. intros w2 Hw2 _ _.
  rewrite <- Hw2 in *. clear Hw2 w1.
  eapply runs_then; [apply runs_limited|]. intros w1 Hw1 _ _. rewrite <- Hw1 in *. clear Hw1 w2.
  eapply runs_then; [apply (runs_gets id)|]. intros w2 Hw2 _ _. unfold id in *. rewrite <- Hw2 in *. clear Hw2 w1.
  destruct (limited (env_mas w2)); [apply runs_feedback|].
  destruct (key =? bk_start (env_mas w2)).
  { eapply runs_then; [apply runs_feedback|]. intros w3 Hw3 _ _.
    eapply runs_then; [apply runs_modify|]. intros w4 Hw4 _ _. rewrite Hw3 in Hw4.
    cbn [fst snd]. rewrite <- Hw4. apply runs_reset. }
  destruct (bk_start_seen (env_mas w2)); [|apply runs_feedback].
  destruct (key =? bk_end (env_mas w2)); [by apply runs_end|].
  eapply runs_then; [by apply runs_push|]. intros w3 Hw3 _ _. rewrite <- Hw3.
  assert (Hok3 : mas_ok (env_mas w3)) by (rewrite Hw3; by apply pushed_ok).
  eapply runs_then; [apply runs_stop|]. intros w4 Hw4 _ _. rewrite <- Hw4 in *.
  destruct (stop_reached (env_mas w4)); [by apply runs_end|apply runs_feedback].
Qed.

Lemma runs_complete_loop n i keys w :
  mas_ok (env_mas w) → 0 ≤ i → (Z.to_nat i + n ≤ length keys)%nat →
  runs (complete_keycode_loop n i keys) w tt (push_all (take n (drop (Z.to_nat i) keys)) (env_mas w)) [].
Proof.
  revert i w. induction n as [|n IH]; intros i w Hok Hi Hlen; [apply runs_ret|].
  cbn [complete_keycode_loop]. destruct (lookup_lt_is_Some_2 keys (Z.to_nat i)) as [k Hk]; [lia|].
  unfold runs. rewrite (bind_lift _ _ k) by (by rewrite aget_lookup by lia).
  rewrite (drop_S _ _ _ Hk). cbn [take push_all].
  eapply runs_then; [by apply runs_push|]. intros w1 Hw1 _ _. rewrite <- Hw1.
  eapply runs_then; [apply runs_stop|]. intros w2 Hw2 _ _. rewrite <- Hw2 in *.
  destruct (stop_reached (env_mas w2)); [apply runs_ret|].
  replace (S (Z.to_nat i)) with (Z.to_nat (i + 1)) by lia.
  apply IH; [rewrite Hw1; by apply pushed_ok|lia|lia].
Qed.

(** A complete keycode of at least one key. *)
Lemma runs_handle_complete keys len w :
  mas_ok (env_mas w) → env_core_init w = true → 1 ≤ len < 256 → len ≤ Z.of_nat (length keys) →
  runs (nx_keycode_handle_complete_keycode keys len) w true
    (complete_step (take (Z.to_nat len) keys) (env_mas w)).1
    (complete_step (take (Z.to_nat len) keys) (env_mas w)).2.
Proof.
  intros Hok Hinit Hlen Hfit. unfold nx_keycode_handle_complete_keycode.
  unfold runs. erewrite bind_Some by reflexivity. rewrite Hinit. cbn [negb].
  destruct keys as [|first rest]; [cbn in Hfit; lia|]. cbn [length] in Hfit.
  assert (Htake : take (Z.to_nat len) (first :: rest) = first :: take (Z.to_nat len - 1) rest).
  { replace (Z.to_nat len) with (S (Z.to_nat len - 1)) at 1 by lia. done. }
  rewrite Htake. cbn [complete_step].
  eapply runs_then; [apply runs_limited|]. intros w1 Hw1 _ _. rewrite <- Hw1 in *. clear Hw1 w Hinit.
  destruct (limited (env_mas w1)).
  { eapply runs_then; [apply runs_feedback|]. intros w2 Hw2 _ _. rewrite <- Hw2. apply runs_ret. }
  unfold runs. rewrite (bind_lift _ _ first) by done.
  eapply runs_then; [apply (runs_gets id)|]. intros w2 Hw2 _ _. unfold id in *. rewrite <- Hw2 in *. clear Hw2 w1.
  destruct (first =? bk_start (env_mas w2)); cbn [negb].
  2: { eapply runs_then; [apply runs_feedback|]. intros w3 Hw3 _ _. rewrite <- Hw3. apply runs_ret. }
  eapply runs_then; [apply runs_modify|]. intros w3 Hw3 _ _.
  eapply runs_then; [apply runs_reset|]. intros w4 Hw4 _ _. rewrite Hw3 in Hw4. cbv zeta.
  assert (Hok4 : mas_ok (env_mas w4)) by (rewrite Hw4; by apply reset_ok).
  set (body := match NEXUS_KEYCODE_PROTOCOL with NEXUS_KEYCODE_PROTOCOL_FULL => _ | _ => take _ rest end).
  assert (Hloop : runs (complete_keycode_loop (Z.to_nat ((match NEXUS_KEYCODE_PROTOCOL with
          | NEXUS_KEYCODE_PROTOCOL_SMALL => len | NEXUS_KEYCODE_PROTOCOL_FULL => u8 (len - 1) end) - 1)) 1
          (first :: rest)) w4 tt (push_all body (env_mas w4)) []).
  { unfold body. destruct NEXUS_KEYCODE_PROTOCOL.
    - rewrite u8_small by wrap. eapply runs_eq; [apply runs_complete_loop; [done|lia|cbn [length]; lia]|done| |done].
      change (drop (Z.to_nat 1) (first :: rest)) with rest. f_equal.
      destruct (Z.eq_dec len 1) as [->|]; [done|].
      rewrite removelast_firstn_len, take_take, length_take. f_equal. lia.
    - eapply runs_eq; [apply runs_complete_loop; [done|lia|cbn [length]; lia]|done| |done].
      change (drop (Z.to_nat 1) (first :: rest)) with rest. do 2 f_equal. lia. }
  eapply runs_then; [exact Hloop|]. intros w5 Hw5 _ _. rewrite Hw4 in Hw5.
  apply runs_assoc. rewrite <- Hw5.
  assert (Hok5 : mas_ok (env_mas w5)).
  { rewrite Hw5. apply push_all_ok. by apply reset_ok. }
  eapply runs_last; [by apply runs_end|]. intros w6 Hw6 _ _. rewrite <- Hw6. apply runs_ret.
Qed.
End Refinement.
