(* ===== verification/KeycodeMasProcess.v ===== *)
(** * Message assembly: time and power cycles

    The calls of [nexus_keycode_mas_process] and [nexus_keycode_mas_init] as
    steps of the abstract machine of KeycodeMasSpec, and what they leave in NV.
    [mas_synced] is the link between the two: the grace period that a power
    cycle starts from is the one that was last written. *)

From S2P Require Import Prelude Crc NvBlock Product Nv KeycodeState KeycodeMas KeycodeMasSpec.
Local Open Scope Z_scope.

Section Process.
Context {W P : Type} `{HP : ProductLaws P} `{!ReliableNv P} `{!MasEnv W P} `{!MasEnvLaws W P} `{KeycodeConfigOk}.

#[local] Abbreviation REFILL := NEXUS_KEYCODE_PROTOCOL_RATE_LIMIT_REFILL_SECONDS_PER_ATTEMPT.
#[local] Abbreviation BUCKET_MAX := NEXUS_KEYCODE_PROTOCOL_RATE_LIMIT_BUCKET_MAX.
#[local] Abbreviation INITIAL := NEXUS_KEYCODE_PROTOCOL_RATE_LIMIT_BUCKET_INITIAL_COUNT.

(** The NV block of the module, and the grace period it stands for: without a
    valid block a unit starts with the initial count. *)
Definition mas_nv (w : W) : option (list Z) := nv_stored NX_NV_BLOCK_KEYCODE_MAS (env_prod w).

Definition mas_synced (w : W) : Prop :=
  match mas_nv w with
  | Some d => d = mas_stored_bytes (env_mas w)
  | None => mas_graceperiod_keycodes (env_mas w) = INITIAL
  end.

Lemma max_rate_limit : max_rate_limit_seconds = BUCKET_MAX * REFILL.
Proof. unfold max_rate_limit_seconds. pose proof bucket_max_ok. pose proof refill_ok. apply u32_small. unfold is_u32. nia. Qed.

Lemma bucket_bound : 0 ≤ BUCKET_MAX * REFILL ≤ 255 * 3600.
Proof. pose proof bucket_max_ok. pose proof refill_ok. nia. Qed.

Lemma runs_add_time seconds w :
  mas_ok (env_mas w) → is_u32 seconds →
  runs (nexus_keycode_rate_limit_add_time seconds) w tt (refilled seconds (env_mas w)) [].
Proof.
  intros (_ & _ & _ & _ & Hb & _) Hs. pose proof refill_ok. pose proof bucket_bound.
  unfold nexus_keycode_rate_limit_add_time, refilled. rewrite max_rate_limit.
  eapply runs_then; [apply runs_gets|]. intros w1 Hw1 _ _. rewrite <- Hw1 in *.
  destruct (Z.ltb_spec (UINT32_MAX - mas_rl_bucket (env_mas w1)) seconds); cbn [orb].
  { eapply runs_eq; [apply runs_modify|done| |done]. f_equal. rewrite Z.min_l; [done|]. wrap. }
  destruct (Z.leb_spec (BUCKET_MAX * REFILL) (u32 (mas_rl_bucket (env_mas w1) + seconds))) as [Hle|Hle];
    rewrite u32_small in Hle by wrap;
    (eapply runs_eq; [apply runs_modify|done| |done]); cbv beta; f_equal.
  - by rewrite Z.min_l.
  - rewrite u32_small by wrap. by rewrite Z.min_r by lia.
Qed.

(** The counting loop divides. *)
Lemma attempts_loop_spec fuel s a :
  0 < REFILL → 0 ≤ s < 2 ^ 32 → 0 ≤ a → s / REFILL < Z.of_nat fuel → a + s / REFILL < 2 ^ 32 →
  attempts_loop fuel s a = Some (a + s / REFILL).
Proof.
  intros HR. revert s a. induction fuel as [|fuel IH]; intros s a Hs Ha Hf Hlim.
  { pose proof (Z.div_pos s REFILL). lia. }
  cbn [attempts_loop]. destruct (Z.leb_spec REFILL s).
  - assert (Hd : s / REFILL = (s - REFILL) / REFILL + 1).
    { replace s with ((s - REFILL) + 1 * REFILL) at 1 by lia. by rewrite Z.div_add by lia. }
    pose proof (Z.div_pos (s - REFILL) REFILL).
    change (2 ^ 32) with 4294967296 in *.
    rewrite !u32_small by wrap. rewrite IH by lia. f_equal. lia.
  - rewrite Z.div_small by lia. f_equal. lia.
Qed.

Lemma bucket_attempts m : mas_ok m → 0 < REFILL → 0 ≤ mas_rl_bucket m / REFILL ≤ 255.
Proof.
  intros (_ & _ & _ & _ & Hb & _) HR. split; [by apply Z.div_pos; lia|].
  apply Z.div_le_upper_bound; lia.
Qed.

Lemma runs_attempts w :
  mas_ok (env_mas w) →
  runs nexus_keycode_rate_limit_attempts_remaining w
    (if 0 <? BUCKET_MAX then mas_rl_bucket (env_mas w) / REFILL else 0) (env_mas w) [].
Proof.
  intros Hok. unfold nexus_keycode_rate_limit_attempts_remaining.
  destruct (Z.ltb_spec 0 BUCKET_MAX) as [Hmax|]; [|apply runs_ret].
  pose proof (refill_nonzero Hmax). pose proof (bucket_attempts _ Hok). pose proof refill_ok.
  pose proof Hok as (_ & _ & _ & _ & Hb & _).
  eapply runs_then; [apply runs_gets|]. intros w1 Hw1 _ _. rewrite <- Hw1 in *.
  exists w1. split; [|apply moved_refl]. unfold lift. rewrite attempts_loop_spec; [done|lia|..];
    change (2 ^ 32) with 4294967296; lia.
Qed.

Lemma runs_remaining w :
  mas_ok (env_mas w) →
  runs (nexus_keycode_mas_remaining_graceperiod_keycodes (mas_rl_bucket (env_mas w))) w
    (remaining (env_mas w)) (env_mas w) [].
Proof.
  intros Hok. unfold nexus_keycode_mas_remaining_graceperiod_keycodes, remaining.
  destruct (Z.ltb_spec 0 BUCKET_MAX) as [Hmax|]; [|apply runs_ret].
  pose proof (refill_nonzero Hmax). pose proof (bucket_attempts _ Hok). pose proof bucket_initial_ok.
  destruct (Z.leb_spec (INITIAL * REFILL) (mas_rl_bucket (env_mas w))) as [Hle|Hlt].
  - eapply runs_eq; [apply runs_ret| |done..]. rewrite u8_small by wrap. rewrite Z.min_l; [done|].
    apply Z.div_le_lower_bound; lia.
  - eapply runs_then; [by apply runs_attempts|]. intros w1 Hw1 _ _. rewrite <- Hw1 in *.
    eapply runs_eq; [apply runs_ret| |done..].
    replace (0 <? BUCKET_MAX) with true by lia. rewrite u8_small by wrap.
    assert (mas_rl_bucket (env_mas w1) / REFILL < INITIAL) by (apply Z.div_lt_upper_bound; lia). lia.
Qed.

Lemma remaining_range m : mas_ok m → is_u8 (remaining m).
Proof.
  intros Hok. unfold remaining. destruct (Z.ltb_spec 0 BUCKET_MAX) as [Hmax|]; [|wrap].
  pose proof (refill_nonzero Hmax). pose proof (bucket_attempts _ Hok). pose proof bucket_initial_ok. wrap.
Qed.
(** ** Process *)

(** A call that changes the assembler and its NV block. *)
Record processed (w w' : W) (m : mas_state) : Prop := mk_processed {
  processed_mas : env_mas w' = m;
  processed_handed : handed [] w w';
  processed_uptime : env_uptime w' = env_uptime w;
  processed_init : env_core_init w' = env_core_init w;
  processed_nv meta : block_id meta ≠ block_id NX_NV_BLOCK_KEYCODE_MAS →
    nv_stored meta (env_prod w') = nv_stored meta (env_prod w);
  processed_key : nxp_keycode_get_secret_key (env_prod w') = nxp_keycode_get_secret_key (env_prod w);
  processed_payg : payg_equiv (env_prod w') (env_prod w)
}.

Lemma mas_stored_bytes_ok m : mas_ok m → inner_ok NX_NV_BLOCK_KEYCODE_MAS (mas_stored_bytes m).
Proof.
  intros (_ & Hg & Hb & Hl & _). split; [by apply Forall_cons|]. cbn [mas_stored_bytes length]. by rewrite Hl.
Qed.

Lemma with_graceperiod_ok g m : mas_ok m → is_u8 g → mas_ok (with_graceperiod g m).
Proof. unfold mas_ok. cbn. tauto. Qed.

Lemma graceperiod_update_spec g w :
  mas_ok (env_mas w) → is_u8 g → mas_synced w →
  ∃ b w', nexus_keycode_mas_graceperiod_keycodes_update_nv g w = Some (b, w') ∧
    processed w w' (with_graceperiod g (env_mas w)) ∧ mas_synced w'.
Proof.
  intros Hok Hg Hsync. unfold nexus_keycode_mas_graceperiod_keycodes_update_nv.
  erewrite bind_Some by reflexivity.
  destruct (Z.eqb_spec g (mas_graceperiod_keycodes (env_mas w))) as [->|Hne].
  { exists false, w. split; [done|]. split; [|done]. split; try done; [by destruct (env_mas w)|apply handed_nil]. }
  pose proof (with_graceperiod_ok g _ Hok Hg) as Hok'.
  set (m := with_graceperiod g (env_mas w)) in *.
  unfold mas_modify at 1. erewrite bind_Some by reflexivity.
  unfold mas_gets at 1. erewrite bind_Some by (unfold gets; reflexivity).
  rewrite mas_of_set. fold m.
  destruct (nexus_nv_update_spec NX_NV_BLOCK_KEYCODE_MAS (mas_stored_bytes m) (env_prod w))
    as (p' & Hrun & [U1 U2 U3 U4 U5]); [apply keycode_metas_ok|by apply mas_stored_bytes_ok|].
  exists true, (env_set_prod p' (env_set_mas m w)). split.
  { unfold mas_prod, zoom. mstep. rewrite prod_of_set, Hrun. done. }
  split.
  - split; rewrite ?mas_of_set_prod, ?mas_of_set, ?prod_of_set_prod, ?uptime_of_set_prod, ?uptime_of_set,
      ?core_init_of_set_prod, ?core_init_of_set; try done.
    exact (handed_app [] [] _ _ _ (handed_set _ _) (handed_set_prod _ _)).
  - unfold mas_synced, mas_nv. rewrite prod_of_set_prod, U1. by rewrite mas_of_set_prod, mas_of_set.
Qed.

(** Seconds until the next call: one while a message is being entered. *)
Definition sleep_time (m : mas_state) : Z :=
  if bk_start_seen m then 1 else NEXUS_COMMON_IDLE_TIME_BETWEEN_PROCESS_CALL_SECONDS.

Lemma runs_bookend_process w :
  runs nexus_keycode_mas_bookend_process w (sleep_time (timed_out (env_uptime w) (env_mas w)))
    (timed_out (env_uptime w) (env_mas w)) [].
Proof.
  unfold nexus_keycode_mas_bookend_process.
  eapply runs_then; [apply runs_gets|]. intros w1 Hw1 Hu1 _. rewrite <- Hw1, <- Hu1. clear Hw1 Hu1 w.
  eapply runs_then with (m := timed_out (env_uptime w1) (env_mas w1)).
  - unfold timed_out. destruct (bk_start_seen (env_mas w1)); [|apply runs_ret].
    eapply runs_then; [apply runs_gets|]. intros w2 Hw2 Hu2 _. rewrite <- Hw2, <- Hu2. clear Hw2 Hu2 w1.
    unfold runs. erewrite bind_Some by reflexivity.
    assert (Hset : runs (when (bk_latest_uptime (env_mas w2) =? UINT32_MAX)
        (mas_modify (with_latest_uptime (env_uptime w2)))) w2 tt
        (if bk_latest_uptime (env_mas w2) =? UINT32_MAX then with_latest_uptime (env_uptime w2) (env_mas w2)
         else env_mas w2) []).
    { unfold when. destruct (_ =? _); [apply runs_modify|apply runs_ret]. }
    eapply runs_then; [exact Hset|]. intros w3 Hw3 Hu3 _. rewrite <- Hw3, <- Hu3. clear Hset Hw3 Hu3 w2.
    eapply runs_then; [apply runs_gets|]. intros w4 Hw4 Hu4 _. cbv zeta. rewrite <- Hw4, <- Hu4.
    unfold when. destruct (_ <? _); [|apply runs_ret].
    eapply runs_then; [apply runs_modify|]. intros w5 Hw5 _ _. rewrite <- Hw5. apply runs_reset.
  - intros w2 Hw2 Hu2 _. eapply runs_eq; [apply runs_gets|..]; try done. by rewrite Hw2.
Qed.

Lemma timed_out_ok uptime m : mas_ok m → mas_ok (timed_out uptime m).
Proof.
  intros Hok. unfold timed_out. destruct (bk_start_seen m); [|done]. cbv zeta.
  assert (Hok' : mas_ok (if bk_latest_uptime m =? UINT32_MAX then with_latest_uptime uptime m else m)).
  { by destruct (_ =? _). }
  destruct (_ <? _); [|done]. by apply reset_ok.
Qed.

Lemma timed_out_fields uptime m :
  mas_graceperiod_keycodes (timed_out uptime m) = mas_graceperiod_keycodes m ∧
  mas_pad (timed_out uptime m) = mas_pad m ∧ mas_rl_bucket (timed_out uptime m) = mas_rl_bucket m.
Proof.
  unfold timed_out. destruct (bk_start_seen m); [|done]. cbv zeta.
  destruct (bk_latest_uptime m =? UINT32_MAX); by destruct (_ <? _).
Qed.

Lemma refilled_mas_ok seconds m : 0 ≤ seconds → mas_ok m → mas_ok (refilled seconds m).
Proof.
  intros Hs (? & ? & ? & ? & ? & ?). pose proof bucket_max_ok. pose proof refill_ok. pose proof bucket_bound.
  unfold mas_ok, refilled. cbn. split_and!; try done; nia.
Qed.

Lemma moved_nv_stored w w' m f meta : moved w w' m f → nv_stored meta (env_prod w') = nv_stored meta (env_prod w).
Proof. intros [_ _ _ _ Hn _]. by rewrite Hn. Qed.

Lemma moved_synced w w' m f :
  moved w w' m f → mas_graceperiod_keycodes m = mas_graceperiod_keycodes (env_mas w) →
  mas_pad m = mas_pad (env_mas w) → mas_synced w → mas_synced w'.
Proof.
  intros Hmv Hg Hp. unfold mas_synced, mas_nv. rewrite (moved_nv_stored _ _ _ _ _ Hmv), (moved_mas _ _ _ _ Hmv).
  unfold mas_stored_bytes. rewrite Hg, Hp. done.
Qed.
Lemma time_step_fields seconds uptime m :
  mas_graceperiod_keycodes (time_step seconds uptime m) = remaining (refilled seconds m) ∧
  mas_rl_bucket (time_step seconds uptime m) = mas_rl_bucket (refilled seconds m).
Proof.
  unfold time_step. cbv zeta.
  destruct (timed_out_fields uptime (with_graceperiod (remaining (refilled seconds m)) (refilled seconds m))) as (-> & _ & ->).
  done.
Qed.

(** [nexus_keycode_mas_process] is [time_step], and the NV follows. *)
Lemma process_spec seconds w :
  mas_ok (env_mas w) → mas_synced w → is_u32 seconds →
  ∃ r w', nexus_keycode_mas_process seconds w = Some (r, w') ∧ r = sleep_time (env_mas w') ∧
    processed w w' (time_step seconds (env_uptime w) (env_mas w)) ∧
    mas_ok (env_mas w') ∧ mas_synced w'.
Proof.
  intros Hok Hsync Hs. unfold nexus_keycode_mas_process.
  destruct (runs_add_time seconds w Hok Hs) as (w1 & Hrun1 & M1). rewrite (bind_Some _ _ _ _ _ Hrun1).
  assert (Hok1 : mas_ok (env_mas w1)).
  { rewrite (moved_mas _ _ _ _ M1). apply refilled_mas_ok; [wrap|done]. }
  pose proof (moved_synced _ _ _ _ M1 eq_refl eq_refl Hsync) as Hsync1.
  erewrite bind_Some by reflexivity.
  destruct (runs_remaining w1 Hok1) as (w2 & Hrun2 & M2). rewrite (bind_Some _ _ _ _ _ Hrun2).
  pose proof (moved_synced _ _ _ _ M2 eq_refl eq_refl Hsync1) as Hsync2.
  assert (Hok2 : mas_ok (env_mas w2)) by (by rewrite (moved_mas _ _ _ _ M2)).
  destruct (graceperiod_update_spec (remaining (env_mas w1)) w2 Hok2 (remaining_range _ Hok1) Hsync2)
    as (b & w3 & Hrun3 & [P1 P2 P3 P4 P5 P6 P7] & Hsync3). rewrite (bind_Some _ _ _ _ _ Hrun3).
  destruct (runs_bookend_process w3) as (w4 & Hrun4 & M4).
  destruct (timed_out_fields (env_uptime w3) (env_mas w3)) as (Hg & Hp & _).
  pose proof (moved_synced _ _ _ _ M4 Hg Hp Hsync3) as Hsync4.
  assert (Hm3 : env_mas w3 = with_graceperiod (remaining (refilled seconds (env_mas w))) (refilled seconds (env_mas w))).
  { by rewrite P1, (moved_mas _ _ _ _ M2), (moved_mas _ _ _ _ M1). }
  eexists _, w4. split; [exact Hrun4|]. split; [by rewrite (moved_mas _ _ _ _ M4)|]. split; [|split; [|exact Hsync4]].
  - pose proof M1 as [_ L1 U1 C1 N1 G1]. pose proof M2 as [_ L2 U2 C2 N2 G2]. pose proof M4 as [E4 L4 U4 C4 N4 G4].
    split; try congruence.
    + rewrite E4, Hm3. unfold time_step. cbv zeta. congruence.
    + apply (handed_app [] [] _ _ _ L1), (handed_app [] [] _ _ _ L2), (handed_app [] [] _ _ _ P2), L4.
    + intros meta Hmeta. rewrite (moved_nv_stored _ _ _ _ _ M4), P5 by done.
      by rewrite (moved_nv_stored _ _ _ _ _ M2), (moved_nv_stored _ _ _ _ _ M1).
    + destruct N4 as [_ -> _]. rewrite P6. destruct N2 as [_ -> _]. by destruct N1 as [_ -> _].
    + by rewrite G4, P7, G2.
  - rewrite (moved_mas _ _ _ _ M4), Hm3. apply timed_out_ok, with_graceperiod_ok.
    + apply refilled_mas_ok; [wrap|done].
    + apply remaining_range, refilled_mas_ok; [wrap|done].
Qed.
(** ** Power up *)

(** The state after a power up: the grace period is the stored one, or the
    initial count, and fills the bucket. *)
Definition loaded (stored : option (list Z)) (m : mas_state) : mas_state :=
  match stored with
  | Some d => with_mas_stored d m
  | None => with_graceperiod INITIAL m
  end.

Definition booted (stored : option (list Z)) (m : mas_state) : mas_state :=
  let m := loaded stored m in reset (with_bucket (mas_graceperiod_keycodes m * REFILL) m).

Lemma with_mas_stored_bytes m : mas_ok m → with_mas_stored (mas_stored_bytes m) m = m.
Proof.
  intros (_ & _ & _ & Hl & _). destruct m as [g pad]. unfold with_mas_stored, mas_stored_bytes. cbn in *.
  f_equal. apply take_ge. lia.
Qed.

Lemma with_mas_stored_ok d m :
  inner_ok NX_NV_BLOCK_KEYCODE_MAS d → mas_ok m →
  mas_ok (with_mas_stored d m) ∧ mas_stored_bytes (with_mas_stored d m) = d.
Proof.
  intros [Hb Hl] (? & ? & ? & ? & ? & ?). change (inner_length _) with 4%nat in Hl.
  destruct d as [|g pad]; [done|]. apply Forall_cons in Hb as [Hg Hb]. cbn [length] in Hl. assert (length pad = 3%nat) by lia. clear Hl.
  unfold with_mas_stored, mas_stored_bytes, mas_ok. cbn [mas_partial mas_graceperiod_keycodes mas_pad mas_rl_bucket
    bk_stop_length lookup list_lookup default drop]. rewrite drop_0, (take_ge pad 3) by lia.
  unfold id. split; [|done]. split_and!; (done || lia).
Qed.

Lemma loaded_ok stored m :
  mas_ok m → (∀ d, stored = Some d → inner_ok NX_NV_BLOCK_KEYCODE_MAS d) → mas_ok (loaded stored m).
Proof.
  intros Hok Hd. pose proof bucket_initial_ok. destruct stored as [d|]; cbn.
  - by apply with_mas_stored_ok; auto.
  - apply with_graceperiod_ok; [done|wrap].
Qed.

Lemma booted_ok stored m :
  mas_ok m → (∀ d, stored = Some d → inner_ok NX_NV_BLOCK_KEYCODE_MAS d) → mas_ok (booted stored m).
Proof.
  intros Hok Hd. pose proof refill_ok. pose proof (loaded_ok stored m Hok Hd) as (? & Hg & ? & ? & ? & ?).
  apply reset_ok. unfold is_u8 in Hg. unfold mas_ok. cbn [with_bucket mas_partial mas_graceperiod_keycodes mas_pad
    mas_rl_bucket bk_stop_length]. split_and!; try done; nia.
Qed.

(** [nexus_keycode_mas_init] is a power up. *)
Lemma init_spec w :
  mas_ok (env_mas w) →
  ∃ w', nexus_keycode_mas_init w = Some (tt, w') ∧ moved w w' (booted (mas_nv w) (env_mas w)) [] ∧
    mas_ok (env_mas w') ∧ mas_synced w'.
Proof.
  intros Hok. pose proof bucket_initial_ok as Hi. pose proof refill_ok as Hr.
  assert (Hstored : ∀ d, mas_nv w = Some d → inner_ok NX_NV_BLOCK_KEYCODE_MAS d).
  { intros d Hd. eapply nv_stored_ok; [apply keycode_metas_ok|exact Hd]. }
  pose proof (booted_ok (mas_nv w) (env_mas w) Hok Hstored) as Hbok.
  assert (Hrun : runs nexus_keycode_mas_init w tt (booted (mas_nv w) (env_mas w)) []).
  { unfold nexus_keycode_mas_init. rewrite u8_small by wrap.
    set (m0 := with_graceperiod INITIAL (env_mas w)).
    destruct (runs_modify (with_graceperiod INITIAL) w) as (w1 & Hrun1 & M1). fold m0 in M1.
    assert (Hm0 : mas_ok m0) by (apply with_graceperiod_ok; [done|wrap]).
    assert (Hread : runs (mas_prod (nexus_nv_read NX_NV_BLOCK_KEYCODE_MAS (mas_stored_bytes m0))) w1
        (match mas_nv w with Some d => (true, d) | None => (false, mas_stored_bytes m0) end) m0 []).
    { exists (env_set_prod (env_prod w1) w1). split.
      - unfold mas_prod, zoom. rewrite nexus_nv_read_spec; [|apply keycode_metas_ok|apply mas_stored_bytes_ok, Hm0].
        unfold mas_nv. by rewrite (moved_nv_stored _ _ _ _ _ M1).
      - pose proof (moved_mas _ _ _ _ M1) as E1.
        split; cbn; rewrite ?app_nil_r, ?mas_of_set_prod, ?uptime_of_set_prod, ?core_init_of_set_prod,
          ?prod_of_set_prod; try done. apply handed_set_prod. }
    destruct Hread as (w2 & Hrun2 & M2).
    set (stored := match mas_nv w with Some d => d | None => mas_stored_bytes m0 end).
    assert (Hload : with_mas_stored stored m0 = loaded (mas_nv w) (env_mas w)).
    { unfold stored, loaded. destruct (mas_nv w); [done|]. by apply with_mas_stored_bytes. }
    pose proof (loaded_ok (mas_nv w) (env_mas w) Hok Hstored) as (_ & Hg & _).
    assert (Hrest : runs (mas_modify (with_mas_stored stored);;
        mas_modify (λ m, with_bucket (u32 (mas_graceperiod_keycodes m * REFILL)) m);;
        nexus_keycode_mas_reset) w2 tt (booted (mas_nv w) (env_mas w)) []).
    { eapply runs_then; [apply runs_modify|]. intros w3 Hw3 _ _. rewrite (moved_mas _ _ _ _ M2), Hload in Hw3.
      eapply runs_then; [apply runs_modify|]. intros w4 Hw4 _ _. rewrite Hw3 in Hw4.
      eapply runs_eq; [apply runs_reset|done| |done]. rewrite Hw4. unfold booted. cbv zeta.
      rewrite u32_small; [done|]. unfold is_u32. unfold is_u8 in Hg. nia. }
    destruct Hrest as (w3 & Hrun3 & M3). exists w3. rewrite (bind_Some _ _ _ _ _ Hrun1).
    erewrite bind_Some by (unfold mas_gets, gets; rewrite (moved_mas _ _ _ _ M1); reflexivity).
    rewrite (bind_Some _ _ _ _ _ Hrun2). split.
    - unfold stored in Hrun3. destruct (mas_nv w); exact Hrun3.
    - change (@nil nexus_keycode_frame) with (@nil nexus_keycode_frame ++ [] ++ []).
      eapply moved_trans; [exact M1|]. eapply moved_trans; [exact M2|exact M3]. }
  destruct Hrun as (w' & Hrun & M). exists w'. split; [done|]. split; [done|].
  rewrite (moved_mas _ _ _ _ M). split; [done|]. unfold mas_synced, mas_nv in *.
  rewrite (moved_nv_stored _ _ _ _ _ M), (moved_mas _ _ _ _ M).
  destruct (nv_stored NX_NV_BLOCK_KEYCODE_MAS (env_prod w)) as [d|] eqn:Hd; [|done].
  symmetry. exact (proj2 (with_mas_stored_ok d _ (Hstored d eq_refl) Hok)).
Qed.
End Process.
