(* ===== verification/KeycodeMasRun.v ===== *)
(** * Message assembly: what a unit does with its keypad

    The theorems about nexus_keycode_mas.c as the product uses it: single keys,
    complete keycodes and calls of process, in any order, over any number of
    them.  A message is the keys between a start and an end key (or as many as
    the stop length), at most 30; the number of messages that are handed over
    is bounded by the time that passes; a power cycle gains nothing. *)

From S2P Require Import Prelude Crc NvBlock Product Nv KeycodeState KeycodeMas KeycodeMasSpec.
From S2P Require Import KeycodeMasProcess.
Local Open Scope Z_scope.

(** ** The machine on whole messages *)

Section Messages.
Context `{KeycodeConfigOk}.

#[local] Abbreviation REFILL := NEXUS_KEYCODE_PROTOCOL_RATE_LIMIT_REFILL_SECONDS_PER_ATTEMPT.
#[local] Abbreviation BUCKET_MAX := NEXUS_KEYCODE_PROTOCOL_RATE_LIMIT_BUCKET_MAX.

(** What pushing a key leaves alone. *)
Lemma pushed_fields key m :
  bk_start (pushed key m) = bk_start m ∧ bk_end (pushed key m) = bk_end m ∧
  bk_stop_length (pushed key m) = bk_stop_length m ∧ bk_start_seen (pushed key m) = bk_start_seen m ∧
  bk_latest_uptime (pushed key m) = bk_latest_uptime m ∧ mas_rl_bucket (pushed key m) = mas_rl_bucket m.
Proof. unfold pushed. cbv zeta. by destruct (_ <? 30). Qed.

Lemma limited_bucket m m' : mas_rl_bucket m' = mas_rl_bucket m → limited m' = limited m.
Proof. unfold limited. by intros ->. Qed.

Definition push_list (keys : list Z) (m : mas_state) : mas_state := foldl (λ m key, pushed key m) m keys.

Lemma push_list_fields keys m :
  bk_start (push_list keys m) = bk_start m ∧ bk_end (push_list keys m) = bk_end m ∧
  bk_stop_length (push_list keys m) = bk_stop_length m ∧ bk_start_seen (push_list keys m) = bk_start_seen m ∧
  bk_latest_uptime (push_list keys m) = bk_latest_uptime m ∧ mas_rl_bucket (push_list keys m) = mas_rl_bucket m.
Proof.
  revert m. induction keys as [|key keys IH]; intros m; [done|].
  change (push_list (key :: keys) m) with (push_list keys (pushed key m)).
  destruct (IH (pushed key m)) as (-> & -> & -> & -> & -> & ->). apply pushed_fields.
Qed.

Lemma push_list_snoc keys key m : push_list (keys ++ [key]) m = pushed key (push_list keys m).
Proof. unfold push_list. by rewrite foldl_app. Qed.

(** The assembler holds exactly the keys [pre]. *)
Definition collected (pre ks : list Z) (m : mas_state) : Prop :=
  mas_partial m = mk_frame (pre ++ drop (length pre) ks) (Z.of_nat (length pre)) ∧
  mas_max_length_exceeded m = false.

Lemma collected_pushed pre ks key m :
  length ks = 30%nat → (length pre < 30)%nat → collected pre ks m → collected (pre ++ [key]) ks (pushed key m).
Proof.
  intros Hks Hlen [Hp He]. unfold pushed. cbv zeta. rewrite Hp. cbn [fr_length fr_keys].
  replace (Z.of_nat (length pre) <? 30) with true by lia. split; [|done]. cbn [with_partial mas_partial].
  rewrite Nat2Z.id, length_app. cbn [length]. f_equal; [|lia].
  rewrite insert_app_r_alt, Nat.sub_diag by lia.
  destruct (lookup_lt_is_Some_2 ks (length pre)) as [k Hk]; [lia|].
  rewrite (drop_S _ _ _ Hk), <- app_assoc. cbn. by rewrite Nat.add_1_r.
Qed.

Lemma collected_push_list keys pre ks m :
  length ks = 30%nat → (length pre + length keys ≤ 30)%nat → collected pre ks m →
  collected (pre ++ keys) ks (push_list keys m).
Proof.
  intros Hks. revert pre m. induction keys as [|key keys IH]; intros pre m Hlen Hc; cbn [length] in Hlen.
  - by rewrite app_nil_r.
  - cbn [push_list foldl]. change (key :: keys) with ([key] ++ keys). rewrite app_assoc. apply IH.
    + rewrite length_app. cbn [length]. lia.
    + apply collected_pushed; [done|lia|done].
Qed.

Lemma exceeded_push_list keys m : mas_max_length_exceeded m = true → mas_max_length_exceeded (push_list keys m) = true.
Proof.
  revert m. induction keys as [|key keys IH]; intros m Hm; [done|]. cbn [push_list foldl]. apply IH.
  unfold pushed. cbv zeta. by destruct (_ <? 30).
Qed.

(** A message of more than thirty keys. *)
Lemma push_list_long keys ks m :
  length ks = 30%nat → (30 < length keys)%nat → collected [] ks m →
  mas_max_length_exceeded (push_list keys m) = true.
Proof.
  intros Hks Hlen Hc.
  assert (Hsplit : keys = take 30 keys ++ drop 30 keys) by (by rewrite take_drop).
  pose proof (collected_push_list (take 30 keys) [] ks m Hks) as Hc'. cbn [length app] in Hc'.
  rewrite length_take in Hc'. destruct Hc' as [Hp _]; [lia|done|].
  rewrite Hsplit. unfold push_list. rewrite foldl_app. fold (push_list (take 30 keys) m).
  destruct (drop 30 keys) as [|key rest] eqn:Hd.
  { apply (f_equal length) in Hd. rewrite length_drop in Hd. cbn in Hd. lia. }
  cbn [foldl]. apply (exceeded_push_list rest). unfold pushed. cbv zeta. rewrite Hp. cbn [fr_length].
  rewrite length_take, Nat.min_l by lia. done.
Qed.

Lemma reset_collected m : collected [] (fr_keys (mas_partial m)) (reset m).
Proof. by split. Qed.

(** The keys of a message: neither the start nor the end key, and fewer than
    the stop length, if there is one. *)
Definition body_key (m : mas_state) (key : Z) : Prop := key ≠ bk_start m ∧ key ≠ bk_end m.
Definition before_stop (m : mas_state) (n : nat) : Prop :=
  bk_stop_length m = 255 ∨ Z.of_nat n < bk_stop_length m.

Lemma not_stopped m n : before_stop m n → fr_length (mas_partial m) ≤ Z.of_nat n → stop_reached m = false.
Proof. unfold before_stop, stop_reached. intros [->|H1] H2; [done|]. lia. Qed.

Lemma pushed_length key m : fr_length (mas_partial (pushed key m)) ≤ fr_length (mas_partial m) + 1.
Proof. unfold pushed. cbv zeta. destruct (_ <? 30); cbn; lia. Qed.

Lemma push_all_list body m n :
  fr_length (mas_partial m) ≤ Z.of_nat n → before_stop m (n + length body) →
  push_all body m = push_list body m.
Proof.
  revert m n. induction body as [|key body IH]; intros m n Hn Hs; [done|]. cbn [push_all push_list foldl length] in *.
  cbv zeta. pose proof (pushed_length key m). destruct (pushed_fields key m) as (_ & _ & Hst & _).
  rewrite (not_stopped _ (S n)); [|unfold before_stop in *; rewrite Hst; lia|lia].
  apply (IH _ (S n)); [lia|]. unfold before_stop in *. rewrite Hst. lia.
Qed.

Lemma keys_step_body body m n :
  limited m = false → bk_start_seen m = true → bk_latest_uptime m = UINT32_MAX →
  Forall (body_key m) body → fr_length (mas_partial m) ≤ Z.of_nat n → before_stop m (n + length body) →
  keys_step body m = (push_list body m, []).
Proof.
  revert m n. induction body as [|key body IH]; intros m n Hlim Hseen Hlate Hb Hn Hs; [done|].
  apply Forall_cons in Hb as [[Hk1 Hk2] Hb]. cbn [keys_step push_list foldl length] in *.
  destruct (pushed_fields key m) as (E1 & E2 & Est & E4 & E5 & E6). pose proof (pushed_length key m).
  assert (Hstep : key_step key m = (pushed key m, [])).
  { unfold key_step. cbv zeta. replace (with_latest_uptime UINT32_MAX m) with m by (by destruct m; cbn in *; subst).
    rewrite Hlim, Hseen. rewrite !(proj2 (Z.eqb_neq _ _)) by done.
    rewrite (not_stopped _ (S n)); [done|unfold before_stop in *; rewrite Est; lia|lia]. }
  rewrite Hstep. fold (push_list body (pushed key m)). rewrite (IH _ (S n)); [done|..]; try congruence.
  - by rewrite (limited_bucket m).
  - eapply Forall_impl; [exact Hb|]. unfold body_key. by rewrite E1, E2.
  - lia.
  - unfold before_stop in *. rewrite Est. lia.
Qed.

Lemma keys_step_app l1 l2 m :
  keys_step (l1 ++ l2) m =
  ((keys_step l2 (keys_step l1 m).1).1, (keys_step l1 m).2 ++ (keys_step l2 (keys_step l1 m).1).2).
Proof.
  revert m. induction l1 as [|key l1 IH]; intros m; cbn [app keys_step].
  - cbn [fst snd app]. by destruct (keys_step l2 m).
  - destruct (key_step key m) as [m1 f1]. rewrite IH. destruct (keys_step l1 m1) as [m2 f2]. cbn [fst snd].
    by rewrite app_assoc.
Qed.

(** The state in which the keys of a message are collected. *)
Definition opened (m : mas_state) : mas_state := reset (with_start_seen true (with_latest_uptime UINT32_MAX m)).

Lemma key_step_start m : limited m = false → key_step (bk_start m) m = (opened m, []).
Proof.
  intros Hlim. unfold key_step. cbv zeta. rewrite (limited_bucket m) by done. rewrite Hlim.
  cbn [bk_start with_latest_uptime]. by rewrite Z.eqb_refl.
Qed.

(** A message that ends with the end key. *)
Lemma keys_step_ended body m :
  limited m = false → bk_start m ≠ bk_end m → Forall (body_key m) body → before_stop m (length body) →
  keys_step (bk_start m :: body ++ [bk_end m]) m =
  (finished (with_start_seen false (push_list body (opened m))),
   finish_frames (push_list body (opened m))).
Proof.
  intros Hlim Hne Hb Hs. cbn [keys_step]. rewrite key_step_start by done.
  rewrite keys_step_app, (keys_step_body body _ 0); try done.
  cbn [fst snd keys_step app].
  destruct (push_list_fields body (opened m)) as (E1 & E2 & Est & E4 & E5 & E6).
  unfold key_step. cbv zeta.
  replace (with_latest_uptime UINT32_MAX (push_list body (opened m))) with (push_list body (opened m))
    by (destruct (push_list body (opened m)); cbn in *; by subst).
  rewrite (limited_bucket m) by done. rewrite Hlim, E1, E2, E4. cbn [opened reset bk_start bk_end bk_start_seen].
  change (bk_start (opened m)) with (bk_start m). change (bk_end (opened m)) with (bk_end m).
  rewrite (proj2 (Z.eqb_neq _ _)), Z.eqb_refl by done.
  change (bk_start_seen (opened m)) with true. cbn [fst snd app]. by rewrite app_nil_r.
Qed.

(** A message that ends with its length. *)
Lemma keys_step_stopped body last m :
  limited m = false → Forall (body_key m) (body ++ [last]) → mas_ok m →
  bk_stop_length m = Z.of_nat (S (length body)) → (length body < 30)%nat →
  keys_step (bk_start m :: body ++ [last]) m =
  (finished (with_start_seen false (push_list (body ++ [last]) (opened m))),
   finish_frames (push_list (body ++ [last]) (opened m))).
Proof.
  intros Hlim Hb Hok Hst Hlen. apply Forall_app in Hb as [Hb [[Hl1 Hl2] _]%Forall_cons].
  cbn [keys_step]. rewrite key_step_start by done.
  rewrite keys_step_app, (keys_step_body body _ 0); try done.
  2: { right. change (bk_stop_length (opened m)) with (bk_stop_length m). lia. }
  cbn [fst snd keys_step app].
  destruct (push_list_fields body (opened m)) as (E1 & E2 & Est & E4 & E5 & E6).
  pose proof (collected_push_list body [] (fr_keys (mas_partial m)) (opened m)) as Hc.
  destruct Hc as [Hp _]; [apply Hok|cbn; lia|exact (reset_collected (with_start_seen true (with_latest_uptime UINT32_MAX m)))|]. cbn [app length] in Hp.
  unfold key_step. cbv zeta.
  replace (with_latest_uptime UINT32_MAX (push_list body (opened m))) with (push_list body (opened m))
    by (destruct (push_list body (opened m)); cbn in *; by subst).
  rewrite (limited_bucket m) by done. rewrite Hlim, E1, E2, E4.
  change (bk_start (opened m)) with (bk_start m). change (bk_end (opened m)) with (bk_end m).
  rewrite !(proj2 (Z.eqb_neq _ _)) by done. change (bk_start_seen (opened m)) with true.
  assert (Hreach : stop_reached (pushed last (push_list body (opened m))) = true).
  { unfold stop_reached. destruct (pushed_fields last (push_list body (opened m))) as (_ & _ & -> & _).
    rewrite Est. change (bk_stop_length (opened m)) with (bk_stop_length m). unfold pushed. cbv zeta. rewrite Hp.
    cbn [fr_length]. replace (Z.of_nat (length body) <? 30) with true by lia. cbn [with_partial mas_partial fr_length].
    rewrite Hst, (proj2 (Z.eqb_neq _ _)) by lia. cbn [negb andb]. apply Z.leb_le. lia. }
  rewrite Hreach, push_list_snoc. cbn [fst snd app]. by rewrite app_nil_r.
Qed.

(** The frame of a message. *)
Lemma finish_message body m :
  mas_ok m →
  if bool_decide (1 ≤ length body ≤ 30)%nat
  then ∃ f, finish_frames (push_list body (opened m)) = [f] ∧ fr_length f = Z.of_nat (length body) ∧
            take (length body) (fr_keys f) = body ∧ frame_ok f
  else finish_frames (push_list body (opened m)) = [].
Proof.
  intros [[Hk _] _]. pose proof (reset_collected (with_start_seen true (with_latest_uptime UINT32_MAX m))) as Hr.
  fold (opened m) in Hr. change (fr_keys (mas_partial (with_start_seen _ _))) with (fr_keys (mas_partial m)) in Hr.
  unfold finish_frames. destruct (decide (length body ≤ 30)%nat) as [Hle|Hgt].
  - destruct (collected_push_list body [] _ _ Hk Hle Hr) as [-> ->]. cbn [app fr_length negb andb].
    case_bool_decide; [replace (0 <? Z.of_nat (length body)) with true by lia|
                       by replace (0 <? Z.of_nat (length body)) with false by lia].
    eexists. split; [reflexivity|]. cbn [fr_length fr_keys]. rewrite take_app_length.
    split_and!; [done..|]. unfold frame_ok. cbn. rewrite length_app, length_drop, Hk.
    unfold NEXUS_KEYCODE_MAX_MESSAGE_LENGTH. lia.
  - rewrite (push_list_long body _ _ Hk) by (done || lia). rewrite andb_false_r.
    by rewrite bool_decide_eq_false_2 by lia.
Qed.
End Messages.

(** ** Invariant and cost of the machine's steps *)

Section Steps.
Context `{KeycodeConfigOk}.

#[local] Abbreviation REFILL := NEXUS_KEYCODE_PROTOCOL_RATE_LIMIT_REFILL_SECONDS_PER_ATTEMPT.
#[local] Abbreviation BUCKET_MAX := NEXUS_KEYCODE_PROTOCOL_RATE_LIMIT_BUCKET_MAX.

Lemma finished_fields m :
  mas_graceperiod_keycodes (finished m) = mas_graceperiod_keycodes m ∧ mas_pad (finished m) = mas_pad m.
Proof. unfold finished, deducted. by destruct (_ && _). Qed.

(** The keys that begin and end a message. *)
Definition bookends (m : mas_state) : Z * Z * Z := (bk_start m, bk_end m, bk_stop_length m).

(** A step of the machine that is not limited costs one attempt for each frame
    it hands over. *)
Record stepped (m : mas_state) (r : mas_state * list nexus_keycode_frame) : Prop := mk_stepped {
  stepped_ok : mas_ok m → mas_ok r.1;
  stepped_nv : mas_stored_bytes r.1 = mas_stored_bytes m;
  stepped_bookends : bookends r.1 = bookends m;
  stepped_frames : mas_ok m → Forall frame_ok r.2;
  stepped_cost : 0 < BUCKET_MAX → mas_rl_bucket r.1 + REFILL * Z.of_nat (length r.2) ≤ mas_rl_bucket m
}.

Lemma stepped_same f m :
  (mas_ok m → mas_ok (f m)) → mas_stored_bytes (f m) = mas_stored_bytes m →
  bookends (f m) = bookends m → mas_rl_bucket (f m) = mas_rl_bucket m → stepped m (f m, []).
Proof. intros Hok Hnv Hbk Hb. split; cbn; try done. lia. Qed.

Lemma pushed_bookends key m : bookends (pushed key m) = bookends m.
Proof. unfold pushed. cbv zeta. by destruct (_ <? 30). Qed.

Lemma pushed_stored key m : mas_stored_bytes (pushed key m) = mas_stored_bytes m.
Proof. unfold pushed. cbv zeta. by destruct (_ <? 30). Qed.

Lemma push_all_fields keys m :
  mas_stored_bytes (push_all keys m) = mas_stored_bytes m ∧ bookends (push_all keys m) = bookends m ∧ mas_rl_bucket (push_all keys m) = mas_rl_bucket m.
Proof.
  revert m. induction keys as [|key keys IH]; intros m; [done|]. cbn [push_all]. cbv zeta.
  destruct (pushed_fields key m) as (_ & _ & _ & _ & _ & Hb).
  destruct (stop_reached _); [by rewrite pushed_stored, pushed_bookends|].
  destruct (IH (pushed key m)) as (-> & -> & ->). by rewrite pushed_stored, pushed_bookends.
Qed.

(** Finishing a message that was assembled from [m]. *)
Lemma stepped_finish m m' :
  limited m = false → (mas_ok m → mas_ok m') → mas_stored_bytes m' = mas_stored_bytes m →
  bookends m' = bookends m → mas_rl_bucket m' = mas_rl_bucket m → stepped m (finished m', finish_frames m').
Proof.
  intros Hlim Hok Hnv Hbk Hb. split; cbn [fst snd].
  - intros Hm. by apply finished_ok, Hok.
  - unfold mas_stored_bytes in *. destruct (finished_fields m') as [-> ->]. done.
  - rewrite <- Hbk. unfold finished, deducted. by destruct (_ && _).
  - intros Hm. destruct (Hok Hm) as [Hf _]. unfold finish_frames. destruct (_ && _); [|done]. by apply Forall_singleton.
  - intros Hmax. unfold limited in Hlim. unfold finished. change (mas_rl_bucket (reset ?x)) with (mas_rl_bucket x).
    rewrite deducted_bucket, Hb. replace (0 <? BUCKET_MAX) with true in * by lia. cbn [andb] in *.
    replace (REFILL <=? mas_rl_bucket m) with true by lia.
    assert (length (finish_frames m') ≤ 1)%nat by (unfold finish_frames; destruct (_ && _); cbn; lia).
    pose proof refill_ok. nia.
Qed.

Lemma key_step_stepped key m : stepped m (key_step key m).
Proof.
  unfold key_step. cbv zeta. set (m1 := with_latest_uptime UINT32_MAX m).
  destruct (limited m1) eqn:Hlim; [by apply (stepped_same (with_latest_uptime UINT32_MAX))|].
  destruct (key =? bk_start m1).
  { apply (stepped_same (λ m, reset (with_start_seen true (with_latest_uptime UINT32_MAX m)))); try done.
    intros Hm. by apply reset_ok. }
  destruct (bk_start_seen m1); [|by apply (stepped_same (with_latest_uptime UINT32_MAX))].
  destruct (key =? bk_end m1); [by apply stepped_finish|].
  destruct (pushed_fields key m1) as (_ & _ & _ & _ & _ & Hb).
  destruct (stop_reached _).
  - apply stepped_finish; try done.
    + intros Hm. by apply (pushed_ok key m1).
    + exact (pushed_stored key m1).
    + exact (pushed_bookends key m1).
  - split; cbn [fst snd]; [intros Hm; by apply (pushed_ok key m1)|exact (pushed_stored key m1)|exact (pushed_bookends key m1)|done|].
    intros _. rewrite Hb. cbn. lia.
Qed.

Lemma complete_step_stepped keys m : stepped m (complete_step keys m).
Proof.
  unfold complete_step. destruct keys as [|first rest]; [by apply (stepped_same id)|].
  destruct (limited m) eqn:Hlim; [by apply (stepped_same id)|].
  destruct (negb _); [by apply (stepped_same id)|]. cbv zeta.
  set (body := match NEXUS_KEYCODE_PROTOCOL with NEXUS_KEYCODE_PROTOCOL_FULL => _ | _ => rest end).
  destruct (push_all_fields body (reset (with_start_seen true m))) as (Hnv & Hbk & Hb).
  apply stepped_finish; try done.
  intros Hm. by apply (push_all_ok body), reset_ok.
Qed.

Lemma stepped_trans m r1 r2 : stepped m r1 → stepped r1.1 r2 → stepped m (r2.1, r1.2 ++ r2.2).
Proof.
  intros [O1 N1 B1 F1 C1] [O2 N2 B2 F2 C2]. split; cbn [fst snd].
  - auto.
  - by rewrite N2.
  - by rewrite B2.
  - intros Hm. apply Forall_app_2; auto.
  - intros Hmax. specialize (C1 Hmax). specialize (C2 Hmax). rewrite length_app. lia.
Qed.

Lemma keys_step_stepped keys m : stepped m (keys_step keys m).
Proof.
  revert m. induction keys as [|key keys IH]; intros m; [by apply (stepped_same id)|].
  cbn [keys_step]. pose proof (key_step_stepped key m) as Hs. specialize (IH (key_step key m).1).
  pose proof (stepped_trans _ _ _ Hs IH) as Ht.
  destruct (key_step key m) as [m1 f1]. cbn [fst snd] in *. by destruct (keys_step keys m1).
Qed.
End Steps.

(** ** The code *)

Section Keypad.
Context {W P : Type} `{HP : ProductLaws P} `{!ReliableNv P} `{!MasEnv W P} `{!MasEnvLaws W P} `{KeycodeConfigOk}.

(** A sequence of key presses. *)
Fixpoint keypad (keys : list Z) : M W unit :=
  match keys with
  | [] => mret tt
  | key :: keys => _ ← nx_keycode_handle_single_key key; keypad keys
  end.

Lemma runs_single key w :
  mas_ok (env_mas w) → env_core_init w = true →
  runs (nx_keycode_handle_single_key key) w true (key_step key (env_mas w)).1 (key_step key (env_mas w)).2.
Proof.
  intros Hok Hi. unfold nx_keycode_handle_single_key, runs. erewrite bind_Some by reflexivity. rewrite Hi. cbn [negb].
  eapply runs_last; [by apply runs_bookend_push|]. intros w1 Hw1 _ _. rewrite <- Hw1. apply runs_ret.
Qed.

Lemma runs_keypad keys w :
  mas_ok (env_mas w) → env_core_init w = true →
  runs (keypad keys) w tt (keys_step keys (env_mas w)).1 (keys_step keys (env_mas w)).2.
Proof.
  revert w. induction keys as [|key keys IH]; intros w Hok Hi; [apply runs_ret|]. cbn [keypad keys_step].
  destruct (runs_single key w Hok Hi) as (w1 & Hrun & M1). pose proof (key_step_stepped key (env_mas w)) as [Hstep _ _ _ _].
  destruct (key_step key (env_mas w)) as [m1 f1]. cbn [fst snd] in *.
  destruct (IH w1) as (w2 & Hrun2 & M2).
  { rewrite (moved_mas _ _ _ _ M1). auto. }
  { rewrite (moved_init _ _ _ _ M1). done. }
  rewrite (moved_mas _ _ _ _ M1) in M2. destruct (keys_step keys m1) as [m2 f2]. cbn [fst snd] in *.
  exists w2. rewrite (bind_Some _ _ _ _ _ Hrun). split; [done|]. by eapply moved_trans.
Qed.

End Keypad.

Section Run.
Context {W P : Type} `{HP : ProductLaws P} `{!ReliableNv P} `{!MasEnv W P} `{!MasEnvLaws W P} `{KeycodeConfigOk}.

#[local] Abbreviation REFILL := NEXUS_KEYCODE_PROTOCOL_RATE_LIMIT_REFILL_SECONDS_PER_ATTEMPT.
#[local] Abbreviation BUCKET_MAX := NEXUS_KEYCODE_PROTOCOL_RATE_LIMIT_BUCKET_MAX.
#[local] Abbreviation INITIAL := NEXUS_KEYCODE_PROTOCOL_RATE_LIMIT_BUCKET_INITIAL_COUNT.

(** In the logged environment what was handed over is what was logged. *)
Lemma moved_log (w w' : logged W) m f : moved w w' m f → w'.2 = w.2 ++ f.
Proof. intros Hm. exact (proj1 (moved_handed _ _ _ _ Hm)). Qed.

Lemma processed_log (w w' : logged W) m : processed w w' m → w'.2 = w.2.
Proof. intros Hp. pose proof (proj1 (processed_handed _ _ _ Hp)) as Hl. by rewrite app_nil_r in Hl. Qed.

(** What the product and time do to the module: key presses, complete
    keycodes and calls of process; between them everything but the module's
    state may change. *)
Inductive mas_event :=
| KeyPressed (key : Z)
| CodeEntered (keys : list Z) (len : Z)
| TimePassed (seconds : Z).

Definition event_ok (e : mas_event) : Prop :=
  match e with
  | KeyPressed _ => True
  | CodeEntered keys len => 1 ≤ len < 256 ∧ len ≤ Z.of_nat (length keys)
  | TimePassed seconds => is_u32 seconds
  end.

Definition event_seconds (e : mas_event) : Z := match e with TimePassed seconds => seconds | _ => 0 end.

Definition elapsed (l : list mas_event) : Z := foldr (λ e n, event_seconds e + n) 0 l.

Definition handle_event (e : mas_event) : M (logged W) unit :=
  match e with
  | KeyPressed key => _ ← nx_keycode_handle_single_key key; mret tt
  | CodeEntered keys len => _ ← nx_keycode_handle_complete_keycode keys len; mret tt
  | TimePassed seconds => _ ← nexus_keycode_mas_process seconds; mret tt
  end.

Definition between (w w' : logged W) : Prop :=
  env_mas w' = env_mas w ∧ w'.2 = w.2 ∧ mas_nv w' = mas_nv w.

Inductive mas_run : logged W → list mas_event → logged W → Prop :=
| mas_run_nil w w' : between w w' → mas_run w [] w'
| mas_run_cons w e w1 w2 l w3 :
    event_ok e → between w w1 → handle_event e w1 = Some (tt, w2) → mas_run w2 l w3 → mas_run w (e :: l) w3.

(** One event: it returns, keeps the invariant, and pays for its frames. *)
Lemma event_step e (w : logged W) :
  event_ok e → mas_ok (env_mas w) → mas_synced w →
  ∃ w' frames, handle_event e w = Some (tt, w') ∧ mas_ok (env_mas w') ∧ mas_synced w' ∧
    w'.2 = w.2 ++ frames ∧ Forall frame_ok frames ∧
    (0 < BUCKET_MAX → mas_rl_bucket (env_mas w') + REFILL * Z.of_nat (length frames) ≤
                      mas_rl_bucket (env_mas w) + event_seconds e).
Proof.
  intros He Hok Hsync.
  assert (Hkeep : ∀ (w' : logged W) r, stepped (env_mas w) r → moved w w' r.1 r.2 →
    mas_ok (env_mas w') ∧ mas_synced w' ∧ w'.2 = w.2 ++ r.2 ∧ Forall frame_ok r.2 ∧
    (0 < BUCKET_MAX → mas_rl_bucket (env_mas w') + REFILL * Z.of_nat (length r.2) ≤ mas_rl_bucket (env_mas w) + 0)).
  { intros w' r [S1 S2 _ S3 S4] Hm. rewrite (moved_mas _ _ _ _ Hm).
    split; [auto|]. split; [|split; [by eapply moved_log|split; [auto|intros Hmax; specialize (S4 Hmax); lia]]].
    unfold mas_stored_bytes in S2. injection S2 as S2 S2'. by eapply moved_synced. }
  destruct e as [key|keys len|seconds]; cbn [handle_event event_seconds event_ok] in *.
  - destruct (env_core_init w) eqn:Hi.
    + destruct (runs_single key w Hok Hi) as (w' & Hrun & Hm). exists w', (key_step key (env_mas w)).2.
      rewrite (bind_Some _ _ _ _ _ Hrun). split; [done|]. apply Hkeep; [apply key_step_stepped|done].
    + exists w, []. split; [|rewrite app_nil_r; split_and!; [done..|intros _; cbn [length]; lia]].
      unfold nx_keycode_handle_single_key. mstep. by rewrite Hi.
  - destruct He as [Hl1 Hl2]. destruct (env_core_init w) eqn:Hi.
    + destruct (runs_handle_complete keys len w Hok Hi Hl1 Hl2) as (w' & Hrun & Hm).
      exists w', (complete_step (take (Z.to_nat len) keys) (env_mas w)).2.
      rewrite (bind_Some _ _ _ _ _ Hrun). split; [done|]. apply Hkeep; [apply complete_step_stepped|done].
    + exists w, []. split; [|rewrite app_nil_r; split_and!; [done..|intros _; cbn [length]; lia]].
      unfold nx_keycode_handle_complete_keycode. mstep. by rewrite Hi.
  - destruct (process_spec seconds w Hok Hsync He) as (r & w' & Hrun & _ & Hp & Hok' & Hsync').
    exists w', []. rewrite (bind_Some _ _ _ _ _ Hrun). rewrite app_nil_r.
    split_and!; try done; [by eapply processed_log|]. intros _. rewrite (processed_mas _ _ _ Hp).
    destruct (time_step_fields seconds (env_uptime w) (env_mas w)) as [_ ->]. cbn. lia.
Qed.

Lemma between_ok w w' : between w w' → mas_ok (env_mas w) → mas_synced w → mas_ok (env_mas w') ∧ mas_synced w'.
Proof. unfold mas_synced. intros (-> & _ & ->) ? ?. done. Qed.

(** ** Properties *)


(** on a unit that is not rate limited the start key, 1 to 30 other keys
    and the end key hand over one frame, which holds exactly those keys; an
    empty message or one of more than 30 keys is not handed over. *)
Theorem mas_message_assembled body (w : logged W) :
  mas_ok (env_mas w) → env_core_init w = true → limited (env_mas w) = false →
  bk_start (env_mas w) ≠ bk_end (env_mas w) → Forall (body_key (env_mas w)) body →
  before_stop (env_mas w) (length body) →
  ∃ w' frames, keypad (bk_start (env_mas w) :: body ++ [bk_end (env_mas w)]) w = Some (tt, w') ∧
    w'.2 = w.2 ++ frames ∧ bk_start_seen (env_mas w') = false ∧
    if bool_decide (1 ≤ length body ≤ 30)%nat
    then ∃ f, frames = [f] ∧ fr_length f = Z.of_nat (length body) ∧ take (length body) (fr_keys f) = body
    else frames = [].
Proof.
  intros Hok Hi Hlim Hne Hb Hs.
  destruct (runs_keypad (bk_start (env_mas w) :: body ++ [bk_end (env_mas w)]) w Hok Hi) as (w' & Hrun & Hm).
  rewrite keys_step_ended in Hm by done. exists w', (finish_frames (push_list body (opened (env_mas w)))).
  split; [done|]. split; [by rewrite (moved_log _ _ _ _ Hm)|]. rewrite (moved_mas _ _ _ _ Hm). split.
  - cbn [fst]. unfold finished, deducted. by destruct (_ && _).
  - pose proof (finish_message body (env_mas w) Hok) as Hf. case_bool_decide; [|done].
    destruct Hf as (f & ? & ? & ? & ?). by exists f.
Qed.

(** on a unit with a stop length, which is not rate limited, the start key
    and as many other keys hand over one frame, which holds exactly those. *)
Theorem mas_stop_length_assembled body last (w : logged W) :
  mas_ok (env_mas w) → env_core_init w = true → limited (env_mas w) = false →
  Forall (body_key (env_mas w)) (body ++ [last]) →
  bk_stop_length (env_mas w) = Z.of_nat (S (length body)) → (length body < 30)%nat →
  ∃ w' f, keypad (bk_start (env_mas w) :: body ++ [last]) w = Some (tt, w') ∧
    w'.2 = w.2 ++ [f] ∧ bk_start_seen (env_mas w') = false ∧
    fr_length f = bk_stop_length (env_mas w) ∧ take (S (length body)) (fr_keys f) = body ++ [last].
Proof.
  intros Hok Hi Hlim Hb Hst Hlen.
  destruct (runs_keypad (bk_start (env_mas w) :: body ++ [last]) w Hok Hi) as (w' & Hrun & Hm).
  rewrite keys_step_stopped in Hm by done.
  pose proof (finish_message (body ++ [last]) (env_mas w) Hok) as Hf. rewrite length_app in Hf. cbn [length] in Hf.
  rewrite bool_decide_eq_true_2 in Hf by lia. destruct Hf as (f & Hf & Hfl & Hfk & _).
  exists w', f. split; [done|]. rewrite (moved_mas _ _ _ _ Hm), (moved_log _ _ _ _ Hm). cbn [fst snd].
  change (finish_frames (with_start_seen false ?x)) with (finish_frames x). rewrite Hf.
  split; [done|]. split; [unfold finished, deducted; by destruct (_ && _)|].
  rewrite Nat.add_1_r in *. split; [lia|done].
Qed.

(** in the full protocol a complete keycode is the same as its keys one by
    one: the same frames are handed over and the assembler ends in the same
    state, up to the time stamp that only the keypad uses. *)
Theorem mas_complete_is_keypad body (w : logged W) :
  NEXUS_KEYCODE_PROTOCOL = NEXUS_KEYCODE_PROTOCOL_FULL →
  mas_ok (env_mas w) → env_core_init w = true →
  bk_start (env_mas w) ≠ bk_end (env_mas w) → Forall (body_key (env_mas w)) body →
  before_stop (env_mas w) (length body) → (length body + 2 < 256)%nat →
  limited (env_mas w) = false →
  let keys := bk_start (env_mas w) :: body ++ [bk_end (env_mas w)] in
  ∃ w1 w2, nx_keycode_handle_complete_keycode keys (Z.of_nat (length keys)) w = Some (true, w1) ∧
    keypad keys w = Some (tt, w2) ∧ w1.2 = w2.2 ∧
    env_mas w2 = with_latest_uptime UINT32_MAX (env_mas w1).
Proof.
  intros Hfull Hok Hi Hne Hb Hs Hlen Hlim keys.
  destruct (runs_keypad keys w Hok Hi) as (w2 & Hrun2 & M2).
  assert (Hkl : length keys = (length body + 2)%nat).
  { unfold keys. cbn [length]. rewrite length_app. cbn. lia. }
  destruct (runs_handle_complete keys (Z.of_nat (length keys)) w Hok Hi) as (w1 & Hrun1 & M1); [lia..|].
  exists w1, w2. split; [done|]. split; [done|].
  rewrite Nat2Z.id, firstn_all in M1. unfold keys in M1, M2. rewrite keys_step_ended in M2 by done.
  cbn [complete_step] in M1. rewrite Hlim, Z.eqb_refl, Hfull in M1. cbn [negb fst snd] in M1, M2. cbv zeta in M1.
  rewrite removelast_last, (push_all_list _ _ 0) in M1 by done.
  assert (Hsame : push_list body (opened (env_mas w)) =
    with_latest_uptime UINT32_MAX (push_list body (reset (with_start_seen true (env_mas w))))).
  { unfold opened. change (reset (with_start_seen true (with_latest_uptime UINT32_MAX (env_mas w)))) with
      (with_latest_uptime UINT32_MAX (reset (with_start_seen true (env_mas w)))).
    generalize (reset (with_start_seen true (env_mas w))). clear. induction body as [|key body IH]; intros m; [done|].
    cbn [push_list foldl]. fold (push_list body (pushed key (with_latest_uptime UINT32_MAX m))).
    fold (push_list body (pushed key m)). rewrite <- IH. f_equal.
    unfold pushed. cbv zeta. cbn [mas_partial with_latest_uptime]. by destruct (_ <? 30). }
  rewrite Hsame in M2. split.
  - rewrite (moved_log _ _ _ _ M1), (moved_log _ _ _ _ M2). done.
  - rewrite (moved_mas _ _ _ _ M1), (moved_mas _ _ _ _ M2). unfold finished, deducted.
    change (mas_rl_bucket (with_start_seen false (with_latest_uptime UINT32_MAX ?x))) with (mas_rl_bucket x).
    change (mas_rl_bucket (with_start_seen false ?x)) with (mas_rl_bucket x). by destruct (_ && _).
Qed.


(** The number of attempts left is the number of whole refill intervals in
    the bucket, and a unit is rate limited when there is none. *)
Theorem mas_attempts_remaining (w : logged W) :
  mas_ok (env_mas w) → 0 < BUCKET_MAX →
  ∃ w1 w2, nexus_keycode_rate_limit_attempts_remaining w = Some (mas_rl_bucket (env_mas w) / REFILL, w1) ∧
    nx_keycode_is_rate_limited w = Some (bool_decide (mas_rl_bucket (env_mas w) / REFILL = 0), w2) ∧
    mas_rl_bucket (env_mas w) / REFILL ≤ 255.
Proof.
  intros Hok Hmax. pose proof (refill_nonzero Hmax). pose proof (bucket_attempts _ Hok ltac:(lia)) as [_ Hle].
  destruct (runs_attempts w Hok) as (w1 & Hrun1 & _). destruct (runs_limited w) as (w2 & Hrun2 & _).
  replace (0 <? BUCKET_MAX) with true in Hrun1 by lia. exists w1, w2. split; [done|]. split; [|done].
  rewrite Hrun2. do 2 f_equal. unfold limited. replace (0 <? BUCKET_MAX) with true by lia. cbn [andb].
  pose proof Hok as (_ & _ & _ & _ & Hb & _). destruct (Z.ltb_spec (mas_rl_bucket (env_mas w)) REFILL).
  - rewrite Z.div_small by lia. done.
  - rewrite bool_decide_eq_false_2; [done|].
    pose proof (Z.div_le_lower_bound (mas_rl_bucket (env_mas w)) REFILL 1). lia.
Qed.

(** a call of process adds the elapsed seconds to the bucket, up to its
    size, and writes the grace period; a power cycle right after it leaves as
    many attempts as there were, but at most the initial count, and no message
    begun. *)
Theorem mas_power_cycle seconds (w : logged W) :
  mas_ok (env_mas w) → mas_synced w → is_u32 seconds → 0 < BUCKET_MAX →
  ∃ r w1 w2, nexus_keycode_mas_process seconds w = Some (r, w1) ∧
    mas_rl_bucket (env_mas w1) = Z.min (BUCKET_MAX * REFILL) (mas_rl_bucket (env_mas w) + seconds) ∧
    nexus_keycode_mas_init w1 = Some (tt, w2) ∧
    mas_rl_bucket (env_mas w2) = Z.min INITIAL (mas_rl_bucket (env_mas w1) / REFILL) * REFILL ∧
    fr_length (mas_partial (env_mas w2)) = 0 ∧ w2.2 = w.2.
Proof.
  intros Hok Hsync Hs Hmax. destruct (process_spec seconds w Hok Hsync Hs) as (r & w1 & Hrun1 & _ & Hp & Hok1 & Hsync1).
  destruct (init_spec w1 Hok1) as (w2 & Hrun2 & Hm2 & _). exists r, w1, w2.
  destruct (time_step_fields seconds (env_uptime w) (env_mas w)) as [Hg Hb].
  rewrite <- (processed_mas _ _ _ Hp) in Hg, Hb. split; [done|]. split; [by rewrite Hb|]. split; [done|].
  rewrite (moved_mas _ _ _ _ Hm2), (moved_log _ _ _ _ Hm2), (processed_log _ _ _ Hp), app_nil_r.
  split; [|done]. unfold booted. cbv zeta. cbn [reset with_exceeded with_partial mas_rl_bucket with_bucket].
  assert (Hload : mas_graceperiod_keycodes (loaded (mas_nv w1) (env_mas w1)) = mas_graceperiod_keycodes (env_mas w1)).
  { unfold mas_synced in Hsync1. unfold loaded. destruct (mas_nv w1) as [d|]; [|done]. by rewrite Hsync1. }
  change (mas_rl_bucket (reset (with_bucket ?b ?m))) with b.
  rewrite Hload, Hg. unfold remaining. replace (0 <? BUCKET_MAX) with true by lia. by rewrite Hb.
Qed.

(** a message that is not finished within the timeout of its last key is
    dropped by process: the keys entered so far are forgotten, nothing is
    handed over, and the next key is rejected unless it is a start key. *)
Theorem mas_message_timeout seconds t key (w : logged W) :
  mas_ok (env_mas w) → mas_synced w → is_u32 seconds →
  bk_start_seen (env_mas w) = true → bk_latest_uptime (env_mas w) = t → t ≠ UINT32_MAX →
  0 ≤ t → is_u32 (env_uptime w) → NEXUS_KEYCODE_PROTOCOL_ENTRY_TIMEOUT_SECONDS < env_uptime w - t →
  key ≠ bk_start (env_mas w) →
  ∃ w1 w2, nexus_keycode_mas_process seconds w =
      Some (NEXUS_COMMON_IDLE_TIME_BETWEEN_PROCESS_CALL_SECONDS, w1) ∧
    bk_start_seen (env_mas w1) = false ∧ fr_length (mas_partial (env_mas w1)) = 0 ∧
    nexus_keycode_mas_bookend_push key w1 = Some (tt, w2) ∧
    bk_start_seen (env_mas w2) = false ∧ w2.2 = w.2.
Proof.
  intros Hok Hsync Hs Hseen Hlate Hmax Ht Hup Hout Hkey. pose proof entry_timeout_ok.
  destruct (process_spec seconds w Hok Hsync Hs) as (r & w1 & Hrun1 & Hr & Hp & Hok1 & _).
  assert (Hm : env_mas w1 = reset (with_start_seen false
      (with_graceperiod (remaining (refilled seconds (env_mas w))) (refilled seconds (env_mas w))))).
  { rewrite (processed_mas _ _ _ Hp). unfold time_step, timed_out. cbv zeta.
    cbn [bk_start_seen with_graceperiod refilled with_bucket]. rewrite Hseen.
    cbn [bk_latest_uptime with_graceperiod refilled with_bucket]. rewrite Hlate.
    replace (t =? UINT32_MAX) with false by lia.
    cbn [bk_latest_uptime with_graceperiod refilled with_bucket]. rewrite Hlate.
    rewrite u32_small by wrap. by rewrite (proj2 (Z.ltb_lt _ _)) by lia. }
  destruct (runs_bookend_push key w1 Hok1) as (w2 & Hrun2 & Hm2).
  assert (Hstep : ∃ b, key_step key (env_mas w1) = (with_latest_uptime b (env_mas w1), [])).
  { exists UINT32_MAX. unfold key_step. cbv zeta. destruct (limited _); [done|]. rewrite Hm.
    cbn [bk_start bk_start_seen with_latest_uptime reset with_exceeded with_partial with_start_seen with_graceperiod
      refilled with_bucket]. by rewrite (proj2 (Z.eqb_neq _ _)). }
  destruct Hstep as [b Hstep]. rewrite Hstep in Hm2. cbn [fst snd] in Hm2.
  exists w1, w2. rewrite Hrun1, Hr, Hm. split; [done|]. split; [done|]. split; [done|]. split; [done|].
  rewrite (moved_mas _ _ _ _ Hm2), (moved_log _ _ _ _ Hm2), (processed_log _ _ _ Hp), Hm. by rewrite app_nil_r.
Qed.
End Run.
