(* ===== verification/KeycodeCore.v ===== *)
(** * The keycode core and the library's entry points
    (nexus_keycode_core.c, nexus_common_internal.c, and the core of
    nexus_keycode_pro.c)

    The static state of all the keycode modules is one [keycode_system].  It is
    an environment of the message assembler ([MasEnv]): the handler the
    assembler was given is [nexus_keycode_pro_enqueue], which keeps the first
    frame until [nexus_keycode_pro_process] interprets it.

    The calls that nexus_common_internal.c makes to Nexus Channel are those of
    a build with NEXUS_CHANNEL_CORE_ENABLED; this is the build without it. *)

From S2P Require Import Prelude Crc NvBlock Product Nv Check KeycodeState KeycodeWindow KeycodeFull.
From S2P Require Import KeycodeExtended KeycodeSmall KeycodeMas.
Local Open Scope Z_scope.

(** ** The protocol's core *)

Section Pro.
Context {P : Type} `{Product P} `{KeycodeConfig}.

(** The call through the pointer [protocol_init]. *)
Definition protocol_init (protocol : keycode_protocol) (alphabet : list Z) : M (keycode_pro P) unit :=
  match protocol with
  | NEXUS_KEYCODE_PROTOCOL_FULL => nexus_keycode_pro_full_init alphabet
  | NEXUS_KEYCODE_PROTOCOL_SMALL => nexus_keycode_pro_small_init alphabet
  end.

Definition nexus_keycode_pro_init (parse_and_apply init : keycode_protocol) (alphabet : list Z)
    : M (keycode_pro P) unit :=
  modify (λ s, {| s with pro_pending := false |});;
  modify (λ s, {| s with pro_parse_and_apply := parse_and_apply |});;
  modify (λ s, {| s with pro_alphabet := [] |});;
  modify_stored (λ _, stored_zero);;
  protocol_init init alphabet;;
  nexus_keycode_pro_reset_pd_index;;
  _ ← nexus_keycode_pro_get_full_message_id_flag 0;
  mret tt.

Definition nexus_keycode_pro_enqueue (mas_message : nexus_keycode_frame) : M (keycode_pro P) unit :=
  pending ← gets pro_pending;
  when (negb pending)
    (modify (λ s, {| s with pro_frame := mas_message |});;
     modify (λ s, {| s with pro_pending := true |}));;
  on_prod request_processing.

(** The call through [_this_core.parse_and_apply]; [garbage] and
    [ext_garbage] are what the protocols' automatic variables hold. *)
Definition parse_and_apply (garbage : list Z) (ext_garbage : nexus_keycode_pro_extended_small_message)
    : M (keycode_pro P) nexus_keycode_pro_response :=
  protocol ← gets pro_parse_and_apply;
  frame ← gets pro_frame;
  match protocol with
  | NEXUS_KEYCODE_PROTOCOL_FULL => nexus_keycode_pro_full_parse_and_apply garbage frame
  | NEXUS_KEYCODE_PROTOCOL_SMALL => nexus_keycode_pro_small_parse_and_apply garbage ext_garbage frame
  end.

(** The switch over the response. *)
Definition response_feedback (response : nexus_keycode_pro_response) : nxp_keycode_feedback_type :=
  match response with
  | NEXUS_KEYCODE_PRO_RESPONSE_INVALID => NXP_KEYCODE_FEEDBACK_TYPE_MESSAGE_INVALID
  | NEXUS_KEYCODE_PRO_RESPONSE_VALID_DUPLICATE => NXP_KEYCODE_FEEDBACK_TYPE_MESSAGE_VALID
  | NEXUS_KEYCODE_PRO_RESPONSE_VALID_APPLIED => NXP_KEYCODE_FEEDBACK_TYPE_MESSAGE_APPLIED
  | NEXUS_KEYCODE_PRO_RESPONSE_DISPLAY_DEVICE_ID => NXP_KEYCODE_FEEDBACK_TYPE_DISPLAY_SERIAL_ID
  | NEXUS_KEYCODE_PRO_RESPONSE_NONE => NXP_KEYCODE_FEEDBACK_TYPE_NONE
  end.

Definition nexus_keycode_pro_process (garbage : list Z) (ext_garbage : nexus_keycode_pro_extended_small_message)
    : M (keycode_pro P) Z :=
  pending ← gets pro_pending;
  if negb pending then mret NEXUS_COMMON_IDLE_TIME_BETWEEN_PROCESS_CALL_SECONDS
  else
    response ← parse_and_apply garbage ext_garbage;
    let feedback := response_feedback response in
    when (negb (bool_decide (feedback = NXP_KEYCODE_FEEDBACK_TYPE_NONE))) (on_prod (feedback_start feedback));;
    modify (λ s, {| s with pro_pending := false |});;
    mret (NEXUS_KEYCODE_PROTOCOL_ENTRY_TIMEOUT_SECONDS ≫ 1).
End Pro.

(** ** The whole keycode library *)

Record keycode_system (P : Type) := mk_keycode_system {
  sys_pro : keycode_pro P;
  sys_mas : mas_state;
  sys_core_init_completed : bool;      (* _this of nexus_keycode_core.c *)
  sys_uptime_s : Z;                    (* _this of nexus_common_internal.c *)
  sys_init_completed : bool;
  sys_pending_init : bool
}.
Arguments mk_keycode_system {P}.
Arguments sys_pro {P}.
Arguments sys_mas {P}.
Arguments sys_core_init_completed {P}.
Arguments sys_uptime_s {P}.
Arguments sys_init_completed {P}.
Arguments sys_pending_init {P}.

(** The two function pointers are the protocols they belong to. *)
Record nexus_keycode_handling_config := mk_handling_config {
  hc_parse_and_apply : keycode_protocol;
  hc_keycode_protocol_init : keycode_protocol;
  hc_stop_length : Z;
  hc_start_char : Z;
  hc_end_char : Z;
  hc_keycode_alphabet : list Z
}.

Section System.
Context {P : Type} `{Product P} `{KeycodeConfig}.

Definition on_pro {A} (m : M (keycode_pro P) A) : M (keycode_system P) A :=
  zoom sys_pro (λ p s, {| s with sys_pro := p |}) m.

Definition set_pro_prod (p : P) (s : keycode_pro P) : keycode_pro P := {| s with pro_prod := p |}.

#[global] Instance system_mas_env : MasEnv (keycode_system P) P := {|
  env_mas := sys_mas;
  env_set_mas := λ m s, {| s with sys_mas := m |};
  env_prod := λ s, pro_prod (sys_pro s);
  env_set_prod := λ p s, {| s with sys_pro := set_pro_prod p (sys_pro s) |};
  env_uptime := sys_uptime_s;
  env_core_init := sys_core_init_completed;
  env_handler := λ f, on_pro (nexus_keycode_pro_enqueue f)
|}.

Definition NEXUS_KEYCODE_HANDLING_CONFIG_DEFAULT : nexus_keycode_handling_config := {|
  hc_parse_and_apply := NEXUS_KEYCODE_PROTOCOL;
  hc_keycode_protocol_init := NEXUS_KEYCODE_PROTOCOL;
  hc_stop_length := NEXUS_KEYCODE_PROTOCOL_STOP_LENGTH;
  hc_start_char := NEXUS_KEYCODE_START_CHAR;
  hc_end_char := NEXUS_KEYCODE_END_CHAR;
  hc_keycode_alphabet := NEXUS_KEYCODE_ALPHABET
|}.

Definition _nexus_keycode_core_internal_init (config : nexus_keycode_handling_config) : M (keycode_system P) unit :=
  modify (λ s, {| s with sys_core_init_completed := false |});;
  on_pro (nexus_keycode_pro_init (hc_parse_and_apply config) (hc_keycode_protocol_init config)
            (hc_keycode_alphabet config));;
  nexus_keycode_mas_init;;
  nexus_keycode_mas_bookend_init (hc_start_char config) (hc_end_char config) (u8 (hc_stop_length config));;
  modify (λ s, {| s with sys_core_init_completed := true |}).

Definition nexus_keycode_core_init : M (keycode_system P) unit :=
  _nexus_keycode_core_internal_init NEXUS_KEYCODE_HANDLING_CONFIG_DEFAULT.

Definition nexus_keycode_core_process (garbage : list Z) (ext_garbage : nexus_keycode_pro_extended_small_message)
    (seconds_elapsed : Z) : M (keycode_system P) Z :=
  let min_sleep := NEXUS_COMMON_IDLE_TIME_BETWEEN_PROCESS_CALL_SECONDS in
  mas_sleep ← nexus_keycode_mas_process seconds_elapsed;
  let min_sleep := u32min min_sleep mas_sleep in
  pro_sleep ← on_pro (nexus_keycode_pro_process garbage ext_garbage);
  mret (u32min min_sleep pro_sleep).

Definition nexus_keycode_core_init_completed : M (keycode_system P) bool := gets sys_core_init_completed.

Definition nx_common_init (initial_uptime_s : Z) : M (keycode_system P) unit :=
  modify (λ s, {| s with sys_uptime_s := initial_uptime_s |});;
  modify (λ s, {| s with sys_init_completed := false |});;
  modify (λ s, {| s with sys_pending_init := true |});;
  nexus_keycode_core_init;;
  on_pro (on_prod request_processing).

Definition nx_common_process (garbage : list Z) (ext_garbage : nexus_keycode_pro_extended_small_message)
    (uptime_seconds : Z) : M (keycode_system P) Z :=
  uptime_s ← gets sys_uptime_s;
  if uptime_seconds <? uptime_s then mret 0
  else
    let seconds_elapsed := u32 (uptime_seconds - uptime_s) in
    modify (λ s, {| s with sys_uptime_s := uptime_seconds |});;
    let min_sleep := NEXUS_COMMON_IDLE_TIME_BETWEEN_PROCESS_CALL_SECONDS in
    core_sleep ← nexus_keycode_core_process garbage ext_garbage seconds_elapsed;
    let min_sleep := u32min min_sleep core_sleep in
    pending_init ← gets sys_pending_init;
    when pending_init
      (modify (λ s, {| s with sys_pending_init := false |});;
       modify (λ s, {| s with sys_init_completed := true |}));;
    mret min_sleep.

Definition nexus_common_init_completed : M (keycode_system P) bool := gets sys_init_completed.
Definition nexus_common_uptime : M (keycode_system P) Z := gets sys_uptime_s.
End System.
