(* ===== verification/KeycodeFixes.v ===== *)
(** * What interpreting a keycode cannot change

    The parsing and application of a frame leave the protocol's core alone:
    the frame, its pending flag, the protocol and the alphabet stay what they
    are.  [fixes c] says so of a computation; it holds of every composition of
    the primitive statements, so the proofs are by the tactic [fix_tac]. *)

From S2P Require Import Prelude Crc Siphash NvBlock Product Nv Check Window KeycodeState KeycodeWindow.
From S2P Require Import KeycodeFull KeycodeExtended KeycodeSmall.
Local Open Scope Z_scope.

Section Fixes.
Context {P : Type} `{ProductLaws P} `{KeycodeConfig}.

Record fixed (s s' : keycode_pro P) : Prop := mk_fixed {
  fixed_frame : pro_frame s' = pro_frame s;
  fixed_pending : pro_pending s' = pro_pending s;
  fixed_parse : pro_parse_and_apply s' = pro_parse_and_apply s;
  fixed_alphabet : pro_alphabet s' = pro_alphabet s;
  fixed_mas : nv_stored NX_NV_BLOCK_KEYCODE_MAS (pro_prod s') = nv_stored NX_NV_BLOCK_KEYCODE_MAS (pro_prod s)
}.

Definition fixes {A} (c : M (keycode_pro P) A) : Prop := ∀ s x s', c s = Some (x, s') → fixed s s'.

Lemma fixes_ret {A} (x : A) : fixes (mret x).
Proof. intros s y s' [= <- <-]. done. Qed.

Lemma fixes_gets {A} (f : keycode_pro P → A) : fixes (gets f).
Proof. intros s y s' [= <- <-]. done. Qed.

Lemma fixes_get_state : fixes get_state.
Proof. intros s y s' [= <- <-]. done. Qed.

Lemma fixes_lift {A} (o : option A) : fixes (lift o).
Proof. intros s y s'. unfold lift. destruct o; [intros [= <- <-]; done|done]. Qed.

Lemma fixes_bind {A B} (c : M (keycode_pro P) A) (k : A → M (keycode_pro P) B) :
  fixes c → (∀ x, fixes (k x)) → fixes (c ≫= k).
Proof.
  intros Hc Hk s y s' (x & s1 & E1 & E2)%bind_inv.
  destruct (Hc _ _ _ E1) as [? ? ? ? ?], (Hk x _ _ _ E2) as [? ? ? ? ?]. split; congruence.
Qed.

(** A call of the product that keeps the assembler's NV block. *)
Definition keeps_mas {A} (m : M P A) : Prop :=
  ∀ p x p', m p = Some (x, p') → nv_stored NX_NV_BLOCK_KEYCODE_MAS p' = nv_stored NX_NV_BLOCK_KEYCODE_MAS p.

Lemma fixes_on_prod {A} (m : M P A) : keeps_mas m → fixes (on_prod m).
Proof.
  intros Hm s y s'. unfold on_prod, zoom. destruct (m (pro_prod s)) as [[x p]|] eqn:Hrun; [|done].
  intros [= <- <-]. split; try done. by apply (Hm _ _ _ Hrun).
Qed.

Lemma keeps_modify (f : P → P) : (∀ p, nv_equiv (f p) p) → keeps_mas (modify f).
Proof. intros Hf p x p' [= <- <-]. by rewrite (Hf p). Qed.

Lemma keeps_passthrough keys : keeps_mas (passthrough_keycode keys).
Proof.
  intros p x p'. unfold passthrough_keycode. intros Hrun.
  pose proof (passthrough_read keys NX_NV_BLOCK_KEYCODE_MAS) as Hread.
  destruct (nxp_keycode_passthrough_keycode keys p) as [e q] eqn:Hp. injection Hrun as <- <-.
  unfold nv_stored. specialize (Hread (replicate (Z.to_nat NX_COMMON_NV_MAX_BLOCK_LENGTH) 0) p).
  rewrite Hp in Hread. cbn [snd] in Hread. rewrite Hread; [done|]. apply elem_of_cons. by left.
Qed.

Lemma keeps_nv_read inner : keeps_mas (nexus_nv_read NX_NV_BLOCK_KEYCODE_PRO inner).
Proof.
  intros p x p'. unfold nexus_nv_read, nv_read. mstep.
  destruct (nxp_common_nv_read _ _ p) as [b blk]. destruct (nx_common_nv_block_valid _ blk) as [[]|]; cbn; [|congruence|done].
  destruct (slice _ _ _); [|done]. cbn. destruct (memcpy_at _ _ _); [|done]. cbn. congruence.
Qed.

Lemma keeps_nv_update inner : keeps_mas (nexus_nv_update NX_NV_BLOCK_KEYCODE_PRO inner).
Proof.
  intros p x p' (y & p1 & E1 & E2)%bind_inv. unfold nv_read in E1. injection E1 as <- <-.
  destruct (nxp_common_nv_read _ _ p) as [found old].
  apply bind_inv in E2 as (same & p2 & E2 & E3).
  assert (p2 = p) as ->.
  { revert E2. destruct found; mstep; [|congruence].
    destruct (slice old _ _); [|done]. cbn. destruct (slice inner _ _); [|done]. cbn. congruence. }
  destruct same; [by injection E3 as <- <-|]. apply bind_inv in E3 as (blk & p3 & E3 & E4).
  unfold lift in E3. destruct (nv_new_block _ _); [|done]. injection E3 as <- <-.
  unfold nv_write in E4. injection E4 as E4. rewrite (surjective_pairing (nxp_common_nv_write _ _ p)) in E4.
  injection E4 as <- <-. by apply nv_stored_write_other.
Qed.

Lemma fixes_modify_stored f : fixes (modify_stored f).
Proof. intros s y s' [= <- <-]. done. Qed.
End Fixes.

Create HintDb fixes.
#[export] Hint Resolve fixes_ret fixes_gets fixes_get_state fixes_lift fixes_on_prod fixes_modify_stored
  keeps_modify keeps_passthrough keeps_nv_read keeps_nv_update : fixes.
#[export] Hint Resolve request_frame feedback_frame credit_add_frame credit_set_frame unlock_frame notify_frame : fixes.
#[export] Hint Unfold request_processing feedback_start payg_credit_add payg_credit_set payg_credit_unlock
  notify_custom_flag_changed : fixes.

(** One statement at a time; branches of the code become cases. *)
Ltac fix_tac :=
  repeat match goal with
         | |- fixes (mbind _ _) => apply fixes_bind; [|intros ?]
         | |- fixes (match ?x with _ => _ end) => destruct x
         | |- fixes _ => progress cbv zeta
         | _ => solve [eauto with fixes]
         end.

Section Code.
Context {P : Type} `{ProductLaws P} `{KeycodeConfig}.

Lemma fixes_update_nv : fixes (P := P) _update_keycode_pro_nv_blocks.
Proof. unfold _update_keycode_pro_nv_blocks. fix_tac. Qed.
#[local] Hint Resolve fixes_update_nv : fixes.

Lemma fixes_wipe : fixes (P := P) nexus_keycode_pro_wipe_message_ids_in_window.
Proof. unfold nexus_keycode_pro_wipe_message_ids_in_window, set_flags. fix_tac. Qed.
#[local] Hint Resolve fixes_wipe : fixes.

Lemma fixes_wipe_all : fixes (P := P) wipe_ids_and_counts.
Proof.
  unfold wipe_ids_and_counts, nexus_keycode_pro_reset_pd_index, nexus_keycode_pro_reset_test_code_count. fix_tac.
Qed.

Lemma fixes_shift n : fixes (P := P) (nexus_keycode_pro_increase_pd_and_shift_window_right n).
Proof. unfold nexus_keycode_pro_increase_pd_and_shift_window_right, set_flags. fix_tac. Qed.
#[local] Hint Resolve fixes_shift : fixes.

Lemma fixes_update_window id : fixes (P := P) (nexus_keycode_pro_update_window_and_message_mask_id id).
Proof.
  unfold nexus_keycode_pro_update_window_and_message_mask_id, nexus_keycode_pro_get_current_pd_index. fix_tac.
Qed.
#[local] Hint Resolve fixes_update_window : fixes.

Lemma fixes_get_flag id : fixes (P := P) (nexus_keycode_pro_get_full_message_id_flag id).
Proof.
  unfold nexus_keycode_pro_get_full_message_id_flag, reload_stored, nexus_keycode_pro_get_current_pd_index,
    nexus_keycode_pro_mask_idx_from_message_id, nexus_keycode_pro_get_current_pd_index. fix_tac.
Qed.
#[local] Hint Resolve fixes_get_flag : fixes.

Lemma fixes_set_flag id : fixes (P := P) (nexus_keycode_pro_set_full_message_id_flag id).
Proof. unfold nexus_keycode_pro_set_full_message_id_flag, set_flags. fix_tac. Qed.

Lemma fixes_mask_below id : fixes (P := P) (nexus_keycode_pro_mask_below_message_id id).
Proof.
  unfold nexus_keycode_pro_mask_below_message_id, nexus_keycode_pro_get_current_pd_index, set_flags. fix_tac.
Qed.

Lemma fixes_reset_flag f : fixes (P := P) (nexus_keycode_pro_reset_custom_flag f).
Proof. unfold nexus_keycode_pro_reset_custom_flag. fix_tac. Qed.

Lemma fixes_can_accept x : fixes (P := P) (nexus_keycode_pro_can_unit_accept_qc_code x).
Proof.
  unfold nexus_keycode_pro_can_unit_accept_qc_code, nexus_keycode_pro_get_short_qc_code_count,
    nexus_keycode_pro_get_long_qc_code_count. fix_tac.
Qed.

Lemma fixes_increment_long : fixes (P := P) nexus_keycode_pro_increment_long_qc_test_message_count.
Proof.
  unfold nexus_keycode_pro_increment_long_qc_test_message_count, nexus_keycode_pro_get_long_qc_code_count. fix_tac.
Qed.

Lemma fixes_increment_short : fixes (P := P) nexus_keycode_pro_increment_short_qc_test_message_count.
Proof.
  unfold nexus_keycode_pro_increment_short_qc_test_message_count, nexus_keycode_pro_get_short_qc_code_count. fix_tac.
Qed.

#[local] Hint Resolve fixes_wipe_all fixes_set_flag fixes_mask_below fixes_reset_flag fixes_can_accept
  fixes_increment_long fixes_increment_short : fixes.

Lemma fixes_full_parse_and_apply garbage frame :
  fixes (P := P) (nexus_keycode_pro_full_parse_and_apply garbage frame).
Proof.
  unfold nexus_keycode_pro_full_parse_and_apply, nexus_keycode_pro_full_parse,
    nexus_keycode_pro_full_parse_activation, nexus_keycode_pro_full_parse_factory_and_passthrough,
    nexus_keycode_pro_full_apply, nexus_keycode_pro_full_apply_activation, nexus_keycode_pro_full_apply_factory,
    nexus_keycode_pro_get_current_pd_index, payg_state. fix_tac.
Qed.

Lemma fixes_extended_apply m : fixes (P := P) (nexus_keycode_pro_extended_small_apply m).
Proof.
  unfold nexus_keycode_pro_extended_small_apply, nexus_keycode_pro_get_current_message_id_window. fix_tac.
Qed.
#[local] Hint Resolve fixes_extended_apply : fixes.

Lemma fixes_small_parse_and_apply garbage eg frame :
  fixes (P := P) (nexus_keycode_pro_small_parse_and_apply garbage eg frame).
Proof.
  unfold nexus_keycode_pro_small_parse_and_apply, nexus_keycode_pro_small_parse,
    nexus_keycode_pro_small_internal_bitstream_passthrough,
    nexus_keycode_pro_extended_small_parse_and_apply_keycode, nexus_keycode_pro_small_apply,
    small_apply_activation, small_apply_maintenance, small_apply_test,
    nexus_keycode_pro_get_current_pd_index, nexus_keycode_pro_get_long_qc_code_count, payg_state. fix_tac.
Qed.
End Code.
