(* ===== verification/KeycodeSystem.v ===== *)
(** * The keycode library as a whole

    The keycode modules together keep an invariant from power up on
    ([system_ok]), every call of the product returns, and the keys that encode
    a message, typed on the keypad and processed, have the effect of the
    message on the unit's credit: the composition of message assembly, the
    protocol's core and the protocols. *)


From S2P Require Import Prelude Crc Siphash Window Check NvBlock Product Nv KeycodeState KeycodeWindow KeycodeEffects KeycodeFull.
From S2P Require Import KeycodeFullApply KeycodeFullParse KeycodeFullTotal KeycodeExtended KeycodeSmall KeycodeSmallApply KeycodeSmallTotal.
From S2P Require Import KeycodeMas KeycodeMasSpec KeycodeMasProcess KeycodeMasRun KeycodeCore KeycodeFixes.
Local Open Scope Z_scope.

(** ** The system is an environment of the assembler *)

Section Env.
Context {P : Type} `{HP : ProductLaws P} `{KeycodeConfig}.

(** The frame that waits for process. *)
Definition pending_frame (s : keycode_pro P) : option nexus_keycode_frame :=
  if pro_pending s then Some (pro_frame s) else None.

(** Of the frames handed over while none waits, the first is kept. *)
Definition kept_frame (waiting : option nexus_keycode_frame) (frames : list nexus_keycode_frame)
    : option nexus_keycode_frame :=
  match waiting with Some f => Some f | None => head frames end.

(** What the assembler's work changes of the protocol's core: the frame that
    waits, and nothing else. *)
Record enqueued (frames : list nexus_keycode_frame) (s s' : keycode_system P) : Prop := mk_enqueued {
  enqueued_frame : pending_frame (sys_pro s') = kept_frame (pending_frame (sys_pro s)) frames;
  enqueued_stored : pro_stored (sys_pro s') = pro_stored (sys_pro s);
  enqueued_parse : pro_parse_and_apply (sys_pro s') = pro_parse_and_apply (sys_pro s);
  enqueued_alphabet : pro_alphabet (sys_pro s') = pro_alphabet (sys_pro s)
}.

Lemma kept_frame_app waiting f g : kept_frame (kept_frame waiting f) g = kept_frame waiting (f ++ g).
Proof. destruct waiting; [done|]. by destruct f. Qed.

Lemma kept_frame_nil waiting : kept_frame waiting [] = waiting.
Proof. by destruct waiting. Qed.

#[global] Instance system_mas_laws : MasEnvLaws (keycode_system P) P.
Proof.
  refine {| handed := enqueued |}; intros; try done.
  - split; try done. by rewrite kept_frame_nil.
  - destruct H1 as [F1 S1 P1 A1], H2 as [F2 S2 P2 A2]. split; try congruence.
    by rewrite F2, F1, kept_frame_app.
  - split; try done. cbn. by rewrite kept_frame_nil.
  - split; try done. cbn. by rewrite kept_frame_nil.
  - cbn. unfold on_pro, nexus_keycode_pro_enqueue, on_prod, request_processing. mstep.
    destruct (pro_pending (sys_pro w)) eqn:Hp; cbn [negb]; mstep; eexists; (split; [reflexivity|]);
      cbn; (split; [|split_and!; auto with cint]); split; cbn; try done; unfold pending_frame; cbn; by rewrite ?Hp.
Defined.
End Env.

(** ** The protocol's core *)

Section Pro.
Context {P : Type} `{ProductLaws P} `{!ReliableNv P} `{KeycodeConfigOk}.

(** The stored data at power up: what NV holds, or the initial window. *)
Definition booted_stored (p : P) : keycode_pro_stored :=
  match nv_stored NX_NV_BLOCK_KEYCODE_PRO p with
  | Some d => stored_of_bytes d
  | None => with_pd 23 stored_zero
  end.

Lemma initial_stored_ok : stored_ok (with_pd 23 stored_zero).
Proof. split_and!; cbn; try done; try wrap. by repeat constructor; wrap. Qed.

Lemma booted_stored_ok p : stored_ok (booted_stored p).
Proof.
  unfold booted_stored. destruct (nv_stored _ p) as [d|] eqn:Hd; [|apply initial_stored_ok].
  apply nv_stored_ok in Hd as [Hb Hl]; [|apply keycode_metas_ok]. by apply stored_of_bytes_ok.
Qed.

(** The first read of the flags loads the stored data. *)
Lemma get_flag_loads id (s : keycode_pro P) :
  stored_ok (pro_stored s) → pro_stored s = with_pd 23 stored_zero → pd_ok (booted_stored (pro_prod s)) →
  0 ≤ id < 65536 →
  ∃ b s', nexus_keycode_pro_get_full_message_id_flag id s = Some (b, s') ∧ pro_ok s' ∧
    s' = {| s with pro_stored := booted_stored (pro_prod s) |}.
Proof.
  intros Hok Hs Hpd Hid. set (s1 := {| s with pro_stored := booted_stored (pro_prod s) |}).
  assert (Hsync : synced s1).
  { unfold synced, saved, s1, booted_stored. cbn.
    destruct (nv_stored _ (pro_prod s)) as [d|] eqn:Hd; [left|by right].
    apply nv_stored_ok in Hd as [Hb Hl]; [|apply keycode_metas_ok]. by rewrite stored_bytes_of_bytes. }
  assert (Hok1 : stored_ok (pro_stored s1)) by apply booted_stored_ok.
  assert (Hreload : reload_stored s = Some (tt, s1)).
  { unfold reload_stored, on_prod, modify_stored. mstep.
    rewrite nexus_nv_read_spec; [|apply keycode_metas_ok|by apply stored_bytes_length, Hok].
    unfold s1, booted_stored. destruct (nv_stored _ (pro_prod s)) as [d|]; cbn [mbind option_bind].
    - done.
    - rewrite stored_of_stored_bytes by done. by rewrite Hs. }
  assert (Hrun : nexus_keycode_pro_get_full_message_id_flag id s = nexus_keycode_pro_get_full_message_id_flag id s1).
  { unfold nexus_keycode_pro_get_full_message_id_flag at 1. rewrite (bind_Some _ _ _ _ _ Hreload).
    unfold nexus_keycode_pro_get_full_message_id_flag. by rewrite (bind_Some _ _ _ _ _ (reload_spec s1 Hok1 Hsync)). }
  rewrite Hrun, (get_flag_spec id s1 Hok1 Hpd Hsync Hid). by eexists _, s1.
Qed.

Lemma pro_init_spec protocol alphabet (s : keycode_pro P) :
  pd_ok (booted_stored (pro_prod s)) →
  ∃ s', nexus_keycode_pro_init protocol protocol alphabet s = Some (tt, s') ∧ pro_ok s' ∧
    pro_stored s' = booted_stored (pro_prod s) ∧ pending_frame s' = None ∧
    pro_parse_and_apply s' = protocol ∧ pro_alphabet s' = alphabet ∧ pro_prod s' = pro_prod s.
Proof.
  intros Hpd. unfold nexus_keycode_pro_init, modify_stored, nexus_keycode_pro_reset_pd_index.
  set (s1 := mk_keycode_pro (pro_frame s) false protocol alphabet (with_pd 23 stored_zero) (pro_prod s)).
  destruct (get_flag_loads 0 s1) as (b & s' & Hrun & Hok' & Hs'); [apply initial_stored_ok|done|done|lia|].
  exists s'. split; [|split; [done|]; rewrite Hs'; by split_and!].
  assert (Hinit : (protocol_init protocol alphabet : M (keycode_pro P) unit) =
                  modify (λ s, {| s with pro_alphabet := alphabet |})) by (by destruct protocol).
  rewrite Hinit. erewrite bind_Some by reflexivity. erewrite bind_Some by reflexivity.
  erewrite bind_Some by reflexivity. erewrite bind_Some by reflexivity. erewrite bind_Some by reflexivity.
  erewrite bind_Some by reflexivity. erewrite bind_Some; [reflexivity|]. exact Hrun.
Qed.

(** What the protocol says of the frame that waits. *)
Definition frame_response (g : list Z) (eg : nexus_keycode_pro_extended_small_message) (f : nexus_keycode_frame)
    (s : keycode_pro P) : option (nexus_keycode_pro_response * keycode_pro P) :=
  match pro_parse_and_apply s with
  | NEXUS_KEYCODE_PROTOCOL_FULL => nexus_keycode_pro_full_parse_and_apply g f s
  | NEXUS_KEYCODE_PROTOCOL_SMALL => nexus_keycode_pro_small_parse_and_apply g eg f s
  end.

(** Interpreting the frame that waits: its response is shown. *)
Lemma pro_process_spec g eg f r (s s1 : keycode_pro P) :
  pending_frame s = Some f → frame_response g eg f s = Some (r, s1) → pro_ok s1 →
  ∃ s', nexus_keycode_pro_process g eg s = Some (NEXUS_KEYCODE_PROTOCOL_ENTRY_TIMEOUT_SECONDS ≫ 1, s') ∧
    pending_frame s' = None ∧ pro_ok s' ∧ pro_stored s' = pro_stored s1 ∧
    pro_parse_and_apply s' = pro_parse_and_apply s1 ∧ pro_alphabet s' = pro_alphabet s1 ∧
    payg_equiv (pro_prod s') (pro_prod s1) ∧ nv_equiv (pro_prod s') (pro_prod s1).
Proof.
  unfold pending_frame, frame_response. intros Hf Hr Hok1. destruct (pro_pending s) eqn:Hp; [|done].
  injection Hf as <-. unfold nexus_keycode_pro_process. erewrite bind_Some by reflexivity. rewrite Hp. cbn [negb].
  assert (Happly : parse_and_apply g eg s = Some (r, s1)).
  { rewrite <- Hr. unfold parse_and_apply. mstep. by destruct (pro_parse_and_apply s). }
  rewrite (bind_Some _ _ _ _ _ Happly).
  cbv zeta.
  assert (Hfb : ∃ s2, when (negb (bool_decide (response_feedback r = NXP_KEYCODE_FEEDBACK_TYPE_NONE)))
      (on_prod (feedback_start (response_feedback r))) s1 = Some (tt, s2) ∧ pro_ok s2 ∧
      pro_stored s2 = pro_stored s1 ∧ pro_parse_and_apply s2 = pro_parse_and_apply s1 ∧
      pro_alphabet s2 = pro_alphabet s1 ∧ payg_equiv (pro_prod s2) (pro_prod s1) ∧
      nv_equiv (pro_prod s2) (pro_prod s1)).
  { unfold when. destruct (negb _); [|by exists s1]. unfold feedback_start.
    destruct (on_prod_frame (nxp_keycode_feedback_start (response_feedback r)) s1) as
      (s2 & Hrun & Hs & Hpr & _ & _ & Hpa & Ha & Hok2 & _); [apply feedback_frame|].
    exists s2. rewrite Hpr. split_and!; auto; [apply feedback_payg|apply feedback_frame]. }
  destruct Hfb as (s2 & Hrun & Hok2 & Hs & Hpa & Ha & Hpg & Hnv). rewrite (bind_Some _ _ _ _ _ Hrun).
  eexists. split; [reflexivity|]. by split_and!.
Qed.

Lemma pro_process_idle g eg (s : keycode_pro P) :
  pending_frame s = None →
  nexus_keycode_pro_process g eg s = Some (NEXUS_COMMON_IDLE_TIME_BETWEEN_PROCESS_CALL_SECONDS, s).
Proof. unfold pending_frame, nexus_keycode_pro_process. mstep. by destruct (pro_pending s). Qed.
End Pro.

(** ** The system's invariant *)

Section System.
Context {P : Type} `{HP : ProductLaws P} `{!ReliableNv P} `{KeycodeConfigOk}.

(** The modules are set up for the build's protocol. *)
Record configured (s : keycode_system P) : Prop := mk_configured {
  configured_start : bk_start (sys_mas s) = NEXUS_KEYCODE_START_CHAR;
  configured_end : bk_end (sys_mas s) = NEXUS_KEYCODE_END_CHAR;
  configured_stop : bk_stop_length (sys_mas s) = NEXUS_KEYCODE_PROTOCOL_STOP_LENGTH;
  configured_parse : pro_parse_and_apply (sys_pro s) = NEXUS_KEYCODE_PROTOCOL;
  configured_alphabet : pro_alphabet (sys_pro s) = NEXUS_KEYCODE_ALPHABET
}.

Record system_ok (s : keycode_system P) : Prop := mk_system_ok {
  sys_mas_ok : mas_ok (sys_mas s);
  sys_mas_synced : mas_synced s;
  sys_pro_ok : pro_ok (sys_pro s);
  sys_configured : configured s;
  sys_initialised : sys_core_init_completed s = true;
  sys_pending_ok f : pending_frame (sys_pro s) = Some f → frame_ok f;
  sys_uptime_ok : is_u32 (sys_uptime_s s)
}.

Lemma stop_length_range : 0 ≤ NEXUS_KEYCODE_PROTOCOL_STOP_LENGTH < 256.
Proof. unfold NEXUS_KEYCODE_PROTOCOL_STOP_LENGTH. by destruct NEXUS_KEYCODE_PROTOCOL. Qed.

(** What is persisted of the protocol survives what the assembler does. *)
Lemma pro_ok_kept (s s' : keycode_pro P) :
  pro_stored s' = pro_stored s →
  nv_stored NX_NV_BLOCK_KEYCODE_PRO (pro_prod s') = nv_stored NX_NV_BLOCK_KEYCODE_PRO (pro_prod s) →
  pro_ok s → pro_ok s'.
Proof. unfold pro_ok, synced, saved. by intros -> ->. Qed.

(** *** Power up *)

Lemma core_init_spec (s : keycode_system P) :
  mas_ok (sys_mas s) → pd_ok (booted_stored (pro_prod (sys_pro s))) → is_u32 (sys_uptime_s s) →
  ∃ s', nexus_keycode_core_init s = Some (tt, s') ∧ system_ok s' ∧ pending_frame (sys_pro s') = None ∧
    pro_stored (sys_pro s') = booted_stored (pro_prod (sys_pro s)) ∧ bk_start_seen (sys_mas s') = false ∧
    mas_rl_bucket (sys_mas s') = mas_graceperiod_keycodes (sys_mas s') *
      NEXUS_KEYCODE_PROTOCOL_RATE_LIMIT_REFILL_SECONDS_PER_ATTEMPT ∧
    sys_uptime_s s' = sys_uptime_s s ∧
    payg_equiv (pro_prod (sys_pro s')) (pro_prod (sys_pro s)) ∧
    nv_equiv (pro_prod (sys_pro s')) (pro_prod (sys_pro s)).
Proof.
  intros Hmas Hpd Hup. unfold nexus_keycode_core_init, _nexus_keycode_core_internal_init.
  erewrite bind_Some by reflexivity.
  set (s0 := {| s with sys_core_init_completed := false |}).
  destruct (pro_init_spec NEXUS_KEYCODE_PROTOCOL NEXUS_KEYCODE_ALPHABET (sys_pro s) Hpd)
    as (p1 & Hrun1 & Hok1 & Hst1 & Hpend1 & Hparse1 & Halph1 & Hprod1).
  set (s1 := {| s0 with sys_pro := p1 |}).
  assert (Hrun1' : on_pro (nexus_keycode_pro_init NEXUS_KEYCODE_PROTOCOL NEXUS_KEYCODE_PROTOCOL
      NEXUS_KEYCODE_ALPHABET) s0 = Some (tt, s1)).
  { unfold on_pro, zoom. change (sys_pro s0) with (sys_pro s). by rewrite Hrun1. }
  cbn [hc_parse_and_apply hc_keycode_protocol_init hc_keycode_alphabet NEXUS_KEYCODE_HANDLING_CONFIG_DEFAULT].
  rewrite (bind_Some _ _ _ _ _ Hrun1').
  destruct (init_spec (W := keycode_system P) s1) as (s2 & Hrun2 & M2 & Hmas2 & Hsync2); [exact Hmas|].
  rewrite (bind_Some _ _ _ _ _ Hrun2).
  unfold nexus_keycode_mas_bookend_init, nexus_keycode_mas_bookend_reset, mas_modify.
  eexists. split; [reflexivity|]. pose proof stop_length_range as Hstop.
  destruct M2 as [Hm2 Hh2 Hu2 Hi2 Hn2 Hp2]. destruct Hh2 as [F2 S2 P2 A2]. cbn in Hm2, Hu2, Hi2, Hn2, Hp2.
  change (sys_pro s1) with p1 in *. rewrite Hpend1 in F2. rewrite Hprod1 in *.
  cbn [hc_stop_length hc_start_char hc_end_char NEXUS_KEYCODE_HANDLING_CONFIG_DEFAULT].
  rewrite u8_small by wrap.
  assert (Hok2 : pro_ok (sys_pro s2)).
  { apply (pro_ok_kept p1); [done|by rewrite Hn2, Hprod1|done]. }
  split; [|cbn; split; [done|split; [congruence|split; [done|split; [by rewrite Hm2|by split_and!]]]]].
  split; cbn.
  - destruct Hmas2 as (? & ? & ? & ? & ? & ?). unfold mas_ok. cbn. tauto.
  - exact Hsync2.
  - exact Hok2.
  - split; cbn; try done; congruence.
  - done.
  - change (pending_frame (sys_pro s2)) with (pending_frame (sys_pro s2)). rewrite F2. done.
  - by rewrite Hu2.
Qed.

(** *** Process *)

(** Memory that automatic variables may hold. *)
Definition garbage_ok (g : list Z) : Prop := bytes_ok g ∧ (30 ≤ length g)%nat.

Lemma frame_response_total g eg f (s : keycode_pro P) :
  garbage_ok g → frame_ok f → pro_ok s → pd_ok (pro_stored s) →
  pro_parse_and_apply s = NEXUS_KEYCODE_PROTOCOL → pro_alphabet s = NEXUS_KEYCODE_ALPHABET →
  ∃ r s1, frame_response g eg f s = Some (r, s1) ∧ pro_ok s1 ∧ fixed s s1.
Proof.
  intros [Hgb Hgl] Hf Hok Hpd Hparse Halph. unfold frame_response. rewrite Hparse.
  unfold NEXUS_KEYCODE_ALPHABET in Halph. destruct NEXUS_KEYCODE_PROTOCOL.
  - destruct (full_frame_returns g f s Hf Hgl Hok Hpd) as (r & s1 & Hrun & Hok1 & _).
    exists r, s1. split; [done|]. split; [done|]. by eapply fixes_full_parse_and_apply.
  - destruct (small_frame_returns g eg f s Hf) as (r & s1 & Hrun & Hok1 & _); [by split_and!|done|lia|].
    exists r, s1. split; [done|]. split; [done|]. by eapply fixes_small_parse_and_apply.
Qed.

Lemma time_step_bookends seconds uptime m :
  bk_start (time_step seconds uptime m) = bk_start m ∧ bk_end (time_step seconds uptime m) = bk_end m ∧
  bk_stop_length (time_step seconds uptime m) = bk_stop_length m.
Proof.
  unfold time_step, timed_out. cbv zeta.
  destruct (bk_start_seen _); [|done]. destruct (_ =? UINT32_MAX); by destruct (_ <? _).
Qed.

(** A call of process runs the assembler's clock, and then the protocol's core
    on a state that differs from the one before only in the assembler's NV
    block. *)
Lemma process_split g eg t (s : keycode_system P) :
  system_ok s → is_u32 t → sys_uptime_s s ≤ t →
  ∃ p, pending_frame p = pending_frame (sys_pro s) ∧ pro_ok p ∧ pro_stored p = pro_stored (sys_pro s) ∧
    pro_parse_and_apply p = NEXUS_KEYCODE_PROTOCOL ∧ pro_alphabet p = NEXUS_KEYCODE_ALPHABET ∧
    payg_equiv (pro_prod p) (pro_prod (sys_pro s)) ∧
    nxp_keycode_get_secret_key (pro_prod p) = nxp_keycode_get_secret_key (pro_prod (sys_pro s)) ∧
    ∀ sleep p', nexus_keycode_pro_process g eg p = Some (sleep, p') → pro_ok p' → pending_frame p' = None →
      pro_parse_and_apply p' = pro_parse_and_apply p → pro_alphabet p' = pro_alphabet p →
      nv_stored NX_NV_BLOCK_KEYCODE_MAS (pro_prod p') = nv_stored NX_NV_BLOCK_KEYCODE_MAS (pro_prod p) →
      ∃ sleep' s', nx_common_process g eg t s = Some (sleep', s') ∧ system_ok s' ∧ sys_pro s' = p' ∧
        sys_uptime_s s' = t ∧ sys_mas s' = time_step (t - sys_uptime_s s) t (sys_mas s).
Proof.
  intros [Hmas Hsync Hpok [C1 C2 C3 C4 C5] Hinit Hpend Hup] Ht Hle.
  set (s0 := {| s with sys_uptime_s := t |}).
  destruct (process_spec (W := keycode_system P) (t - sys_uptime_s s) s0) as
    (ms & s1 & Hrun1 & _ & [Q1 [F1 S1 P1 A1] Q3 Q4 Q5 Q6 Q7] & Hmas1 & Hsync1); [exact Hmas|exact Hsync|wrap|].
  cbn in Q1, Q3, Q4, Q6, Q7. change (sys_pro s0) with (sys_pro s) in *.
  rewrite kept_frame_nil in F1.
  assert (Hpok1 : pro_ok (sys_pro s1)).
  { apply (pro_ok_kept (sys_pro s)); [done| |done]. apply (Q5 NX_NV_BLOCK_KEYCODE_PRO). done. }
  exists (sys_pro s1). split_and!; try (done || congruence).
  intros sleep p' Hrun2 Hok2 Hpf Hpa Ha Hblk.
  unfold nx_common_process. erewrite bind_Some by reflexivity.
  replace (t <? sys_uptime_s s) with false by lia. cbv zeta. erewrite bind_Some by reflexivity.
  fold s0. rewrite u32_small by wrap. set (s2 := {| s1 with sys_pro := p' |}).
  assert (Hcore : ∃ cs, nexus_keycode_core_process g eg (t - sys_uptime_s s) s0 = Some (cs, s2)).
  { unfold nexus_keycode_core_process. cbv zeta. eexists. rewrite (bind_Some _ _ _ _ _ Hrun1).
    erewrite bind_Some; [reflexivity|]. unfold on_pro, zoom. rewrite Hrun2. reflexivity. }
  destruct Hcore as (cs & Hcore). rewrite (bind_Some _ _ _ _ _ Hcore). erewrite bind_Some by reflexivity.
  set (s3 := if sys_pending_init s2
             then {| {| s2 with sys_pending_init := false |} with sys_init_completed := true |} else s2).
  eexists _, s3. split.
  { assert (Hw : when (sys_pending_init s2) (modify (λ s, {| s with sys_pending_init := false |});;
       modify (λ s : keycode_system P, {| s with sys_init_completed := true |})) s2 = Some (tt, s3)).
    { unfold s3, when. by destruct (sys_pending_init s2). }
    rewrite (bind_Some _ _ _ _ _ Hw). reflexivity. }
  assert (Hs3 : sys_pro s3 = p' ∧ sys_mas s3 = sys_mas s1 ∧ sys_core_init_completed s3 = sys_core_init_completed s1 ∧
                sys_uptime_s s3 = sys_uptime_s s1) by (unfold s3; by destruct (sys_pending_init s2)).
  destruct Hs3 as (E1 & E2 & E3 & E4). split; [|rewrite E1, E2, E4; by split_and!].
  split; rewrite ?E1, ?E2, ?E3, ?E4; try done.
  - unfold mas_synced, mas_nv in *. cbn in Hsync1 |- *. rewrite E1, E2, Hblk. exact Hsync1.
  - destruct (time_step_bookends (t - sys_uptime_s s) t (sys_mas s)) as (B1 & B2 & B3).
    split; rewrite ?E1, ?E2; rewrite ?Q1, ?B1, ?B2, ?B3; try done; congruence.
  - by rewrite Q4.
  - by rewrite Hpf.
  - by rewrite Q3.
Qed.

(** With a frame that waits, given the response to it. *)
Lemma process_response g eg t f r (s : keycode_system P) :
  system_ok s → is_u32 t → sys_uptime_s s ≤ t → pending_frame (sys_pro s) = Some f →
  (∀ p, pro_ok p → pro_stored p = pro_stored (sys_pro s) → pro_parse_and_apply p = NEXUS_KEYCODE_PROTOCOL →
        pro_alphabet p = NEXUS_KEYCODE_ALPHABET → payg_equiv (pro_prod p) (pro_prod (sys_pro s)) →
        nxp_keycode_get_secret_key (pro_prod p) = nxp_keycode_get_secret_key (pro_prod (sys_pro s)) →
        ∃ p1, frame_response g eg f p = Some (r p, p1) ∧ pro_ok p1) →
  ∃ p p1 sleep s', nx_common_process g eg t s = Some (sleep, s') ∧
    frame_response g eg f p = Some (r p, p1) ∧ pro_parse_and_apply p = NEXUS_KEYCODE_PROTOCOL ∧
    pro_ok p ∧ pro_stored p = pro_stored (sys_pro s) ∧
    payg_equiv (pro_prod p) (pro_prod (sys_pro s)) ∧
    nxp_keycode_get_secret_key (pro_prod p) = nxp_keycode_get_secret_key (pro_prod (sys_pro s)) ∧
    system_ok s' ∧ pending_frame (sys_pro s') = None ∧ pro_stored (sys_pro s') = pro_stored p1 ∧
    payg_equiv (pro_prod (sys_pro s')) (pro_prod p1) ∧ nv_equiv (pro_prod (sys_pro s')) (pro_prod p1) ∧
    sys_uptime_s s' = t ∧ sys_mas s' = time_step (t - sys_uptime_s s) t (sys_mas s).
Proof.
  intros Hok Ht Hle Hf Hresp.
  destruct (process_split g eg t s Hok Ht Hle) as (p & F1 & Hpok & S1 & P1 & A1 & G1 & K1 & Hrest).
  rewrite Hf in F1. destruct (Hresp p) as (p1 & Hr & Hp1); try done.
  destruct (pro_process_spec g eg f (r p) p p1 F1 Hr Hp1) as (p2 & Hrun2 & Hpf & Hok2 & Hst2 & Hpa2 & Ha2 & Hpg & Hnv).
  assert (Hfix : fixed p p1).
  { unfold frame_response in Hr. destruct (pro_parse_and_apply p);
      [by eapply fixes_full_parse_and_apply|by eapply fixes_small_parse_and_apply]. }
  destruct Hfix as [_ _ Hfpa Hfa Hfm].
  destruct (Hrest _ p2 Hrun2 Hok2 Hpf) as (sleep & s' & Hrun & Hok' & E & Hu & Hm); [congruence..| |].
  { rewrite Hnv. exact Hfm. }
  exists p, p1, sleep, s'. rewrite E. by split_and!.
Qed.

Lemma process_idle g eg t (s : keycode_system P) :
  system_ok s → is_u32 t → sys_uptime_s s ≤ t → pending_frame (sys_pro s) = None →
  ∃ sleep s', nx_common_process g eg t s = Some (sleep, s') ∧ system_ok s' ∧
    pro_stored (sys_pro s') = pro_stored (sys_pro s) ∧ payg_equiv (pro_prod (sys_pro s')) (pro_prod (sys_pro s)).
Proof.
  intros Hok Ht Hle Hf.
  destruct (process_split g eg t s Hok Ht Hle) as (p & F1 & Hpok & S1 & P1 & A1 & G1 & K1 & Hrest).
  rewrite Hf in F1. destruct (Hrest _ p (pro_process_idle g eg p F1)) as (sleep & s' & Hrun & Hok' & E & _); try done.
  exists sleep, s'. rewrite E. by split_and!.
Qed.

(** *** Keys *)

(** The assembler's steps keep the invariant. *)
Lemma system_ok_moved (s s' : keycode_system P) r :
  system_ok s → stepped (sys_mas s) r → moved s s' r.1 r.2 → system_ok s'.
Proof.
  intros [Hmas Hsync Hpok [C1 C2 C3 C4 C5] Hinit Hpend Hup] [O N B F _] [Hm [F1 S1 P1 A1] Hu Hi Hnv Hpg].
  cbn in Hm, Hu, Hi. unfold bookends in B. injection B as B1 B2 B3. split.
  - rewrite Hm. auto.
  - unfold mas_synced, mas_nv in *. cbn. cbn in Hsync.
    assert (Hblk : nv_stored NX_NV_BLOCK_KEYCODE_MAS (pro_prod (sys_pro s')) =
                   nv_stored NX_NV_BLOCK_KEYCODE_MAS (pro_prod (sys_pro s))) by (by rewrite Hnv).
    rewrite Hblk, Hm. unfold mas_stored_bytes in *. injection N as -> ->. exact Hsync.
  - apply (pro_ok_kept (sys_pro s)); [done|by rewrite Hnv|done].
  - split; rewrite ?Hm; congruence.
  - by rewrite Hi.
  - intros f Hf. rewrite F1 in Hf. unfold kept_frame in Hf.
    destruct (pending_frame (sys_pro s)) as [f0|]; [apply Hpend; congruence|].
    specialize (F Hmas). destruct r.2 as [|f0 fs]; [done|]. injection Hf as <-. by apply Forall_cons in F as [? _].
  - by rewrite Hu.
Qed.

(** ** What a product does *)

Inductive unit_event :=
| UnitKey (key : Z)
| UnitCode (keys : list Z) (len : Z)
| UnitProcess (uptime : Z).

Definition unit_event_ok (e : unit_event) : Prop :=
  match e with
  | UnitKey _ => True
  | UnitCode keys len => 1 ≤ len < 256 ∧ len ≤ Z.of_nat (length keys)
  | UnitProcess uptime => is_u32 uptime
  end.

Definition unit_handle (g : list Z) (eg : nexus_keycode_pro_extended_small_message) (e : unit_event)
    : M (keycode_system P) unit :=
  match e with
  | UnitKey key => _ ← nx_keycode_handle_single_key key; mret tt
  | UnitCode keys len => _ ← nx_keycode_handle_complete_keycode keys len; mret tt
  | UnitProcess uptime => _ ← nx_common_process g eg uptime; mret tt
  end.

Lemma unit_step g eg e (s : keycode_system P) :
  garbage_ok g → unit_event_ok e → system_ok s → pd_ok (pro_stored (sys_pro s)) →
  ∃ s', unit_handle g eg e s = Some (tt, s') ∧ system_ok s'.
Proof.
  intros Hg He Hok Hpd. pose proof (sys_mas_ok _ Hok) as Hmas. pose proof (sys_initialised _ Hok) as Hi.
  destruct e as [key|keys len|t]; cbn [unit_handle unit_event_ok] in *.
  - destruct (runs_single (W := keycode_system P) key s) as (s' & Hrun & Hm); [exact Hmas|exact Hi|]. exists s'. rewrite (bind_Some _ _ _ _ _ Hrun).
    split; [done|]. by apply (system_ok_moved s s' (key_step key (sys_mas s))); [|apply key_step_stepped|].
  - destruct He as [Hl1 Hl2]. destruct (runs_handle_complete (W := keycode_system P) keys len s) as (s' & Hrun & Hm);
      [exact Hmas|exact Hi|done..|].
    exists s'. rewrite (bind_Some _ _ _ _ _ Hrun). split; [done|].
    by apply (system_ok_moved s s' (complete_step (take (Z.to_nat len) keys) (sys_mas s))); [|apply complete_step_stepped|].
  - destruct (Z.lt_ge_cases t (sys_uptime_s s)) as [Hlt|Hge].
    { exists s. split; [|done]. unfold nx_common_process. mstep. by replace (t <? sys_uptime_s s) with true by lia. }
    destruct (pending_frame (sys_pro s)) as [f|] eqn:Hf.
    + destruct (process_response g eg t f (λ p, match frame_response g eg f p with
        | Some (r, _) => r | None => NEXUS_KEYCODE_PRO_RESPONSE_INVALID end) s Hok He Hge Hf)
        as (p & p1 & sleep & s' & Hrun & _ & _ & _ & _ & _ & _ & Hok' & _).
      { intros p Hpok Hst Hpa Ha _ _.
        destruct (frame_response_total g eg f p Hg (sys_pending_ok _ Hok f Hf) Hpok) as (r & p1 & Hr & Hp1 & _);
          [by rewrite Hst|done..|]. exists p1. by rewrite Hr. }
      exists s'. by rewrite (bind_Some _ _ _ _ _ Hrun).
    + destruct (process_idle g eg t s Hok He Hge Hf) as (sleep & s' & Hrun & Hok' & _).
      exists s'. by rewrite (bind_Some _ _ _ _ _ Hrun).
Qed.
End System.
