(* ===== verification/KeycodeUnit.v ===== *)
(** * A unit from its keypad to its credit

    The properties of the keycode library as a product sees it: power up,
    typed keys, complete keycodes and calls of process in any order. *)


From S2P Require Import Prelude Crc Siphash Digits Window Check NvBlock Product Nv KeycodeState KeycodeWindow KeycodeEffects KeycodeFull.
From S2P Require Import KeycodeFullApply KeycodeFullParse KeycodeFullTotal KeycodeExtended KeycodeSmall KeycodeMas KeycodeMasSpec.
From S2P Require Import KeycodeMasProcess KeycodeMasRun KeycodeCore KeycodeSystem.
Local Open Scope Z_scope.

Section Unit.
Context {P : Type} `{HP : ProductLaws P} `{!ReliableNv P} `{KeycodeConfigOk}.

Definition credit (s : keycode_system P) : Z := nxp_common_payg_credit_get_remaining (pro_prod (sys_pro s)).
Definition stored (s : keycode_system P) : keycode_pro_stored := pro_stored (sys_pro s).
Definition secret_key (s : keycode_system P) : list Z := nxp_keycode_get_secret_key (pro_prod (sys_pro s)).

(** A sequence of events; Pd stays where message IDs have sixteen bits. *)
Inductive unit_run (g : list Z) (eg : nexus_keycode_pro_extended_small_message) :
    keycode_system P → list unit_event → keycode_system P → Prop :=
| unit_run_nil s : unit_run g eg s [] s
| unit_run_cons s e s1 l s2 :
    unit_event_ok e → pd_ok (stored s) → unit_handle g eg e s = Some (tt, s1) → unit_run g eg s1 l s2 →
    unit_run g eg s (e :: l) s2.

(** *** A message typed in the full protocol *)

Definition full_message_typed (m : nexus_keycode_pro_full_message) : list Z :=
  NEXUS_KEYCODE_START_CHAR :: activation_keys m ++ [NEXUS_KEYCODE_END_CHAR].

Lemma frame_of_keys (f : nexus_keycode_frame) m :
  frame_ok f → fr_length f = Z.of_nat (length (activation_keys m)) →
  take (length (activation_keys m)) (fr_keys f) = activation_keys m →
  f = activation_frame m (drop 14 (fr_keys f)) ∧ length (drop 14 (fr_keys f)) = 16%nat.
Proof.
  intros [Hl _] Hfl Hk. rewrite activation_keys_length in *. split.
  - destruct f as [keys len]. cbn in *. unfold activation_frame. rewrite <- Hk at 1.
    rewrite take_drop. by rewrite Hfl.
  - rewrite length_drop, Hl. done.
Qed.

(** Typing the keys of a message leaves its frame waiting. *)
Lemma full_message_waits m (s : keycode_system P) :
  NEXUS_KEYCODE_PROTOCOL = NEXUS_KEYCODE_PROTOCOL_FULL → system_ok s →
  pending_frame (sys_pro s) = None → limited (sys_mas s) = false →
  ∃ s1 pad, keypad (full_message_typed m) s = Some (tt, s1) ∧ system_ok s1 ∧
    pending_frame (sys_pro s1) = Some (activation_frame m pad) ∧ length pad = 16%nat ∧
    stored s1 = stored s ∧ secret_key s1 = secret_key s ∧ sys_uptime_s s1 = sys_uptime_s s ∧
    payg_equiv (pro_prod (sys_pro s1)) (pro_prod (sys_pro s)).
Proof.
  intros Hfull Hok Hpend Hlim. pose proof Hok as [Hmas _ _ [C1 C2 C3 _ _] Hi _ _].
  destruct (runs_keypad (W := keycode_system P) (full_message_typed m) s) as (s1 & Hrun & Hm); [exact Hmas|exact Hi|].
  pose proof (keys_step_stepped (full_message_typed m) (sys_mas s)) as Hst.
  pose proof (system_ok_moved s s1 _ Hok Hst Hm) as Hok1.
  assert (Hchars : NEXUS_KEYCODE_START_CHAR = 42 ∧ NEXUS_KEYCODE_END_CHAR = 35 ∧ NEXUS_KEYCODE_PROTOCOL_STOP_LENGTH = 255).
  { unfold NEXUS_KEYCODE_START_CHAR, NEXUS_KEYCODE_END_CHAR, NEXUS_KEYCODE_PROTOCOL_STOP_LENGTH. by rewrite Hfull. }
  destruct Hchars as (Es & Ee & Et).
  assert (Hkeys : (keys_step (full_message_typed m) (env_mas s)).2 =
                  finish_frames (push_list (activation_keys m) (opened (sys_mas s)))).
  { change (env_mas s) with (sys_mas s). unfold full_message_typed. rewrite <- C1, <- C2.
    rewrite keys_step_ended; [done|done| | |].
    - rewrite C1, C2, Es, Ee. done.
    - eapply Forall_impl; [apply interleaved_digits|]. intros k Hk. unfold body_key. rewrite C1, C2, Es, Ee.
      unfold is_digit_char in Hk. lia.
    - left. by rewrite C3, Et. }
  pose proof (finish_message (activation_keys m) (sys_mas s) Hmas) as Hf.
  rewrite bool_decide_eq_true_2 in Hf by (rewrite activation_keys_length; lia).
  destruct Hf as (f & Hf & Hfl & Hfk & Hfok). rewrite Hf in Hkeys.
  destruct (frame_of_keys f m Hfok Hfl Hfk) as [Hfr Hpad].
  destruct Hm as [_ [F1 S1 P1 A1] Hu _ Hnv Hpg]. rewrite Hkeys, Hpend in F1. cbn in F1.
  exists s1, (drop 14 (fr_keys f)). rewrite <- Hfr.
  split_and!; try done. exact (nv_equiv_key _ _ Hnv).
Qed.

(** Typed and processed, the message is applied. *)
Lemma full_message_processed g eg m t r (s : keycode_system P) :
  NEXUS_KEYCODE_PROTOCOL = NEXUS_KEYCODE_PROTOCOL_FULL → garbage_ok g → system_ok s →
  pending_frame (sys_pro s) = None → limited (sys_mas s) = false → is_u32 t → sys_uptime_s s ≤ t →
  encodable m → pd_ok (stored s) → id_in_window (stored s) (fm_full_message_id m) →
  (∀ p, pro_ok p → pro_stored p = stored s → payg_equiv (pro_prod p) (pro_prod (sys_pro s)) →
        nxp_keycode_get_secret_key (pro_prod p) = secret_key s →
        ∃ p1, nexus_keycode_pro_full_apply m p = Some (r, p1) ∧ pro_ok p1) →
  ∃ p p1 s1 sleep s2, keypad (full_message_typed m) s = Some (tt, s1) ∧
    nx_common_process g eg t s1 = Some (sleep, s2) ∧ system_ok s2 ∧ pending_frame (sys_pro s2) = None ∧
    nexus_keycode_pro_full_apply m p = Some (r, p1) ∧ pro_ok p ∧ pro_stored p = stored s ∧
    payg_equiv (pro_prod p) (pro_prod (sys_pro s)) ∧ nxp_keycode_get_secret_key (pro_prod p) = secret_key s ∧
    stored s2 = pro_stored p1 ∧ payg_equiv (pro_prod (sys_pro s2)) (pro_prod p1) ∧
    secret_key s2 = nxp_keycode_get_secret_key (pro_prod p1) ∧ sys_uptime_s s2 = t.
Proof.
  intros Hfull Hg Hok Hpend Hlim Ht Hle Henc Hpd Hin Happ.
  destruct (full_message_waits m s Hfull Hok Hpend Hlim) as (s1 & pad & Hrun1 & Hok1 & Hf & Hpad & Hst1 & Hk1 & Hu1 & Hpg1).
  assert (Hresp : ∀ p, pro_ok p → pro_stored p = stored s → pro_parse_and_apply p = NEXUS_KEYCODE_PROTOCOL →
    frame_response g eg (activation_frame m pad) p = nexus_keycode_pro_full_apply m p).
  { intros p Hp Hst Hpa. unfold frame_response. rewrite Hpa, Hfull.
    apply full_keycode_applies; [done|by rewrite Hst|by rewrite Hst|done|apply Hg]. }
  destruct (process_response g eg t (activation_frame m pad) (λ _, r) s1 Hok1 Ht) as
    (p & p1 & sleep & s2 & Hrun2 & Hr & Hpa0 & Hp & Hpst & Hppg & Hpk & Hok2 & Hpend2 & Hst2 & Hpg2 & Hnv2 & Hu2 & _).
  { by rewrite Hu1. }
  { exact Hf. }
  { intros p Hp Hst Hpa Ha Hpg Hk. change (pro_stored (sys_pro s1)) with (stored s1) in Hst. rewrite Hst1 in Hst.
    rewrite Hresp by done. apply Happ; try done; [by rewrite Hpg|by rewrite Hk]. }
  change (pro_stored (sys_pro s1)) with (stored s1) in Hpst. rewrite Hst1 in Hpst.
  assert (Hpa : nexus_keycode_pro_full_apply m p = Some (r, p1)).
  { by rewrite <- (Hresp p Hp Hpst Hpa0). }
  exists p, p1, s1, sleep, s2. split_and!; try done.
  - by rewrite Hppg.
  - by rewrite Hpk.
  - exact (nv_equiv_key _ _ Hnv2).
Qed.

Lemma unit_run_ok g eg l (s s' : keycode_system P) :
  garbage_ok g → unit_run g eg s l s' → system_ok s → system_ok s'.
Proof.
  intros Hg. induction 1 as [s|s e s1 l s2 He Hpd Hrun _ IH]; intros Hok; [done|].
  apply IH. destruct (unit_step g eg e s Hg He Hok Hpd) as (s1' & Hrun' & Hok1).
  rewrite Hrun in Hrun'. by injection Hrun' as <-.
Qed.

(** ** Properties *)

(** power up returns, whatever the RAM holds, with every module set up for
    the build's protocol, no keycode pending and no message begun; the message
    IDs are those NV holds and the credit is not touched. *)
Theorem unit_power_up up (s : keycode_system P) :
  mas_ok (sys_mas s) → is_u32 up → pd_ok (booted_stored (pro_prod (sys_pro s))) →
  ∃ s', nx_common_init up s = Some (tt, s') ∧ system_ok s' ∧
    stored s' = booted_stored (pro_prod (sys_pro s)) ∧ pending_frame (sys_pro s') = None ∧
    bk_start_seen (sys_mas s') = false ∧ credit s' = credit s ∧ secret_key s' = secret_key s ∧
    sys_uptime_s s' = up.
Proof.
  intros Hmas Hup Hpd. unfold nx_common_init.
  erewrite bind_Some by reflexivity. erewrite bind_Some by reflexivity. erewrite bind_Some by reflexivity.
  set (s0 := {| {| {| s with sys_uptime_s := up |} with sys_init_completed := false |} with sys_pending_init := true |}).
  destruct (core_init_spec s0 Hmas Hpd Hup) as (s1 & Hrun1 & [O1 O2 O3 O4 O5 O6 O7] & Hpend & Hst & Hseen & _ & Hu & Hpg & Hnv).
  rewrite (bind_Some _ _ _ _ _ Hrun1). eexists. split; [reflexivity|].
  assert (Hreq : nv_equiv (nxp_common_request_processing (pro_prod (sys_pro s1))) (pro_prod (sys_pro s1)))
    by apply request_frame.
  split.
  { assert (Hblk : ∀ meta, nv_stored meta (nxp_common_request_processing (pro_prod (sys_pro s1))) =
                             nv_stored meta (pro_prod (sys_pro s1))) by (intros meta; by rewrite Hreq).
    split; cbn; try done.
    - unfold mas_synced, mas_nv in *. cbn in O2 |- *. rewrite Hblk. exact O2.
    - by apply (pro_ok_kept (sys_pro s1)); cbn.
    - destruct O4 as [C1 C2 C3 C4 C5]. by split. }
  split_and!; try done.
  - unfold credit. cbn.
    by rewrite (payg_equiv_remaining _ _ (request_payg _)), (payg_equiv_remaining _ _ Hpg).
  - unfold secret_key. cbn. by rewrite (nv_equiv_key _ _ Hreq), (nv_equiv_key _ _ Hnv).
Qed.


(** C1: in the full protocol, typing an ADD CREDIT code with a fresh ID and
    calling process adds its hours to the credit of a unit that is not unlocked
    and uses up its ID; typing the same code again changes neither the credit
    nor the IDs. *)
Theorem unit_add_credit g eg m t t' (s : keycode_system P) :
  NEXUS_KEYCODE_PROTOCOL = NEXUS_KEYCODE_PROTOCOL_FULL → garbage_ok g → system_ok s →
  pending_frame (sys_pro s) = None → limited (sys_mas s) = false →
  is_u32 t → is_u32 t' → sys_uptime_s s ≤ t ≤ t' →
  full_message_ok m → encodable m → fm_type_code m = 0 →
  pd_ok (stored s) → id_in_window (stored s) (fm_full_message_id m) → fm_full_message_id m + 40 < 65535 →
  fm_check m = full_check (secret_key s) m → ¬ received (stored s) (fm_full_message_id m) →
  nxp_common_payg_state_get_current (pro_prod (sys_pro s)) ≠ NXP_COMMON_PAYG_STATE_UNLOCKED →
  credit s + fm_body m * 3600 < 2 ^ 32 →
  ∃ s1 d s2, keypad (full_message_typed m) s = Some (tt, s1) ∧ nx_common_process g eg t s1 = Some (d, s2) ∧
    system_ok s2 ∧ credit s2 = credit s + fm_body m * 3600 ∧
    (∀ x, received (stored s2) x ↔ ids_add (stored s) (fm_full_message_id m) x) ∧
    (limited (sys_mas s2) = false →
     ∃ s3 d' s4, keypad (full_message_typed m) s2 = Some (tt, s3) ∧
       nx_common_process g eg t' s3 = Some (d', s4) ∧ system_ok s4 ∧
       credit s4 = credit s2 ∧ stored s4 = stored s2).
Proof.
  intros Hfull Hg Hok Hpend Hlim Ht Ht' Hle Hm Henc Hty Hpd Hin H16 Hck Hfresh Hun Hlt.
  assert (Hb : fm_body m ≤ 99999) by (destruct Henc as [(_ & _ & ?)|(_ & ? & _)]; lia).
  set (r := NEXUS_KEYCODE_PRO_RESPONSE_VALID_APPLIED).
  assert (Hadd : ∀ p, pro_ok p → pro_stored p = stored s → payg_equiv (pro_prod p) (pro_prod (sys_pro s)) →
    nxp_keycode_get_secret_key (pro_prod p) = secret_key s →
    ∃ p1, nexus_keycode_pro_full_apply m p = Some (r, p1) ∧ pro_ok p1 ∧
      nxp_keycode_get_secret_key (pro_prod p1) = secret_key s ∧
      nxp_common_payg_credit_get_remaining (pro_prod p1) = credit s + fm_body m * 3600 ∧
      (∀ x, received (pro_stored p1) x ↔ ids_add (stored s) (fm_full_message_id m) x) ∧
      pd_index (pro_stored p1) = Z.max (pd_index (stored s)) (fm_full_message_id m)).
  { intros p Hp Hst Hpg Hk. change r with NEXUS_KEYCODE_PRO_RESPONSE_VALID_APPLIED.
    destruct (full_add_credit m p) as (p1 & Hrun & Hc & Hids & Hok1 & Hpd1 & Hk1);
      [exact Hm|exact Hty|exact Hb|exact Hp|by rewrite Hst|by rewrite Hst|by rewrite Hk|by rewrite Hst|
       by rewrite (payg_equiv_state _ _ Hpg)|by rewrite (payg_equiv_remaining _ _ Hpg)|].
    exists p1. rewrite Hst in *. rewrite (payg_equiv_remaining _ _ Hpg) in Hc.
    split; [exact Hrun|]. split; [exact Hok1|]. split; [congruence|]. by split_and!. }
  destruct (full_message_processed g eg m t r s Hfull Hg Hok Hpend Hlim Ht) as
    (p & p1 & s1 & d & s2 & Hr1 & Hr2 & Hok2 & Hpend2 & Happ & Hp & Hst & Hpg & Hk & Hst2 & Hpg2 & Hk2 & Hu2);
    [lia|exact Henc|exact Hpd|exact Hin| |].
  { intros p Hp Hst Hpg Hk. destruct (Hadd p Hp Hst Hpg Hk) as (p1 & Ha & Ho & _).
    exists p1. split; [exact Ha|exact Ho]. }
  destruct (Hadd p Hp Hst Hpg Hk) as (p1' & Happ' & Hok1 & Hk1 & Hc1 & Hids1 & Hpd1).
  rewrite Happ in Happ'. injection Happ' as <-. rewrite Hk1 in Hk2.
  assert (Hrec : received (stored s2) (fm_full_message_id m)).
  { rewrite Hst2. apply Hids1. unfold ids_add. tauto. }
  assert (Hpd2 : pd_ok (stored s2)) by (unfold pd_ok in *; rewrite Hst2, Hpd1; lia).
  assert (Hin2 : id_in_window (stored s2) (fm_full_message_id m))
    by (unfold id_in_window in *; rewrite Hst2, Hpd1; lia).
  exists s1, d, s2. split; [exact Hr1|]. split; [exact Hr2|]. split; [exact Hok2|].
  split; [unfold credit; by rewrite (payg_equiv_remaining _ _ Hpg2)|].
  split; [intros x; by rewrite Hst2|].
  intros Hlim2.
  assert (Hdup : ∀ p, pro_ok p → pro_stored p = stored s2 → nxp_keycode_get_secret_key (pro_prod p) = secret_key s2 →
    nexus_keycode_pro_full_apply m p = Some (NEXUS_KEYCODE_PRO_RESPONSE_VALID_DUPLICATE, p)).
  { intros q Hq Hqs Hqk. apply full_apply_duplicate; rewrite ?Hqs; [exact Hm|exact Hq| |lia|exact Hpd2|exact Hin2|exact Hrec].
    unfold full_key. rewrite Hty. change (0 <? 4) with true. cbn match. by rewrite Hqk, Hk2. }
  destruct (full_message_processed g eg m t' NEXUS_KEYCODE_PRO_RESPONSE_VALID_DUPLICATE s2) as
    (q & q1 & s3 & d' & s4 & Hr3 & Hr4 & Hok4 & _ & Happ4 & Hq & Hqst & Hqpg & Hqk & Hst4 & Hpg4 & _);
    [exact Hfull|exact Hg|exact Hok2|exact Hpend2|exact Hlim2|exact Ht'|lia|exact Henc|exact Hpd2|exact Hin2| |].
  { intros q Hq Hqst _ Hqk. exists q. split; [by apply Hdup|exact Hq]. }
  rewrite (Hdup q Hq Hqst Hqk) in Happ4. injection Happ4 as <-.
  exists s3, d', s4. split; [exact Hr3|]. split; [exact Hr4|]. split; [exact Hok4|]. split.
  - unfold credit. by rewrite (payg_equiv_remaining _ _ Hpg4), (payg_equiv_remaining _ _ Hqpg).
  - by rewrite Hst4.
Qed.
End Unit.
