(* ===== verification/KeycodeWitnesses.v ===== *)
(** * Concrete instances of the foundations' properties

    Every property with hypotheses is applied here at an input where they
    hold. *)



From S2P Require Import Prelude Crc Siphash Bitstream Digits Window Check NvBlock Product DesktopProduct Nv KeycodeState KeycodeWindow.
From S2P Require Import KeycodeInfer KeycodeEffects KeycodeFull KeycodeFullApply KeycodeFullParse KeycodeFullTotal KeycodeExtended.
From S2P Require Import KeycodeExtendedApply KeycodeSmall KeycodeMas KeycodeMasSpec KeycodeMasProcess KeycodeMasRun KeycodeCore.
From S2P Require Import KeycodeSystem KeycodeUnit.
Local Open Scope Z_scope.

(** Closing goals on concrete bytes. *)
Ltac bytes := repeat (apply Forall_cons; split; [wrap|]); apply Forall_nil; exact I.
Ltac evaluated := vm_compute; repeat split; congruence.

(** The check value of CRC-CCITT: the digits from 1 to 9. *)
Lemma crc_ccitt_correct_witness : compute_crc_ccitt (seqZ 49 9) 9 = Some 0x29b1.
Proof. etransitivity; [apply (crc_ccitt_correct (seqZ 49 9) 9); [bytes|evaluated]|vm_compute; reflexivity]. Defined.

(** The first test vector of the SipHash paper has an empty message. *)
Lemma siphash24_correct_witness :
  siphash24_compute [] 0 (seqZ 0 16) = Some (le_bytes 8 (siphash_ref (seqZ 0 16) [])).
Proof. apply (siphash24_correct [] 0 (seqZ 0 16)); [bytes|bytes|vm_compute; lia|evaluated]. Defined.

Definition two_bytes : nexus_bitstream := mk_nexus_bitstream [0xa0; 0] 16 3 3.

Lemma bitstream_round_trip_witness :
  ∃ s', (nexus_bitstream_push_uint8 0x5d 7;;
         nexus_bitstream_set_bit_position 3;;
         nexus_bitstream_pull_uint8 7) two_bytes = Some (0x5d, s') ∧
        bs_position s' = 10 ∧ ∀ i, 0 ≤ i < 3 → bit_at (bs_data s') i = bit_at [0xa0; 0] i.
Proof.
  apply (bitstream_round_trip 0x5d 7 two_bytes); [|wrap|lia|vm_compute; congruence|vm_compute; congruence].
  split; [bytes|]. evaluated.
Defined.

Lemma digits_round_trip_witness :
  nexus_digits_pull_uint8 3 (mk_nexus_digits ([55] ++ dec_digits 3 421 ++ [48]) 5 1) =
  Some (255, mk_nexus_digits [55; 52; 50; 49; 48] 5 4).
Proof. apply (digits_round_trip [55] 3 421 [48] 5); cbn; lia. Defined.

Definition fresh_window : nexus_window := mk_nexus_window 23 [0; 0; 0] 23 40.


Lemma nv_block_integrity_witness :
  nx_common_nv_block_valid NX_NV_BLOCK_KEYCODE_MAS (nv_block NX_NV_BLOCK_KEYCODE_MAS [5; 0; 0; 0] ++ []) = Some true ∧
  take (inner_length NX_NV_BLOCK_KEYCODE_MAS) (drop 2 (nv_block NX_NV_BLOCK_KEYCODE_MAS [5; 0; 0; 0])) = [5; 0; 0; 0] ∧
  nx_common_nv_block_valid NX_NV_BLOCK_KEYCODE_MAS
    (([0; 0] ++ 6 :: 1 :: drop 4 (nv_block NX_NV_BLOCK_KEYCODE_MAS [5; 0; 0; 0])) ++ []) = Some false.
Proof.
  apply (nv_block_integrity NX_NV_BLOCK_KEYCODE_MAS [5; 0; 0; 0] [] [0; 0] 5 0 6 1).
  - apply keycode_metas_ok.
  - split; [bytes|reflexivity].
  - bytes.
  - vm_compute. reflexivity.
  - vm_compute. lia.
  - wrap.
  - wrap.
  - discriminate.
Defined.

Definition new_unit : desktop := factory_desktop 123456789 (seqZ 1 16).

Lemma nv_update_read_back_witness :
  ∃ p', nexus_nv_update NX_NV_BLOCK_KEYCODE_MAS [5; 0; 0; 0] new_unit = Some (true, p') ∧
    nexus_nv_read NX_NV_BLOCK_KEYCODE_MAS [0; 0; 0; 0] p' = Some ((true, [5; 0; 0; 0]), p') ∧
    (∀ meta', block_id meta' ≠ 0 → nv_stored meta' p' = nv_stored meta' new_unit) ∧
    payg_equiv p' new_unit ∧
    ((nxp_common_nv_read NX_NV_BLOCK_KEYCODE_MAS (replicate 40 0) p').1 = true →
     nexus_nv_update NX_NV_BLOCK_KEYCODE_MAS [5; 0; 0; 0] p' = Some (true, p')).
Proof.
  apply (nv_update_read_back NX_NV_BLOCK_KEYCODE_MAS [5; 0; 0; 0] [0; 0; 0; 0] new_unit).
  - apply keycode_metas_ok.
  - split; [bytes|reflexivity].
  - reflexivity.
Defined.

Lemma infer_is_window_id_witness : nexus_keycode_pro_infer_full_message_id 6 100 23 40 = Some 134.
Proof. apply (infer_is_window_id 134 100); lia. Defined.

Lemma set_credit_days_table_witness :
  1 ≤ nexus_keycode_pro_small_get_set_credit_increment_days 89 <
      nexus_keycode_pro_small_get_set_credit_increment_days 90 ∧
  nexus_keycode_pro_small_get_set_credit_increment_days 90 ≤ 960 ∧
  ∀ k, 240 ≤ k < 255 → nexus_keycode_pro_small_get_set_credit_increment_days k = 0.
Proof. apply (set_credit_days_table 89 90); lia. Defined.

(** ** Concrete instances of the keycode properties (full keypad)

    The unit is the sample product as it leaves the factory, with the
    configuration of include/user_config.h; the codes are authentic for its
    secret key. *)



#[local] Existing Instance user_config.
#[local] Existing Instance user_config_ok.

(** ** The unit *)

Definition unit_pro : keycode_pro desktop :=
  mk_keycode_pro (mk_frame (replicate 30 0) 0) false NEXUS_KEYCODE_PROTOCOL NEXUS_KEYCODE_ALPHABET
    (with_pd 23 stored_zero) new_unit.

Definition unit_mas : mas_state :=
  mk_mas_state 6 [0; 0; 0] (mk_frame (replicate 30 0) 0) false 4320 42 35 255 false UINT32_MAX.

Definition unit_system : keycode_system desktop := mk_keycode_system unit_pro unit_mas true 0 false true.

Lemma new_unit_no_nv :
  nv_stored NX_NV_BLOCK_KEYCODE_PRO new_unit = None ∧ nv_stored NX_NV_BLOCK_KEYCODE_MAS new_unit = None.
Proof. split; vm_compute; reflexivity. Qed.

Lemma unit_pro_ok : pro_ok unit_pro.
Proof. split; [apply initial_stored_ok|right; apply new_unit_no_nv]. Qed.

Lemma unit_pd_ok : pd_ok (pro_stored unit_pro).
Proof. vm_compute. split; congruence. Qed.

Lemma unit_fresh id : 0 ≤ id → ¬ received (pro_stored unit_pro) id.
Proof.
  intros Hid [Hlt|[Hle Hm]]; [cbn in Hlt; lia|]. cbn [pro_stored unit_pro with_pd received_flags stored_zero] in Hm.
  by rewrite mem_replicate in Hm.
Qed.

Lemma unit_mas_ok : mas_ok unit_mas.
Proof. split_and!; try done; try wrap. by repeat constructor; wrap. Qed.

Lemma unit_mas_synced : mas_synced (W := keycode_system desktop) unit_system.
Proof. unfold mas_synced, mas_nv. cbn [env_prod system_mas_env sys_pro unit_system pro_prod unit_pro].
  by rewrite (proj2 new_unit_no_nv). Qed.

Lemma unit_system_ok : system_ok unit_system.
Proof.
  split; [apply unit_mas_ok|apply unit_mas_synced|apply unit_pro_ok|by split|done|done|evaluated].
Qed.

Lemma unit_not_unlocked : nxp_common_payg_state_get_current new_unit ≠ NXP_COMMON_PAYG_STATE_UNLOCKED.
Proof. discriminate. Qed.

(** ** Codes for it *)

Definition code (id type body : Z) : nexus_keycode_pro_full_message :=
  mk_full_message id type body
    (full_check (nxp_keycode_get_secret_key new_unit) (mk_full_message id type body 0)).

Lemma code_check id type body :
  fm_check (code id type body) = full_check (nxp_keycode_get_secret_key new_unit) (code id type body).
Proof. apply full_check_contents. Qed.

Lemma code_check_range id type body : 0 ≤ fm_check (code id type body) < 1000000.
Proof. apply full_check_range. Qed.

Lemma code_ok id type body : is_u32 id → is_u8 type → is_u32 body → full_message_ok (code id type body).
Proof. intros ???. split; [assumption|split; assumption]. Qed.

Lemma code_encodable id type body :
  type = 0 ∨ type = 1 ∨ type = 3 → 0 ≤ body < 100000 → encodable (code id type body).
Proof. left. split; [apply code_check_range|done]. Qed.

(** ** The codes' properties *)

(** Two SET CREDIT codes in a row. *)
Lemma set_code_applies id (s : keycode_pro desktop) :
  0 ≤ id < 60 → pro_ok s → pd_ok (pro_stored s) → id_in_window (pro_stored s) id →
  nxp_keycode_get_secret_key (pro_prod s) = nxp_keycode_get_secret_key new_unit →
  ¬ received (pro_stored s) id →
  ∃ s', full_run s [(code id 1 5, NEXUS_KEYCODE_PRO_RESPONSE_VALID_APPLIED)] s' ∧ pro_ok s' ∧
    nxp_keycode_get_secret_key (pro_prod s') = nxp_keycode_get_secret_key new_unit ∧
    pd_index (pro_stored s') = Z.max (pd_index (pro_stored s)) id ∧
    (∀ x, received (pro_stored s') x ↔ ids_below (pro_stored s) id x).
Proof.
  intros Hid Hok Hpd Hin Hk Hfresh.
  assert (Hm : full_message_ok (code id 1 5)) by (apply code_ok; wrap).
  destruct (full_set_applies (code id 1 5) s Hm eq_refl) as (s' & Hr & _ & Hids & Hok' & Hpd' & Hk').
  - cbn [fm_body code]. lia.
  - exact Hok.
  - exact Hpd.
  - exact Hin.
  - rewrite Hk. apply code_check.
  - exact Hfresh.
  - exists s'. split; [|split; [exact Hok'|]; split; [congruence|]; split; [exact Hpd'|exact Hids]].
    apply (full_run_cons _ _ _ s'); [exact Hm|exact Hpd|intros _; exact Hin|exact Hr|constructor].
Qed.

Lemma full_run_snoc (s : keycode_pro desktop) l1 s1 l2 s2 :
  full_run s l1 s1 → full_run s1 l2 s2 → full_run s (l1 ++ l2) s2.
Proof. induction 1; intros Hl2; [done|]. econstructor; eauto. Qed.

Lemma two_codes_applied :
  ∃ s', full_run unit_pro ([] ++ (code 24 1 5, NEXUS_KEYCODE_PRO_RESPONSE_VALID_APPLIED) ::
    [] ++ (code 25 1 5, NEXUS_KEYCODE_PRO_RESPONSE_VALID_APPLIED) :: []) s'.
Proof.
  destruct (set_code_applies 24 unit_pro) as (s1 & Hr1 & Hok1 & Hk1 & Hpd1 & Hids).
  - lia.
  - apply unit_pro_ok.
  - apply unit_pd_ok.
  - evaluated.
  - reflexivity.
  - apply unit_fresh. lia.
  - change (Z.max _ 24) with 24 in Hpd1. destruct (set_code_applies 25 s1) as (s2 & Hr2 & _).
    + lia.
    + exact Hok1.
    + unfold pd_ok. lia.
    + unfold id_in_window. lia.
    + exact Hk1.
    + intros [?|[? _]]; lia.
    + exists s2. exact (full_run_snoc _ _ _ _ _ Hr1 Hr2).
Qed.


Lemma full_apply_unauthentic_witness :
  nexus_keycode_pro_full_apply (mk_full_message 24 0 1 1000000) unit_pro =
  Some (NEXUS_KEYCODE_PRO_RESPONSE_INVALID, unit_pro).
Proof.
  apply (full_apply_unauthentic (mk_full_message 24 0 1 1000000) unit_pro).
  - evaluated.
  - cbn [fm_type_code]. lia.
  - cbn [fm_check]. pose proof (full_check_range (full_key (mk_full_message 24 0 1 1000000) (pro_prod unit_pro))
      (mk_full_message 24 0 1 1000000)) as Hr. lia.
Defined.

Lemma full_set_credit_witness :
  ∃ s', nexus_keycode_pro_full_apply (code 24 1 5) unit_pro = Some (NEXUS_KEYCODE_PRO_RESPONSE_VALID_APPLIED, s') ∧
    nxp_common_payg_credit_get_remaining (pro_prod s') = 5 * 3600 ∧
    (∀ x, received (pro_stored s') x ↔ ids_below (pro_stored unit_pro) 24 x).
Proof.
  apply (full_set_credit (code 24 1 5) unit_pro).
  - apply code_ok; wrap.
  - reflexivity.
  - cbn [fm_body code]. lia.
  - exact unit_pro_ok.
  - exact unit_pd_ok.
  - evaluated.
  - apply code_check.
  - apply unit_fresh. cbn [fm_full_message_id code]. lia.
Defined.

Lemma full_keycode_round_trip_witness :
  nexus_keycode_pro_full_parse_and_apply (replicate 30 170) (activation_frame (code 24 0 10) (replicate 16 0)) unit_pro =
  nexus_keycode_pro_full_apply (code 24 0 10) unit_pro.
Proof.
  apply (full_keycode_round_trip (code 24 0 10) (replicate 16 0) (replicate 30 170) unit_pro).
  - apply code_encodable; [by left|lia].
  - exact unit_pd_ok.
  - evaluated.
  - reflexivity.
  - cbn. lia.
Defined.

Definition qc_code : nexus_keycode_pro_full_message :=
  mk_full_message 0 5 10 (full_check NEXUS_INTEGRITY_CHECK_FIXED_00_KEY (mk_full_message 0 5 10 0)).

Lemma full_factory_round_trip_witness :
  nexus_keycode_pro_full_parse_and_apply (replicate 30 170) (factory_frame qc_code 0 (replicate 18 0)) unit_pro =
  nexus_keycode_pro_full_apply qc_code unit_pro.
Proof.
  apply (full_factory_round_trip qc_code 0 (replicate 18 0) (replicate 30 170) unit_pro).
  - split; [reflexivity|]. split; [cbn [fm_type_code qc_code]; lia|]. split; [apply full_check_range|].
    cbn [fm_type_code fm_body qc_code]. change (5 =? 5) with true. cbn match. lia.
  - unfold factory_keys, factory_body. rewrite !length_app, !dec_digits_length. reflexivity.
  - cbn. lia.
Defined.

(** The unit after it has received some codes. *)
Definition used_pro : keycode_pro desktop :=
  mk_keycode_pro (mk_frame (replicate 30 0) 0) false NEXUS_KEYCODE_PROTOCOL NEXUS_KEYCODE_ALPHABET
    (with_pd 100 stored_zero) new_unit.

Lemma used_pro_ok : pro_ok used_pro.
Proof.
  split; [|right; apply new_unit_no_nv]. split_and!; cbn; try done; try wrap. by repeat constructor; wrap.
Qed.

Lemma full_short_frame_replay_witness :
  ∃ s', nexus_keycode_pro_full_parse_and_apply (replicate 30 170)
          (factory_frame (short_set_credit (pro_prod used_pro)) 0 (replicate 23 48)) used_pro =
        Some (NEXUS_KEYCODE_PRO_RESPONSE_VALID_APPLIED, s') ∧
    pro_stored s' = pro_stored used_pro ∧ nxp_common_payg_credit_get_remaining (pro_prod s') = 0 ∧
    nxp_keycode_get_secret_key (pro_prod s') = nxp_keycode_get_secret_key (pro_prod used_pro).
Proof.
  apply (full_short_frame_replay (replicate 23 48) (replicate 30 170) used_pro).
  - exact used_pro_ok.
  - evaluated.
  - cbn. lia.
  - reflexivity.
  - cbn. lia.
Defined.

(** ** Message assembly *)

Definition pad_system : logged (keycode_system desktop) := (unit_system, []).

Lemma pad_ok : mas_ok (env_mas pad_system).
Proof. exact unit_mas_ok. Qed.

Lemma pad_synced : mas_synced pad_system.
Proof. exact unit_mas_synced. Qed.

Lemma pad_body (body : list Z) : Forall (λ k, 48 ≤ k ≤ 57) body → Forall (body_key (env_mas pad_system)) body.
Proof.
  intros Hb. eapply Forall_impl; [exact Hb|]. intros k Hk. unfold body_key.
  change (bk_start (env_mas pad_system)) with 42. change (bk_end (env_mas pad_system)) with 35. cbv beta in Hk. lia.
Qed.


Lemma mas_message_assembled_witness :
  ∃ w' frames, keypad (bk_start (env_mas pad_system) :: [48; 49; 50] ++ [bk_end (env_mas pad_system)]) pad_system =
      Some (tt, w') ∧
    w'.2 = pad_system.2 ++ frames ∧ bk_start_seen (env_mas w') = false ∧
    if bool_decide (1 ≤ length [48; 49; 50] ≤ 30)%nat
    then ∃ f, frames = [f] ∧ fr_length f = Z.of_nat (length [48; 49; 50]) ∧
              take (length [48; 49; 50]) (fr_keys f) = [48; 49; 50]
    else frames = [].
Proof.
  apply (mas_message_assembled [48; 49; 50] pad_system).
  - exact pad_ok.
  - reflexivity.
  - reflexivity.
  - discriminate.
  - apply pad_body. repeat constructor; lia.
  - left. reflexivity.
Defined.

Lemma mas_complete_is_keypad_witness :
  let keys := bk_start (env_mas pad_system) :: [48; 49; 50] ++ [bk_end (env_mas pad_system)] in
  ∃ w1 w2, nx_keycode_handle_complete_keycode keys (Z.of_nat (length keys)) pad_system = Some (true, w1) ∧
    keypad keys pad_system = Some (tt, w2) ∧ w1.2 = w2.2 ∧
    env_mas w2 = with_latest_uptime UINT32_MAX (env_mas w1).
Proof.
  apply (mas_complete_is_keypad [48; 49; 50] pad_system).
  - reflexivity.
  - exact pad_ok.
  - reflexivity.
  - discriminate.
  - apply pad_body. repeat constructor; lia.
  - left. reflexivity.
  - cbn. lia.
  - reflexivity.
Defined.

Lemma one_hour : ∃ w', mas_run pad_system [TimePassed 3600] w'.
Proof.
  destruct (event_step (TimePassed 3600) pad_system) as (w' & f & Hrun & _); [evaluated|exact pad_ok|exact pad_synced|].
  exists w'. eapply mas_run_cons; [evaluated| |exact Hrun|apply mas_run_nil]; by split_and!.
Qed.


Lemma mas_attempts_remaining_witness :
  ∃ w1 w2, nexus_keycode_rate_limit_attempts_remaining pad_system = Some (6, w1) ∧
    nx_keycode_is_rate_limited pad_system = Some (false, w2).
Proof.
  destruct (mas_attempts_remaining pad_system pad_ok eq_refl) as (w1 & w2 & H1 & H2 & _).
  exists w1, w2. split; [exact H1|exact H2].
Defined.

Lemma mas_power_cycle_witness :
  ∃ r w1 w2, nexus_keycode_mas_process 100 pad_system = Some (r, w1) ∧
    mas_rl_bucket (env_mas w1) = 4420 ∧
    nexus_keycode_mas_init w1 = Some (tt, w2) ∧
    mas_rl_bucket (env_mas w2) = Z.min 6 (mas_rl_bucket (env_mas w1) / 720) * 720 ∧
    fr_length (mas_partial (env_mas w2)) = 0 ∧ w2.2 = [].
Proof.
  assert (Hs : is_u32 100) by wrap.
  destruct (mas_power_cycle 100 pad_system pad_ok pad_synced Hs eq_refl) as (r & w1 & w2 & H1 & H2 & H3 & H4 & H5 & H6).
  exists r, w1, w2. split; [exact H1|]. split; [exact H2|]. split; [exact H3|]. split; [exact H4|].
  split; [exact H5|exact H6].
Defined.

(** A key was pressed at second 3, and now it is second 20. *)
Definition waiting_system : logged (keycode_system desktop) :=
  (mk_keycode_system unit_pro
     (mk_mas_state 6 [0; 0; 0] (mk_frame (49 :: replicate 29 0) 1) false 4320 42 35 255 true 3) true 20 false true, []).

Lemma waiting_ok : mas_ok (env_mas waiting_system).
Proof. split_and!; try done; try wrap. by repeat constructor; wrap. Qed.

Lemma mas_message_timeout_witness :
  ∃ w1 w2, nexus_keycode_mas_process 17 waiting_system = Some (240, w1) ∧
    bk_start_seen (env_mas w1) = false ∧ fr_length (mas_partial (env_mas w1)) = 0 ∧
    nexus_keycode_mas_bookend_push 50 w1 = Some (tt, w2) ∧
    bk_start_seen (env_mas w2) = false ∧ w2.2 = [].
Proof.
  apply (mas_message_timeout 17 3 50 waiting_system).
  - exact waiting_ok.
  - exact unit_mas_synced.
  - evaluated.
  - reflexivity.
  - reflexivity.
  - discriminate.
  - lia.
  - evaluated.
  - reflexivity.
  - discriminate.
Defined.

(** ** The whole unit *)

Definition memory : list Z := replicate 30 170.
Definition ext_memory : nexus_keycode_pro_extended_small_message := mk_ext_message 170 170 170 170 170.

Lemma memory_ok : garbage_ok memory.
Proof. split; [apply Forall_replicate; wrap|vm_compute; lia]. Qed.

Lemma unit_power_up_witness :
  ∃ s', nx_common_init 0 unit_system = Some (tt, s') ∧ system_ok s' ∧
    stored s' = with_pd 23 stored_zero ∧ pending_frame (sys_pro s') = None ∧
    bk_start_seen (sys_mas s') = false ∧ credit s' = credit unit_system ∧
    secret_key s' = secret_key unit_system ∧ sys_uptime_s s' = 0.
Proof.
  assert (Hb : booted_stored (pro_prod (sys_pro unit_system)) = with_pd 23 stored_zero)
    by (unfold booted_stored; cbn [pro_prod sys_pro unit_system unit_pro]; by rewrite (proj1 new_unit_no_nv)).
  rewrite <- Hb. apply (unit_power_up 0 unit_system).
  - exact unit_mas_ok.
  - evaluated.
  - rewrite Hb. exact unit_pd_ok.
Defined.

Lemma one_key : ∃ s', unit_run memory ext_memory unit_system [UnitKey 42] s' ∧ stored s' = stored unit_system.
Proof.
  destruct (runs_single (W := keycode_system desktop) 42 unit_system) as (s' & Hrun & Hm); [exact unit_mas_ok|done|].
  exists s'. split.
  - eapply unit_run_cons; [exact I|exact unit_pd_ok| |constructor]. cbn [unit_handle].
    by rewrite (bind_Some _ _ _ _ _ Hrun).
  - exact (enqueued_stored _ _ _ (moved_handed _ _ _ _ Hm)).
Qed.


Lemma unit_add_credit_witness :
  ∃ s1 d s2, keypad (full_message_typed (code 24 0 10)) unit_system = Some (tt, s1) ∧
    nx_common_process memory ext_memory 30 s1 = Some (d, s2) ∧
    system_ok s2 ∧ credit s2 = credit unit_system + fm_body (code 24 0 10) * 3600 ∧
    (∀ x, received (stored s2) x ↔ ids_add (stored unit_system) (fm_full_message_id (code 24 0 10)) x) ∧
    (limited (sys_mas s2) = false →
     ∃ s3 d' s4, keypad (full_message_typed (code 24 0 10)) s2 = Some (tt, s3) ∧
       nx_common_process memory ext_memory 60 s3 = Some (d', s4) ∧ system_ok s4 ∧
       credit s4 = credit s2 ∧ stored s4 = stored s2).
Proof.
  apply (unit_add_credit memory ext_memory (code 24 0 10) 30 60 unit_system).
  - reflexivity.
  - exact memory_ok.
  - exact unit_system_ok.
  - reflexivity.
  - reflexivity.
  - evaluated.
  - evaluated.
  - cbn [sys_uptime_s unit_system]. lia.
  - apply code_ok; wrap.
  - apply code_encodable; [by left|lia].
  - reflexivity.
  - exact unit_pd_ok.
  - evaluated.
  - cbn [fm_full_message_id code]. lia.
  - apply code_check.
  - apply unit_fresh. cbn [fm_full_message_id code]. lia.
  - exact unit_not_unlocked.
  - evaluated.
Defined.
