(* ===== verification/SmallWitnesses.v ===== *)
(** * Concrete instances of the keycode properties (small keypad)

    The same unit, built for the small protocol. *)



From S2P Require Import Prelude Crc Siphash Window Check NvBlock Product DesktopProduct Nv KeycodeState KeycodeWindow KeycodeEffects.
From S2P Require Import KeycodeExtended KeycodeExtendedApply KeycodeSmall KeycodeSmallApply KeycodeSmallTotal KeycodeMas KeycodeMasSpec.
From S2P Require Import KeycodeMasProcess KeycodeMasRun KeycodeCore KeycodeSystem KeycodeWitnesses.
Local Open Scope Z_scope.

#[local] Existing Instance small_config.
#[local] Existing Instance small_config_ok.

Definition small_pro : keycode_pro desktop :=
  mk_keycode_pro (mk_frame (replicate 30 0) 0) false NEXUS_KEYCODE_PROTOCOL NEXUS_KEYCODE_ALPHABET
    (with_pd 23 stored_zero) new_unit.

Lemma small_pro_ok : pro_ok small_pro.
Proof. split; [apply initial_stored_ok|right; vm_compute; reflexivity]. Qed.

Lemma small_pd_ok : pd_ok (pro_stored small_pro).
Proof. evaluated. Qed.

Lemma small_pro_ready : small_ready small_pro.
Proof. split; [apply small_pro_ok|]. split; [apply small_pd_ok|reflexivity]. Qed.

Lemma small_fresh id : 0 ≤ id → ¬ received (pro_stored small_pro) id.
Proof.
  intros Hid [Hlt|[Hle Hm]]; [cbn in Hlt; lia|]. cbn [pro_stored small_pro with_pd received_flags stored_zero] in Hm.
  by rewrite mem_replicate in Hm.
Qed.

(** ** Messages *)

Definition small_code_for (id type body : Z) : nexus_keycode_pro_small_message :=
  mk_small_message id type body
    (small_check (nxp_keycode_get_secret_key new_unit) (mk_small_message id type body 0)).

Lemma small_code_for_check id type body :
  sm_check (small_code_for id type body) =
  small_check (nxp_keycode_get_secret_key new_unit) (small_code_for id type body).
Proof. apply small_check_contents. Qed.

Lemma small_code_ok id type body :
  is_u32 id → is_u8 type → is_u8 body → small_message_ok (small_code_for id type body).
Proof. intros ???. split; [assumption|split; assumption]. Qed.

Lemma set_code_runs id (s : keycode_pro desktop) :
  0 ≤ id < 60 → pro_ok s → pd_ok (pro_stored s) → id_in_window (pro_stored s) id →
  nxp_keycode_get_secret_key (pro_prod s) = nxp_keycode_get_secret_key new_unit →
  ¬ received (pro_stored s) id →
  ∃ s', small_step s (SmallMessage (small_code_for id 2 6) NEXUS_KEYCODE_PRO_RESPONSE_VALID_APPLIED) s' ∧
    pro_ok s' ∧ nxp_keycode_get_secret_key (pro_prod s') = nxp_keycode_get_secret_key new_unit ∧
    pd_index (pro_stored s') = Z.max (pd_index (pro_stored s)) id ∧
    (∀ x, received (pro_stored s') x ↔ ids_below (pro_stored s) id x).
Proof.
  intros Hid Hok Hpd Hin Hk Hfresh.
  assert (Hm : small_message_ok (small_code_for id 2 6)) by (apply small_code_ok; wrap).
  destruct (small_set_applies (small_code_for id 2 6) s Hm eq_refl Hok Hpd Hin) as (s' & Hr & [Hok' Hpd' Hids _ Hk']).
  - rewrite Hk. apply small_code_for_check.
  - exact Hfresh.
  - exists s'. split; [|split; [exact Hok'|]; split; [congruence|]; split; [exact Hpd'|exact Hids]].
    apply small_step_message; [exact Hm|cbn [sm_type_code small_code_for]; lia|exact Hpd|intros _; exact Hin|exact Hr].
Qed.

Lemma two_small_codes :
  ∃ s', small_run small_pro ([] ++ SmallMessage (small_code_for 24 2 6) NEXUS_KEYCODE_PRO_RESPONSE_VALID_APPLIED ::
    [] ++ SmallMessage (small_code_for 25 2 6) NEXUS_KEYCODE_PRO_RESPONSE_VALID_APPLIED :: []) s'.
Proof.
  destruct (set_code_runs 24 small_pro) as (s1 & Hr1 & Hok1 & Hk1 & Hpd1 & Hids).
  - lia.
  - apply small_pro_ok.
  - apply small_pd_ok.
  - evaluated.
  - reflexivity.
  - apply small_fresh. lia.
  - change (Z.max _ 24) with 24 in Hpd1. destruct (set_code_runs 25 s1) as (s2 & Hr2 & _).
    + lia.
    + exact Hok1.
    + unfold pd_ok. lia.
    + unfold id_in_window. lia.
    + exact Hk1.
    + intros [?|[? _]]; lia.
    + exists s2. econstructor; [exact Hr1|]. econstructor; [exact Hr2|constructor].
Qed.

Lemma small_no_replay_witness :
  (∃ s', small_run small_pro ([] ++ SmallMessage (small_code_for 24 2 6) NEXUS_KEYCODE_PRO_RESPONSE_VALID_APPLIED ::
    [] ++ SmallMessage (small_code_for 25 2 6) NEXUS_KEYCODE_PRO_RESPONSE_VALID_APPLIED :: []) s') ∧
  sm_full_message_id (small_code_for 24 2 6) ≠ sm_full_message_id (small_code_for 25 2 6).
Proof.
  split; [exact two_small_codes|]. destruct two_small_codes as [s' Hrun].
  apply (small_no_replay small_pro [] (small_code_for 24 2 6) [] (small_code_for 25 2 6) [] s').
  - exact small_pro_ok.
  - exact Hrun.
  - right. reflexivity.
  - right. reflexivity.
  - constructor.
Defined.

Lemma small_apply_unauthentic_witness :
  nexus_keycode_pro_small_apply (mk_small_message 24 0 6 4096) small_pro =
  Some (NEXUS_KEYCODE_PRO_RESPONSE_INVALID, small_pro).
Proof.
  apply (small_apply_unauthentic (mk_small_message 24 0 6 4096) small_pro).
  - evaluated.
  - cbn [sm_check]. pose proof (small_check_range (small_key (mk_small_message 24 0 6 4096) (pro_prod small_pro))
      (mk_small_message 24 0 6 4096)) as Hr. lia.
Defined.

Lemma small_set_credit_witness :
  ∃ s', nexus_keycode_pro_small_apply (small_code_for 24 2 6) small_pro =
      Some (NEXUS_KEYCODE_PRO_RESPONSE_VALID_APPLIED, s') ∧
    small_set_outcome (sm_body (small_code_for 24 2 6)) (pro_prod small_pro) (pro_prod s') ∧
    ∀ x, received (pro_stored s') x ↔ ids_below (pro_stored small_pro) (sm_full_message_id (small_code_for 24 2 6)) x.
Proof.
  apply (small_set_credit (small_code_for 24 2 6) small_pro).
  - apply small_code_ok; wrap.
  - reflexivity.
  - exact small_pro_ok.
  - exact small_pd_ok.
  - evaluated.
  - apply small_code_for_check.
  - apply small_fresh. cbn [sm_full_message_id small_code_for]. lia.
Defined.

Lemma small_add_credit_witness :
  ∃ r s', nexus_keycode_pro_small_apply (small_code_for 24 0 6) small_pro = Some (r, s') ∧
    small_add_outcome (sm_body (small_code_for 24 0 6)) r (pro_prod small_pro) (pro_prod s') ∧
    ∀ x, received (pro_stored s') x ↔ ids_add (pro_stored small_pro) (sm_full_message_id (small_code_for 24 0 6)) x.
Proof.
  apply (small_add_credit (small_code_for 24 0 6) small_pro).
  - apply small_code_ok; wrap.
  - reflexivity.
  - exact small_pro_ok.
  - exact small_pd_ok.
  - evaluated.
  - apply small_code_for_check.
  - apply small_fresh. cbn [sm_full_message_id small_code_for]. lia.
Defined.

(** ** Extended messages *)

Definition ext_code (truncated increment check : Z) : nexus_keycode_pro_extended_small_message :=
  mk_ext_message 0 0 truncated increment check.

Definition ext_code_for_0 : nexus_keycode_pro_extended_small_message :=
  ext_code 0 6 (ext_check (nxp_keycode_get_secret_key new_unit) 0 6 0).

Lemma ext_code_applicable : ext_applicable ext_code_for_0 small_pro 0.
Proof. split; [evaluated|]. split; [reflexivity|]. split; [apply small_fresh; lia|]. exact eq_refl. Qed.

Lemma extended_apply_valid_witness :
  ∃ s', nexus_keycode_pro_extended_small_apply ext_code_for_0 small_pro =
      Some (NEXUS_KEYCODE_PRO_RESPONSE_VALID_APPLIED, s') ∧
    ext_outcome (em_increment_id ext_code_for_0) (pro_prod s') ∧
    (∀ x, received (pro_stored s') x ↔ ids_below (pro_stored small_pro) 0 x) ∧
    ∀ x, ext_applicable ext_code_for_0 s' x → 0 < x.
Proof.
  apply (extended_apply_valid ext_code_for_0 small_pro 0).
  - split; [reflexivity|]. split; [cbn [em_increment_id ext_code_for_0 ext_code]; wrap|].
    cbn [em_truncated_message_id ext_code_for_0 ext_code]. lia.
  - exact small_pro_ok.
  - exact small_pd_ok.
  - exact ext_code_applicable.
  - intros x [[Hx _] _]. exact Hx.
Defined.

Lemma no_such_code x : ¬ ext_applicable (ext_code 0 6 4096) small_pro x.
Proof.
  intros (_ & _ & _ & Ha). unfold ext_auth in Ha. cbn [em_check ext_code] in Ha.
  pose proof (ext_check_range (nxp_keycode_get_secret_key (pro_prod small_pro)) x
    (em_increment_id (ext_code 0 6 4096)) (em_truncated_message_id (ext_code 0 6 4096))) as Hr.
  rewrite Ha in Hr. lia.
Qed.

Lemma extended_apply_invalid_witness :
  ∃ s', nexus_keycode_pro_extended_small_apply (ext_code 0 6 4096) small_pro =
      Some (NEXUS_KEYCODE_PRO_RESPONSE_INVALID, s') ∧
    pro_stored s' = pro_stored small_pro ∧ payg_equiv (pro_prod s') (pro_prod small_pro).
Proof.
  apply (extended_apply_invalid (ext_code 0 6 4096) small_pro).
  - evaluated.
  - exact small_pro_ok.
  - exact small_pd_ok.
  - exact no_such_code.
Defined.

(** ** Frames *)

Definition small_memory : list Z := replicate 4 170.
Definition small_ext_memory : nexus_keycode_pro_extended_small_message := mk_ext_message 170 170 170 170 170.

Lemma small_memory_ok : bytes_ok small_memory.
Proof. apply Forall_replicate. wrap. Qed.

Lemma small_keycode_round_trip_witness :
  nexus_keycode_pro_small_parse_and_apply small_memory small_ext_memory
    (small_frame (24 mod 64) 0 6 100 (replicate 16 0)) small_pro =
  nexus_keycode_pro_small_apply (mk_small_message 24 0 6 100) small_pro.
Proof.
  apply (small_keycode_round_trip (mk_small_message 24 0 6 100) (replicate 16 0) small_memory small_ext_memory small_pro).
  - exact small_pro_ready.
  - exact small_memory_ok.
  - vm_compute. lia.
  - evaluated.
  - discriminate.
  - evaluated.
Defined.

Lemma extended_keycode_round_trip_witness :
  nexus_keycode_pro_small_parse_and_apply small_memory small_ext_memory
    (small_frame (32 + 3) 1 6 100 (replicate 16 0)) small_pro =
  (nexus_keycode_pro_extended_small_apply (mk_ext_message (em_inferred_message_id small_ext_memory) 0 3 6 100);;
   mret NEXUS_KEYCODE_PRO_RESPONSE_NONE) small_pro.
Proof.
  apply (extended_keycode_round_trip 3 6 100 (replicate 16 0) small_memory small_ext_memory small_pro).
  - exact small_pro_ready.
  - exact small_memory_ok.
  - vm_compute. lia.
  - lia.
  - wrap.
  - lia.
Defined.

(** ** Assembly with a stop length *)

Definition small_mas : mas_state :=
  mk_mas_state 6 [0; 0; 0] (mk_frame (replicate 30 0) 0) false 4320 49 63 14 false UINT32_MAX.
Definition small_system : logged (keycode_system desktop) :=
  (mk_keycode_system small_pro small_mas true 0 false true, []).

Lemma small_mas_ok : mas_ok (env_mas small_system).
Proof. split_and!; try done; try wrap. by repeat constructor; wrap. Qed.

Lemma mas_stop_length_assembled_witness :
  ∃ w' f, keypad (bk_start (env_mas small_system) :: replicate 13 50 ++ [53]) small_system = Some (tt, w') ∧
    w'.2 = small_system.2 ++ [f] ∧ bk_start_seen (env_mas w') = false ∧
    fr_length f = bk_stop_length (env_mas small_system) ∧
    take (S (length (replicate 13 50))) (fr_keys f) = replicate 13 50 ++ [53].
Proof.
  apply (mas_stop_length_assembled (replicate 13 50) 53 small_system).
  - exact small_mas_ok.
  - reflexivity.
  - reflexivity.
  - apply Forall_app. split; [apply Forall_replicate|constructor; [|constructor]]; split; discriminate.
  - reflexivity.
  - vm_compute. lia.
Defined.
