(* ===== verification/Channel.v ===== *)
(** * Nexus Channel: shared data and the product's part (internal_channel_config.h,
    include/nx_common.h, include/nxp_channel.h)

    Origin commands as the origin manager hands them to the core, Nexus IDs,
    and the functions a product with Nexus Channel implements in addition to
    [Product]. *)

From S2P Require Import Prelude Crc NvBlock Product Nv DesktopProduct.
Local Open Scope Z_scope.

(** Zeroed memory. *)
Lemma zeros_ok n : bytes_ok (replicate n 0).
Proof. apply Forall_replicate. wrap. Qed.
#[export] Hint Resolve zeros_ok : cint.

(** ** Nexus IDs *)

Record nx_id := mk_nx_id { authority_id : Z; device_id : Z }.

#[export] Instance nx_id_eq_dec : EqDecision nx_id.
Proof. solve_decision. Defined.

(** ** Origin commands *)

Inductive nexus_channel_om_command_type :=
| NEXUS_CHANNEL_OM_COMMAND_TYPE_GENERIC_CONTROLLER_ACTION
| NEXUS_CHANNEL_OM_COMMAND_TYPE_ACCESSORY_ACTION_UNLOCK
| NEXUS_CHANNEL_OM_COMMAND_TYPE_ACCESSORY_ACTION_UNLINK
| NEXUS_CHANNEL_OM_COMMAND_TYPE_CREATE_ACCESSORY_LINK_MODE_3
| NEXUS_CHANNEL_OM_COMMAND_TYPE_INVALID.

#[export] Instance om_command_type_eq_dec : EqDecision nexus_channel_om_command_type.
Proof. solve_decision. Defined.

(** The values of the enumerators. *)
Definition om_type_code (t : nexus_channel_om_command_type) : Z :=
  match t with
  | NEXUS_CHANNEL_OM_COMMAND_TYPE_GENERIC_CONTROLLER_ACTION => 0
  | NEXUS_CHANNEL_OM_COMMAND_TYPE_ACCESSORY_ACTION_UNLOCK => 1
  | NEXUS_CHANNEL_OM_COMMAND_TYPE_ACCESSORY_ACTION_UNLINK => 2
  | NEXUS_CHANNEL_OM_COMMAND_TYPE_CREATE_ACCESSORY_LINK_MODE_3 => 9
  | NEXUS_CHANNEL_OM_COMMAND_TYPE_INVALID => 255
  end.

Definition NEXUS_CHANNEL_ORIGIN_COMMAND_UNLINK_ALL_LINKED_ACCESSORIES : Z := 0.
Definition NEXUS_CHANNEL_ORIGIN_COMMAND_UNLOCK_ALL_LINKED_ACCESSORIES : Z := 1.

(** [union nexus_channel_om_command_body]: the members of the union are fields
    of their own, since the code reads of a message only the member that
    belongs to its type. *)
Record nexus_channel_om_command_body := mk_om_body {
  action_type : Z;                     (* controller_action *)
  trunc_digits_int : Z;                (* accessory_action.trunc_acc_id *)
  trunc_digits_count : Z;
  computed_accessory_id : nx_id;
  accessory_challenge : Z              (* create_link *)
}.

Record nexus_channel_om_command_message := mk_om_message {
  om_type : nexus_channel_om_command_type;
  om_body : nexus_channel_om_command_body;
  om_auth : Z;
  computed_command_id : Z
}.

Definition om_body_zero : nexus_channel_om_command_body := mk_om_body 0 0 0 (mk_nx_id 0 0) 0.

(** [{INVALID, {{0}}, {0}, 0}] *)
Definition om_message_zero : nexus_channel_om_command_message :=
  mk_om_message NEXUS_CHANNEL_OM_COMMAND_TYPE_INVALID om_body_zero 0 0.

Definition with_body (b : nexus_channel_om_command_body) (m : nexus_channel_om_command_message)
    : nexus_channel_om_command_message := {| m with om_body := b |}.
Definition with_command_id (id : Z) (m : nexus_channel_om_command_message)
    : nexus_channel_om_command_message := {| m with computed_command_id := id |}.
Definition with_accessory (id : nx_id) (m : nexus_channel_om_command_message)
    : nexus_channel_om_command_message :=
  let b := om_body m in {| m with om_body := {| b with computed_accessory_id := id |} |}.

Inductive nx_channel_error :=
| NX_CHANNEL_ERROR_NONE
| NX_CHANNEL_ERROR_UNSPECIFIED
| NX_CHANNEL_ERROR_ACTION_REJECTED
| NX_CHANNEL_ERROR_METHOD_UNSUPPORTED
| NX_CHANNEL_ERROR_MESSAGE_TOO_LARGE.

(** ** The product *)

Inductive nxp_channel_event_type :=
| NXP_CHANNEL_EVENT_LINK_ESTABLISHED_AS_ACCESSORY
| NXP_CHANNEL_EVENT_LINK_ESTABLISHED_AS_CONTROLLER
| NXP_CHANNEL_EVENT_LINK_DELETED
| NXP_CHANNEL_EVENT_LINK_HANDSHAKE_STARTED
| NXP_CHANNEL_EVENT_LINK_HANDSHAKE_TIMED_OUT.

Class ChannelProduct (P : Type) := {
  nxp_channel_symmetric_origin_key : P → list Z;
  nxp_channel_notify_event : nxp_channel_event_type → P → P;
  nxp_channel_get_nexus_id : P → nx_id;
  nxp_channel_random_value : P → Z * P;
  nxp_channel_network_send : list Z → nx_id → nx_id → bool → P → P
}.

(** The keys are sixteen bytes, no call of the library changes the origin key,
    and events, random values and messages touch neither NV nor credit. *)
Class ChannelProductLaws (P : Type) `{Product P} `{ChannelProduct P} := {
  origin_key_ok p : bytes_ok (nxp_channel_symmetric_origin_key p);
  origin_key_length p : length (nxp_channel_symmetric_origin_key p) = 16%nat;
  write_origin_key meta blk p :
    nxp_channel_symmetric_origin_key (nxp_common_nv_write meta blk p).2 = nxp_channel_symmetric_origin_key p;
  request_origin_key p :
    nxp_channel_symmetric_origin_key (nxp_common_request_processing p) = nxp_channel_symmetric_origin_key p;
  notify_origin_key e p :
    nxp_channel_symmetric_origin_key (nxp_channel_notify_event e p) = nxp_channel_symmetric_origin_key p;
  channel_notify_frame e p : nv_equiv (nxp_channel_notify_event e p) p;
  channel_notify_payg e p : payg_equiv (nxp_channel_notify_event e p) p;
  random_range p : is_u32 (nxp_channel_random_value p).1;
  random_origin_key p :
    nxp_channel_symmetric_origin_key (nxp_channel_random_value p).2 = nxp_channel_symmetric_origin_key p;
  random_frame p : nv_equiv (nxp_channel_random_value p).2 p;
  random_payg p : payg_equiv (nxp_channel_random_value p).2 p
}.

Lemma nv_update_origin_key {P} `{ProductLaws P} `{!ChannelProduct P} `{!ChannelProductLaws P} meta inner (p p' : P) b :
  meta_ok meta → inner_ok meta inner → nexus_nv_update meta inner p = Some (b, p') →
  nxp_channel_symmetric_origin_key p' = nxp_channel_symmetric_origin_key p.
Proof.
  intros Hm Hi. rewrite nexus_nv_update_cases by done.
  destruct (nxp_common_nv_read meta (replicate 40 0) p) as [found old].
  case_match; [by intros [= _ <-]|]. intros Heq. apply (inj Some) in Heq.
  rewrite <- (write_origin_key meta (nv_block meta inner ++ replicate (36 - length inner) 0) p).
  by rewrite Heq.
Qed.

(** ** The sample product: one key for both, no display of events *)

#[export] Instance desktop_channel : ChannelProduct desktop := {|
  nxp_channel_symmetric_origin_key := desktop_secret_key;
  nxp_channel_notify_event := λ _ d, d;
  nxp_channel_get_nexus_id := λ d, mk_nx_id 0 (d_serial_id d);
  nxp_channel_random_value := λ d, (12345678, d);
  nxp_channel_network_send := λ _ _ _ _ d, d
|}.

#[export] Instance desktop_channel_laws : ChannelProductLaws desktop.
Proof.
  split; try done.
  - intros d. exact (secret_key_ok d).
  - intros d. exact (secret_key_length d).
Qed.
