(* ===== verification/ChannelEndpoint.v ===== *)
(** * Nexus IDs as network addresses (nexus_oc_wrapper.c)

    The CoAP stack addresses devices by link-local IPv6 addresses; the wrapper
    makes them from Nexus IDs in the manner of EUI-64 and back, and hands
    bytes from and to the product's network under Nexus IDs. *)

From S2P Require Import Prelude Siphash Check Product DesktopProduct Channel.
Local Open Scope Z_scope.
Local Open Scope c_scope.

Definition IPV6 : Z := 8.
Definition MULTICAST : Z := 64.
Definition OIC_VER_1_1_0 : Z := 2112.

(** The members of [oc_endpoint_t] the wrapper uses; the address is that of
    the IPv6 member of the union. *)
Record oc_endpoint_t := mk_oc_endpoint {
  ep_flags : Z;
  ep_port : Z;
  ep_address : list Z;
  ep_scope : Z;
  ep_version : Z
}.

Definition NEXUS_OC_WRAPPER_MULTICAST_NX_ID : nx_id := mk_nx_id 0xFF00 0x158.

Definition NEXUS_OC_WRAPPER_MULTICAST_OC_ENDPOINT_T_ADDR : oc_endpoint_t :=
  mk_oc_endpoint (IPV6 .| MULTICAST) 5683 [0xff; 0x02; 0; 0; 0; 0; 0; 0; 0; 0; 0; 0; 0; 0; 0x01; 0x58] 2 0.

Definition nexus_oc_wrapper_oc_endpoint_to_nx_id (input_ep : oc_endpoint_t) : option nx_id :=
  let address := ep_address input_ep in
  a10 ← aget address 10; a13 ← aget address 13; a14 ← aget address 14; a15 ← aget address 15;
  a8 ← aget address 8; a9 ← aget address 9;
  Some (mk_nx_id (u16 (((a8 .^ 0x02) ≪ 8) .| a9))
          (u32 (u32 (a10 ≪ 24) .| u32 (a13 ≪ 16) .| u32 (a14 ≪ 8) .| u32 a15))).

Definition nexus_oc_wrapper_nx_id_to_oc_endpoint (input_id : nx_id) : option oc_endpoint_t :=
  let ipv6_interface_addr := [0; 0; 0; 0xFF; 0xFE; 0; 0; 0] in
  let authority_id_big_endian := nexus_endian_htobe16 (authority_id input_id) in
  let device_id_big_endian := nexus_endian_htobe32 (device_id input_id) in
  addr ← memcpy_at ipv6_interface_addr 0 (le_bytes 2 authority_id_big_endian);
  a0 ← aget addr 0;
  addr ← aset addr 0 (a0 .^ 0x02);
  addr ← aset addr 2 (u8 (device_id_big_endian .& 0xff));
  addr ← aset addr 5 (u8 ((device_id_big_endian ≫ 8) .& 0xff));
  addr ← aset addr 6 (u8 ((device_id_big_endian ≫ 16) .& 0xff));
  addr ← aset addr 7 (u8 ((device_id_big_endian ≫ 24) .& 0xff));
  address ← aset (replicate 16 0) 0 0xFE;
  address ← aset address 1 0x80;
  address ← memcpy_at address 8 addr;
  let flags := 0 .| IPV6 in
  let flags := if bool_decide (input_id = NEXUS_OC_WRAPPER_MULTICAST_NX_ID) then flags .| MULTICAST else flags in
  Some (mk_oc_endpoint flags 5683 address 2 OIC_VER_1_1_0).

Definition nx_id_ok (id : nx_id) : Prop := is_u16 (authority_id id) ∧ is_u32 (device_id id).

(** ** The product's network *)

Definition NEXUS_CHANNEL_MAX_COAP_TOTAL_MESSAGE_SIZE : Z := 120.

(** The parts of the vendored CoAP stack the library calls: buffers for
    messages, the event that hands one over, and the client side of a POST to
    the handshake resource of all devices.  The number in [oc_init_post] stands
    for the pointer the response's callback gets. *)
Class OcStack (P : Type) := {
  oc_allocate_message : P → bool * P;
  oc_network_event : list Z → oc_endpoint_t → P → P;
  oc_ri_get_client_cb : P → bool;
  oc_ri_remove_client_cb : P → P;
  oc_init_post : Z → P → bool * P;
  oc_do_post : list Z → Z → Z → P → bool * P
}.

(** The stack keeps what it stores away from the product's NV, keys and
    credit. *)
Record unnoticed {P} `{Product P} `{!ChannelProduct P} (p p' : P) : Prop := mk_unnoticed {
  unnoticed_nv : nv_equiv p' p;
  unnoticed_payg : payg_equiv p' p;
  unnoticed_key : nxp_channel_symmetric_origin_key p' = nxp_channel_symmetric_origin_key p
}.

#[export] Instance unnoticed_preorder {P} `{Product P} `{!ChannelProduct P} : PreOrder (unnoticed (P := P)).
Proof.
  split; [by split|]. intros p q r [] []. split; [by etransitivity|by etransitivity|congruence].
Qed.

Class OcStackLaws (P : Type) `{Product P} `{!ChannelProduct P} `{!OcStack P} := {
  remove_client_cb_unnoticed p : unnoticed p (oc_ri_remove_client_cb p);
  init_post_unnoticed i p : unnoticed p (oc_init_post i p).2;
  do_post_unnoticed cD cM lS p : unnoticed p (oc_do_post cD cM lS p).2
}.

Section Network.
Context {P : Type} `{Product P} `{!ChannelProduct P} `{!OcStack P}.

(** [None] is a null pointer. *)
Definition nx_channel_network_receive (bytes_received : option (list Z)) (bytes_count : Z) (source : nx_id)
    : M P nx_channel_error :=
  match bytes_received with
  | None => mret NX_CHANNEL_ERROR_UNSPECIFIED
  | Some bytes =>
    if bytes_count =? 0 then mret NX_CHANNEL_ERROR_UNSPECIFIED
    else if NEXUS_CHANNEL_MAX_COAP_TOTAL_MESSAGE_SIZE <? bytes_count then mret NX_CHANNEL_ERROR_MESSAGE_TOO_LARGE
    else
      message ← (λ p, Some (oc_allocate_message p));
      if negb message then mret NX_CHANNEL_ERROR_UNSPECIFIED
      else
        data ← lift (slice bytes 0 (Z.to_nat bytes_count));
        source_endpoint ← lift (nexus_oc_wrapper_nx_id_to_oc_endpoint source);
        modify (oc_network_event data source_endpoint);;
        request_processing;;
        mret NX_CHANNEL_ERROR_NONE
  end.

(** An [oc_message_t]: the whole buffer, the length of the message in it. *)
Record oc_message_t := mk_oc_message { msg_data : list Z; msg_length : Z; msg_endpoint : oc_endpoint_t }.

Definition _nexus_oc_wrapper_inner_network_send (message : oc_message_t) (is_multicast : bool) : M P Z :=
  source_nx_id ← gets nxp_channel_get_nexus_id;
  dest_id ← (if is_multicast then mret NEXUS_OC_WRAPPER_MULTICAST_NX_ID
             else lift (nexus_oc_wrapper_oc_endpoint_to_nx_id (msg_endpoint message)));
  if NEXUS_CHANNEL_MAX_COAP_TOTAL_MESSAGE_SIZE <? msg_length message then mret 1
  else
    data ← lift (slice (msg_data message) 0 (Z.to_nat (msg_length message)));
    modify (nxp_channel_network_send data source_nx_id dest_id is_multicast);;
    mret 0.

Definition oc_send_buffer (message : oc_message_t) : M P Z :=
  let ep := msg_endpoint message in
  let message := {| message with msg_endpoint := {| ep with ep_flags := ep_flags ep .| IPV6 |} |} in
  _nexus_oc_wrapper_inner_network_send message (negb (ep_flags (msg_endpoint message) .& MULTICAST =? 0)).

Definition oc_send_discovery_request (message : oc_message_t) : M P unit :=
  _ ← oc_send_buffer message; mret tt.
End Network.

(** ** Facts *)

Lemma byte_of x k : 0 ≤ k → u8 ((x ≫ k) .& 0xff) = (x / 2 ^ k) mod 256.
Proof.
  intros Hk. change 0xff with (Z.ones 8). rewrite land_ones_mod, Z.shiftr_div_pow2 by lia. unfold u8.
  change (2 ^ 8) with 256. by rewrite Zmod_mod.
Qed.

(** The address of a device. *)
Definition link_local (id : nx_id) : list Z :=
  let d := device_id id in
  [0xFE; 0x80; 0; 0; 0; 0; 0; 0; (authority_id id / 256) .^ 2; authority_id id mod 256;
   d / 16777216; 0xFF; 0xFE; d / 65536 mod 256; d / 256 mod 256; d mod 256].

Lemma nx_id_to_endpoint_spec id :
  nx_id_ok id →
  ∃ ep, nexus_oc_wrapper_nx_id_to_oc_endpoint id = Some ep ∧ ep_address ep = link_local id ∧
    ep_port ep = 5683 ∧ ep_scope ep = 2 ∧ ep_version ep = OIC_VER_1_1_0 ∧
    ep_flags ep = (if bool_decide (id = NEXUS_OC_WRAPPER_MULTICAST_NX_ID) then 72 else 8).
Proof.
  intros [Ha Hd]. unfold nexus_oc_wrapper_nx_id_to_oc_endpoint. cbv zeta.
  rewrite htobe16_val by done. set (b := nexus_endian_htobe32 (device_id id)).
  pose proof (htobe32_bytes (device_id id) Hd) as Hbytes. fold b in Hbytes.
  cbn [le_bytes rev app] in Hbytes. rewrite !Z.div_div in Hbytes by lia. change (256 * 256) with 65536 in Hbytes.
  change (65536 * 256) with 16777216 in Hbytes. change (256 * 65536) with 16777216 in Hbytes.
  injection Hbytes as H0 H1 H2 H3. clearbody b.
  rewrite memcpy_at_in by (rewrite le_bytes_length; cbn; lia). cbn [mbind option_bind le_bytes length take app drop Nat.add].
  aget_literal.
  repeat (rewrite aset_in by (rewrite ?length_insert; cbn; lia); cbn [mbind option_bind]).
  rewrite memcpy_at_in by (rewrite ?length_insert; cbn; lia). cbn [mbind option_bind].
  eexists. split; [reflexivity|]. cbn [ep_address ep_port ep_scope ep_version ep_flags].
  split; [|split_and!; [done..|by case_bool_decide]].
  rewrite !byte_of by lia. change (b .& 0xff) with ((b ≫ 0) .& 0xff) at 1. rewrite byte_of by lia. pow_const.
  unfold link_local. cbv zeta.
  change (Z.to_nat 0) with 0%nat. change (Z.to_nat 1) with 1%nat. change (Z.to_nat 2) with 2%nat.
  change (Z.to_nat 5) with 5%nat. change (Z.to_nat 6) with 6%nat. change (Z.to_nat 7) with 7%nat.
  cbn [insert list_insert replicate take drop app length Nat.add].
  change (2 ^ 0) with 1. rewrite Z.div_1_r, H0, H1, H2, H3. unfold is_u16, is_u32 in *.
  assert (Hhi : (authority_id id mod 256 * 256 + authority_id id / 256) mod 256 = authority_id id / 256) by lia.
  assert (Hlo : (authority_id id mod 256 * 256 + authority_id id / 256) / 256 mod 256 = authority_id id mod 256) by lia.
  assert (Hd3 : device_id id / 16777216 mod 256 = device_id id / 16777216) by lia.
  by rewrite Hhi, Hlo, Hd3.
Qed.

Lemma lxor_2_range x : is_u8 x → is_u8 (x .^ 2).
Proof. intros Hx. apply (lxor_range x 2 8); cbn; wrap. Qed.

(** Four bytes, most significant first. *)
Lemma be_word a b c d :
  is_u8 a → is_u8 b → is_u8 c → is_u8 d →
  u32 (u32 (a ≪ 24) .| u32 (b ≪ 16) .| u32 (c ≪ 8) .| u32 d) = a * 16777216 + b * 65536 + c * 256 + d.
Proof.
  intros Ha Hb Hc Hd. rewrite !Z.shiftl_mul_pow2 by lia. pow_const. rewrite !(u32_small (_ * _)), (u32_small d) by wrap.
  rewrite (Z.lor_comm (a * 16777216)). change 16777216 with (2 ^ 24) at 1. rewrite <- Z.shiftl_mul_pow2 by lia.
  rewrite lor_shiftl_add by (pow_const; wrap). pow_const.
  rewrite (Z.lor_comm _ (c * 256)). replace (b * 65536 + a * 16777216) with ((b + a * 256) ≪ 16)
    by (rewrite Z.shiftl_mul_pow2 by lia; pow_const; lia).
  rewrite lor_shiftl_add by (pow_const; wrap). pow_const.
  rewrite (Z.lor_comm _ d). replace (c * 256 + (b + a * 256) * 65536) with ((c + b * 256 + a * 65536) ≪ 8)
    by (rewrite Z.shiftl_mul_pow2 by lia; pow_const; lia).
  rewrite lor_shiftl_add by (pow_const; wrap). pow_const. rewrite u32_small by wrap. lia.
Qed.

(** the network address of a device gives its ID back, and only the ID of
    the multicast group gets a multicast endpoint. *)
Theorem endpoint_round_trip id :
  nx_id_ok id →
  ∃ ep, nexus_oc_wrapper_nx_id_to_oc_endpoint id = Some ep ∧
    nexus_oc_wrapper_oc_endpoint_to_nx_id ep = Some id ∧
    (ep_flags ep .& MULTICAST ≠ 0 ↔ id = NEXUS_OC_WRAPPER_MULTICAST_NX_ID).
Proof.
  intros Hid. destruct (nx_id_to_endpoint_spec id Hid) as (ep & Hrun & Hadr & _ & _ & _ & Hfl).
  exists ep. split; [done|]. split.
  - unfold nexus_oc_wrapper_oc_endpoint_to_nx_id. rewrite Hadr. unfold link_local. cbv zeta. aget_literal.
    destruct id as [a d]. destruct Hid as [Ha Hd]. cbn [authority_id device_id] in *. do 2 f_equal.
    + rewrite Z.lxor_assoc, Z.lxor_nilpotent, Z.lxor_0_r, Z.lor_comm, (lor_shiftl_add _ _ 8) by (pow_const; wrap).
      pow_const. wrap.
    + rewrite be_word by wrap. wrap.
  - rewrite Hfl. case_bool_decide; split; try done.
Qed.
