(* ===== verification/ChannelOm.v ===== *)
(** * The origin manager (nexus_channel_om.c)

    A controller receives origin commands as strings of ASCII digits.  The
    digits before the last six are shifted by pseudorandom digits that depend
    on the last six; the command names no ID, so the manager looks for an
    unused ID of its window under which the command is authentic, hands the
    command to the core ([OmEnv]), and marks the ID as used.

    The window works on the flags of [_nexus_om_stored] in place; here the
    flags are copied back. *)


From S2P Require Import Prelude Crc Siphash Digits Window Check NvBlock Product DesktopProduct Nv Channel.
Local Open Scope Z_scope.
Local Open Scope c_scope.

Definition NEXUS_CHANNEL_OM_RECEIVE_WINDOW_BEFORE_CENTER_INDEX : Z := 31.
Definition NEXUS_CHANNEL_OM_RECEIVE_WINDOW_AFTER_CENTER_INDEX : Z := 8.
Definition NEXUS_CHANNEL_OM_MAX_RECEIVE_FLAG_BYTE : nat := 4.
Definition NEXUS_CHANNEL_OM_FIXED_MAC_DIGIT_COUNT : Z := 6.
Definition NEXUS_CHANNEL_OM_COMMAND_ASCII_DIGITS_MAX_LENGTH : Z := 20.
Definition NEXUS_CHANNEL_OM_COMMAND_BEARER_MAX_BYTES_TO_AUTH : nat := 15.

(** [_nexus_om_stored], eight packed bytes. *)
Record nexus_om_stored := mk_om_stored { command_index : Z; received_ids : list Z }.

Definition om_stored_bytes (st : nexus_om_stored) : list Z := le_bytes 4 (command_index st) ++ received_ids st.
Definition om_stored_of_bytes (b : list Z) : nexus_om_stored := mk_om_stored (le_val (take 4 b)) (drop 4 b).

(** ** Parsing *)

Definition _nexus_channel_om_ascii_validate_command_type (type_int : Z) : nexus_channel_om_command_type :=
  if (om_type_code NEXUS_CHANNEL_OM_COMMAND_TYPE_ACCESSORY_ACTION_UNLINK <? type_int) &&
     negb (type_int =? om_type_code NEXUS_CHANNEL_OM_COMMAND_TYPE_CREATE_ACCESSORY_LINK_MODE_3)
  then NEXUS_CHANNEL_OM_COMMAND_TYPE_INVALID
  else if type_int =? 0 then NEXUS_CHANNEL_OM_COMMAND_TYPE_GENERIC_CONTROLLER_ACTION
  else if type_int =? 1 then NEXUS_CHANNEL_OM_COMMAND_TYPE_ACCESSORY_ACTION_UNLOCK
  else if type_int =? 2 then NEXUS_CHANNEL_OM_COMMAND_TYPE_ACCESSORY_ACTION_UNLINK
  else NEXUS_CHANNEL_OM_COMMAND_TYPE_CREATE_ACCESSORY_LINK_MODE_3.

Definition _nexus_channel_om_ascii_extract_body_controller_action (body : nexus_channel_om_command_body)
    : M nexus_digits (bool * nexus_channel_om_command_body) :=
  action ← nexus_digits_pull_uint8 2;
  remaining ← gets nexus_digits_remaining;
  mret (negb (action =? UINT8_MAX) && (0 <? remaining), {| body with action_type := action |}).

Definition _nexus_channel_om_ascii_extract_body_accessory_action (body : nexus_channel_om_command_body)
    : M nexus_digits (bool * nexus_channel_om_command_body) :=
  let body := {| body with trunc_digits_count := 1 |} in
  '(digits_int, underrun) ← nexus_digits_try_pull_uint32 (trunc_digits_count body) false;
  remaining ← gets nexus_digits_remaining;
  mret (negb underrun && (0 <? remaining), {| body with trunc_digits_int := digits_int |}).

Definition _nexus_channel_om_ascii_extract_body_create_link (body : nexus_channel_om_command_body)
    : M nexus_digits (bool * nexus_channel_om_command_body) :=
  '(challenge, underrun) ← nexus_digits_try_pull_uint32 6 false;
  remaining ← gets nexus_digits_remaining;
  mret (negb underrun && (0 <? remaining), {| body with accessory_challenge := challenge |}).

Fixpoint om_mathmod10_loop (fuel : nat) (x : Z) : option Z :=
  match fuel with
  | O => None
  | S fuel => if x <? 0 then om_mathmod10_loop fuel (x + 10) else Some x
  end.
Definition om_mathmod10 (x : Z) : option Z := x ← om_mathmod10_loop 32 x; Some (u8 (u32 x mod 10)).

(** One turn of the loop over the digits that are not the check's. *)
Definition om_deinterleave_body (interleaved prng_bytes : list Z) (i : Z) (chars : list Z) : option (list Z) :=
  body_char ← aget interleaved i;
  perturbation ← aget prng_bytes i;
  let body_digit := u8 (body_char - 48) in
  out_digit ← om_mathmod10 (body_digit - perturbation);
  aset chars i (out_digit + 48).

Definition _nexus_channel_om_deinterleave_digits (interleaved deinterleaved : nexus_digits) (check_value : Z)
    : option nexus_digits :=
  let non_mac_digit_count := u8 (dg_length interleaved - NEXUS_CHANNEL_OM_FIXED_MAC_DIGIT_COUNT) in
  prng_bytes ← nexus_check_compute_pseudorandom_bytes NEXUS_INTEGRITY_CHECK_FIXED_00_KEY
                 (le_bytes 4 check_value) 4 non_mac_digit_count;
  chars ← for_loop (Z.to_nat non_mac_digit_count) 0 (om_deinterleave_body (dg_chars interleaved) prng_bytes)
            (dg_chars deinterleaved);
  mac ← slice (dg_chars interleaved) (Z.to_nat non_mac_digit_count) (Z.to_nat NEXUS_CHANNEL_OM_FIXED_MAC_DIGIT_COUNT);
  chars ← memcpy_at chars (Z.to_nat non_mac_digit_count) mac;
  Some {| deinterleaved with dg_chars := chars |}.

(** [garbage] is what the local array of digits holds; the result is the
    success flag and the message. *)
Definition _nexus_channel_om_ascii_parse_message (garbage : list Z) (command_digits : nexus_digits)
    (message : nexus_channel_om_command_message) : option (bool * nexus_channel_om_command_message) :=
  let digits_remaining := u8 (nexus_digits_remaining command_digits) in
  if digits_remaining <=? NEXUS_CHANNEL_OM_FIXED_MAC_DIGIT_COUNT then Some (false, message)
  else
    let command_digits :=
      {| command_digits with dg_position := u16 (dg_length command_digits - NEXUS_CHANNEL_OM_FIXED_MAC_DIGIT_COUNT) |} in
    '((auth, underrun), command_digits) ←
      nexus_digits_try_pull_uint32 NEXUS_CHANNEL_OM_FIXED_MAC_DIGIT_COUNT false command_digits;
    let message := {| message with om_auth := auth |} in
    let deinterleaved := nexus_digits_init (take (Z.to_nat NEXUS_CHANNEL_OM_COMMAND_ASCII_DIGITS_MAX_LENGTH) garbage)
                           (dg_length command_digits) in
    deinterleaved ← _nexus_channel_om_deinterleave_digits command_digits deinterleaved auth;
    '(command_type_int, deinterleaved) ← nexus_digits_pull_uint8 1 deinterleaved;
    let message := {| message with om_type := _nexus_channel_om_ascii_validate_command_type command_type_int |} in
    '((parsed, body), deinterleaved) ←
      match om_type message with
      | NEXUS_CHANNEL_OM_COMMAND_TYPE_GENERIC_CONTROLLER_ACTION =>
        _nexus_channel_om_ascii_extract_body_controller_action (om_body message) deinterleaved
      | NEXUS_CHANNEL_OM_COMMAND_TYPE_ACCESSORY_ACTION_UNLOCK
      | NEXUS_CHANNEL_OM_COMMAND_TYPE_ACCESSORY_ACTION_UNLINK =>
        _nexus_channel_om_ascii_extract_body_accessory_action (om_body message) deinterleaved
      | NEXUS_CHANNEL_OM_COMMAND_TYPE_CREATE_ACCESSORY_LINK_MODE_3 =>
        _nexus_channel_om_ascii_extract_body_create_link (om_body message) deinterleaved
      | NEXUS_CHANNEL_OM_COMMAND_TYPE_INVALID => Some ((false, om_body message), deinterleaved)
      end;
    Some (negb underrun && (parsed : bool) &&
          (nexus_digits_remaining deinterleaved =? NEXUS_CHANNEL_OM_FIXED_MAC_DIGIT_COUNT),
          with_body body message).

(** ** Authentication *)

Definition _nexus_channel_om_ascii_auth_arbitrary_bytes (bytes : list Z) (bytes_count : Z) (key : list Z) : option Z :=
  check_val ← nexus_check_compute key bytes bytes_count;
  v ← nexus_check_value_as_uint64 check_val;
  Some ((v .& 0xffffffff) mod 1000000).

(** The accessories a command may be for, in the order the code tries them:
    constants that stand for the linked accessories. *)
Definition accessories_list : list nx_id :=
  [mk_nx_id 0x9041 0x00000019; mk_nx_id 0x0102 0x94837158; mk_nx_id 0x0111 0x92873891].

(** One turn of the loop over the accessories. *)
Definition accessory_turn (message : nexus_channel_om_command_message) (origin_key : list Z) (mod_ : Z) (acc : nx_id)
    (x : list Z * Z * nexus_channel_om_command_message * bool)
    : option (list Z * Z * nexus_channel_om_command_message * bool) :=
  let '(compute_bytes, bytes_count, m, success) := x in
  if negb (device_id acc mod mod_ =? trunc_digits_int (om_body message)) then Some x
  else
    compute_bytes ← memcpy_at compute_bytes 5 (le_bytes 2 (nexus_endian_htole16 (authority_id acc)));
    let bytes_count := u8 (bytes_count + 2) in
    compute_bytes ← memcpy_at compute_bytes 7 (le_bytes 4 (nexus_endian_htole32 (device_id acc)));
    let bytes_count := u8 (bytes_count + 4) in
    computed_check ← _nexus_channel_om_ascii_auth_arbitrary_bytes compute_bytes bytes_count origin_key;
    if computed_check =? om_auth message
    then Some (compute_bytes, bytes_count, with_accessory acc m, true)
    else Some (compute_bytes, u8 (bytes_count - 6), m, success).

Fixpoint accessory_loop (message : nexus_channel_om_command_message) (origin_key : list Z) (mod_ : Z) (accs : list nx_id)
    (x : list Z * Z * nexus_channel_om_command_message * bool)
    : option (list Z * Z * nexus_channel_om_command_message * bool) :=
  match accs with
  | [] => Some x
  | acc :: accs => x ← accessory_turn message origin_key mod_ acc x; accessory_loop message origin_key mod_ accs x
  end.

(** The bytes from the fifth on, and the comparison, of a command whose body
    is one number. *)
Definition auth_number (compute_bytes : list Z) (n auth : Z) (origin_key : list Z) : option bool :=
  compute_bytes ← memcpy_at compute_bytes 5 (le_bytes 4 (nexus_endian_htole32 n));
  computed_check ← _nexus_channel_om_ascii_auth_arbitrary_bytes compute_bytes (u8 (5 + 4)) origin_key;
  Some (computed_check =? auth).

Definition _nexus_channel_om_ascii_message_infer_inner_compute_auth
    (message : nexus_channel_om_command_message) (origin_key : list Z)
    : option (bool * nexus_channel_om_command_message) :=
  let compute_bytes := replicate NEXUS_CHANNEL_OM_COMMAND_BEARER_MAX_BYTES_TO_AUTH 0 in
  compute_bytes ← memcpy_at compute_bytes 0 (le_bytes 4 (nexus_endian_htole32 (computed_command_id message)));
  compute_bytes ← aset compute_bytes 4 (u8 (om_type_code (om_type message)));
  match om_type message with
  | NEXUS_CHANNEL_OM_COMMAND_TYPE_GENERIC_CONTROLLER_ACTION =>
    success ← auth_number compute_bytes (action_type (om_body message)) (om_auth message) origin_key;
    Some (success, message)
  | NEXUS_CHANNEL_OM_COMMAND_TYPE_ACCESSORY_ACTION_UNLOCK
  | NEXUS_CHANNEL_OM_COMMAND_TYPE_ACCESSORY_ACTION_UNLINK =>
    let trunc_digits_mod := if trunc_digits_count (om_body message) =? 1 then 10 else 0 in
    if trunc_digits_mod <? 10 then Some (false, message)
    else
      '(_, _, message, success) ←
        accessory_loop message origin_key trunc_digits_mod accessories_list (compute_bytes, 5, message, false);
      Some (success, message)
  | NEXUS_CHANNEL_OM_COMMAND_TYPE_CREATE_ACCESSORY_LINK_MODE_3 =>
    success ← auth_number compute_bytes (accessory_challenge (om_body message)) (om_auth message) origin_key;
    Some (success, message)
  | NEXUS_CHANNEL_OM_COMMAND_TYPE_INVALID => Some (false, message)
  end.

(** The loop over the IDs of the window; the result is [validated] and the
    message with the ID the loop stopped at. *)
Fixpoint om_infer_loop (fuel : nat) (w : nexus_window) (origin_key : list Z) (message : nexus_channel_om_command_message)
    : option (bool * nexus_channel_om_command_message) :=
  match fuel with
  | O => None
  | S fuel =>
    if nexus_util_window_id_within_window w (computed_command_id message) then
      already ← nexus_util_window_id_flag_already_set w (computed_command_id message);
      '(found, message) ←
        (if negb already then _nexus_channel_om_ascii_message_infer_inner_compute_auth message origin_key
         else Some (false, message));
      if (found : bool) then Some (true, message)
      else om_infer_loop fuel w origin_key (with_command_id (u32 (computed_command_id message + 1)) message)
    else Some (false, message)
  end.

Definition _nexus_channel_om_ascii_infer_fields_compute_auth (message : nexus_channel_om_command_message)
    (w : nexus_window) (origin_key : list Z) : option (bool * nexus_channel_om_command_message) :=
  om_infer_loop 42 w origin_key (with_command_id (u32 (center_index w - flags_below w)) message).

(** ** The environment *)

Class OmEnv (W P : Type) := {
  om_stored : W → nexus_om_stored;
  om_set_stored : nexus_om_stored → W → W;
  om_prod : W → P;
  om_set_prod : P → W → W;
  nexus_channel_core_apply_origin_command_env : nexus_channel_om_command_message → M W bool
}.

Section Om.
Context {W P : Type} `{Product P} `{!ChannelProduct P} `{!OmEnv W P}.

Definition on_om_prod {A} (m : M P A) : M W A := zoom om_prod om_set_prod m.
Definition om_modify (f : nexus_om_stored → nexus_om_stored) : M W unit :=
  modify (λ w, om_set_stored (f (om_stored w)) w).

(** [nexus_nv_read] into the stored structure. *)
Definition om_reload : M W unit :=
  st ← gets om_stored;
  '(_, b) ← on_om_prod (nexus_nv_read NX_NV_BLOCK_CHANNEL_OM (om_stored_bytes st));
  om_modify (λ _, om_stored_of_bytes b).

Definition nexus_channel_om_init : M W unit :=
  om_modify (λ st, {| st with command_index := NEXUS_CHANNEL_OM_RECEIVE_WINDOW_BEFORE_CENTER_INDEX |});;
  om_modify (λ st, {| st with received_ids := replicate (length (received_ids st)) 0 |});;
  om_reload.

Definition om_window (st : nexus_om_stored) : nexus_window :=
  nexus_util_window_init (received_ids st) NEXUS_CHANNEL_OM_MAX_RECEIVE_FLAG_BYTE (command_index st)
    NEXUS_CHANNEL_OM_RECEIVE_WINDOW_BEFORE_CENTER_INDEX NEXUS_CHANNEL_OM_RECEIVE_WINDOW_AFTER_CENTER_INDEX.

(** The window's flags are those of the stored structure. *)
Definition om_write_flags (w : nexus_window) (st : nexus_om_stored) : nexus_om_stored :=
  {| st with received_ids := flags w ++ drop (length (flags w)) (received_ids st) |}.

Definition _nexus_channel_om_ascii_apply_message (message : nexus_channel_om_command_message)
    : M W (bool * nexus_channel_om_command_message) :=
  origin_key ← gets (λ w, nxp_channel_symmetric_origin_key (om_prod w));
  om_reload;;
  st ← gets om_stored;
  let window := om_window st in
  '(validated, message) ← lift (_nexus_channel_om_ascii_infer_fields_compute_auth message window origin_key);
  if negb validated then mret (false, message)
  else
    applied ← nexus_channel_core_apply_origin_command_env message;
    if negb applied then mret (false, message)
    else
      '(_, window) ← lift (nexus_util_window_set_id_flag (computed_command_id message) window);
      om_modify (om_write_flags window);;
      om_modify (λ st, {| st with command_index := center_index window |});;
      st ← gets om_stored;
      _ ← on_om_prod (nexus_nv_update NX_NV_BLOCK_CHANNEL_OM (om_stored_bytes st));
      mret (true, message).

(** One turn of the loop that looks for characters that are not digits. *)
Definition ascii_digits_body (command_data : list Z) (i : Z) (ok : bool) : option bool :=
  if negb ok then Some false
  else c ← aget command_data i; Some (negb ((u8 c <? 0x30) || (0x39 <? u8 c))).

Definition _nexus_channel_om_handle_ascii_origin_command (garbage command_data : list Z) (command_length : Z) : M W bool :=
  if NEXUS_CHANNEL_OM_COMMAND_ASCII_DIGITS_MAX_LENGTH <? command_length then mret false
  else
    ascii ← lift (for_loop (Z.to_nat command_length) 0 (ascii_digits_body command_data) true);
    if negb ascii then mret false
    else
      let digit_chars := replicate (Z.to_nat NEXUS_CHANNEL_OM_COMMAND_ASCII_DIGITS_MAX_LENGTH) 0 in
      data ← lift (slice command_data 0 (Z.to_nat command_length));
      digit_chars ← lift (memcpy_at digit_chars 0 data);
      let command_digits := nexus_digits_init digit_chars (u16 command_length) in
      '(parsed, message) ← lift (_nexus_channel_om_ascii_parse_message garbage command_digits om_message_zero);
      if negb parsed then mret false
      else
        '(applied, _) ← _nexus_channel_om_ascii_apply_message message;
        mret applied.

Definition nx_channel_handle_origin_command (garbage command_data : list Z) (command_length : Z)
    : M W nx_channel_error :=
  parsed ← _nexus_channel_om_handle_ascii_origin_command garbage command_data command_length;
  if (parsed : bool) then mret NX_CHANNEL_ERROR_NONE else mret NX_CHANNEL_ERROR_ACTION_REJECTED.

Definition _nexus_channel_om_is_command_index_set (index : Z) : M W bool :=
  st ← gets om_stored;
  lift (nexus_util_window_id_flag_already_set (om_window st) index).

Definition _nexus_channel_om_is_command_index_in_window (index : Z) : M W bool :=
  st ← gets om_stored;
  let w := om_window st in
  mret (negb ((index <? u32 (center_index w - flags_below w)) || (u32 (center_index w + flags_above w) <? index))).
End Om.
