(* ===== verification/ChannelOmApply.v ===== *)
(** * The origin manager: what it accepts

    A command is authentic under an ID when its six check digits are the
    decimal SipHash check of ID, type and body under the origin key.  The
    manager applies a command under the lowest unused ID of its window under
    which it is authentic, and uses that ID up. *)


From S2P Require Import Prelude Crc Siphash Digits Window Check NvBlock Product DesktopProduct Nv Channel ChannelOm.
Local Open Scope Z_scope.
Local Open Scope c_scope.

(** ** Authentication *)

(** The six-digit check of a message. *)
Definition om_tag (key msg : list Z) : Z := (siphash_ref key msg mod 4294967296) mod 1000000.

(** The bytes that are authenticated. *)
Definition om_content (id : Z) (t : nexus_channel_om_command_type) (payload : list Z) : list Z :=
  le_bytes 4 id ++ om_type_code t :: payload.

Definition accessory_payload (acc : nx_id) : list Z := le_bytes 2 (authority_id acc) ++ le_bytes 4 (device_id acc).

(** [acc] is an accessory the command may be for. *)
Definition om_accessory (key : list Z) (m : nexus_channel_om_command_message) (id : Z) (acc : nx_id) : Prop :=
  acc ∈ accessories_list ∧ device_id acc mod 10 = trunc_digits_int (om_body m) ∧
  om_tag key (om_content id (om_type m) (accessory_payload acc)) = om_auth m.

(** The command is authentic under [id]; [m'] is the message with the fields
    that were not transmitted. *)
Definition om_resolved (key : list Z) (m : nexus_channel_om_command_message) (id : Z)
    (m' : nexus_channel_om_command_message) : Prop :=
  match om_type m with
  | NEXUS_CHANNEL_OM_COMMAND_TYPE_GENERIC_CONTROLLER_ACTION =>
    om_tag key (om_content id (om_type m) (le_bytes 4 (action_type (om_body m)))) = om_auth m ∧
    m' = with_command_id id m
  | NEXUS_CHANNEL_OM_COMMAND_TYPE_CREATE_ACCESSORY_LINK_MODE_3 =>
    om_tag key (om_content id (om_type m) (le_bytes 4 (accessory_challenge (om_body m)))) = om_auth m ∧
    m' = with_command_id id m
  | NEXUS_CHANNEL_OM_COMMAND_TYPE_ACCESSORY_ACTION_UNLOCK
  | NEXUS_CHANNEL_OM_COMMAND_TYPE_ACCESSORY_ACTION_UNLINK =>
    ∃ acc, om_accessory key m id acc ∧ m' = with_accessory acc (with_command_id id m)
  | NEXUS_CHANNEL_OM_COMMAND_TYPE_INVALID => False
  end.

Definition om_authentic (key : list Z) (m : nexus_channel_om_command_message) (id : Z) : Prop :=
  ∃ m', om_resolved key m id m'.

(** A message as the parser makes it. *)
Definition om_message_ok (m : nexus_channel_om_command_message) : Prop :=
  is_u32 (action_type (om_body m)) ∧ is_u32 (accessory_challenge (om_body m)) ∧
  (om_type m = NEXUS_CHANNEL_OM_COMMAND_TYPE_ACCESSORY_ACTION_UNLOCK ∨
   om_type m = NEXUS_CHANNEL_OM_COMMAND_TYPE_ACCESSORY_ACTION_UNLINK → trunc_digits_count (om_body m) = 1).

Lemma om_auth_bytes_spec bytes n key h :
  nexus_check_compute key bytes n = Some (le_bytes 8 h) →
  _nexus_channel_om_ascii_auth_arbitrary_bytes bytes n key = Some ((h mod 4294967296) mod 1000000).
Proof.
  intros E. unfold _nexus_channel_om_ascii_auth_arbitrary_bytes. rewrite E. cbn [mbind option_bind].
  rewrite check_value_uint64. cbn [mbind option_bind].
  change 0xffffffff with (Z.ones 32). rewrite land_ones_mod by lia.
  change (2 ^ 32) with 4294967296. change (2 ^ 64) with (4294967296 * 4294967296). do 2 f_equal.
  rewrite Z.rem_mul_r by lia. rewrite Z.mul_comm, Z.mod_add by lia. apply Z.mod_mod. lia.
Qed.

(** The check over the first bytes of the buffer. *)
Lemma om_tag_buffer key id t payload rest n :
  bytes_ok key → length key = 16%nat → bytes_ok payload → bytes_ok rest →
  n = Z.of_nat (5 + length payload) →
  _nexus_channel_om_ascii_auth_arbitrary_bytes (om_content id t payload ++ rest) n key =
  Some (om_tag key (om_content id t payload)).
Proof.
  intros Hk Hl Hp Hr ->. apply om_auth_bytes_spec.
  assert (Hc : bytes_ok (om_content id t payload)).
  { apply Forall_app_2; [apply le_bytes_ok|]. constructor; [by destruct t|done]. }
  assert (Hlen : length (om_content id t payload) = (5 + length payload)%nat)
    by (unfold om_content; rewrite length_app, le_bytes_length; cbn; lia).
  rewrite check_compute_spec; [|by apply Forall_app_2|done|lia|rewrite length_app; lia].
  rewrite Nat2Z.id, <- Hlen, take_app_length. done.
Qed.

#[global] Opaque om_tag.

(** The buffer with ID and type in place. *)
Definition om_buffer (id : Z) (t : nexus_channel_om_command_type) : list Z := om_content id t (replicate 10 0).

Lemma om_buffer_write id t off b payload :
  (off + length payload ≤ length b)%nat →
  memcpy_at (om_content id t b) (5 + off) payload =
  Some (om_content id t (take off b ++ payload ++ drop (off + length payload) b)).
Proof.
  intros Hlen. unfold om_content.
  by rewrite memcpy_at_in by (rewrite length_app, le_bytes_length; cbn [length]; lia).
Qed.

Lemma auth_number_spec key id t n auth :
  bytes_ok key → length key = 16%nat → is_u32 n →
  auth_number (om_buffer id t) n auth key = Some (om_tag key (om_content id t (le_bytes 4 n)) =? auth).
Proof.
  intros Hk Hl Hn. unfold auth_number, om_buffer. rewrite htole32_id by done.
  rewrite (om_buffer_write id t 0) by (rewrite le_bytes_length, length_replicate; lia).
  rewrite le_bytes_length. cbn [mbind option_bind take app drop Nat.add replicate].
  replace (om_content id t (le_bytes 4 n ++ [0; 0; 0; 0; 0; 0]))
    with (om_content id t (le_bytes 4 n) ++ replicate 6 0)
    by (unfold om_content; by rewrite <- app_assoc).
  rewrite om_tag_buffer; [|done|done|apply le_bytes_ok|apply zeros_ok|by rewrite le_bytes_length]. done.
Qed.

(** One accessory whose ID ends in the transmitted digit. *)
Lemma accessory_turn_spec key id m acc m0 s0 :
  bytes_ok key → length key = 16%nat → is_u16 (authority_id acc) → is_u32 (device_id acc) →
  ∃ b', accessory_turn m key 10 acc (om_buffer id (om_type m), 5, m0, s0) =
  Some (if device_id acc mod 10 =? trunc_digits_int (om_body m)
        then if om_tag key (om_content id (om_type m) (accessory_payload acc)) =? om_auth m
             then (b', 11, with_accessory acc m0, true) else (b', 5, m0, s0)
        else (om_buffer id (om_type m), 5, m0, s0)).
Proof.
  intros Hk Hl Ha Hd. unfold accessory_turn.
  destruct (_ =? trunc_digits_int (om_body m)); cbn [negb]; [|by eexists].
  unfold om_buffer. rewrite htole16_id, htole32_id by done.
  rewrite (om_buffer_write id _ 0) by (rewrite le_bytes_length, length_replicate; lia).
  rewrite le_bytes_length. cbn [mbind option_bind].
  rewrite (om_buffer_write id _ 2) by (rewrite !length_app, length_drop, length_replicate, !le_bytes_length; cbn; lia).
  rewrite le_bytes_length. cbn [mbind option_bind].
  replace (om_content id _ (take 2 _ ++ _ ++ _))
    with (om_content id (om_type m) (accessory_payload acc) ++ replicate 4 0)
    by (unfold om_content, accessory_payload; by rewrite <- !app_assoc).
  rewrite om_tag_buffer; [|done|done|apply Forall_app_2; apply le_bytes_ok|apply zeros_ok|done].
  cbn [mbind option_bind]. change (u8 (u8 (5 + 2) + 4)) with 11. change (u8 (11 - 6)) with 5.
  eexists. by destruct (_ =? om_auth m).
Qed.

Lemma accessory_turn_skip key m acc x :
  device_id acc mod 10 ≠ trunc_digits_int (om_body m) → accessory_turn m key 10 acc x = Some x.
Proof.
  intros Hne. unfold accessory_turn. destruct x as [[[b n] m0] s0].
  by rewrite (proj2 (Z.eqb_neq _ _) Hne).
Qed.

Lemma accessory_loop_skip key m accs x :
  (∀ acc, acc ∈ accs → device_id acc mod 10 ≠ trunc_digits_int (om_body m)) →
  accessory_loop m key 10 accs x = Some x.
Proof.
  induction accs as [|acc accs IH]; intros Hall; [done|]. cbn [accessory_loop].
  rewrite accessory_turn_skip by (apply Hall; left). cbn [mbind option_bind].
  apply IH. intros acc' Hin. apply Hall. by right.
Qed.

Lemma accessory_loop_single key m accs acc x :
  NoDup accs → acc ∈ accs →
  (∀ acc', acc' ∈ accs → acc' ≠ acc → device_id acc' mod 10 ≠ trunc_digits_int (om_body m)) →
  accessory_loop m key 10 accs x = accessory_turn m key 10 acc x.
Proof.
  intros Hnd Hin Hall. induction Hnd as [|a accs Ha Hnd IH]; [by apply not_elem_of_nil in Hin|].
  cbn [accessory_loop]. apply elem_of_cons in Hin as [->|Hin].
  - destruct (accessory_turn m key 10 a x) as [y|]; [|done]. cbn [mbind option_bind].
    apply accessory_loop_skip. intros acc' Hin'. apply Hall; [by right|]. by intros ->.
  - rewrite accessory_turn_skip; [|apply Hall; [left|by intros ->]]. cbn [mbind option_bind].
    apply IH; [done|]. intros acc' Hin'. apply Hall. by right.
Qed.

Lemma accessories_nodup : NoDup accessories_list.
Proof. apply (bool_decide_unpack _). by vm_compute. Qed.

(** No two accessories of the list end in the same digit, so at most one is
    tried. *)
Lemma accessory_loop_spec key id m :
  bytes_ok key → length key = 16%nat →
  ∃ b n found m',
    accessory_loop m key 10 accessories_list (om_buffer id (om_type m), 5, m, false) = Some (b, n, m', found) ∧
    if (found : bool) then ∃ acc, om_accessory key m id acc ∧ m' = with_accessory acc m
    else m' = m ∧ ∀ acc, ¬ om_accessory key m id acc.
Proof.
  intros Hk Hl.
  destruct (decide (Exists (λ acc, device_id acc mod 10 = trunc_digits_int (om_body m)) accessories_list))
    as [Hex|Hno].
  - apply Exists_exists in Hex as (acc & Hin & Hdig).
    assert (Hrange : is_u16 (authority_id acc) ∧ is_u32 (device_id acc)).
    { revert Hin. unfold accessories_list. rewrite !elem_of_cons, elem_of_nil.
      intros [->|[->|[->|[]]]]; vm_compute; intuition discriminate. }
    destruct Hrange as [Ha Hd].
    destruct (accessory_turn_spec key id m acc m false Hk Hl Ha Hd) as (b & Hturn).
    rewrite (proj2 (Z.eqb_eq _ _) Hdig) in Hturn.
    assert (Huniq : ∀ acc', acc' ∈ accessories_list → device_id acc' mod 10 = trunc_digits_int (om_body m) → acc' = acc).
    { intros acc' Hin' Hdig'. revert Hin Hin' Hdig Hdig'. clear. unfold accessories_list.
      rewrite !elem_of_cons, !elem_of_nil.
      intros [->|[->|[->|[]]]] [->|[->|[->|[]]]] Hdig Hdig'; try reflexivity;
        exfalso; rewrite <- Hdig in Hdig'; vm_compute in Hdig'; discriminate Hdig'. }
    assert (Hloop : accessory_loop m key 10 accessories_list (om_buffer id (om_type m), 5, m, false) =
                    accessory_turn m key 10 acc (om_buffer id (om_type m), 5, m, false)).
    { apply accessory_loop_single; [apply accessories_nodup|done|].
      intros acc' Hin' Hne Hd'. by apply Hne, Huniq. }
    rewrite Hloop, Hturn.
    destruct (Z.eqb_spec (om_tag key (om_content id (om_type m) (accessory_payload acc))) (om_auth m)) as [He|He].
    + exists b, 11, true, (with_accessory acc m). split; [reflexivity|]. exists acc.
      split; [|reflexivity]. split; [exact Hin|]. split; [exact Hdig|exact He].
    + exists b, 5, false, m. split; [reflexivity|]. split; [reflexivity|]. intros acc' (Hin' & Hd' & Ht').
      apply He. rewrite <- (Huniq acc' Hin' Hd'). exact Ht'.
  - exists (om_buffer id (om_type m)), 5, false, m. split.
    + apply accessory_loop_skip. intros acc Hin Hd. apply Hno, Exists_exists. by exists acc.
    + split; [reflexivity|]. intros acc (Hin & Hd & _). apply Hno, Exists_exists. by exists acc.
Qed.

(** The authentication under the ID of the message. *)
Lemma om_inner_compute_auth_spec key m id :
  bytes_ok key → length key = 16%nat → om_message_ok m → is_u32 id →
  ∃ found m',
    _nexus_channel_om_ascii_message_infer_inner_compute_auth (with_command_id id m) key = Some (found, m') ∧
    if (found : bool) then om_resolved key m id m' else m' = with_command_id id m ∧ ¬ om_authentic key m id.
Proof.
  intros Hk Hl (Hact & Hch & Hcount) Hid. unfold _nexus_channel_om_ascii_message_infer_inner_compute_auth.
  change (computed_command_id (with_command_id id m)) with id. change (om_type (with_command_id id m)) with (om_type m).
  change (om_body (with_command_id id m)) with (om_body m). change (om_auth (with_command_id id m)) with (om_auth m).
  rewrite htole32_id by done. unfold NEXUS_CHANNEL_OM_COMMAND_BEARER_MAX_BYTES_TO_AUTH.
  rewrite memcpy_at_in by (rewrite le_bytes_length, length_replicate; lia). rewrite le_bytes_length.
  cbn [mbind option_bind take app drop Nat.add replicate].
  assert (Hu8 : u8 (om_type_code (om_type m)) = om_type_code (om_type m)) by (by destruct (om_type m)).
  rewrite Hu8. rewrite aset_in by (rewrite length_app, le_bytes_length; cbn; lia).
  change (Z.to_nat 4) with (length (le_bytes 4 id) + 0)%nat. rewrite insert_app_r.
  cbn [insert list_insert mbind option_bind].
  change (le_bytes 4 id ++ _) with (om_buffer id (om_type m)).
  unfold om_authentic, om_resolved.
  destruct (om_type m) eqn:Ht.
  - rewrite auth_number_spec by done. cbn [mbind option_bind]. eexists _, _. split; [reflexivity|].
    destruct (Z.eqb_spec (om_tag key (om_content id NEXUS_CHANNEL_OM_COMMAND_TYPE_GENERIC_CONTROLLER_ACTION
      (le_bytes 4 (action_type (om_body m))))) (om_auth m)) as [He|He]; [by split|].
    split; [reflexivity|]. intros (? & Heq & _). exact (He Heq).
  - rewrite Hcount by auto. cbn [Z.eqb Z.ltb Z.compare Pos.eqb Pos.compare Pos.compare_cont].
    destruct (accessory_loop_spec key id (with_command_id id m) Hk Hl) as (b & n & found & m' & Hloop & Hres).
    change (om_type (with_command_id id m)) with (om_type m) in Hloop. rewrite Ht in Hloop. rewrite Hloop.
    cbn [mbind option_bind]. eexists _, _. split; [reflexivity|]. destruct found; [exact Hres|].
    destruct Hres as [-> Hno]. split; [reflexivity|]. intros (m'' & acc & Hacc & _). exact (Hno acc Hacc).
  - rewrite Hcount by auto. cbn [Z.eqb Z.ltb Z.compare Pos.eqb Pos.compare Pos.compare_cont].
    destruct (accessory_loop_spec key id (with_command_id id m) Hk Hl) as (b & n & found & m' & Hloop & Hres).
    change (om_type (with_command_id id m)) with (om_type m) in Hloop. rewrite Ht in Hloop. rewrite Hloop.
    cbn [mbind option_bind]. eexists _, _. split; [reflexivity|]. destruct found; [exact Hres|].
    destruct Hres as [-> Hno]. split; [reflexivity|]. intros (m'' & acc & Hacc & _). exact (Hno acc Hacc).
  - rewrite auth_number_spec by done. cbn [mbind option_bind]. eexists _, _. split; [reflexivity|].
    destruct (Z.eqb_spec (om_tag key (om_content id NEXUS_CHANNEL_OM_COMMAND_TYPE_CREATE_ACCESSORY_LINK_MODE_3
      (le_bytes 4 (accessory_challenge (om_body m))))) (om_auth m)) as [He|He]; [by split|].
    split; [reflexivity|]. intros (? & Heq & _). exact (He Heq).
  - eexists _, _. split; [reflexivity|]. split; [done|]. by intros [? []].
Qed.

(** ** Inference of the ID *)

(** The IDs the command may be applied under. *)
Definition om_candidate (key : list Z) (w : nexus_window) (m : nexus_channel_om_command_message) (id : Z) : Prop :=
  center_index w - flags_below w ≤ id ≤ center_index w + flags_above w ∧ ¬ window_received w id ∧
  om_authentic key m id.

Lemma om_infer_step fuel w key m id :
  window_ok w → center_index w + flags_above w + 1 < 4294967296 → om_message_ok m →
  bytes_ok key → length key = 16%nat →
  center_index w - flags_below w ≤ id ≤ center_index w + flags_above w →
  (∃ m', om_candidate key w m id ∧ om_resolved key m id m' ∧
     om_infer_loop (S fuel) w key (with_command_id id m) = Some (true, m')) ∨
  (¬ om_candidate key w m id ∧
   om_infer_loop (S fuel) w key (with_command_id id m) = om_infer_loop fuel w key (with_command_id (id + 1) m)).
Proof.
  intros Hw Hlim Hm Hk Hl Hid. pose proof Hw as (_ & _ & _ & ? & ? & ? & ? & ?).
  assert (Hu : is_u32 id) by wrap.
  cbn [om_infer_loop]. change (computed_command_id (with_command_id id m)) with id.
  rewrite (proj2 (within_window_spec w id Hw)) by lia.
  destruct (already_set_spec w id Hw) as (b & -> & Hb). cbn [mbind option_bind].
  assert (Hnext : with_command_id (u32 (computed_command_id (with_command_id id m) + 1)) (with_command_id id m) =
    with_command_id (id + 1) m).
  { change (computed_command_id (with_command_id id m)) with id. by rewrite u32_small by wrap. }
  unfold om_candidate. destruct b; cbn [negb mbind option_bind].
  { right. split; [|by rewrite Hnext]. intros (_ & Hn & _). by apply Hn, Hb. }
  destruct (om_inner_compute_auth_spec key m id Hk Hl Hm Hu) as (found & m' & -> & Hres).
  cbn [mbind option_bind]. destruct found.
  - left. exists m'. split; [|split; [exact Hres|reflexivity]]. split; [done|]. split; [|by exists m'].
    intros Hr. by apply Hb in Hr.
  - destruct Hres as [-> Hno]. right. split; [|by rewrite Hnext]. by intros (_ & _ & Ha).
Qed.

Lemma om_infer_loop_spec fuel w key m id :
  window_ok w → center_index w + flags_above w + 1 < 4294967296 → om_message_ok m →
  bytes_ok key → length key = 16%nat →
  center_index w - flags_below w ≤ id ≤ center_index w + flags_above w + 1 →
  (Z.to_nat (center_index w + flags_above w + 1 - id) < fuel)%nat →
  (∃ id' m', om_infer_loop fuel w key (with_command_id id m) = Some (true, m') ∧ id ≤ id' ∧
     om_candidate key w m id' ∧ om_resolved key m id' m' ∧ ∀ x, id ≤ x → om_candidate key w m x → id' ≤ x) ∨
  (∃ m', om_infer_loop fuel w key (with_command_id id m) = Some (false, m') ∧
     ∀ x, id ≤ x → ¬ om_candidate key w m x).
Proof.
  revert id. induction fuel as [|fuel IH]; intros id Hw Hlim Hm Hk Hl Hid Hfuel; [lia|].
  destruct (decide (id = center_index w + flags_above w + 1)) as [->|Hne].
  { right. exists (with_command_id (center_index w + flags_above w + 1) m). split.
    - cbn [om_infer_loop]. change (computed_command_id (with_command_id ?i m)) with i.
      assert (Hno : nexus_util_window_id_within_window w (center_index w + flags_above w + 1) = false).
      { apply not_true_iff_false. rewrite within_window_spec by done. lia. }
      by rewrite Hno.
    - intros x Hx ([_ ?] & _). lia. }
  destruct (om_infer_step fuel w key m id Hw Hlim Hm Hk Hl ltac:(lia)) as [(m' & Hc & Hr & ->)|(Hno & ->)].
  - left. exists id, m'. split_and!; try done; lia.
  - destruct (IH (id + 1) Hw Hlim Hm Hk Hl ltac:(lia) ltac:(lia)) as [(id' & m' & -> & Hle & Hc & Hr & Hmin)|(m' & -> & Hnone)].
    + left. exists id', m'. split_and!; try done; [lia|]. intros x Hx Hcx.
      destruct (decide (x = id)) as [->|]; [done|]. apply Hmin; [lia|done].
    + right. exists m'. split; [done|]. intros x Hx. destruct (decide (x = id)) as [->|]; [done|]. apply Hnone. lia.
Qed.

(** ** The environment *)

(** What the manager relies on: the state is what was set, and the core
    returns, without touching the manager's state, its block of the NV or the
    origin key.  [om_env_ok] is the invariant of the rest of the library. *)
Class OmEnvLaws (W P : Type) `{OmEnv W P} `{Product P} `{!ChannelProduct P} := {
  om_env_ok : W → Prop;
  om_get_set st w : om_stored (om_set_stored st w) = st;
  om_get_set_prod p w : om_stored (om_set_prod p w) = om_stored w;
  om_prod_set p w : om_prod (om_set_prod p w) = p;
  om_prod_set_stored st w : om_prod (om_set_stored st w) = om_prod w;
  om_set_stored_id w : om_set_stored (om_stored w) w = w;
  om_set_prod_id w : om_set_prod (om_prod w) w = w;
  om_env_ok_stored st w : om_env_ok w → om_env_ok (om_set_stored st w);
  om_env_ok_prod inner p w :
    om_env_ok w → nv_updated NX_NV_BLOCK_CHANNEL_OM inner (om_prod w) p → om_env_ok (om_set_prod p w);
  om_core_apply m w :
    om_message_ok m → om_env_ok w →
    ∃ b w', nexus_channel_core_apply_origin_command_env m w = Some (b, w') ∧ om_env_ok w' ∧
      om_stored w' = om_stored w ∧
      nv_stored NX_NV_BLOCK_CHANNEL_OM (om_prod w') = nv_stored NX_NV_BLOCK_CHANNEL_OM (om_prod w) ∧
      nxp_channel_symmetric_origin_key (om_prod w') = nxp_channel_symmetric_origin_key (om_prod w)
}.

Definition om_stored_ok (st : nexus_om_stored) : Prop :=
  is_u32 (command_index st) ∧ bytes_ok (received_ids st) ∧ length (received_ids st) = 4%nat.

(** The window is well inside the range of IDs. *)
Definition om_room (st : nexus_om_stored) : Prop := 31 ≤ command_index st ∧ command_index st + 17 < 4294967296.

Lemma om_meta_ok : meta_ok NX_NV_BLOCK_CHANNEL_OM.
Proof. split; vm_compute; split; congruence. Qed.

Lemma om_stored_bytes_ok st : om_stored_ok st → inner_ok NX_NV_BLOCK_CHANNEL_OM (om_stored_bytes st).
Proof.
  intros (_ & Hb & Hl). split; [apply Forall_app_2; [apply le_bytes_ok|done]|].
  unfold om_stored_bytes. by rewrite length_app, le_bytes_length, Hl.
Qed.

Lemma om_stored_of_to st : om_stored_ok st → om_stored_of_bytes (om_stored_bytes st) = st.
Proof.
  intros (Hi & Hb & Hl). destruct st as [i ids]. unfold om_stored_of_bytes, om_stored_bytes. cbn [command_index received_ids] in *.
  f_equal.
  rewrite take_app_le, take_ge by (by rewrite le_bytes_length). rewrite le_val_bytes. change (256 ^ Z.of_nat 4) with 4294967296. wrap.
Qed.

Lemma om_window_ok st : om_stored_ok st → om_room st → window_ok (om_window st).
Proof.
  intros (Hi & Hb & Hl) [? ?]. unfold om_window, nexus_util_window_init, window_ok, bitset_ok, bitset_size.
  cbn [flags flags_below flags_above center_index].
  assert (Hl4 : length (take NEXUS_CHANNEL_OM_MAX_RECEIVE_FLAG_BYTE (received_ids st)) = 4%nat)
    by (rewrite length_take; unfold NEXUS_CHANNEL_OM_MAX_RECEIVE_FLAG_BYTE; lia).
  rewrite Hl4. unfold NEXUS_CHANNEL_OM_RECEIVE_WINDOW_BEFORE_CENTER_INDEX, NEXUS_CHANNEL_OM_RECEIVE_WINDOW_AFTER_CENTER_INDEX,
    NEXUS_UTIL_MAX_WINDOW_BITSET_SIZE_BYTES.
  split_and!; try (done || lia). by apply Forall_take.
Qed.

(** The IDs no command can be applied under any more. *)
Definition om_used (st : nexus_om_stored) (id : Z) : Prop :=
  id < command_index st - 31 ∨ window_received (om_window st) id.

Section OmApply.
Context {W P : Type} `{HP : ProductLaws P} `{!ReliableNv P} `{!ChannelProduct P} `{!ChannelProductLaws P}
  `{!OmEnv W P} `{!OmEnvLaws W P}.

Definition om_key (w : W) : list Z := nxp_channel_symmetric_origin_key (om_prod w).

(** The manager's state is well formed and the one NV holds. *)
Definition om_ok (w : W) : Prop :=
  om_stored_ok (om_stored w) ∧ om_env_ok w ∧
  match nv_stored NX_NV_BLOCK_CHANNEL_OM (om_prod w) with
  | Some b => b = om_stored_bytes (om_stored w)
  | None => True
  end.

(** The command may be applied under [id]. *)
Definition om_applicable (m : nexus_channel_om_command_message) (w : W) (id : Z) : Prop :=
  om_candidate (om_key w) (om_window (om_stored w)) m id.

Lemma om_reload_spec (w : W) : om_ok w → om_reload w = Some (tt, w).
Proof.
  intros (Hst & _ & Hnv). unfold om_reload, on_om_prod, om_modify. mstep.
  rewrite nexus_nv_read_spec; [|apply om_meta_ok|apply (om_stored_bytes_ok _ Hst)].
  destruct (nv_stored NX_NV_BLOCK_CHANNEL_OM (om_prod w)) as [b|]; [subst b|];
    cbn [mbind option_bind]; rewrite om_set_prod_id, om_stored_of_to, om_set_stored_id by done; done.
Qed.

(** Setting the flag of [id] and saving. *)
Lemma om_mark_spec (w : W) window id :
  om_ok w → om_room (om_stored w) → window = om_window (om_stored w) →
  command_index (om_stored w) - 31 ≤ id ≤ command_index (om_stored w) + 8 →
  ∃ window' w',
    nexus_util_window_set_id_flag id window = Some (true, window') ∧
    (om_modify (om_write_flags window');;
     om_modify (λ st, {| st with command_index := center_index window' |});;
     st ← gets om_stored;
     _ ← on_om_prod (nexus_nv_update NX_NV_BLOCK_CHANNEL_OM (om_stored_bytes st));
     mret tt) w = Some (tt, w') ∧
    om_ok w' ∧ om_key w' = om_key w ∧
    nv_stored NX_NV_BLOCK_CHANNEL_OM (om_prod w') = Some (om_stored_bytes (om_stored w')) ∧
    command_index (om_stored w') = Z.max (command_index (om_stored w)) id ∧
    ∀ x, om_used (om_stored w') x ↔
      om_used (om_stored w) x ∨ x = id ∨ x < command_index (om_stored w') - 31.
Proof.
  intros (Hst & Henv & Hnv) Hroom -> Hid. pose proof (om_window_ok _ Hst Hroom) as Hw.
  destruct Hroom as [Hr1 Hr2]. pose proof Hst as (Hi & Hb & Hl).
  destruct (window_set_id_flag_spec (om_window (om_stored w)) id Hw) as
    (window' & Hset & Hw' & Hc & Hbel & Habv & Hrec).
  { cbn [om_window nexus_util_window_init center_index flags_below flags_above]. unfold NEXUS_CHANNEL_OM_RECEIVE_WINDOW_BEFORE_CENTER_INDEX, NEXUS_CHANNEL_OM_RECEIVE_WINDOW_AFTER_CENTER_INDEX. lia. }
  { change (flags_above (om_window (om_stored w))) with 8. lia. }
  exists window'. change (center_index (om_window (om_stored w))) with (command_index (om_stored w)) in Hc.
  change (flags_below (om_window (om_stored w))) with 31 in Hbel. change (flags_above (om_window (om_stored w))) with 8 in Habv.
  set (st' := mk_om_stored (center_index window') (flags window')).
  assert (Hfl : length (flags window') = 4%nat).
  { destruct Hw' as (_ & _ & Hsz & _). unfold bitset_size in Hsz. rewrite Hbel in Hsz. lia. }
  assert (Hst' : om_stored_ok st').
  { split; [cbn; rewrite Hc; wrap|]. split; [by destruct Hw' as ([? _] & _)|done]. }
  assert (Hwin : om_window st' = window').
  { unfold om_window, nexus_util_window_init, st'. cbn [received_ids command_index].
    destruct window' as [c f b a]. cbn in *. subst b a. f_equal. apply take_ge. rewrite Hfl. done. }
  destruct (nexus_nv_update_spec NX_NV_BLOCK_CHANNEL_OM (om_stored_bytes st') (om_prod w)
    om_meta_ok (om_stored_bytes_ok _ Hst')) as (p' & Hup & Hnew).
  exists (om_set_prod p' (om_set_stored st' (om_set_stored (om_write_flags window' (om_stored w)) w))). split; [exact Hset|].
  assert (Hwf : (λ st, {| st with command_index := center_index window' |}) (om_write_flags window' (om_stored w)) = st').
  { unfold om_write_flags, st'. cbn [received_ids command_index]. by rewrite drop_ge, app_nil_r by lia. }
  split_and!.
  - unfold om_modify, on_om_prod. mstep. rewrite !om_get_set. cbv beta in Hwf. rewrite Hwf, !om_prod_set_stored, Hup. done.
  - unfold om_ok. rewrite om_get_set_prod, om_get_set, om_prod_set. split; [done|]. split.
    + eapply om_env_ok_prod; [by repeat apply om_env_ok_stored|]. rewrite !om_prod_set_stored. exact Hnew.
    + by rewrite (updated_stored _ _ _ _ Hnew).
  - unfold om_key. rewrite om_prod_set. eapply nv_update_origin_key; [apply om_meta_ok|apply (om_stored_bytes_ok _ Hst')|exact Hup].
  - rewrite om_prod_set, om_get_set_prod, om_get_set. exact (updated_stored _ _ _ _ Hnew).
  - rewrite om_get_set_prod, om_get_set. exact Hc.
  - intros x. rewrite om_get_set_prod, om_get_set. unfold om_used. rewrite Hwin, Hrec, Hbel, Hc.
    change (command_index st') with (center_index window'). rewrite Hc.
    destruct (Z.lt_ge_cases x (Z.max (command_index (om_stored w)) id - 31)) as [Hlt|Hge]; [tauto|].
    split.
    + intros [?|[_ [->|?]]]; [lia|tauto|tauto].
    + intros [[?|?]|[->|?]]; [lia|right; split; [lia|by right]|right; split; [lia|by left]|lia].
Qed.

Lemma om_resolved_id key m id m' : om_resolved key m id m' → computed_command_id m' = id.
Proof. unfold om_resolved. destruct (om_type m); [intros [_ ->]|intros (? & _ & ->)|intros (? & _ & ->)|intros [_ ->]|]; done. Qed.

Lemma om_resolved_ok key m id m' : om_message_ok m → om_resolved key m id m' → om_message_ok m'.
Proof. unfold om_resolved. intros Hm. destruct (om_type m); [intros [_ ->]|intros (? & _ & ->)|intros (? & _ & ->)|intros [_ ->]|]; done. Qed.

Lemma om_key_ok (w : W) : bytes_ok (om_key w) ∧ length (om_key w) = 16%nat.
Proof. split; [apply origin_key_ok|apply origin_key_length]. Qed.

(** The ID and the resolved message, when there is an ID to apply the command
    under. *)
Lemma om_infer_spec m (w : W) :
  om_message_ok m → om_ok w → om_room (om_stored w) →
  (∃ id m', _nexus_channel_om_ascii_infer_fields_compute_auth m (om_window (om_stored w)) (om_key w) = Some (true, m') ∧
     om_applicable m w id ∧ om_resolved (om_key w) m id m' ∧ ∀ x, om_applicable m w x → id ≤ x) ∨
  (∃ m', _nexus_channel_om_ascii_infer_fields_compute_auth m (om_window (om_stored w)) (om_key w) = Some (false, m') ∧
     ∀ x, ¬ om_applicable m w x).
Proof.
  intros Hm (Hst & _ & _) Hroom. pose proof (om_window_ok _ Hst Hroom) as Hw. destruct Hroom as [Hr1 Hr2].
  destruct (om_key_ok w) as [Hk Hl]. unfold _nexus_channel_om_ascii_infer_fields_compute_auth.
  change (center_index (om_window (om_stored w))) with (command_index (om_stored w)).
  change (flags_below (om_window (om_stored w))) with 31. rewrite u32_small by wrap.
  assert (Hwin : ∀ x, om_applicable m w x → command_index (om_stored w) - 31 ≤ x) by (intros x [[Hx _] _]; exact Hx).
  destruct (om_infer_loop_spec 42 (om_window (om_stored w)) (om_key w) m (command_index (om_stored w) - 31) Hw)
    as [(id & m' & Hrun & _ & Hc & Hr & Hmin)|(m' & Hrun & Hnone)]; try done.
  - change (command_index (om_stored w) + 8 + 1 < 4294967296). lia.
  - change (command_index (om_stored w) - 31 ≤ command_index (om_stored w) - 31 ≤ command_index (om_stored w) + 8 + 1). lia.
  - change (Z.to_nat (command_index (om_stored w) + 8 + 1 - (command_index (om_stored w) - 31)) < 42)%nat. lia.
  - left. exists id, m'. split_and!; try done. intros x Hx. by apply Hmin; [apply Hwin|].
  - right. exists m'. split; [exact Hrun|]. intros x Hx. by apply (Hnone x); [apply Hwin|].
Qed.

Lemma om_apply_rejected m (w : W) :
  om_message_ok m → om_ok w → om_room (om_stored w) → (∀ x, ¬ om_applicable m w x) →
  ∃ m', _nexus_channel_om_ascii_apply_message m w = Some ((false, m'), w).
Proof.
  intros Hm Hok Hroom Hno. unfold _nexus_channel_om_ascii_apply_message.
  erewrite bind_Some by reflexivity. rewrite (bind_Some _ _ _ _ _ (om_reload_spec w Hok)).
  erewrite bind_Some by reflexivity. cbv zeta.
  destruct (om_infer_spec m w Hm Hok Hroom) as [(id & m' & _ & Ha & _)|(m' & Hrun & _)]; [by destruct (Hno id)|].
  exists m'. erewrite bind_Some by (unfold lift; unfold om_key in Hrun; rewrite Hrun; reflexivity). reflexivity.
Qed.

(** The state after an accepted command. *)
Record om_accepted (w : W) (id : Z) (w' : W) : Prop := {
  accepted_ok : om_ok w';
  accepted_key : om_key w' = om_key w;
  accepted_saved : nv_stored NX_NV_BLOCK_CHANNEL_OM (om_prod w') = Some (om_stored_bytes (om_stored w'));
  accepted_index : command_index (om_stored w') = Z.max (command_index (om_stored w)) id;
  accepted_used x : om_used (om_stored w') x ↔
    om_used (om_stored w) x ∨ x = id ∨ x < command_index (om_stored w') - 31
}.

(** A command that may be applied goes to the core, under the lowest ID; the
    ID is used up when the core accepts it. *)
Lemma om_apply_candidate m (w : W) id :
  om_message_ok m → om_ok w → om_room (om_stored w) →
  om_applicable m w id → (∀ x, om_applicable m w x → id ≤ x) →
  ∃ m' b w1, om_resolved (om_key w) m id m' ∧
    nexus_channel_core_apply_origin_command_env m' w = Some (b, w1) ∧
    if (b : bool)
    then ∃ w', _nexus_channel_om_ascii_apply_message m w = Some ((true, m'), w') ∧ om_accepted w id w'
    else _nexus_channel_om_ascii_apply_message m w = Some ((false, m'), w1) ∧ om_ok w1 ∧
         om_stored w1 = om_stored w ∧ om_key w1 = om_key w.
Proof.
  intros Hm Hok Hroom Hid Hmin. pose proof Hok as (Hst & Henv & Hnv).
  destruct (om_infer_spec m w Hm Hok Hroom) as [(id' & m' & Hrun & Ha & Hr & Hmin')|(m' & _ & Hno)]; [|by destruct (Hno id)].
  assert (id' = id) as -> by (apply Z.le_antisymm; auto).
  destruct (om_core_apply m' w (om_resolved_ok _ _ _ _ Hm Hr) Henv) as (b & w1 & Hcore & Henv1 & Hst1 & Hnv1 & Hkey1).
  assert (Hok1 : om_ok w1) by (unfold om_ok; by rewrite Hst1, Hnv1).
  exists m', b, w1. split; [exact Hr|]. split; [exact Hcore|]. unfold _nexus_channel_om_ascii_apply_message.
  erewrite bind_Some by reflexivity. rewrite (bind_Some _ _ _ _ _ (om_reload_spec w Hok)).
  erewrite bind_Some by reflexivity. cbv zeta.
  erewrite bind_Some by (unfold lift; unfold om_key in Hrun; rewrite Hrun; reflexivity). cbn [negb].
  rewrite (bind_Some _ _ _ _ _ Hcore). destruct b; cbn [negb]; [|done].
  rewrite (om_resolved_id _ _ _ _ Hr). destruct Ha as [Hin _].
  rewrite <- Hst1. destruct (om_mark_spec w1 (om_window (om_stored w1)) id) as
    (window' & w' & Hset & Hmark & Hok' & Hkey' & Hsaved & Hidx & Hused); [done|by rewrite Hst1|done|by rewrite Hst1|].
  exists w'. split.
  - erewrite bind_Some by (unfold lift; rewrite Hset; reflexivity).
    revert Hmark. unfold om_modify. mstep. intros Hmark.
    case_match; [|done]. case_match. by inversion Hmark.
  - rewrite Hst1 in Hidx, Hused. split; try done. rewrite Hkey'. exact Hkey1.
Qed.

(** Whatever the message, application returns. *)
Lemma om_apply_cases m (w : W) :
  om_message_ok m → om_ok w → om_room (om_stored w) →
  ∃ b m' w', _nexus_channel_om_ascii_apply_message m w = Some ((b, m'), w') ∧
    if (b : bool) then ∃ id, om_applicable m w id ∧ om_resolved (om_key w) m id m' ∧ om_accepted w id w'
    else om_ok w' ∧ om_stored w' = om_stored w ∧ om_key w' = om_key w.
Proof.
  intros Hm Hok Hroom.
  destruct (om_infer_spec m w Hm Hok Hroom) as [(id & _ & _ & Ha & _ & Hmin)|(_ & _ & Hno)].
  - destruct (om_apply_candidate m w id Hm Hok Hroom Ha Hmin) as (m' & b & w1 & Hr & _ & Hres). destruct b.
    + destruct Hres as (w' & Hrun & Hacc). exists true, m', w'. split; [exact Hrun|]. by exists id.
    + destruct Hres as (Hrun & ? & ? & ?). exists false, m', w1. done.
  - destruct (om_apply_rejected m w Hm Hok Hroom Hno) as (m' & Hrun). exists false, m', w. done.
Qed.
End OmApply.
