(* ===== verification/ChannelOmRun.v ===== *)
(** * The origin manager: parsing origin commands

    [om_parsed] reads the fields of a command off its digits; the parser
    computes it, for every command of up to fourteen digits.  [om_command] is
    the encoder. *)



From S2P Require Import Prelude Crc Siphash Digits Window Check NvBlock Product DesktopProduct Nv KeycodeFull KeycodeFullParse.
From S2P Require Import Channel ChannelOm ChannelOmApply.
Local Open Scope Z_scope.

Lemma om_mathmod10_spec x : -300 < x < 300 → om_mathmod10 x = Some (x mod 10).
Proof. exact (mathmod10_spec x). Qed.

(** ** Deinterleaving *)

Definition om_prng (auth n : Z) : list Z := prng_ref NEXUS_INTEGRITY_CHECK_FIXED_00_KEY (le_bytes 4 auth) n.

(** The digits of a command of [n] digits, the last six as they are. *)
Definition om_deinterleaved (cmd : list Z) (auth : Z) : list Z :=
  let k := (length cmd - 6)%nat in
  zip_with deinterleave_key (take k cmd) (om_prng auth (Z.of_nat k)) ++ drop k cmd.

(** A cursor over [cmd], in an array of twenty characters. *)
Definition om_array (n : nat) (cmd tail : list Z) : Prop :=
  length cmd = n ∧ (6 < n ≤ 14)%nat ∧ Forall is_digit_char cmd ∧ length (cmd ++ tail) = 20%nat.

Lemma om_deinterleave_loop keys prng out k :
  length prng = k → bytes_ok prng → (k ≤ length keys)%nat → (k ≤ length out)%nat →
  for_loop k 0 (om_deinterleave_body keys prng) out =
  Some (zip_with deinterleave_key (take k keys) prng ++ drop k out).
Proof.
  intros Hpl Hpb Hk Ho.
  destruct (for_loop_invariant
    (λ i chars, chars = zip_with deinterleave_key (take (Z.to_nat i) keys) (take (Z.to_nat i) prng) ++ drop (Z.to_nat i) out)
    k 0 (om_deinterleave_body keys prng) out) as (r & -> & ->).
  - by rewrite take_0, drop_0.
  - intros i chars Hi ->.
    destruct (lookup_lt_is_Some_2 keys (Z.to_nat i)) as [c Hc]; [lia|].
    destruct (lookup_lt_is_Some_2 prng (Z.to_nat i)) as [p Hp]; [lia|].
    destruct (lookup_lt_is_Some_2 out (Z.to_nat i)) as [o Hoi]; [lia|].
    unfold om_deinterleave_body. rewrite !aget_lookup, Hc, Hp by lia. cbn [mbind option_bind].
    pose proof (Forall_lookup_1 _ _ _ _ Hpb Hp) as Hp8. pose proof (u8_range (c - 48)) as Hc8.
    rewrite om_mathmod10_spec by (unfold is_u8 in *; lia). cbn [mbind option_bind].
    assert (Hzl : length (zip_with deinterleave_key (take (Z.to_nat i) keys) (take (Z.to_nat i) prng)) = Z.to_nat i)
      by (rewrite length_zip_with, !length_take; lia).
    rewrite aset_in by (rewrite length_app, length_drop; lia).
    eexists. split; [reflexivity|]. rewrite insert_app_r_alt, Hzl, Nat.sub_diag by lia.
    rewrite (drop_S _ _ _ Hoi). cbn [insert list_insert]. replace (Z.to_nat (i + 1)) with (S (Z.to_nat i)) by lia.
    rewrite (take_S_r _ _ _ Hc), (take_S_r _ _ _ Hp).
    rewrite zip_with_app by (rewrite !length_take; lia). cbn [zip_with]. by rewrite <- app_assoc.
  - replace (Z.to_nat (0 + Z.of_nat k)) with k by lia. by rewrite (take_ge prng) by lia.
Qed.

Lemma om_deinterleave_spec n cmd tail pos out auth :
  om_array n cmd tail → length (dg_chars out) = 20%nat →
  _nexus_channel_om_deinterleave_digits (digits_at (cmd ++ tail) (Z.of_nat n) pos) out auth =
  Some {| out with dg_chars := om_deinterleaved cmd auth ++ drop n (dg_chars out) |}.
Proof.
  intros (Hn & Hrange & Hd & Hl) Ho. unfold _nexus_channel_om_deinterleave_digits, om_deinterleaved.
  cbn [dg_length dg_chars digits_at]. rewrite Hn. set (k := (n - 6)%nat).
  assert (Hk : u8 (Z.of_nat n - NEXUS_CHANNEL_OM_FIXED_MAC_DIGIT_COUNT) = Z.of_nat k).
  { unfold NEXUS_CHANNEL_OM_FIXED_MAC_DIGIT_COUNT. rewrite u8_small by wrap. lia. }
  rewrite Hk. change 4 with (Z.of_nat (length (le_bytes 4 auth))).
  rewrite pseudorandom_bytes_spec;
    [|apply fixed_keys_ok|by vm_compute; lia|apply le_bytes_ok|by rewrite le_bytes_length|lia].
  cbn [mbind option_bind]. fold (om_prng auth (Z.of_nat k)). rewrite Nat2Z.id.
  rewrite (om_deinterleave_loop _ (om_prng auth (Z.of_nat k)));
    [|unfold om_prng; rewrite prng_ref_length by lia; lia|apply prng_ref_ok|lia|lia].
  cbn [mbind option_bind]. change (Z.to_nat NEXUS_CHANNEL_OM_FIXED_MAC_DIGIT_COUNT) with 6%nat.
  rewrite slice_in by lia. cbn [mbind option_bind].
  assert (Hmac : take 6 (drop k (cmd ++ tail)) = drop k cmd).
  { rewrite drop_app_le by lia. rewrite take_app_le by (rewrite length_drop; lia).
    apply take_ge. rewrite length_drop. lia. }
  rewrite Hmac, (take_app_le cmd) by lia.
  assert (Hzl : length (zip_with deinterleave_key (take k cmd) (om_prng auth (Z.of_nat k))) = k).
  { rewrite length_zip_with, length_take. unfold om_prng. rewrite prng_ref_length by lia. lia. }
  rewrite memcpy_at_in by (rewrite length_app, !length_drop, Hzl; lia).
  cbn [mbind option_bind]. rewrite take_app_le, (take_ge (zip_with _ _ _)) by lia.
  rewrite drop_app_ge by lia. rewrite drop_drop, length_drop, Hzl. rewrite <- app_assoc.
  by replace (k + (k + (length cmd - k) - k))%nat with n by lia.
Qed.

Lemma om_deinterleaved_length cmd auth : (6 < length cmd ≤ 14)%nat → length (om_deinterleaved cmd auth) = length cmd.
Proof.
  intros Hl. unfold om_deinterleaved, om_prng. rewrite length_app, length_zip_with, length_take, length_drop.
  rewrite prng_ref_length by lia. lia.
Qed.

Lemma om_deinterleaved_digits cmd auth : Forall is_digit_char cmd → Forall is_digit_char (om_deinterleaved cmd auth).
Proof. intros Hd. apply Forall_app_2; [apply deinterleave_zip_digits|by apply Forall_drop]. Qed.

(** ** The fields *)

(** The number the [n] digits from [p] spell. *)
Definition field (D : list Z) (p n : nat) : Z := dec_val (take n (drop p D)).

(** What a command of the digits [D] with check [auth] says, and whether it
    has the length of its type. *)
Definition om_parsed (D : list Z) (auth : Z) : bool * nexus_channel_om_command_message :=
  let t := _nexus_channel_om_ascii_validate_command_type (field D 0 1) in
  match t with
  | NEXUS_CHANNEL_OM_COMMAND_TYPE_GENERIC_CONTROLLER_ACTION =>
    ((length D =? 9)%nat, mk_om_message t {| om_body_zero with action_type := field D 1 2 |} auth 0)
  | NEXUS_CHANNEL_OM_COMMAND_TYPE_ACCESSORY_ACTION_UNLOCK
  | NEXUS_CHANNEL_OM_COMMAND_TYPE_ACCESSORY_ACTION_UNLINK =>
    ((length D =? 8)%nat,
     mk_om_message t (mk_om_body 0 (field D 1 1) 1 (mk_nx_id 0 0) 0) auth 0)
  | NEXUS_CHANNEL_OM_COMMAND_TYPE_CREATE_ACCESSORY_LINK_MODE_3 =>
    ((length D =? 13)%nat, mk_om_message t {| om_body_zero with accessory_challenge := field D 1 6 |} auth 0)
  | NEXUS_CHANNEL_OM_COMMAND_TYPE_INVALID => (false, mk_om_message t om_body_zero auth 0)
  end.

(** Pulls from [D] followed by anything. *)
Lemma field_pullable D rest p n :
  Forall is_digit_char D → (p + n ≤ length D ≤ 20)%nat → (n ≤ 9)%nat →
  pullable (D ++ rest) (Z.of_nat (length D)) (Z.of_nat p) (Z.of_nat n) (take n (drop p D)).
Proof.
  intros Hd Hl Hn. split; try lia.
  - unfold next_digits. cbn [dg_position dg_chars digits_at]. rewrite !Nat2Z.id, drop_app_le by lia.
    apply take_app_le. rewrite length_drop. lia.
  - by apply Forall_take, Forall_drop.
  - rewrite length_app. lia.
Qed.

Lemma field_range D p n : Forall is_digit_char D → (n ≤ 9)%nat → 0 ≤ field D p n < 10 ^ Z.of_nat n.
Proof.
  intros Hd Hn. pose proof (dec_val_range (take n (drop p D)) ltac:(by apply Forall_take, Forall_drop)) as [? Hlt].
  split; [done|]. eapply Z.lt_le_trans; [exact Hlt|]. apply Z.pow_le_mono_r; [lia|].
  rewrite length_take. lia.
Qed.

Lemma try_pull_field D rest p n :
  Forall is_digit_char D → (p + n ≤ length D ≤ 20)%nat → (n ≤ 9)%nat →
  nexus_digits_try_pull_uint32 (Z.of_nat n) false (digits_at (D ++ rest) (Z.of_nat (length D)) (Z.of_nat p)) =
  Some ((field D p n, false), digits_at (D ++ rest) (Z.of_nat (length D)) (Z.of_nat (p + n))).
Proof.
  intros Hd Hl Hn. unfold nexus_digits_try_pull_uint32, nexus_digits_remaining. mstep.
  cbn [dg_length dg_position digits_at orb]. rewrite u16_small by wrap.
  replace (Z.of_nat (length D) - Z.of_nat p <? Z.of_nat n) with false by lia.
  rewrite (pull32_at _ _ _ _ _ (field_pullable D rest p n Hd Hl Hn)). by rewrite Nat2Z.inj_add.
Qed.

Lemma pull_field8 D rest p n :
  Forall is_digit_char D → (p + n ≤ length D ≤ 20)%nat → (n ≤ 2)%nat →
  nexus_digits_pull_uint8 (Z.of_nat n) (digits_at (D ++ rest) (Z.of_nat (length D)) (Z.of_nat p)) =
  Some (field D p n, digits_at (D ++ rest) (Z.of_nat (length D)) (Z.of_nat (p + n))).
Proof.
  intros Hd Hl Hn. rewrite (pull8_at _ _ _ _ _ (field_pullable D rest p n Hd Hl ltac:(lia))).
  rewrite Nat2Z.inj_add. do 2 f_equal. pose proof (field_range D p n Hd ltac:(lia)) as Hr.
  apply Z.min_r. unfold field in *.
  assert (10 ^ Z.of_nat n ≤ 10 ^ 2) by (apply Z.pow_le_mono_r; lia). change (10 ^ 2) with 100 in *. lia.
Qed.

Lemma remaining_at chars (n p : nat) :
  (p ≤ n ≤ 20)%nat → nexus_digits_remaining (digits_at chars (Z.of_nat n) (Z.of_nat p)) = Z.of_nat (n - p).
Proof. intros. unfold nexus_digits_remaining. cbn [dg_length dg_position digits_at]. rewrite u16_small by wrap. lia. Qed.

Lemma action_not_max D : Forall is_digit_char D → negb (field D 1 2 =? UINT8_MAX) = true.
Proof.
  intros Hd. pose proof (field_range D 1 2 Hd ltac:(lia)) as Hr. change (10 ^ Z.of_nat 2) with 100 in Hr.
  unfold UINT8_MAX. by replace (field D 1 2 =? 255) with false by lia.
Qed.

(** The three body parsers, on a cursor after the type digit. *)
Lemma extract_bodies D rest body :
  Forall is_digit_char D → (7 ≤ length D ≤ 14)%nat →
  _nexus_channel_om_ascii_extract_body_controller_action body (digits_at (D ++ rest) (Z.of_nat (length D)) (Z.of_nat 1)) =
    Some ((true, {| body with action_type := field D 1 2 |}), digits_at (D ++ rest) (Z.of_nat (length D)) (Z.of_nat 3)) ∧
  _nexus_channel_om_ascii_extract_body_accessory_action body (digits_at (D ++ rest) (Z.of_nat (length D)) (Z.of_nat 1)) =
    Some ((true, mk_om_body (action_type body) (field D 1 1) 1 (computed_accessory_id body) (accessory_challenge body)),
          digits_at (D ++ rest) (Z.of_nat (length D)) (Z.of_nat 2)) ∧
  _nexus_channel_om_ascii_extract_body_create_link body (digits_at (D ++ rest) (Z.of_nat (length D)) (Z.of_nat 1)) =
    Some ((bool_decide (7 < length D)%nat, {| body with accessory_challenge := field D 1 6 |}),
          digits_at (D ++ rest) (Z.of_nat (length D)) (Z.of_nat 7)).
Proof.
  intros Hd Hl. split_and!.
  - unfold _nexus_channel_om_ascii_extract_body_controller_action. change 2 with (Z.of_nat 2).
    rewrite (bind_Some _ _ _ _ _ (pull_field8 D rest 1 2 Hd ltac:(lia) ltac:(lia))).
    mstep. rewrite remaining_at, action_not_max by (done || lia).
    by rewrite (proj2 (Z.ltb_lt 0 (Z.of_nat (length D - (1 + 2))))) by lia.
  - unfold _nexus_channel_om_ascii_extract_body_accessory_action. cbn [trunc_digits_count]. change 1 with (Z.of_nat 1) at 3.
    rewrite (bind_Some _ _ _ _ _ (try_pull_field D rest 1 1 Hd ltac:(lia) ltac:(lia))).
    mstep. rewrite remaining_at by lia.
    by rewrite (proj2 (Z.ltb_lt 0 (Z.of_nat (length D - (1 + 1))))) by lia.
  - unfold _nexus_channel_om_ascii_extract_body_create_link. change 6 with (Z.of_nat 6).
    rewrite (bind_Some _ _ _ _ _ (try_pull_field D rest 1 6 Hd ltac:(lia) ltac:(lia))).
    mstep. rewrite remaining_at by lia. case_bool_decide.
    + by rewrite (proj2 (Z.ltb_lt 0 (Z.of_nat (length D - (1 + 6))))) by lia.
    + by rewrite (proj2 (Z.ltb_ge 0 (Z.of_nat (length D - (1 + 6))))) by lia.
Qed.

Lemma length_eqb n p : (p ≤ n)%nat → (Z.of_nat (n - p) =? 6) = (n =? p + 6)%nat.
Proof. intros. destruct (Nat.eqb_spec n (p + 6)); [apply Z.eqb_eq|apply Z.eqb_neq]; lia. Qed.

(** The parser reads the fields, and accepts the commands that have the length
    of their type. *)
Lemma om_parse_spec n cmd tail garbage :
  om_array n cmd tail → (20 ≤ length garbage)%nat →
  let auth := field cmd (n - 6) 6 in
  _nexus_channel_om_ascii_parse_message garbage (nexus_digits_init (cmd ++ tail) (Z.of_nat n)) om_message_zero =
  Some (om_parsed (om_deinterleaved cmd auth) auth).
Proof.
  intros Harr Hg auth. pose proof Harr as (<- & Hrange & Hd & Hl).
  unfold _nexus_channel_om_ascii_parse_message.
  change (nexus_digits_init (cmd ++ tail) (Z.of_nat (length cmd)))
    with (digits_at (cmd ++ tail) (Z.of_nat (length cmd)) (Z.of_nat 0)).
  rewrite remaining_at by lia. rewrite u8_small by wrap. unfold NEXUS_CHANNEL_OM_FIXED_MAC_DIGIT_COUNT.
  rewrite (proj2 (Z.leb_gt (Z.of_nat (length cmd - 0)) 6)) by lia. cbv zeta. cbn [dg_length digits_at].
  rewrite u16_small by wrap. replace (Z.of_nat (length cmd) - 6) with (Z.of_nat (length cmd - 6)) by lia.
  change (mk_nexus_digits (dg_chars _) _ (Z.of_nat (length cmd - 6)))
    with (digits_at (cmd ++ tail) (Z.of_nat (length cmd)) (Z.of_nat (length cmd - 6))).
  change (nexus_digits_try_pull_uint32 6 false) with (nexus_digits_try_pull_uint32 (Z.of_nat 6) false).
  rewrite (try_pull_field cmd tail (length cmd - 6) 6 Hd ltac:(lia) ltac:(lia)). cbn [mbind option_bind].
  fold auth. replace (length cmd - 6 + 6)%nat with (length cmd) by lia.
  set (G := take (Z.to_nat NEXUS_CHANNEL_OM_COMMAND_ASCII_DIGITS_MAX_LENGTH) garbage).
  assert (HG : length G = 20%nat)
    by (unfold G; rewrite length_take; change (Z.to_nat NEXUS_CHANNEL_OM_COMMAND_ASCII_DIGITS_MAX_LENGTH) with 20%nat; lia).
  cbn [dg_length digits_at].
  rewrite (om_deinterleave_spec (length cmd) cmd tail (Z.of_nat (length cmd)) (nexus_digits_init G (Z.of_nat (length cmd))) auth Harr HG).
  cbn [mbind option_bind]. set (D := om_deinterleaved cmd auth).
  assert (HDl : length D = length cmd) by (unfold D; rewrite om_deinterleaved_length; lia).
  assert (HDd : Forall is_digit_char D) by (by apply om_deinterleaved_digits).
  cbn [dg_chars nexus_digits_init]. set (rest := drop (length cmd) G).
  change (mk_nexus_digits (D ++ rest) _ _) with (digits_at (D ++ rest) (Z.of_nat (length cmd)) (Z.of_nat 0)).
  rewrite <- HDl. change (nexus_digits_pull_uint8 1) with (nexus_digits_pull_uint8 (Z.of_nat 1)).
  rewrite (pull_field8 D rest 0 1 HDd ltac:(lia) ltac:(lia)). cbn [mbind option_bind Nat.add].
  destruct (extract_bodies D rest om_body_zero HDd ltac:(lia)) as (H0 & H1 & H9).
  unfold om_parsed. cbn [om_type om_body om_message_zero].
  destruct (_nexus_channel_om_ascii_validate_command_type (field D 0 1)); cbn [om_type].
  - rewrite H0. cbn [mbind option_bind negb andb]. by rewrite remaining_at, length_eqb by lia.
  - rewrite H1. cbn [mbind option_bind negb andb]. by rewrite remaining_at, length_eqb by lia.
  - rewrite H1. cbn [mbind option_bind negb andb]. by rewrite remaining_at, length_eqb by lia.
  - rewrite H9. cbn [mbind option_bind negb andb]. rewrite remaining_at, length_eqb by lia.
    do 2 f_equal. case_bool_decide; [done|]. symmetry. apply Nat.eqb_neq. lia.
  - done.
Qed.

Lemma om_parsed_ok D auth : Forall is_digit_char D → om_message_ok (om_parsed D auth).2.
Proof.
  intros Hd. unfold om_message_ok, om_parsed.
  pose proof (field_range D 1 2 Hd ltac:(lia)) as Ha. change (10 ^ Z.of_nat 2) with 100 in Ha.
  pose proof (field_range D 1 6 Hd ltac:(lia)) as Hc. change (10 ^ Z.of_nat 6) with 1000000 in Hc.
  destruct (_nexus_channel_om_ascii_validate_command_type (field D 0 1)); cbn; split_and!; try wrap; intuition discriminate.
Qed.

(** ** The encoder *)

(** The digits of type and body. *)
Definition om_digits (m : nexus_channel_om_command_message) : list Z :=
  let b := om_body m in
  match om_type m with
  | NEXUS_CHANNEL_OM_COMMAND_TYPE_GENERIC_CONTROLLER_ACTION => dec_digits 1 0 ++ dec_digits 2 (action_type b)
  | NEXUS_CHANNEL_OM_COMMAND_TYPE_ACCESSORY_ACTION_UNLOCK => dec_digits 1 1 ++ dec_digits 1 (trunc_digits_int b)
  | NEXUS_CHANNEL_OM_COMMAND_TYPE_ACCESSORY_ACTION_UNLINK => dec_digits 1 2 ++ dec_digits 1 (trunc_digits_int b)
  | NEXUS_CHANNEL_OM_COMMAND_TYPE_CREATE_ACCESSORY_LINK_MODE_3 => dec_digits 1 9 ++ dec_digits 6 (accessory_challenge b)
  | NEXUS_CHANNEL_OM_COMMAND_TYPE_INVALID => []
  end.

Definition om_command (m : nexus_channel_om_command_message) : list Z :=
  zip_with interleave_key (om_digits m) (om_prng (om_auth m) (Z.of_nat (length (om_digits m)))) ++
  dec_digits 6 (om_auth m).

(** The messages a command can carry, with the fields that are not
    transmitted as the parser leaves them. *)
Definition om_encodable (m : nexus_channel_om_command_message) : Prop :=
  0 ≤ om_auth m < 1000000 ∧ computed_command_id m = 0 ∧
  let b := om_body m in
  match om_type m with
  | NEXUS_CHANNEL_OM_COMMAND_TYPE_GENERIC_CONTROLLER_ACTION =>
    0 ≤ action_type b < 100 ∧ b = {| om_body_zero with action_type := action_type b |}
  | NEXUS_CHANNEL_OM_COMMAND_TYPE_ACCESSORY_ACTION_UNLOCK
  | NEXUS_CHANNEL_OM_COMMAND_TYPE_ACCESSORY_ACTION_UNLINK =>
    0 ≤ trunc_digits_int b < 10 ∧ b = mk_om_body 0 (trunc_digits_int b) 1 (mk_nx_id 0 0) 0
  | NEXUS_CHANNEL_OM_COMMAND_TYPE_CREATE_ACCESSORY_LINK_MODE_3 =>
    0 ≤ accessory_challenge b < 1000000 ∧ b = {| om_body_zero with accessory_challenge := accessory_challenge b |}
  | NEXUS_CHANNEL_OM_COMMAND_TYPE_INVALID => False
  end.

Lemma om_digits_length m : om_encodable m → (2 ≤ length (om_digits m) ≤ 7)%nat.
Proof.
  intros (_ & _ & Hm). revert Hm. unfold om_digits. cbv zeta.
  destruct (om_type m); intros Hm; try done; rewrite length_app, !dec_digits_length; lia.
Qed.

Lemma om_digits_ok m : Forall is_digit_char (om_digits m).
Proof. unfold om_digits. cbv zeta. destruct (om_type m); try apply Forall_app_2; try apply dec_digits_ok. done. Qed.

Lemma om_command_digits m : Forall is_digit_char (om_command m).
Proof. apply Forall_app_2; [apply interleave_zip_digits|apply dec_digits_ok]. Qed.

Lemma om_command_length m : om_encodable m → length (om_command m) = (length (om_digits m) + 6)%nat.
Proof.
  intros Hm. pose proof (om_digits_length m Hm). unfold om_command, om_prng.
  rewrite length_app, length_zip_with, dec_digits_length, prng_ref_length by lia. lia.
Qed.

(** A field that was written as decimal digits. *)
Lemma field_digits pre n v post p :
  p = length pre → 0 ≤ v < 10 ^ Z.of_nat n → field (pre ++ dec_digits n v ++ post) p n = v.
Proof.
  intros -> Hv. unfold field. rewrite drop_app_length, take_app_le, take_ge by (rewrite dec_digits_length; lia).
  rewrite dec_val_digits by lia. by apply Z.mod_small.
Qed.

Lemma field_head n v post : 0 ≤ v < 10 ^ Z.of_nat n → field (dec_digits n v ++ post) 0 n = v.
Proof. exact (field_digits [] n v post 0 eq_refl). Qed.

Lemma om_command_auth m :
  om_encodable m → field (om_command m) (length (om_command m) - 6) 6 = om_auth m.
Proof.
  intros Hm. rewrite om_command_length by done. destruct Hm as (Ha & Hm). unfold om_command.
  rewrite <- (app_nil_r (dec_digits 6 _)). apply field_digits; [|done].
  pose proof (om_digits_length m (conj Ha Hm)). unfold om_prng.
  rewrite length_zip_with, prng_ref_length by lia. lia.
Qed.

Lemma om_command_deinterleaved m :
  om_encodable m → om_deinterleaved (om_command m) (om_auth m) = om_digits m ++ dec_digits 6 (om_auth m).
Proof.
  intros Hm. unfold om_deinterleaved. rewrite om_command_length by done.
  pose proof (om_digits_length m Hm) as Hl. unfold om_command.
  replace (length (om_digits m) + 6 - 6)%nat with (length (om_digits m)) by lia.
  set (prng := om_prng _ _).
  assert (Hpl : length prng = length (om_digits m)) by (unfold prng, om_prng; rewrite prng_ref_length by lia; lia).
  set (keys := zip_with interleave_key (om_digits m) prng).
  assert (Hkl : length keys = length (om_digits m)) by (unfold keys; rewrite length_zip_with; lia).
  rewrite <- Hkl, take_app_length, drop_app_length. unfold keys.
  rewrite deinterleave_zip; [done|apply om_digits_ok|apply prng_ref_ok|done].
Qed.

(** The parser inverts the encoder. *)
Lemma om_parse_command m :
  om_encodable m → om_parsed (om_digits m ++ dec_digits 6 (om_auth m)) (om_auth m) = (true, m).
Proof.
  intros (Ha & Hid & Hm). destruct m as [t b auth id]. cbn [om_type om_body om_auth computed_command_id] in *. subst id.
  unfold om_digits. cbv zeta in *. cbn [om_type om_body].
  destruct t; try done; destruct Hm as [Hr Hb]; rewrite Hb at 2; rewrite <- app_assoc; unfold om_parsed;
    rewrite field_head by lia; cbn -[dec_digits app field];
    rewrite ?length_app, !dec_digits_length; cbn [Nat.eqb Nat.add];
    rewrite (field_digits (dec_digits 1 _)) by (rewrite ?dec_digits_length; (done || lia)); done.
Qed.

(** ** The origin manager: whole commands, and sequences of them *)



Lemma ascii_digits_loop data n :
  bytes_ok data → (n ≤ length data)%nat →
  for_loop n 0 (ascii_digits_body data) true = Some (bool_decide (Forall is_digit_char (take n data))).
Proof.
  intros Hb Hn.
  destruct (for_loop_invariant (λ i ok, ok = bool_decide (Forall is_digit_char (take (Z.to_nat i) data)))
    n 0 (ascii_digits_body data) true) as (r & -> & ->).
  - by rewrite take_0, bool_decide_true.
  - intros i ok Hi ->. destruct (lookup_lt_is_Some_2 data (Z.to_nat i)) as [c Hc]; [lia|].
    replace (Z.to_nat (i + 1)) with (S (Z.to_nat i)) by lia.
    unfold ascii_digits_body. rewrite aget_lookup, Hc by lia. cbn [mbind option_bind].
    pose proof (Forall_lookup_1 _ _ _ _ Hb Hc) as Hc8. rewrite u8_small by done.
    rewrite (take_S_r _ _ _ Hc). case_bool_decide as Hd; cbn [negb]; (eexists; split; [reflexivity|]).
    + destruct (decide (is_digit_char c)) as [Hdc|Hdc].
      * rewrite bool_decide_true by (apply Forall_app_2; [done|by apply Forall_singleton]).
        unfold is_digit_char in Hdc. by replace ((c <? 48) || (57 <? c)) with false by lia.
      * rewrite bool_decide_false by (rewrite Forall_app, Forall_singleton; tauto).
        unfold is_digit_char in Hdc. by replace ((c <? 48) || (57 <? c)) with true by lia.
    + by rewrite bool_decide_false by (rewrite Forall_app; tauto).
  - by rewrite Z.add_0_l, Nat2Z.id.
Qed.

Section OmRun.
Context {W P : Type} `{HP : ProductLaws P} `{!ReliableNv P} `{!ChannelProduct P} `{!ChannelProductLaws P}
  `{!OmEnv W P} `{!OmEnvLaws W P}.

(** What the handler does with the digits of a command. *)
Definition om_dispatch (cmd : list Z) : M W bool :=
  let auth := field cmd (length cmd - 6) 6 in
  let '(parsed, m) := om_parsed (om_deinterleaved cmd auth) auth in
  if (parsed : bool) then '(applied, _) ← _nexus_channel_om_ascii_apply_message m; mret applied else mret false.

(** The handler by the shape of the command. *)
Lemma om_handle_spec garbage data n (w : W) :
  bytes_ok data → (n ≤ length data)%nat → (20 ≤ length garbage)%nat →
  _nexus_channel_om_handle_ascii_origin_command garbage data (Z.of_nat n) w =
  if decide (20 < n ∨ n ≤ 6 ∨ ¬ Forall is_digit_char (take n data))%nat then Some (false, w)
  else if decide (n ≤ 14)%nat then om_dispatch (take n data) w
  else None.
Proof.
  intros Hb Hn Hg. unfold _nexus_channel_om_handle_ascii_origin_command, NEXUS_CHANNEL_OM_COMMAND_ASCII_DIGITS_MAX_LENGTH.
  destruct (Z.ltb_spec 20 (Z.of_nat n)); [by rewrite decide_True by lia|].
  erewrite bind_lift by (rewrite Nat2Z.id; by apply ascii_digits_loop). case_bool_decide as Hd; cbn [negb].
  2: { by rewrite decide_True by auto. }
  cbv zeta. rewrite Nat2Z.id. rewrite slice_in by lia. rewrite drop_0.
  erewrite bind_lift by reflexivity.
  set (cmd := take n data) in *. assert (Hl : length cmd = n) by (unfold cmd; rewrite length_take; lia).
  change (Z.to_nat 20) with 20%nat.
  rewrite memcpy_at_in by (rewrite length_replicate; lia). erewrite bind_lift by reflexivity.
  rewrite take_0, Hl, drop_replicate. cbn [app Nat.add]. rewrite u16_small by wrap.
  destruct (decide (n ≤ 6)%nat) as [H6|H6].
  { rewrite decide_True by auto. unfold _nexus_channel_om_ascii_parse_message.
    change (nexus_digits_init (cmd ++ replicate (20 - n) 0) (Z.of_nat n))
      with (digits_at (cmd ++ replicate (20 - n) 0) (Z.of_nat n) (Z.of_nat 0)).
    rewrite remaining_at by lia. rewrite u8_small by wrap. unfold NEXUS_CHANNEL_OM_FIXED_MAC_DIGIT_COUNT.
    by rewrite (proj2 (Z.leb_le (Z.of_nat (n - 0)) 6)) by lia. }
  rewrite decide_False by (intros [?|[?|?]]; [lia|done|done]).
  destruct (decide (n ≤ 14)%nat) as [H14|H14].
  - assert (Harr : om_array n cmd (replicate (20 - n) 0)).
    { split_and!; [done|lia|lia|done|]. rewrite length_app, length_replicate. lia. }
    erewrite bind_lift by (by apply om_parse_spec). unfold om_dispatch. rewrite Hl.
    destruct (om_parsed _ _) as [[] m]; done.
  - assert (Hparse : _nexus_channel_om_ascii_parse_message garbage
      (nexus_digits_init (cmd ++ replicate (20 - n) 0) (Z.of_nat n)) om_message_zero = None); [|by rewrite Hparse].
    unfold _nexus_channel_om_ascii_parse_message.
    change (nexus_digits_init (cmd ++ replicate (20 - n) 0) (Z.of_nat n))
      with (digits_at (cmd ++ replicate (20 - n) 0) (Z.of_nat n) (Z.of_nat 0)).
    rewrite remaining_at by lia. rewrite u8_small by wrap. unfold NEXUS_CHANNEL_OM_FIXED_MAC_DIGIT_COUNT.
    rewrite (proj2 (Z.leb_gt (Z.of_nat (n - 0)) 6)) by lia. cbv zeta. cbn [dg_length digits_at].
    rewrite u16_small by wrap. replace (Z.of_nat n - 6) with (Z.of_nat (n - 6)) by lia.
    change (mk_nexus_digits (dg_chars _) _ (Z.of_nat (n - 6)))
      with (digits_at (cmd ++ replicate (20 - n) 0) (Z.of_nat n) (Z.of_nat (n - 6))).
    change (nexus_digits_try_pull_uint32 6 false) with (nexus_digits_try_pull_uint32 (Z.of_nat 6) false).
    rewrite <- Hl at 2.
    rewrite (try_pull_field cmd _ (n - 6) 6 Hd ltac:(lia) ltac:(lia)). cbn [mbind option_bind].
    unfold _nexus_channel_om_deinterleave_digits. cbn [dg_length digits_at].
    unfold NEXUS_CHANNEL_OM_FIXED_MAC_DIGIT_COUNT. rewrite Hl, u8_small by wrap.
    change 4 with (Z.of_nat (length (le_bytes 4 (field cmd (n - 6) 6)))).
    rewrite pseudorandom_bytes_cases;
      [|apply fixed_keys_ok|by vm_compute; lia|apply le_bytes_ok|by rewrite le_bytes_length].
    by rewrite decide_False by lia.
Qed.

(** A command of up to fourteen digits: what it says, and the outcome. *)
Lemma om_dispatch_cases cmd (w : W) :
  Forall is_digit_char cmd → om_ok w → om_room (om_stored w) →
  ∃ b w', om_dispatch cmd w = Some (b, w') ∧
    let auth := field cmd (length cmd - 6) 6 in
    let m := (om_parsed (om_deinterleaved cmd auth) auth).2 in
    if (b : bool)
    then ∃ id m', _nexus_channel_om_ascii_apply_message m w = Some ((true, m'), w') ∧
      om_applicable m w id ∧ om_resolved (om_key w) m id m' ∧ om_accepted w id w'
    else om_ok w' ∧ om_stored w' = om_stored w ∧ om_key w' = om_key w.
Proof.
  intros Hd Hok Hroom. unfold om_dispatch. cbv zeta. set (auth := field cmd (length cmd - 6) 6).
  pose proof (om_parsed_ok _ auth (om_deinterleaved_digits cmd auth Hd)) as Hm.
  destruct (om_parsed (om_deinterleaved cmd auth) auth) as [parsed m]. cbn [snd] in *.
  destruct parsed; [|by exists false, w].
  destruct (om_apply_cases m w Hm Hok Hroom) as (b & m' & w' & Hrun & Hres).
  exists b, w'. split; [by rewrite (bind_Some _ _ _ _ _ Hrun)|]. destruct b; [|done].
  destruct Hres as (id & Ha & Hr & Hacc). exists id, m'. done.
Qed.

(** The ID a command was applied under. *)
Definition om_command_under (data : list Z) (n : nat) (w : W) (id : Z) : Prop :=
  let cmd := take n data in
  let auth := field cmd (length cmd - 6) 6 in
  ∃ m' w', _nexus_channel_om_ascii_apply_message (om_parsed (om_deinterleaved cmd auth) auth).2 w = Some ((true, m'), w') ∧
    computed_command_id m' = id.

(** Sequences of commands, with the IDs of the accepted ones. *)
Inductive om_run (garbage : list Z) : W → list Z → W → Prop :=
| om_run_nil w : om_run garbage w [] w
| om_run_rejected w data n w1 ids w' :
  bytes_ok data → (n ≤ length data)%nat →
  nx_channel_handle_origin_command garbage data (Z.of_nat n) w = Some (NX_CHANNEL_ERROR_ACTION_REJECTED, w1) →
  om_run garbage w1 ids w' → om_run garbage w ids w'
| om_run_accepted w data n w1 id ids w' :
  bytes_ok data → (n ≤ length data)%nat →
  nx_channel_handle_origin_command garbage data (Z.of_nat n) w = Some (NX_CHANNEL_ERROR_NONE, w1) →
  om_command_under data n w id →
  om_run garbage w1 ids w' → om_run garbage w (id :: ids) w'.

(** One command of a run. *)
Lemma om_handle_step garbage data n (w w1 : W) r :
  bytes_ok data → (n ≤ length data)%nat → (20 ≤ length garbage)%nat → om_ok w → om_room (om_stored w) →
  nx_channel_handle_origin_command garbage data (Z.of_nat n) w = Some (r, w1) →
  (r = NX_CHANNEL_ERROR_ACTION_REJECTED ∧ om_ok w1 ∧ om_stored w1 = om_stored w ∧ om_key w1 = om_key w) ∨
  (r = NX_CHANNEL_ERROR_NONE ∧ ∃ id, om_accepted w id w1 ∧ id ≤ command_index (om_stored w) + 8 ∧ ¬ om_used (om_stored w) id ∧
     ∀ id', om_command_under data n w id' → id' = id).
Proof.
  intros Hb Hn Hg Hok Hroom. unfold nx_channel_handle_origin_command.
  intros (b & w2 & Hrun & Hret)%bind_inv. rewrite om_handle_spec in Hrun by done.
  case_decide as Hshape.
  { injection Hrun as <- <-. injection Hret as <- <-. by left. }
  case_decide; [|done].
  assert (Hd : Forall is_digit_char (take n data)).
  { destruct (decide (Forall is_digit_char (take n data))); [done|]. exfalso. auto. }
  destruct (om_dispatch_cases (take n data) w Hd Hok Hroom) as (b' & w2' & Hdisp & Hres).
  rewrite Hdisp in Hrun. injection Hrun as <- <-. cbv zeta in Hres. destruct b'; injection Hret as <- <-.
  - right. split; [done|]. destruct Hres as (id & m' & Happ & Ha & Hr & Hacc). exists id. split_and!; [done| | |].
    + by destruct Ha as ([_ Hhi] & _).
    + destruct Ha as ([Hlo _] & Hno & _). intros [Hlt|Hrec]; [|done].
      change (command_index (om_stored w) - 31 ≤ id) in Hlo. lia.
    + intros id' (m'' & w'' & Happ' & <-). rewrite Happ in Happ'. injection Happ' as <- <-.
      by apply om_resolved_id in Hr.
  - by left.
Qed.

(** Between the commands the invariant holds, no ID is freed, and the IDs
    applied were unused and are used. *)
Lemma om_run_spec garbage (w w' : W) ids :
  om_run garbage w ids w' → (20 ≤ length garbage)%nat → om_ok w →
  31 ≤ command_index (om_stored w) → command_index (om_stored w) + 8 * Z.of_nat (length ids) + 17 < 4294967296 →
  om_ok w' ∧ om_key w' = om_key w ∧ NoDup ids ∧ (∀ x, om_used (om_stored w) x → om_used (om_stored w') x) ∧
  ∀ id, id ∈ ids → ¬ om_used (om_stored w) id ∧ om_used (om_stored w') id.
Proof.
  induction 1 as [w|w data n w1 ids w' Hb Hn Hrun Hr IH|w data n w1 id ids w' Hb Hn Hrun Hid Hr IH]; intros Hg Hok H31 Hlim.
  - split_and!; [done|done|constructor|done|]. intros id Hin. by apply not_elem_of_nil in Hin.
  - assert (Hroom : om_room (om_stored w)) by (split; lia).
    destruct (om_handle_step _ _ _ _ _ _ Hb Hn Hg Hok Hroom Hrun) as [(_ & Hok1 & Hst1 & Hk1)|(? & _)]; [|done].
    rewrite <- Hst1, <- Hk1 in *. by apply IH.
  - cbn [length] in Hlim. assert (Hroom : om_room (om_stored w)) by (split; lia).
    destruct (om_handle_step _ _ _ _ _ _ Hb Hn Hg Hok Hroom Hrun)
      as [(? & _)|(_ & id' & [Hok1 Hk1 _ Hidx Hused] & Hhi & Hnew & Huniq)]; [done|].
    rewrite (Huniq _ Hid) in *. clear Huniq.
    destruct IH as (Hok' & Hk' & Hnd & Hkeep & Hids); [done|done|lia|lia|].
    assert (Hused' : om_used (om_stored w1) id') by (apply Hused; auto).
    split_and!; [done|congruence| | |].
    + constructor; [|done]. intros Hin. by destruct (Hids _ Hin).
    + intros x Hx. apply Hkeep, Hused. by left.
    + intros x [->|Hin]%elem_of_cons; [split; [done|by apply Hkeep]|].
      destruct (Hids x Hin) as [Hx1 Hx']. split; [|done]. intros Hx. apply Hx1, Hused. by left.
Qed.

(** ** Properties *)

(** C12: over any sequence of origin commands, the IDs under which commands are
    accepted are all different, none was used before the sequence, and every
    one is used after it: no command is accepted twice under one ID. *)
Theorem om_no_replay garbage (w w' : W) ids :
  om_run garbage w ids w' → (20 ≤ length garbage)%nat → om_ok w →
  31 ≤ command_index (om_stored w) → command_index (om_stored w) + 8 * Z.of_nat (length ids) + 17 < 4294967296 →
  NoDup ids ∧ ∀ id, id ∈ ids → ¬ om_used (om_stored w) id ∧ om_used (om_stored w') id ∧
    ∀ m, ¬ om_applicable m w' id.
Proof.
  intros Hrun Hg Hok H31 Hlim. destruct (om_run_spec _ _ _ _ Hrun Hg Hok H31 Hlim) as (_ & _ & Hnd & _ & Hids).
  split; [done|]. intros id Hin. destruct (Hids id Hin) as [Hn Hu]. split_and!; [done..|].
  intros m ([Hlo _] & Hno & _). destruct Hu as [Hlt|Hrec]; [|done].
  change (command_index (om_stored w') - 31 ≤ id) in Hlo. lia.
Qed.

(** C22: the digits that encode an origin command authentic for an unused ID of
    the window hand it to the core under the lowest such ID.  If the core
    accepts it, the command is answered NONE, exactly that ID is used up (and
    those the window leaves behind), and the new state is in NV; if the core
    rejects it, nothing of the manager's state changes. *)
Theorem om_command_applied garbage m (w : W) id :
  om_encodable m → om_ok w → om_room (om_stored w) → (20 ≤ length garbage)%nat →
  om_applicable m w id → (∀ x, om_applicable m w x → id ≤ x) →
  ∃ m' b w1, om_resolved (om_key w) m id m' ∧
    nexus_channel_core_apply_origin_command_env m' w = Some (b, w1) ∧
    if (b : bool)
    then ∃ w', nx_channel_handle_origin_command garbage (om_command m) (Z.of_nat (length (om_command m))) w =
                 Some (NX_CHANNEL_ERROR_NONE, w') ∧ om_accepted w id w'
    else nx_channel_handle_origin_command garbage (om_command m) (Z.of_nat (length (om_command m))) w =
           Some (NX_CHANNEL_ERROR_ACTION_REJECTED, w1) ∧ om_ok w1 ∧ om_stored w1 = om_stored w.
Proof.
  intros Hm Hok Hroom Hg Ha Hmin.
  assert (Hmok : om_message_ok m).
  { pose proof (om_parse_command m Hm) as Hp.
    pose proof (om_parsed_ok (om_digits m ++ dec_digits 6 (om_auth m)) (om_auth m)
      ltac:(apply Forall_app_2; [apply om_digits_ok|apply dec_digits_ok])) as Hp2. by rewrite Hp in Hp2. }
  destruct (om_apply_candidate m w id Hmok Hok Hroom Ha Hmin) as (m' & b & w1 & Hr & Hcore & Hres).
  exists m', b, w1. split; [done|]. split; [done|].
  pose proof (om_digits_length m Hm) as Hdl. pose proof (om_command_length m Hm) as Hcl.
  assert (Hdisp : _nexus_channel_om_handle_ascii_origin_command garbage (om_command m) (Z.of_nat (length (om_command m))) w =
    ('(applied, _) ← _nexus_channel_om_ascii_apply_message m; mret applied) w).
  { rewrite om_handle_spec by (done || (eapply Forall_impl; [apply om_command_digits|]; unfold is_digit_char; intros; wrap)).
    rewrite take_ge by done. rewrite decide_False, decide_True
      by (lia || (intros [?|[?|Hn]]; [lia|lia|apply Hn, om_command_digits])).
    unfold om_dispatch. rewrite om_command_auth, om_command_deinterleaved, om_parse_command by done. done. }
  unfold nx_channel_handle_origin_command. destruct b.
  - destruct Hres as (w' & Hrun & Hacc). exists w'. split; [|done].
    rewrite (bind_Some _ _ w true w'); [done|]. rewrite Hdisp. by rewrite (bind_Some _ _ _ _ _ Hrun).
  - destruct Hres as (Hrun & Hok1 & Hst1 & _). split; [|done].
    rewrite (bind_Some _ _ w false w1); [done|]. rewrite Hdisp. by rewrite (bind_Some _ _ _ _ _ Hrun).
Qed.

(** handling a command stays inside its arrays unless the command is 15 to
    20 digits: then the pseudorandom bytes that unshift the digits are read
    past the eight bytes of the hash they come from. *)
Theorem om_command_defined garbage data n (w : W) :
  bytes_ok data → (n ≤ length data)%nat → (20 ≤ length garbage)%nat → om_ok w → om_room (om_stored w) →
  (∃ r w', nx_channel_handle_origin_command garbage data (Z.of_nat n) w = Some (r, w')) ↔
  ¬ ((15 ≤ n ≤ 20)%nat ∧ Forall is_digit_char (take n data)).
Proof.
  intros Hb Hn Hg Hok Hroom. unfold nx_channel_handle_origin_command.
  pose proof (om_handle_spec garbage data n w Hb Hn Hg) as Hspec. case_decide as Hshape.
  { rewrite (bind_Some _ _ _ _ _ Hspec). split; [|by eauto]. intros _ [? Hd].
    destruct Hshape as [?|[?|?]]; [lia|lia|done]. }
  assert (Hd : Forall is_digit_char (take n data)).
  { destruct (decide (Forall is_digit_char (take n data))); [done|]. exfalso. auto. }
  assert (¬ (20 < n)%nat ∧ ¬ (n ≤ 6)%nat) as [? ?] by (split; intros ?; apply Hshape; auto).
  case_decide as H14.
  - destruct (om_dispatch_cases (take n data) w Hd Hok Hroom) as (b & w' & Hdisp & _). rewrite Hdisp in Hspec.
    rewrite (bind_Some _ _ _ _ _ Hspec). split; [intros _ [? _]; lia|]. intros _. destruct b; by eauto.
  - split; [|intros Hc; exfalso; apply Hc; split; [lia|done]].
    intros (r & w' & Hrun). unfold mbind, M_bind in Hrun. by rewrite Hspec in Hrun.
Qed.
End OmRun.
