(* ===== verification/ChannelLm.v ===== *)
(** * The link manager (nexus_channel_res_lm.c)

    The table of the links to other devices, with its copy in NV.  New links
    and the deletion of all links wait for the next [process]; a link whose
    nonce passed a multiple of 64 is saved by the next [process], and a
    restart adds 64 to the saved nonces. *)

From S2P Require Import Prelude Crc Check NvBlock Product Nv DesktopProduct Channel.
Local Open Scope Z_scope.
Local Open Scope c_scope.

Class ChannelConfig := {
  NEXUS_CHANNEL_MAX_SIMULTANEOUS_LINKS : Z;
  NEXUS_CHANNEL_SUPPORT_CONTROLLER_MODE : bool;
  NEXUS_CHANNEL_SUPPORT_ACCESSORY_MODE : bool
}.

(** The range of the build's Kconfig file. *)
Class ChannelConfigOk `{ChannelConfig} := {
  max_links_ok : 1 ≤ NEXUS_CHANNEL_MAX_SIMULTANEOUS_LINKS ≤ 10;
  some_mode : NEXUS_CHANNEL_SUPPORT_CONTROLLER_MODE || NEXUS_CHANNEL_SUPPORT_ACCESSORY_MODE = true
}.

(** The configuration of include/user_config.h: dual mode, eight links. *)
Definition user_channel_config : ChannelConfig := {|
  NEXUS_CHANNEL_MAX_SIMULTANEOUS_LINKS := 8;
  NEXUS_CHANNEL_SUPPORT_CONTROLLER_MODE := true;
  NEXUS_CHANNEL_SUPPORT_ACCESSORY_MODE := true
|}.

Lemma user_channel_config_ok : ChannelConfigOk (H := user_channel_config).
Proof. split; [cbn; lia|done]. Qed.

Definition NEXUS_CHANNEL_LINK_TIMEOUT_SECONDS : Z := 7776000.
Definition NEXUS_CHANNEL_LINK_SECURITY_NONCE_NV_STORAGE_INTERVAL_COUNT : Z := 64.

Inductive nexus_channel_link_operating_mode :=
| CHANNEL_LINK_OPERATING_MODE_ACCESSORY
| CHANNEL_LINK_OPERATING_MODE_CONTROLLER
| CHANNEL_LINK_OPERATING_MODE_DUAL_MODE_ACTIVE
| CHANNEL_LINK_OPERATING_MODE_DUAL_MODE_IDLE.

#[export] Instance operating_mode_eq_dec : EqDecision nexus_channel_link_operating_mode.
Proof. solve_decision. Defined.

Definition operating_mode_code (m : nexus_channel_link_operating_mode) : Z :=
  match m with
  | CHANNEL_LINK_OPERATING_MODE_ACCESSORY => 0
  | CHANNEL_LINK_OPERATING_MODE_CONTROLLER => 1
  | CHANNEL_LINK_OPERATING_MODE_DUAL_MODE_ACTIVE => 2
  | CHANNEL_LINK_OPERATING_MODE_DUAL_MODE_IDLE => 3
  end.

Definition NEXUS_CHANNEL_LINK_SECURITY_MODE_KEY128SYM_COSE_MAC0_AUTH_SIPHASH24 : Z := 0.

(** [mode0] is the only member of the union of security data. *)
Record nexus_channel_link_security_mode0_data := mk_mode0 { sym_key : list Z; nonce : Z }.

Record nexus_channel_link_t := mk_link {
  linked_device_id : nx_id;
  operating_mode : Z;
  security_mode : Z;
  seconds_since_init : Z;
  seconds_since_active : Z;
  security_data : nexus_channel_link_security_mode0_data
}.

Definition link_zero : nexus_channel_link_t := mk_link (mk_nx_id 0 0) 0 0 0 0 (mk_mode0 (replicate 16 0) 0).

(** The 36 packed bytes of a link. *)
Definition link_bytes (l : nexus_channel_link_t) : list Z :=
  le_bytes 2 (authority_id (linked_device_id l)) ++ le_bytes 4 (device_id (linked_device_id l)) ++
  [operating_mode l; security_mode l] ++ le_bytes 4 (seconds_since_init l) ++ le_bytes 4 (seconds_since_active l) ++
  sym_key (security_data l) ++ le_bytes 4 (nonce (security_data l)).

Definition link_of_bytes (b : list Z) : nexus_channel_link_t :=
  mk_link (mk_nx_id (le_val (take 2 b)) (le_val (take 4 (drop 2 b)))) (nth 6 b 0) (nth 7 b 0)
    (le_val (take 4 (drop 8 b))) (le_val (take 4 (drop 12 b)))
    (mk_mode0 (take 16 (drop 16 b)) (le_val (take 4 (drop 32 b)))).

Record link_manager := mk_link_manager {
  links : list nexus_channel_link_t;
  pending_link_to_create : nexus_channel_link_t;
  link_count : Z;
  link_idx_in_use : list bool;
  link_idx_should_persist_nonce : list bool;
  pending_add_link : bool;
  pending_clear_all_links : bool
}.

(** The manager with the product it calls. *)
Record lm_world (P : Type) := mk_lm_world { lm_this : link_manager; lm_prod : P }.
Arguments mk_lm_world {P} _ _.
Arguments lm_this {P} _.
Arguments lm_prod {P} _.

Definition with_seconds_since_init (n : Z) (l : nexus_channel_link_t) : nexus_channel_link_t :=
  {| l with seconds_since_init := n |}.
Definition with_seconds_since_active (n : Z) (l : nexus_channel_link_t) : nexus_channel_link_t :=
  {| l with seconds_since_active := n |}.
Definition with_nonce (n : Z) (l : nexus_channel_link_t) : nexus_channel_link_t :=
  {| l with security_data := mk_mode0 (sym_key (security_data l)) n |}.

Definition _nexus_channel_link_manager_index_to_nv_block (index : Z) : option nx_common_nv_block_meta :=
  if decide (0 ≤ index ≤ 9) then Some (NX_NV_BLOCK_CHANNEL_LM_LINK (index + 1)) else None.

Section Lm.
Context {P : Type} `{Product P} `{!ChannelProduct P} `{ChannelConfig}.

Definition max_links : nat := Z.to_nat NEXUS_CHANNEL_MAX_SIMULTANEOUS_LINKS.

Definition lm_on_prod {A} (m : M P A) : M (lm_world P) A :=
  zoom lm_prod (λ p w, {| w with lm_prod := p |}) m.
Definition lm_gets {A} (f : link_manager → A) : M (lm_world P) A := gets (λ w, f (lm_this w)).
Definition lm_modify (f : link_manager → link_manager) : M (lm_world P) unit :=
  modify (λ w, {| w with lm_this := f (lm_this w) |}).
Definition channel_notify_event (e : nxp_channel_event_type) : M P unit := modify (nxp_channel_notify_event e).

(** Reads and writes of the arrays. *)
Definition get_link (i : Z) : M (lm_world P) nexus_channel_link_t := ls ← lm_gets links; lift (aget ls i).
Definition get_in_use (i : Z) : M (lm_world P) bool := bs ← lm_gets link_idx_in_use; lift (aget bs i).
Definition get_should_persist (i : Z) : M (lm_world P) bool := bs ← lm_gets link_idx_should_persist_nonce; lift (aget bs i).
Definition put_link (i : Z) (l : nexus_channel_link_t) : M (lm_world P) unit :=
  ls ← lm_gets links; ls ← lift (aset ls i l); lm_modify (λ m, {| m with links := ls |}).
Definition put_in_use (i : Z) (b : bool) : M (lm_world P) unit :=
  bs ← lm_gets link_idx_in_use; bs ← lift (aset bs i b); lm_modify (λ m, {| m with link_idx_in_use := bs |}).
Definition put_should_persist (i : Z) (b : bool) : M (lm_world P) unit :=
  bs ← lm_gets link_idx_should_persist_nonce; bs ← lift (aset bs i b);
  lm_modify (λ m, {| m with link_idx_should_persist_nonce := bs |}).
Definition set_link_count (f : Z → Z) : M (lm_world P) unit :=
  lm_modify (λ m, {| m with link_count := u8 (f (link_count m)) |}).

(** ** Initialisation *)

(** One turn of the loop over the links; [tmp_link] is the local structure,
    in which a failed read leaves what it held. *)
Definition lm_load_link (i : Z) (tmp_link : list Z) : M (lm_world P) (list Z) :=
  meta ← lift (_nexus_channel_link_manager_index_to_nv_block i);
  '(found, tmp_link) ← lm_on_prod (nexus_nv_read meta tmp_link);
  let link := link_of_bytes tmp_link in
  when ((found : bool) && negb (device_id (linked_device_id link) =? 0))
    (put_link i link;;
     set_link_count (λ c, c + 1);;
     put_in_use i true;;
     cur ← get_link i;
     put_link i (with_nonce (u32 (nonce (security_data cur) +
       NEXUS_CHANNEL_LINK_SECURITY_NONCE_NV_STORAGE_INTERVAL_COUNT)) cur);;
     put_should_persist i true);;
  mret tmp_link.

Fixpoint lm_load_links (n : nat) (i : Z) (tmp_link : list Z) : M (lm_world P) unit :=
  match n with
  | O => mret tt
  | S n => tmp_link ← lm_load_link i tmp_link; lm_load_links n (i + 1) tmp_link
  end.

Definition lm_zero : link_manager :=
  mk_link_manager (replicate max_links link_zero) link_zero 0 (replicate max_links false)
    (replicate max_links false) false false.

(** [registered] is whether the OCF stack took the resource. *)
Definition nexus_channel_link_manager_init (garbage : list Z) (registered : bool) : M (lm_world P) bool :=
  lm_modify (λ _, lm_zero);;
  lm_load_links max_links 0 garbage;;
  mret registered.

(** ** Deletion *)

Definition _nexus_channel_link_manager_clear_link_internal (link_id : Z) : M (lm_world P) unit :=
  in_use ← get_in_use link_id;
  if negb in_use then mret tt
  else
    put_link link_id link_zero;;
    put_in_use link_id false;;
    meta ← lift (_nexus_channel_link_manager_index_to_nv_block link_id);
    link ← get_link link_id;
    _ ← lm_on_prod (nexus_nv_update meta (link_bytes link));
    set_link_count (λ c, c - 1);;
    lm_on_prod (channel_notify_event NXP_CHANNEL_EVENT_LINK_DELETED).

Definition _nexus_channel_link_manager_clear_links_internal : M (lm_world P) unit :=
  for_m max_links 0 _nexus_channel_link_manager_clear_link_internal.

Definition nexus_channel_link_manager_clear_all_links : M (lm_world P) unit :=
  lm_modify (λ m, {| m with pending_clear_all_links := true |});;
  lm_on_prod request_processing.

(** ** Processing *)

(** One turn of the loop over the links. *)
Definition lm_process_link (seconds_elapsed : Z) (i : Z) : M (lm_world P) unit :=
  in_use ← get_in_use i;
  if negb in_use then mret tt
  else
    cur_link ← get_link i;
    put_link i (with_seconds_since_init (u32 (seconds_since_init cur_link + seconds_elapsed)) cur_link);;
    cur_link ← get_link i;
    put_link i (with_seconds_since_active (u32 (seconds_since_active cur_link + seconds_elapsed)) cur_link);;
    cur_link ← get_link i;
    if NEXUS_CHANNEL_LINK_TIMEOUT_SECONDS <? seconds_since_active cur_link
    then _nexus_channel_link_manager_clear_link_internal i
    else if security_mode cur_link =? NEXUS_CHANNEL_LINK_SECURITY_MODE_KEY128SYM_COSE_MAC0_AUTH_SIPHASH24 then
      persist ← get_should_persist i;
      when persist
        (meta ← lift (_nexus_channel_link_manager_index_to_nv_block i);
         _ ← lm_on_prod (nexus_nv_update meta (link_bytes cur_link));
         put_should_persist i false)
    else mret tt.

(** The loop that puts the pending link in the first free slot. *)
Fixpoint lm_add_pending (n : nat) (i : Z) : M (lm_world P) unit :=
  match n with
  | O => mret tt
  | S n =>
    in_use ← get_in_use i;
    if (in_use : bool) then lm_add_pending n (i + 1)
    else
      set_link_count (λ c, c + 1);;
      put_in_use i true;;
      new_link ← lm_gets pending_link_to_create;
      put_link i new_link;;
      meta ← lift (_nexus_channel_link_manager_index_to_nv_block i);
      _ ← lm_on_prod (nexus_nv_update meta (link_bytes new_link));
      lm_on_prod (channel_notify_event
        (if operating_mode new_link =? operating_mode_code CHANNEL_LINK_OPERATING_MODE_CONTROLLER
         then NXP_CHANNEL_EVENT_LINK_ESTABLISHED_AS_CONTROLLER
         else NXP_CHANNEL_EVENT_LINK_ESTABLISHED_AS_ACCESSORY))
  end.

Definition nexus_channel_link_manager_process (seconds_elapsed : Z) : M (lm_world P) Z :=
  for_m max_links 0 (lm_process_link seconds_elapsed);;
  add ← lm_gets pending_add_link;
  clear ← lm_gets pending_clear_all_links;
  (if (add : bool) then
     lm_add_pending max_links 0;;
     lm_modify (λ m, {| m with pending_link_to_create := link_zero |});;
     lm_modify (λ m, {| m with pending_add_link := false |})
   else
     when clear
       (_nexus_channel_link_manager_clear_links_internal;;
        lm_modify (λ m, {| m with pending_clear_all_links := false |})));;
  mret NEXUS_COMMON_IDLE_TIME_BETWEEN_PROCESS_CALL_SECONDS.

(** ** Queries *)

(** The first index from [i], of [n], with a link in use that satisfies the
    test. *)
Fixpoint find_link (n : nat) (i : Z) (test : nexus_channel_link_t → bool) (m : link_manager) : option (option Z) :=
  match n with
  | O => Some None
  | S n =>
    in_use ← aget (link_idx_in_use m) i;
    if negb in_use then find_link n (i + 1) test m
    else
      link ← aget (links m) i;
      if test link then Some (Some i) else find_link n (i + 1) test m
  end.

Definition nx_id_eqb (a b : nx_id) : bool := (device_id a =? device_id b) && (authority_id a =? authority_id b).

Definition _nexus_channel_link_manager_link_index_from_nxid (id : nx_id) (m : link_manager) : option (option Z) :=
  find_link max_links 0 (λ l, nx_id_eqb (linked_device_id l) id) m.

Definition nexus_channel_link_manager_link_from_nxid (id : nx_id) (m : link_manager)
    : option (option nexus_channel_link_t) :=
  index ← _nexus_channel_link_manager_link_index_from_nxid id m;
  match index with
  | Some i => link ← aget (links m) i; Some (Some link)
  | None => Some None
  end.

Fixpoint oldest_accessory_loop (n : nat) (i : Z) (m : link_manager) (x : option Z * Z) : option (option Z * Z) :=
  match n with
  | O => Some x
  | S n =>
    let '(oldest_idx, oldest_secs_since_init) := x in
    link ← aget (links m) i;
    if negb (operating_mode link =? operating_mode_code CHANNEL_LINK_OPERATING_MODE_ACCESSORY)
    then oldest_accessory_loop n (i + 1) m x
    else
      in_use ← aget (link_idx_in_use m) i;
      oldest_accessory_loop n (i + 1) m
        (if (in_use : bool) && (oldest_secs_since_init <=? seconds_since_init link)
         then (Some i, seconds_since_init link) else x)
  end.

Definition _nexus_channel_link_manager_oldest_accessory_link_idx (m : link_manager) : option (option Z) :=
  '(oldest_idx, _) ← oldest_accessory_loop max_links 0 m (None, 0); Some oldest_idx.

Definition _nexus_channel_link_manager_has_link_with_role (mode : nexus_channel_link_operating_mode) (m : link_manager)
    : option (option nx_id) :=
  index ← find_link max_links 0 (λ l, operating_mode l =? operating_mode_code mode) m;
  match index with
  | Some i => link ← aget (links m) i; Some (Some (linked_device_id link))
  | None => Some None
  end.

(** The ID of the controller, if there is one. *)
Definition nexus_channel_link_manager_has_linked_controller (m : link_manager) : option (option nx_id) :=
  _nexus_channel_link_manager_has_link_with_role CHANNEL_LINK_OPERATING_MODE_ACCESSORY m.

Definition nexus_channel_link_manager_has_linked_accessory (m : link_manager) : option bool :=
  found ← _nexus_channel_link_manager_has_link_with_role CHANNEL_LINK_OPERATING_MODE_CONTROLLER m;
  Some (bool_decide (is_Some found)).

Definition nexus_channel_link_manager_operating_mode (m : link_manager) : option nexus_channel_link_operating_mode :=
  if NEXUS_CHANNEL_SUPPORT_CONTROLLER_MODE && negb NEXUS_CHANNEL_SUPPORT_ACCESSORY_MODE
  then Some CHANNEL_LINK_OPERATING_MODE_CONTROLLER
  else if negb NEXUS_CHANNEL_SUPPORT_CONTROLLER_MODE && NEXUS_CHANNEL_SUPPORT_ACCESSORY_MODE
  then Some CHANNEL_LINK_OPERATING_MODE_ACCESSORY
  else
    controller ← nexus_channel_link_manager_has_linked_controller m;
    is_controller ← nexus_channel_link_manager_has_linked_accessory m;
    let is_accessory := bool_decide (is_Some controller) in
    Some (if is_controller && is_accessory then CHANNEL_LINK_OPERATING_MODE_DUAL_MODE_ACTIVE
          else if is_controller && negb is_accessory then CHANNEL_LINK_OPERATING_MODE_CONTROLLER
          else if negb is_controller && is_accessory then CHANNEL_LINK_OPERATING_MODE_ACCESSORY
          else CHANNEL_LINK_OPERATING_MODE_DUAL_MODE_IDLE).

(** The local copy of the link is cleared before the return. *)
Definition nexus_channel_link_manager_security_data_from_nxid (id : nx_id) (m : link_manager)
    : option (option nexus_channel_link_security_mode0_data) :=
  link ← nexus_channel_link_manager_link_from_nxid id m;
  Some (option_map security_data link).

Definition nx_channel_link_count (m : link_manager) : Z := link_count m.

Definition _nexus_channel_link_manager_secs_since_link_active (id : nx_id) (m : link_manager) : option Z :=
  link ← nexus_channel_link_manager_link_from_nxid id m;
  Some (match link with Some l => seconds_since_active l | None => UINT32_MAX end).

Fixpoint accessory_count_loop (n : nat) (i : Z) (m : link_manager) (acc_count : Z) : option Z :=
  match n with
  | O => Some acc_count
  | S n =>
    in_use ← aget (link_idx_in_use m) i;
    if negb in_use then accessory_count_loop n (i + 1) m acc_count
    else
      link ← aget (links m) i;
      accessory_count_loop n (i + 1) m
        (if operating_mode link =? operating_mode_code CHANNEL_LINK_OPERATING_MODE_CONTROLLER
         then u8 (acc_count + 1) else acc_count)
  end.

Definition nexus_channel_link_manager_accessory_link_count (m : link_manager) : option Z :=
  accessory_count_loop max_links 0 m 0.

(** The search from the slot after [prev], around the table. *)
Fixpoint next_accessory_loop (n : nat) (i : Z) (m : link_manager) : option (option nx_id) :=
  match n with
  | O => Some None
  | S n =>
    let link_idx := u8 i mod NEXUS_CHANNEL_MAX_SIMULTANEOUS_LINKS in
    in_use ← aget (link_idx_in_use m) link_idx;
    link ← aget (links m) link_idx;
    if negb in_use || (operating_mode link =? operating_mode_code CHANNEL_LINK_OPERATING_MODE_ACCESSORY)
    then next_accessory_loop n (i + 1) m
    else Some (Some (linked_device_id link))
  end.

(** [None] is the null pointer. *)
Definition nexus_channel_link_manager_next_linked_accessory (previous_id : option nx_id) (m : link_manager)
    : option (option nx_id) :=
  accessory_link_count ← nexus_channel_link_manager_accessory_link_count m;
  match previous_id with
  | Some id =>
    if accessory_link_count =? 1 then
      index ← find_link max_links 0
        (λ l, negb (operating_mode l =? operating_mode_code CHANNEL_LINK_OPERATING_MODE_ACCESSORY)) m;
      match index with
      | Some i => link ← aget (links m) i; Some (Some (linked_device_id link))
      | None => Some None
      end
    else
      prev ← _nexus_channel_link_manager_link_index_from_nxid id m;
      match prev with
      | None => Some None
      | Some prev_id_link_idx => next_accessory_loop (max_links - 1) (prev_id_link_idx + 1) m
      end
  | None =>
    index ← find_link max_links 0
      (λ l, negb (operating_mode l =? operating_mode_code CHANNEL_LINK_OPERATING_MODE_ACCESSORY)) m;
    match index with
    | Some i => link ← aget (links m) i; Some (Some (linked_device_id link))
    | None => Some None
    end
  end.

(** One object of the array the GET handler sends. *)
Record link_representation := mk_link_representation {
  rep_lD : list Z; rep_oM : Z; rep_sM : Z; rep_tI : Z; rep_tA : Z; rep_tT : Z
}.

Definition link_transmit (id : nx_id) : list Z :=
  le_bytes 2 (nexus_endian_htobe16 (authority_id id)) ++ le_bytes 4 (nexus_endian_htobe32 (device_id id)).

Fixpoint populate_links_loop (n : nat) (i : Z) (m : link_manager) : option (list link_representation) :=
  match n with
  | O => Some []
  | S n =>
    in_use ← aget (link_idx_in_use m) i;
    if negb in_use then populate_links_loop n (i + 1) m
    else
      cur_link ← aget (links m) i;
      rest ← populate_links_loop n (i + 1) m;
      Some (mk_link_representation (link_transmit (linked_device_id cur_link)) (operating_mode cur_link)
              (security_mode cur_link) (seconds_since_init cur_link) (seconds_since_active cur_link)
              NEXUS_CHANNEL_LINK_TIMEOUT_SECONDS :: rest)
  end.

Definition _nexus_channel_res_link_server_get_populate_links (m : link_manager) : option (list link_representation) :=
  populate_links_loop max_links 0 m.

(** ** Creation *)

Definition nexus_channel_link_manager_create_link (linked_id : nx_id) (mode : nexus_channel_link_operating_mode)
    (security_mode_ : Z) (data : nexus_channel_link_security_mode0_data) : M (lm_world P) bool :=
  pending ← lm_gets pending_add_link;
  if (pending : bool) then mret false
  else
    this ← lm_gets (λ m, m);
    existing ← lift (_nexus_channel_link_manager_link_index_from_nxid linked_id this);
    room ←
      match existing with
      | Some idx_to_delete => _nexus_channel_link_manager_clear_link_internal idx_to_delete;; mret true
      | None =>
        if link_count this =? NEXUS_CHANNEL_MAX_SIMULTANEOUS_LINKS then
          if bool_decide (mode ≠ CHANNEL_LINK_OPERATING_MODE_ACCESSORY) then mret false
          else
            oldest ← lift (_nexus_channel_link_manager_oldest_accessory_link_idx this);
            match oldest with
            | None => mret false
            | Some idx_to_delete => _nexus_channel_link_manager_clear_link_internal idx_to_delete;; mret true
            end
        else mret true
      end;
    if negb room then mret false
    else
      lm_modify (λ m, {| m with pending_add_link := true |});;
      lm_modify (λ m, {| m with pending_link_to_create :=
        mk_link linked_id (operating_mode_code mode) (u8 security_mode_) 0 0 data |});;
      lm_on_prod request_processing;;
      mret true.

(** ** The nonce of a link *)

(** [for (i = old_nonce + 1; i <= new_nonce; i++)], until a multiple of 64. *)
Fixpoint nonce_crosses (fuel : nat) (i new_nonce : Z) : option bool :=
  match fuel with
  | O => None
  | S fuel =>
    if i <=? new_nonce then
      if i mod NEXUS_CHANNEL_LINK_SECURITY_NONCE_NV_STORAGE_INTERVAL_COUNT =? 0 then Some true
      else nonce_crosses fuel (u32 (i + 1)) new_nonce
    else Some false
  end.

Definition nexus_channel_link_manager_set_security_data_auth_nonce (id : nx_id) (new_nonce : Z)
    : M (lm_world P) bool :=
  this ← lm_gets (λ m, m);
  index ← lift (_nexus_channel_link_manager_link_index_from_nxid id this);
  match index with
  | None => mret false
  | Some link_index =>
    found_link ← get_link link_index;
    if negb (security_mode found_link =? NEXUS_CHANNEL_LINK_SECURITY_MODE_KEY128SYM_COSE_MAC0_AUTH_SIPHASH24)
    then mret false
    else
      let old_nonce := nonce (security_data found_link) in
      (if new_nonce =? 0 then put_should_persist link_index true
       else if (old_nonce <? new_nonce) && (0 <? old_nonce) then
         crosses ← lift (nonce_crosses 66 (u32 (old_nonce + 1)) new_nonce);
         when crosses (put_should_persist link_index true)
       else mret tt);;
      found_link ← get_link link_index;
      put_link link_index (with_nonce new_nonce found_link);;
      mret true
  end.

Definition nexus_channel_link_manager_reset_link_secs_since_active (id : nx_id) : M (lm_world P) bool :=
  this ← lm_gets (λ m, m);
  index ← lift (_nexus_channel_link_manager_link_index_from_nxid id this);
  match index with
  | None => mret false
  | Some link_index =>
    found_link ← get_link link_index;
    put_link link_index (with_seconds_since_active 0 found_link);;
    mret true
  end.

(** nx_channel_accessory_delete_all_links of nexus_channel_core.c. *)
Definition nx_channel_accessory_delete_all_links : M (lm_world P) nx_channel_error :=
  this ← lm_gets (λ m, m);
  mode ← lift (nexus_channel_link_manager_operating_mode this);
  if bool_decide (mode ≠ CHANNEL_LINK_OPERATING_MODE_ACCESSORY) then mret NX_CHANNEL_ERROR_ACTION_REJECTED
  else
    nexus_channel_link_manager_clear_all_links;;
    mret NX_CHANNEL_ERROR_NONE.
End Lm.
