(* ===== verification/ChannelLmSpec.v ===== *)
(** * The link manager: the table and its copy in NV

    [slot m i] is the link in slot [i], [saved p i] the link that block [i] of
    NV holds.  The lemmas give the effect of every operation on the slots and
    on NV; [lm_ok] is the invariant of table and NV. *)

From S2P Require Import Prelude Crc Check NvBlock Product Nv DesktopProduct Channel ChannelLm.
Local Open Scope Z_scope.

(** ** Links as bytes *)

Record link_ok (l : nexus_channel_link_t) : Prop := mk_link_ok {
  ok_authority : is_u16 (authority_id (linked_device_id l));
  ok_device : is_u32 (device_id (linked_device_id l));
  ok_operating : is_u8 (operating_mode l);
  ok_security : is_u8 (security_mode l);
  ok_init : is_u32 (seconds_since_init l);
  ok_active : is_u32 (seconds_since_active l);
  ok_key : bytes_ok (sym_key (security_data l));
  ok_key_length : length (sym_key (security_data l)) = 16%nat;
  ok_nonce : is_u32 (nonce (security_data l))
}.

Lemma link_zero_ok : link_ok link_zero.
Proof. split; cbn; try wrap. by repeat constructor. Qed.

Lemma link_bytes_ok l k : link_ok l → inner_ok (NX_NV_BLOCK_CHANNEL_LM_LINK k) (link_bytes l).
Proof.
  intros []. split.
  - unfold link_bytes. repeat apply Forall_app_2; try apply le_bytes_ok; try done.
    apply Forall_cons_2; [done|]. apply Forall_cons_2; [done|]. apply Forall_nil_2.
  - unfold link_bytes. rewrite !length_app, !le_bytes_length, ok_key_length0. done.
Qed.

Lemma le_val_le_bytes n x : 0 ≤ x < 256 ^ Z.of_nat n → le_val (le_bytes n x) = x.
Proof. intros Hx. rewrite le_val_bytes. by apply Z.mod_small. Qed.

(** Reading back the bytes of a link. *)
Lemma link_of_to l : link_ok l → link_of_bytes (link_bytes l) = l.
Proof.
  intros [Ha Hd Ho Hs Hi Hac Hk Hkl Hn]. destruct l as [[a d] o s i ac [k n]].
  cbn [linked_device_id authority_id device_id operating_mode security_mode seconds_since_init seconds_since_active
    security_data sym_key nonce] in *.
  unfold link_bytes, link_of_bytes.
  cbn [linked_device_id authority_id device_id operating_mode security_mode seconds_since_init seconds_since_active
    security_data sym_key nonce].
  do 16 (destruct k as [|? k]; [done|]). destruct k; [|done].
  cbn [le_bytes app take drop nth]. unfold is_u16, is_u32 in *.
  pose proof (le_val_le_bytes 2 a ltac:(cbn; lia)) as E1. pose proof (le_val_le_bytes 4 d ltac:(cbn; lia)) as E2.
  pose proof (le_val_le_bytes 4 i ltac:(cbn; lia)) as E3. pose proof (le_val_le_bytes 4 ac ltac:(cbn; lia)) as E4.
  pose proof (le_val_le_bytes 4 n ltac:(cbn; lia)) as E5. cbn [le_bytes] in *. by rewrite E1, E2, E3, E4, E5.
Qed.

(** Same link: everything but ages and nonce. *)
Record same_link (l l' : nexus_channel_link_t) : Prop := mk_same_link {
  same_id : linked_device_id l = linked_device_id l';
  same_operating : operating_mode l = operating_mode l';
  same_security : security_mode l = security_mode l';
  same_key : sym_key (security_data l) = sym_key (security_data l')
}.

#[export] Instance same_link_equivalence : Equivalence same_link.
Proof.
  split; [done| |].
  - intros a b []. by split.
  - intros a b c [] []. split; congruence.
Qed.

(** ** Counting the slots in use *)

Definition count_true (bs : list bool) : Z := Z.of_nat (length (filter (λ b, b = true) bs)).

Lemma count_true_insert bs i b :
  bs !! i = Some b → count_true (<[i := negb b]> bs) = count_true bs + (if b then -1 else 1).
Proof.
  unfold count_true. revert i. induction bs as [|x bs IH]; intros [|i] Hi; try done.
  - injection Hi as ->. change (<[0%nat := negb b]> (b :: bs)) with (negb b :: bs).
    destruct b; cbn [negb]; rewrite (filter_cons_True _ true), (filter_cons_False _ false) by done; cbn [length]; lia.
  - specialize (IH i Hi). change (<[S i := negb b]> (x :: bs)) with (x :: <[i := negb b]> bs).
    rewrite !filter_cons. case_decide; cbn [length]; destruct b; lia.
Qed.

Lemma count_true_range bs : 0 ≤ count_true bs ≤ Z.of_nat (length bs).
Proof. unfold count_true. pose proof (length_filter (λ b, b = true) bs). lia. Qed.

Lemma count_true_replicate n : count_true (replicate n false) = 0.
Proof. unfold count_true. by induction n. Qed.

(** A list with a free slot. *)
Lemma count_true_free bs : count_true bs < Z.of_nat (length bs) → ∃ i, bs !! i = Some false.
Proof.
  unfold count_true. induction bs as [|[] bs IH]; cbn [length]; intros Hc; [cbn in Hc; lia| |by exists 0%nat].
  rewrite filter_cons_True in Hc by done. cbn [length] in Hc. destruct IH as [i Hi]; [lia|]. by exists (S i).
Qed.

(** ** The table *)

(** The link in slot [i]. *)
Definition slot (m : link_manager) (i : nat) : option nexus_channel_link_t :=
  match link_idx_in_use m !! i with Some true => links m !! i | _ => None end.

Definition write_link (i : nat) (l : nexus_channel_link_t) (m : link_manager) : link_manager :=
  {| m with links := <[i := l]> (links m) |}.
Definition write_in_use (i : nat) (b : bool) (m : link_manager) : link_manager :=
  {| m with link_idx_in_use := <[i := b]> (link_idx_in_use m) |}.
Definition write_persist (i : nat) (b : bool) (m : link_manager) : link_manager :=
  {| m with link_idx_should_persist_nonce := <[i := b]> (link_idx_should_persist_nonce m) |}.
Definition write_count (f : Z → Z) (m : link_manager) : link_manager :=
  {| m with link_count := u8 (f (link_count m)) |}.

Definition on_this {P} (f : link_manager → link_manager) (w : lm_world P) : lm_world P := {| w with lm_this := f (lm_this w) |}.
Definition on_that {P} (p : P) (w : lm_world P) : lm_world P := {| w with lm_prod := p |}.

Lemma slot_write_link i l m j :
  slot (write_link i l m) j = if decide (j = i) then (λ _, l) <$> slot m i else slot m j.
Proof.
  unfold slot, write_link. cbn [link_idx_in_use links]. destruct (decide (j = i)) as [->|Hne].
  - destruct (link_idx_in_use m !! i) as [[]|]; [|done..].
    destruct (links m !! i) as [l'|] eqn:Hl.
    + rewrite list_lookup_insert_eq; [done|]. by eapply lookup_lt_Some.
    + cbn. apply lookup_ge_None in Hl. apply lookup_ge_None. by rewrite length_insert.
  - by rewrite list_lookup_insert_ne.
Qed.

Lemma slot_write_in_use i b m j :
  (i < length (link_idx_in_use m))%nat →
  slot (write_in_use i b m) j = if decide (j = i) then (if b then links m !! i else None) else slot m j.
Proof.
  intros Hi. unfold slot, write_in_use. cbn [link_idx_in_use links]. destruct (decide (j = i)) as [->|Hne].
  - rewrite list_lookup_insert_eq by done. by destruct b.
  - by rewrite list_lookup_insert_ne.
Qed.

Section LmSpec.
Context {P : Type} `{HP : ProductLaws P} `{!ReliableNv P} `{!ChannelProduct P} `{!ChannelProductLaws P}
  `{HC : ChannelConfigOk}.

Lemma max_links_range : (1 ≤ max_links ≤ 10)%nat.
Proof. unfold max_links. pose proof max_links_ok. lia. Qed.

(** The arrays have their length, links their form, and the count counts. *)
Record lm_shape (m : link_manager) : Prop := mk_lm_shape {
  shape_links : length (links m) = max_links;
  shape_in_use : length (link_idx_in_use m) = max_links;
  shape_persist : length (link_idx_should_persist_nonce m) = max_links;
  shape_ok : Forall link_ok (links m);
  shape_pending : link_ok (pending_link_to_create m);
  shape_count : link_count m = count_true (link_idx_in_use m)
}.

(** ** The statements on one slot *)

Lemma get_link_at (w : lm_world P) i l : links (lm_this w) !! i = Some l → get_link (Z.of_nat i) w = Some (l, w).
Proof. intros Hl. unfold get_link, lm_gets. mstep. rewrite aget_lookup, Nat2Z.id, Hl by lia. done. Qed.
Lemma get_in_use_at (w : lm_world P) i b :
  link_idx_in_use (lm_this w) !! i = Some b → get_in_use (Z.of_nat i) w = Some (b, w).
Proof. intros Hl. unfold get_in_use, lm_gets. mstep. rewrite aget_lookup, Nat2Z.id, Hl by lia. done. Qed.
Lemma get_should_persist_at (w : lm_world P) i b :
  link_idx_should_persist_nonce (lm_this w) !! i = Some b → get_should_persist (Z.of_nat i) w = Some (b, w).
Proof. intros Hl. unfold get_should_persist, lm_gets. mstep. rewrite aget_lookup, Nat2Z.id, Hl by lia. done. Qed.
Lemma put_link_at (w : lm_world P) i l :
  (i < length (links (lm_this w)))%nat → put_link (Z.of_nat i) l w = Some (tt, on_this (write_link i l) w).
Proof. intros Hi. unfold put_link, lm_gets, lm_modify. mstep. rewrite aset_in, Nat2Z.id by lia. done. Qed.
Lemma put_in_use_at (w : lm_world P) i b :
  (i < length (link_idx_in_use (lm_this w)))%nat → put_in_use (Z.of_nat i) b w = Some (tt, on_this (write_in_use i b) w).
Proof. intros Hi. unfold put_in_use, lm_gets, lm_modify. mstep. rewrite aset_in, Nat2Z.id by lia. done. Qed.
Lemma put_should_persist_at (w : lm_world P) i b :
  (i < length (link_idx_should_persist_nonce (lm_this w)))%nat →
  put_should_persist (Z.of_nat i) b w = Some (tt, on_this (write_persist i b) w).
Proof. intros Hi. unfold put_should_persist, lm_gets, lm_modify. mstep. rewrite aset_in, Nat2Z.id by lia. done. Qed.

Lemma index_to_nv_block_at i :
  (i < max_links)%nat →
  _nexus_channel_link_manager_index_to_nv_block (Z.of_nat i) = Some (NX_NV_BLOCK_CHANNEL_LM_LINK (Z.of_nat i + 1)).
Proof. intros Hi. pose proof max_links_range. unfold _nexus_channel_link_manager_index_to_nv_block. by rewrite decide_True by lia. Qed.

Lemma lm_meta_ok i : (i < max_links)%nat → meta_ok (NX_NV_BLOCK_CHANNEL_LM_LINK (Z.of_nat i + 1)).
Proof.
  intros Hi. pose proof max_links_range. split; [cbn [block_id NX_NV_BLOCK_CHANNEL_LM_LINK]; wrap|vm_compute; split; congruence].
Qed.

(** ** NV *)

(** The link block [i] holds; a link to device 0 counts as none. *)
Definition saved (p : P) (i : nat) : option nexus_channel_link_t :=
  match nv_stored (NX_NV_BLOCK_CHANNEL_LM_LINK (Z.of_nat i + 1)) p with
  | Some b => let l := link_of_bytes b in if device_id (linked_device_id l) =? 0 then None else Some l
  | None => None
  end.

(** The product as another module sees it: other blocks, keys and credit. *)
Record lm_frame (p p' : P) : Prop := mk_lm_frame {
  frame_blocks meta : ¬ 4 ≤ block_id meta ≤ 13 → nv_stored meta p' = nv_stored meta p;
  frame_secret : nxp_keycode_get_secret_key p' = nxp_keycode_get_secret_key p;
  frame_id : nxp_keycode_get_user_facing_id p' = nxp_keycode_get_user_facing_id p;
  frame_origin : nxp_channel_symmetric_origin_key p' = nxp_channel_symmetric_origin_key p;
  frame_payg : payg_equiv p' p
}.

#[global] Instance lm_frame_preorder : PreOrder lm_frame.
Proof.
  split; [by split|]. intros p q r [] []. split; [|congruence..|by etransitivity].
  intros meta Hm. by rewrite frame_blocks1, frame_blocks0.
Qed.

Lemma notify_frame_lm e (p : P) : lm_frame p (nxp_channel_notify_event e p) ∧ ∀ i, saved (nxp_channel_notify_event e p) i = saved p i.
Proof.
  pose proof (channel_notify_frame e p) as Hnv. split.
  - split; [intros; by rewrite Hnv|apply Hnv|apply Hnv|apply notify_origin_key|apply channel_notify_payg].
  - intros i. unfold saved. by rewrite Hnv.
Qed.

Lemma request_frame_lm (p : P) :
  lm_frame p (nxp_common_request_processing p) ∧ ∀ i, saved (nxp_common_request_processing p) i = saved p i.
Proof.
  pose proof (request_frame p) as Hnv. split.
  - split; [intros; by rewrite Hnv|apply Hnv|apply Hnv|apply request_origin_key|apply request_payg].
  - intros i. unfold saved. by rewrite Hnv.
Qed.

(** Saving a link in its block. *)
Lemma save_link_spec (w : lm_world P) i l :
  (i < max_links)%nat → link_ok l →
  ∃ p', lm_on_prod (nexus_nv_update (NX_NV_BLOCK_CHANNEL_LM_LINK (Z.of_nat i + 1)) (link_bytes l)) w =
    Some (true, on_that p' w) ∧ lm_frame (lm_prod w) p' ∧
    ∀ j, (j < max_links)%nat → saved p' j =
      if decide (j = i) then (if device_id (linked_device_id l) =? 0 then None else Some l) else saved (lm_prod w) j.
Proof.
  intros Hi Hl. pose proof max_links_range as Hmax.
  destruct (nexus_nv_update_spec (NX_NV_BLOCK_CHANNEL_LM_LINK (Z.of_nat i + 1)) (link_bytes l) (lm_prod w)
    (lm_meta_ok i Hi) (link_bytes_ok l _ Hl)) as (p' & Hup & [Hst Hoth Hk Hid Hpg]).
  exists p'. split; [unfold lm_on_prod, zoom; by rewrite Hup|]. split.
  - split; try done.
    + intros meta Hm. apply Hoth. cbn [block_id NX_NV_BLOCK_CHANNEL_LM_LINK]. lia.
    + eapply nv_update_origin_key; [by apply lm_meta_ok|by apply link_bytes_ok|exact Hup].
  - intros j Hj. unfold saved. destruct (decide (j = i)) as [->|Hne].
    + by rewrite Hst, link_of_to.
    + rewrite Hoth; [done|]. cbn [block_id NX_NV_BLOCK_CHANNEL_LM_LINK]. lia.
Qed.

(** ** The effect of an operation on slots, blocks and save flags *)

Definition upd {A} (i : nat) (x : A) (f : nat → A) (j : nat) : A := if decide (j = i) then x else f j.

Definition persist_flag (m : link_manager) (i : nat) : bool :=
  match link_idx_should_persist_nonce m !! i with Some b => b | None => false end.

Record lm_changed (w w' : lm_world P) (sl sv : nat → option nexus_channel_link_t) (pf : nat → bool) : Prop := mk_lm_changed {
  changed_shape : lm_shape (lm_this w');
  changed_frame : lm_frame (lm_prod w) (lm_prod w');
  changed_slot j : (j < max_links)%nat → slot (lm_this w') j = sl j;
  changed_saved j : (j < max_links)%nat → saved (lm_prod w') j = sv j;
  changed_persist j : (j < max_links)%nat → persist_flag (lm_this w') j = pf j;
  changed_pending : pending_add_link (lm_this w') = pending_add_link (lm_this w) ∧
    pending_link_to_create (lm_this w') = pending_link_to_create (lm_this w) ∧
    pending_clear_all_links (lm_this w') = pending_clear_all_links (lm_this w)
}.

Lemma changed_refl (w : lm_world P) :
  lm_shape (lm_this w) →
  lm_changed w w (slot (lm_this w)) (saved (lm_prod w)) (persist_flag (lm_this w)).
Proof. by split. Qed.

Lemma changed_trans (w1 w2 w3 : lm_world P) sl sv pf sl' sv' pf' :
  lm_changed w1 w2 sl sv pf → lm_changed w2 w3 sl' sv' pf' → lm_changed w1 w3 sl' sv' pf'.
Proof.
  intros [? Hf1 ? ? ? (Ha1 & Hb1 & Hc1)] [? Hf2 ? ? ? (Ha2 & Hb2 & Hc2)].
  split; [done|by etransitivity|done..|]. split_and!; congruence.
Qed.

Lemma changed_eq (w w' : lm_world P) sl sv pf sl' sv' pf' :
  lm_changed w w' sl sv pf → (∀ j, (j < max_links)%nat → sl j = sl' j) → (∀ j, (j < max_links)%nat → sv j = sv' j) →
  (∀ j, (j < max_links)%nat → pf j = pf' j) → lm_changed w w' sl' sv' pf'.
Proof. intros [? ? Hs Hv Hp ?] Es Ev Ep. split; try done; intros; rewrite ?Hs, ?Hv, ?Hp; auto. Qed.

Lemma slot_free_or_link m i :
  lm_shape m → (i < max_links)%nat →
  (link_idx_in_use m !! i = Some false ∧ slot m i = None) ∨
  (∃ l, link_idx_in_use m !! i = Some true ∧ links m !! i = Some l ∧ slot m i = Some l ∧ link_ok l).
Proof.
  intros [Hl Hu _ Hok _ _] Hi. unfold slot.
  destruct (lookup_lt_is_Some_2 (link_idx_in_use m) i) as [b Hb]; [lia|].
  destruct (lookup_lt_is_Some_2 (links m) i) as [l Hli]; [lia|].
  rewrite Hb, Hli. destruct b; [right|by left].
  exists l. split_and!; [done..|]. by eapply Forall_lookup_1.
Qed.

(** Writing the link of a slot in use. *)
Lemma changed_write_link (w : lm_world P) i l :
  lm_shape (lm_this w) → (i < max_links)%nat → is_Some (slot (lm_this w) i) → link_ok l →
  lm_changed w (on_this (write_link i l) w) (upd i (Some l) (slot (lm_this w))) (saved (lm_prod w)) (persist_flag (lm_this w)).
Proof.
  intros [Hl Hu Hp Hok Hpd Hc] Hi [l0 Hs] Hlok. split; try done.
  - split; try done; cbn; [by rewrite length_insert|by apply Forall_insert].
  - intros j _. cbn [on_this lm_this]. rewrite slot_write_link, Hs. done.
Qed.

Lemma changed_write_persist (w : lm_world P) i b :
  lm_shape (lm_this w) → (i < max_links)%nat →
  lm_changed w (on_this (write_persist i b) w) (slot (lm_this w)) (saved (lm_prod w)) (upd i b (persist_flag (lm_this w))).
Proof.
  intros [Hl Hu Hp Hok Hpd Hc] Hi. split; try done.
  - split; try done. cbn. by rewrite length_insert.
  - intros j _. unfold persist_flag, upd. cbn. destruct (decide (j = i)) as [->|Hne].
    + by rewrite list_lookup_insert_eq by lia.
    + by rewrite list_lookup_insert_ne.
Qed.

(** Saving link [l] in block [i]. *)
Lemma changed_save (w : lm_world P) i l :
  lm_shape (lm_this w) → (i < max_links)%nat → link_ok l →
  ∃ w', lm_on_prod (nexus_nv_update (NX_NV_BLOCK_CHANNEL_LM_LINK (Z.of_nat i + 1)) (link_bytes l)) w = Some (true, w') ∧
    lm_this w' = lm_this w ∧
    lm_changed w w' (slot (lm_this w))
      (upd i (if device_id (linked_device_id l) =? 0 then None else Some l) (saved (lm_prod w))) (persist_flag (lm_this w)).
Proof.
  intros Hs Hi Hl. destruct (save_link_spec w i l Hi Hl) as (p' & Hrun & Hf & Hsv).
  exists (on_that p' w). split; [done|]. split; [done|]. by split.
Qed.

Lemma changed_prod (w : lm_world P) (p : P) :
  lm_shape (lm_this w) → lm_frame (lm_prod w) p → (∀ j, saved p j = saved (lm_prod w) j) →
  lm_changed w (on_that p w) (slot (lm_this w)) (saved (lm_prod w)) (persist_flag (lm_this w)).
Proof. by split. Qed.

(** ** Deleting a link *)

Definition freed (i : nat) (m : link_manager) : link_manager :=
  write_count (λ c, c - 1) (write_in_use i false (write_link i link_zero m)).

Lemma freed_shape i m : lm_shape m → link_idx_in_use m !! i = Some true → lm_shape (freed i m).
Proof.
  intros [Hl Hu Hp Hok Hpd Hc] Hi. split; cbn; try done; try by rewrite length_insert.
  - apply Forall_insert; [done|apply link_zero_ok].
  - pose proof (count_true_insert _ _ _ Hi) as Hci. cbn [negb] in Hci. pose proof max_links_range.
    pose proof (count_true_range (<[i := false]> (link_idx_in_use m))) as Hr. rewrite length_insert, Hu in Hr.
    rewrite Hc, u8_small by wrap. lia.
Qed.

Lemma clear_link_spec (w : lm_world P) i :
  lm_shape (lm_this w) → (i < max_links)%nat →
  ∃ w', _nexus_channel_link_manager_clear_link_internal (Z.of_nat i) w = Some (tt, w') ∧
    lm_changed w w' (upd i None (slot (lm_this w)))
      (match slot (lm_this w) i with Some _ => upd i None (saved (lm_prod w)) | None => saved (lm_prod w) end)
      (persist_flag (lm_this w)).
Proof.
  intros Hs Hi. pose proof Hs as [Hl Hu _ _ _ _]. unfold _nexus_channel_link_manager_clear_link_internal.
  destruct (slot_free_or_link _ i Hs Hi) as [[Hb Hsl]|(l & Hb & Hli & Hsl & Hlok)]; rewrite Hsl;
    rewrite (bind_Some _ _ _ _ _ (get_in_use_at w i _ Hb)); cbn [negb].
  { exists w. split; [done|]. eapply changed_eq; [by apply changed_refl| |done..].
    intros j _. unfold upd. by case_decide; subst. }
  rewrite (bind_Some _ _ _ _ _ (put_link_at w i link_zero ltac:(lia))).
  rewrite (bind_Some _ _ _ _ _ (put_in_use_at (on_this (write_link i link_zero) w) i false ltac:(cbn; lia))).
  rewrite index_to_nv_block_at by done. erewrite bind_lift by reflexivity.
  set (w1 := on_this (write_in_use i false) (on_this (write_link i link_zero) w)).
  assert (Hz : links (lm_this w1) !! i = Some link_zero) by (cbn; apply list_lookup_insert_eq; lia).
  rewrite (bind_Some _ _ _ _ _ (get_link_at w1 i _ Hz)).
  destruct (save_link_spec w1 i link_zero Hi link_zero_ok) as (p' & Hrun & Hf & Hsv).
  rewrite (bind_Some _ _ _ _ _ Hrun). unfold set_link_count, lm_modify, lm_on_prod, channel_notify_event. mstep.
  eexists. split; [reflexivity|].
  destruct (notify_frame_lm NXP_CHANNEL_EVENT_LINK_DELETED p') as [Hf' Hsv'].
  split; cbn [lm_this lm_prod on_that on_this].
  - by apply freed_shape.
  - by etransitivity.
  - intros j Hj. change (slot (freed i (lm_this w)) j = upd i None (slot (lm_this w)) j).
    unfold upd. change (slot (freed i (lm_this w)) j) with (slot (write_in_use i false (write_link i link_zero (lm_this w))) j).
    rewrite slot_write_in_use by (cbn; lia). case_decide as Hd; [done|].
    rewrite slot_write_link. by rewrite decide_False.
  - intros j Hj. rewrite Hsv', Hsv by done. unfold upd. by case_decide.
  - done.
  - done.
Qed.
End LmSpec.
