(* ===== verification/ChannelLmProcess.v ===== *)
(** * The link manager: processing

    [process] as a function on each slot, its block and its save flag, then
    the pending link or the pending deletion. *)

From S2P Require Import Prelude Crc Check NvBlock Product Nv DesktopProduct Channel ChannelLm ChannelLmSpec.
Local Open Scope Z_scope.

(** ** One slot *)

Definition aged (dt : Z) (l : nexus_channel_link_t) : nexus_channel_link_t :=
  with_seconds_since_active (u32 (seconds_since_active l + dt))
    (with_seconds_since_init (u32 (seconds_since_init l + dt)) l).

Definition timed_out (dt : Z) (l : nexus_channel_link_t) : bool :=
  NEXUS_CHANNEL_LINK_TIMEOUT_SECONDS <? u32 (seconds_since_active l + dt).

(** What block [i] is left with when link [l] is written to it. *)
Definition kept (l : nexus_channel_link_t) : option nexus_channel_link_t :=
  if device_id (linked_device_id l) =? 0 then None else Some l.

Definition process_slot (dt : Z) (s : option nexus_channel_link_t) : option nexus_channel_link_t :=
  match s with
  | Some l => if timed_out dt l then None else Some (aged dt l)
  | None => None
  end.

Definition process_saved (dt : Z) (s : option nexus_channel_link_t) (persist : bool) (sv : option nexus_channel_link_t)
    : option nexus_channel_link_t :=
  match s with
  | Some l =>
    if timed_out dt l then None
    else if (security_mode l =? 0) && persist then kept (aged dt l) else sv
  | None => sv
  end.

Definition process_persist (dt : Z) (s : option nexus_channel_link_t) (persist : bool) : bool :=
  match s with
  | Some l => if timed_out dt l then persist else if security_mode l =? 0 then false else persist
  | None => persist
  end.

Lemma aged_ok dt l : link_ok l → link_ok (aged dt l).
Proof. intros []. split; cbn; try done; apply u32_range. Qed.

Lemma aged_same dt l : same_link (aged dt l) l.
Proof. by split. Qed.

Section LmProcess.
Context {P : Type} `{HP : ProductLaws P} `{!ReliableNv P} `{!ChannelProduct P} `{!ChannelProductLaws P}
  `{HC : ChannelConfigOk}.

Lemma persist_at m i : lm_shape m → (i < max_links)%nat → link_idx_should_persist_nonce m !! i = Some (persist_flag m i).
Proof.
  intros [_ _ Hp _ _ _] Hi. unfold persist_flag.
  by destruct (lookup_lt_is_Some_2 (link_idx_should_persist_nonce m) i) as [b ->]; [lia|].
Qed.

Lemma process_link_spec dt (w : lm_world P) i :
  lm_shape (lm_this w) → (i < max_links)%nat →
  ∃ w', lm_process_link dt (Z.of_nat i) w = Some (tt, w') ∧
    lm_changed w w' (upd i (process_slot dt (slot (lm_this w) i)) (slot (lm_this w)))
      (upd i (process_saved dt (slot (lm_this w) i) (persist_flag (lm_this w) i) (saved (lm_prod w) i)) (saved (lm_prod w)))
      (upd i (process_persist dt (slot (lm_this w) i) (persist_flag (lm_this w) i)) (persist_flag (lm_this w))).
Proof.
  intros Hs Hi. pose proof Hs as [Hl Hu _ _ _ _]. unfold lm_process_link.
  destruct (slot_free_or_link _ i Hs Hi) as [[Hb Hsl]|(l & Hb & Hli & Hsl & Hlok)]; rewrite Hsl;
    rewrite (bind_Some _ _ _ _ _ (get_in_use_at w i _ Hb)); cbn [negb].
  { exists w. split; [done|]. eapply changed_eq; [by apply changed_refl|..]; intros j _; unfold upd; by case_decide; subst. }
  rewrite (bind_Some _ _ _ _ _ (get_link_at w i _ Hli)).
  rewrite (bind_Some _ _ _ _ _ (put_link_at w i _ ltac:(lia))).
  set (l1 := with_seconds_since_init (u32 (seconds_since_init l + dt)) l). set (w1 := on_this (write_link i l1) w).
  assert (Hl1 : links (lm_this w1) !! i = Some l1) by (cbn; apply list_lookup_insert_eq; lia).
  rewrite (bind_Some _ _ _ _ _ (get_link_at w1 i _ Hl1)).
  rewrite (bind_Some _ _ _ _ _ (put_link_at w1 i _ ltac:(cbn; rewrite length_insert; lia))).
  change (with_seconds_since_active (u32 (seconds_since_active l1 + dt)) l1) with (aged dt l).
  set (w2 := on_this (write_link i (aged dt l)) w1).
  assert (Hl2 : links (lm_this w2) !! i = Some (aged dt l)) by (cbn; apply list_lookup_insert_eq; rewrite length_insert; lia).
  rewrite (bind_Some _ _ _ _ _ (get_link_at w2 i _ Hl2)).
  assert (Hc2 : lm_changed w w2 (upd i (Some (aged dt l)) (slot (lm_this w))) (saved (lm_prod w)) (persist_flag (lm_this w))).
  { assert (Hw2 : w2 = on_this (write_link i (aged dt l)) w).
    { unfold w2, w1, on_this, write_link. cbn. by rewrite list_insert_insert_eq. }
    rewrite Hw2. apply changed_write_link; [done|done|by rewrite Hsl|by apply aged_ok]. }
  clearbody w2. change (seconds_since_active (aged dt l)) with (u32 (seconds_since_active l + dt)).
  fold (timed_out dt l). change (security_mode (aged dt l)) with (security_mode l).
  unfold process_slot, process_saved, process_persist.
  pose proof Hc2 as [Hs2 _ Hsl2 Hsv2 Hpf2 _].
  destruct (timed_out dt l).
  - destruct (clear_link_spec w2 i Hs2 Hi) as (w3 & Hrun & Hc3). exists w3. split; [done|].
    eapply changed_eq; [eapply changed_trans; [exact Hc2|exact Hc3]|..].
    + intros j Hj. unfold upd. case_decide as Hd; [done|]. rewrite Hsl2 by done. unfold upd. by rewrite decide_False.
    + intros j Hj. rewrite Hsl2 by done. unfold upd at 1. rewrite decide_True by done.
      unfold upd. case_decide; [done|]. by apply Hsv2.
    + intros j Hj. rewrite Hpf2 by done. unfold upd. by case_decide; subst.
  - change NEXUS_CHANNEL_LINK_SECURITY_MODE_KEY128SYM_COSE_MAC0_AUTH_SIPHASH24 with 0.
    destruct (security_mode l =? 0); cbn [andb].
    2: { exists w2. split; [done|]. eapply changed_eq; [exact Hc2|done|..]; intros j _; unfold upd; by case_decide; subst. }
    rewrite (bind_Some _ _ _ _ _ (get_should_persist_at w2 i _ (persist_at _ i Hs2 Hi))). rewrite Hpf2 by done.
    destruct (persist_flag (lm_this w) i) eqn:Hpers; cbn [when].
    2: { exists w2. split; [done|]. eapply changed_eq; [exact Hc2|done|..]; intros j _; unfold upd; by case_decide; subst. }
    rewrite index_to_nv_block_at by done. erewrite bind_lift by reflexivity.
    destruct (changed_save w2 i (aged dt l) Hs2 Hi (aged_ok dt l Hlok)) as (w3 & Hrun & Hthis & Hc3).
    rewrite (bind_Some _ _ _ _ _ Hrun).
    assert (Hs3 : lm_shape (lm_this w3)) by (by rewrite Hthis).
    rewrite put_should_persist_at by (rewrite (shape_persist _ Hs3); done).
    eexists. split; [reflexivity|]. eapply changed_eq;
      [eapply changed_trans; [exact Hc2|eapply changed_trans; [exact Hc3|by apply changed_write_persist]]|..].
    + intros j Hj. by rewrite Hthis, Hsl2.
    + intros j Hj. destruct Hc3 as [_ _ _ Hsv3 _ _]. rewrite Hsv3 by done. unfold upd. case_decide; [done|by apply Hsv2].
    + intros j Hj. unfold upd. case_decide; [done|]. rewrite Hthis. by apply Hpf2.
Qed.

(** The loop over the slots. *)
Lemma process_links_spec dt (w : lm_world P) :
  lm_shape (lm_this w) →
  ∃ w', for_m max_links 0 (lm_process_link dt) w = Some (tt, w') ∧
    lm_changed w w' (λ j, process_slot dt (slot (lm_this w) j))
      (λ j, process_saved dt (slot (lm_this w) j) (persist_flag (lm_this w) j) (saved (lm_prod w) j))
      (λ j, process_persist dt (slot (lm_this w) j) (persist_flag (lm_this w) j)).
Proof.
  intros Hs.
  set (I := λ (k : Z) (w' : lm_world P), lm_changed w w'
    (λ j, if decide (Z.of_nat j < k) then process_slot dt (slot (lm_this w) j) else slot (lm_this w) j)
    (λ j, if decide (Z.of_nat j < k) then process_saved dt (slot (lm_this w) j) (persist_flag (lm_this w) j) (saved (lm_prod w) j)
          else saved (lm_prod w) j)
    (λ j, if decide (Z.of_nat j < k) then process_persist dt (slot (lm_this w) j) (persist_flag (lm_this w) j)
          else persist_flag (lm_this w) j)).
  destruct (for_m_invariant I max_links 0 (lm_process_link dt) w) as (w' & Hrun & Hc).
  - unfold I. eapply changed_eq; [by apply changed_refl|..]; intros j _; by rewrite decide_False by lia.
  - intros k x Hk Hx. unfold I in Hx. pose proof Hx as [Hsx _ Hslx Hsvx Hpfx _].
    replace k with (Z.of_nat (Z.to_nat k)) by lia. set (i := Z.to_nat k). assert (Hi : (i < max_links)%nat) by lia.
    destruct (process_link_spec dt x i Hsx Hi) as (x' & Hrun & Hc). exists x'. split; [done|].
    unfold I. eapply changed_eq; [eapply changed_trans; [exact Hx|exact Hc]|..]; intros j Hj; unfold upd;
      rewrite ?Hslx, ?Hsvx, ?Hpfx by done; destruct (decide (j = i)) as [->|Hne].
    all: repeat case_decide; (done || (exfalso; lia)).
  - exists w'. split; [done|]. eapply changed_eq; [exact Hc|..]; intros j Hj; cbv beta; by rewrite decide_True by lia.
Qed.

(** ** The pending link *)

Definition filled (i : nat) (l : nexus_channel_link_t) (m : link_manager) : link_manager :=
  write_link i l (write_in_use i true (write_count (λ c, c + 1) m)).

Lemma filled_shape i l m : lm_shape m → link_idx_in_use m !! i = Some false → link_ok l → lm_shape (filled i l m).
Proof.
  intros [Hl Hu Hp Hok Hpd Hc] Hi Hlok. split; cbn; try done; try by rewrite length_insert.
  - by apply Forall_insert.
  - pose proof (count_true_insert _ _ _ Hi) as Hci. cbn [negb] in Hci. pose proof max_links_range.
    pose proof (count_true_range (<[i := true]> (link_idx_in_use m))) as Hr. rewrite length_insert, Hu in Hr.
    pose proof (count_true_range (link_idx_in_use m)) as Hr2.
    rewrite Hc, u8_small by wrap. lia.
Qed.

(** The link goes to the first free slot and to its block. *)
Lemma add_pending_loop n i (w : lm_world P) :
  lm_shape (lm_this w) → (i + n = max_links)%nat →
  (∃ k, (i ≤ k < max_links)%nat ∧ slot (lm_this w) k = None) →
  let l := pending_link_to_create (lm_this w) in
  ∃ k w', (i ≤ k < max_links)%nat ∧ slot (lm_this w) k = None ∧
    (∀ j, (i ≤ j < k)%nat → is_Some (slot (lm_this w) j)) ∧
    lm_add_pending n (Z.of_nat i) w = Some (tt, w') ∧
    lm_changed w w' (upd k (Some l) (slot (lm_this w))) (upd k (kept l) (saved (lm_prod w))) (persist_flag (lm_this w)).
Proof.
  intros Hs. revert i. induction n as [|n IH]; intros i Hn (k & Hk & Hfree) l; [lia|].
  assert (Hi : (i < max_links)%nat) by lia. pose proof Hs as [Hl Hu _ _ Hpd _]. cbn [lm_add_pending].
  destruct (slot_free_or_link _ i Hs Hi) as [[Hb Hsl]|(l' & Hb & _ & Hsl & _)];
    rewrite (bind_Some _ _ _ _ _ (get_in_use_at w i _ Hb)).
  - set (w1 := on_this (write_count (λ c, c + 1)) w).
    assert (Hcount : set_link_count (λ c, c + 1) w = Some (tt, w1)) by done.
    rewrite (bind_Some _ _ _ _ _ Hcount).
    rewrite (bind_Some _ _ _ _ _ (put_in_use_at w1 i true ltac:(cbn; lia))).
    erewrite bind_Some by reflexivity.
    change (pending_link_to_create (lm_this (on_this (write_in_use i true) w1))) with l.
    rewrite (bind_Some _ _ _ _ _ (put_link_at (on_this (write_in_use i true) w1) i l ltac:(cbn; lia))).
    rewrite index_to_nv_block_at by done. erewrite bind_lift by reflexivity.
    set (w2 := on_this (write_link i l) (on_this (write_in_use i true) w1)).
    destruct (save_link_spec w2 i l Hi Hpd) as (p' & Hrun & Hf & Hsv). rewrite (bind_Some _ _ _ _ _ Hrun).
    unfold lm_on_prod, channel_notify_event. mstep.
    set (e := if operating_mode l =? _ then _ else _).
    destruct (notify_frame_lm e p') as [Hf' Hsv'].
    exists i. eexists. split; [lia|]. split; [done|]. split; [lia|]. split; [reflexivity|].
    split; cbn [lm_this lm_prod on_that on_this].
    + change (lm_shape (filled i l (lm_this w))). by apply filled_shape.
    + by etransitivity.
    + intros j Hj. change (slot (filled i l (lm_this w)) j = upd i (Some l) (slot (lm_this w)) j).
      unfold filled. rewrite slot_write_link, !slot_write_in_use by (cbn; lia). unfold upd.
      destruct (decide (j = i)) as [->|Hne]; [|done]. rewrite decide_True by done.
      by destruct (lookup_lt_is_Some_2 (links (write_count (λ c, c + 1) (lm_this w))) i) as [? ->]; [cbn; lia|].
    + intros j Hj. rewrite Hsv', Hsv by done. done.
    + done.
    + done.
  - destruct (IH (S i) ltac:(lia)) as (k' & w' & Hk' & Hfree' & Hused & Hrun & Hc).
    { exists k. split; [|done]. assert (k ≠ i) by (intros ->; congruence). lia. }
    exists k', w'. split; [lia|]. split; [done|]. split.
    + intros j Hj. destruct (decide (j = i)) as [->|]; [by rewrite Hsl|]. apply Hused. lia.
    + split; [|done]. by replace (Z.of_nat i + 1) with (Z.of_nat (S i)) by lia.
Qed.

(** Deleting all links. *)
Lemma clear_links_spec (w : lm_world P) :
  lm_shape (lm_this w) → (∀ j, (j < max_links)%nat → slot (lm_this w) j = None → saved (lm_prod w) j = None) →
  ∃ w', _nexus_channel_link_manager_clear_links_internal w = Some (tt, w') ∧
    lm_changed w w' (λ _, None) (λ _, None) (persist_flag (lm_this w)).
Proof.
  intros Hs Hmir.
  set (I := λ (k : Z) (w' : lm_world P), lm_changed w w'
    (λ j, if decide (Z.of_nat j < k) then None else slot (lm_this w) j)
    (λ j, if decide (Z.of_nat j < k) then None else saved (lm_prod w) j) (persist_flag (lm_this w))).
  destruct (for_m_invariant I max_links 0 _nexus_channel_link_manager_clear_link_internal w) as (w' & Hrun & Hc).
  - unfold I. eapply changed_eq; [by apply changed_refl|..]; intros j _; by rewrite ?decide_False by lia.
  - intros k x Hk Hx. unfold I in Hx. pose proof Hx as [Hsx _ Hslx Hsvx Hpfx _].
    replace k with (Z.of_nat (Z.to_nat k)) by lia. set (i := Z.to_nat k). assert (Hi : (i < max_links)%nat) by lia.
    destruct (clear_link_spec x i Hsx Hi) as (x' & Hrun & Hc). exists x'. split; [done|].
    unfold I. eapply changed_eq; [eapply changed_trans; [exact Hx|exact Hc]|..]; intros j Hj.
    + unfold upd. rewrite Hslx by done. repeat case_decide; (done || (exfalso; lia)).
    + rewrite Hslx by done. rewrite decide_False by lia. destruct (slot (lm_this w) i) eqn:Hsl.
      * unfold upd. rewrite Hsvx by done. repeat case_decide; (done || (exfalso; lia)).
      * rewrite Hsvx by done. destruct (decide (j = i)) as [->|]; [rewrite Hmir by done; by repeat case_decide|].
        repeat case_decide; (done || (exfalso; lia)).
    + by rewrite Hpfx.
  - exists w'. split; [exact Hrun|]. eapply changed_eq; [exact Hc|..]; intros j Hj; cbv beta; rewrite ?decide_True by lia; done.
Qed.
End LmProcess.
