(* ===== verification/ChannelLmTable.v ===== *)
(** * The link manager: the invariant, and every operation by its effect

    [lm_ok]: the slots hold links to different devices, NV holds the same
    links (up to ages and nonces), and a pending link has a free slot and a
    device of its own. *)


From S2P Require Import Prelude Crc Check NvBlock Product DesktopProduct Nv Channel ChannelLm ChannelLmSpec ChannelLmProcess.
Local Open Scope Z_scope.

Abbreviation table := (nat → option nexus_channel_link_t).

Section LmTable.
Context {P : Type} `{HP : ProductLaws P} `{!ReliableNv P} `{!ChannelProduct P} `{!ChannelProductLaws P}
  `{HC : ChannelConfigOk}.

Record table_ok (sl sv : table) : Prop := mk_table_ok {
  table_links j l : (j < max_links)%nat → sl j = Some l → link_ok l;
  table_distinct i j li lj : (i < max_links)%nat → (j < max_links)%nat → sl i = Some li → sl j = Some lj →
    linked_device_id li = linked_device_id lj → i = j;
  table_back j l : (j < max_links)%nat → sv j = Some l → ∃ l', sl j = Some l' ∧ same_link l' l;
  table_some j l : (j < max_links)%nat → sl j = Some l → device_id (linked_device_id l) ≠ 0 →
    ∃ l', sv j = Some l' ∧ same_link l l' ∧ link_ok l'
}.

Lemma table_none sl sv j : table_ok sl sv → (j < max_links)%nat → sl j = None → sv j = None.
Proof.
  intros Ht Hj Hn. destruct (sv j) as [l|] eqn:Hl; [|done].
  destruct (table_back _ _ Ht j l Hj Hl) as (l' & Hl' & _). congruence.
Qed.

(** No slot holds a link to [id]. *)
Definition absent (sl : table) (id : nx_id) : Prop :=
  ∀ j l, (j < max_links)%nat → sl j = Some l → linked_device_id l ≠ id.

Definition lm_ok (w : lm_world P) : Prop :=
  lm_shape (lm_this w) ∧ table_ok (slot (lm_this w)) (saved (lm_prod w)) ∧
  (pending_add_link (lm_this w) = true →
   (∃ j, (j < max_links)%nat ∧ slot (lm_this w) j = None) ∧
   absent (slot (lm_this w)) (linked_device_id (pending_link_to_create (lm_this w)))).

Lemma table_ok_eq (sl sv sl' sv' : table) :
  table_ok sl sv → (∀ j, (j < max_links)%nat → sl' j = sl j) → (∀ j, (j < max_links)%nat → sv' j = sv j) → table_ok sl' sv'.
Proof.
  intros [H1 H2 H3 H4] Es Ev. split.
  - intros j l Hj. rewrite Es by done. by apply H1.
  - intros i j li lj Hi Hj. rewrite !Es by done. by apply H2.
  - intros j l Hj. rewrite Es, Ev by done. by apply H3.
  - intros j l Hj. rewrite Es, Ev by done. by apply H4.
Qed.

Lemma table_upd_none sl sv i : table_ok sl sv → table_ok (upd i None sl) (upd i None sv).
Proof.
  intros [H1 H2 H3 H4]. split; unfold upd.
  - intros j l Hj. case_decide; [done|by apply H1].
  - intros a b la lb Ha Hb. repeat case_decide; try done. by apply H2.
  - intros j l Hj. case_decide; [done|by apply H3].
  - intros j l Hj. case_decide; [done|by apply H4].
Qed.

Lemma table_upd_some sl sv i l :
  table_ok sl sv → link_ok l → (i < max_links)%nat → sl i = None → absent sl (linked_device_id l) →
  table_ok (upd i (Some l) sl) (upd i (kept l) sv).
Proof.
  intros [H1 H2 H3 H4] Hl Hi Hfree Habs. split; unfold upd.
  - intros j l' Hj. case_decide; [by intros [= <-]|by apply H1].
  - intros a b la lb Ha Hb. repeat case_decide; subst; try done.
    + intros [= <-] Hlb Heq. exfalso. by eapply (Habs b).
    + intros Hla [= <-] Heq. exfalso. by eapply (Habs a).
    + by apply H2.
  - intros j l' Hj. case_decide; [|by apply H3]. unfold kept. case_match; [done|]. intros [= <-]. by exists l.
  - intros j l' Hj. case_decide; [|by apply H4]. intros [= <-] Hd. exists l. split_and!; try done.
    unfold kept. by rewrite (proj2 (Z.eqb_neq _ _) Hd).
Qed.

(** The slot [i] gets a link to the same device; its block keeps a link to it
    or is overwritten. *)
Lemma table_upd_same sl sv i l l' sv' :
  table_ok sl sv → (i < max_links)%nat → sl i = Some l → link_ok l' → same_link l' l →
  (sv' = sv i ∨ sv' = kept l') → table_ok (upd i (Some l') sl) (upd i sv' sv).
Proof.
  intros [H1 H2 H3 H4] Hi Hsl Hl' Hsame Hsv. split; unfold upd.
  - intros j x Hj. case_decide; [by intros [= <-]|by apply H1].
  - intros a b la lb Ha Hb. repeat case_decide; subst; try done.
    + intros [= <-] Hlb Heq. eapply H2; [done|done|exact Hsl|exact Hlb|]. by rewrite <- Heq, (same_id _ _ Hsame).
    + intros Hla [= <-] Heq. eapply H2; [done|done|exact Hla|exact Hsl|]. by rewrite Heq, (same_id _ _ Hsame).
    + by apply H2.
  - intros j x Hj. case_decide; [subst|by apply H3]. intros Hx. exists l'. split; [done|]. destruct Hsv as [->| ->].
    + destruct (H3 i x Hi Hx) as (l2 & Hl2 & Hs2). etransitivity; [exact Hsame|]. by assert (l2 = l) as -> by congruence.
    + revert Hx. unfold kept. case_match; [done|]. by intros [= <-].
  - intros j x Hj. case_decide; [subst|by apply H4]. intros [= <-] Hd. destruct Hsv as [->| ->].
    + rewrite (same_id _ _ Hsame) in Hd. destruct (H4 i l Hi Hsl Hd) as (l2 & Hl2 & Hs2 & Hok2).
      exists l2. split_and!; [done|by etransitivity|done].
    + exists l'. split_and!; try done. unfold kept. by rewrite (proj2 (Z.eqb_neq _ _) Hd).
Qed.

Lemma absent_upd_none sl i id : absent sl id → absent (upd i None sl) id.
Proof. intros Ha j l Hj. unfold upd. case_decide; [done|by apply Ha]. Qed.

(** One slot after the other. *)
Lemma table_processed dt (sl sv : table) (pf : nat → bool) :
  table_ok sl sv →
  table_ok (λ j, process_slot dt (sl j)) (λ j, process_saved dt (sl j) (pf j) (sv j)).
Proof.
  intros [H1 H2 H3 H4].
  assert (Hinv : ∀ j l, process_slot dt (sl j) = Some l →
    ∃ l0, sl j = Some l0 ∧ l = aged dt l0 ∧ timed_out dt l0 = false).
  { intros j l. unfold process_slot. destruct (sl j) as [l0|]; [|done].
    destruct (timed_out dt l0) eqn:Ht; [done|]. intros [= <-]. by exists l0. }
  split.
  - intros j l Hj (l0 & Hl0 & -> & _)%Hinv. apply aged_ok. by eapply H1.
  - intros i j li lj Hi Hj (l0 & Hl0 & -> & _)%Hinv (l1 & Hl1 & -> & _)%Hinv Heq. by eapply H2.
  - intros j x Hj. unfold process_slot, process_saved. pose proof (H3 j x Hj) as Hback.
    destruct (sl j) as [l|]; [|by intros (? & ? & _)%Hback].
    destruct (timed_out dt l); [done|]. intros Hx. exists (aged dt l). split; [done|].
    destruct ((security_mode l =? 0) && pf j).
    + revert Hx. unfold kept. case_match; [done|]. by intros [= <-].
    + destruct (Hback Hx) as (l2 & [= <-] & Hs2). etransitivity; [apply aged_same|done].
  - intros j l Hj (l0 & Hl0 & -> & Ht)%Hinv Hd. change (device_id (linked_device_id l0) ≠ 0) in Hd.
    unfold process_saved. rewrite Hl0, Ht. pose proof (H1 j l0 Hj Hl0) as Hok.
    destruct ((security_mode l0 =? 0) && pf j).
    + exists (aged dt l0). split_and!; [|done|by apply aged_ok]. unfold kept.
      change (device_id (linked_device_id (aged dt l0))) with (device_id (linked_device_id l0)).
      by rewrite (proj2 (Z.eqb_neq _ _) Hd).
    + destruct (H4 j l0 Hj Hl0 Hd) as (l' & Hl' & Hs' & Hok'). exists l'. split_and!; [done| |done].
      etransitivity; [apply aged_same|done].
Qed.

Lemma absent_processed dt (sl : table) id : absent sl id → absent (λ j, process_slot dt (sl j)) id.
Proof.
  intros Ha j l Hj. unfold process_slot. destruct (sl j) as [l0|] eqn:Hl; [|done].
  destruct (timed_out dt l0); [done|]. intros [= <-]. by apply (Ha j l0).
Qed.

(** ** process *)

(** The table and the blocks after [process], but for the pending work. *)
Definition processed_slot (dt : Z) (w : lm_world P) : table := λ j, process_slot dt (slot (lm_this w) j).
Definition processed_saved (dt : Z) (w : lm_world P) : table :=
  λ j, process_saved dt (slot (lm_this w) j) (persist_flag (lm_this w) j) (saved (lm_prod w) j).
Definition processed_persist (dt : Z) (w : lm_world P) : nat → bool :=
  λ j, process_persist dt (slot (lm_this w) j) (persist_flag (lm_this w) j).

Record lm_result (w w' : lm_world P) (sl sv : table) (pf : nat → bool) : Prop := mk_lm_result {
  result_ok : lm_ok w';
  result_frame : lm_frame (lm_prod w) (lm_prod w');
  result_slot j : (j < max_links)%nat → slot (lm_this w') j = sl j;
  result_saved j : (j < max_links)%nat → saved (lm_prod w') j = sv j;
  result_persist j : (j < max_links)%nat → persist_flag (lm_this w') j = pf j
}.

Lemma lm_process_spec dt (w : lm_world P) :
  lm_ok w →
  ∃ w', nexus_channel_link_manager_process dt w = Some (NEXUS_COMMON_IDLE_TIME_BETWEEN_PROCESS_CALL_SECONDS, w') ∧
    pending_add_link (lm_this w') = false ∧
    if pending_add_link (lm_this w) then
      let l := pending_link_to_create (lm_this w) in
      pending_clear_all_links (lm_this w') = pending_clear_all_links (lm_this w) ∧
      ∃ i, (i < max_links)%nat ∧ processed_slot dt w i = None ∧ (∀ j, (j < i)%nat → is_Some (processed_slot dt w j)) ∧
        lm_result w w' (upd i (Some l) (processed_slot dt w)) (upd i (kept l) (processed_saved dt w)) (processed_persist dt w)
    else
      pending_clear_all_links (lm_this w') = false ∧
      if pending_clear_all_links (lm_this w)
      then lm_result w w' (λ _, None) (λ _, None) (processed_persist dt w)
      else lm_result w w' (processed_slot dt w) (processed_saved dt w) (processed_persist dt w).
Proof.
  intros (Hs & Ht & Hp). unfold nexus_channel_link_manager_process.
  destruct (process_links_spec dt w Hs) as (w1 & Hrun1 & Hc1). rewrite (bind_Some _ _ _ _ _ Hrun1).
  pose proof Hc1 as [Hs1 Hf1 Hsl1 Hsv1 Hpf1 (Hpa & Hpl & Hpc)].
  fold (processed_slot dt w) in Hc1. fold (processed_saved dt w) in Hc1. fold (processed_persist dt w) in Hc1.
  pose proof (table_processed dt _ _ (persist_flag (lm_this w)) Ht) as Ht1.
  assert (Ht1' : table_ok (slot (lm_this w1)) (saved (lm_prod w1))) by (eapply table_ok_eq; [exact Ht1|done|done]).
  do 2 (erewrite bind_Some by reflexivity). rewrite Hpa, Hpc.
  destruct (pending_add_link (lm_this w)) eqn:Hadd.
  - destruct (Hp eq_refl) as [(j0 & Hj0 & Hfree0) Habs].
    assert (Hlok : link_ok (pending_link_to_create (lm_this w))) by (by destruct Hs).
    destruct (add_pending_loop max_links 0 w1 Hs1 ltac:(lia)) as (i & w2 & Hi & Hfree & Hused & Hrun2 & Hc2).
    { exists j0. split; [lia|]. rewrite Hsl1 by done. by rewrite Hfree0. }
    rewrite Hpl in Hc2. cbn [Z.of_nat] in Hrun2.
    unfold lm_modify. mstep. unfold lm_add_pending in Hrun2. fold lm_add_pending in Hrun2.
    change (lm_add_pending max_links 0 w1 = Some (tt, w2)) in Hrun2. rewrite Hrun2.
    pose proof Hc2 as [[H1 H2 H3 H4 H5 H6] Hf2 Hsl2 Hsv2 Hpf2 (_ & _ & Hpc2)].
    eexists. split; [reflexivity|]. split; [done|]. split; [cbn; congruence|].
    exists i. assert (Hfree' : processed_slot dt w i = None) by (unfold processed_slot; rewrite <- Hsl1 by lia; done).
    split; [lia|]. split; [done|]. split.
    { intros j Hj. unfold processed_slot. rewrite <- Hsl1 by lia. apply Hused. lia. }
    assert (Hslx : ∀ j, (j < max_links)%nat → slot (lm_this w2) j = upd i (Some (pending_link_to_create (lm_this w))) (processed_slot dt w) j).
    { intros j Hj. rewrite Hsl2 by done. unfold upd. case_decide; [done|]. by apply Hsl1. }
    assert (Hsvx : ∀ j, (j < max_links)%nat → saved (lm_prod w2) j = upd i (kept (pending_link_to_create (lm_this w))) (processed_saved dt w) j).
    { intros j Hj. rewrite Hsv2 by done. unfold upd. case_decide; [done|]. by apply Hsv1. }
    split; cbn [lm_this lm_prod].
    + split; [split; try done; apply link_zero_ok|]. split; [|done]. cbn [lm_this lm_prod].
      eapply table_ok_eq; [|exact Hslx|exact Hsvx]. apply table_upd_some; [exact Ht1|done|lia|done|].
      by apply (absent_processed dt).
    + by etransitivity.
    + exact Hslx.
    + exact Hsvx.
    + intros j Hj. change (persist_flag (lm_this w2) j = processed_persist dt w j). rewrite Hpf2 by done. by apply Hpf1.
  - destruct (pending_clear_all_links (lm_this w)) eqn:Hclr; cbn [when].
    + destruct (clear_links_spec w1 Hs1 (λ j, table_none _ _ j Ht1')) as (w2 & Hrun2 & Hc2).
      unfold lm_modify. mstep. rewrite Hrun2. pose proof Hc2 as [[H1 H2 H3 H4 H5 H6] Hf2 Hsl2 Hsv2 Hpf2 (Hpa2 & _ & _)].
      eexists. split; [reflexivity|]. split; [cbn; congruence|]. split; [done|].
      split; cbn [lm_this lm_prod]; try done.
      * split; [by split|]. split; [|cbn; by rewrite Hpa2, Hpa].
        eapply (table_ok_eq (λ _, None) (λ _, None)); [by split|exact Hsl2|exact Hsv2].
      * by etransitivity.
      * intros j Hj. change (persist_flag (lm_this w2) j = processed_persist dt w j). rewrite Hpf2 by done. by apply Hpf1.
    + exists w1. split; [done|]. split; [done|]. split; [done|]. split; try done.
      split; [done|]. split; [done|]. by rewrite Hpa.
Qed.
End LmTable.

(** ** The link manager: looking up and creating links *)


Section LmQuery.
Context {P : Type} `{HP : ProductLaws P} `{!ReliableNv P} `{!ChannelProduct P} `{!ChannelProductLaws P}
  `{HC : ChannelConfigOk}.

Lemma find_link_spec n i test m :
  lm_shape m → (i + n = max_links)%nat →
  (∃ k l, (i ≤ k < max_links)%nat ∧ slot m k = Some l ∧ test l = true ∧
     find_link n (Z.of_nat i) test m = Some (Some (Z.of_nat k)) ∧
     ∀ j l', (i ≤ j < k)%nat → slot m j = Some l' → test l' = false) ∨
  (find_link n (Z.of_nat i) test m = Some None ∧
     ∀ j l', (i ≤ j < max_links)%nat → slot m j = Some l' → test l' = false).
Proof.
  intros Hs. revert i. induction n as [|n IH]; intros i Hn; cbn [find_link].
  { right. split; [done|]. intros. lia. }
  assert (Hi : (i < max_links)%nat) by lia.
  replace (Z.of_nat i + 1) with (Z.of_nat (S i)) by lia.
  destruct (slot_free_or_link m i Hs Hi) as [[Hb Hsl]|(l & Hb & Hli & Hsl & _)];
    rewrite !aget_lookup, Nat2Z.id, Hb by lia; cbn [mbind option_bind negb].
  - destruct (IH (S i) ltac:(lia)) as [(k & l & Hk & H1 & H2 & H3 & H4)|[H1 H2]]; [left|right].
    + exists k, l. split_and!; try done; [lia|lia|]. intros j l' Hj Hl'.
      destruct (decide (j = i)) as [->|]; [congruence|]. eapply H4; [|done]. lia.
    + split; [done|]. intros j l' Hj Hl'. destruct (decide (j = i)) as [->|]; [congruence|]. eapply H2; [|done]. lia.
  - rewrite Hli. cbn [mbind option_bind]. destruct (test l) eqn:Ht.
    { left. exists i, l. split_and!; try done; lia. }
    destruct (IH (S i) ltac:(lia)) as [(k & l2 & Hk & H1 & H2 & H3 & H4)|[H1 H2]]; [left|right].
    + exists k, l2. split_and!; try done; [lia|lia|]. intros j l' Hj Hl'.
      destruct (decide (j = i)) as [->|]; [congruence|]. eapply H4; [|done]. lia.
    + split; [done|]. intros j l' Hj Hl'. destruct (decide (j = i)) as [->|]; [congruence|]. eapply H2; [|done]. lia.
Qed.

Lemma nx_id_eqb_spec a b : nx_id_eqb a b = true ↔ a = b.
Proof.
  unfold nx_id_eqb. rewrite andb_true_iff, !Z.eqb_eq. destruct a, b. cbn. split; [intros [-> ->]; done|by intros [= -> ->]].
Qed.

(** The index of a device is the slot of its link. *)
Lemma link_index_spec id m :
  lm_shape m →
  (∃ k l, (k < max_links)%nat ∧ slot m k = Some l ∧ linked_device_id l = id ∧
     _nexus_channel_link_manager_link_index_from_nxid id m = Some (Some (Z.of_nat k))) ∨
  (_nexus_channel_link_manager_link_index_from_nxid id m = Some None ∧ absent (slot m) id).
Proof.
  intros Hs. destruct (find_link_spec max_links 0 (λ l, nx_id_eqb (linked_device_id l) id) m Hs ltac:(lia))
    as [(k & l & Hk & Hsl & Ht & Hf & _)|[Hf Hno]].
  - left. exists k, l. split_and!; [lia|done|by apply nx_id_eqb_spec|done].
  - right. split; [done|]. intros j l Hj Hl Heq. assert (Hx := Hno j l ltac:(lia) Hl). cbn in Hx.
    apply nx_id_eqb_spec in Heq. congruence.
Qed.

(** Looking a link up. *)
Lemma link_from_nxid_spec id m sv :
  lm_shape m → table_ok (slot m) sv →
  (∃ l, nexus_channel_link_manager_link_from_nxid id m = Some (Some l) ∧ linked_device_id l = id ∧
     (∃ k, (k < max_links)%nat ∧ slot m k = Some l)) ∨
  (nexus_channel_link_manager_link_from_nxid id m = Some None ∧ absent (slot m) id).
Proof.
  intros Hs Ht. unfold nexus_channel_link_manager_link_from_nxid.
  destruct (link_index_spec id m Hs) as [(k & l & Hk & Hsl & Hid & ->)|[-> Hab]]; cbn [mbind option_bind]; [left|by right].
  destruct (slot_free_or_link m k Hs Hk) as [[_ Hn]|(l' & _ & Hl' & Hsl' & _)]; [congruence|].
  rewrite aget_lookup, Nat2Z.id, Hl' by lia. cbn [mbind option_bind].
  exists l'. assert (l' = l) as -> by congruence. split_and!; [done|done|by exists k].
Qed.

Lemma link_from_nxid_found id m sv k l :
  lm_shape m → table_ok (slot m) sv → (k < max_links)%nat → slot m k = Some l → linked_device_id l = id →
  nexus_channel_link_manager_link_from_nxid id m = Some (Some l).
Proof.
  intros Hs Ht Hk Hsl Hid. destruct (link_from_nxid_spec id m sv Hs Ht) as [(l' & Hf & Hid' & k' & Hk' & Hsl')|[_ Hab]].
  - assert (k' = k) as -> by (eapply (table_distinct _ _ Ht); [done|done|exact Hsl'|exact Hsl|congruence]). congruence.
  - exfalso. by eapply (Hab k l).
Qed.

Lemma link_from_nxid_absent id m : lm_shape m → absent (slot m) id → nexus_channel_link_manager_link_from_nxid id m = Some None.
Proof.
  intros Hs Hab. unfold nexus_channel_link_manager_link_from_nxid.
  destruct (link_index_spec id m Hs) as [(k & l & Hk & Hsl & Hid & _)|[-> _]]; [|done]. exfalso. by eapply (Hab k l).
Qed.

(** The accessory link with the largest age. *)
Definition is_accessory (l : nexus_channel_link_t) : Prop := operating_mode l = 0.

Lemma oldest_loop_spec n i m x :
  lm_shape m → (i + n = max_links)%nat →
  match x with
  | (Some k, age) => ∃ j l, k = Z.of_nat j ∧ (j < i)%nat ∧ slot m j = Some l ∧ is_accessory l ∧ seconds_since_init l = age ∧
      ∀ j' l', (j' < i)%nat → slot m j' = Some l' → is_accessory l' → seconds_since_init l' ≤ age
  | (None, age) => age = 0 ∧ ∀ j' l', (j' < i)%nat → slot m j' = Some l' → ¬ is_accessory l'
  end →
  ∃ r age, oldest_accessory_loop n (Z.of_nat i) m x = Some (r, age) ∧
  match r with
  | Some k => ∃ j l, k = Z.of_nat j ∧ (j < max_links)%nat ∧ slot m j = Some l ∧ is_accessory l ∧
      ∀ j' l', (j' < max_links)%nat → slot m j' = Some l' → is_accessory l' → seconds_since_init l' ≤ seconds_since_init l
  | None => ∀ j' l', (j' < max_links)%nat → slot m j' = Some l' → ¬ is_accessory l'
  end.
Proof.
  intros Hs. revert i x. induction n as [|n IH]; intros i [r age] Hn Hx; cbn [oldest_accessory_loop].
  { exists r, age. split; [done|]. replace i with max_links in Hx by lia. destruct r as [k|].
    - destruct Hx as (j & l & -> & ? & ? & ? & <- & ?). by exists j, l.
    - by destruct Hx as [_ Hx]. }
  assert (Hi : (i < max_links)%nat) by lia. pose proof Hs as [Hl Hu _ Hok _ _].
  destruct (lookup_lt_is_Some_2 (links m) i) as [l Hli]; [lia|].
  destruct (lookup_lt_is_Some_2 (link_idx_in_use m) i) as [b Hb]; [lia|].
  replace (Z.of_nat i + 1) with (Z.of_nat (S i)) by lia.
  rewrite !aget_lookup, Nat2Z.id, Hli by lia. cbn [mbind option_bind].
  change (operating_mode_code CHANNEL_LINK_OPERATING_MODE_ACCESSORY) with 0.
  assert (Hslot : slot m i = if b then Some l else None) by (unfold slot; rewrite Hb, Hli; by destruct b).
  assert (Hskip : (∀ l', slot m i = Some l' → ¬ is_accessory l') →
    ∃ r0 age0, oldest_accessory_loop n (Z.of_nat (S i)) m (r, age) = Some (r0, age0) ∧
      match r0 with
      | Some k => ∃ j l, k = Z.of_nat j ∧ (j < max_links)%nat ∧ slot m j = Some l ∧ is_accessory l ∧
          ∀ j' l', (j' < max_links)%nat → slot m j' = Some l' → is_accessory l' → seconds_since_init l' ≤ seconds_since_init l
      | None => ∀ j' l', (j' < max_links)%nat → slot m j' = Some l' → ¬ is_accessory l'
      end).
  { intros Hna. apply (IH (S i) (r, age)); [lia|]. destruct r as [k|].
    - destruct Hx as (j & l0 & -> & ? & ? & ? & ? & Hall). exists j, l0. split_and!; try done; [lia|].
      intros j' l' Hj'. destruct (decide (j' = i)) as [->|]; [|apply Hall; lia]. intros Hsl Hac. by destruct (Hna l').
    - destruct Hx as [-> Hall]. split; [done|]. intros j' l' Hj'.
      destruct (decide (j' = i)) as [->|]; [by apply Hna|apply Hall; lia]. }
  destruct (Z.eqb_spec (operating_mode l) 0) as [Hop|Hop]; cbn [negb].
  2: { apply Hskip. intros l'. rewrite Hslot. destruct b; [|done]. by intros [= <-]. }
  rewrite Hb. cbn [mbind option_bind]. destruct b; cbn [andb].
  2: { apply Hskip. intros l'. by rewrite Hslot. }
  assert (Hage : 0 ≤ seconds_since_init l).
  { pose proof (Forall_lookup_1 _ _ _ _ Hok Hli) as []. unfold is_u32 in *. lia. }
  destruct (Z.leb_spec age (seconds_since_init l)) as [Hle|Hgt].
  - apply (IH (S i) (Some (Z.of_nat i), seconds_since_init l)); [lia|]. exists i, l. split_and!; try done; [lia|].
    intros j' l' Hj' Hsl' Hac'. destruct (decide (j' = i)) as [->|]; [assert (l' = l) as -> by congruence; lia|].
    destruct r as [k|].
    + destruct Hx as (j & l0 & _ & _ & _ & _ & _ & Hall). specialize (Hall j' l' ltac:(lia) Hsl' Hac'). lia.
    + destruct Hx as [_ Hall]. by destruct (Hall j' l' ltac:(lia) Hsl').
  - destruct r as [k|].
    + apply (IH (S i) (Some k, age)); [lia|]. destruct Hx as (j & l0 & -> & ? & ? & ? & ? & Hall).
      exists j, l0. split_and!; try done; [lia|]. intros j' l' Hj' Hsl' Hac'.
      destruct (decide (j' = i)) as [->|]; [assert (l' = l) as -> by congruence; lia|]. apply (Hall j' l'); [lia|done|done].
    + destruct Hx as [-> _]. lia.
Qed.

Lemma oldest_accessory_spec m :
  lm_shape m →
  (∃ j l, _nexus_channel_link_manager_oldest_accessory_link_idx m = Some (Some (Z.of_nat j)) ∧ (j < max_links)%nat ∧
     slot m j = Some l ∧ is_accessory l ∧
     ∀ j' l', (j' < max_links)%nat → slot m j' = Some l' → is_accessory l' → seconds_since_init l' ≤ seconds_since_init l) ∨
  (_nexus_channel_link_manager_oldest_accessory_link_idx m = Some None ∧
     ∀ j' l', (j' < max_links)%nat → slot m j' = Some l' → ¬ is_accessory l').
Proof.
  intros Hs. unfold _nexus_channel_link_manager_oldest_accessory_link_idx.
  destruct (oldest_loop_spec max_links 0 m (None, 0) Hs ltac:(lia)) as (r & age & Hrun & Hr).
  { split; [done|]. intros. lia. }
  change (oldest_accessory_loop max_links 0 m (None, 0) = Some (r, age)) in Hrun. rewrite Hrun. cbn [mbind option_bind]. destruct r as [k|]; [left|by right].
  destruct Hr as (j & l & -> & ? & ? & ? & ?). by exists j, l.
Qed.
End LmQuery.
