(* ===== verification/ChannelLmCreate.v ===== *)
(** * The link manager: creating, changing and restoring links

    The outcome of [create_link] on the table, the effect of a new nonce and
    of activity, and the table [init] rebuilds from NV. *)



From S2P Require Import Prelude Crc Check NvBlock Product DesktopProduct Nv Channel ChannelLm ChannelLmSpec ChannelLmProcess ChannelLmTable.
Local Open Scope Z_scope.

Lemma count_true_full bs i b : count_true bs = Z.of_nat (length bs) → bs !! i = Some b → b = true.
Proof.
  unfold count_true. revert i. induction bs as [|[] bs IH]; intros i Hc Hi; [done| |].
  - rewrite filter_cons_True in Hc by done. cbn [length] in Hc. destruct i as [|i]; [by injection Hi|].
    eapply IH; [lia|exact Hi].
  - rewrite filter_cons_False in Hc by done. pose proof (length_filter (λ b, b = true) bs). cbn [length] in Hc. lia.
Qed.

(** ** The search for a multiple of 64 *)

(** The distance from [i] to the next multiple. *)
Lemma nonce_crosses_from fuel i new :
  0 ≤ i ≤ new + 1 → i ≤ UINT32_MAX → new ≤ UINT32_MAX → (- i) mod 64 < Z.of_nat fuel →
  nonce_crosses fuel i new = Some ((i + (- i) mod 64 <=? new) || (new =? UINT32_MAX)).
Proof.
  unfold UINT32_MAX. revert i. induction fuel as [|fuel IH]; intros i Hi Hm Hn Hf; [lia|]. cbn [nonce_crosses].
  unfold NEXUS_CHANNEL_LINK_SECURITY_NONCE_NV_STORAGE_INTERVAL_COUNT.
  destruct (Z.leb_spec i new) as [Hle|Hgt].
  - destruct (Z.eqb_spec (i mod 64) 0) as [H0|H0].
    + rewrite (proj2 (Z.leb_le (i + (- i) mod 64) new)) by lia. done.
    + destruct (Z.eqb_spec i 4294967295) as [->|Hne].
      * assert (new = 4294967295) as -> by lia. destruct fuel; [cbn in Hf; lia|done].
      * rewrite u32_small by wrap. rewrite IH by lia. do 3 f_equal. lia.
  - rewrite (proj2 (Z.leb_gt (i + (- i) mod 64) new)) by lia. by rewrite (proj2 (Z.eqb_neq new 4294967295)) by lia.
Qed.

(** The interval of 64 a nonce is in. *)
Definition interval (n : Z) : Z := n / 64.

Definition nonce_flags (old new : Z) : bool :=
  (new =? 0) || ((0 <? old) && (old <? new) && ((interval old <? interval new) || (new =? UINT32_MAX))).

Lemma nonce_crosses_spec old new :
  is_u32 old → is_u32 new → old < new →
  nonce_crosses 66 (u32 (old + 1)) new = Some ((interval old <? interval new) || (new =? UINT32_MAX)).
Proof.
  intros Ho Hn Hlt. rewrite u32_small by wrap. rewrite nonce_crosses_from; [|wrap|wrap|wrap|lia].
  do 2 f_equal. unfold interval.
  destruct (Z.ltb_spec (old / 64) (new / 64)); [apply Z.leb_le|apply Z.leb_gt]; lia.
Qed.

Section LmCreate.
Context {P : Type} `{HP : ProductLaws P} `{!ReliableNv P} `{!ChannelProduct P} `{!ChannelProductLaws P}
  `{HC : ChannelConfigOk}.

(** ** Making room *)

Definition has_free (sl : table) : Prop := ∃ j, (j < max_links)%nat ∧ sl j = None.

Lemma full_table m :
  lm_shape m → link_count m = NEXUS_CHANNEL_MAX_SIMULTANEOUS_LINKS → ∀ j, (j < max_links)%nat → is_Some (slot m j).
Proof.
  intros Hs Hc j Hj. destruct (slot_free_or_link m j Hs Hj) as [[Hb _]|(l & _ & _ & -> & _)]; [exfalso|by eexists].
  pose proof max_links_ok. enough (false = true) by done.
  eapply count_true_full; [|exact Hb]. rewrite <- (shape_count _ Hs), (shape_in_use _ Hs), Hc. unfold max_links. lia.
Qed.

Lemma free_table m :
  lm_shape m → link_count m ≠ NEXUS_CHANNEL_MAX_SIMULTANEOUS_LINKS → has_free (slot m).
Proof.
  intros Hs Hc. pose proof max_links_ok. pose proof (count_true_range (link_idx_in_use m)) as Hr.
  destruct (count_true_free (link_idx_in_use m)) as [i Hi].
  { rewrite <- (shape_count _ Hs) in *. rewrite (shape_in_use _ Hs) in *. unfold max_links in *. lia. }
  exists i. pose proof (lookup_lt_Some _ _ _ Hi) as Hlt. rewrite (shape_in_use _ Hs) in Hlt.
  split; [done|]. unfold slot. by rewrite Hi.
Qed.

(** The slot that is emptied for a link to [id] in the given mode, if any;
    [None] when there is no room. *)
Inductive makes_room (sl : table) (id : nx_id) (mode : nexus_channel_link_operating_mode) : option (option nat) → Prop :=
| room_relink k l : (k < max_links)%nat → sl k = Some l → linked_device_id l = id → makes_room sl id mode (Some (Some k))
| room_free : absent sl id → has_free sl → makes_room sl id mode (Some None)
| room_oldest k l : absent sl id → ¬ has_free sl → mode = CHANNEL_LINK_OPERATING_MODE_ACCESSORY →
    (k < max_links)%nat → sl k = Some l → is_accessory l →
    (∀ j l', (j < max_links)%nat → sl j = Some l' → is_accessory l' → seconds_since_init l' ≤ seconds_since_init l) →
    makes_room sl id mode (Some (Some k))
| room_none : absent sl id → ¬ has_free sl →
    (mode ≠ CHANNEL_LINK_OPERATING_MODE_ACCESSORY ∨ ∀ j l, (j < max_links)%nat → sl j = Some l → ¬ is_accessory l) →
    makes_room sl id mode None.

Definition emptied (v : option nat) (sl : table) : table := match v with Some k => upd k None sl | None => sl end.

Definition new_link (id : nx_id) (mode : nexus_channel_link_operating_mode) (sm : Z)
    (data : nexus_channel_link_security_mode0_data) : nexus_channel_link_t :=
  mk_link id (operating_mode_code mode) (u8 sm) 0 0 data.

Lemma emptied_room sl id mode v :
  (∀ i j li lj, (i < max_links)%nat → (j < max_links)%nat → sl i = Some li → sl j = Some lj →
    linked_device_id li = linked_device_id lj → i = j) →
  makes_room sl id mode (Some v) → has_free (emptied v sl) ∧ absent (emptied v sl) id.
Proof.
  intros Hdis Hr. inversion Hr as [k l Hk Hsl Hid|Hab Hfree|k l Hab Hfull Hmode Hk Hsl Hac Hold|]; subst; cbn [emptied].
  - split; [exists k; split; [done|]; unfold upd; by rewrite decide_True|].
    intros j l' Hj. unfold upd. case_decide as Hd; [done|]. intros Hl' Heq. by destruct Hd; eapply Hdis.
  - done.
  - split; [exists k; split; [done|]; unfold upd; by rewrite decide_True|]. by apply absent_upd_none.
Qed.

(** ** create_link *)

Lemma room_clear k (w : lm_world P) :
  lm_shape (lm_this w) → table_ok (slot (lm_this w)) (saved (lm_prod w)) → (k < max_links)%nat →
  is_Some (slot (lm_this w) k) →
  ∃ w', (_nexus_channel_link_manager_clear_link_internal (Z.of_nat k);; mret true : M (lm_world P) bool) w = Some (true, w') ∧
    lm_changed w w' (emptied (Some k) (slot (lm_this w))) (emptied (Some k) (saved (lm_prod w))) (persist_flag (lm_this w)).
Proof.
  intros Hs Ht Hk [l Hsl]. destruct (clear_link_spec w k Hs Hk) as (w' & Hrun & Hc). rewrite Hsl in Hc.
  exists w'. by rewrite (bind_Some _ _ _ _ _ Hrun).
Qed.

Lemma create_link_spec id mode sm data (w : lm_world P) :
  lm_ok w → link_ok (new_link id mode sm data) →
  ∃ b w', nexus_channel_link_manager_create_link id mode sm data w = Some (b, w') ∧
    if pending_add_link (lm_this w) then b = false ∧ w' = w
    else ∃ v, makes_room (slot (lm_this w)) id mode v ∧
      match v with
      | None => b = false ∧ w' = w
      | Some k => b = true ∧ pending_add_link (lm_this w') = true ∧
          pending_link_to_create (lm_this w') = new_link id mode sm data ∧
          pending_clear_all_links (lm_this w') = pending_clear_all_links (lm_this w) ∧
          lm_result w w' (emptied k (slot (lm_this w))) (emptied k (saved (lm_prod w))) (persist_flag (lm_this w))
      end.
Proof.
  intros (Hs & Ht & Hp) Hl. unfold nexus_channel_link_manager_create_link.
  destruct (pending_add_link (lm_this w)) eqn:Hadd.
  { exists false, w. unfold lm_gets. mstep. by rewrite Hadd. }
  set (tail := λ room : bool, if negb room then mret false else
      lm_modify (λ m, {| m with pending_add_link := true |});;
      lm_modify (λ m, {| m with pending_link_to_create := new_link id mode sm data |});;
      lm_on_prod request_processing;;
      mret true : M (lm_world P) bool).
  assert (Htail : ∀ v w1, makes_room (slot (lm_this w)) id mode (Some v) →
    lm_changed w w1 (emptied v (slot (lm_this w))) (emptied v (saved (lm_prod w))) (persist_flag (lm_this w)) →
    ∃ w', tail true w1 = Some (true, w') ∧ pending_add_link (lm_this w') = true ∧
      pending_link_to_create (lm_this w') = new_link id mode sm data ∧
      pending_clear_all_links (lm_this w') = pending_clear_all_links (lm_this w) ∧
      lm_result w w' (emptied v (slot (lm_this w))) (emptied v (saved (lm_prod w))) (persist_flag (lm_this w))).
  { intros v w1 Hroom [[H1 H2 H3 H4 H5 H6] Hf1 Hsl1 Hsv1 Hpf1 (_ & _ & Hpc)].
    destruct (request_frame_lm (lm_prod w1)) as [Hfr Hsr].
    destruct (emptied_room _ _ _ _ (table_distinct _ _ Ht) Hroom) as [(j & Hj & Hfree) Hab].
    unfold tail, lm_modify, lm_on_prod, request_processing. cbn [negb]. mstep.
    eexists. split; [reflexivity|]. split_and!; try done.
    split; cbn [lm_this lm_prod].
    - split; [by split|]. split.
      + eapply (table_ok_eq (emptied v (slot (lm_this w))) (emptied v (saved (lm_prod w)))); [|exact Hsl1|].
        { destruct v; [by apply table_upd_none|done]. }
        intros i Hi. cbn [lm_prod]. rewrite Hsr. by apply Hsv1.
      + intros _. split.
        * exists j. split; [done|]. by rewrite <- Hfree, <- Hsl1.
        * intros i li Hi. cbn [lm_this pending_link_to_create new_link linked_device_id].
          change (slot _ i) with (slot (lm_this w1) i). rewrite Hsl1 by done. by apply Hab.
    - by etransitivity.
    - exact Hsl1.
    - intros i Hi. rewrite Hsr. by apply Hsv1.
    - exact Hpf1. }
  erewrite bind_Some by reflexivity. rewrite Hadd. erewrite bind_Some by reflexivity.
  change (mk_link id (operating_mode_code mode) (u8 sm) 0 0 data) with (new_link id mode sm data). fold tail.
  destruct (link_index_spec id (lm_this w) Hs) as [(k & l & Hk & Hsl & Hid & Hidx)|[Hidx Hab]];
    rewrite (bind_lift _ _ _ _ Hidx).
  { destruct (room_clear k w Hs Ht Hk) as (w1 & Hrun & Hc1); [by rewrite Hsl|].
    destruct (Htail (Some k) w1) as (w' & Hrun' & Hres); [by eapply room_relink|done|].
    exists true, w'. rewrite (bind_Some _ _ _ _ _ Hrun). split; [done|]. exists (Some (Some k)).
    split; [by eapply room_relink|]. by destruct Hres as (?&?&?&?). }
  destruct (Z.eqb_spec (link_count (lm_this w)) NEXUS_CHANNEL_MAX_SIMULTANEOUS_LINKS) as [Hfull|Hfree].
  2: { pose proof (free_table _ Hs Hfree) as Hroom.
    destruct (Htail None w) as (w' & Hrun' & Hres); [by apply room_free|by apply changed_refl|].
    exists true, w'. split; [exact Hrun'|]. exists (Some None). split; [by apply room_free|]. by destruct Hres as (?&?&?&?). }
  assert (Hno : ¬ has_free (slot (lm_this w))).
  { intros (j & Hj & Hnone). destruct (full_table _ Hs Hfull j Hj). congruence. }
  case_bool_decide as Hmode.
  { exists false, w. split; [done|]. exists None. split; [|done]. apply room_none; auto. }
  assert (mode = CHANNEL_LINK_OPERATING_MODE_ACCESSORY) as Hacc by (by destruct (decide (mode = CHANNEL_LINK_OPERATING_MODE_ACCESSORY))).
  destruct (oldest_accessory_spec _ Hs) as [(k & l & Hold & Hk & Hsl & Hac & Hmax)|[Hold Hnone]].
  - destruct (room_clear k w Hs Ht Hk) as (w1 & Hrun & Hc1); [by rewrite Hsl|].
    assert (Hroom : makes_room (slot (lm_this w)) id mode (Some (Some k))) by (by eapply room_oldest).
    destruct (Htail (Some k) w1 Hroom Hc1) as (w' & Hrun' & Hres).
    exists true, w'. split; [|exists (Some (Some k)); split; [done|]; by destruct Hres as (?&?&?&?)].
    rewrite bind_assoc, (bind_lift _ _ _ _ Hold). by rewrite (bind_Some _ _ _ _ _ Hrun).
  - exists false, w. split; [|exists None; split; [|done]; apply room_none; auto].
    by rewrite bind_assoc, (bind_lift _ _ _ _ Hold).
Qed.

(** ** A new nonce, and activity *)

Lemma write_link_result (w : lm_world P) k l l' :
  lm_ok w → (k < max_links)%nat → slot (lm_this w) k = Some l → link_ok l' → same_link l' l →
  lm_result w (on_this (write_link k l') w) (upd k (Some l') (slot (lm_this w))) (saved (lm_prod w)) (persist_flag (lm_this w)).
Proof.
  intros (Hs & Ht & Hp) Hk Hsl Hl' Hsame.
  destruct (changed_write_link w k l' Hs Hk ltac:(by rewrite Hsl) Hl') as [Hs' Hf Hsl' Hsv' Hpf' _].
  split; try done. split; [done|]. split.
  - eapply table_ok_eq; [|exact Hsl'|exact Hsv'].
    eapply (table_ok_eq _ (upd k (saved (lm_prod w) k) (saved (lm_prod w)))); [|done|].
    + eapply table_upd_same; eauto.
    + intros j _. unfold upd. by case_decide; subst.
  - intros Hadd. destruct (Hp Hadd) as [(j & Hj & Hfree) Hab]. split.
    + exists j. split; [done|]. rewrite Hsl' by done. unfold upd. case_decide; [subst; congruence|done].
    + intros i x Hi. rewrite Hsl' by done. unfold upd. case_decide; [|by apply Hab].
      intros [= <-]. rewrite (same_id _ _ Hsame). by apply (Hab k).
Qed.

Lemma write_persist_result (w : lm_world P) k b :
  lm_ok w → (k < max_links)%nat →
  lm_result w (on_this (write_persist k b) w) (slot (lm_this w)) (saved (lm_prod w)) (upd k b (persist_flag (lm_this w))).
Proof.
  intros (Hs & Ht & Hp) Hk. destruct (changed_write_persist w k b Hs Hk) as [Hs' Hf Hsl' Hsv' Hpf' _].
  split; try done.
Qed.

Lemma lm_result_trans (w1 w2 w3 : lm_world P) sl sv pf sl' sv' pf' :
  lm_result w1 w2 sl sv pf → lm_result w2 w3 sl' sv' pf' → lm_result w1 w3 sl' sv' pf'.
Proof. intros [] []. split; try done. by etransitivity. Qed.

Lemma lm_result_eq (w w' : lm_world P) sl sv pf sl' sv' pf' :
  lm_result w w' sl sv pf → (∀ j, (j < max_links)%nat → sl j = sl' j) → (∀ j, (j < max_links)%nat → sv j = sv' j) →
  (∀ j, (j < max_links)%nat → pf j = pf' j) → lm_result w w' sl' sv' pf'.
Proof. intros [? ? Hs Hv Hp] Es Ev Ep. split; try done; intros; rewrite ?Hs, ?Hv, ?Hp; auto. Qed.

Lemma lm_result_refl (w : lm_world P) :
  lm_ok w → lm_result w w (slot (lm_this w)) (saved (lm_prod w)) (persist_flag (lm_this w)).
Proof. by split. Qed.

Lemma with_nonce_ok n l : link_ok l → is_u32 n → link_ok (with_nonce n l).
Proof. intros [] Hn. by split. Qed.

Lemma set_nonce_spec id new (w : lm_world P) :
  lm_ok w → is_u32 new →
  (∃ k l, (k < max_links)%nat ∧ slot (lm_this w) k = Some l ∧ linked_device_id l = id ∧
    if security_mode l =? 0 then
      ∃ w', nexus_channel_link_manager_set_security_data_auth_nonce id new w = Some (true, w') ∧ lm_prod w' = lm_prod w ∧
        pending_add_link (lm_this w') = pending_add_link (lm_this w) ∧
        pending_clear_all_links (lm_this w') = pending_clear_all_links (lm_this w) ∧
        lm_result w w' (upd k (Some (with_nonce new l)) (slot (lm_this w))) (saved (lm_prod w))
          (upd k (persist_flag (lm_this w) k || nonce_flags (nonce (security_data l)) new) (persist_flag (lm_this w)))
    else nexus_channel_link_manager_set_security_data_auth_nonce id new w = Some (false, w)) ∨
  (nexus_channel_link_manager_set_security_data_auth_nonce id new w = Some (false, w) ∧ absent (slot (lm_this w)) id).
Proof.
  intros Hok Hn. pose proof Hok as (Hs & Ht & _). unfold nexus_channel_link_manager_set_security_data_auth_nonce.
  erewrite bind_Some by reflexivity.
  destruct (link_index_spec id (lm_this w) Hs) as [(k & l & Hk & Hsl & Hid & Hidx)|[Hidx Hab]];
    rewrite (bind_lift _ _ _ _ Hidx); [left|by right].
  exists k, l. split_and!; [done..|].
  destruct (slot_free_or_link _ k Hs Hk) as [[_ Hnone]|(l0 & Hb & Hli & Hsl0 & Hlok)]; [congruence|].
  assert (l0 = l) as -> by congruence. rewrite (bind_Some _ _ _ _ _ (get_link_at w k l Hli)).
  unfold NEXUS_CHANNEL_LINK_SECURITY_MODE_KEY128SYM_COSE_MAC0_AUTH_SIPHASH24.
  destruct (security_mode l =? 0); cbn [negb]; [|done].
  set (old := nonce (security_data l)). assert (Hold : is_u32 old) by apply Hlok.
  set (flag := nonce_flags old new).
  set (w1 := if flag then on_this (write_persist k true) w else w).
  assert (Hstep : (if new =? 0 then put_should_persist (Z.of_nat k) true
       else if (old <? new) && (0 <? old) then
         crosses ← lift (nonce_crosses 66 (u32 (old + 1)) new);
         when crosses (put_should_persist (Z.of_nat k) true)
       else mret tt) w = Some (tt, w1)).
  { pose proof (put_should_persist_at w k true ltac:(rewrite (shape_persist _ Hs); done)) as Hput.
    unfold w1, flag, nonce_flags. destruct (new =? 0); [done|]. cbn [orb].
    rewrite (andb_comm (0 <? old)). destruct (Z.ltb_spec old new) as [Hlt|]; [|done]. cbn [andb].
    destruct (0 <? old); [|done]. rewrite nonce_crosses_spec by done.
    erewrite bind_lift by reflexivity. destruct (_ || _); [exact Hput|done]. }
  rewrite (bind_Some _ _ _ _ _ Hstep).
  assert (Hw1 : lm_result w w1 (slot (lm_this w)) (saved (lm_prod w)) (upd k (persist_flag (lm_this w) k || flag) (persist_flag (lm_this w)))
    ∧ links (lm_this w1) = links (lm_this w) ∧ lm_prod w1 = lm_prod w ∧
    pending_add_link (lm_this w1) = pending_add_link (lm_this w) ∧
    pending_clear_all_links (lm_this w1) = pending_clear_all_links (lm_this w)).
  { unfold w1. destruct flag.
    - rewrite orb_true_r. split_and!; try done. by apply write_persist_result.
    - rewrite orb_false_r. split_and!; try done. eapply lm_result_eq; [by apply lm_result_refl|done|done|].
      intros j _. unfold upd. by case_decide; subst. }
  destruct Hw1 as (Hr1 & Hli1 & Hp1 & Hpa1 & Hpl1). clear Hstep. clearbody w1 flag.
  rewrite (bind_Some _ _ _ _ _ (get_link_at w1 k l ltac:(by rewrite Hli1))).
  rewrite (bind_Some _ _ _ _ _ (put_link_at w1 k _ ltac:(rewrite Hli1, (shape_links _ Hs); done))).
  eexists. split; [reflexivity|]. split_and!; try done.
  pose proof Hr1 as [Hok1 _ Hsl1 Hsv1 Hpf1].
  eapply lm_result_eq; [eapply lm_result_trans; [exact Hr1|apply (write_link_result w1 k l (with_nonce new l) Hok1 Hk)]|..].
  - by rewrite Hsl1.
  - by apply with_nonce_ok.
  - by split.
  - intros j Hj. unfold upd. case_decide; [done|by apply Hsl1].
  - intros j Hj. by rewrite Hsv1.
  - intros j Hj. by rewrite Hpf1.
Qed.

Lemma with_active_ok n l : link_ok l → is_u32 n → link_ok (with_seconds_since_active n l).
Proof. intros [] Hn. by split. Qed.

Lemma reset_secs_spec id (w : lm_world P) :
  lm_ok w →
  (∃ k l w', (k < max_links)%nat ∧ slot (lm_this w) k = Some l ∧ linked_device_id l = id ∧
    nexus_channel_link_manager_reset_link_secs_since_active id w = Some (true, w') ∧ lm_prod w' = lm_prod w ∧
    pending_add_link (lm_this w') = pending_add_link (lm_this w) ∧
    pending_link_to_create (lm_this w') = pending_link_to_create (lm_this w) ∧
    lm_result w w' (upd k (Some (with_seconds_since_active 0 l)) (slot (lm_this w))) (saved (lm_prod w)) (persist_flag (lm_this w))) ∨
  (nexus_channel_link_manager_reset_link_secs_since_active id w = Some (false, w) ∧ absent (slot (lm_this w)) id).
Proof.
  intros Hok. pose proof Hok as (Hs & Ht & _). unfold nexus_channel_link_manager_reset_link_secs_since_active.
  erewrite bind_Some by reflexivity.
  destruct (link_index_spec id (lm_this w) Hs) as [(k & l & Hk & Hsl & Hid & Hidx)|[Hidx Hab]];
    rewrite (bind_lift _ _ _ _ Hidx); [left|by right].
  destruct (slot_free_or_link _ k Hs Hk) as [[_ Hnone]|(l0 & Hb & Hli & Hsl0 & Hlok)]; [congruence|].
  assert (l0 = l) as -> by congruence. rewrite (bind_Some _ _ _ _ _ (get_link_at w k l Hli)).
  rewrite (bind_Some _ _ _ _ _ (put_link_at w k _ ltac:(rewrite (shape_links _ Hs); done))).
  exists k, l. eexists. split_and!; try done. apply (write_link_result _ _ l); try done. apply with_active_ok; [done|wrap].
Qed.
End LmCreate.

(** ** The link manager: the table after a restart *)



Lemma link_of_bytes_ok b : bytes_ok b → length b = 36%nat → link_ok (link_of_bytes b).
Proof.
  intros Hb Hl. do 36 (destruct b as [|? b]; [done|]). destruct b; [|done].
  rewrite !Forall_cons in Hb. destruct_and!.
  split; cbn [link_of_bytes linked_device_id authority_id device_id operating_mode security_mode seconds_since_init
    seconds_since_active security_data sym_key nonce take drop nth le_val]; try wrap; try done.
  by repeat (apply Forall_cons_2; [done|]).
Qed.

(** A restored link resumes 64 nonces after the saved one. *)
Definition restored (l : nexus_channel_link_t) : nexus_channel_link_t :=
  with_nonce (u32 (nonce (security_data l) + NEXUS_CHANNEL_LINK_SECURITY_NONCE_NV_STORAGE_INTERVAL_COUNT)) l.

Lemma restored_ok l : link_ok l → link_ok (restored l).
Proof. intros. apply with_nonce_ok; [done|apply u32_range]. Qed.

Lemma restored_same l : same_link (restored l) l.
Proof. by split. Qed.

Section LmRestore.
Context {P : Type} `{HP : ProductLaws P} `{!ReliableNv P} `{!ChannelProduct P} `{!ChannelProductLaws P}
  `{HC : ChannelConfigOk}.

Lemma saved_link_ok (p : P) i l : (i < max_links)%nat → saved p i = Some l → link_ok l ∧ device_id (linked_device_id l) ≠ 0.
Proof.
  intros Hi. unfold saved. destruct (nv_stored _ p) as [b|] eqn:Hst; [|done]. cbv zeta.
  destruct (Z.eqb_spec (device_id (linked_device_id (link_of_bytes b))) 0); [done|]. intros [= <-]. split; [|done].
  destruct (nv_stored_ok _ _ _ (lm_meta_ok i Hi) Hst) as [Hb Hl]. by apply link_of_bytes_ok.
Qed.

Lemma lm_zero_shape : lm_shape lm_zero.
Proof.
  split; cbn; try apply length_replicate.
  - apply Forall_replicate, link_zero_ok.
  - apply link_zero_ok.
  - by rewrite count_true_replicate.
Qed.

Lemma lm_zero_slot j : slot lm_zero j = None ∧ persist_flag lm_zero j = false.
Proof.
  unfold slot, persist_flag, lm_zero. cbn [link_idx_in_use link_idx_should_persist_nonce links].
  destruct (replicate max_links false !! j) as [[]|] eqn:Hj; [|done..]. by apply lookup_replicate in Hj as [? _].
Qed.

Lemma load_link_spec (w : lm_world P) i tmp :
  lm_shape (lm_this w) → (i < max_links)%nat → length tmp = 36%nat → slot (lm_this w) i = None → persist_flag (lm_this w) i = false →
  ∃ tmp' w', lm_load_link (Z.of_nat i) tmp w = Some (tmp', w') ∧ length tmp' = 36%nat ∧ lm_prod w' = lm_prod w ∧
    lm_changed w w' (upd i (restored <$> saved (lm_prod w) i) (slot (lm_this w))) (saved (lm_prod w))
      (upd i (bool_decide (is_Some (saved (lm_prod w) i))) (persist_flag (lm_this w))).
Proof.
  intros Hs Hi Hl Hfree Hflag. unfold lm_load_link. rewrite index_to_nv_block_at by done. erewrite bind_lift by reflexivity.
  assert (Hread : lm_on_prod (nexus_nv_read (NX_NV_BLOCK_CHANNEL_LM_LINK (Z.of_nat i + 1)) tmp) w =
    Some (match nv_stored (NX_NV_BLOCK_CHANNEL_LM_LINK (Z.of_nat i + 1)) (lm_prod w) with Some d => (true, d) | None => (false, tmp) end, w)).
  { unfold lm_on_prod. mstep. rewrite nexus_nv_read_spec; [|by apply lm_meta_ok|done]. cbn [mbind option_bind]. by destruct w. }
  rewrite (bind_Some _ _ _ _ _ Hread). pose proof (saved_link_ok (lm_prod w) i) as Hsok. unfold saved in *.
  pose proof (nv_stored_ok (NX_NV_BLOCK_CHANNEL_LM_LINK (Z.of_nat i + 1)) (lm_prod w)) as Hstok.
  assert (Hnone : lm_changed w w (upd i None (slot (lm_this w))) (saved (lm_prod w)) (upd i false (persist_flag (lm_this w)))).
  { eapply changed_eq; [by apply changed_refl| |done|]; intros j _; unfold upd; by case_decide; subst. }
  destruct (nv_stored _ (lm_prod w)) as [b|] eqn:Hst.
  2: { exists tmp, w. split; [done|]. by rewrite bool_decide_false by (by intros [? ?]). }
  destruct (Hstok b (lm_meta_ok i Hi) eq_refl) as [_ Hbl]. cbv zeta in *. cbn [andb] in *. clear Hread.
  destruct (device_id (linked_device_id (link_of_bytes b)) =? 0); cbn [negb when fmap option_fmap option_map].
  { exists b, w. split; [done|]. by rewrite bool_decide_false by (by intros [? ?]). }
  set (l := link_of_bytes b) in *. destruct (Hsok l Hi eq_refl) as [Hlok _].
  rewrite bool_decide_true by done.
  assert (Hb : link_idx_in_use (lm_this w) !! i = Some false).
  { destruct (slot_free_or_link _ i Hs Hi) as [[? _]|(? & _ & _ & ? & _)]; [done|congruence]. }
  pose proof Hs as [H1 H2 H3 H4 H5 H6].
  set (w1 := on_this (write_link i l) w).
  set (w2 := on_this (write_count (λ c, c + 1)) w1).
  set (w3 := on_this (write_in_use i true) w2).
  set (w4 := on_this (write_link i (restored l)) w3).
  set (w5 := on_this (write_persist i true) w4).
  assert (Hbody : (put_link (Z.of_nat i) l;; set_link_count (λ c, c + 1);; put_in_use (Z.of_nat i) true;;
     cur ← get_link (Z.of_nat i);
     put_link (Z.of_nat i) (with_nonce (u32 (nonce (security_data cur) +
       NEXUS_CHANNEL_LINK_SECURITY_NONCE_NV_STORAGE_INTERVAL_COUNT)) cur);;
     put_should_persist (Z.of_nat i) true : M (lm_world P) unit) w = Some (tt, w5)).
  { rewrite (bind_Some _ _ _ _ _ (put_link_at w i l ltac:(lia))). fold w1.
    assert (Hc : set_link_count (λ c, c + 1) w1 = Some (tt, w2)) by done. rewrite (bind_Some _ _ _ _ _ Hc).
    rewrite (bind_Some _ _ _ _ _ (put_in_use_at w2 i true ltac:(cbn; lia))). fold w3.
    assert (Hl3 : links (lm_this w3) !! i = Some l) by (cbn; apply list_lookup_insert_eq; lia).
    rewrite (bind_Some _ _ _ _ _ (get_link_at w3 i l Hl3)).
    rewrite (bind_Some _ _ _ _ _ (put_link_at w3 i _ ltac:(cbn; rewrite length_insert; lia))).
    apply (put_should_persist_at w4). cbn. lia. }
  rewrite (bind_Some _ _ _ _ _ Hbody). exists b, w5. split; [done|]. split; [done|]. split; [done|].
  assert (Hw4 : lm_this w4 = filled i (restored l) (lm_this w)).
  { unfold w4, w3, w2, w1, filled, on_this, write_link, write_in_use, write_count. cbn. by rewrite list_insert_insert_eq. }
  assert (Hc4 : lm_changed w w4 (upd i (Some (restored l)) (slot (lm_this w))) (saved (lm_prod w)) (persist_flag (lm_this w))).
  { split; try done.
    - rewrite Hw4. apply filled_shape; [done|done|by apply restored_ok].
    - intros j Hj. rewrite Hw4. unfold filled. rewrite slot_write_link, !slot_write_in_use by (cbn; lia). unfold upd.
      destruct (decide (j = i)) as [->|Hne]; [|done]. rewrite decide_True by done.
      by destruct (lookup_lt_is_Some_2 (links (write_count (λ c, c + 1) (lm_this w))) i) as [? ->]; [cbn; lia|]. }
  eapply changed_eq; [eapply changed_trans; [exact Hc4|apply (changed_write_persist w4 i true); [apply Hc4|done]]|..].
  - intros j Hj. by apply Hc4.
  - done.
  - done.
Qed.

Lemma load_links_loop n i (w : lm_world P) tmp :
  (i + n = max_links)%nat → lm_shape (lm_this w) → length tmp = 36%nat →
  (∀ j, (i ≤ j < max_links)%nat → slot (lm_this w) j = None ∧ persist_flag (lm_this w) j = false) →
  ∃ w', lm_load_links n (Z.of_nat i) tmp w = Some (tt, w') ∧ lm_prod w' = lm_prod w ∧
    lm_changed w w' (λ j, if decide (i ≤ j)%nat then restored <$> saved (lm_prod w) j else slot (lm_this w) j) (saved (lm_prod w))
      (λ j, if decide (i ≤ j)%nat then bool_decide (is_Some (saved (lm_prod w) j)) else persist_flag (lm_this w) j).
Proof.
  revert i w tmp. induction n as [|n IH]; intros i w tmp Hn Hs Hl Hfree.
  { exists w. split; [done|]. split; [done|]. eapply changed_eq; [by apply changed_refl| |done|]; intros j Hj; cbv beta;
      by rewrite decide_False by lia. }
  destruct (Hfree i ltac:(lia)) as [Hf1 Hf2].
  destruct (load_link_spec w i tmp Hs ltac:(lia) Hl Hf1 Hf2) as (tmp1 & w1 & Hrun1 & Hl1 & Hp1 & Hc1).
  cbn [lm_load_links]. rewrite (bind_Some _ _ _ _ _ Hrun1). replace (Z.of_nat i + 1) with (Z.of_nat (S i)) by lia.
  pose proof Hc1 as [Hs1 _ Hsl1 _ Hpf1 _].
  destruct (IH (S i) w1 tmp1 ltac:(lia) Hs1 Hl1) as (w' & Hrun & Hp' & Hc).
  { intros j Hj. rewrite Hsl1, Hpf1 by lia. unfold upd. rewrite !decide_False by lia. apply Hfree. lia. }
  exists w'. split; [done|]. split; [congruence|]. rewrite Hp1 in Hc.
  eapply changed_eq; [eapply changed_trans; [exact Hc1|exact Hc]|..]; intros j Hj; cbv beta; rewrite ?Hsl1, ?Hpf1 by done; unfold upd; try done.
  all: destruct (decide (j = i)) as [->|]; repeat case_decide; first [done|lia].
Qed.

(** The table after a restart is the one in NV. *)
Lemma lm_init_spec garbage registered (w : lm_world P) :
  length garbage = 36%nat →
  ∃ w', nexus_channel_link_manager_init garbage registered w = Some (registered, w') ∧ lm_prod w' = lm_prod w ∧
    lm_shape (lm_this w') ∧ pending_add_link (lm_this w') = false ∧ pending_clear_all_links (lm_this w') = false ∧
    (∀ j, (j < max_links)%nat → slot (lm_this w') j = restored <$> saved (lm_prod w) j) ∧
    (∀ j, (j < max_links)%nat → persist_flag (lm_this w') j = bool_decide (is_Some (saved (lm_prod w) j))).
Proof.
  intros Hg. unfold nexus_channel_link_manager_init. erewrite bind_Some by reflexivity.
  set (w0 := {| w with lm_this := lm_zero |}).
  destruct (load_links_loop max_links 0 w0 garbage ltac:(lia) lm_zero_shape Hg) as (w' & Hrun & Hp & [Hs _ Hsl _ Hpf (Ha & _ & Hc)]).
  { intros j _. apply lm_zero_slot. }
  change (lm_load_links max_links 0 garbage w0 = Some (tt, w')) in Hrun. rewrite (bind_Some _ _ _ _ _ Hrun).
  exists w'. split; [done|]. split_and!; try done; intros j Hj; rewrite ?Hsl, ?Hpf by done; by rewrite decide_True by lia.
Qed.

(** No two blocks of NV hold a link to the same device. *)
Definition saved_distinct (p : P) : Prop :=
  ∀ i j li lj, (i < max_links)%nat → (j < max_links)%nat → saved p i = Some li → saved p j = Some lj →
    linked_device_id li = linked_device_id lj → i = j.

Lemma lm_ok_distinct (w : lm_world P) : lm_ok w → saved_distinct (lm_prod w).
Proof.
  intros (_ & Ht & _) i j li lj Hi Hj Hli Hlj Heq.
  destruct (table_back _ _ Ht i li Hi Hli) as (si & Hsi & [Hidi _ _ _]).
  destruct (table_back _ _ Ht j lj Hj Hlj) as (sj & Hsj & [Hidj _ _ _]).
  eapply (table_distinct _ _ Ht); [done|done|exact Hsi|exact Hsj|congruence].
Qed.

Lemma restart_ok garbage registered (w w' : lm_world P) :
  length garbage = 36%nat → saved_distinct (lm_prod w) →
  nexus_channel_link_manager_init garbage registered w = Some (registered, w') → lm_ok w'.
Proof.
  intros Hg Hd Hrun. destruct (lm_init_spec garbage registered w Hg) as (w2 & Hrun2 & Hp & Hs & Ha & _ & Hsl & _).
  rewrite Hrun in Hrun2. apply (inj Some) in Hrun2. injection Hrun2 as <-. split; [done|]. split; [|by rewrite Ha].
  split.
  - intros j l Hj. rewrite Hsl by done. intros (l0 & Hl0 & ->)%fmap_Some. apply restored_ok. by eapply saved_link_ok.
  - intros i j li lj Hi Hj. rewrite !Hsl by done. intros (l1 & H1 & ->)%fmap_Some (l2 & H2 & ->)%fmap_Some Heq. by eapply Hd.
  - intros j l Hj. rewrite Hsl, Hp by done. intros ->. exists (restored l). split; [done|apply restored_same].
  - intros j l Hj. rewrite Hsl, Hp by done. intros (l0 & Hl0 & ->)%fmap_Some _. exists l0. split; [done|]. split; [apply restored_same|].
    by eapply saved_link_ok.
Qed.
End LmRestore.
