(* ===== verification/ChannelLmRun.v ===== *)
(** * The link manager: sequences of calls, across restarts *)



From S2P Require Import Prelude Crc Check NvBlock Product DesktopProduct Nv Channel ChannelLm ChannelLmSpec ChannelLmProcess ChannelLmTable.
From S2P Require Import ChannelLmCreate.
Local Open Scope Z_scope.

(** The calls other modules make, and the restart of the device; the result
    of a call is dropped. *)
Inductive lm_event :=
| lm_process (seconds_elapsed : Z)
| lm_create (id : nx_id) (mode : nexus_channel_link_operating_mode) (sm : Z) (data : nexus_channel_link_security_mode0_data)
| lm_clear_all
| lm_set_nonce (id : nx_id) (new_nonce : Z)
| lm_active (id : nx_id)
| lm_restart (garbage : list Z).

Section LmRun.
Context {P : Type} `{HP : ProductLaws P} `{!ReliableNv P} `{!ChannelProduct P} `{!ChannelProductLaws P}
  `{HC : ChannelConfigOk}.

Definition lm_exec1 (e : lm_event) : M (lm_world P) unit :=
  match e with
  | lm_process dt => _ ← nexus_channel_link_manager_process dt; mret tt
  | lm_create id mode sm data => _ ← nexus_channel_link_manager_create_link id mode sm data; mret tt
  | lm_clear_all => nexus_channel_link_manager_clear_all_links
  | lm_set_nonce id n => _ ← nexus_channel_link_manager_set_security_data_auth_nonce id n; mret tt
  | lm_active id => _ ← nexus_channel_link_manager_reset_link_secs_since_active id; mret tt
  | lm_restart garbage => _ ← nexus_channel_link_manager_init garbage true; mret tt
  end.

Fixpoint lm_exec (es : list lm_event) : M (lm_world P) unit :=
  match es with
  | [] => mret tt
  | e :: es => lm_exec1 e;; lm_exec es
  end.

Definition event_ok (e : lm_event) : Prop :=
  match e with
  | lm_create id mode sm data => link_ok (new_link id mode sm data)
  | lm_set_nonce _ n => is_u32 n
  | lm_restart garbage => length garbage = 36%nat
  | _ => True
  end.

(** A nonce that leaves 0 stays below 64. *)
Definition event_near (w : lm_world P) (e : lm_event) : Prop :=
  match e with
  | lm_set_nonce id n => ∀ j l, (j < max_links)%nat → slot (lm_this w) j = Some l → linked_device_id l = id →
      nonce (security_data l) = 0 → n < 64
  | _ => True
  end.

(** ** Saved nonces *)

(** The nonce of a link is in the interval of its saved nonce or before,
    unless the link is to be saved. *)
Definition nonces_ok (w : lm_world P) : Prop :=
  ∀ j l l', (j < max_links)%nat → slot (lm_this w) j = Some l → saved (lm_prod w) j = Some l' →
    persist_flag (lm_this w) j = true ∨ interval (nonce (security_data l)) ≤ interval (nonce (security_data l')).

Lemma nonces_ok_result (w w' : lm_world P) sl sv pf :
  lm_result w w' sl sv pf →
  (∀ j l l', (j < max_links)%nat → sl j = Some l → sv j = Some l' →
     pf j = true ∨ interval (nonce (security_data l)) ≤ interval (nonce (security_data l'))) → nonces_ok w'.
Proof. intros [_ _ Hsl Hsv Hpf] Hn j l l' Hj. rewrite Hsl, Hsv, Hpf by done. by apply Hn. Qed.

Lemma kept_Some l l' : kept l = Some l' → l' = l.
Proof. unfold kept. case_match; [done|]. by intros [= <-]. Qed.

Lemma nonces_processed dt (w : lm_world P) j l l' :
  (j < max_links)%nat → nonces_ok w → processed_slot dt w j = Some l → processed_saved dt w j = Some l' →
  processed_persist dt w j = true ∨ interval (nonce (security_data l)) ≤ interval (nonce (security_data l')).
Proof.
  intros Hj Hn. unfold processed_slot, processed_saved, processed_persist, process_slot, process_saved, process_persist.
  specialize (Hn j). destruct (slot (lm_this w) j) as [l0|]; [|done]. destruct (timed_out dt l0); [done|].
  intros [= <-]. destruct (security_mode l0 =? 0); cbn [andb].
  - destruct (persist_flag (lm_this w) j).
    + intros ->%kept_Some. by right.
    + intros Hsv. by apply (Hn l0 l').
  - intros Hsv. by apply (Hn l0 l').
Qed.

Lemma process_nonces dt (w : lm_world P) :
  lm_ok w →
  ∃ w', nexus_channel_link_manager_process dt w = Some (NEXUS_COMMON_IDLE_TIME_BETWEEN_PROCESS_CALL_SECONDS, w') ∧
    lm_ok w' ∧ (nonces_ok w → nonces_ok w').
Proof.
  intros Hok. destruct (lm_process_spec dt w Hok) as (w' & Hrun & _ & Hres). exists w'. split; [done|].
  destruct (pending_add_link (lm_this w)); [|destruct Hres as [_ Hres]; destruct (pending_clear_all_links (lm_this w))].
  - destruct Hres as (_ & i & _ & _ & _ & Hres). split; [apply Hres|]. intros Hn. eapply nonces_ok_result; [exact Hres|].
    intros j l l' Hj. unfold upd. case_decide; [|by eapply nonces_processed]. intros [= <-] ->%kept_Some. by right.
  - split; [apply Hres|]. intros _. by eapply nonces_ok_result.
  - split; [apply Hres|]. intros Hn. eapply nonces_ok_result; [exact Hres|]. intros j l l' Hj. by apply nonces_processed.
Qed.

Lemma create_nonces id mode sm data (w : lm_world P) :
  lm_ok w → link_ok (new_link id mode sm data) → 
  ∃ b w', nexus_channel_link_manager_create_link id mode sm data w = Some (b, w') ∧ lm_ok w' ∧ (nonces_ok w → nonces_ok w').
Proof.
  intros Hok Hl. destruct (create_link_spec id mode sm data w Hok Hl) as (b & w' & Hrun & Hres). exists b, w'. split; [done|].
  destruct (pending_add_link (lm_this w)); [by destruct Hres as [_ ->]|].
  destruct Hres as (v & _ & Hres). destruct v as [k|]; [|by destruct Hres as [_ ->]].
  destruct Hres as (_ & _ & _ & _ & Hres). split; [apply Hres|]. intros Hn. eapply nonces_ok_result; [exact Hres|].
  intros j l l' Hj. destruct k as [k|]; cbn [emptied]; [|by apply Hn]. unfold upd. case_decide; [done|by apply Hn].
Qed.

Lemma set_nonces id n (w : lm_world P) :
  lm_ok w → is_u32 n → 
  ∃ b w', nexus_channel_link_manager_set_security_data_auth_nonce id n w = Some (b, w') ∧ lm_ok w' ∧
    (event_near w (lm_set_nonce id n) → nonces_ok w → nonces_ok w').
Proof.
  intros Hok Hn. destruct (set_nonce_spec id n w Hok Hn) as [(k & l & Hk & Hsl & Hid & Hres)|[Hrun _]]; [|by exists false, w].
  destruct (security_mode l =? 0); [|by exists false, w].
  destruct Hres as (w' & Hrun & _ & _ & _ & Hres). exists true, w'. split; [done|]. split; [apply Hres|].
  intros Hnear Hnon. eapply nonces_ok_result; [exact Hres|]. intros j x x' Hj. unfold upd. case_decide; [subst j|by apply Hnon].
  intros [= <-] Hsv. cbn [with_nonce security_data nonce]. unfold nonce_flags.
  assert (Hold : is_u32 (nonce (security_data l))).
  { destruct Hok as (_ & Ht & _). by destruct (table_links _ _ Ht k l Hk Hsl). }
  destruct (Hnon k l x' Hk Hsl Hsv) as [->|Hle]; [by left|]. destruct (persist_flag (lm_this w) k); [by left|]. cbn [orb].
  destruct (Z.eqb_spec n 0); [by left|]. cbn [orb].
  destruct (Z.ltb_spec 0 (nonce (security_data l))) as [Hpos|Hzero]; cbn [andb].
  - destruct (Z.ltb_spec (nonce (security_data l)) n) as [Hlt|Hge]; cbn [andb].
    + destruct (Z.ltb_spec (interval (nonce (security_data l))) (interval n)); cbn [orb]; [by left|right; lia].
    + right. unfold interval in *. wrap_unfold. lia.
  - right. assert (n < 64) by (eapply Hnear; [exact Hk|exact Hsl|done|wrap]). unfold interval in *.
    assert (is_u32 (nonce (security_data x'))) by (eapply saved_link_ok; [exact Hk|done]). wrap_unfold. lia.
Qed.

Lemma active_nonces id (w : lm_world P) :
  lm_ok w →
  ∃ b w', nexus_channel_link_manager_reset_link_secs_since_active id w = Some (b, w') ∧ lm_ok w' ∧ (nonces_ok w → nonces_ok w').
Proof.
  intros Hok. destruct (reset_secs_spec id w Hok) as [(k & l & w' & Hk & Hsl & _ & Hrun & _ & _ & _ & Hres)|[Hrun _]];
    [|by exists false, w].
  exists true, w'. split; [done|]. split; [apply Hres|]. intros Hn. eapply nonces_ok_result; [exact Hres|].
  intros j x x' Hj. unfold upd. case_decide; [subst j|by apply Hn]. intros [= <-]. by apply (Hn k l).
Qed.

Lemma restart_nonces garbage (w : lm_world P) :
  length garbage = 36%nat → saved_distinct (lm_prod w) →
  ∃ w', nexus_channel_link_manager_init garbage true w = Some (true, w') ∧ lm_ok w' ∧ nonces_ok w'.
Proof.
  intros Hg Hd. destruct (lm_init_spec garbage true w Hg) as (w' & Hrun & Hp & _ & _ & _ & _ & Hpf).
  exists w'. split; [done|]. split; [by eapply restart_ok|]. intros j l l' Hj _. rewrite Hp, Hpf by done. intros ->. by left.
Qed.

(** One call. *)
Lemma exec1_ok e (w : lm_world P) :
  event_ok e → lm_ok w → ∃ w', lm_exec1 e w = Some (tt, w') ∧ lm_ok w' ∧ (event_near w e → nonces_ok w → nonces_ok w').
Proof.
  intros He Hok. destruct e as [dt|id mode sm data| |id n|id|garbage]; cbn [lm_exec1 event_ok] in *.
  - destruct (process_nonces dt w Hok) as (w' & Hrun & Hok' & Hn). exists w'. rewrite (bind_Some _ _ _ _ _ Hrun). auto.
  - destruct (create_nonces id mode sm data w Hok He) as (b & w' & Hrun & Hok' & Hn). exists w'.
    rewrite (bind_Some _ _ _ _ _ Hrun). auto.
  - destruct Hok as (Hs & Ht & Hp). destruct (request_frame_lm (lm_prod w)) as [_ Hsv].
    unfold nexus_channel_link_manager_clear_all_links, lm_modify, lm_on_prod, request_processing. mstep.
    eexists. split; [reflexivity|]. split.
    + destruct Hs. split; [by split|]. split; [|done]. eapply table_ok_eq; [exact Ht|done|]. intros j _. apply Hsv.
    + intros _ Hn j l l' Hj. cbn [lm_this lm_prod]. rewrite Hsv. apply (Hn j l l' Hj).
  - destruct (set_nonces id n w Hok He) as (b & w' & Hrun & Hok' & Hn). exists w'. rewrite (bind_Some _ _ _ _ _ Hrun). auto.
  - destruct (active_nonces id w Hok) as (b & w' & Hrun & Hok' & Hn). exists w'. rewrite (bind_Some _ _ _ _ _ Hrun). auto.
  - destruct (restart_nonces garbage w He (lm_ok_distinct w Hok)) as (w' & Hrun & Hok' & Hn). exists w'.
    rewrite (bind_Some _ _ _ _ _ Hrun). auto.
Qed.

Lemma exec_ok es (w : lm_world P) : Forall event_ok es → lm_ok w → ∃ w', lm_exec es w = Some (tt, w') ∧ lm_ok w'.
Proof.
  intros He. revert w. induction He as [|e es He _ IH]; intros w Hok; [by exists w|].
  destruct (exec1_ok e w He Hok) as (w1 & Hrun & Hok1 & _). destruct (IH w1 Hok1) as (w2 & Hrun2 & Hok2).
  exists w2. split; [|done]. cbn [lm_exec]. by rewrite (bind_Some _ _ _ _ _ Hrun).
Qed.

(** Sequences of calls that respect [event_near]. *)
Inductive lm_run : lm_world P → list lm_event → lm_world P → Prop :=
| lm_run_nil w : lm_run w [] w
| lm_run_cons w e w1 es w2 :
    event_ok e → event_near w e → lm_exec1 e w = Some (tt, w1) → lm_run w1 es w2 → lm_run w (e :: es) w2.

Lemma run_nonces es (w w' : lm_world P) : lm_run w es w' → lm_ok w → nonces_ok w → lm_ok w' ∧ nonces_ok w'.
Proof.
  induction 1 as [w|w e w1 es w2 He Hnear Hrun _ IH]; intros Hok Hn; [done|].
  destruct (exec1_ok e w He Hok) as (w1' & Hrun' & Hok1 & Hn1). rewrite Hrun in Hrun'. injection Hrun' as <-. by apply IH; auto.
Qed.

(** After [process] the saved nonces cover the live ones. *)
Lemma process_covers dt (w w' : lm_world P) r :
  lm_ok w → nonces_ok w → nexus_channel_link_manager_process dt w = Some (r, w') →
  ∀ j l l', (j < max_links)%nat → slot (lm_this w') j = Some l → saved (lm_prod w') j = Some l' → security_mode l = 0 →
    interval (nonce (security_data l)) ≤ interval (nonce (security_data l')).
Proof.
  intros Hok Hn Hrun. destruct (lm_process_spec dt w Hok) as (w2 & Hrun2 & _ & Hres). rewrite Hrun in Hrun2.
  injection Hrun2 as -> <-.
  assert (Hall : ∀ j l l', (j < max_links)%nat → processed_slot dt w j = Some l → processed_saved dt w j = Some l' →
    security_mode l = 0 → interval (nonce (security_data l)) ≤ interval (nonce (security_data l'))).
  { intros j l l' Hj Hsl Hsv Hmode. destruct (nonces_processed dt w j l l' Hj Hn Hsl Hsv) as [Hp|]; [|done].
    revert Hsl Hp. unfold processed_slot, processed_persist, process_slot, process_persist.
    destruct (slot (lm_this w) j) as [l0|]; [|done]. destruct (timed_out dt l0); [done|]. intros [= <-].
    change (security_mode (aged dt l0)) with (security_mode l0) in Hmode. by rewrite Hmode. }
  destruct (pending_add_link (lm_this w)); [|destruct Hres as [_ Hres]; destruct (pending_clear_all_links (lm_this w))].
  - destruct Hres as (_ & i & _ & _ & _ & [_ _ Hsl Hsv _]). intros j l l' Hj. rewrite Hsl, Hsv by done. unfold upd.
    case_decide; [|by apply Hall]. by intros [= <-] ->%kept_Some.
  - destruct Hres as [_ _ Hsl Hsv _]. intros j l l' Hj. by rewrite Hsl.
  - destruct Hres as [_ _ Hsl Hsv _]. intros j l l' Hj. rewrite Hsl, Hsv by done. by apply Hall.
Qed.

(** Looking a device up in the table after a restart. *)
Lemma restart_lookup garbage (w : lm_world P) j s :
  length garbage = 36%nat → lm_ok w → (j < max_links)%nat → saved (lm_prod w) j = Some s →
  ∃ w', nexus_channel_link_manager_init garbage true w = Some (true, w') ∧
    nexus_channel_link_manager_link_from_nxid (linked_device_id s) (lm_this w') = Some (Some (restored s)).
Proof.
  intros Hg Hok Hj Hs. destruct (lm_init_spec garbage true w Hg) as (w' & Hrun & _ & _ & _ & _ & Hsl & _).
  exists w'. split; [done|]. assert (Hok' : lm_ok w') by (eapply restart_ok; [done|by apply lm_ok_distinct|done]).
  destruct Hok' as (Hs' & Ht' & _). eapply link_from_nxid_found; [done|done|exact Hj| |done]. by rewrite Hsl, Hs.
Qed.

(** ** Properties *)


(** C25: a link is created unless the table is full and no link in which the
    device is an accessory can give way to it; after the next [process] the
    link is found under its device with the key and nonce given, and every
    other link but the one that gave way is found too, aged, unless it timed
    out. *)
Theorem lm_created_link_found id mode sm data dt (w : lm_world P) :
  lm_ok w → pending_add_link (lm_this w) = false → link_ok (new_link id mode sm data) →
  ∃ b w1 v, nexus_channel_link_manager_create_link id mode sm data w = Some (b, w1) ∧
    makes_room (slot (lm_this w)) id mode v ∧
    match v with
    | None => b = false ∧ w1 = w
    | Some k => b = true ∧ ∃ r w2, nexus_channel_link_manager_process dt w1 = Some (r, w2) ∧ lm_ok w2 ∧
        nexus_channel_link_manager_link_from_nxid id (lm_this w2) = Some (Some (new_link id mode sm data)) ∧
        ∀ j l, (j < max_links)%nat → slot (lm_this w) j = Some l → k ≠ Some j →
          nexus_channel_link_manager_link_from_nxid (linked_device_id l) (lm_this w2) =
          Some (if timed_out dt l then None else Some (aged dt l))
    end.
Proof.
  intros Hok Hadd Hl. destruct (create_link_spec id mode sm data w Hok Hl) as (b & w1 & Hrun & Hres).
  rewrite Hadd in Hres. destruct Hres as (v & Hroom & Hv). exists b, w1, v. split; [done|]. split; [done|].
  destruct v as [k|]; [|done]. destruct Hv as (-> & Hadd1 & Hpl & _ & [Hok1 _ Hsl1 _ _]). split; [done|].
  destruct (lm_process_spec dt w1 Hok1) as (w2 & Hrun2 & _ & Hres2). rewrite Hadd1 in Hres2.
  destruct Hres2 as (_ & i & Hi & Hfree & _ & [Hok2 _ Hsl2 _ _]). rewrite Hpl in Hsl2.
  eexists _, w2. split; [exact Hrun2|]. split; [done|]. destruct Hok2 as (Hs2 & Ht2 & _).
  assert (Hproc : ∀ j, (j < max_links)%nat → processed_slot dt w1 j = process_slot dt (emptied k (slot (lm_this w)) j)).
  { intros j Hj. unfold processed_slot. by rewrite Hsl1. }
  split.
  { eapply link_from_nxid_found; [done|done|exact Hi| |done]. rewrite Hsl2 by done. unfold upd. by rewrite decide_True. }
  intros j l Hj Hsl Hk.
  assert (Hej : emptied k (slot (lm_this w)) j = Some l).
  { destruct k as [k|]; cbn [emptied]; [|done]. unfold upd. rewrite decide_False by congruence. done. }
  assert (Hpj : processed_slot dt w1 j = if timed_out dt l then None else Some (aged dt l)) by (rewrite Hproc, Hej; done).
  destruct (timed_out dt l).
  - apply link_from_nxid_absent; [done|]. intros j' l' Hj'. rewrite Hsl2 by done. unfold upd. case_decide as Hd.
    + intros [= <-] Heq. cbn [new_link linked_device_id] in Heq.
      destruct (emptied_room _ _ _ _ (table_distinct _ _ (proj1 (proj2 Hok))) Hroom) as [_ Hab]. by apply (Hab j l).
    + rewrite Hproc by done. intros Hp Heq. destruct (emptied k (slot (lm_this w)) j') as [l0|] eqn:He; [|done].
      unfold process_slot in Hp. destruct (timed_out dt l0) eqn:Ht0; [done|]. injection Hp as <-.
      destruct Hok1 as (_ & Ht1 & _).
      assert (j' = j) as -> by (eapply (table_distinct _ _ Ht1); [done|done|by rewrite Hsl1|by rewrite Hsl1|done]).
      rewrite Hproc, Hej in Hpj by done. assert (l0 = l) as -> by congruence. cbn [process_slot] in Hpj. by rewrite Ht0 in Hpj.
  - eapply link_from_nxid_found; [done|done|exact Hj| |done]. rewrite Hsl2 by done. unfold upd.
    rewrite decide_False; [done|]. intros ->. congruence.
Qed.


(** the hypothesis on jumps is needed.  When the nonce of a link that
    still has nonce 0, in the table and in NV, is set to 64 or more, the next
    [process] does not save it, and a restart gives the link nonce 64: the
    messages with nonces from 65 up to the one already used are accepted
    again. *)
Theorem lm_nonce_jump_lost garbage dt k l s new (w : lm_world P) :
  length garbage = 36%nat → lm_ok w → pending_add_link (lm_this w) = false → pending_clear_all_links (lm_this w) = false →
  (k < max_links)%nat → slot (lm_this w) k = Some l → security_mode l = 0 → nonce (security_data l) = 0 →
  persist_flag (lm_this w) k = false → saved (lm_prod w) k = Some s → nonce (security_data s) = 0 →
  timed_out dt l = false → 64 ≤ new < UINT32_MAX →
  ∃ w', lm_exec [lm_set_nonce (linked_device_id l) new; lm_process dt; lm_restart garbage] w = Some (tt, w') ∧
    ∃ l', nexus_channel_link_manager_link_from_nxid (linked_device_id l) (lm_this w') = Some (Some l') ∧
      same_link l' l ∧ nonce (security_data l') = 64.
Proof.
  intros Hg Hok Hadd Hclr Hk Hsl Hmode Hzero Hflag Hsv Hs0 Hto Hnew. pose proof Hok as (Hs & Ht & _).
  destruct (set_nonce_spec (linked_device_id l) new w Hok ltac:(wrap)) as [(k' & l0 & Hk' & Hsl' & Hid & Hres)|[_ Hab]];
    [|exfalso; by apply (Hab k l)].
  assert (k' = k) as -> by (by eapply (table_distinct _ _ Ht)). assert (l0 = l) as -> by congruence.
  rewrite Hmode in Hres. cbn [Z.eqb] in Hres. destruct Hres as (w1 & Hrun1 & _ & Hadd1 & Hclr1 & [Hok1 _ Hsl1 Hsv1 Hpf1]).
  assert (Hflag1 : persist_flag (lm_this w1) k = false).
  { rewrite Hpf1 by done. unfold upd. rewrite decide_True, Hflag, Hzero by done. unfold nonce_flags.
    by rewrite (proj2 (Z.eqb_neq new 0)) by lia. }
  destruct (lm_process_spec dt w1 Hok1) as (w2 & Hrun2 & _ & Hres2). rewrite Hadd1, Hadd, Hclr1, Hclr in Hres2.
  destruct Hres2 as (_ & [Hok2 _ Hsl2 Hsv2 _]).
  assert (Hs2 : saved (lm_prod w2) k = Some s).
  { rewrite Hsv2 by done. unfold processed_saved, process_saved. rewrite Hsl1, Hsv1, Hflag1 by done. unfold upd.
    rewrite decide_True by done. change (timed_out dt (with_nonce new l)) with (timed_out dt l).
    by rewrite Hto, andb_false_r. }
  destruct (table_some _ _ Ht k l Hk Hsl) as (s' & Hs' & Hsame & _).
  { destruct (table_back _ _ Ht k s Hk Hsv) as (l' & Hl' & Hsl0). assert (l' = l) as -> by congruence.
    rewrite (same_id _ _ Hsl0). by eapply saved_link_ok. }
  assert (s' = s) as -> by congruence.
  destruct (restart_lookup garbage w2 k s Hg Hok2 Hk Hs2) as (w3 & Hrun3 & Hf3).
  exists w3. split.
  - cbn [lm_exec lm_exec1].
    rewrite bind_assoc, (bind_Some _ _ _ _ _ Hrun1). erewrite bind_Some by reflexivity.
    rewrite bind_assoc, (bind_Some _ _ _ _ _ Hrun2). erewrite bind_Some by reflexivity.
    by rewrite bind_assoc, (bind_Some _ _ _ _ _ Hrun3).
  - exists (restored s). rewrite (same_id _ _ Hsame). split; [done|]. split.
    + etransitivity; [apply restored_same|by symmetry].
    + unfold restored. cbn [with_nonce security_data nonce]. by rewrite Hs0.
Qed.
End LmRun.
