(* ===== verification/ChannelHs.v ===== *)
(** * The link handshake (nexus_channel_res_link_hs.c)

    A controller that gets the six digits of an accessory draws a salt,
    derives the link key from both and multicasts the salt with its MAC under
    the key.  The accessory derives the key for every unused handshake index of
    its window until the MAC fits, creates the link and answers with the MAC of
    the inverted salt; the controller checks it and creates its side of the
    link.

    The requests and responses of the resource are values here: the handlers
    get the parsed payload and give back what they send. *)

From S2P Require Import Prelude Siphash Check NvBlock Product Nv Window DesktopProduct Channel ChannelEndpoint ChannelLm.
Local Open Scope Z_scope.
Local Open Scope c_scope.

Definition NEXUS_CHANNEL_LINK_HANDSHAKE_ACCESSORY_TIMEOUT_SECONDS : Z := 300.
Definition NEXUS_CHANNEL_LINK_HANDSHAKE_CONTROLLER_TIMEOUT_SECONDS : Z := 3600.
Definition NEXUS_CHANNEL_LINK_HANDSHAKE_CONTROLLER_RETRY_SECONDS : Z := 5.
Definition NEXUS_CHANNEL_LINK_MAX_CHAL_DATA_BYTES : nat := 16.
Definition NEXUS_CHANNEL_LINK_MAX_RESP_DATA_BYTES : nat := 16.
Definition CHALLENGE_MODE_3_SALT_LENGTH_BYTES : nat := 8.
Definition NEXUS_CHANNEL_SIMULTANEOUS_LINK_HANDSHAKES : nat := 4.
Definition NEXUS_CHANNEL_LINK_HS_MAX_RECEIVE_FLAG_BYTE : nat := 2.
Definition NEXUS_CHANNEL_LINK_HS_RECEIVE_WINDOW_BEFORE_CENTER_INDEX : Z := 15.
Definition NEXUS_CHANNEL_LINK_HS_RECEIVE_WINDOW_AFTER_CENTER_INDEX : Z := 8.
Definition NEXUS_CHANNEL_LINK_HANDSHAKE_CHALLENGE_MODE_0_CHALLENGE_RESULT : Z := 0.

Inductive nexus_channel_link_handshake_state := LINK_HANDSHAKE_STATE_IDLE | LINK_HANDSHAKE_STATE_ACTIVE.

#[export] Instance hs_state_eq_dec : EqDecision nexus_channel_link_handshake_state.
Proof. solve_decision. Defined.

Record nexus_link_hs_accessory_t := mk_hs_accessory {
  chal_data : list Z;
  resp_data : list Z;
  chal_data_len : Z;
  resp_data_len : Z;
  chal_mode : Z;
  hs_seconds_since_init : Z;
  link_security_mode : Z;
  hs_state : nexus_channel_link_handshake_state
}.

Record nexus_link_hs_controller_t := mk_hs_controller {
  hs_link_key : list Z;
  send_chal_data : list Z;
  send_chal_data_len : Z;
  salt_mac : list Z;
  salt : list Z;
  client_seconds_since_init : Z;
  last_post_seconds : Z;
  requested_security_mode : Z;
  requested_chal_mode : Z;
  client_state : nexus_channel_link_handshake_state
}.

(** [stored_accessory], six packed bytes. *)
Record hs_stored := mk_hs_stored { handshake_index : Z; hs_received_ids : list Z }.

Definition hs_stored_bytes (st : hs_stored) : list Z := le_bytes 4 (handshake_index st) ++ hs_received_ids st.
Definition hs_stored_of_bytes (b : list Z) : hs_stored := mk_hs_stored (le_val (take 4 b)) (drop 4 b).

Definition server_zero : nexus_link_hs_accessory_t :=
  mk_hs_accessory (replicate 16 0) (replicate 16 0) 0 0 0 0 0 LINK_HANDSHAKE_STATE_IDLE.
Definition client_zero : nexus_link_hs_controller_t :=
  mk_hs_controller (replicate 16 0) (replicate 16 0) 0 (replicate 8 0) (replicate 8 0) 0 0 0 0 LINK_HANDSHAKE_STATE_IDLE.

Record link_hs := mk_link_hs {
  clients : list nexus_link_hs_controller_t;
  server : nexus_link_hs_accessory_t;
  stored_accessory : hs_stored
}.

Record hs_world (P : Type) := mk_hs_world { hs_this : link_hs; hs_lm : lm_world P }.
Arguments mk_hs_world {P} _ _.
Arguments hs_this {P} _.
Arguments hs_lm {P} _.

(** ** Payloads

    A property of a CBOR payload; the name is its characters up to the
    terminator. *)
Inductive oc_rep_value := OC_REP_BYTE_STRING (bytes : list Z) | OC_REP_INT (integer : Z) | OC_REP_OTHER.
Record oc_rep_t := mk_oc_rep { rep_name : list Z; rep_value : oc_rep_value }.

Definition CHAL_DATA_SHORT_PROP_NAME : list Z := [99; 68]. (* cD *)
Definition RESP_DATA_SHORT_PROP_NAME : list Z := [114; 68]. (* rD *)
Definition CHAL_MODE_SHORT_PROP_NAME : list Z := [99; 77]. (* cM *)
Definition LINK_SEC_MODE_SHORT_PROP_NAME : list Z := [108; 83]. (* lS *)

(** The comparison of the first two characters. *)
Definition name_is (name prop : list Z) : bool := bool_decide (take 2 name = prop).

Inductive oc_status_t := OC_STATUS_OK | OC_STATUS_CREATED | OC_STATUS_CHANGED | OC_STATUS_BAD_REQUEST | OC_STATUS_OTHER.

#[export] Instance oc_status_eq_dec : EqDecision oc_status_t.
Proof. solve_decision. Defined.

(** ** Keys and MACs *)

(** [for (i = 0; i < 8; i++) inverted_salt[i] = salt[i] ^ 0xFF] *)
Definition invert_body (salt : list Z) (i : Z) (inverted_salt : list Z) : option (list Z) :=
  b ← aget salt i; aset inverted_salt i (b .^ 0xFF).

Definition _res_link_hs_mode0_compute_inverted_salt_mac (salt link_key : list Z) : option (list Z) :=
  inverted_salt ← for_loop CHALLENGE_MODE_3_SALT_LENGTH_BYTES 0 (invert_body salt)
                    (replicate CHALLENGE_MODE_3_SALT_LENGTH_BYTES 0);
  nexus_check_compute link_key inverted_salt (Z.of_nat CHALLENGE_MODE_3_SALT_LENGTH_BYTES).

(** The static buffer is cleared at the end of every call, so it starts out
    zeroed. *)
Definition _res_link_hs_generate_link_key (challenge_int : Z) (salt_bytes : list Z) (salt_len : nat)
    (derivation_key_a derivation_key_b : list Z) : option (list Z) :=
  let key_derivation_material := replicate 12 0 in
  salt ← slice salt_bytes 0 salt_len;
  material ← memcpy_at key_derivation_material 0 salt;
  material ← memcpy_at material 8 (le_bytes 4 (nexus_endian_htole32 challenge_int));
  key_part_a ← nexus_check_compute derivation_key_a material 12;
  key_part_b ← nexus_check_compute derivation_key_b material 12;
  derived_link_key ← memcpy_at (replicate 16 0) 0 key_part_a;
  memcpy_at derived_link_key 8 key_part_b.

(** ** The accessory's search for the handshake index *)

(** The challenge the origin gives out for index [i]. *)
Definition hs_challenge (origin_key : list Z) (i : Z) : option Z :=
  challenge_hash ← nexus_check_compute origin_key (le_bytes 4 (nexus_endian_htole32 i)) 4;
  six_digit_int_challenge ← nexus_check_value_as_uint64 challenge_hash;
  Some (u32 (six_digit_int_challenge .& 0xffffffff) mod 1000000).

(** The loop of [validate_challenge] from index [i]: the matching index and
    its key. *)
Fixpoint hs_validate_loop (fuel : nat) (i end_index : Z) (window : nexus_window) (origin_key salt rcvd_mac : list Z)
    : option (option (Z * list Z)) :=
  match fuel with
  | O => None
  | S fuel =>
    if i <=? end_index then
      already ← nexus_util_window_id_flag_already_set window i;
      if (already : bool) then hs_validate_loop fuel (u32 (i + 1)) end_index window origin_key salt rcvd_mac
      else
        six_digit_int_challenge ← hs_challenge origin_key i;
        computed_link_key ← _res_link_hs_generate_link_key six_digit_int_challenge salt CHALLENGE_MODE_3_SALT_LENGTH_BYTES
          NEXUS_CHANNEL_PUBLIC_KEY_DERIVATION_KEY_1 NEXUS_CHANNEL_PUBLIC_KEY_DERIVATION_KEY_2;
        computed_mac ← nexus_check_compute computed_link_key salt (Z.of_nat CHALLENGE_MODE_3_SALT_LENGTH_BYTES);
        if memeq computed_mac rcvd_mac then Some (Some (i, computed_link_key))
        else hs_validate_loop fuel (u32 (i + 1)) end_index window origin_key salt rcvd_mac
    else Some None
  end.

Definition _nexus_channel_res_link_hs_server_validate_challenge (salt rcvd_mac : list Z) (window : nexus_window)
    (origin_key : list Z) : option (option (Z * list Z)) :=
  let start_index := u32 (center_index window - flags_below window) in
  let end_index := u32 (center_index window + flags_above window) in
  hs_validate_loop 25 start_index end_index window origin_key salt rcvd_mac.

Definition _nexus_channel_res_link_hs_challenge_mode_supported (requested_chal_mode : Z) : bool :=
  existsb (Z.eqb requested_chal_mode) [NEXUS_CHANNEL_LINK_HANDSHAKE_CHALLENGE_MODE_0_CHALLENGE_RESULT].
Definition _nexus_channel_res_link_hs_link_security_mode_supported (requested_security_mode : Z) : bool :=
  existsb (Z.eqb requested_security_mode) [NEXUS_CHANNEL_LINK_SECURITY_MODE_KEY128SYM_COSE_MAC0_AUTH_SIPHASH24].

(** The length, and the data when it is not too long. *)
Definition _nexus_channel_res_link_hs_challenge_data_length (name bytes : list Z) : Z * option (list Z) :=
  if name_is name CHAL_DATA_SHORT_PROP_NAME then
    let length := u8 (Z.of_nat (length bytes)) in
    if Z.of_nat NEXUS_CHANNEL_LINK_MAX_CHAL_DATA_BYTES <? length then (0, None) else (length, Some bytes)
  else (0, None).

Definition hs_window (st : hs_stored) : nexus_window :=
  nexus_util_window_init (hs_received_ids st) NEXUS_CHANNEL_LINK_HS_MAX_RECEIVE_FLAG_BYTE (handshake_index st)
    NEXUS_CHANNEL_LINK_HS_RECEIVE_WINDOW_BEFORE_CENTER_INDEX NEXUS_CHANNEL_LINK_HS_RECEIVE_WINDOW_AFTER_CENTER_INDEX.

(** The window's flags are those of the stored structure. *)
Definition hs_write_flags (w : nexus_window) (st : hs_stored) : hs_stored :=
  {| st with hs_received_ids := flags w ++ drop (length (flags w)) (hs_received_ids st) |}.

Section Hs.
Context {P : Type} `{Product P} `{!ChannelProduct P} `{!OcStack P} `{ChannelConfig}.

Definition hs_on_lm {A} (m : M (lm_world P) A) : M (hs_world P) A := zoom hs_lm (λ l w, {| w with hs_lm := l |}) m.
Definition hs_on_prod {A} (m : M P A) : M (hs_world P) A := hs_on_lm (lm_on_prod m).
Definition hs_gets {A} (f : link_hs → A) : M (hs_world P) A := gets (λ w, f (hs_this w)).
Definition hs_modify (f : link_hs → link_hs) : M (hs_world P) unit := modify (λ w, {| w with hs_this := f (hs_this w) |}).
Definition on_server (f : nexus_link_hs_accessory_t → nexus_link_hs_accessory_t) : M (hs_world P) unit :=
  hs_modify (λ h, {| h with server := f (server h) |}).
Definition on_stored (f : hs_stored → hs_stored) : M (hs_world P) unit :=
  hs_modify (λ h, {| h with stored_accessory := f (stored_accessory h) |}).
Definition get_client (i : Z) : M (hs_world P) nexus_link_hs_controller_t := cs ← hs_gets clients; lift (aget cs i).
Definition put_client (i : Z) (c : nexus_link_hs_controller_t) : M (hs_world P) unit :=
  cs ← hs_gets clients; cs ← lift (aset cs i c); hs_modify (λ h, {| h with clients := cs |}).

Definition _nexus_channel_res_link_hs_reset_server_state : M (hs_world P) unit := on_server (λ _, server_zero).

Definition nexus_channel_res_link_hs_init : M (hs_world P) unit :=
  when NEXUS_CHANNEL_SUPPORT_ACCESSORY_MODE
    (_nexus_channel_res_link_hs_reset_server_state;;
     on_stored (λ st, {| st with hs_received_ids := replicate (length (hs_received_ids st)) 0 |});;
     on_stored (λ st, {| st with handshake_index := NEXUS_CHANNEL_LINK_HS_RECEIVE_WINDOW_BEFORE_CENTER_INDEX |});;
     st ← hs_gets stored_accessory;
     '(_, b) ← hs_on_prod (nexus_nv_read NX_NV_BLOCK_CHANNEL_LINK_HS_ACCESSORY (hs_stored_bytes st));
     on_stored (λ _, hs_stored_of_bytes b));;
  when NEXUS_CHANNEL_SUPPORT_CONTROLLER_MODE
    (hs_modify (λ h, {| h with clients := replicate NEXUS_CHANNEL_SIMULTANEOUS_LINK_HANDSHAKES client_zero |})).

(** ** The controller *)

Definition _nexus_channel_res_link_hs_link_mode_3_send_post (index : Z) (client_hs : nexus_link_hs_controller_t)
    : M (hs_world P) bool :=
  cb ← hs_on_prod (gets oc_ri_get_client_cb);
  when cb (hs_on_prod (modify oc_ri_remove_client_cb));;
  initialized ← hs_on_prod (λ p, Some (oc_init_post index p));
  if negb initialized then mret false
  else
    chal ← lift (slice (send_chal_data client_hs) 0 (Z.to_nat (send_chal_data_len client_hs)));
    sent ← hs_on_prod (λ p, Some (oc_do_post chal (requested_chal_mode client_hs) (requested_security_mode client_hs) p));
    if negb sent then mret false
    else hs_on_prod request_processing;; mret true.

(** The index of the first idle handshake; the last one when none is idle. *)
Fixpoint find_idle (n : nat) (i : Z) : M (hs_world P) Z :=
  match n with
  | O => mret (i - 1)
  | S n =>
    client_hs ← get_client i;
    if bool_decide (client_state client_hs = LINK_HANDSHAKE_STATE_IDLE) then mret i else find_idle n (i + 1)
  end.

(** Two random values for the salt. *)
Definition salt_turn (index : Z) (i : Z) : M (hs_world P) unit :=
  rand ← hs_on_prod (λ p, Some (nxp_channel_random_value p));
  client_hs ← get_client index;
  salt ← lift (memcpy_at (salt client_hs) (Z.to_nat (i * 4)) (le_bytes 4 rand));
  put_client index {| client_hs with salt := salt |}.

(** All members of the handshake are assigned; here at once, at the end. *)
Definition nexus_channel_res_link_hs_link_mode_3 (accessory_challenge : Z) : M (hs_world P) bool :=
  index ← find_idle NEXUS_CHANNEL_SIMULTANEOUS_LINK_HANDSHAKES 0;
  client_hs ← get_client index;
  if bool_decide (client_state client_hs ≠ LINK_HANDSHAKE_STATE_IDLE) then mret false
  else
    for_m 2 0 (salt_turn index);;
    client_hs ← get_client index;
    link_key ← lift (_res_link_hs_generate_link_key accessory_challenge (salt client_hs) CHALLENGE_MODE_3_SALT_LENGTH_BYTES
      NEXUS_CHANNEL_PUBLIC_KEY_DERIVATION_KEY_1 NEXUS_CHANNEL_PUBLIC_KEY_DERIVATION_KEY_2);
    mac ← lift (nexus_check_compute link_key (salt client_hs) 8);
    salt_part ← lift (slice (salt client_hs) 0 CHALLENGE_MODE_3_SALT_LENGTH_BYTES);
    data ← lift (memcpy_at (send_chal_data client_hs) 0 salt_part);
    data ← lift (memcpy_at data CHALLENGE_MODE_3_SALT_LENGTH_BYTES mac);
    put_client index {|
      hs_link_key := link_key;
      send_chal_data := data;
      send_chal_data_len := Z.of_nat CHALLENGE_MODE_3_SALT_LENGTH_BYTES + 8;
      salt_mac := mac;
      salt := salt client_hs;
      client_seconds_since_init := 0;
      last_post_seconds := 0;
      requested_security_mode := NEXUS_CHANNEL_LINK_SECURITY_MODE_KEY128SYM_COSE_MAC0_AUTH_SIPHASH24;
      requested_chal_mode := NEXUS_CHANNEL_LINK_HANDSHAKE_CHALLENGE_MODE_0_CHALLENGE_RESULT;
      client_state := LINK_HANDSHAKE_STATE_ACTIVE |};;
    hs_on_prod (channel_notify_event NXP_CHANNEL_EVENT_LINK_HANDSHAKE_STARTED);;
    hs_on_prod request_processing;;
    mret true.

(** A response: code, the client its request named, sender and payload. *)
Record oc_client_response_t := mk_client_response {
  cr_code : oc_status_t;
  cr_user_data : option Z;
  cr_endpoint : oc_endpoint_t;
  cr_payload : list oc_rep_t
}.

(** The loop over the payload; [true] is the early return. *)
Fixpoint client_post_loop (index : Z) (accessory_id : nx_id) (reps : list oc_rep_t) : M (hs_world P) bool :=
  match reps with
  | [] => mret false
  | rep :: reps =>
    if name_is (rep_name rep) RESP_DATA_SHORT_PROP_NAME then
      match rep_value rep with
      | OC_REP_BYTE_STRING rep_data =>
        let length := u8 (Z.of_nat (length rep_data)) in
        if negb (length =? 8) then mret true
        else
          client_hs ← get_client index;
          computed_mac ← lift (_res_link_hs_mode0_compute_inverted_salt_mac (salt client_hs) (hs_link_key client_hs));
          if negb (memeq computed_mac (take 8 rep_data)) then mret true
          else
            success ← hs_on_lm (nexus_channel_link_manager_create_link accessory_id CHANNEL_LINK_OPERATING_MODE_CONTROLLER
              (requested_security_mode client_hs) (mk_mode0 (hs_link_key client_hs) 0));
            if negb success then mret true
            else put_client index client_zero;; client_post_loop index accessory_id reps
      | _ => mret true
      end
    else client_post_loop index accessory_id reps
  end.

Definition nexus_channel_res_link_hs_client_post (data : option oc_client_response_t) : M (hs_world P) unit :=
  match data with
  | None => mret tt
  | Some data =>
    if bool_decide (cr_code data ≠ OC_STATUS_CREATED) then mret tt
    else
      match cr_user_data data with
      | None => mret tt
      | Some index =>
        accessory_id ← lift (nexus_oc_wrapper_oc_endpoint_to_nx_id (cr_endpoint data));
        returned ← client_post_loop index accessory_id (cr_payload data);
        when (negb returned) (hs_on_prod request_processing)
      end
  end.

(** ** The accessory *)

Definition _nexus_channel_res_link_hs_server_post_parse_payload_chal_data (name bytes : list Z) : M (hs_world P) bool :=
  let '(len, rcvd_chal_data) := _nexus_channel_res_link_hs_challenge_data_length name bytes in
  match rcvd_chal_data with
  | Some data =>
    if len =? Z.of_nat CHALLENGE_MODE_3_SALT_LENGTH_BYTES + 8 then
      srv ← hs_gets server;
      part ← lift (slice data 0 (Z.to_nat len));
      new ← lift (memcpy_at (chal_data srv) 0 part);
      on_server (λ srv, {| srv with chal_data := new |});;
      on_server (λ srv, {| srv with chal_data_len := len |});;
      mret true
    else mret false
  | None => mret false
  end.

Definition _nexus_channel_res_link_hs_server_post_parse_payload_requested_modes (received_value : Z) (received_name : list Z)
    : M (hs_world P) bool :=
  if name_is received_name CHAL_MODE_SHORT_PROP_NAME then
    if _nexus_channel_res_link_hs_challenge_mode_supported received_value
    then on_server (λ srv, {| srv with chal_mode := received_value |});; mret true
    else mret false
  else if name_is received_name LINK_SEC_MODE_SHORT_PROP_NAME then
    if _nexus_channel_res_link_hs_link_security_mode_supported received_value
    then on_server (λ srv, {| srv with link_security_mode := received_value |});; mret true
    else mret false
  else mret false.

(** The loop over the payload: [payload_error] and [properties_missing]. *)
Fixpoint parse_payload_loop (reps : list oc_rep_t) (payload_error : bool) (properties_missing : Z)
    : M (hs_world P) (bool * Z) :=
  match reps with
  | [] => mret (payload_error, properties_missing)
  | rep :: reps =>
    if (payload_error : bool) then mret (payload_error, properties_missing)
    else
      '(valid_prop, payload_error) ←
        match rep_value rep with
        | OC_REP_BYTE_STRING bytes =>
          valid ← _nexus_channel_res_link_hs_server_post_parse_payload_chal_data (rep_name rep) bytes; mret (valid, payload_error)
        | OC_REP_INT integer =>
          valid ← _nexus_channel_res_link_hs_server_post_parse_payload_requested_modes (u8 integer) (rep_name rep);
          mret (valid, payload_error)
        | OC_REP_OTHER => mret (false, true)
        end;
      if (valid_prop : bool)
      then parse_payload_loop reps payload_error (u8 (properties_missing - 1))
      else parse_payload_loop reps true properties_missing
  end.

(** An empty list is the null payload. *)
Definition _nexus_channel_res_link_hs_server_post_parse_payload (request_payload : list oc_rep_t) : M (hs_world P) bool :=
  let payload_error := bool_decide (request_payload = []) in
  '(payload_error, properties_missing) ← parse_payload_loop request_payload payload_error 3;
  mret (negb payload_error && (properties_missing =? 0)).

(** What the handler sends: the status, and the MAC of a successful
    handshake. *)
Record hs_response := mk_hs_response { rsp_status : oc_status_t; rsp_rD : option (list Z) }.

Definition _nexus_channel_res_link_hs_server_send_error_response : M (hs_world P) hs_response :=
  _nexus_channel_res_link_hs_reset_server_state;;
  mret (mk_hs_response OC_STATUS_BAD_REQUEST None).

Definition _nexus_channel_res_link_hs_server_post_finalize_success_state
    (matched_handshake_index : Z) (window : nexus_window) (derived_link_key : list Z) : M (hs_world P) unit :=
  st ← hs_gets stored_accessory;
  when (handshake_index st <? matched_handshake_index)
    (on_stored (λ st, {| st with handshake_index := matched_handshake_index |}));;
  '(_, window) ← lift (nexus_util_window_set_id_flag matched_handshake_index window);
  on_stored (hs_write_flags window);;
  st ← hs_gets stored_accessory;
  _ ← hs_on_prod (nexus_nv_update NX_NV_BLOCK_CHANNEL_LINK_HS_ACCESSORY (hs_stored_bytes st));
  srv ← hs_gets server;
  computed_mac ← lift (_res_link_hs_mode0_compute_inverted_salt_mac (chal_data srv) derived_link_key);
  new ← lift (memcpy_at (resp_data srv) 0 computed_mac);
  on_server (λ srv, {| srv with resp_data := new |});;
  on_server (λ srv, {| srv with resp_data_len := 8 |});;
  on_server (λ srv, {| srv with hs_state := LINK_HANDSHAKE_STATE_IDLE |}).

Definition nexus_channel_res_link_hs_server_post (request_payload : list oc_rep_t) (request_origin : oc_endpoint_t)
    : M (hs_world P) hs_response :=
  on_server (λ srv, {| srv with hs_state := LINK_HANDSHAKE_STATE_ACTIVE |});;
  parsed ← _nexus_channel_res_link_hs_server_post_parse_payload request_payload;
  if negb parsed then _nexus_channel_res_link_hs_server_send_error_response
  else
    srv ← hs_gets server;
    received_mac ← lift (slice (chal_data srv) 8 8);
    st ← hs_gets stored_accessory;
    let window := hs_window st in
    origin_key ← hs_on_prod (gets nxp_channel_symmetric_origin_key);
    validated ← lift (_nexus_channel_res_link_hs_server_validate_challenge (chal_data srv) received_mac window origin_key);
    match validated with
    | None => _nexus_channel_res_link_hs_server_send_error_response
    | Some (matched_handshake_index, derived_link_key) =>
      controller_id ← lift (nexus_oc_wrapper_oc_endpoint_to_nx_id request_origin);
      srv ← hs_gets server;
      link_created ← hs_on_lm (nexus_channel_link_manager_create_link controller_id CHANNEL_LINK_OPERATING_MODE_ACCESSORY
        (link_security_mode srv) (mk_mode0 derived_link_key 0));
      if negb link_created then _nexus_channel_res_link_hs_server_send_error_response
      else
        _nexus_channel_res_link_hs_server_post_finalize_success_state matched_handshake_index window derived_link_key;;
        srv ← hs_gets server;
        rD ← lift (slice (resp_data srv) 0 (Z.to_nat (resp_data_len srv)));
        mret (mk_hs_response OC_STATUS_CREATED (Some rD))
    end.

(** The properties a GET shows. *)
Record hs_representation := mk_hs_representation {
  rep_cD : list Z; rep_rD : list Z; rep_cM : Z; rep_lS : Z; rep_st : Z; rep_hs_tI : Z; rep_hs_tT : Z;
  rep_sL : list Z; rep_sC : list Z
}.

Definition hs_state_code (s : nexus_channel_link_handshake_state) : Z :=
  match s with LINK_HANDSHAKE_STATE_IDLE => 0 | LINK_HANDSHAKE_STATE_ACTIVE => 1 end.

Definition nexus_channel_res_link_hs_server_get : M (hs_world P) hs_representation :=
  srv ← hs_gets server;
  cD ← lift (slice (chal_data srv) 0 (Z.to_nat (chal_data_len srv)));
  rD ← lift (slice (resp_data srv) 0 (Z.to_nat (resp_data_len srv)));
  mret (mk_hs_representation cD rD (chal_mode srv) (link_security_mode srv) (hs_state_code (hs_state srv))
          (hs_seconds_since_init srv) NEXUS_CHANNEL_LINK_HANDSHAKE_ACCESSORY_TIMEOUT_SECONDS
          [NEXUS_CHANNEL_LINK_SECURITY_MODE_KEY128SYM_COSE_MAC0_AUTH_SIPHASH24]
          [NEXUS_CHANNEL_LINK_HANDSHAKE_CHALLENGE_MODE_0_CHALLENGE_RESULT]).

(** ** Processing *)

Definition hs_process_server (seconds_elapsed next_call_secs : Z) : M (hs_world P) Z :=
  srv ← hs_gets server;
  if bool_decide (hs_state srv ≠ LINK_HANDSHAKE_STATE_IDLE) then
    on_server (λ srv, {| srv with hs_seconds_since_init := u16 (hs_seconds_since_init srv + seconds_elapsed) |});;
    srv ← hs_gets server;
    if NEXUS_CHANNEL_LINK_HANDSHAKE_ACCESSORY_TIMEOUT_SECONDS <? hs_seconds_since_init srv then
      _nexus_channel_res_link_hs_reset_server_state;;
      hs_on_prod (channel_notify_event NXP_CHANNEL_EVENT_LINK_HANDSHAKE_TIMED_OUT);;
      mret next_call_secs
    else mret 1
  else mret next_call_secs.

(** One turn of the loop over the handshakes. *)
Definition hs_process_client (seconds_elapsed : Z) (i : Z) (next_call_secs : Z) : M (hs_world P) Z :=
  client_hs ← get_client i;
  if bool_decide (client_state client_hs = LINK_HANDSHAKE_STATE_IDLE) then mret next_call_secs
  else
    put_client i {| client_hs with client_seconds_since_init := u16 (client_seconds_since_init client_hs + seconds_elapsed) |};;
    client_hs ← get_client i;
    next_call_secs ←
      (if NEXUS_CHANNEL_LINK_HANDSHAKE_CONTROLLER_TIMEOUT_SECONDS <? client_seconds_since_init client_hs then
         put_client i client_zero;; mret next_call_secs
       else if bool_decide (client_state client_hs = LINK_HANDSHAKE_STATE_ACTIVE) then
         let seconds_since_post := u16 (client_seconds_since_init client_hs - last_post_seconds client_hs) in
         if NEXUS_CHANNEL_LINK_HANDSHAKE_CONTROLLER_RETRY_SECONDS <=? seconds_since_post then
           put_client i {| client_hs with last_post_seconds := client_seconds_since_init client_hs |};;
           client_hs ← get_client i;
           _ ← _nexus_channel_res_link_hs_link_mode_3_send_post i client_hs;
           mret 0
         else mret next_call_secs
       else mret next_call_secs);
    mret (u32min NEXUS_CHANNEL_LINK_HANDSHAKE_CONTROLLER_RETRY_SECONDS next_call_secs).

Fixpoint hs_process_clients (n : nat) (i : Z) (seconds_elapsed next_call_secs : Z) : M (hs_world P) Z :=
  match n with
  | O => mret next_call_secs
  | S n =>
    next_call_secs ← hs_process_client seconds_elapsed i next_call_secs;
    hs_process_clients n (i + 1) seconds_elapsed next_call_secs
  end.

Definition nexus_channel_res_link_hs_process (seconds_elapsed : Z) : M (hs_world P) Z :=
  let next_call_secs := NEXUS_COMMON_IDLE_TIME_BETWEEN_PROCESS_CALL_SECONDS in
  next_call_secs ← (if NEXUS_CHANNEL_SUPPORT_ACCESSORY_MODE then hs_process_server seconds_elapsed next_call_secs
                    else mret next_call_secs);
  if NEXUS_CHANNEL_SUPPORT_CONTROLLER_MODE
  then hs_process_clients NEXUS_CHANNEL_SIMULTANEOUS_LINK_HANDSHAKES 0 seconds_elapsed next_call_secs
  else mret next_call_secs.
End Hs.
