(* ===== verification/ChannelHsServer.v ===== *)
(** * The link handshake: keys, MACs and the search, as functions *)


From S2P Require Import Prelude Siphash Window Check NvBlock Product DesktopProduct Nv Channel ChannelEndpoint ChannelLm ChannelLmSpec.
From S2P Require Import ChannelLmProcess ChannelLmTable ChannelLmCreate ChannelHs.
Local Open Scope Z_scope.
Local Open Scope c_scope.

(** The challenge of handshake [i], the key two devices derive from a
    challenge and a salt, and the MACs under it. *)
Definition challenge_of (origin_key : list Z) (i : Z) : Z :=
  siphash_ref origin_key (le_bytes 4 i) mod 4294967296 mod 1000000.
Definition link_key_of (challenge : Z) (salt : list Z) : list Z :=
  le_bytes 8 (siphash_ref NEXUS_CHANNEL_PUBLIC_KEY_DERIVATION_KEY_1 (salt ++ le_bytes 4 challenge)) ++
  le_bytes 8 (siphash_ref NEXUS_CHANNEL_PUBLIC_KEY_DERIVATION_KEY_2 (salt ++ le_bytes 4 challenge)).
Definition mac_of (key data : list Z) : list Z := le_bytes 8 (siphash_ref key data).
Definition inverted (salt : list Z) : list Z := (λ b, b .^ 0xFF) <$> salt.

Definition salt_ok (salt : list Z) : Prop := bytes_ok salt ∧ length salt = 8%nat.
Definition key_ok (key : list Z) : Prop := bytes_ok key ∧ length key = 16%nat.

Lemma mac_of_length key data : length (mac_of key data) = 8%nat.
Proof. apply le_bytes_length. Qed.
Lemma mac_of_ok key data : bytes_ok (mac_of key data).
Proof. apply le_bytes_ok. Qed.
Lemma link_key_of_ok c salt : key_ok (link_key_of c salt).
Proof.
  split; unfold link_key_of.
  - apply Forall_app_2; apply le_bytes_ok.
  - rewrite length_app, !le_bytes_length. reflexivity.
Qed.
Lemma challenge_of_range key i : 0 ≤ challenge_of key i < 1000000.
Proof. apply Z.mod_pos_bound. lia. Qed.

Lemma inverted_ok salt : salt_ok salt → salt_ok (inverted salt).
Proof.
  intros [Hb Hl]. split.
  - apply Forall_fmap. eapply Forall_impl; [exact Hb|]. intros b H8. apply (lxor_range b 255 8); cbn; wrap.
  - unfold inverted. by rewrite length_fmap.
Qed.

Lemma challenge_of_eq key i : challenge_of key i = siphash_ref key (le_bytes 4 i) mod 4294967296 mod 1000000.
Proof. reflexivity. Qed.

#[global] Opaque challenge_of link_key_of mac_of.

Lemma derivation_keys_ok : key_ok NEXUS_CHANNEL_PUBLIC_KEY_DERIVATION_KEY_1 ∧ key_ok NEXUS_CHANNEL_PUBLIC_KEY_DERIVATION_KEY_2.
Proof. split; (split; [repeat (apply Forall_cons_2; [wrap|]); apply Forall_nil_2|done]). Qed.

(** The salt is the first eight bytes of the data the handlers pass on. *)
Definition salted (data : list Z) : Prop := bytes_ok data ∧ (8 ≤ length data)%nat.

Lemma salted_take data : salted data → salt_ok (take 8 data).
Proof. intros [Hb Hl]. split; [by apply Forall_take|rewrite length_take; lia]. Qed.

Lemma salt_salted salt : salt_ok salt → salted salt ∧ take 8 salt = salt.
Proof. intros [Hb Hl]. split; [split; [done|lia]|]. apply take_ge. lia. Qed.

Lemma mac_compute key data :
  key_ok key → bytes_ok data → (8 ≤ length data)%nat → nexus_check_compute key data 8 = Some (mac_of key (take 8 data)).
Proof. intros [Hk Hl] Hd Hn. apply (check_compute_spec key data 8); [exact Hd|exact Hk|lia|lia]. Qed.

Lemma key_part_compute key data :
  key_ok key → bytes_ok data → length data = 12%nat → nexus_check_compute key data 12 = Some (mac_of key data).
Proof. intros [Hk Hl] Hd Hn. apply check_compute_all; [exact Hd|exact Hk|lia|lia]. Qed.

Lemma generate_link_key_spec c data :
  is_u32 c → salted data →
  _res_link_hs_generate_link_key c data CHALLENGE_MODE_3_SALT_LENGTH_BYTES
    NEXUS_CHANNEL_PUBLIC_KEY_DERIVATION_KEY_1 NEXUS_CHANNEL_PUBLIC_KEY_DERIVATION_KEY_2 = Some (link_key_of c (take 8 data)).
Proof.
  intros Hc Hs. pose proof (salted_take data Hs) as [Hb Hl]. destruct Hs as [_ Hdl].
  unfold _res_link_hs_generate_link_key, CHALLENGE_MODE_3_SALT_LENGTH_BYTES.
  rewrite slice_in by lia. cbn [mbind option_bind]. rewrite drop_0. set (salt := take 8 data) in *.
  rewrite memcpy_at_in by (rewrite length_replicate; lia). cbn [mbind option_bind]. rewrite take_0, Hl, drop_replicate. cbn [app].
  rewrite htole32_id by done.
  rewrite memcpy_at_in by (rewrite length_app, length_replicate, le_bytes_length; lia). cbn [mbind option_bind].
  rewrite take_app_le, take_ge, le_bytes_length by lia.
  rewrite (drop_ge (salt ++ _)) by (rewrite length_app, length_replicate; lia). rewrite app_nil_r.
  assert (Hm : bytes_ok (salt ++ le_bytes 4 c)) by (apply Forall_app_2; [done|apply le_bytes_ok]).
  assert (Hml : length (salt ++ le_bytes 4 c) = 12%nat) by (rewrite length_app, Hl, le_bytes_length; reflexivity).
  destruct derivation_keys_ok as [Hk1 Hk2].
  rewrite (obind_Some _ _ _ (key_part_compute _ _ Hk1 Hm Hml)), (obind_Some _ _ _ (key_part_compute _ _ Hk2 Hm Hml)).
  rewrite memcpy_at_in by (rewrite length_replicate, mac_of_length; lia). cbn [mbind option_bind].
  rewrite take_0, mac_of_length, drop_replicate. cbn [app].
  rewrite memcpy_at_in by (rewrite length_app, length_replicate, !mac_of_length; lia).
  rewrite take_app_le, take_ge by (rewrite mac_of_length; lia).
  rewrite (drop_ge (mac_of _ _ ++ _)) by (rewrite length_app, length_replicate, !mac_of_length; lia). by rewrite app_nil_r.
Qed.

Lemma inverted_mac_spec data key :
  key_ok key → salted data →
  _res_link_hs_mode0_compute_inverted_salt_mac data key = Some (mac_of key (inverted (take 8 data))).
Proof.
  intros Hk Hs. pose proof (inverted_ok _ (salted_take data Hs)) as [Hib Hil]. destruct Hs as [Hb Hl].
  unfold _res_link_hs_mode0_compute_inverted_salt_mac, CHALLENGE_MODE_3_SALT_LENGTH_BYTES.
  assert (Hloop : for_loop 8 0 (invert_body data) (replicate 8 0) = Some (inverted (take 8 data))).
  { destruct (for_loop_invariant (λ i l, l = inverted (take (Z.to_nat i) data) ++ replicate (8 - Z.to_nat i) 0)
      8 0 (invert_body data) (replicate 8 0)) as (r & -> & ->).
    - by rewrite take_0.
    - intros i l Hi ->. destruct (lookup_lt_is_Some_2 data (Z.to_nat i)) as [b Hbi]; [lia|].
      unfold invert_body. rewrite aget_lookup, Hbi by lia. cbn [mbind option_bind].
      assert (Hi8 : length (inverted (take (Z.to_nat i) data)) = Z.to_nat i) by (unfold inverted; rewrite length_fmap, length_take; lia).
      rewrite aset_in by (rewrite length_app, length_replicate; lia). eexists. split; [reflexivity|].
      rewrite insert_app_r_alt, Hi8, Nat.sub_diag by lia. replace (8 - Z.to_nat i)%nat with (S (8 - Z.to_nat (i + 1)))%nat by lia.
      cbn [replicate insert list_insert]. replace (Z.to_nat (i + 1)) with (S (Z.to_nat i)) by lia.
      rewrite (take_S_r _ _ _ Hbi). unfold inverted. rewrite fmap_app, <- app_assoc. done.
    - change (Z.to_nat (0 + Z.of_nat 8)) with 8%nat. by rewrite Nat.sub_diag, app_nil_r. }
  rewrite (obind_Some _ _ _ Hloop). change (Z.of_nat 8) with 8.
  rewrite mac_compute by (done || lia). by rewrite (take_ge (inverted _)) by lia.
Qed.

Lemma truncated_word h : u32 ((h mod 2 ^ 64) .& 0xffffffff) = h mod 4294967296.
Proof.
  change 0xffffffff with (Z.ones 32). rewrite land_ones_mod by lia. pow_const. rewrite u32_small by wrap. lia.
Qed.

Lemma hs_challenge_spec key i :
  key_ok key → is_u32 i → hs_challenge key i = Some (challenge_of key i).
Proof.
  intros [Hk Hl] Hi. unfold hs_challenge. rewrite htole32_id by done.
  assert (Hc : nexus_check_compute key (le_bytes 4 i) 4 = Some (le_bytes 8 (siphash_ref key (le_bytes 4 i)))).
  { apply check_compute_all; [apply le_bytes_ok|exact Hk|lia|by rewrite le_bytes_length]. }
  rewrite (obind_Some _ _ _ Hc), (obind_Some _ _ _ (check_value_uint64 _)), truncated_word, challenge_of_eq. reflexivity.
Qed.

(** ** The window *)

Definition hs_stored_ok (st : hs_stored) : Prop :=
  is_u32 (handshake_index st) ∧ bytes_ok (hs_received_ids st) ∧ length (hs_received_ids st) = 2%nat.

Definition hs_room (st : hs_stored) : Prop := 15 ≤ handshake_index st ∧ handshake_index st + 17 < 4294967296.

Lemma hs_window_ok st : hs_stored_ok st → hs_room st → window_ok (hs_window st).
Proof.
  intros (Hi & Hb & Hl) [? ?]. unfold hs_window, nexus_util_window_init, window_ok, bitset_ok, bitset_size.
  cbn [flags flags_below flags_above center_index].
  assert (Hl2 : length (take NEXUS_CHANNEL_LINK_HS_MAX_RECEIVE_FLAG_BYTE (hs_received_ids st)) = 2%nat)
    by (rewrite length_take; unfold NEXUS_CHANNEL_LINK_HS_MAX_RECEIVE_FLAG_BYTE; lia).
  rewrite Hl2. unfold NEXUS_CHANNEL_LINK_HS_RECEIVE_WINDOW_BEFORE_CENTER_INDEX,
    NEXUS_CHANNEL_LINK_HS_RECEIVE_WINDOW_AFTER_CENTER_INDEX, NEXUS_UTIL_MAX_WINDOW_BITSET_SIZE_BYTES.
  split_and!; try (done || lia). by apply Forall_take.
Qed.

(** The index may be the one the challenge [salt], [mac] was made for. *)
Definition hs_candidate (origin_key : list Z) (w : nexus_window) (salt mac : list Z) (i : Z) : Prop :=
  center_index w - flags_below w ≤ i ≤ center_index w + flags_above w ∧ ¬ window_received w i ∧
  mac_of (link_key_of (challenge_of origin_key i) salt) salt = mac.

Lemma validate_loop_spec fuel i w key data mac :
  window_ok w → center_index w + flags_above w + 1 < 4294967296 → key_ok key → salted data →
  center_index w - flags_below w ≤ i ≤ center_index w + flags_above w + 1 →
  (Z.to_nat (center_index w + flags_above w + 1 - i) < fuel)%nat →
  (∃ k, hs_validate_loop fuel i (center_index w + flags_above w) w key data mac =
          Some (Some (k, link_key_of (challenge_of key k) (take 8 data))) ∧ i ≤ k ∧ hs_candidate key w (take 8 data) mac k ∧
        ∀ x, i ≤ x → hs_candidate key w (take 8 data) mac x → k ≤ x) ∨
  (hs_validate_loop fuel i (center_index w + flags_above w) w key data mac = Some None ∧
     ∀ x, i ≤ x → ¬ hs_candidate key w (take 8 data) mac x).
Proof.
  revert i. induction fuel as [|fuel IH]; intros i Hw Hlim Hk Hs Hi Hfuel; [lia|]. cbn [hs_validate_loop].
  pose proof Hw as (_ & _ & _ & ? & ? & ? & ? & ?).
  destruct (Z.leb_spec i (center_index w + flags_above w)) as [Hle|Hgt].
  2: { right. split; [done|]. intros x Hx ([_ ?] & _). lia. }
  assert (Hu : is_u32 i) by wrap.
  assert (Hnext : ¬ hs_candidate key w (take 8 data) mac i →
    (∃ k, hs_validate_loop fuel (u32 (i + 1)) (center_index w + flags_above w) w key data mac =
          Some (Some (k, link_key_of (challenge_of key k) (take 8 data))) ∧ i ≤ k ∧ hs_candidate key w (take 8 data) mac k ∧
        ∀ x, i ≤ x → hs_candidate key w (take 8 data) mac x → k ≤ x) ∨
    (hs_validate_loop fuel (u32 (i + 1)) (center_index w + flags_above w) w key data mac = Some None ∧
     ∀ x, i ≤ x → ¬ hs_candidate key w (take 8 data) mac x)).
  { intros Hno. rewrite u32_small by wrap.
    destruct (IH (i + 1) Hw Hlim Hk Hs ltac:(lia) ltac:(lia)) as [(k & Hr & Hik & Hc & Hmin)|[Hr Hn]]; [left|right].
    - exists k. split; [exact Hr|]. split; [lia|]. split; [exact Hc|]. intros x Hx Hcx.
      destruct (decide (x = i)) as [->|]; [by destruct Hno|]. apply Hmin; [lia|exact Hcx].
    - split; [exact Hr|]. intros x Hx. destruct (decide (x = i)) as [->|]; [exact Hno|]. apply Hn. lia. }
  destruct (already_set_spec w i Hw) as (b & -> & Hb). cbn [mbind option_bind].
  destruct b; [apply Hnext; intros (_ & Hnr & _); by apply Hnr, Hb|].
  rewrite hs_challenge_spec by done. cbn [mbind option_bind].
  pose proof (challenge_of_range key i) as Hcr.
  rewrite generate_link_key_spec by (done || wrap). cbn [mbind option_bind].
  change (Z.of_nat CHALLENGE_MODE_3_SALT_LENGTH_BYTES) with 8.
  rewrite mac_compute; [|apply link_key_of_ok|apply Hs|apply Hs]. cbn [mbind option_bind].
  unfold memeq. case_bool_decide as Hm; [|apply Hnext; intros (_ & _ & Hc); exact (Hm Hc)].
  left. exists i. split; [reflexivity|]. split; [lia|]. split; [|intros; lia].
  split; [lia|]. split; [|exact Hm]. intros Hr. by apply Hb in Hr.
Qed.

Lemma validate_challenge_spec st key data mac :
  hs_stored_ok st → hs_room st → key_ok key → salted data →
  (∃ k, _nexus_channel_res_link_hs_server_validate_challenge data mac (hs_window st) key =
          Some (Some (k, link_key_of (challenge_of key k) (take 8 data))) ∧ hs_candidate key (hs_window st) (take 8 data) mac k ∧
        ∀ x, hs_candidate key (hs_window st) (take 8 data) mac x → k ≤ x) ∨
  (_nexus_channel_res_link_hs_server_validate_challenge data mac (hs_window st) key = Some None ∧
     ∀ x, ¬ hs_candidate key (hs_window st) (take 8 data) mac x).
Proof.
  intros Hst Hroom Hk Hs. pose proof (hs_window_ok st Hst Hroom) as Hw. destruct Hroom as [Hr1 Hr2].
  unfold _nexus_channel_res_link_hs_server_validate_challenge. cbv zeta.
  change (center_index (hs_window st)) with (handshake_index st).
  change (flags_below (hs_window st)) with 15. change (flags_above (hs_window st)) with 8. rewrite !u32_small by wrap.
  assert (Hwin : ∀ x, hs_candidate key (hs_window st) (take 8 data) mac x → handshake_index st - 15 ≤ x) by (intros x [[Hx _] _]; exact Hx).
  destruct (validate_loop_spec 25 (handshake_index st - 15) (hs_window st) key data mac Hw)
    as [(k & Hrun & _ & Hc & Hmin)|[Hrun Hno]]; try done.
  - change (handshake_index st + 8 + 1 < 4294967296). lia.
  - change (handshake_index st - 15 ≤ handshake_index st - 15 ≤ handshake_index st + 8 + 1). lia.
  - change (Z.to_nat (handshake_index st + 8 + 1 - (handshake_index st - 15)) < 25)%nat. lia.
  - left. exists k. split; [exact Hrun|]. split; [exact Hc|]. intros x Hx. apply Hmin; [by apply Hwin|exact Hx].
  - right. split; [exact Hrun|]. intros x Hx. by apply (Hno x); [apply Hwin|].
Qed.

(** ** The link handshake: the accessory *)




Record server_ok (s : nexus_link_hs_accessory_t) : Prop := mk_server_ok {
  server_chal : bytes_ok (chal_data s);
  server_chal_length : length (chal_data s) = 16%nat;
  server_resp : bytes_ok (resp_data s);
  server_resp_length : length (resp_data s) = 16%nat;
  server_chal_len : 0 ≤ chal_data_len s ≤ 16;
  server_resp_len : 0 ≤ resp_data_len s ≤ 16;
  server_mode : link_security_mode s = 0
}.

Record client_ok (c : nexus_link_hs_controller_t) : Prop := mk_client_ok {
  client_key : key_ok (hs_link_key c);
  client_salt : salt_ok (salt c);
  client_chal : bytes_ok (send_chal_data c);
  client_chal_length : length (send_chal_data c) = 16%nat;
  client_chal_len : 0 ≤ send_chal_data_len c ≤ 16;
  client_mode : requested_security_mode c = 0
}.

Lemma server_zero_ok : server_ok server_zero.
Proof. split; cbn [server_zero chal_data resp_data chal_data_len resp_data_len link_security_mode]; try lia; try done; apply zeros_ok. Qed.
Lemma client_zero_ok : client_ok client_zero.
Proof.
  split; cbn [client_zero hs_link_key salt send_chal_data send_chal_data_len requested_security_mode]; try lia; try done;
    try apply zeros_ok; split; (done || apply zeros_ok).
Qed.

Record hs_shape (h : link_hs) : Prop := mk_hs_shape {
  hs_server_ok : server_ok (server h);
  hs_clients_ok : Forall client_ok (clients h);
  hs_clients_length : length (clients h) = NEXUS_CHANNEL_SIMULTANEOUS_LINK_HANDSHAKES;
  hs_stored_shape : hs_stored_ok (stored_accessory h)
}.

(** The handshakes the accessory does not accept any more. *)
Definition hs_used (st : hs_stored) (i : Z) : Prop := i < handshake_index st - 15 ∨ window_received (hs_window st) i.

Definition payload_ok (reps : list oc_rep_t) : Prop :=
  Forall (λ rep, match rep_value rep with OC_REP_BYTE_STRING b => bytes_ok b | _ => True end) reps.

Definition endpoint_ok (ep : oc_endpoint_t) : Prop := bytes_ok (ep_address ep) ∧ length (ep_address ep) = 16%nat.

Lemma endpoint_id ep : endpoint_ok ep → ∃ id, nexus_oc_wrapper_oc_endpoint_to_nx_id ep = Some id ∧ nx_id_ok id.
Proof.
  intros [Hb Hl]. unfold nexus_oc_wrapper_oc_endpoint_to_nx_id.
  assert (Hget : ∀ i, 0 ≤ i < 16 → ∃ x, aget (ep_address ep) i = Some x) by (intros i Hi; apply aget_is_Some; lia).
  destruct (Hget 10) as [? ->]; [lia|]. destruct (Hget 13) as [? ->]; [lia|]. destruct (Hget 14) as [? ->]; [lia|].
  destruct (Hget 15) as [? ->]; [lia|]. destruct (Hget 8) as [? ->]; [lia|]. destruct (Hget 9) as [? ->]; [lia|].
  cbn [mbind option_bind]. eexists. split; [reflexivity|]. split; [apply u16_range|apply u32_range].
Qed.

Lemma hs_meta_ok : meta_ok NX_NV_BLOCK_CHANNEL_LINK_HS_ACCESSORY.
Proof. split; vm_compute; split; congruence. Qed.

Lemma hs_stored_bytes_ok st : hs_stored_ok st → inner_ok NX_NV_BLOCK_CHANNEL_LINK_HS_ACCESSORY (hs_stored_bytes st).
Proof.
  intros (_ & Hb & Hl). split; [apply Forall_app_2; [apply le_bytes_ok|done]|].
  unfold hs_stored_bytes. by rewrite length_app, le_bytes_length, Hl.
Qed.

Lemma hs_stored_of_to st : hs_stored_ok st → hs_stored_of_bytes (hs_stored_bytes st) = st.
Proof.
  intros (Hi & Hb & Hl). destruct st as [i ids]. unfold hs_stored_of_bytes, hs_stored_bytes. cbn [handshake_index hs_received_ids] in *.
  f_equal. rewrite take_app_le, take_ge by (by rewrite le_bytes_length). rewrite le_val_bytes.
  change (256 ^ Z.of_nat 4) with 4294967296. wrap.
Qed.

Section HsServer.
Context {P : Type} `{HP : ProductLaws P} `{!ReliableNv P} `{!ChannelProduct P} `{!ChannelProductLaws P}
  `{HC : ChannelConfigOk} `{!OcStack P}.

Definition hs_prod (w : hs_world P) : P := lm_prod (hs_lm w).
Definition hs_key (w : hs_world P) : list Z := nxp_channel_symmetric_origin_key (hs_prod w).

Definition hs_saved_ok (st : hs_stored) (p : P) : Prop :=
  match nv_stored NX_NV_BLOCK_CHANNEL_LINK_HS_ACCESSORY p with Some b => b = hs_stored_bytes st | None => True end.

Definition hs_ok (w : hs_world P) : Prop :=
  hs_shape (hs_this w) ∧ lm_ok (hs_lm w) ∧ hs_saved_ok (stored_accessory (hs_this w)) (hs_prod w).

Lemma hs_key_ok (w : hs_world P) : key_ok (hs_key w).
Proof. split; [apply origin_key_ok|apply origin_key_length]. Qed.

Definition with_server (s : nexus_link_hs_accessory_t) (w : hs_world P) : hs_world P :=
  let h := hs_this w in {| w with hs_this := {| h with server := s |} |}.

Lemma on_server_at f (w : hs_world P) : on_server f w = Some (tt, with_server (f (server (hs_this w))) w).
Proof. done. Qed.

Lemma with_server_ok s (w : hs_world P) : hs_ok w → server_ok s → hs_ok (with_server s w).
Proof. intros ([] & Hl & Hsv) Hs. split; [by split|]. split; [exact Hl|exact Hsv]. Qed.

(** ** Parsing *)

Lemma parse_chal_data name bytes (w : hs_world P) :
  server_ok (server (hs_this w)) → bytes_ok bytes →
  ∃ b s, _nexus_channel_res_link_hs_server_post_parse_payload_chal_data name bytes w = Some (b, with_server s w) ∧ server_ok s.
Proof.
  intros Hs Hb. unfold _nexus_channel_res_link_hs_server_post_parse_payload_chal_data, _nexus_channel_res_link_hs_challenge_data_length.
  destruct (name_is name CHAL_DATA_SHORT_PROP_NAME); [|by exists false, (server (hs_this w)); destruct w as [[] ?]].
  destruct (_ <? _); [by exists false, (server (hs_this w)); destruct w as [[] ?]|].
  unfold CHALLENGE_MODE_3_SALT_LENGTH_BYTES. change (Z.of_nat 8 + 8) with 16.
  destruct (Z.eqb_spec (u8 (Z.of_nat (length bytes))) 16) as [He|He]; [|by exists false, (server (hs_this w)); destruct w as [[] ?]].
  assert (Hlen : (16 ≤ length bytes)%nat) by (unfold u8 in He; lia). rewrite He. change (Z.to_nat 16) with 16%nat.
  erewrite bind_Some by reflexivity. rewrite slice_in by lia. erewrite bind_lift by reflexivity. rewrite drop_0.
  assert (Htl : length (take 16 bytes) = 16%nat) by (rewrite length_take; lia).
  rewrite memcpy_at_in by (rewrite Htl, (server_chal_length _ Hs); lia). erewrite bind_lift by reflexivity.
  rewrite take_0, drop_ge, app_nil_r by (rewrite Htl, (server_chal_length _ Hs); lia). cbn [app].
  do 2 (erewrite bind_Some by apply on_server_at).
  eexists true, _. split; [reflexivity|].
  destruct Hs. split; cbn [with_server hs_this server chal_data resp_data chal_data_len resp_data_len link_security_mode];
    try done; try lia. by apply Forall_take.
Qed.

Lemma parse_modes v name (w : hs_world P) :
  server_ok (server (hs_this w)) →
  ∃ b s, _nexus_channel_res_link_hs_server_post_parse_payload_requested_modes v name w = Some (b, with_server s w) ∧ server_ok s.
Proof.
  intros Hs. unfold _nexus_channel_res_link_hs_server_post_parse_payload_requested_modes,
    _nexus_channel_res_link_hs_challenge_mode_supported, _nexus_channel_res_link_hs_link_security_mode_supported.
  cbn [existsb]. rewrite !orb_false_r.
  assert (Hno : ∃ b s, (mret false : M (hs_world P) bool) w = Some (b, with_server s w) ∧ server_ok s).
  { exists false, (server (hs_this w)). by destruct w as [[] ?]. }
  destruct (name_is name CHAL_MODE_SHORT_PROP_NAME).
  - destruct (v =? _); [|exact Hno]. erewrite bind_Some by apply on_server_at. eexists true, _. split; [reflexivity|].
    by destruct Hs.
  - destruct (name_is name LINK_SEC_MODE_SHORT_PROP_NAME); [|exact Hno].
    destruct (Z.eqb_spec v NEXUS_CHANNEL_LINK_SECURITY_MODE_KEY128SYM_COSE_MAC0_AUTH_SIPHASH24) as [->|]; [|exact Hno].
    erewrite bind_Some by apply on_server_at. eexists true, _. split; [reflexivity|]. by destruct Hs.
Qed.

Lemma with_server_twice s s' (w : hs_world P) : with_server s (with_server s' w) = with_server s w.
Proof. done. Qed.

Lemma parse_loop_spec reps e n (w : hs_world P) :
  server_ok (server (hs_this w)) → payload_ok reps →
  ∃ r s, parse_payload_loop reps e n w = Some (r, with_server s w) ∧ server_ok s.
Proof.
  revert e n w. induction reps as [|rep reps IH]; intros e n w Hs Hp.
  { exists (e, n), (server (hs_this w)). by destruct w as [[] ?]. }
  inversion Hp as [|? ? Hrep Hreps]; subst. cbn [parse_payload_loop].
  destruct e; [exists (true, n), (server (hs_this w)); by destruct w as [[] ?]|].
  assert (Hturn : ∃ b e' s, (match rep_value rep with
        | OC_REP_BYTE_STRING bytes =>
          valid ← _nexus_channel_res_link_hs_server_post_parse_payload_chal_data (rep_name rep) bytes; mret (valid, false)
        | OC_REP_INT integer =>
          valid ← _nexus_channel_res_link_hs_server_post_parse_payload_requested_modes (u8 integer) (rep_name rep);
          mret (valid, false)
        | OC_REP_OTHER => mret (false, true)
        end : M (hs_world P) (bool * bool)) w = Some ((b, e'), with_server s w) ∧ server_ok s).
  { destruct (rep_value rep) as [bytes|v|].
    - destruct (parse_chal_data (rep_name rep) bytes w Hs Hrep) as (b & s & Hrun & Hs'). exists b, false, s.
      by rewrite (bind_Some _ _ _ _ _ Hrun).
    - destruct (parse_modes (u8 v) (rep_name rep) w Hs) as (b & s & Hrun & Hs'). exists b, false, s.
      by rewrite (bind_Some _ _ _ _ _ Hrun).
    - exists false, true, (server (hs_this w)). by destruct w as [[] ?]. }
  destruct Hturn as (b & e' & s & Hrun & Hs'). rewrite (bind_Some _ _ _ _ _ Hrun).
  destruct b.
  - destruct (IH e' (u8 (n - 1)) (with_server s w) Hs' Hreps) as (r & s2 & Hr & Hs2). exists r, s2. by rewrite Hr.
  - destruct (IH true n (with_server s w) Hs' Hreps) as (r & s2 & Hr & Hs2). exists r, s2. by rewrite Hr.
Qed.

Lemma parse_spec reps (w : hs_world P) :
  server_ok (server (hs_this w)) → payload_ok reps →
  ∃ b s, _nexus_channel_res_link_hs_server_post_parse_payload reps w = Some (b, with_server s w) ∧ server_ok s.
Proof.
  intros Hs Hp. unfold _nexus_channel_res_link_hs_server_post_parse_payload. cbv zeta.
  destruct (parse_loop_spec reps (bool_decide (reps = [])) 3 w Hs Hp) as ([e n] & s & Hrun & Hs').
  rewrite (bind_Some _ _ _ _ _ Hrun). by eexists _, s.
Qed.

(** The payload the controller sends. *)
Definition challenge_payload (salt mac : list Z) : list oc_rep_t :=
  [mk_oc_rep CHAL_DATA_SHORT_PROP_NAME (OC_REP_BYTE_STRING (salt ++ mac));
   mk_oc_rep CHAL_MODE_SHORT_PROP_NAME (OC_REP_INT 0); mk_oc_rep LINK_SEC_MODE_SHORT_PROP_NAME (OC_REP_INT 0)].

Lemma parse_challenge salt mac (w : hs_world P) :
  server_ok (server (hs_this w)) → salt_ok salt → bytes_ok mac → length mac = 8%nat →
  ∃ s, _nexus_channel_res_link_hs_server_post_parse_payload (challenge_payload salt mac) w = Some (true, with_server s w) ∧
    server_ok s ∧ chal_data s = salt ++ mac.
Proof.
  intros Hs [Hb Hl] Hmb Hml. set (data := salt ++ mac).
  assert (Hdl : length data = 16%nat) by (unfold data; rewrite length_app; lia).
  assert (Hchal : _nexus_channel_res_link_hs_server_post_parse_payload_chal_data CHAL_DATA_SHORT_PROP_NAME data w =
    Some (true, with_server (let s := server (hs_this w) in let s := {| s with chal_data := data |} in {| s with chal_data_len := 16 |}) w)).
  { unfold _nexus_channel_res_link_hs_server_post_parse_payload_chal_data, _nexus_channel_res_link_hs_challenge_data_length.
    rewrite Hdl. cbn [name_is]. change (name_is CHAL_DATA_SHORT_PROP_NAME CHAL_DATA_SHORT_PROP_NAME) with true.
    cbv iota zeta beta. change (Z.of_nat NEXUS_CHANNEL_LINK_MAX_CHAL_DATA_BYTES <? u8 (Z.of_nat 16)) with false. cbv iota.
    change (u8 (Z.of_nat 16) =? Z.of_nat CHALLENGE_MODE_3_SALT_LENGTH_BYTES + 8) with true. cbv iota.
    erewrite bind_Some by reflexivity. change (Z.to_nat (u8 (Z.of_nat 16))) with 16%nat.
    rewrite slice_in by lia. erewrite bind_lift by reflexivity. rewrite drop_0, take_ge by lia.
    rewrite memcpy_at_in by (rewrite Hdl, (server_chal_length _ Hs); lia). erewrite bind_lift by reflexivity.
    rewrite take_0, drop_ge, app_nil_r by (rewrite Hdl, (server_chal_length _ Hs); lia). cbn [app]. reflexivity. }
  unfold _nexus_channel_res_link_hs_server_post_parse_payload, challenge_payload. cbv zeta. fold data.
  rewrite bool_decide_false by done. cbn [parse_payload_loop rep_value rep_name].
  rewrite bind_assoc, bind_assoc, (bind_Some _ _ _ _ _ Hchal).
  eexists. split; [reflexivity|]. split; [|reflexivity].
  destruct Hs. split; cbn [with_server hs_this server chal_data resp_data chal_data_len resp_data_len link_security_mode]; try done; try lia.
  unfold data. by apply Forall_app_2.
Qed.

(** ** A successful handshake *)

Lemma lm_ok_on_that (w : lm_world P) p :
  lm_ok w → (∀ j, (j < max_links)%nat → saved p j = saved (lm_prod w) j) → lm_ok (on_that p w).
Proof. intros (Hs & Ht & Hp) Hsv. split; [done|]. split; [|done]. by eapply table_ok_eq. Qed.

Lemma hs_update_spec st (w : hs_world P) :
  hs_stored_ok st → lm_ok (hs_lm w) →
  ∃ p', hs_on_prod (nexus_nv_update NX_NV_BLOCK_CHANNEL_LINK_HS_ACCESSORY (hs_stored_bytes st)) w =
    Some (true, mk_hs_world (hs_this w) (on_that p' (hs_lm w))) ∧
    nv_stored NX_NV_BLOCK_CHANNEL_LINK_HS_ACCESSORY p' = Some (hs_stored_bytes st) ∧
    nxp_channel_symmetric_origin_key p' = hs_key w ∧ lm_ok (on_that p' (hs_lm w)).
Proof.
  intros Hst Hok. destruct (nexus_nv_update_spec NX_NV_BLOCK_CHANNEL_LINK_HS_ACCESSORY (hs_stored_bytes st) (hs_prod w)
    hs_meta_ok (hs_stored_bytes_ok st Hst)) as (p' & Hup & Hnew).
  exists p'. split.
  { unfold hs_on_prod, hs_on_lm, lm_on_prod, zoom. unfold hs_prod in Hup. rewrite Hup. done. }
  split; [exact (updated_stored _ _ _ _ Hnew)|]. split.
  { eapply nv_update_origin_key; [apply hs_meta_ok|by apply hs_stored_bytes_ok|exact Hup]. }
  apply lm_ok_on_that; [done|]. intros j Hj. unfold saved. rewrite (updated_other _ _ _ _ Hnew); [done|].
  cbn [block_id NX_NV_BLOCK_CHANNEL_LM_LINK NX_NV_BLOCK_CHANNEL_LINK_HS_ACCESSORY]. lia.
Qed.

(** Marking an index of the window as used. *)
Lemma hs_mark_spec st k :
  hs_stored_ok st → hs_room st → handshake_index st - 15 ≤ k ≤ handshake_index st + 8 →
  ∃ window', nexus_util_window_set_id_flag k (hs_window st) = Some (true, window') ∧
    let st' := hs_write_flags window' (if handshake_index st <? k then {| st with handshake_index := k |} else st) in
    hs_stored_ok st' ∧ handshake_index st' = Z.max (handshake_index st) k ∧
    ∀ x, hs_used st' x ↔ hs_used st x ∨ x = k ∨ x < handshake_index st' - 15.
Proof.
  intros Hst Hroom Hk. pose proof (hs_window_ok st Hst Hroom) as Hw. destruct Hroom as [Hr1 Hr2]. pose proof Hst as (Hi & Hb & Hl).
  destruct (window_set_id_flag_spec (hs_window st) k Hw) as (window' & Hset & Hw' & Hc & Hbel & Habv & Hrec).
  { change (handshake_index st - 15 ≤ k ≤ handshake_index st + 8). lia. }
  { change (flags_above (hs_window st)) with 8. lia. }
  exists window'. split; [exact Hset|]. cbv zeta. change (center_index (hs_window st)) with (handshake_index st) in Hc.
  change (flags_below (hs_window st)) with 15 in Hbel. change (flags_above (hs_window st)) with 8 in Habv.
  assert (Hfl : length (flags window') = 2%nat).
  { destruct Hw' as (_ & _ & Hsz & _). unfold bitset_size in Hsz. rewrite Hbel in Hsz. lia. }
  set (st1 := if handshake_index st <? k then {| st with handshake_index := k |} else st).
  assert (Hids : hs_received_ids st1 = hs_received_ids st) by (unfold st1; by destruct (handshake_index st <? k)).
  assert (Hidx : handshake_index st1 = Z.max (handshake_index st) k).
  { unfold st1. destruct (Z.ltb_spec (handshake_index st) k); cbn [handshake_index]; lia. }
  unfold hs_write_flags. rewrite Hids, drop_ge, app_nil_r by lia. set (st' := {| st1 with hs_received_ids := flags window' |}).
  assert (Hst' : hs_stored_ok st').
  { split; [change (handshake_index st') with (handshake_index st1); rewrite Hidx; wrap|].
    split; [by destruct Hw' as ([? _] & _)|done]. }
  assert (Hwin : hs_window st' = window').
  { unfold hs_window, nexus_util_window_init, st'. cbn [hs_received_ids handshake_index]. rewrite Hidx, <- Hc.
    destruct window' as [c f b a]. cbn in *. subst b a. f_equal. apply take_ge. rewrite Hfl. done. }
  split; [done|]. split; [exact Hidx|]. intros x. unfold hs_used. rewrite Hwin, Hrec, Hbel, Hc.
  change (handshake_index st') with (handshake_index st1). rewrite Hidx.
  destruct (Z.lt_ge_cases x (Z.max (handshake_index st) k - 15)) as [Hlt|Hge]; [tauto|].
  split.
  - intros [?|[_ [->|?]]]; [lia|tauto|tauto].
  - intros [[?|?]|[->|?]]; [lia|right; split; [lia|by right]|right; split; [lia|by left]|lia].
Qed.

Lemma on_stored_at f (w : hs_world P) :
  on_stored f w = Some (tt, let h := hs_this w in {| w with hs_this := {| h with stored_accessory := f (stored_accessory h) |} |}).
Proof. done. Qed.

(** What an accepted challenge for index [k] does besides creating the link. *)
Record hs_accepted (w w' : hs_world P) (k : Z) : Prop := mk_hs_accepted {
  accepted_hs_ok : hs_ok w';
  accepted_clients : clients (hs_this w') = clients (hs_this w);
  accepted_hs_key : hs_key w' = hs_key w;
  accepted_hs_index : handshake_index (stored_accessory (hs_this w')) = Z.max (handshake_index (stored_accessory (hs_this w))) k;
  accepted_hs_saved : nv_stored NX_NV_BLOCK_CHANNEL_LINK_HS_ACCESSORY (hs_prod w') =
    Some (hs_stored_bytes (stored_accessory (hs_this w')));
  accepted_hs_used x : hs_used (stored_accessory (hs_this w')) x ↔
    hs_used (stored_accessory (hs_this w)) x ∨ x = k ∨ x < handshake_index (stored_accessory (hs_this w')) - 15;
  accepted_idle : hs_state (server (hs_this w')) = LINK_HANDSHAKE_STATE_IDLE
}.

Lemma finalize_spec k key (w : hs_world P) :
  hs_ok w → hs_room (stored_accessory (hs_this w)) → key_ok key →
  handshake_index (stored_accessory (hs_this w)) - 15 ≤ k ≤ handshake_index (stored_accessory (hs_this w)) + 8 →
  ∃ w', _nexus_channel_res_link_hs_server_post_finalize_success_state k (hs_window (stored_accessory (hs_this w))) key w = Some (tt, w') ∧
    hs_accepted w w' k ∧ lm_this (hs_lm w') = lm_this (hs_lm w) ∧
    resp_data_len (server (hs_this w')) = 8 ∧
    take 8 (resp_data (server (hs_this w'))) = mac_of key (inverted (take 8 (chal_data (server (hs_this w))))).
Proof.
  intros (Hsh & Hlm & _) Hroom Hkey Hk. pose proof Hsh as [Hsrv Hcl Hcll Hst].
  destruct (hs_mark_spec _ k Hst Hroom Hk) as (window' & Hset & Hst' & Hidx & Hused). cbv zeta in Hst', Hidx, Hused.
  unfold _nexus_channel_res_link_hs_server_post_finalize_success_state.
  erewrite bind_Some by reflexivity.
  set (st1 := if handshake_index (stored_accessory (hs_this w)) <? k
    then mk_hs_stored k (hs_received_ids (stored_accessory (hs_this w))) else stored_accessory (hs_this w)) in *.
  assert (Hwhen : when (handshake_index (stored_accessory (hs_this w)) <? k) (on_stored (λ st, {| st with handshake_index := k |})) w =
    Some (tt, let h := hs_this w in {| w with hs_this := {| h with stored_accessory := st1 |} |})).
  { unfold st1. destruct (_ <? k); [done|]. by destruct w as [[] ?]. }
  rewrite (bind_Some _ _ _ _ _ Hwhen). erewrite bind_lift by exact Hset. clear Hwhen. cbv beta iota.
  rewrite (bind_Some _ _ _ _ _ (on_stored_at _ _)). erewrite bind_Some by reflexivity. cbv zeta.
  cbn [hs_this stored_accessory]. set (st' := hs_write_flags window' st1) in *.
  set (w1 := mk_hs_world (let h := hs_this w in {| h with stored_accessory := st' |}) (hs_lm w)).
  destruct (hs_update_spec st' w1 Hst' Hlm) as (p' & Hup & Hsaved & Hkey' & Hlm').
  rewrite (bind_Some _ _ _ _ _ Hup). erewrite bind_Some by reflexivity. cbn [hs_this server].
  pose proof Hsrv as [Hcb Hcbl Hrb Hrbl Hlen1 Hlen2 Hmode].
  assert (Hmac := inverted_mac_spec (chal_data (server (hs_this w))) key Hkey ltac:(split; [done|lia])).
  change (server (hs_this w1)) with (server (hs_this w)). rewrite (bind_lift _ _ _ _ Hmac).
  set (mac := mac_of key _). assert (Hml : length mac = 8%nat) by apply mac_of_length.
  rewrite memcpy_at_in by lia. erewrite bind_lift by reflexivity. rewrite take_0, Hml. cbn [app Nat.add].
  do 2 (rewrite (bind_Some _ _ _ _ _ (on_server_at _ _))). rewrite on_server_at.
  eexists. split; [reflexivity|].
  assert (Hresp : bytes_ok (mac ++ drop 8 (resp_data (server (hs_this w))))).
  { apply Forall_app_2; [apply mac_of_ok|by apply Forall_drop]. }
  assert (Hrespl : length (mac ++ drop 8 (resp_data (server (hs_this w)))) = 16%nat) by (rewrite length_app, length_drop; lia).
  split.
  - split; cbn [with_server hs_this server stored_accessory clients hs_lm hs_state]; try done.
    split; [|split; [exact Hlm'|]].
    + split; cbn [server clients stored_accessory]; done.
    + unfold hs_saved_ok. change (hs_prod _) with p'. by rewrite Hsaved.
  - split; [done|]. split; [done|]. cbn [with_server hs_this server resp_data]. rewrite <- Hml at 1. apply take_app_length.
Qed.

(** ** The handler *)

Lemma hs_on_prod_gets {A} (f : P → A) (w : hs_world P) : hs_on_prod (gets f) w = Some (f (hs_prod w), w).
Proof. by destruct w as [? []]. Qed.

Definition refused : hs_response := mk_hs_response OC_STATUS_BAD_REQUEST None.

(** The world the payload is parsed in. *)
Definition activated (w : hs_world P) : hs_world P :=
  with_server (let s := server (hs_this w) in {| s with hs_state := LINK_HANDSHAKE_STATE_ACTIVE |}) w.

Lemma activated_server_ok (w : hs_world P) : hs_shape (hs_this w) → server_ok (server (hs_this (activated w))).
Proof. intros [[] _ _ _]. by split. Qed.

Lemma send_error_at s (w : hs_world P) :
  _nexus_channel_res_link_hs_server_send_error_response (with_server s w) = Some (refused, with_server server_zero w).
Proof. done. Qed.

Lemma new_link_ok cid mode key : nx_id_ok cid → key_ok key → link_ok (new_link cid mode 0 (mk_mode0 key 0)).
Proof.
  intros [Ha Hd] [Hk Hl]. split; cbn [new_link linked_device_id operating_mode security_mode seconds_since_init
    seconds_since_active security_data sym_key nonce]; try done; try wrap.
  destruct mode; cbn [operating_mode_code]; wrap.
Qed.

Lemma hs_ok_created s (w : hs_world P) lm1 :
  hs_ok w → server_ok s → lm_ok lm1 → lm_frame (hs_prod w) (lm_prod lm1) →
  hs_ok (mk_hs_world (hs_this (with_server s w)) lm1) ∧ hs_key (mk_hs_world (hs_this (with_server s w)) lm1) = hs_key w.
Proof.
  intros ([_ Hcl Hcll Hst] & _ & Hsv) Hs Hlm Hf. split; [|exact (frame_origin _ _ Hf)].
  split; [by split|]. split; [exact Hlm|]. unfold hs_saved_ok in *. change (hs_prod (mk_hs_world _ lm1)) with (lm_prod lm1).
  rewrite (frame_blocks _ _ Hf); [exact Hsv|]. vm_compute. intros [? _]. congruence.
Qed.

(** A challenge for index [k]: the link is created and the index used up, or
    the manager has no room. *)
Lemma server_post_accept reps ep cid s k b lm1 (w : hs_world P) :
  hs_ok w → hs_room (stored_accessory (hs_this w)) →
  nexus_oc_wrapper_oc_endpoint_to_nx_id ep = Some cid → nx_id_ok cid →
  _nexus_channel_res_link_hs_server_post_parse_payload reps (activated w) = Some (true, with_server s w) → server_ok s →
  let salt := take 8 (chal_data s) in
  let mac := drop 8 (chal_data s) in
  let key := link_key_of (challenge_of (hs_key w) k) salt in
  hs_candidate (hs_key w) (hs_window (stored_accessory (hs_this w))) salt mac k →
  (∀ x, hs_candidate (hs_key w) (hs_window (stored_accessory (hs_this w))) salt mac x → k ≤ x) →
  nexus_channel_link_manager_create_link cid CHANNEL_LINK_OPERATING_MODE_ACCESSORY 0 (mk_mode0 key 0) (hs_lm w) = Some (b, lm1) →
  if (b : bool) then ∃ w', nexus_channel_res_link_hs_server_post reps ep w =
      Some (mk_hs_response OC_STATUS_CREATED (Some (mac_of key (inverted salt))), w') ∧
      hs_accepted w w' k ∧ lm_this (hs_lm w') = lm_this lm1
  else nexus_channel_res_link_hs_server_post reps ep w = Some (refused, with_server server_zero w).
Proof.
  intros Hok Hroom Hep Hcid Hparse Hs salt mac key Hc Hmin Hcreate.
  pose proof Hok as (Hsh & Hlm & _). pose proof Hsh as [_ _ _ Hst].
  unfold nexus_channel_res_link_hs_server_post. rewrite (bind_Some _ _ _ _ _ (on_server_at _ w)). fold (activated w).
  rewrite (bind_Some _ _ _ _ _ Hparse). cbn [negb]. erewrite bind_Some by reflexivity.
  change (server (hs_this (with_server s w))) with s.
  assert (Hmac : slice (chal_data s) 8 8 = Some mac).
  { rewrite slice_in by (rewrite (server_chal_length _ Hs); lia). f_equal. apply take_ge.
    unfold mac. rewrite length_drop, (server_chal_length _ Hs). lia. }
  rewrite (bind_lift _ _ _ _ Hmac). erewrite bind_Some by reflexivity. cbv zeta.
  rewrite (bind_Some _ _ _ _ _ (hs_on_prod_gets _ _)).
  change (stored_accessory (hs_this (with_server s w))) with (stored_accessory (hs_this w)).
  change (nxp_channel_symmetric_origin_key (hs_prod (with_server s w))) with (hs_key w).
  destruct (validate_challenge_spec (stored_accessory (hs_this w)) (hs_key w) (chal_data s) mac Hst Hroom (hs_key_ok w))
    as [(k' & Hval & Hc' & Hmin')|[_ Hno]]; [| |by destruct (Hno k)].
  { split; [apply (server_chal _ Hs)|rewrite (server_chal_length _ Hs); lia]. }
  fold salt in Hval, Hc', Hmin'. assert (k' = k) as -> by (apply Z.le_antisymm; auto). fold key in Hval.
  rewrite (bind_lift _ _ _ _ Hval). rewrite (bind_lift _ _ _ _ Hep). erewrite bind_Some by reflexivity.
  change (server (hs_this (with_server s w))) with s. rewrite (server_mode _ Hs).
  assert (Hcr : hs_on_lm (nexus_channel_link_manager_create_link cid CHANNEL_LINK_OPERATING_MODE_ACCESSORY 0 (mk_mode0 key 0))
    (with_server s w) = Some (b, mk_hs_world (hs_this (with_server s w)) lm1)).
  { unfold hs_on_lm, zoom. change (hs_lm (with_server s w)) with (hs_lm w). by rewrite Hcreate. }
  rewrite (bind_Some _ _ _ _ _ Hcr).
  pose proof (link_key_of_ok (challenge_of (hs_key w) k) salt : key_ok key) as Hkey.
  destruct (create_link_spec cid CHANNEL_LINK_OPERATING_MODE_ACCESSORY 0 (mk_mode0 key 0) (hs_lm w) Hlm (new_link_ok _ _ _ Hcid Hkey))
    as (b' & lm1' & Hcreate' & Hres). rewrite Hcreate in Hcreate'. injection Hcreate' as <- <-.
  assert (Hb : if b then lm_ok lm1 ∧ lm_frame (hs_prod w) (lm_prod lm1) else lm1 = hs_lm w).
  { destruct (pending_add_link (lm_this (hs_lm w))); [by destruct Hres as [-> ->]|].
    destruct Hres as ([v|] & _ & Hv); [|by destruct Hv as [-> ->]]. destruct Hv as (-> & _ & _ & _ & [? ? _ _ _]). by split. }
  destruct b; cbn [negb].
  2: { subst lm1. reflexivity. }
  destruct Hb as [Hlm1 Hf1]. destruct (hs_ok_created s w lm1 Hok Hs Hlm1 Hf1) as [Hok1 Hk1].
  set (w1 := mk_hs_world (hs_this (with_server s w)) lm1) in *.
  destruct (finalize_spec k key w1 Hok1 Hroom Hkey) as (w' & Hfin & Hacc & Hthis & Hlen & Hresp); [exact (proj1 Hc)|].
  exists w'. change (stored_accessory (hs_this w1)) with (stored_accessory (hs_this w)) in Hfin.
  rewrite (bind_Some _ _ _ _ _ Hfin). erewrite bind_Some by reflexivity. rewrite Hlen. change (Z.to_nat 8) with 8%nat.
  pose proof (accepted_hs_ok _ _ _ Hacc) as ([Hsrv' _ _ _] & _).
  assert (Hrd : slice (resp_data (server (hs_this w'))) 0 8 = Some (mac_of key (inverted salt))).
  { rewrite slice_in by (rewrite (server_resp_length _ Hsrv'); lia). rewrite drop_0, Hresp. reflexivity. }
  rewrite (bind_lift _ _ _ _ Hrd). split; [reflexivity|]. split; [|exact Hthis].
  destruct Hacc as [H1 H2 H3 H4 H5 H6 H7]. split; try done. by rewrite H3.
Qed.

(** Everything else is refused, and changes nothing but the handshake's own
    state. *)
Lemma server_post_refuse reps ep b s (w : hs_world P) :
  hs_ok w → hs_room (stored_accessory (hs_this w)) →
  _nexus_channel_res_link_hs_server_post_parse_payload reps (activated w) = Some (b, with_server s w) → server_ok s →
  (b = true → ∀ x, ¬ hs_candidate (hs_key w) (hs_window (stored_accessory (hs_this w))) (take 8 (chal_data s)) (drop 8 (chal_data s)) x) →
  nexus_channel_res_link_hs_server_post reps ep w = Some (refused, with_server server_zero w).
Proof.
  intros Hok Hroom Hparse Hs Hno. pose proof Hok as ([_ _ _ Hst] & _).
  unfold nexus_channel_res_link_hs_server_post. rewrite (bind_Some _ _ _ _ _ (on_server_at _ w)). fold (activated w).
  rewrite (bind_Some _ _ _ _ _ Hparse). destruct b; cbn [negb]; [|reflexivity]. erewrite bind_Some by reflexivity.
  change (server (hs_this (with_server s w))) with s.
  assert (Hmac : slice (chal_data s) 8 8 = Some (drop 8 (chal_data s))).
  { rewrite slice_in by (rewrite (server_chal_length _ Hs); lia). f_equal. apply take_ge.
    rewrite length_drop, (server_chal_length _ Hs). lia. }
  rewrite (bind_lift _ _ _ _ Hmac). erewrite bind_Some by reflexivity. cbv zeta.
  rewrite (bind_Some _ _ _ _ _ (hs_on_prod_gets _ _)).
  change (stored_accessory (hs_this (with_server s w))) with (stored_accessory (hs_this w)).
  change (nxp_channel_symmetric_origin_key (hs_prod (with_server s w))) with (hs_key w).
  destruct (validate_challenge_spec (stored_accessory (hs_this w)) (hs_key w) (chal_data s) (drop 8 (chal_data s)) Hst Hroom (hs_key_ok w))
    as [(k & _ & Hc & _)|[Hval _]].
  - split; [apply (server_chal _ Hs)|rewrite (server_chal_length _ Hs); lia].
  - exfalso. exact (Hno eq_refl k Hc).
  - by rewrite (bind_lift _ _ _ _ Hval).
Qed.
End HsServer.
