(* ===== verification/ChannelHsClient.v ===== *)
(** * The link handshake: the controller *)




From S2P Require Import Prelude Siphash Window Check NvBlock Product DesktopProduct Nv Channel ChannelEndpoint ChannelLm ChannelLmSpec.
From S2P Require Import ChannelLmProcess ChannelLmTable ChannelLmCreate ChannelHs ChannelHsServer.
Local Open Scope Z_scope.

(** The payload of the POST the controller multicasts for a handshake. *)
Definition hs_payload (c : nexus_link_hs_controller_t) : list oc_rep_t :=
  [mk_oc_rep CHAL_DATA_SHORT_PROP_NAME (OC_REP_BYTE_STRING (take (Z.to_nat (send_chal_data_len c)) (send_chal_data c)));
   mk_oc_rep CHAL_MODE_SHORT_PROP_NAME (OC_REP_INT (requested_chal_mode c));
   mk_oc_rep LINK_SEC_MODE_SHORT_PROP_NAME (OC_REP_INT (requested_security_mode c))].

(** A handshake started for a challenge. *)
Record hs_started (challenge : Z) (c : nexus_link_hs_controller_t) : Prop := mk_hs_started {
  started_ok : client_ok c;
  started_active : client_state c = LINK_HANDSHAKE_STATE_ACTIVE;
  started_key : hs_link_key c = link_key_of challenge (salt c);
  started_payload : hs_payload c = challenge_payload (salt c) (mac_of (hs_link_key c) (salt c));
  started_times : client_seconds_since_init c = 0 ∧ last_post_seconds c = 0
}.

Section HsClient.
Context {P : Type} `{HP : ProductLaws P} `{!ReliableNv P} `{!ChannelProduct P} `{!ChannelProductLaws P}
  `{HC : ChannelConfigOk} `{!OcStack P} `{!OcStackLaws P}.

(** ** Calls of the product that leave NV alone *)

Definition with_prod (p : P) (w : hs_world P) : hs_world P := {| w with hs_lm := on_that p (hs_lm w) |}.

Lemma unnoticed_saved (p p' : P) i : unnoticed p p' → saved p' i = saved p i.
Proof. intros [Hnv _ _]. unfold saved. by rewrite Hnv. Qed.

Lemma unnoticed_hs_ok (w : hs_world P) p : hs_ok w → unnoticed (hs_prod w) p → hs_ok (with_prod p w).
Proof.
  intros (Hsh & Hlm & Hsv) Hu. split; [exact Hsh|]. split.
  - apply lm_ok_on_that; [exact Hlm|]. intros j _. by apply unnoticed_saved.
  - unfold hs_saved_ok in *. change (hs_prod (with_prod p w)) with p.
    by rewrite (nv_stored_proper _ _ _ (unnoticed_nv _ _ Hu)).
Qed.

Lemma hs_on_prod_call {A} (f : P → A * P) (w : hs_world P) :
  hs_on_prod (λ p, Some (f p)) w = Some ((f (hs_prod w)).1, with_prod (f (hs_prod w)).2 w).
Proof. unfold hs_on_prod, hs_on_lm, lm_on_prod, zoom, hs_prod. cbn [mbind option_bind]. by destruct (f _). Qed.

Lemma hs_on_prod_modify (f : P → P) (w : hs_world P) : hs_on_prod (modify f) w = Some (tt, with_prod (f (hs_prod w)) w).
Proof. done. Qed.

Lemma request_unnoticed (p : P) : unnoticed p (nxp_common_request_processing p).
Proof. split; [apply request_frame|apply request_payg|apply request_origin_key]. Qed.
Lemma notify_unnoticed e (p : P) : unnoticed p (nxp_channel_notify_event e p).
Proof. split; [apply channel_notify_frame|apply channel_notify_payg|apply notify_origin_key]. Qed.
Lemma random_unnoticed (p : P) : unnoticed p (nxp_channel_random_value p).2.
Proof. split; [apply random_frame|apply random_payg|apply random_origin_key]. Qed.

(** ** The table of handshakes *)

Definition with_client (i : nat) (c : nexus_link_hs_controller_t) (w : hs_world P) : hs_world P :=
  let h := hs_this w in {| w with hs_this := {| h with clients := <[i := c]> (clients h) |} |}.

Lemma get_client_at i c (w : hs_world P) : clients (hs_this w) !! i = Some c → get_client (Z.of_nat i) w = Some (c, w).
Proof. intros Hc. unfold get_client, hs_gets. mstep. rewrite aget_lookup, Nat2Z.id, Hc by lia. done. Qed.

Lemma put_client_at i c (w : hs_world P) :
  (i < length (clients (hs_this w)))%nat → put_client (Z.of_nat i) c w = Some (tt, with_client i c w).
Proof. intros Hi. unfold put_client, hs_gets, hs_modify. mstep. rewrite aset_in, Nat2Z.id by lia. done. Qed.

Lemma with_client_ok i c (w : hs_world P) : hs_ok w → client_ok c → hs_ok (with_client i c w).
Proof.
  intros ([Hs Hcl Hl Hst] & Hlm & Hsv) Hc. split; [|by split].
  split; cbn [with_client hs_this server clients stored_accessory]; try done; [by apply Forall_insert|by rewrite length_insert].
Qed.

Lemma client_lookup (w : hs_world P) i : hs_ok w → (i < 4)%nat → ∃ c, clients (hs_this w) !! i = Some c ∧ client_ok c.
Proof.
  intros ([_ Hcl Hl _] & _) Hi. destruct (lookup_lt_is_Some_2 (clients (hs_this w)) i) as [c Hc].
  { rewrite Hl. exact Hi. }
  exists c. split; [exact Hc|]. by eapply Forall_lookup_1.
Qed.

(** The slot a new handshake takes. *)
Definition first_idle (w : hs_world P) (i : nat) : Prop :=
  (∃ c, clients (hs_this w) !! i = Some c ∧ client_state c = LINK_HANDSHAKE_STATE_IDLE) ∧
  ∀ j c, (j < i)%nat → clients (hs_this w) !! j = Some c → client_state c ≠ LINK_HANDSHAKE_STATE_IDLE.

Lemma find_idle_spec n i (w : hs_world P) :
  hs_ok w → (i + n = 4)%nat → (1 ≤ n)%nat →
  (∀ j c, (j < i)%nat → clients (hs_this w) !! j = Some c → client_state c ≠ LINK_HANDSHAKE_STATE_IDLE) →
  (∃ k, find_idle n (Z.of_nat i) w = Some (Z.of_nat k, w) ∧ first_idle w k) ∨
  (find_idle n (Z.of_nat i) w = Some (3, w) ∧
   ∀ j c, (j < 4)%nat → clients (hs_this w) !! j = Some c → client_state c ≠ LINK_HANDSHAKE_STATE_IDLE).
Proof.
  intros Hok. revert i. induction n as [|n IH]; intros i Hn H1 Hbusy; [lia|]. cbn [find_idle].
  destruct (client_lookup w i Hok ltac:(lia)) as (c & Hc & _). rewrite (bind_Some _ _ _ _ _ (get_client_at i c w Hc)).
  case_bool_decide as Hst; [left; exists i; split; [done|]; split; [by exists c|exact Hbusy]|].
  assert (Hbusy' : ∀ j c, (j < S i)%nat → clients (hs_this w) !! j = Some c → client_state c ≠ LINK_HANDSHAKE_STATE_IDLE).
  { intros j c' Hj. destruct (decide (j = i)) as [->|]; [intros ?; congruence|]. apply Hbusy. lia. }
  destruct n as [|n].
  - right. split; [|by replace 4%nat with (S i) by lia]. cbn [find_idle]. unfold mret, M_ret. do 2 f_equal. lia.
  - replace (Z.of_nat i + 1) with (Z.of_nat (S i)) by lia. by apply IH; [lia|lia|].
Qed.

(** ** Starting a handshake *)

Lemma salt_turn_spec i t c (w : hs_world P) :
  hs_ok w → clients (hs_this w) !! i = Some c → (t < 2)%nat →
  ∃ p r, salt_turn (Z.of_nat i) (Z.of_nat t) w =
    Some (tt, with_client i {| c with salt := take (4 * t) (salt c) ++ le_bytes 4 r ++ drop (4 * t + 4) (salt c) |} (with_prod p w)) ∧
    unnoticed (hs_prod w) p.
Proof.
  intros Hok Hc Ht. pose proof Hok as ([_ Hcl _ _] & _). pose proof (Forall_lookup_1 _ _ _ _ Hcl Hc) as Hcok.
  unfold salt_turn. rewrite (bind_Some _ _ _ _ _ (hs_on_prod_call nxp_channel_random_value w)).
  rewrite (bind_Some _ _ _ _ _ (get_client_at i c (with_prod _ w) Hc)).
  replace (Z.to_nat (Z.of_nat t * 4)) with (4 * t)%nat by lia.
  rewrite memcpy_at_in by (rewrite le_bytes_length, (proj2 (client_salt _ Hcok)); lia). erewrite bind_lift by reflexivity.
  rewrite le_bytes_length. rewrite put_client_at by (by eapply lookup_lt_Some).
  eexists _, _. split; [reflexivity|]. apply random_unnoticed.
Qed.

Lemma with_client_twice i c c' (w : hs_world P) : with_client i c (with_client i c' w) = with_client i c w.
Proof. unfold with_client. cbn. by rewrite list_insert_insert_eq. Qed.

Lemma link_mode_3_spec challenge i (w : hs_world P) :
  hs_ok w → is_u32 challenge → first_idle w i →
  ∃ c p, nexus_channel_res_link_hs_link_mode_3 challenge w = Some (true, with_client i c (with_prod p w)) ∧
    hs_started challenge c ∧ unnoticed (hs_prod w) p.
Proof.
  intros Hok Hch Hidle. unfold nexus_channel_res_link_hs_link_mode_3.
  destruct Hidle as [(c0 & Hc0 & Hst0) Hbusy]. pose proof Hok as ([_ Hcl Hcll _] & _).
  pose proof (Forall_lookup_1 _ _ _ _ Hcl Hc0) as Hok0. pose proof (lookup_lt_Some _ _ _ Hc0) as Hi.
  assert (Hfind : find_idle NEXUS_CHANNEL_SIMULTANEOUS_LINK_HANDSHAKES 0 w = Some (Z.of_nat i, w)).
  { destruct (find_idle_spec 4 0 w Hok eq_refl ltac:(lia)) as [(k & Hrun & [(ck & Hck & Hstk) Hbk])|[_ Hno]]; [lia| |].
    - change (find_idle 4 0 w = Some (Z.of_nat k, w)) in Hrun. unfold NEXUS_CHANNEL_SIMULTANEOUS_LINK_HANDSHAKES. rewrite Hrun.
      do 3 f_equal. destruct (Nat.lt_trichotomy k i) as [Hlt|[?|Hlt]]; [by destruct (Hbusy k ck Hlt Hck)|done|].
      by destruct (Hbk i c0 Hlt Hc0).
    - exfalso. eapply Hno; [|exact Hc0|exact Hst0]. rewrite Hcll in Hi. exact Hi. }
  rewrite (bind_Some _ _ _ _ _ Hfind), (bind_Some _ _ _ _ _ (get_client_at i c0 w Hc0)).
  rewrite bool_decide_false by (rewrite Hst0; congruence). cbn [for_m].
  destruct (salt_turn_spec i 0 c0 w Hok Hc0 ltac:(lia)) as (p1 & r1 & Hrun1 & Hu1).
  cbn [Nat.mul Nat.add take app] in Hrun1. rewrite take_0 in Hrun1. cbn [app] in Hrun1.
  set (s1 := le_bytes 4 r1 ++ drop 4 (salt c0)) in *. set (c1 := {| c0 with salt := s1 |}) in *.
  assert (Hs1 : salt_ok s1).
  { destruct (client_salt _ Hok0) as [Hb Hl]. split; [apply Forall_app_2; [apply le_bytes_ok|by apply Forall_drop]|].
    unfold s1. rewrite length_app, le_bytes_length, length_drop. lia. }
  set (w1 := with_client i c1 (with_prod p1 w)) in *.
  assert (Hok1 : hs_ok w1).
  { apply with_client_ok; [by apply unnoticed_hs_ok|]. by destruct Hok0. }
  assert (Hc1 : clients (hs_this w1) !! i = Some c1) by (cbn; by apply list_lookup_insert_eq).
  destruct (salt_turn_spec i 1 c1 w1 Hok1 Hc1 ltac:(lia)) as (p2 & r2 & Hrun2 & Hu2).
  cbn [Nat.mul Nat.add] in Hrun2. change (salt c1) with s1 in Hrun2.
  set (s2 := take 4 s1 ++ le_bytes 4 r2 ++ drop 8 s1) in *. set (c2 := {| c1 with salt := s2 |}) in *.
  assert (Hs2 : salt_ok s2).
  { destruct Hs1 as [Hb Hl]. split; [repeat apply Forall_app_2; [by apply Forall_take|apply le_bytes_ok|by apply Forall_drop]|].
    unfold s2. rewrite !length_app, le_bytes_length, length_take, length_drop. lia. }
  change (salt_turn (Z.of_nat i) 0 w = Some (tt, w1)) in Hrun1.
  set (w2 := with_client i c2 (with_prod p2 w1)) in *.
  change (salt_turn (Z.of_nat i) 1 w1 = Some (tt, w2)) in Hrun2.
  rewrite bind_assoc, (bind_Some _ _ _ _ _ Hrun1), bind_assoc, (bind_Some _ _ _ _ _ Hrun2). erewrite bind_Some by reflexivity.
  assert (Hc2 : clients (hs_this w2) !! i = Some c2) by (cbn; apply list_lookup_insert_eq; by rewrite length_insert).
  rewrite (bind_Some _ _ _ _ _ (get_client_at i c2 w2 Hc2)). change (salt c2) with s2.
  destruct (salt_salted s2 Hs2) as [Hsal Htk].
  assert (Hgen := generate_link_key_spec challenge s2 Hch Hsal). rewrite Htk in Hgen. rewrite (bind_lift _ _ _ _ Hgen).
  pose proof (link_key_of_ok challenge s2 : key_ok (link_key_of challenge s2)) as Hkey. set (key := link_key_of challenge s2) in *.
  assert (Hmac := mac_compute key s2 Hkey (proj1 Hs2) (proj2 Hsal)). rewrite Htk in Hmac. rewrite (bind_lift _ _ _ _ Hmac).
  remember (mac_of key s2) as mac eqn:Hmacdef. assert (Hml : length mac = 8%nat) by (subst mac; apply mac_of_length).
  assert (Hmb : bytes_ok mac) by (subst mac; apply mac_of_ok).
  unfold CHALLENGE_MODE_3_SALT_LENGTH_BYTES. destruct Hs2 as [Hs2b Hs2l].
  rewrite slice_in by lia. erewrite bind_lift by reflexivity. rewrite drop_0, Htk.
  change (send_chal_data c2) with (send_chal_data c0).
  rewrite memcpy_at_in by (rewrite Hs2l, (client_chal_length _ Hok0); lia). erewrite bind_lift by reflexivity.
  rewrite take_0, Hs2l. cbn [app Nat.add].
  rewrite memcpy_at_in by (rewrite length_app, length_drop, Hs2l, Hml, (client_chal_length _ Hok0); lia).
  erewrite bind_lift by reflexivity. rewrite Hml.
  rewrite take_app_le, take_ge by lia. rewrite (drop_ge (s2 ++ _)) by (rewrite length_app, length_drop, (client_chal_length _ Hok0); lia).
  rewrite app_nil_r.
  rewrite (bind_Some _ _ _ _ _ (put_client_at i _ w2 ltac:(cbn; rewrite !length_insert; exact Hi))).
  set (c3 := mk_hs_controller _ _ _ _ _ _ _ _ _ _).
  unfold channel_notify_event, request_processing.
  rewrite (bind_Some _ _ _ _ _ (hs_on_prod_modify _ _)), (bind_Some _ _ _ _ _ (hs_on_prod_modify _ _)).
  set (p3 := nxp_common_request_processing _).
  assert (Hu3 : unnoticed (hs_prod w) p3).
  { etransitivity; [exact Hu1|]. etransitivity; [exact Hu2|]. etransitivity; [apply notify_unnoticed|apply request_unnoticed]. }
  assert (Hw3 : with_prod p3 (with_prod (nxp_channel_notify_event NXP_CHANNEL_EVENT_LINK_HANDSHAKE_STARTED (hs_prod (with_client i c3 w2)))
    (with_client i c3 w2)) = with_client i c3 (with_prod p3 w)).
  { unfold w2, w1, with_client, with_prod, on_that. cbn. by rewrite !list_insert_insert_eq. }
  exists c3, p3. split; [by rewrite <- Hw3|]. split; [|exact Hu3].
  split; [|reflexivity|reflexivity| |by split].
  - assert (Hdb : bytes_ok (s2 ++ mac)) by (apply Forall_app_2; assumption).
    assert (Hdl : length (s2 ++ mac) = 16%nat) by (rewrite length_app; lia).
    split; cbn [hs_link_key salt send_chal_data send_chal_data_len requested_security_mode c3].
    + exact Hkey.
    + by split.
    + exact Hdb.
    + exact Hdl.
    + lia.
    + reflexivity.
  - unfold hs_payload, challenge_payload. cbn [send_chal_data_len send_chal_data salt hs_link_key requested_chal_mode requested_security_mode c3].
    change (Z.to_nat (Z.of_nat 8 + 8)) with 16%nat. rewrite take_ge, Hmacdef by (rewrite length_app; lia). reflexivity.
Qed.

(** No handshake is started when all are under way. *)
Lemma link_mode_3_busy challenge (w : hs_world P) :
  hs_ok w → (∀ j c, (j < 4)%nat → clients (hs_this w) !! j = Some c → client_state c ≠ LINK_HANDSHAKE_STATE_IDLE) →
  nexus_channel_res_link_hs_link_mode_3 challenge w = Some (false, w).
Proof.
  intros Hok Hbusy. unfold nexus_channel_res_link_hs_link_mode_3.
  assert (Hfind : find_idle NEXUS_CHANNEL_SIMULTANEOUS_LINK_HANDSHAKES 0 w = Some (3, w)).
  { destruct (find_idle_spec 4 0 w Hok eq_refl ltac:(lia)) as [(k & _ & [(c & Hc & Hst) _])|[Hrun _]]; [lia| |exact Hrun].
    exfalso. eapply Hbusy; [|exact Hc|exact Hst]. destruct Hok as ([_ _ Hl _] & _).
    apply lookup_lt_Some in Hc. rewrite Hl in Hc. exact Hc. }
  rewrite (bind_Some _ _ _ _ _ Hfind). destruct (client_lookup w 3 Hok ltac:(lia)) as (c & Hc & _).
  change 3 with (Z.of_nat 3). rewrite (bind_Some _ _ _ _ _ (get_client_at 3 c w Hc)).
  by rewrite bool_decide_true by (by eapply (Hbusy 3%nat); [lia|]).
Qed.

(** A free handshake, or none. *)
Lemma idle_cases (w : hs_world P) :
  hs_ok w →
  (∃ k, first_idle w k) ∨ (∀ j c, (j < 4)%nat → clients (hs_this w) !! j = Some c → client_state c ≠ LINK_HANDSHAKE_STATE_IDLE).
Proof.
  intros Hok. destruct (find_idle_spec 4 0 w Hok eq_refl ltac:(lia)) as [(k & _ & Hk)|[_ Hno]]; [lia|left; by exists k|by right].
Qed.

(** ** The response *)

(** The response to handshake [i] with the MAC [mac]. *)
Definition hs_answer (i : nat) (ep : oc_endpoint_t) (mac : list Z) : oc_client_response_t :=
  mk_client_response OC_STATUS_CREATED (Some (Z.of_nat i)) ep
    [mk_oc_rep RESP_DATA_SHORT_PROP_NAME (OC_REP_BYTE_STRING mac)].

Lemma lm_result_unnoticed (w w' : lm_world P) p sl sv pf :
  lm_result w w' sl sv pf → unnoticed (lm_prod w') p → lm_ok (on_that p w').
Proof. intros [Hok _ _ _ _] Hu. apply lm_ok_on_that; [done|]. intros j _. by apply unnoticed_saved. Qed.

Lemma client_post_spec i c ep aid mac b lm1 (w : hs_world P) :
  hs_ok w → clients (hs_this w) !! i = Some c →
  nexus_oc_wrapper_oc_endpoint_to_nx_id ep = Some aid → nx_id_ok aid → length mac = 8%nat →
  nexus_channel_link_manager_create_link aid CHANNEL_LINK_OPERATING_MODE_CONTROLLER 0
    (mk_mode0 (hs_link_key c) 0) (hs_lm w) = Some (b, lm1) →
  ∃ w', nexus_channel_res_link_hs_client_post (Some (hs_answer i ep mac)) w = Some (tt, w') ∧
    if bool_decide (mac = mac_of (hs_link_key c) (inverted (salt c))) && b
    then hs_ok w' ∧ clients (hs_this w') = <[i := client_zero]> (clients (hs_this w)) ∧
      stored_accessory (hs_this w') = stored_accessory (hs_this w) ∧ lm_this (hs_lm w') = lm_this lm1
    else w' = w.
Proof.
  intros Hok Hc Hep Haid Hml Hcreate. pose proof Hok as (Hsh & Hlm & Hsv). pose proof Hsh as [Hsrv Hcl Hcll Hst].
  pose proof (Forall_lookup_1 _ _ _ _ Hcl Hc) as Hcok. unfold nexus_channel_res_link_hs_client_post, hs_answer.
  cbn [cr_code cr_user_data cr_endpoint cr_payload]. rewrite bool_decide_false by (intros Hn; by apply Hn).
  rewrite (bind_lift _ _ _ _ Hep). cbn [client_post_loop rep_name rep_value].
  change (name_is RESP_DATA_SHORT_PROP_NAME RESP_DATA_SHORT_PROP_NAME) with true. cbv iota zeta.
  rewrite Hml. change (negb (u8 (Z.of_nat 8) =? 8)) with false. cbv iota.
  rewrite bind_assoc, (bind_Some _ _ _ _ _ (get_client_at i c w Hc)).
  destruct (salt_salted _ (client_salt _ Hcok)) as [Hsal Htk].
  assert (Hinv := inverted_mac_spec (salt c) (hs_link_key c) (client_key _ Hcok) Hsal). rewrite Htk in Hinv.
  rewrite bind_assoc, (bind_lift _ _ _ _ Hinv). rewrite (take_ge mac) by lia. unfold memeq.
  destruct (decide (mac = mac_of (hs_link_key c) (inverted (salt c)))) as [Heq|Hne].
  2: { rewrite bool_decide_false by congruence. cbn [negb]. rewrite (bool_decide_false (mac = _)) by exact Hne.
    exists w. split; [reflexivity|reflexivity]. }
  rewrite bool_decide_true by congruence. rewrite (bool_decide_true (mac = _)) by exact Heq. cbn [negb andb].
  rewrite (client_mode _ Hcok).
  assert (Hcr : hs_on_lm (nexus_channel_link_manager_create_link aid CHANNEL_LINK_OPERATING_MODE_CONTROLLER 0
    (mk_mode0 (hs_link_key c) 0)) w = Some (b, mk_hs_world (hs_this w) lm1)).
  { unfold hs_on_lm, zoom. by rewrite Hcreate. }
  rewrite bind_assoc, (bind_Some _ _ _ _ _ Hcr).
  destruct (create_link_spec aid CHANNEL_LINK_OPERATING_MODE_CONTROLLER 0 (mk_mode0 (hs_link_key c) 0) (hs_lm w) Hlm
    (new_link_ok _ _ _ Haid (client_key _ Hcok))) as (b' & lm1' & Hcreate' & Hres).
  rewrite Hcreate in Hcreate'. injection Hcreate' as <- <-.
  assert (Hb : if b then lm_ok lm1 ∧ lm_frame (hs_prod w) (lm_prod lm1) else lm1 = hs_lm w).
  { destruct (pending_add_link (lm_this (hs_lm w))); [by destruct Hres as [-> ->]|].
    destruct Hres as ([v|] & _ & Hv); [|by destruct Hv as [-> ->]]. destruct Hv as (-> & _ & _ & _ & [? ? _ _ _]). by split. }
  destruct b; cbn [negb].
  2: { subst lm1. exists w. split; [by destruct w|reflexivity]. }
  destruct Hb as [Hlm1 Hf1].
  destruct (hs_ok_created (server (hs_this w)) w lm1 Hok Hsrv Hlm1 Hf1) as [Hok1 _].
  set (w1 := mk_hs_world (hs_this w) lm1).
  assert (Hok1' : hs_ok w1) by (unfold w1; by destruct w as [[] ?]).
  rewrite bind_assoc, (bind_Some _ _ _ _ _ (put_client_at i client_zero w1 ltac:(cbn; by eapply lookup_lt_Some))).
  erewrite bind_Some by reflexivity. cbn [negb when]. unfold request_processing. rewrite hs_on_prod_modify.
  eexists. split; [reflexivity|]. split; [|done].
  apply unnoticed_hs_ok; [apply with_client_ok; [exact Hok1'|apply client_zero_ok]|apply request_unnoticed].
Qed.
End HsClient.
