(* ===== verification/ChannelHsRun.v ===== *)
(** * The link handshake: processing, timeouts and retries *)





From S2P Require Import Prelude Siphash Window Check NvBlock Product DesktopProduct Nv Channel ChannelEndpoint ChannelLm ChannelLmSpec.
From S2P Require Import ChannelLmProcess ChannelLmTable ChannelLmCreate ChannelHs ChannelHsServer ChannelHsClient.
Local Open Scope Z_scope.

(** A handshake of the controller after [dt] more seconds. *)
Definition waited (dt : Z) (c : nexus_link_hs_controller_t) : nexus_link_hs_controller_t :=
  if bool_decide (client_state c = LINK_HANDSHAKE_STATE_IDLE) then c
  else
    let secs := u16 (client_seconds_since_init c + dt) in
    if NEXUS_CHANNEL_LINK_HANDSHAKE_CONTROLLER_TIMEOUT_SECONDS <? secs then client_zero
    else if NEXUS_CHANNEL_LINK_HANDSHAKE_CONTROLLER_RETRY_SECONDS <=? u16 (secs - last_post_seconds c)
    then {| c with client_seconds_since_init := secs; last_post_seconds := secs |}
    else {| c with client_seconds_since_init := secs |}.

Lemma waited_ok dt c : client_ok c → client_ok (waited dt c).
Proof.
  intros Hc. unfold waited. case_bool_decide; [exact Hc|]. cbv zeta.
  destruct (_ <? _); [apply client_zero_ok|]. destruct (_ <=? _); by destruct Hc.
Qed.

Section HsProcess.
Context {P : Type} `{HP : ProductLaws P} `{!ReliableNv P} `{!ChannelProduct P} `{!ChannelProductLaws P}
  `{HC : ChannelConfigOk} `{!OcStack P} `{!OcStackLaws P}.

(** What processing changes: the product unnoticed, and the handshakes'
    timers. *)
Record hs_kept (w w' : hs_world P) : Prop := mk_hs_kept {
  kept_ok : hs_ok w';
  kept_stored : stored_accessory (hs_this w') = stored_accessory (hs_this w);
  kept_lm : lm_this (hs_lm w') = lm_this (hs_lm w);
  kept_prod : unnoticed (hs_prod w) (hs_prod w')
}.

Lemma hs_kept_trans w1 w2 w3 : hs_kept w1 w2 → hs_kept w2 w3 → hs_kept w1 w3.
Proof. intros [? ? ? ?] [? ? ? ?]. split; [done|congruence|congruence|by etransitivity]. Qed.

Lemma kept_refl w : hs_ok w → hs_kept w w.
Proof. by split. Qed.
Lemma kept_with_prod w p : hs_ok w → unnoticed (hs_prod w) p → hs_kept w (with_prod p w).
Proof. intros Hok Hu. split; [by apply unnoticed_hs_ok|done..]. Qed.
Lemma kept_with_client i c w : hs_ok w → client_ok c → hs_kept w (with_client i c w).
Proof. intros Hok Hc. split; [by apply with_client_ok|done..]. Qed.
Lemma kept_with_server s w : hs_ok w → server_ok s → hs_kept w (with_server s w).
Proof. intros Hok Hc. split; [by apply with_server_ok|done..]. Qed.

(** The multicast of a handshake, whether or not the stack takes it. *)
Lemma send_post_spec i c w :
  hs_ok w → client_ok c →
  ∃ b w', _nexus_channel_res_link_hs_link_mode_3_send_post i c w = Some (b, w') ∧ hs_kept w w' ∧ hs_this w' = hs_this w.
Proof.
  intros Hok Hc. unfold _nexus_channel_res_link_hs_link_mode_3_send_post.
  rewrite (bind_Some _ _ _ _ _ (hs_on_prod_gets _ w)).
  set (p1 := if oc_ri_get_client_cb (hs_prod w) then oc_ri_remove_client_cb (hs_prod w) else hs_prod w).
  assert (Hu1 : unnoticed (hs_prod w) p1) by (unfold p1; destruct (oc_ri_get_client_cb _); [apply remove_client_cb_unnoticed|done]).
  assert (H1 : when (oc_ri_get_client_cb (hs_prod w)) (hs_on_prod (modify oc_ri_remove_client_cb)) w = Some (tt, with_prod p1 w)).
  { unfold p1. destruct (oc_ri_get_client_cb _); [done|]. by destruct w as [? []]. }
  rewrite (bind_Some _ _ _ _ _ H1), (bind_Some _ _ _ _ _ (hs_on_prod_call (oc_init_post i) _)).
  change (hs_prod (with_prod p1 w)) with p1. pose proof (init_post_unnoticed i p1) as Hu2.
  destruct (oc_init_post i p1) as [ok p2]. cbn [fst snd] in *.
  assert (Hk2 : hs_kept w (with_prod p2 w)) by (apply kept_with_prod; [done|by etransitivity]).
  destruct ok; cbn [negb]; [|by exists false, (with_prod p2 w)].
  rewrite slice_in by (rewrite (client_chal_length _ Hc); pose proof (client_chal_len _ Hc); lia).
  erewrite bind_lift by reflexivity. set (cD := take _ _).
  rewrite (bind_Some _ _ _ _ _ (hs_on_prod_call (oc_do_post cD _ _) _)).
  change (hs_prod (with_prod p2 (with_prod p1 w))) with p2. pose proof (do_post_unnoticed cD (requested_chal_mode c) (requested_security_mode c) p2) as Hu3.
  destruct (oc_do_post cD _ _ p2) as [sent p3]. cbn [fst snd] in *.
  assert (Hu : unnoticed (hs_prod w) p3) by (etransitivity; [exact Hu1|]; by etransitivity).
  destruct sent; cbn [negb].
  - unfold request_processing. rewrite (bind_Some _ _ _ _ _ (hs_on_prod_modify _ _)). exists true, (with_prod (nxp_common_request_processing p3) w).
    split; [reflexivity|]. split; [|done]. apply kept_with_prod; [done|]. etransitivity; [exact Hu|apply request_unnoticed].
  - exists false, (with_prod p3 w). split; [done|]. split; [|done]. by apply kept_with_prod.
Qed.

Lemma process_server_spec dt next w :
  hs_ok w →
  ∃ r w', hs_process_server dt next w = Some (r, w') ∧ hs_kept w w' ∧ clients (hs_this w') = clients (hs_this w).
Proof.
  intros Hok. pose proof Hok as ([Hs _ _ _] & _). unfold hs_process_server. erewrite bind_Some by reflexivity.
  case_bool_decide as Hst; [|exists next, w; split; [done|]; split; [by apply kept_refl|done]].
  rewrite (bind_Some _ _ _ _ _ (on_server_at _ w)). erewrite bind_Some by reflexivity. cbv beta.
  set (w1 := with_server _ w). set (s1 := server (hs_this w1)).
  assert (Hs1 : server_ok s1) by (by destruct Hs). assert (Hok1 : hs_ok w1) by (by apply with_server_ok).
  destruct (_ <? hs_seconds_since_init s1).
  - set (w2 := with_server server_zero w).
    assert (Hk2 : hs_kept w w2) by (apply kept_with_server; [done|apply server_zero_ok]).
    assert (Hreset : _nexus_channel_res_link_hs_reset_server_state w1 = Some (tt, w2)) by done.
    rewrite (bind_Some _ _ _ _ _ Hreset). unfold channel_notify_event. rewrite (bind_Some _ _ _ _ _ (hs_on_prod_modify _ w2)).
    eexists next, _. split; [reflexivity|]. split; [|done].
    eapply hs_kept_trans; [exact Hk2|]. apply kept_with_prod; [by destruct Hk2|apply notify_unnoticed].
  - exists 1, w1. split; [done|]. split; [by apply kept_with_server|done].
Qed.

Lemma process_client_spec dt i c next w :
  hs_ok w → clients (hs_this w) !! i = Some c →
  ∃ r w', hs_process_client dt (Z.of_nat i) next w = Some (r, w') ∧ hs_kept w w' ∧
    clients (hs_this w') = <[i := waited dt c]> (clients (hs_this w)).
Proof.
  intros Hok Hc. pose proof Hok as ([_ Hcl _ _] & _). pose proof (Forall_lookup_1 _ _ _ _ Hcl Hc) as Hcok.
  pose proof (lookup_lt_Some _ _ _ Hc) as Hi. unfold hs_process_client, waited.
  rewrite (bind_Some _ _ _ _ _ (get_client_at i c w Hc)).
  case_bool_decide as Hst; [exists next, w; split; [done|]; split; [by apply kept_refl|by rewrite list_insert_id]|]. cbv zeta.
  rewrite (bind_Some _ _ _ _ _ (put_client_at i _ w Hi)). set (secs := u16 (client_seconds_since_init c + dt)).
  set (c1 := {| c with client_seconds_since_init := secs |}). assert (Hc1 : client_ok c1) by (by destruct Hcok).
  set (w1 := with_client i c1 w).
  assert (Hi1 : (i < length (clients (hs_this w1)))%nat) by (cbn [w1 with_client hs_this clients]; by rewrite length_insert).
  assert (Hl1 : clients (hs_this w1) !! i = Some c1) by (cbn [w1 with_client hs_this clients]; by apply list_lookup_insert_eq).
  rewrite (bind_Some _ _ _ _ _ (get_client_at i c1 w1 Hl1)). change (client_seconds_since_init c1) with secs.
  change (client_state c1) with (client_state c). change (last_post_seconds c1) with (last_post_seconds c).
  assert (Hk1 : hs_kept w w1) by (by apply kept_with_client). pose proof (kept_ok _ _ Hk1) as Hok1.
  destruct (_ <? secs).
  { rewrite bind_assoc, (bind_Some _ _ _ _ _ (put_client_at i client_zero w1 Hi1)). erewrite bind_Some by reflexivity.
    eexists _, _. split; [reflexivity|]. split.
    - eapply hs_kept_trans; [exact Hk1|]. apply kept_with_client; [done|apply client_zero_ok].
    - cbn [w1 with_client hs_this clients]. by rewrite list_insert_insert_eq. }
  rewrite bool_decide_true by (destruct (client_state c); done). destruct (_ <=? _).
  2: { erewrite bind_Some by reflexivity. eexists _, w1. split; [reflexivity|]. by split. }
  rewrite bind_assoc, (bind_Some _ _ _ _ _ (put_client_at i _ w1 Hi1)).
  set (c2 := {| c1 with last_post_seconds := secs |}). assert (Hc2 : client_ok c2) by (by destruct Hc1).
  set (w2 := with_client i c2 w1). assert (Hk2 : hs_kept w1 w2) by (by apply kept_with_client).
  assert (Hl2 : clients (hs_this w2) !! i = Some c2) by (cbn [w2 with_client hs_this clients]; by apply list_lookup_insert_eq).
  rewrite bind_assoc, (bind_Some _ _ _ _ _ (get_client_at i c2 w2 Hl2)).
  destruct (send_post_spec (Z.of_nat i) c2 w2 (kept_ok _ _ Hk2) Hc2) as (b & w3 & Hsend & Hk3 & Hthis).
  rewrite bind_assoc, (bind_Some _ _ _ _ _ Hsend). erewrite bind_Some by reflexivity.
  eexists _, w3. split; [reflexivity|]. split; [eapply hs_kept_trans; [exact Hk1|]; by eapply hs_kept_trans|].
  rewrite Hthis. cbn [w2 w1 with_client hs_this clients]. by rewrite list_insert_insert_eq.
Qed.

Lemma process_clients_spec dt n i next w :
  hs_ok w → (i + n = 4)%nat →
  ∃ r w', hs_process_clients n (Z.of_nat i) dt next w = Some (r, w') ∧ hs_kept w w' ∧
    ∀ j, clients (hs_this w') !! j = (if decide (i ≤ j)%nat then waited dt else id) <$> clients (hs_this w) !! j.
Proof.
  revert i next w. induction n as [|n IH]; intros i next w Hok Hn; cbn [hs_process_clients].
  { exists next, w. split; [done|]. split; [by apply kept_refl|]. intros j. destruct Hok as ([_ _ Hl _] & _).
    case_decide as Hj; [|by rewrite option_fmap_id]. by rewrite lookup_ge_None_2 by (rewrite Hl; unfold NEXUS_CHANNEL_SIMULTANEOUS_LINK_HANDSHAKES; lia). }
  destruct (client_lookup w i Hok ltac:(lia)) as (c & Hc & _). pose proof (lookup_lt_Some _ _ _ Hc) as Hi.
  destruct (process_client_spec dt i c next w Hok Hc) as (r1 & w1 & Hrun1 & Hk1 & Hcs1).
  rewrite (bind_Some _ _ _ _ _ Hrun1). replace (Z.of_nat i + 1) with (Z.of_nat (S i)) by lia.
  destruct (IH (S i) r1 w1 (kept_ok _ _ Hk1) ltac:(lia)) as (r & w' & Hrun & Hk & Hcs).
  exists r, w'. split; [done|]. split; [by eapply hs_kept_trans|]. intros j. rewrite Hcs, Hcs1.
  destruct (decide (j = i)) as [->|Hne].
  - rewrite list_lookup_insert_eq, Hc by done. rewrite decide_False, decide_True by lia. done.
  - rewrite list_lookup_insert_ne by done. by repeat case_decide; try lia.
Qed.

(** [process] ages every handshake, and drops those older than an hour. *)
Lemma hs_process_spec dt w :
  hs_ok w →
  ∃ r w', nexus_channel_res_link_hs_process dt w = Some (r, w') ∧ hs_kept w w' ∧
    clients (hs_this w') = (if NEXUS_CHANNEL_SUPPORT_CONTROLLER_MODE then waited dt <$> clients (hs_this w) else clients (hs_this w)).
Proof.
  intros Hok. unfold nexus_channel_res_link_hs_process. cbv zeta.
  assert (H1 : ∃ r w1, (if NEXUS_CHANNEL_SUPPORT_ACCESSORY_MODE
     then hs_process_server dt NEXUS_COMMON_IDLE_TIME_BETWEEN_PROCESS_CALL_SECONDS
     else mret NEXUS_COMMON_IDLE_TIME_BETWEEN_PROCESS_CALL_SECONDS) w = Some (r, w1) ∧ hs_kept w w1 ∧ clients (hs_this w1) = clients (hs_this w)).
  { destruct NEXUS_CHANNEL_SUPPORT_ACCESSORY_MODE; [by apply process_server_spec|].
    eexists _, w. split; [reflexivity|]. split; [by apply kept_refl|done]. }
  destruct H1 as (r1 & w1 & Hrun1 & Hk1 & Hcs1). rewrite (bind_Some _ _ _ _ _ Hrun1).
  destruct NEXUS_CHANNEL_SUPPORT_CONTROLLER_MODE; [|by exists r1, w1].
  destruct (process_clients_spec dt 4 0 r1 w1 (kept_ok _ _ Hk1) eq_refl) as (r & w' & Hrun & Hk & Hcs).
  exists r, w'. split; [exact Hrun|]. split; [by eapply hs_kept_trans|]. apply list_eq. intros j.
  rewrite Hcs, list_lookup_fmap, Hcs1. by rewrite decide_True by lia.
Qed.
End HsProcess.

(** ** The link handshake: both sides, and sequences of requests *)





Section HsRun.
Context {P : Type} `{HP : ProductLaws P} `{!ReliableNv P} `{!ChannelProduct P} `{!ChannelProductLaws P}
  `{HC : ChannelConfigOk} `{!OcStack P} `{!OcStackLaws P}.

(** ** Room for a link *)

Definition lm_has_room (w : lm_world P) (id : nx_id) (mode : nexus_channel_link_operating_mode) : Prop :=
  pending_add_link (lm_this w) = false ∧ ∃ v, makes_room (slot (lm_this w)) id mode (Some v).

Lemma makes_room_exclusive sl id mode v : makes_room sl id mode None → makes_room sl id mode (Some v) → False.
Proof.
  intros Hno Hyes. inversion Hno as [| | |Hab Hfull Hold]; subst.
  inversion Hyes as [k l Hk Hsl Hid| |k l _ _ Hm Hk Hsl Hac _|]; subst; [by apply (Hab k l)|done|].
  destruct Hold as [?|Hna]; [done|]. by apply (Hna k l).
Qed.

(** With room the link becomes the pending one. *)
Lemma create_link_room id mode key (w : lm_world P) :
  lm_ok w → nx_id_ok id → key_ok key → lm_has_room w id mode →
  ∃ w', nexus_channel_link_manager_create_link id mode 0 (mk_mode0 key 0) w = Some (true, w') ∧
    pending_add_link (lm_this w') = true ∧ pending_link_to_create (lm_this w') = new_link id mode 0 (mk_mode0 key 0).
Proof.
  intros Hok Hid Hkey [Hadd (v & Hroom)].
  destruct (create_link_spec id mode 0 (mk_mode0 key 0) w Hok (new_link_ok _ _ _ Hid Hkey)) as (b & w' & Hrun & Hres).
  rewrite Hadd in Hres. destruct Hres as ([v'|] & Hroom' & Hres); [|by destruct (makes_room_exclusive _ _ _ _ Hroom' Hroom)].
  destruct Hres as (-> & Hpa & Hpl & _). by exists w'.
Qed.

(** ** One request *)

(** The request carries a challenge made for handshake [k]. *)
Definition hs_matched (reps : list oc_rep_t) (w : hs_world P) (k : Z) : Prop :=
  ∃ s, _nexus_channel_res_link_hs_server_post_parse_payload reps (activated w) = Some (true, with_server s w) ∧
    hs_candidate (hs_key w) (hs_window (stored_accessory (hs_this w))) (take 8 (chal_data s)) (drop 8 (chal_data s)) k ∧
    ∀ x, hs_candidate (hs_key w) (hs_window (stored_accessory (hs_this w))) (take 8 (chal_data s)) (drop 8 (chal_data s)) x → k ≤ x.

Lemma server_post_cases reps ep (w : hs_world P) :
  hs_ok w → hs_room (stored_accessory (hs_this w)) → payload_ok reps → endpoint_ok ep →
  ∃ r w', nexus_channel_res_link_hs_server_post reps ep w = Some (r, w') ∧ hs_ok w' ∧
    ((r = refused ∧ w' = with_server server_zero w) ∨
     (rsp_status r = OC_STATUS_CREATED ∧ ∃ k, hs_matched reps w k ∧ (∀ x, hs_matched reps w x → x = k) ∧ hs_accepted w w' k)).
Proof.
  intros Hok Hroom Hp Hep. pose proof Hok as (Hsh & Hlm & _). destruct (endpoint_id ep Hep) as (cid & Hcid & Hcok).
  destruct (parse_spec reps (activated w) (activated_server_ok w Hsh) Hp) as (b & s & Hparse & Hs).
  change (with_server s (activated w)) with (with_server s w) in Hparse.
  assert (Hrefuse : nexus_channel_res_link_hs_server_post reps ep w = Some (refused, with_server server_zero w) →
    ∃ r w', nexus_channel_res_link_hs_server_post reps ep w = Some (r, w') ∧ hs_ok w' ∧
    ((r = refused ∧ w' = with_server server_zero w) ∨
     (rsp_status r = OC_STATUS_CREATED ∧ ∃ k, hs_matched reps w k ∧ (∀ x, hs_matched reps w x → x = k) ∧ hs_accepted w w' k))).
  { intros Hrun. exists refused, (with_server server_zero w). split; [exact Hrun|].
    split; [apply with_server_ok; [exact Hok|apply server_zero_ok]|]. by left. }
  destruct b; [|apply Hrefuse; by eapply server_post_refuse].
  destruct (validate_challenge_spec (stored_accessory (hs_this w)) (hs_key w) (chal_data s) (drop 8 (chal_data s)))
    as [(k & _ & Hc & Hmin)|[_ Hno]].
  { apply Hsh. } { exact Hroom. } { apply hs_key_ok. }
  { split; [apply (server_chal _ Hs)|rewrite (server_chal_length _ Hs); lia]. }
  2: { apply Hrefuse. eapply server_post_refuse; [exact Hok|exact Hroom|exact Hparse|exact Hs|]. intros _. exact Hno. }
  set (key := link_key_of (challenge_of (hs_key w) k) (take 8 (chal_data s))).
  pose proof (link_key_of_ok (challenge_of (hs_key w) k) (take 8 (chal_data s)) : key_ok key) as Hkey.
  destruct (create_link_spec cid CHANNEL_LINK_OPERATING_MODE_ACCESSORY 0 (mk_mode0 key 0) (hs_lm w) Hlm (new_link_ok _ _ _ Hcok Hkey))
    as (b & lm1 & Hcreate & _).
  pose proof (server_post_accept reps ep cid s k b lm1 w Hok Hroom Hcid Hcok Hparse Hs Hc Hmin Hcreate) as Hres.
  destruct b; [|by apply Hrefuse]. destruct Hres as (w' & Hrun & Hacc & _). eexists _, w'. split; [exact Hrun|].
  split; [apply Hacc|]. right. split; [reflexivity|]. exists k. split; [by exists s|]. split; [|exact Hacc].
  intros x (s' & Hparse' & Hc' & Hmin'). rewrite Hparse in Hparse'. injection Hparse' as Hsrv.
  assert (s' = s) as -> by exact (eq_sym Hsrv). apply Z.le_antisymm; auto.
Qed.

(** Both parts of the device's processing. *)
Lemma hs_lm_process_spec dt (w : hs_world P) :
  hs_ok w → ∃ r w', hs_on_lm (nexus_channel_link_manager_process dt) w = Some (r, w') ∧ hs_ok w' ∧ hs_this w' = hs_this w ∧ hs_key w' = hs_key w.
Proof.
  intros Hok. pose proof Hok as (Hsh & Hlm & Hsv). destruct (lm_process_spec dt (hs_lm w) Hlm) as (lm1 & Hrun & _ & Hres).
  assert (Hf : lm_ok lm1 ∧ lm_frame (hs_prod w) (lm_prod lm1)).
  { destruct (pending_add_link (lm_this (hs_lm w))); [destruct Hres as (_ & i & _ & _ & _ & [? ? _ _ _]); by split|].
    destruct Hres as [_ Hres]. destruct (pending_clear_all_links (lm_this (hs_lm w))); destruct Hres as [? ? _ _ _]; by split. }
  destruct Hf as [Hok1 Hf]. destruct (hs_ok_created (server (hs_this w)) w lm1 Hok (hs_server_ok _ Hsh) Hok1 Hf) as [Hok2 Hk].
  eexists _, (mk_hs_world (hs_this w) lm1). split; [unfold hs_on_lm, zoom; by rewrite Hrun|]. by destruct w as [[] ?].
Qed.

(** ** Sequences of requests *)

(** Requests, with the handshakes the created links were made for, and
    processing. *)
Inductive hs_run : hs_world P → list Z → hs_world P → Prop :=
| hs_run_nil w : hs_run w [] w
| hs_run_refused w reps ep w1 ks w' r :
    payload_ok reps → endpoint_ok ep → nexus_channel_res_link_hs_server_post reps ep w = Some (r, w1) →
    rsp_status r ≠ OC_STATUS_CREATED → hs_run w1 ks w' → hs_run w ks w'
| hs_run_created w reps ep w1 k ks w' r :
    payload_ok reps → endpoint_ok ep → nexus_channel_res_link_hs_server_post reps ep w = Some (r, w1) →
    rsp_status r = OC_STATUS_CREATED → hs_matched reps w k → hs_run w1 ks w' → hs_run w (k :: ks) w'
| hs_run_process w dt r1 w1 r2 w2 ks w' :
    nexus_channel_res_link_hs_process dt w = Some (r1, w1) →
    hs_on_lm (nexus_channel_link_manager_process dt) w1 = Some (r2, w2) → hs_run w2 ks w' → hs_run w ks w'.

Lemma hs_run_spec (w w' : hs_world P) ks :
  hs_run w ks w' → hs_ok w → 15 ≤ handshake_index (stored_accessory (hs_this w)) →
  handshake_index (stored_accessory (hs_this w)) + 8 * Z.of_nat (length ks) + 17 < 4294967296 →
  hs_ok w' ∧ hs_key w' = hs_key w ∧ NoDup ks ∧
  (∀ x, hs_used (stored_accessory (hs_this w)) x → hs_used (stored_accessory (hs_this w')) x) ∧
  ∀ k, k ∈ ks → ¬ hs_used (stored_accessory (hs_this w)) k ∧ hs_used (stored_accessory (hs_this w')) k.
Proof.
  induction 1 as [w|w reps ep w1 ks w' r Hp Hep Hrun Hst Hr IH|w reps ep w1 k ks w' r Hp Hep Hrun Hst Hk Hr IH
    |w dt r1 w1 r2 w2 ks w' Hrun1 Hrun2 Hr IH]; intros Hok H15 Hlim.
  - split_and!; [done|done|constructor|done|]. intros k Hin. by apply not_elem_of_nil in Hin.
  - destruct (server_post_cases reps ep w Hok ltac:(split; lia) Hp Hep) as (r' & w1' & Hrun' & Hok1 & Hcase).
    rewrite Hrun in Hrun'. injection Hrun' as <- <-. destruct Hcase as [[_ ->]|[Hc _]]; [|done]. by apply IH.
  - cbn [length] in Hlim.
    destruct (server_post_cases reps ep w Hok ltac:(split; lia) Hp Hep) as (r' & w1' & Hrun' & Hok1 & Hcase).
    rewrite Hrun in Hrun'. injection Hrun' as <- <-. destruct Hcase as [[-> _]|(_ & k' & _ & Huniq & Hacc)]; [done|].
    rewrite <- (Huniq k Hk) in Hacc. clear Huniq k'. pose proof Hk as (s & _ & (Hrange & Hnew & _) & _).
    change (handshake_index (stored_accessory (hs_this w)) - 15 ≤ k ≤ handshake_index (stored_accessory (hs_this w)) + 8) in Hrange.
    destruct Hacc as [_ _ Hkey1 Hidx _ Hused _].
    destruct IH as (Hok' & Hk' & Hnd & Hkeep & Hids); [done|lia|lia|].
    assert (Hused1 : hs_used (stored_accessory (hs_this w1)) k) by (apply Hused; auto).
    assert (Hfresh : ¬ hs_used (stored_accessory (hs_this w)) k) by (intros [?|?]; [lia|done]).
    split_and!; [done|congruence| | |].
    + constructor; [|done]. intros Hin. by destruct (Hids k Hin).
    + intros x Hx. apply Hkeep, Hused. by left.
    + intros x [->|Hin]%elem_of_cons; [split; [done|by apply Hkeep]|].
      destruct (Hids x Hin) as [Hx1 Hx']. split; [|done]. intros Hx. apply Hx1, Hused. by left.
  - destruct (hs_process_spec dt w Hok) as (r1' & w1' & Hrun1' & Hkept & _). rewrite Hrun1 in Hrun1'. injection Hrun1' as <- <-.
    destruct Hkept as [Hok1 Hst1 _ Hu1]. destruct (hs_lm_process_spec dt w1 Hok1) as (r2' & w2' & Hrun2' & Hok2 & Hthis & Hk2).
    rewrite Hrun2 in Hrun2'. injection Hrun2' as <- <-. pose proof (unnoticed_key _ _ Hu1) as Hk1.
    rewrite Hthis, Hst1 in IH. destruct IH as (? & Hk' & ? & ? & ?); [done|done|done|].
    split_and!; try done. rewrite Hk', Hk2. exact Hk1.
Qed.

(** ** Properties *)

(** C3: when a controller starts a handshake with the digits the origin gave out for
    an unused handshake index [k] of the accessory, and both have room for a
    link, the accessory accepts the controller's request, the controller
    accepts the accessory's answer, and both are left with a pending link to
    the other under the same key, with nonce 0; the index is used up and the
    handshake ended.  No lower index may fit the salt's MAC by accident. *)
Theorem link_handshake_agreement k i c epc epa cid aid (wc wc1 wa : hs_world P) :
  hs_ok wc → hs_ok wa → hs_room (stored_accessory (hs_this wa)) →
  handshake_index (stored_accessory (hs_this wa)) - 15 ≤ k ≤ handshake_index (stored_accessory (hs_this wa)) + 8 →
  ¬ hs_used (stored_accessory (hs_this wa)) k →
  first_idle wc i →
  nexus_channel_res_link_hs_link_mode_3 (challenge_of (hs_key wa) k) wc = Some (true, wc1) →
  clients (hs_this wc1) !! i = Some c →
  (∀ x, hs_candidate (hs_key wa) (hs_window (stored_accessory (hs_this wa))) (salt c) (mac_of (hs_link_key c) (salt c)) x → k ≤ x) →
  nexus_oc_wrapper_oc_endpoint_to_nx_id epc = Some cid → nx_id_ok cid →
  nexus_oc_wrapper_oc_endpoint_to_nx_id epa = Some aid → nx_id_ok aid →
  lm_has_room (hs_lm wa) cid CHANNEL_LINK_OPERATING_MODE_ACCESSORY →
  lm_has_room (hs_lm wc1) aid CHANNEL_LINK_OPERATING_MODE_CONTROLLER →
  ∃ mac wa1 wc2,
    nexus_channel_res_link_hs_server_post (hs_payload c) epc wa = Some (mk_hs_response OC_STATUS_CREATED (Some mac), wa1) ∧
    nexus_channel_res_link_hs_client_post (Some (hs_answer i epa mac)) wc1 = Some (tt, wc2) ∧
    pending_add_link (lm_this (hs_lm wa1)) = true ∧ pending_add_link (lm_this (hs_lm wc2)) = true ∧
    pending_link_to_create (lm_this (hs_lm wa1)) =
      new_link cid CHANNEL_LINK_OPERATING_MODE_ACCESSORY 0 (mk_mode0 (hs_link_key c) 0) ∧
    pending_link_to_create (lm_this (hs_lm wc2)) =
      new_link aid CHANNEL_LINK_OPERATING_MODE_CONTROLLER 0 (mk_mode0 (hs_link_key c) 0) ∧
    hs_ok wa1 ∧ hs_ok wc2 ∧ hs_used (stored_accessory (hs_this wa1)) k ∧ clients (hs_this wc2) !! i = Some client_zero.
Proof.
  intros Hokc Hoka Hroom Hk Hfresh Hidle Hstart Hc Hmin Hepc Hcid Hepa Haid Hra Hrc.
  pose proof (challenge_of_range (hs_key wa) k) as Hcr.
  destruct (link_mode_3_spec (challenge_of (hs_key wa) k) i wc Hokc ltac:(wrap) Hidle) as (c' & p & Hstart' & Hstarted & Hu).
  rewrite Hstart in Hstart'. injection Hstart' as ->.
  assert (Hi : (i < length (clients (hs_this (with_prod p wc))))%nat).
  { destruct Hidle as [(c0 & Hc0 & _) _]. by eapply lookup_lt_Some. }
  assert (c' = c) as ->.
  { cbn [with_client hs_this clients] in Hc. rewrite list_lookup_insert_eq in Hc by exact Hi. congruence. }
  set (wc1 := with_client i c (with_prod p wc)) in *.
  destruct Hstarted as [Hcok _ Hkey Hpay _].
  assert (Hokc1 : hs_ok wc1) by (apply with_client_ok; [by apply unnoticed_hs_ok|exact Hcok]).
  pose proof Hoka as (Hsha & Hlma & _). pose proof (client_key _ Hcok) as Hkok. pose proof (client_salt _ Hcok) as Hsok.
  set (mac0 := mac_of (hs_link_key c) (salt c)) in *.
  assert (Hmac0 : bytes_ok mac0 ∧ length mac0 = 8%nat) by (split; [apply mac_of_ok|apply mac_of_length]).
  destruct (parse_challenge (salt c) mac0 (activated wa) (activated_server_ok wa Hsha) Hsok (proj1 Hmac0) (proj2 Hmac0))
    as (s & Hparse & Hs & Hdata).
  change (with_server s (activated wa)) with (with_server s wa) in Hparse. rewrite <- Hpay in Hparse.
  assert (Hsalt : take 8 (chal_data s) = salt c) by (rewrite Hdata; rewrite <- (proj2 Hsok); apply take_app_length).
  assert (Hmac : drop 8 (chal_data s) = mac0) by (rewrite Hdata; rewrite <- (proj2 Hsok); apply drop_app_length).
  destruct (create_link_room cid CHANNEL_LINK_OPERATING_MODE_ACCESSORY (hs_link_key c) (hs_lm wa) Hlma Hcid Hkok Hra)
    as (lma & Hcra & Hpaa & Hpla).
  pose proof (server_post_accept (hs_payload c) epc cid s k true lma wa Hoka Hroom Hepc Hcid Hparse Hs) as Hpost.
  cbv zeta in Hpost. rewrite Hsalt, Hmac, <- Hkey in Hpost.
  destruct Hpost as (wa1 & Hpost & Hacc & Hthis).
  { split; [exact Hk|]. split; [intros Hr; apply Hfresh; by right|]. by rewrite <- Hkey. }
  { exact Hmin. }
  { exact Hcra. }
  destruct (create_link_room aid CHANNEL_LINK_OPERATING_MODE_CONTROLLER (hs_link_key c) (hs_lm wc1) (proj1 (proj2 Hokc1)) Haid Hkok Hrc)
    as (lmc & Hcrc & Hpac & Hplc).
  destruct (client_post_spec i c epa aid (mac_of (hs_link_key c) (inverted (salt c))) true lmc wc1 Hokc1 Hc Hepa Haid
    (mac_of_length _ _) Hcrc) as (wc2 & Hclient & Hres).
  rewrite bool_decide_true in Hres by reflexivity. cbn [andb] in Hres. destruct Hres as (Hokc2 & Hcl2 & _ & Hthis2).
  exists (mac_of (hs_link_key c) (inverted (salt c))), wa1, wc2. rewrite Hthis, Hthis2.
  split_and!; try assumption.
  - apply Hacc.
  - apply (accepted_hs_used _ _ _ Hacc). auto.
  - rewrite Hcl2. apply list_lookup_insert_eq. by eapply lookup_lt_Some.
Qed.

(** C15: over any sequence of requests and processing, the handshakes that
    created links are all different, none was used before, and none is
    accepted again: a recorded request creates no second link. *)
Theorem hs_no_replay (w w' : hs_world P) ks :
  hs_run w ks w' → hs_ok w → 15 ≤ handshake_index (stored_accessory (hs_this w)) →
  handshake_index (stored_accessory (hs_this w)) + 8 * Z.of_nat (length ks) + 17 < 4294967296 →
  NoDup ks ∧ ∀ k, k ∈ ks → ¬ hs_used (stored_accessory (hs_this w)) k ∧ ∀ reps, ¬ hs_matched reps w' k.
Proof.
  intros Hrun Hok H15 Hlim. destruct (hs_run_spec w w' ks Hrun Hok H15 Hlim) as (_ & _ & Hnd & _ & Hids).
  split; [exact Hnd|]. intros k Hin. destruct (Hids k Hin) as [Hnew Hused]. split; [exact Hnew|].
  intros reps (s & _ & (Hrange & Hn & _) & _).
  change (handshake_index (stored_accessory (hs_this w')) - 15 ≤ k ≤ handshake_index (stored_accessory (hs_this w')) + 8) in Hrange.
  destruct Hused as [?|?]; [lia|done].
Qed.

(** every request is answered: either with 2.01 after the link was handed
    to the link manager and one unused handshake index used up, or with 4.00,
    and then nothing but the handshake resource's own state has changed. *)
Theorem hs_post_returns reps ep (w : hs_world P) :
  hs_ok w → hs_room (stored_accessory (hs_this w)) → payload_ok reps → endpoint_ok ep →
  ∃ r w', nexus_channel_res_link_hs_server_post reps ep w = Some (r, w') ∧ hs_ok w' ∧
    ((r = refused ∧ w' = with_server server_zero w) ∨
     (rsp_status r = OC_STATUS_CREATED ∧ ∃ k, hs_matched reps w k ∧ hs_accepted w w' k)).
Proof.
  intros Hok Hroom Hp Hep. destruct (server_post_cases reps ep w Hok Hroom Hp Hep) as (r & w' & Hrun & Hok' & Hcase).
  exists r, w'. split; [exact Hrun|]. split; [exact Hok'|]. destruct Hcase as [?|(Hst & k & Hk & _ & Hacc)]; [by left|right].
  split; [exact Hst|]. by exists k.
Qed.

(** the controller's handler does not ask whether its handshake is still
    going on.  When the handshake has ended its key and salt are zero, so an
    answer from any device with the MAC of eight 0xFF bytes under the zero key creates
    a link to that device whose key everyone knows. *)
Theorem hs_zero_key_link i ep aid (w : hs_world P) :
  hs_ok w → clients (hs_this w) !! i = Some client_zero →
  nexus_oc_wrapper_oc_endpoint_to_nx_id ep = Some aid → nx_id_ok aid →
  lm_has_room (hs_lm w) aid CHANNEL_LINK_OPERATING_MODE_CONTROLLER →
  ∃ w', nexus_channel_res_link_hs_client_post
      (Some (hs_answer i ep (mac_of (replicate 16 0) (replicate 8 255)))) w = Some (tt, w') ∧
    pending_add_link (lm_this (hs_lm w')) = true ∧
    pending_link_to_create (lm_this (hs_lm w')) =
      new_link aid CHANNEL_LINK_OPERATING_MODE_CONTROLLER 0 (mk_mode0 (replicate 16 0) 0).
Proof.
  intros Hok Hc Hep Haid Hroom. pose proof (client_key _ client_zero_ok) as Hkey.
  destruct (create_link_room aid CHANNEL_LINK_OPERATING_MODE_CONTROLLER (replicate 16 0) (hs_lm w) (proj1 (proj2 Hok)) Haid Hkey Hroom)
    as (lm1 & Hcr & Hpa & Hpl).
  destruct (client_post_spec i client_zero ep aid (mac_of (replicate 16 0) (replicate 8 255)) true lm1 w Hok Hc Hep Haid
    (mac_of_length _ _) Hcr) as (w' & Hrun & Hres).
  change (inverted (salt client_zero)) with (replicate 8 255) in Hres.
  rewrite bool_decide_true in Hres by reflexivity. cbn [andb] in Hres. destruct Hres as (_ & _ & _ & Hthis).
  exists w'. by rewrite Hthis.
Qed.
End HsRun.
