(* ===== verification/ChannelCore.v ===== *)
(** * The Nexus Channel core (nexus_channel_core.c)

    The state of the modules of a controller together: the origin manager, the
    link handshake, and the link manager with the product.  The core hands
    origin commands to the modules; its initialisation and processing are in
    ChannelUnit, with the PAYG credit resource. *)





From S2P Require Import Prelude Window Check NvBlock Product DesktopProduct Nv Channel ChannelEndpoint ChannelOm ChannelOmApply.
From S2P Require Import ChannelLm ChannelLmSpec ChannelLmProcess ChannelLmTable ChannelLmCreate ChannelLmRun ChannelHs ChannelHsServer.
From S2P Require Import ChannelHsClient ChannelHsRun.
Local Open Scope Z_scope.

Record channel_world (P : Type) := mk_channel_world { ch_om : nexus_om_stored; ch_hs : hs_world P }.
Arguments mk_channel_world {P} _ _.
Arguments ch_om {P} _.
Arguments ch_hs {P} _.

Section Core.
Context {P : Type} `{Product P} `{!ChannelProduct P} `{!OcStack P} `{ChannelConfig}.

Definition ch_on_hs {A} (m : M (hs_world P) A) : M (channel_world P) A :=
  zoom ch_hs (λ h w, {| w with ch_hs := h |}) m.
Definition ch_on_lm {A} (m : M (lm_world P) A) : M (channel_world P) A := ch_on_hs (hs_on_lm m).

Definition _nexus_channel_core_apply_origin_command_generic_controller_action (action_body : Z) : M (channel_world P) bool :=
  if action_body =? NEXUS_CHANNEL_ORIGIN_COMMAND_UNLINK_ALL_LINKED_ACCESSORIES
  then ch_on_lm nexus_channel_link_manager_clear_all_links;; mret true
  else mret false.

Definition nexus_channel_core_apply_origin_command (om_message : nexus_channel_om_command_message) : M (channel_world P) bool :=
  match om_type om_message with
  | NEXUS_CHANNEL_OM_COMMAND_TYPE_CREATE_ACCESSORY_LINK_MODE_3 =>
    ch_on_hs (nexus_channel_res_link_hs_link_mode_3 (accessory_challenge (om_body om_message)))
  | NEXUS_CHANNEL_OM_COMMAND_TYPE_GENERIC_CONTROLLER_ACTION =>
    _nexus_channel_core_apply_origin_command_generic_controller_action (action_type (om_body om_message))
  | NEXUS_CHANNEL_OM_COMMAND_TYPE_ACCESSORY_ACTION_UNLOCK => mret false
  | NEXUS_CHANNEL_OM_COMMAND_TYPE_ACCESSORY_ACTION_UNLINK => mret false
  | NEXUS_CHANNEL_OM_COMMAND_TYPE_INVALID => mret false
  end.

(** The core is the environment of the origin manager. *)
#[export] Instance channel_om_env : OmEnv (channel_world P) P := {|
  om_stored := ch_om;
  om_set_stored := λ st w, {| w with ch_om := st |};
  om_prod := λ w, lm_prod (hs_lm (ch_hs w));
  om_set_prod := λ p w, let h := ch_hs w in let l := hs_lm h in
    {| w with ch_hs := {| h with hs_lm := {| l with lm_prod := p |} |} |};
  nexus_channel_core_apply_origin_command_env := nexus_channel_core_apply_origin_command
|}.
End Core.

Section CoreSpec.
Context {P : Type} `{HP : ProductLaws P} `{!ReliableNv P} `{!ChannelProduct P} `{!ChannelProductLaws P}
  `{HC : ChannelConfigOk} `{!OcStack P} `{!OcStackLaws P}.

Lemma ch_on_hs_at {A} (m : M (hs_world P) A) x h (w : channel_world P) :
  m (ch_hs w) = Some (x, h) → ch_on_hs m w = Some (x, {| w with ch_hs := h |}).
Proof. intros Hm. unfold ch_on_hs, zoom. by rewrite Hm. Qed.

Lemma clear_all_spec (w : lm_world P) :
  lm_ok w →
  ∃ w', nexus_channel_link_manager_clear_all_links w = Some (tt, w') ∧ lm_ok w' ∧ unnoticed (lm_prod w) (lm_prod w') ∧
    pending_clear_all_links (lm_this w') = true.
Proof.
  intros Hok. destruct (exec1_ok lm_clear_all w I Hok) as (w' & Hrun & Hok' & _). exists w'. split; [exact Hrun|]. split; [exact Hok'|].
  cbn [lm_exec1] in Hrun. unfold nexus_channel_link_manager_clear_all_links, lm_modify, lm_on_prod, request_processing in Hrun.
  revert Hrun. mstep. intros Hrun. injection Hrun as <-. split; [apply request_unnoticed|done].
Qed.

(** The core's handling of any message the origin manager hands over. *)
Lemma core_apply_spec m (w : channel_world P) :
  om_message_ok m → hs_ok (ch_hs w) →
  ∃ b h, nexus_channel_core_apply_origin_command m w = Some (b, {| w with ch_hs := h |}) ∧ hs_ok h ∧
    unnoticed (hs_prod (ch_hs w)) (hs_prod h) ∧ stored_accessory (hs_this h) = stored_accessory (hs_this (ch_hs w)).
Proof.
  intros (_ & Hch & _) Hok.
  assert (Hno : ∃ b h, (mret false : M (channel_world P) bool) w = Some (b, {| w with ch_hs := h |}) ∧ hs_ok h ∧
    unnoticed (hs_prod (ch_hs w)) (hs_prod h) ∧ stored_accessory (hs_this h) = stored_accessory (hs_this (ch_hs w))).
  { exists false, (ch_hs w). by destruct w. }
  unfold nexus_channel_core_apply_origin_command. destruct (om_type m); try exact Hno.
  - unfold _nexus_channel_core_apply_origin_command_generic_controller_action. destruct (_ =? _); [|exact Hno].
    destruct (clear_all_spec (hs_lm (ch_hs w)) (proj1 (proj2 Hok))) as (l & Hrun & Hl & Hu & _).
    set (h := mk_hs_world (hs_this (ch_hs w)) l).
    assert (Hrun' : ch_on_lm nexus_channel_link_manager_clear_all_links w = Some (tt, {| w with ch_hs := h |})).
    { apply ch_on_hs_at. unfold hs_on_lm, zoom. by rewrite Hrun. }
    rewrite (bind_Some _ _ _ _ _ Hrun'). exists true, h. split; [done|]. split; [|by split].
    destruct Hok as (Hsh & _ & Hsv). split; [exact Hsh|]. split; [exact Hl|]. unfold hs_saved_ok in *.
    change (hs_prod h) with (lm_prod l). by rewrite (nv_stored_proper _ _ _ (unnoticed_nv _ _ Hu)).
  - destruct (idle_cases _ Hok) as [(i & Hidle)|Hbusy].
    + destruct (link_mode_3_spec _ i _ Hok Hch Hidle) as (c & p & Hrun & Hst & Hu).
      exists true. eexists. split; [by apply ch_on_hs_at|]. split; [|by split].
      apply with_client_ok; [by apply unnoticed_hs_ok|by destruct Hst].
    + exists false, (ch_hs w). split; [|by split]. apply ch_on_hs_at. by apply link_mode_3_busy.
Qed.

#[export] Instance channel_om_env_laws : OmEnvLaws (channel_world P) P.
Proof.
  refine {| om_env_ok w := hs_ok (ch_hs w) |}; try done.
  - intros w. by destruct w.
  - intros w. by destruct w as [? [? []]].
  - intros inner p w (Hsh & Hlm & Hsv) Hup. split; [exact Hsh|]. split.
    + apply lm_ok_on_that; [exact Hlm|]. intros j Hj. unfold saved. rewrite (updated_other _ _ _ _ Hup); [done|].
      cbn [block_id NX_NV_BLOCK_CHANNEL_LM_LINK NX_NV_BLOCK_CHANNEL_OM]. lia.
    + unfold hs_saved_ok in *. change (hs_prod _) with p. rewrite (updated_other _ _ _ _ Hup); [exact Hsv|]. vm_compute. congruence.
  - intros m w Hm Hok. destruct (core_apply_spec m w Hm Hok) as (b & h & Hrun & Hh & Hu & _).
    exists b. eexists. split; [exact Hrun|]. split; [exact Hh|]. split; [done|].
    split; [exact (nv_stored_proper _ _ _ (unnoticed_nv _ _ Hu))|exact (unnoticed_key _ _ Hu)].
Defined.
End CoreSpec.
