(* ===== verification/Cbor.v ===== *)
(** * CBOR as the bundled tinycbor reads it (oc/deps/tinycbor/src/cborparser.c,
    cbor.h, cborinternal_p.h)

    The part of the parser the COSE module calls.  Positions are offsets into
    the buffer.  A run ends with a value, or [Aborted] at a failed assert, or
    [Stuck] when it would read or write outside an array; [Stuck] also stands
    for a loop that runs out of turns.  [size_t] has 64 bits. *)

From S2P Require Import Prelude.
Local Open Scope Z_scope.
Local Open Scope c_scope.

(** ** Runs *)

Inductive run (A : Type) := Done (a : A) | Aborted | Stuck.
Arguments Done {A} _.
Arguments Aborted {A}.
Arguments Stuck {A}.

#[export] Instance run_ret : MRet run := λ A a, Done a.
#[export] Instance run_bind : MBind run := λ A B f r,
  match r with Done a => f a | Aborted => Aborted | Stuck => Stuck end.

Definition defined {A} (o : option A) : run A := match o with Some a => Done a | None => Stuck end.
Definition cbor_assert (b : bool) : run unit := if b then Done tt else Aborted.

(** ** Constants *)

Definition CborIntegerType : Z := 0x00.
Definition CborByteStringType : Z := 0x40.
Definition CborTextStringType : Z := 0x60.
Definition CborArrayType : Z := 0x80.
Definition CborMapType : Z := 0xa0.
Definition CborTagType : Z := 0xc0.
Definition CborSimpleType : Z := 0xe0.
Definition CborBooleanType : Z := 0xf5.
Definition CborInvalidType : Z := 0xff.

Definition SmallValueMask : Z := 31.
Definition MajorTypeMask : Z := 0xe0.
Definition MajorTypeShift : Z := 5.
Definition Value8Bit : Z := 24.
Definition Value16Bit : Z := 25.
Definition Value32Bit : Z := 26.
Definition Value64Bit : Z := 27.
Definition IndefiniteLength : Z := 31.
Definition BreakByte : Z := 0xff.

Definition CborIteratorFlag_IntegerValueTooLarge : Z := 0x01.
Definition CborIteratorFlag_NegativeInteger : Z := 0x02.
Definition CborIteratorFlag_IteratingStringChunks : Z := 0x02.
Definition CborIteratorFlag_UnknownLength : Z := 0x04.
Definition CborIteratorFlag_ContainerIsMap : Z := 0x20.
Definition CborIteratorFlag_NextIsMapKey : Z := 0x40.

Definition SIZE_MAX : Z := 18446744073709551615.
Definition CBOR_PARSER_MAX_RECURSIONS : nat := 1024.

Inductive CborError :=
| CborNoError
| CborErrorUnknownLength
| CborErrorAdvancePastEOF
| CborErrorUnexpectedEOF
| CborErrorUnexpectedBreak
| CborErrorUnknownType
| CborErrorIllegalType
| CborErrorIllegalNumber
| CborErrorIllegalSimpleType
| CborErrorTooManyItems
| CborErrorTooFewItems
| CborErrorDataTooLarge
| CborErrorNestingTooDeep
| CborErrorOutOfMemory.

#[export] Instance cbor_error_eq_dec : EqDecision CborError.
Proof. solve_decision. Defined.

(** Whether a call failed. *)
Definition failed (err : CborError) : bool := bool_decide (err ≠ CborNoError).

(** ** Values *)

(** The parser: the buffer, and the offset of its end. *)
Record CborParser := mk_cbor_parser { cp_buffer : list Z; cp_end : Z }.

Record CborValue := mk_cbor_value {
  cv_ptr : Z;
  cv_remaining : Z;
  cv_extra : Z;
  cv_type : Z;
  cv_flags : Z
}.

Definition has_flag (it : CborValue) (flag : Z) : bool := negb (cv_flags it .& flag =? 0).

Definition cbor_value_at_end (it : CborValue) : bool := cv_remaining it =? 0.
Definition cbor_value_is_container (it : CborValue) : bool := (cv_type it =? CborArrayType) || (cv_type it =? CborMapType).
Definition cbor_value_is_integer (it : CborValue) : bool := cv_type it =? CborIntegerType.
Definition cbor_value_is_unsigned_integer (it : CborValue) : bool :=
  cbor_value_is_integer it && negb (has_flag it CborIteratorFlag_NegativeInteger).
Definition cbor_value_is_byte_string (it : CborValue) : bool := cv_type it =? CborByteStringType.
Definition cbor_value_is_text_string (it : CborValue) : bool := cv_type it =? CborTextStringType.
Definition cbor_value_is_array (it : CborValue) : bool := cv_type it =? CborArrayType.
Definition cbor_value_is_map (it : CborValue) : bool := cv_type it =? CborMapType.
Definition cbor_value_is_length_known (it : CborValue) : bool := negb (has_flag it CborIteratorFlag_UnknownLength).

Section Parser.
Variable parser : CborParser.

(** The bytes at [ptr] as a number, swapped to the host's order. *)
Definition get_big_endian (n : nat) (ptr : Z) : run Z :=
  bs ← defined (slice (cp_buffer parser) (Z.to_nat ptr) n);
  Done (le_val (rev bs)).
Definition get16 : Z → run Z := get_big_endian 2.
Definition get32 : Z → run Z := get_big_endian 4.
Definition get64 : Z → run Z := get_big_endian 8.

Definition byte_at (ptr : Z) : run Z := defined (aget (cp_buffer parser) ptr).

(** Gives the error, the new position, and the number. *)
Definition _cbor_value_extract_number (ptr : Z) : run (CborError * Z * Z) :=
  d ← byte_at ptr;
  let additional_information := d .& SmallValueMask in
  let ptr := ptr + 1 in
  if additional_information <? Value8Bit then Done (CborNoError, ptr, additional_information)
  else if Value64Bit <? additional_information then Done (CborErrorIllegalNumber, ptr, 0)
  else
    let bytesNeeded := 1 ≪ (additional_information - Value8Bit) in
    if cp_end parser - ptr <? bytesNeeded then Done (CborErrorUnexpectedEOF, ptr, 0)
    else
      len ← (if bytesNeeded =? 1 then byte_at ptr
             else if bytesNeeded =? 2 then get16 ptr
             else if bytesNeeded =? 4 then get32 ptr
             else get64 ptr);
      Done (CborNoError, ptr + bytesNeeded, len).

Definition extract_length (ptr : Z) : run (CborError * Z * Z) :=
  '(err, ptr, v) ← _cbor_value_extract_number ptr;
  if failed err then Done (err, ptr, 0)
  else
    let len := u64 v in
    if negb (v =? len) then Done (CborErrorDataTooLarge, ptr, len) else Done (CborNoError, ptr, len).

Definition is_fixed_type (type : Z) : bool :=
  negb (type =? CborTextStringType) && negb (type =? CborByteStringType) &&
  negb (type =? CborArrayType) && negb (type =? CborMapType).

Definition preparse_value (it : CborValue) : run (CborError * CborValue) :=
  let it := {| it with cv_type := CborInvalidType |} in
  if cv_ptr it =? cp_end parser then Done (CborErrorUnexpectedEOF, it)
  else
    first ← byte_at (cv_ptr it);
    let type := first .& MajorTypeMask in
    let descriptor := first .& SmallValueMask in
    let flags := cv_flags it .& (CborIteratorFlag_ContainerIsMap .| CborIteratorFlag_NextIsMapKey) in
    let it := mk_cbor_value (cv_ptr it) (cv_remaining it) descriptor type flags in
    if Value64Bit <? descriptor then
      if negb (descriptor =? IndefiniteLength) then
        Done (if type =? CborSimpleType then CborErrorUnknownType else CborErrorIllegalNumber, it)
      else if negb (is_fixed_type type) then
        Done (CborNoError, {| it with cv_flags := flags .| CborIteratorFlag_UnknownLength |})
      else Done (if type =? CborSimpleType then CborErrorUnexpectedBreak else CborErrorIllegalNumber, it)
    else
      let bytesNeeded := if descriptor <? Value8Bit then 0 else 1 ≪ (descriptor - Value8Bit) in
      if cp_end parser - cv_ptr it <? bytesNeeded + 1 then Done (CborErrorUnexpectedEOF, it)
      else
        let majortype := type ≫ MajorTypeShift in
        if majortype =? 7 then
          if descriptor =? 20 then
            Done (CborNoError, mk_cbor_value (cv_ptr it) (cv_remaining it) 0 CborBooleanType flags)
          else if (descriptor =? 26) || (descriptor =? 27) then
            Done (CborNoError, mk_cbor_value (cv_ptr it) (cv_remaining it) descriptor first
                                 (flags .| CborIteratorFlag_IntegerValueTooLarge))
          else if (descriptor =? 21) || (descriptor =? 22) || (descriptor =? 23) || (descriptor =? 25) then
            Done (CborNoError, {| it with cv_type := first |})
          else if descriptor =? 24 then
            extra ← byte_at (cv_ptr it + 1);
            if extra <? 32
            then Done (CborErrorIllegalSimpleType, mk_cbor_value (cv_ptr it) (cv_remaining it) extra CborInvalidType flags)
            else Done (CborNoError, {| it with cv_extra := extra |})
          else cbor_assert false;; Done (CborErrorUnexpectedBreak, it)
        else
          let flags := if majortype =? 1 then flags .| CborIteratorFlag_NegativeInteger else flags in
          let type := if majortype =? 1 then CborIntegerType else type in
          let it := mk_cbor_value (cv_ptr it) (cv_remaining it) descriptor type flags in
          if descriptor <? Value8Bit then Done (CborNoError, it)
          else if descriptor =? Value8Bit then
            extra ← byte_at (cv_ptr it + 1); Done (CborNoError, {| it with cv_extra := extra |})
          else if descriptor =? Value16Bit then
            extra ← get16 (cv_ptr it + 1); Done (CborNoError, {| it with cv_extra := extra |})
          else Done (CborNoError, {| it with cv_flags := flags .| CborIteratorFlag_IntegerValueTooLarge |}).

Definition preparse_next_value_nodecrement (it : CborValue) : run (CborError * CborValue) :=
  at_break ← (if (cv_remaining it =? UINT32_MAX) && negb (cv_ptr it =? cp_end parser)
              then b ← byte_at (cv_ptr it); Done (b =? BreakByte) else Done false);
  if at_break : bool then
    if (has_flag it CborIteratorFlag_ContainerIsMap && has_flag it CborIteratorFlag_NextIsMapKey)
       || (cv_type it =? CborTagType)
    then Done (CborErrorUnexpectedBreak, it)
    else Done (CborNoError, mk_cbor_value (cv_ptr it + 1) 0 (cv_extra it) CborInvalidType (cv_flags it))
  else preparse_value it.

Definition preparse_next_value (it : CborValue) : run (CborError * CborValue) :=
  let itemCounts := negb (cv_type it =? CborTagType) in
  let counted := itemCounts && negb (cv_remaining it =? UINT32_MAX) in
  let it := if counted then {| it with cv_remaining := u32 (cv_remaining it - 1) |} else it in
  if counted && (cv_remaining it =? 0) then Done (CborNoError, {| it with cv_type := CborInvalidType |})
  else
    let it := if itemCounts then {| it with cv_flags := cv_flags it .^ CborIteratorFlag_NextIsMapKey |} else it in
    preparse_next_value_nodecrement it.

Definition advance_internal (it : CborValue) : run (CborError * CborValue) :=
  '(err, ptr, length) ← _cbor_value_extract_number (cv_ptr it);
  cbor_assert (negb (failed err));;
  let it := {| it with cv_ptr := ptr |} in
  if cbor_value_is_byte_string it || cbor_value_is_text_string it then
    cbor_assert (cbor_value_is_length_known it);;
    preparse_next_value {| it with cv_ptr := ptr + length |}
  else preparse_next_value it.

Definition _cbor_value_decode_int64_internal (value : CborValue) : run Z :=
  d ← byte_at (cv_ptr value);
  cbor_assert ((d .& SmallValueMask =? Value32Bit) || (d .& SmallValueMask =? Value64Bit));;
  if d .& 1 =? Value32Bit .& 1 then get32 (cv_ptr value + 1) else get64 (cv_ptr value + 1).

Definition _cbor_value_extract_int64_helper (value : CborValue) : run Z :=
  if has_flag value CborIteratorFlag_IntegerValueTooLarge
  then _cbor_value_decode_int64_internal value
  else Done (cv_extra value).

Definition cbor_parser_init : run (CborError * CborValue) := preparse_value (mk_cbor_value 0 1 0 0 0).

(** ** Lengths *)

(** The length of a string, an array or a map. *)
Definition get_length (value : CborValue) : run (CborError * Z) :=
  if negb (cbor_value_is_length_known value) then Done (CborErrorUnknownLength, 0)
  else
    v ← _cbor_value_extract_int64_helper value;
    let length := u64 v in
    Done (if negb (length =? v) then CborErrorDataTooLarge else CborNoError, length).

Definition cbor_value_get_string_length (value : CborValue) : run (CborError * Z) :=
  cbor_assert (cbor_value_is_byte_string value || cbor_value_is_text_string value);; get_length value.
Definition cbor_value_get_array_length (value : CborValue) : run (CborError * Z) :=
  cbor_assert (cbor_value_is_array value);; get_length value.
Definition cbor_value_get_map_length (value : CborValue) : run (CborError * Z) :=
  cbor_assert (cbor_value_is_map value);; get_length value.
Definition cbor_value_get_uint64 (value : CborValue) : run Z :=
  cbor_assert (cbor_value_is_unsigned_integer value);; _cbor_value_extract_int64_helper value.

(** ** Containers *)

Definition cbor_value_enter_container (it : CborValue) : run (CborError * CborValue) :=
  cbor_assert (cbor_value_is_container it);;
  if has_flag it CborIteratorFlag_UnknownLength then
    preparse_next_value_nodecrement
      (mk_cbor_value (cv_ptr it + 1) UINT32_MAX (cv_extra it) (cv_type it) (cv_type it .& CborIteratorFlag_ContainerIsMap))
  else
    '(err, ptr, len) ← _cbor_value_extract_number (cv_ptr it);
    cbor_assert (negb (failed err));;
    let remaining := u32 len in
    if negb (remaining =? len) || (len =? UINT32_MAX)
    then Done (CborErrorDataTooLarge, {| it with cv_remaining := remaining |})
    else if (cv_type it =? CborMapType) && (UINT32_MAX / 2 <? remaining)
    then Done (CborErrorDataTooLarge, {| it with cv_remaining := remaining |})
    else
      let remaining := if cv_type it =? CborMapType then u32 (remaining * 2) else remaining in
      if len =? 0 then Done (CborNoError, mk_cbor_value ptr remaining (cv_extra it) CborInvalidType (cv_flags it))
      else
        preparse_next_value_nodecrement
          (mk_cbor_value ptr remaining (cv_extra it) (cv_type it) (cv_type it .& CborIteratorFlag_ContainerIsMap)).

Definition cbor_value_leave_container (it recursed : CborValue) : run (CborError * CborValue) :=
  cbor_assert (cbor_value_is_container it);;
  cbor_assert (cv_type recursed =? CborInvalidType);;
  preparse_next_value {| it with cv_ptr := cv_ptr recursed |}.

(** ** Strings *)

Definition prepare_string_iteration (it : CborValue) : CborValue :=
  if negb (cbor_value_is_length_known it)
  then mk_cbor_value (cv_ptr it + 1) (cv_remaining it) (cv_extra it) (cv_type it)
         (cv_flags it .| CborIteratorFlag_IteratingStringChunks)
  else it.

(** Gives the chunk as position and length, or [None] after the last. *)
Definition get_string_chunk (it : CborValue) : run (CborError * option (Z * Z) * CborValue) :=
  let last_chunk it := ('(err, it) ← preparse_next_value it; Done (err, None, it)) in
  if has_flag it CborIteratorFlag_IteratingStringChunks && cbor_value_is_length_known it then last_chunk it
  else
    let it := if has_flag it CborIteratorFlag_IteratingStringChunks then it else prepare_string_iteration it in
    if cv_ptr it =? cp_end parser then Done (CborErrorUnexpectedEOF, None, it)
    else
      b ← byte_at (cv_ptr it);
      if b =? BreakByte then last_chunk {| it with cv_ptr := cv_ptr it + 1 |}
      else if b .& MajorTypeMask =? cv_type it then
        '(err, ptr, len) ← extract_length (cv_ptr it);
        if failed err then Done (err, None, {| it with cv_ptr := ptr |})
        else if cp_end parser - ptr <? len then Done (CborErrorUnexpectedEOF, None, {| it with cv_ptr := ptr |})
        else Done (CborNoError, Some (ptr, len),
               mk_cbor_value (ptr + len) (cv_remaining it) (cv_extra it) (cv_type it)
                 (cv_flags it .| CborIteratorFlag_IteratingStringChunks))
      else Done (CborErrorIllegalType, None, it).

(** The calls of [iterate_memcpy] and [iterate_noop]: a destination of [None]
    is the null pointer, for which nothing is copied. *)
Definition iterate_copy (dest : option (list Z)) (off : Z) (src : list Z) : run (option (list Z)) :=
  match dest with
  | None => Done None
  | Some d => d ← defined (memcpy_at d (Z.to_nat off) src); Done (Some d)
  end.

(** The loop over the chunks: error, whether all was copied, destination,
    total length, next value. *)
Fixpoint string_chunks_loop (fuel : nat) (next : CborValue) (dest : option (list Z)) (buflen total : Z) (result : bool)
    : run (CborError * bool * option (list Z) * Z * CborValue) :=
  match fuel with
  | O => Stuck
  | S fuel =>
    '(err, chunk, next) ← get_string_chunk next;
    if failed err then Done (err, result, dest, total, next)
    else
      match chunk with
      | None => Done (CborNoError, result, dest, total, next)
      | Some (ptr, chunkLen) =>
        let newTotal := u64 (total + chunkLen) in
        if SIZE_MAX <? total + chunkLen then Done (CborErrorDataTooLarge, result, dest, total, next)
        else if (result : bool) && (newTotal <=? buflen) then
          src ← defined (slice (cp_buffer parser) (Z.to_nat ptr) (Z.to_nat chunkLen));
          dest ← iterate_copy dest total src;
          string_chunks_loop fuel next dest buflen newTotal true
        else string_chunks_loop fuel next dest buflen newTotal false
      end
  end.

(** One turn for every byte is enough. *)
Definition enough_fuel : nat := S (S (Z.to_nat (cp_end parser))).

Definition iterate_string_chunks (value : CborValue) (dest : option (list Z)) (buflen : Z)
    : run (CborError * bool * option (list Z) * Z * CborValue) :=
  cbor_assert (cbor_value_is_byte_string value || cbor_value_is_text_string value);;
  '(err, result, dest, total, next) ← string_chunks_loop enough_fuel value dest buflen 0 true;
  if failed err then Done (err, result, dest, buflen, next)
  else
    dest ← (if (result : bool) && (total <? buflen) then iterate_copy dest total [0] else Done dest);
    Done (CborNoError, result, dest, total, next).

(** Gives the error, the destination, the length, and the next value. *)
Definition _cbor_value_copy_string (value : CborValue) (dest : option (list Z)) (buflen : Z)
    : run (CborError * option (list Z) * Z * CborValue) :=
  '(err, copied_all, dest, len, next) ← iterate_string_chunks value dest buflen;
  Done (if failed err then err else if (copied_all : bool) then CborNoError else CborErrorOutOfMemory, dest, len, next).

Definition cbor_value_copy_byte_string (value : CborValue) (dest : list Z) (buflen : Z)
    : run (CborError * list Z * Z * CborValue) :=
  cbor_assert (cbor_value_is_byte_string value);;
  '(err, dest', len, next) ← _cbor_value_copy_string value (Some dest) buflen;
  Done (err, default dest dest', len, next).

Definition cbor_value_calculate_string_length (value : CborValue) : run (CborError * Z) :=
  '(err, _, len, _) ← _cbor_value_copy_string value None SIZE_MAX; Done (err, len).

(** ** Advancing *)

Fixpoint advance_loop (step : CborValue → run (CborError * CborValue)) (fuel : nat) (recursed : CborValue)
    : run (CborError * CborValue) :=
  match fuel with
  | O => Stuck
  | S fuel =>
    if cbor_value_at_end recursed then Done (CborNoError, recursed)
    else
      '(err, recursed) ← step recursed;
      if failed err then Done (err, recursed) else advance_loop step fuel recursed
  end.

Fixpoint advance_recursive (nestingLevel : nat) (it : CborValue) : run (CborError * CborValue) :=
  if is_fixed_type (cv_type it) then advance_internal it
  else if negb (cbor_value_is_container it) then
    '(err, _, _, next) ← _cbor_value_copy_string it None SIZE_MAX; Done (err, next)
  else
    match nestingLevel with
    | O => Done (CborErrorNestingTooDeep, it)
    | S nestingLevel =>
      '(err, recursed) ← cbor_value_enter_container it;
      if failed err then Done (err, it)
      else
        '(err, recursed) ← advance_loop (advance_recursive nestingLevel) enough_fuel recursed;
        if failed err then Done (err, it) else cbor_value_leave_container it recursed
    end.

Definition cbor_value_advance (it : CborValue) : run (CborError * CborValue) :=
  cbor_assert (negb (cv_type it =? CborInvalidType));;
  if cv_remaining it =? 0 then Done (CborErrorAdvancePastEOF, it)
  else advance_recursive CBOR_PARSER_MAX_RECURSIONS it.
End Parser.
