(* ===== verification/CborSafe.v ===== *)
(** * CBOR: the parser stays inside its buffer and ends

    Every operation on a well-formed value, on any bytes: it never gets stuck,
    and unless it reports an error it leaves a well-formed value further on. *)

From S2P Require Import Prelude Cbor.
Local Open Scope Z_scope.
Local Open Scope c_scope.

(** A run that does not get stuck, and ends in [Q] if it ends with a value. *)
Definition safe {A} (Q : A → Prop) (r : run A) : Prop :=
  match r with Done a => Q a | Aborted => True | Stuck => False end.

Lemma safe_bind {A B} (P : A → Prop) (Q : B → Prop) (r : run A) (f : A → run B) :
  safe P r → (∀ a, P a → safe Q (f a)) → safe Q (r ≫= f).
Proof. destruct r; cbn; auto. Qed.

Lemma safe_mono {A} (P Q : A → Prop) (r : run A) : safe P r → (∀ a, P a → Q a) → safe Q r.
Proof. destruct r; cbn; auto. Qed.

Lemma safe_assert {B} (Q : B → Prop) b (k : run B) : (b = true → safe Q k) → safe Q (cbor_assert b;; k).
Proof. destruct b; cbn; auto. Qed.

Lemma failed_spec err : failed err = false ↔ err = CborNoError.
Proof. unfold failed. case_bool_decide; split; congruence || done. Qed.

(** ** Bits of bytes and flags *)

Lemma kept_flags x :
  let f := x .& (CborIteratorFlag_ContainerIsMap .| CborIteratorFlag_NextIsMapKey) in f = 0 ∨ f = 32 ∨ f = 64 ∨ f = 96.
Proof.
  cbv zeta. change (CborIteratorFlag_ContainerIsMap .| CborIteratorFlag_NextIsMapKey) with (Z.ones 7 .& 96).
  rewrite Z.land_assoc, land_ones_mod by lia. change (2 ^ 7) with 128.
  pose proof (seqZ_forallb (λ y, let f := y .& 96 in (f =? 0) || (f =? 32) || (f =? 64) || (f =? 96)) 0 128
    ltac:(vm_compute; reflexivity) (x mod 128) ltac:(lia)) as Hall.
  cbv zeta in Hall. rewrite !orb_true_iff, !Z.eqb_eq in Hall. tauto.
Qed.

Lemma small_mod d : d .& SmallValueMask = d mod 32.
Proof. change SmallValueMask with (Z.ones 5). by rewrite land_ones_mod by lia. Qed.

Lemma major_div d : is_u8 d → d .& MajorTypeMask = 32 * (d / 32).
Proof.
  intros Hd. apply Z.eqb_eq, (byte_forallb (λ d, d .& MajorTypeMask =? 32 * (d / 32))); [vm_compute; reflexivity|done].
Qed.

Section Safe.
Context (parser : CborParser) (Hend : 0 ≤ cp_end parser ≤ Z.of_nat (length (cp_buffer parser)))
  (Hbytes : bytes_ok (cp_buffer parser)) (Hsize : cp_end parser < SIZE_MAX).

(** ** Well-formed values *)

(** The value at hand has a first byte, the bytes of its number if that is too
    large for [extra], and is not in the middle of a string. *)
Record value_head (it : CborValue) : Prop := mk_value_head {
  head_in : 0 ≤ cv_ptr it < cp_end parser;
  head_large : has_flag it CborIteratorFlag_IntegerValueTooLarge = true → ∀ d, cp_buffer parser !! Z.to_nat (cv_ptr it) = Some d →
    d mod 32 ≤ 27 ∧ cv_ptr it + (if d mod 32 <? 24 then 0 else 2 ^ (d mod 32 - 24)) < cp_end parser;
  head_extra : 0 ≤ cv_extra it;
  head_start : cbor_value_is_byte_string it || cbor_value_is_text_string it = true →
    has_flag it CborIteratorFlag_IteratingStringChunks = false
}.

Record value_ok (it : CborValue) : Prop := mk_value_ok {
  ok_ptr : 0 ≤ cv_ptr it ≤ cp_end parser;
  ok_remaining : 0 ≤ cv_remaining it ≤ UINT32_MAX;
  ok_head : cv_remaining it ≠ 0 → value_head it;
  ok_end : cv_remaining it = 0 → cv_type it = CborInvalidType
}.

Lemma byte_at_safe ptr : 0 ≤ ptr < cp_end parser → safe (λ d, is_u8 d ∧ cp_buffer parser !! Z.to_nat ptr = Some d) (byte_at parser ptr).
Proof.
  intros Hp. unfold byte_at. rewrite aget_lookup by lia.
  destruct (lookup_lt_is_Some_2 (cp_buffer parser) (Z.to_nat ptr)) as [d Hd]; [lia|]. rewrite Hd. cbn.
  split; [|done]. by eapply (Forall_lookup_1 is_u8).
Qed.

Lemma big_endian_safe n ptr :
  0 ≤ ptr → ptr + Z.of_nat n ≤ cp_end parser → safe (λ v, 0 ≤ v) (get_big_endian parser n ptr).
Proof.
  intros Hp Hn. unfold get_big_endian. rewrite slice_in by lia. cbn.
  eapply (le_val_range (rev _)). apply Forall_rev, Forall_take, Forall_drop, Hbytes.
Qed.

(** ** Numbers and lengths *)

Lemma extract_number_safe ptr :
  0 ≤ ptr < cp_end parser →
  safe (λ r, let '(err, ptr', len) := r in ptr < ptr' ≤ cp_end parser ∧ 0 ≤ len ∧ (24 ≤ len → ptr + 2 ≤ ptr')) (_cbor_value_extract_number parser ptr).
Proof.
  intros Hp. unfold _cbor_value_extract_number. eapply safe_bind; [by apply byte_at_safe|]. intros d [Hd _]. cbv zeta.
  rewrite small_mod. pose proof (Z.mod_pos_bound d 32 eq_refl). unfold Value8Bit, Value64Bit.
  destruct (Z.ltb_spec (d mod 32) 24); [cbn; lia|]. destruct (Z.ltb_spec 27 (d mod 32)); [cbn; lia|].
  rewrite Z.shiftl_1_l. destruct (Z.ltb_spec (cp_end parser - (ptr + 1)) (2 ^ (d mod 32 - 24))) as [|Hroom]; [cbn; lia|].
  assert (Hx : ∃ k, d mod 32 - 24 = k ∧ (k = 0 ∨ k = 1 ∨ k = 2 ∨ k = 3)) by (eexists; split; [reflexivity|lia]).
  destruct Hx as (k & Hk & Hcases). rewrite Hk in *.
  assert (0 < 2 ^ k) by (apply Z.pow_pos_nonneg; lia).
  eapply safe_bind with (P := λ v, 0 ≤ v); [|cbn; intros v Hv; lia].
  destruct Hcases as [->|[->|[->| ->]]]; pow_const; cbn [Z.eqb Pos.eqb].
  - eapply safe_mono; [apply byte_at_safe; lia|]. intros v [Hv _]. wrap.
  - apply big_endian_safe; lia.
  - apply big_endian_safe; lia.
  - apply big_endian_safe; lia.
Qed.

Lemma extract_length_safe ptr :
  0 ≤ ptr < cp_end parser →
  safe (λ r, let '(err, ptr', len) := r in ptr < ptr' ≤ cp_end parser ∧ 0 ≤ len ∧ (24 ≤ len → ptr + 2 ≤ ptr')) (extract_length parser ptr).
Proof.
  intros Hp. unfold extract_length. eapply safe_bind; [by apply extract_number_safe|]. intros [[err ptr'] v] (Hp' & Hv & Hlarge).
  destruct (failed err); [cbn; lia|]. cbv zeta. pose proof (u64_range v). destruct (negb _); cbn; wrap.
Qed.

Lemma int64_helper_safe it : value_head it → safe (λ v, 0 ≤ v) (_cbor_value_extract_int64_helper parser it).
Proof.
  intros [Hin Hlarge Hextra _]. unfold _cbor_value_extract_int64_helper. destruct (has_flag _ _); [|done].
  unfold _cbor_value_decode_int64_internal. eapply safe_bind; [by apply byte_at_safe|]. intros d [Hd Hl].
  destruct (Hlarge eq_refl d Hl) as [H27 Hroom]. apply safe_assert. rewrite small_mod, orb_true_iff, !Z.eqb_eq.
  unfold Value32Bit, Value64Bit. intros [H26|H27']; rewrite ?H26, ?H27' in Hroom; pow_const; cbn in Hroom.
  - case_match; [apply big_endian_safe; lia|]. exfalso. replace (d .& 1) with 0 in *; [done|].
    change 1 with (Z.ones 1). rewrite land_ones_mod by lia. change (2 ^ 1) with 2. lia.
  - case_match; apply big_endian_safe; lia.
Qed.

Lemma get_length_safe it : value_head it → safe (λ r, 0 ≤ r.2) (get_length parser it).
Proof.
  intros Hh. unfold get_length. destruct (negb _); [done|]. eapply safe_bind; [by apply int64_helper_safe|].
  intros v Hv. cbn. pose proof (u64_range v). wrap.
Qed.

(** ** The next value *)

(** A value that was looked at: in place, and well-formed without an error. *)
Definition looked_at (it : CborValue) (r : CborError * CborValue) : Prop :=
  cv_ptr r.2 = cv_ptr it ∧ cv_remaining r.2 = cv_remaining it ∧ (r.1 = CborNoError → value_head r.2).

Lemma preparse_value_safe it :
  0 ≤ cv_ptr it ≤ cp_end parser → safe (looked_at it) (preparse_value parser it).
Proof.
  intros Hp. unfold preparse_value. cbv zeta. cbn [cv_ptr]. destruct (Z.eqb_spec (cv_ptr it) (cp_end parser)); [done|].
  eapply safe_bind; [apply byte_at_safe; lia|]. intros d [Hd Hl]. rewrite small_mod, major_div by done.
  cbn [cv_ptr cv_remaining cv_extra cv_type cv_flags]. pose proof (kept_flags (cv_flags it)) as Hf. cbv zeta in Hf. set (f := cv_flags it .& _) in *.
  clearbody f. set (t := 32 * (d / 32)). pose proof (Z.mod_pos_bound d 32 eq_refl) as Hm. cbn [cv_ptr cv_remaining cv_extra cv_type cv_flags].
  unfold Value64Bit, Value8Bit, Value16Bit, IndefiniteLength, CborSimpleType.
  destruct (Z.ltb_spec 27 (d mod 32)).
  { destruct (negb (d mod 32 =? 31)); [by destruct (t =? 224)|]. destruct (negb (is_fixed_type t)); [|by destruct (t =? 224)].
    split; [done|]. split; [done|]. intros _. split; cbn [fst snd cv_ptr cv_remaining cv_extra cv_type cv_flags]; [lia| |lia|].
    - intros Hb. exfalso. revert Hb. unfold has_flag. cbn [cv_flags]. destruct Hf as [->|[->|[->| ->]]]; vm_compute; congruence.
    - intros _. unfold has_flag. cbn [cv_flags]. destruct Hf as [->|[->|[->| ->]]]; reflexivity. }
  rewrite Z.shiftl_1_l. set (more := if d mod 32 <? 24 then 0 else 2 ^ (d mod 32 - 24)).
  destruct (Z.ltb_spec (cp_end parser - cv_ptr it) (more + 1)); [by split|].
  assert (Hroom : ∀ d', cp_buffer parser !! Z.to_nat (cv_ptr it) = Some d' →
    d' mod 32 ≤ 27 ∧ cv_ptr it + (if d' mod 32 <? 24 then 0 else 2 ^ (d' mod 32 - 24)) < cp_end parser).
  { intros d' Hd'. rewrite Hl in Hd'. injection Hd' as <-. fold more. lia. }
  assert (Hmore : (d mod 32 = 24 → more = 1) ∧ (d mod 32 = 25 → more = 2)) by (unfold more; split; intros ->; reflexivity).
  clearbody more.
  assert (Hhead : ∀ e ty fl, 0 ≤ e → (ty = 64 ∨ ty = 96 → Z.land fl 2 = 0) →
    safe (looked_at it) (Done (CborNoError, mk_cbor_value (cv_ptr it) (cv_remaining it) e ty fl))).
  { intros e ty fl He Hs. split; [done|]. split; [done|]. intros _.
    split; cbn [fst snd cv_ptr cv_remaining cv_extra cv_type cv_flags]; [lia|done|done|].
    unfold cbor_value_is_byte_string, cbor_value_is_text_string, has_flag. cbn [cv_type cv_flags].
    unfold CborByteStringType, CborTextStringType, CborIteratorFlag_IteratingStringChunks.
    intros Hty. rewrite Hs by lia. done. }
  assert (Hf2 : f .& 2 = 0 ∧ (f .| 1) .& 2 = 0) by (by destruct Hf as [->|[->|[->| ->]]]).
  destruct Hf2 as [Hf2 Hf3]. unfold MajorTypeShift. rewrite Z.shiftr_div_pow2 by lia. change (2 ^ 5) with 32.
  replace (t / 32) with (d / 32) by (unfold t; lia).
  destruct (Z.eqb_spec (d / 32) 7).
  - destruct (_ =? 20); [apply Hhead; [lia|intros [?|?]; done]|].
    destruct (_ || _); [apply Hhead; [lia|intros [?|?]; lia]|]. destruct (_ || _ || _ || _); [apply Hhead; [lia|intros [?|?]; lia]|].
    destruct (Z.eqb_spec (d mod 32) 24) as [H24|]; [|done].
    eapply safe_bind; [apply byte_at_safe|].
    { apply Hmore in H24. lia. }
    intros x [Hx _]. destruct (_ <? _); [by split|]. apply Hhead; [wrap|unfold t; lia].
  - set (f' := if d / 32 =? 1 then f .| CborIteratorFlag_NegativeInteger else f).
    set (t' := if d / 32 =? 1 then CborIntegerType else t).
    assert (Ht' : t' = 64 ∨ t' = 96 → f' .& 2 = 0 ∧ (f' .| 1) .& 2 = 0).
    { unfold t', f'. destruct (Z.eqb_spec (d / 32) 1); [unfold CborIntegerType; lia|]. done. }
    destruct (Z.ltb_spec (d mod 32) 24); [apply Hhead; [lia|tauto]|].
    destruct (Z.eqb_spec (d mod 32) 24) as [H24|].
    { eapply safe_bind; [apply byte_at_safe|].
    { apply Hmore in H24. lia. }
      intros x [Hx _]. apply Hhead; [wrap|tauto]. }
    destruct (Z.eqb_spec (d mod 32) 25) as [H25|]; [|apply Hhead; [lia|tauto]].
    eapply safe_bind; [apply big_endian_safe; [lia|]|].
    { apply Hmore in H25. lia. }
    intros x Hx. apply Hhead; [done|tauto].
Qed.

(** Without an error the value is well-formed, and not before [ptr]. *)
Definition moved_on (ptr : Z) (r : CborError * CborValue) : Prop := r.1 = CborNoError → value_ok r.2 ∧ ptr ≤ cv_ptr r.2.

Lemma nodecrement_safe it :
  0 ≤ cv_ptr it ≤ cp_end parser → 0 < cv_remaining it ≤ UINT32_MAX →
  safe (moved_on (cv_ptr it)) (preparse_next_value_nodecrement parser it).
Proof.
  intros Hp Hr. unfold preparse_next_value_nodecrement.
  eapply safe_bind with (P := λ b, b = true → cv_ptr it < cp_end parser).
  { destruct (Z.eqb_spec (cv_ptr it) (cp_end parser)); [by rewrite andb_false_r|]. rewrite andb_true_r.
    destruct (_ =? _); [|done]. eapply safe_bind; [apply byte_at_safe; lia|]. intros b _. cbn. lia. }
  intros [] Hb.
  - specialize (Hb eq_refl). destruct (_ || _); [done|]. intros _. cbn [snd cv_ptr]. split; [|lia].
    split; cbn [cv_ptr cv_remaining]; [lia|wrap|done|done].
  - eapply safe_mono; [by apply preparse_value_safe|]. intros [err it'] (Hp' & Hr' & Hh) Herr. cbn [fst snd] in *.
    split; [|lia]. split; [lia|lia| |lia]. by intros _; apply Hh.
Qed.

Lemma preparse_next_value_safe it :
  0 ≤ cv_ptr it ≤ cp_end parser → 0 < cv_remaining it ≤ UINT32_MAX → safe (moved_on (cv_ptr it)) (preparse_next_value parser it).
Proof.
  intros Hp Hr. unfold preparse_next_value. cbv zeta. set (itemCounts := negb (cv_type it =? CborTagType)).
  set (counted := itemCounts && negb (cv_remaining it =? UINT32_MAX)).
  assert (H1 : 0 ≤ u32 (cv_remaining it - 1) ≤ UINT32_MAX) by (unfold UINT32_MAX in *; wrap).
  destruct counted; cbn [andb cv_remaining].
  - destruct (_ =? 0) eqn:Hz.
    + intros _. cbn [snd cv_ptr]. split; [|lia]. split; cbn [cv_ptr cv_remaining]; [lia|lia|lia|done].
    + destruct itemCounts; eapply safe_mono; try (apply nodecrement_safe; cbn [cv_ptr cv_remaining]; lia); done.
  - destruct itemCounts; eapply safe_mono; try (apply nodecrement_safe; cbn [cv_ptr cv_remaining]; lia); done.
Qed.

Lemma advance_internal_safe it :
  value_head it → 0 < cv_remaining it ≤ UINT32_MAX → is_fixed_type (cv_type it) = true →
  safe (moved_on (cv_ptr it + 1)) (advance_internal parser it).
Proof.
  intros [Hin _ _ _] Hr Hfix. unfold advance_internal. eapply safe_bind; [by apply extract_number_safe|].
  intros [[err ptr] len] (Hp & Hlen & _). apply safe_assert. intros _. cbv zeta.
  assert (Hb : cbor_value_is_byte_string {| it with cv_ptr := ptr |} || cbor_value_is_text_string {| it with cv_ptr := ptr |} = false).
  { unfold is_fixed_type in Hfix. unfold cbor_value_is_byte_string, cbor_value_is_text_string. cbn [cv_type].
    destruct (cv_type it =? CborTextStringType), (cv_type it =? CborByteStringType); done. }
  rewrite Hb. eapply safe_mono; [apply preparse_next_value_safe; cbn [cv_ptr cv_remaining]; lia|].
  intros r Hm Herr. destruct (Hm Herr) as [Hok Hge]. split; [done|]. cbn [cv_ptr] in Hge. lia.
Qed.

(** ** Containers *)

Lemma leave_container_safe it recursed :
  0 < cv_remaining it ≤ UINT32_MAX → 0 ≤ cv_ptr recursed ≤ cp_end parser →
  safe (moved_on (cv_ptr recursed)) (cbor_value_leave_container parser it recursed).
Proof.
  intros Hr Hp. unfold cbor_value_leave_container. apply safe_assert. intros _. apply safe_assert. intros _.
  eapply safe_mono; [apply preparse_next_value_safe; cbn [cv_ptr cv_remaining]; lia|done].
Qed.

Lemma enter_container_safe it :
  value_head it → safe (moved_on (cv_ptr it + 1)) (cbor_value_enter_container parser it).
Proof.
  intros [Hin _ _ _]. unfold cbor_value_enter_container. apply safe_assert. intros _. destruct (has_flag _ _).
  { eapply safe_mono; [apply nodecrement_safe; cbn [cv_ptr cv_remaining]; unfold UINT32_MAX; lia|done]. }
  eapply safe_bind; [by apply extract_number_safe|]. intros [[err ptr] len] (Hp & Hlen & _). apply safe_assert. intros _. cbv zeta.
  destruct (_ || _) eqn:Hlarge; [done|]. destruct (_ && _) eqn:Hmap; [done|].
  apply orb_false_iff in Hlarge as [Hlarge%negb_false_iff%Z.eqb_eq _].
  set (remaining := if cv_type it =? CborMapType then u32 (u32 len * 2) else u32 len).
  assert (Hrem : 0 ≤ remaining ≤ UINT32_MAX).
  { unfold remaining. pose proof (u32_range (u32 len * 2)). pose proof (u32_range len). destruct (cv_type it =? CborMapType); unfold is_u32, UINT32_MAX in *; lia. }
  destruct (Z.eqb_spec len 0) as [->|].
  - intros _. cbn [snd cv_ptr]. split; [|lia]. split; cbn [cv_ptr cv_remaining]; [lia|lia| |done]. unfold remaining. by destruct (cv_type it =? CborMapType).
  - assert (remaining ≠ 0).
    { unfold remaining. destruct (cv_type it =? CborMapType); [|lia]. apply Z.ltb_ge in Hmap. change (UINT32_MAX / 2) with 2147483647 in Hmap.
      rewrite u32_small by (unfold is_u32; lia). lia. }
    eapply safe_mono; [apply nodecrement_safe; cbn [cv_ptr cv_remaining]; lia|]. cbn [cv_ptr].
    intros r Hm Herr. destruct (Hm Herr). split; [done|lia].
Qed.

(** ** Strings *)

Abbreviation iterating it := (has_flag it CborIteratorFlag_IteratingStringChunks).

(** At the start of a string, or after one of its chunks. *)
Record string_ok (it : CborValue) : Prop := mk_string_ok {
  so_ptr : 0 ≤ cv_ptr it ≤ cp_end parser;
  so_remaining : 0 < cv_remaining it ≤ UINT32_MAX;
  so_start : iterating it = false → cv_ptr it < cp_end parser
}.

Lemma iterating_set it ptr remaining extra ty : iterating (mk_cbor_value ptr remaining extra ty (cv_flags it .| 2)) = true.
Proof.
  unfold has_flag, CborIteratorFlag_IteratingStringChunks. cbn [cv_flags]. apply negb_true_iff, Z.eqb_neq. intros Hz.
  assert (Hb : Z.testbit ((cv_flags it .| 2) .& 2) 1 = false) by (rewrite Hz; apply Z.bits_0).
  rewrite Z.land_spec, Z.lor_spec in Hb. change (Z.testbit 2 1) with true in Hb. by rewrite orb_true_r in Hb.
Qed.

(** What a chunk read from position [p0] is, the value being past [k] at the end. *)
Definition chunk_ok (p0 k : Z) (r : CborError * option (Z * Z) * CborValue) : Prop :=
  let '(err, chunk, it') := r in err = CborNoError →
  match chunk with
  | Some (p, len) => string_ok it' ∧ iterating it' = true ∧ p0 < p ∧ 0 ≤ len ∧ (24 ≤ len → p0 + 2 ≤ p) ∧ cv_ptr it' = p + len
  | None => value_ok it' ∧ k ≤ cv_ptr it'
  end.

Lemma last_chunk_safe it p0 k :
  0 ≤ cv_ptr it ≤ cp_end parser → 0 < cv_remaining it ≤ UINT32_MAX → k ≤ cv_ptr it →
  safe (chunk_ok p0 k) ('(err, it) ← preparse_next_value parser it; Done (err, None, it)).
Proof.
  intros Hp Hr Hk. eapply safe_bind; [by apply preparse_next_value_safe|]. intros [err it2] Hm Herr.
  destruct (Hm Herr) as [Hok Hge]. cbn [fst snd] in *. split; [done|lia].
Qed.

Lemma chunk_at_safe it p0 k :
  0 ≤ cv_ptr it ≤ cp_end parser → 0 < cv_remaining it ≤ UINT32_MAX → p0 ≤ cv_ptr it → k ≤ cv_ptr it + 1 →
  safe (chunk_ok p0 k)
    (if cv_ptr it =? cp_end parser then Done (CborErrorUnexpectedEOF, None, it)
     else
       b ← byte_at parser (cv_ptr it);
       if b =? BreakByte then '(err, it) ← preparse_next_value parser {| it with cv_ptr := cv_ptr it + 1 |}; Done (err, None, it)
       else if b .& MajorTypeMask =? cv_type it then
         '(err, ptr, len) ← extract_length parser (cv_ptr it);
         if failed err then Done (err, None, {| it with cv_ptr := ptr |})
         else if cp_end parser - ptr <? len then Done (CborErrorUnexpectedEOF, None, {| it with cv_ptr := ptr |})
         else Done (CborNoError, Some (ptr, len),
                mk_cbor_value (ptr + len) (cv_remaining it) (cv_extra it) (cv_type it)
                  (cv_flags it .| CborIteratorFlag_IteratingStringChunks))
       else Done (CborErrorIllegalType, None, it)).
Proof.
  intros Hp Hr Hp0 Hk. destruct (Z.eqb_spec (cv_ptr it) (cp_end parser)); [done|].
  eapply safe_bind; [apply byte_at_safe; lia|]. intros b _.
  destruct (_ =? _); [apply last_chunk_safe; cbn [cv_ptr cv_remaining]; lia|]. destruct (_ =? _); [|done].
  eapply safe_bind; [apply extract_length_safe; lia|]. intros [[err ptr] len] (Hptr & Hlen & Hlarge). destruct (failed err) eqn:Hf; [by intros ->|].
  destruct (Z.ltb_spec (cp_end parser - ptr) len); [done|]. intros _.
  split; [split; cbn [cv_ptr cv_remaining]; [lia|lia|by rewrite iterating_set]|].
  split; [by apply iterating_set|]. cbn [cv_ptr]. lia.
Qed.

Lemma get_string_chunk_safe it :
  string_ok it → safe (chunk_ok (cv_ptr it) (cv_ptr it + (if iterating it then 0 else 1))) (get_string_chunk parser it).
Proof.
  intros [Hp Hr Hs]. unfold get_string_chunk. cbv beta zeta. destruct (iterating it) eqn:Hit; cbn [andb].
  - destruct (cbor_value_is_length_known it); [by apply last_chunk_safe; [..|lia]|].
    apply chunk_at_safe; lia || done.
  - specialize (Hs eq_refl). set (it1 := prepare_string_iteration it).
    assert (H1 : cv_ptr it ≤ cv_ptr it1 ≤ cp_end parser ∧ cv_remaining it1 = cv_remaining it).
    { unfold it1, prepare_string_iteration. destruct (negb _); cbn [cv_ptr cv_remaining]; lia. }
    clearbody it1. apply chunk_at_safe; lia || done.
Qed.

(** ** Copying a string *)

(** A destination of [buflen] bytes, if it is not the null pointer. *)
Definition dest_ok (buflen : Z) (dest : option (list Z)) : Prop :=
  match dest with None => True | Some d => bytes_ok d ∧ buflen ≤ Z.of_nat (length d) end.
Definition dest_length (dest : option (list Z)) : option nat := length <$> dest.

Lemma iterate_copy_safe dest buflen off src :
  dest_ok buflen dest → bytes_ok src → 0 ≤ off → off + Z.of_nat (length src) ≤ buflen →
  safe (λ dest', dest_ok buflen dest' ∧ dest_length dest' = dest_length dest) (iterate_copy dest off src).
Proof.
  intros Hd Hsrc Hoff Hroom. destruct dest as [d|]; [|done]. destruct Hd as [Hd Hlen]. unfold iterate_copy.
  rewrite memcpy_at_in by lia. cbn [defined mbind run_bind]. 
  assert (Hl : length (take (Z.to_nat off) d ++ src ++ drop (Z.to_nat off + length src) d) = length d).
  { rewrite !length_app, length_take, length_drop. lia. }
  split; [split|]; [|lia|cbn; by f_equal]. apply Forall_app; split; [by apply Forall_take|].
  apply Forall_app; split; [done|by apply Forall_drop].
Qed.

(** [len] bytes, the first at least one byte after [ptr], and two if the length
    takes a byte of its own, end before [ptr']. *)
Definition string_fits (ptr ptr' len : Z) : Prop :=
  len = 0 ∨ (ptr + 1 + len ≤ ptr' ∧ (24 ≤ len → ptr + 2 + len ≤ ptr')).

Definition copied (it : CborValue) (dest : option (list Z)) (buflen total : Z)
    (r : CborError * bool * option (list Z) * Z * CborValue) : Prop :=
  let '(err, result, dest', total', next) := r in
  dest_ok buflen dest' ∧ dest_length dest' = dest_length dest ∧
  (err = CborNoError → value_ok next ∧ cv_ptr it + (if iterating it then 0 else 1) ≤ cv_ptr next ∧
     total ≤ total' ∧ string_fits (cv_ptr it) (cv_ptr next) (total' - total) ∧ (result = true → total' ≤ buflen)).

Lemma string_chunks_loop_safe fuel it dest buflen total result :
  string_ok it → dest_ok buflen dest → 0 ≤ total → total + (cp_end parser - cv_ptr it) < SIZE_MAX →
  (result = true → total ≤ buflen) → (Z.to_nat (cp_end parser - cv_ptr it) < fuel)%nat →
  safe (copied it dest buflen total) (string_chunks_loop parser fuel it dest buflen total result).
Proof.
  induction fuel as [|fuel IH] in it, dest, total, result |- *; intros Hs Hd Ht Htop Hres Hfuel; [lia|].
  cbn [string_chunks_loop]. eapply safe_bind; [by apply get_string_chunk_safe|]. intros [[err chunk] next] Hc.
  destruct (failed err) eqn:Hf; [split; [done|split; [done|by intros ->]]|]. apply failed_spec in Hf. specialize (Hc Hf).
  destruct chunk as [[p len]|]; [|destruct Hc as [Hok Hge]; split; [done|split; [done|]]; intros _; split; [done|];
    split; [done|]; unfold string_fits; split; [lia|]; split; [lia|done]].
  destruct Hc as (Hs' & Hit' & Hlt & Hlen & Hlarge & Hnext). pose proof (so_ptr _ Hs') as Hp'. pose proof (so_ptr _ Hs) as Hp.
  cbv zeta. destruct (Z.ltb_spec SIZE_MAX (total + len)); [lia|].
  rewrite u64_small by (unfold SIZE_MAX in *; wrap).
  assert (Hrec : ∀ dest' result', dest_ok buflen dest' → dest_length dest' = dest_length dest → (result' = true → total + len ≤ buflen) →
    safe (copied it dest buflen total) (string_chunks_loop parser fuel next dest' buflen (total + len) result')).
  { intros dest' result' Hd' Hl' Hr'. eapply safe_mono; [apply IH; [done|done|lia|lia|done|lia]|].
    intros [[[[err2 res2] dest2] total2] next2] (H1 & H2 & H3). split; [done|]. split; [congruence|]. intros He.
    destruct (H3 He) as (H4 & H5 & H6 & H7 & H8). unfold string_fits in *. rewrite Hit' in H5.
    split; [done|]. split; [destruct (iterating it); lia|]. split; [lia|]. split; [lia|done]. }
  destruct (result && _) eqn:Hroom.
  - apply andb_true_iff in Hroom as [_ Hroom%Z.leb_le]. rewrite slice_in by lia. cbn [defined mbind run_bind].
    assert (Hsrc : length (take (Z.to_nat len) (drop (Z.to_nat p) (cp_buffer parser))) = Z.to_nat len).
    { rewrite length_take, length_drop. lia. }
    eapply safe_bind; [apply iterate_copy_safe; [done| |done|rewrite Hsrc; lia]|]; [by apply Forall_take, Forall_drop|].
    intros dest' [Hd' Hl']. by apply Hrec.
  - by apply Hrec.
Qed.

Lemma copy_string_safe it dest buflen :
  string_ok it → dest_ok buflen dest → 0 ≤ buflen →
  safe (λ r, let '(err, dest', len, next) := r in
    dest_ok buflen dest' ∧ dest_length dest' = dest_length dest ∧
    (err = CborNoError → value_ok next ∧ cv_ptr it + (if iterating it then 0 else 1) ≤ cv_ptr next ∧
       0 ≤ len ≤ buflen ∧ string_fits (cv_ptr it) (cv_ptr next) len))
    (_cbor_value_copy_string parser it dest buflen).
Proof.
  intros Hs Hd Hb. unfold _cbor_value_copy_string, iterate_string_chunks. pose proof (so_ptr _ Hs).
  eapply safe_bind with (P := λ r, let '(err, result, dest', total, next) := r in copied it dest buflen 0 (err, result, dest', total, next)).
  - apply safe_assert. intros _. eapply safe_bind; [apply string_chunks_loop_safe; try done; try lia|].
    { unfold enough_fuel. lia. }
    intros [[[[err result] dest'] total] next] (Hd' & Hl' & Hok). destruct (failed err) eqn:Hf; [split; [done|split; [done|by intros ->]]|].
    apply failed_spec in Hf. destruct (Hok Hf) as (H1 & H2 & H3 & H4 & H5).
    destruct (result && _) eqn:Hroom.
    + apply andb_true_iff in Hroom as [_ Hroom%Z.ltb_lt].
      eapply safe_bind; [apply iterate_copy_safe; [done|repeat constructor; lia|lia|cbn [length]; lia]|].
      intros dest2 [Hd2 Hl2]. split; [done|]. split; [congruence|done].
    + done.
  - intros [[[[err result] dest'] total] next] (Hd' & Hl' & Hok). split; [done|]. split; [done|].
    destruct (failed err) eqn:Hf; [by intros ->|]. apply failed_spec in Hf. destruct (Hok Hf) as (H1 & H2 & H3 & H4 & H5).
    destruct result; [|done]. intros _. rewrite Z.sub_0_r in H4. specialize (H5 eq_refl). done.
Qed.

Lemma head_string_ok it :
  value_head it → 0 < cv_remaining it ≤ UINT32_MAX → string_ok it.
Proof. intros [Hin _ _ _] Hr. split; [lia|done|lia]. Qed.

Lemma calculate_string_length_safe it :
  value_head it → 0 < cv_remaining it ≤ UINT32_MAX →
  safe (λ r, r.1 = CborNoError → 0 ≤ r.2 ∧ string_fits (cv_ptr it) (cp_end parser) r.2) (cbor_value_calculate_string_length parser it).
Proof.
  intros Hh Hr. unfold cbor_value_calculate_string_length. pose proof (head_in _ Hh).
  eapply safe_bind; [apply (copy_string_safe it None SIZE_MAX); [by apply head_string_ok|done|done]|].
  intros [[[err dest'] len] next] (_ & _ & Hok) Herr. destruct (Hok Herr) as (H1 & H2 & H3 & H4). cbn [snd].
  pose proof (ok_ptr _ H1). unfold string_fits in *. lia.
Qed.

(** ** Advancing *)

Lemma advance_loop_safe step fuel it :
  (∀ it, value_ok it → cv_remaining it ≠ 0 → safe (moved_on (cv_ptr it + 1)) (step it)) →
  value_ok it → (Z.to_nat (cp_end parser - cv_ptr it) < fuel)%nat →
  safe (moved_on (cv_ptr it)) (advance_loop step fuel it).
Proof.
  intros Hstep. induction fuel as [|fuel IH] in it |- *; intros Hok Hfuel; [lia|].
  cbn [advance_loop]. unfold cbor_value_at_end. destruct (Z.eqb_spec (cv_remaining it) 0); [done|].
  eapply safe_bind; [by apply Hstep|]. intros [err it'] Hm. destruct (failed err) eqn:Hf; [intros H; cbn [fst] in H; by subst err|].
  apply failed_spec in Hf. destruct (Hm Hf) as [Hok' Hge]. cbn [snd] in *.
  pose proof (ok_ptr _ Hok'). pose proof (ok_ptr _ Hok).
  eapply safe_mono; [apply IH; [done|lia]|]. intros r Hr Herr. destruct (Hr Herr). split; [done|lia].
Qed.

Lemma string_type it :
  is_fixed_type (cv_type it) = false → cbor_value_is_container it = false →
  cbor_value_is_byte_string it || cbor_value_is_text_string it = true.
Proof.
  unfold is_fixed_type, cbor_value_is_container, cbor_value_is_byte_string, cbor_value_is_text_string.
  by destruct (cv_type it =? CborTextStringType), (cv_type it =? CborByteStringType),
    (cv_type it =? CborArrayType), (cv_type it =? CborMapType).
Qed.

Lemma advance_recursive_safe nesting it :
  value_ok it → cv_remaining it ≠ 0 → safe (moved_on (cv_ptr it + 1)) (advance_recursive parser nesting it).
Proof.
  induction nesting as [|nesting IH] in it |- *; intros Hok Hr;
    pose proof (ok_head _ Hok Hr) as Hh; pose proof (ok_remaining _ Hok); cbn [advance_recursive];
    (destruct (is_fixed_type (cv_type it)) eqn:Hfix; [apply advance_internal_safe; done || lia|]);
    (destruct (cbor_value_is_container it) eqn:Hcont; cbn [negb]; [|
      eapply safe_bind; [apply (copy_string_safe it None SIZE_MAX); [apply head_string_ok; done || lia|done|done]|];
      intros [[[err dest'] len] next] (_ & _ & Hcopy) Herr; destruct (Hcopy Herr) as (H1 & H2 & H3 & _);
      rewrite (head_start _ Hh (string_type it Hfix Hcont)) in H2; by split]).
  - done.
  - eapply safe_bind; [by apply enter_container_safe|]. intros [err recursed] Hm.
    destruct (failed err) eqn:Hf; [intros H'; cbn [fst] in H'; by subst err|].
    apply failed_spec in Hf. destruct (Hm Hf) as [Hok' Hge]. cbn [snd] in *.
    eapply safe_bind; [apply advance_loop_safe; [apply IH|done|pose proof (ok_ptr _ Hok'); unfold enough_fuel; lia]|].
    intros [err' recursed'] Hm'. destruct (failed err') eqn:Hf'; [intros H'; cbn [fst] in H'; by subst err'|].
    apply failed_spec in Hf'. destruct (Hm' Hf') as [Hok'' Hge']. cbn [snd] in *.
    eapply safe_mono; [apply leave_container_safe; [lia|apply (ok_ptr _ Hok'')]|].
    intros r Hr' Herr. destruct (Hr' Herr). split; [done|lia].
Qed.

Lemma cbor_value_advance_safe it :
  value_ok it → safe (moved_on (cv_ptr it)) (cbor_value_advance parser it).
Proof.
  intros Hok. unfold cbor_value_advance. apply safe_assert. intros _. destruct (Z.eqb_spec (cv_remaining it) 0); [done|].
  eapply safe_mono; [by apply advance_recursive_safe|]. intros r Hr Herr. destruct (Hr Herr). split; [done|lia].
Qed.

Lemma cbor_parser_init_safe : safe (λ r, r.1 = CborNoError → value_ok r.2 ∧ cv_remaining r.2 = 1) (cbor_parser_init parser).
Proof.
  eapply safe_mono; [apply preparse_value_safe; cbn; lia|]. intros [err it] (Hp & Hr & Hh) Herr. cbn [fst snd cv_ptr cv_remaining] in *.
  split; [|done]. split; [lia|rewrite Hr; done| |lia]. by intros _; apply Hh.
Qed.
End Safe.
