(* ===== verification/CborEncoder.v ===== *)
(** * CBOR as the bundled tinycbor writes it (oc/deps/tinycbor/src/cborencoder.c)

    The part of the encoder the COSE module calls, and what it writes: heads of
    RFC 7049, as long as they fit into the buffer.  Positions are offsets into
    the buffer, which every operation takes and gives back. *)

From S2P Require Import Prelude Cbor.
Local Open Scope Z_scope.
Local Open Scope c_scope.

Definition UnsignedIntegerType : Z := 0.
Definition ByteStringType : Z := 2.
Definition TextStringType : Z := 3.
Definition ArrayType : Z := 4.
Definition MapType : Z := 5.
Definition CborIndefiniteLength : Z := SIZE_MAX.

(** [ce_ptr] is the union [data]: a position, or the bytes still needed once
    [ce_end] is the null pointer. *)
Record CborEncoder := mk_cbor_encoder {
  ce_ptr : Z;
  ce_end : option Z;
  ce_remaining : Z;
  ce_flags : Z
}.

Definition cbor_encoder_init (size flags : Z) : CborEncoder := mk_cbor_encoder 0 (Some size) 2 flags.

Definition would_overflow (encoder : CborEncoder) (len : Z) : bool :=
  match ce_end encoder with
  | Some e => e - ce_ptr encoder - len <? 0
  | None => 0 - ce_ptr encoder - len <? 0
  end.

Definition append_to_buffer (encoder : CborEncoder) (buf data : list Z) (len : Z) : run (CborError * CborEncoder * list Z) :=
  if would_overflow encoder len then
    let encoder :=
      match ce_end encoder with
      | Some e => mk_cbor_encoder (len - (e - ce_ptr encoder)) None (ce_remaining encoder) (ce_flags encoder)
      | None => {| encoder with ce_ptr := ce_ptr encoder + len |}
      end in
    Done (CborErrorOutOfMemory, encoder, buf)
  else if 0 <? len then
    src ← defined (slice data 0 (Z.to_nat len));
    buf ← defined (memcpy_at buf (Z.to_nat (ce_ptr encoder)) src);
    Done (CborNoError, {| encoder with ce_ptr := ce_ptr encoder + len |}, buf)
  else Done (CborNoError, encoder, buf).

Definition append_byte_to_buffer (encoder : CborEncoder) (buf : list Z) (byte : Z) : run (CborError * CborEncoder * list Z) :=
  append_to_buffer encoder buf [byte] 1.

(** The sixteen bytes of [buf] in encode_number_no_update: the first eight are
    never appended. *)
Definition encode_number_no_update (encoder : CborEncoder) (buf : list Z) (ui shiftedMajorType : Z)
    : run (CborError * CborEncoder * list Z) :=
  let big := rev (le_bytes 8 ui) in
  if ui <? Value8Bit then
    last ← defined (big !! 7%nat);
    append_to_buffer encoder buf [u8 (last + shiftedMajorType)] 1
  else
    let more := 0 in
    let more := if 0xff <? ui then more + 1 else more in
    let more := if 0xffff <? ui then more + 1 else more in
    let more := if 0xffffffff <? ui then more + 1 else more in
    append_to_buffer encoder buf (u8 (shiftedMajorType + Value8Bit + more) :: drop (Z.to_nat (8 - (1 ≪ more))) big) (1 + (1 ≪ more)).

Definition saturated_decrement (encoder : CborEncoder) : CborEncoder :=
  if ce_remaining encoder =? 0 then encoder else {| encoder with ce_remaining := ce_remaining encoder - 1 |}.

Definition encode_number (encoder : CborEncoder) (buf : list Z) (ui shiftedMajorType : Z) : run (CborError * CborEncoder * list Z) :=
  encode_number_no_update (saturated_decrement encoder) buf ui shiftedMajorType.

Definition cbor_encode_uint (encoder : CborEncoder) (buf : list Z) (value : Z) : run (CborError * CborEncoder * list Z) :=
  encode_number encoder buf value (UnsignedIntegerType ≪ MajorTypeShift).

(** Every error of [encode_number] counts as out of memory, and the string is
    appended all the same. *)
Definition encode_string (encoder : CborEncoder) (buf : list Z) (length shiftedMajorType : Z) (string : list Z)
    : run (CborError * CborEncoder * list Z) :=
  '(_, encoder, buf) ← encode_number encoder buf length shiftedMajorType;
  append_to_buffer encoder buf string length.

Definition cbor_encode_byte_string (encoder : CborEncoder) (buf string : list Z) (length : Z) : run (CborError * CborEncoder * list Z) :=
  encode_string encoder buf length (ByteStringType ≪ MajorTypeShift) string.
Definition cbor_encode_text_string (encoder : CborEncoder) (buf string : list Z) (length : Z) : run (CborError * CborEncoder * list Z) :=
  encode_string encoder buf length (TextStringType ≪ MajorTypeShift) string.

(** Gives the error, the encoder, the container, and the buffer. *)
Definition create_container (encoder : CborEncoder) (buf : list Z) (length shiftedMajorType : Z)
    : run (CborError * CborEncoder * CborEncoder * list Z) :=
  let container := mk_cbor_encoder (ce_ptr encoder) (ce_end encoder) (u64 (length + 1)) (shiftedMajorType .& CborIteratorFlag_ContainerIsMap) in
  let encoder := saturated_decrement encoder in
  if length =? CborIndefiniteLength then
    '(err, container, buf) ←
      append_byte_to_buffer {| container with ce_flags := ce_flags container .| CborIteratorFlag_UnknownLength |} buf
        (u8 (shiftedMajorType + IndefiniteLength));
    Done (err, encoder, container, buf)
  else
    let container :=
      if negb (shiftedMajorType .& CborIteratorFlag_ContainerIsMap =? 0)
      then {| container with ce_remaining := u64 (ce_remaining container + length) |} else container in
    '(err, container, buf) ← encode_number_no_update container buf length shiftedMajorType;
    Done (err, encoder, container, buf).

Definition cbor_encoder_create_array (encoder : CborEncoder) (buf : list Z) (length : Z)
    : run (CborError * CborEncoder * CborEncoder * list Z) :=
  create_container encoder buf length (ArrayType ≪ MajorTypeShift).

(** The container of a length that is refused stays unset: [garbage]. *)
Definition cbor_encoder_create_map (encoder garbage : CborEncoder) (buf : list Z) (length : Z)
    : run (CborError * CborEncoder * CborEncoder * list Z) :=
  if negb (length =? CborIndefiniteLength) && (SIZE_MAX / 2 <? length) then Done (CborErrorDataTooLarge, encoder, garbage, buf)
  else create_container encoder buf length (MapType ≪ MajorTypeShift).

Definition cbor_encoder_close_container (encoder containerEncoder : CborEncoder) (buf : list Z)
    : run (CborError * CborEncoder * list Z) :=
  let encoder := mk_cbor_encoder (ce_ptr containerEncoder) (ce_end containerEncoder) (ce_remaining encoder) (ce_flags encoder) in
  if negb (ce_flags containerEncoder .& CborIteratorFlag_UnknownLength =? 0) then append_byte_to_buffer encoder buf BreakByte
  else if negb (ce_remaining containerEncoder =? 1) then
    Done (if ce_remaining containerEncoder =? 0 then CborErrorTooManyItems else CborErrorTooFewItems, encoder, buf)
  else if negb (bool_decide (is_Some (ce_end encoder))) then Done (CborErrorOutOfMemory, encoder, buf)
  else Done (CborNoError, encoder, buf).

Definition cbor_encoder_get_buffer_size (encoder : CborEncoder) : Z := u64 (ce_ptr encoder).

(** ** What is written *)

(** A run that ends with a value, in [Q]. *)
Definition ends {A} (Q : A → Prop) (r : run A) : Prop := ∃ a, r = Done a ∧ Q a.

Lemma ends_ret {A} (Q : A → Prop) a : Q a → ends Q (Done a).
Proof. by exists a. Qed.

Lemma ends_bind {A B} (P : A → Prop) (Q : B → Prop) (r : run A) (f : A → run B) :
  ends P r → (∀ a, P a → ends Q (f a)) → ends Q (r ≫= f).
Proof. intros (a & -> & Ha) Hf. by apply Hf. Qed.

Lemma ends_mono {A} (P Q : A → Prop) (r : run A) : ends P r → (∀ a, P a → Q a) → ends Q r.
Proof. intros (a & -> & Ha) Hpq. exists a. auto. Qed.

(** The head of an item: major type [shifted], and the number [ui] in as few
    bytes as it needs. *)
Definition cbor_head (shifted ui : Z) : list Z :=
  if ui <? 24 then [shifted + ui]
  else if ui <=? 0xff then shifted + 24 :: rev (le_bytes 1 ui)
  else if ui <=? 0xffff then shifted + 25 :: rev (le_bytes 2 ui)
  else if ui <=? 0xffffffff then shifted + 26 :: rev (le_bytes 4 ui)
  else shifted + 27 :: rev (le_bytes 8 ui).

Definition head_size (ui : Z) : Z :=
  if ui <? 24 then 1 else if ui <=? 0xff then 2 else if ui <=? 0xffff then 3 else if ui <=? 0xffffffff then 5 else 9.

(** An encoder that has written [out] into a buffer of which it may use [e] bytes. *)
Record wrote (e : Z) (out : list Z) (enc : CborEncoder) (buf : list Z) : Prop := mk_wrote {
  w_ptr : ce_ptr enc = Z.of_nat (length out);
  w_end : ce_end enc = Some e;
  w_out : take (length out) buf = out;
  w_room : Z.of_nat (length out) ≤ e ≤ Z.of_nat (length buf);
  w_bytes : bytes_ok buf
}.

(** [src] was appended if there was room, and else the encoder counts the bytes it lacks. *)
Definition appended (e : Z) (out src : list Z) (remaining flags : Z) (n : nat) (r : CborError * CborEncoder * list Z) : Prop :=
  let '(err, enc, buf) := r in
  length buf = n ∧ ce_remaining enc = remaining ∧ ce_flags enc = flags ∧
  (Z.of_nat (length out + length src) ≤ e → err = CborNoError ∧ wrote e (out ++ src) enc buf) ∧
  (e < Z.of_nat (length out + length src) → err = CborErrorOutOfMemory ∧ ce_end enc = None ∧ 0 < ce_ptr enc).

Lemma append_to_buffer_spec e out src enc buf data len :
  wrote e out enc buf → 0 ≤ len → slice data 0 (Z.to_nat len) = Some src → bytes_ok src →
  ends (appended e out src (ce_remaining enc) (ce_flags enc) (length buf)) (append_to_buffer enc buf data len).
Proof.
  intros [Hp He Ho Hr Hbytes] Hlen Hs Hb. unfold append_to_buffer, would_overflow. rewrite He, Hp.
  assert (Hl : length src = Z.to_nat len).
  { unfold slice in Hs. case_decide; [|done]. injection Hs as <-. rewrite drop_0, length_take. lia. }
  destruct (Z.ltb_spec (e - Z.of_nat (length out) - len) 0).
  { apply ends_ret. split; [done|]. split; [done|]. split; [done|]. split; [lia|]. intros _. cbn [ce_end ce_ptr]. split; [done|]. split; [done|lia]. }
  destruct (Z.ltb_spec 0 len).
  - rewrite Hs. cbn [defined mbind run_bind]. rewrite memcpy_at_in by lia. apply ends_ret. rewrite Nat2Z.id.
    assert (Hbl : length (take (length out) buf ++ src ++ drop (length out + length src) buf) = length buf).
    { rewrite !length_app, length_take, length_drop. lia. }
    split; [done|]. split; [done|]. split; [done|]. split; [|lia]. intros _. split; [done|].
    split; cbn [ce_ptr ce_end]; [rewrite length_app; lia|done| |rewrite Hbl, length_app; lia|].
    + rewrite Ho, app_assoc. by rewrite take_app_length.
    + rewrite Ho. repeat apply Forall_app_2; [|done|by apply Forall_drop]. rewrite <- Ho. by apply Forall_take.
  - assert (src = []) as -> by (apply length_zero_iff_nil; lia). apply ends_ret. unfold appended. rewrite app_nil_r.
    split; [done|]. split; [done|]. split; [done|]. split; [|cbn [length]; lia]. intros _. by split; [|split].
Qed.

Lemma append_nowhere enc buf data len :
  ce_end enc = None → 0 < ce_ptr enc → 0 ≤ len →
  ends (λ r, let '(err, enc', buf') := r in err = CborErrorOutOfMemory ∧ ce_end enc' = None ∧ 0 < ce_ptr enc' ∧
    ce_remaining enc' = ce_remaining enc ∧ ce_flags enc' = ce_flags enc ∧ buf' = buf) (append_to_buffer enc buf data len).
Proof.
  intros He Hp Hlen. unfold append_to_buffer, would_overflow. rewrite He. rewrite (proj2 (Z.ltb_lt _ _)) by lia.
  apply ends_ret. repeat split; cbn; lia.
Qed.

Lemma cbor_head_ok shifted ui :
  0 ≤ shifted → shifted + 31 < 256 → 0 ≤ ui → bytes_ok (cbor_head shifted ui) ∧ Z.of_nat (length (cbor_head shifted ui)) = head_size ui.
Proof.
  intros Hs Hs' Hu. unfold cbor_head, head_size.
  destruct (Z.ltb_spec ui 24); [split; [by repeat constructor; wrap|done]|].
  destruct (ui <=? 0xff), (ui <=? 0xffff), (ui <=? 0xffffffff);
    (split; [constructor; [wrap|apply Forall_rev, le_bytes_ok]|cbn [length]; by rewrite length_rev, le_bytes_length]).
Qed.

Lemma le_bytes_take n m x : (n ≤ m)%nat → take n (le_bytes m x) = le_bytes n x.
Proof.
  induction n as [|n IH] in m, x |- *; [done|]. intros Hm. destruct m as [|m]; [lia|]. cbn [le_bytes take firstn]. by rewrite IH by lia.
Qed.

Lemma big_endian_tail n m x : (n ≤ m)%nat → drop (m - n) (rev (le_bytes m x)) = rev (le_bytes n x).
Proof.
  intros Hn. rewrite <- (le_bytes_take n m x) by done. rewrite <- (take_drop n (le_bytes m x)) at 1.
  rewrite rev_app_distr, drop_app_length'; [done|]. rewrite length_rev, length_drop, le_bytes_length. lia.
Qed.

Lemma encode_number_spec e out enc buf ui shifted :
  wrote e out enc buf → is_u64 ui → 0 ≤ shifted → shifted + 31 < 256 →
  ends (appended e out (cbor_head shifted ui) (ce_remaining enc) (ce_flags enc) (length buf)) (encode_number_no_update enc buf ui shifted).
Proof.
  intros Hw Hu Hs Hs'. destruct (cbor_head_ok shifted ui) as [Hb Hl]; [done|done|wrap|].
  unfold encode_number_no_update. cbv zeta. unfold Value8Bit.
  assert (Hgo : ∀ hd k, cbor_head shifted ui = hd :: drop (8 - k) (rev (le_bytes 8 ui)) → (k ≤ 8)%nat →
    ends (appended e out (cbor_head shifted ui) (ce_remaining enc) (ce_flags enc) (length buf))
      (append_to_buffer enc buf (hd :: drop (8 - k) (rev (le_bytes 8 ui))) (1 + Z.of_nat k))).
  { intros hd k Heq Hk. apply append_to_buffer_spec; [done|lia| |done]. rewrite slice_in.
    - rewrite drop_0, take_ge; [by rewrite Heq|]. cbn [length]. rewrite length_drop, length_rev, le_bytes_length. lia.
    - cbn [length]. rewrite length_drop, length_rev, le_bytes_length. lia. }
  revert Hgo. unfold cbor_head. unfold is_u64 in Hu.
  destruct (Z.ltb_spec ui 24) as [H24|H24]; intros Hgo.
  - assert (Hlast : rev (le_bytes 8 ui) !! 7%nat = Some ui).
    { change (rev (le_bytes 8 ui) !! 7%nat) with (Some (ui mod 256)). f_equal. lia. }
    rewrite Hlast. cbn [defined mbind run_bind]. apply append_to_buffer_spec; [done|lia| |].
    + rewrite slice_in by (cbn; lia). f_equal. change ([u8 (ui + shifted)] = [shifted + ui]). f_equal. unfold u8. lia.
    + repeat constructor; unfold is_u8; lia.
  - assert (Hmore : ∃ k : nat, (if 0xffffffff <? ui then (if 0xffff <? ui then (if 0xff <? ui then 0 + 1 else 0) + 1
        else if 0xff <? ui then 0 + 1 else 0) + 1 else if 0xffff <? ui then (if 0xff <? ui then 0 + 1 else 0) + 1
        else if 0xff <? ui then 0 + 1 else 0) = Z.of_nat k ∧ (k < 4)%nat ∧
      (if ui <=? 0xff then shifted + 24 :: rev (le_bytes 1 ui) else if ui <=? 0xffff then shifted + 25 :: rev (le_bytes 2 ui)
       else if ui <=? 0xffffffff then shifted + 26 :: rev (le_bytes 4 ui) else shifted + 27 :: rev (le_bytes 8 ui)) =
      shifted + 24 + Z.of_nat k :: rev (le_bytes (2 ^ k) ui)).
    { destruct (Z.ltb_spec 0xffffffff ui), (Z.ltb_spec 0xffff ui), (Z.ltb_spec 0xff ui), (Z.leb_spec ui 0xff), (Z.leb_spec ui 0xffff),
        (Z.leb_spec ui 0xffffffff); try lia; [exists 3%nat|exists 2%nat|exists 1%nat|exists 0%nat]; (split; [done|split; [lia|f_equal; lia]]). }
    destruct Hmore as (k & -> & Hk & Heq). rewrite Heq in Hgo.
    assert (Hk8 : (2 ^ k ≤ 8)%nat) by (destruct k as [|[|[|[|]]]]; cbn; lia).
    rewrite <- (big_endian_tail (2 ^ k) 8) in Hgo by done.
    specialize (Hgo (u8 (shifted + 24 + Z.of_nat k)) (2 ^ k)%nat).
    rewrite Heq, <- (big_endian_tail (2 ^ k) 8) by done.
    replace (1 ≪ Z.of_nat k) with (Z.of_nat (2 ^ k)) by (destruct k as [|[|[|[|]]]]; [reflexivity..|lia]).
    replace (Z.to_nat (8 - Z.of_nat (2 ^ k))) with (8 - 2 ^ k)%nat by lia. apply Hgo; [|done]. f_equal. unfold u8. lia.
Qed.

(** An item of one head, which is counted. *)
Definition counted (enc : CborEncoder) : Z := if ce_remaining enc =? 0 then 0 else ce_remaining enc - 1.

Lemma saturated_decrement_wrote e out enc buf : wrote e out enc buf → wrote e out (saturated_decrement enc) buf.
Proof. intros [? ? ? ? ?]. unfold saturated_decrement. by destruct (_ =? 0); split. Qed.

Lemma saturated_decrement_eq enc :
  ce_remaining (saturated_decrement enc) = counted enc ∧ ce_flags (saturated_decrement enc) = ce_flags enc.
Proof. unfold saturated_decrement, counted. destruct (Z.eqb_spec (ce_remaining enc) 0); [by split|done]. Qed.

Lemma encode_counted_spec e out enc buf ui shifted :
  wrote e out enc buf → is_u64 ui → 0 ≤ shifted → shifted + 31 < 256 →
  ends (appended e out (cbor_head shifted ui) (counted enc) (ce_flags enc) (length buf)) (encode_number enc buf ui shifted).
Proof.
  intros Hw Hu Hs Hs'. unfold encode_number. destruct (saturated_decrement_eq enc) as [<- <-].
  by apply encode_number_spec; [apply saturated_decrement_wrote|..].
Qed.

Lemma encode_uint_spec e out enc buf ui :
  wrote e out enc buf → is_u64 ui →
  ends (appended e out (cbor_head 0 ui) (counted enc) (ce_flags enc) (length buf)) (cbor_encode_uint enc buf ui).
Proof. intros Hw Hu. by apply encode_counted_spec. Qed.

Lemma encode_string_spec e out enc buf string src len shifted :
  wrote e out enc buf → is_u64 len → slice string 0 (Z.to_nat len) = Some src → bytes_ok src → 0 ≤ shifted → shifted + 31 < 256 →
  ends (appended e out (cbor_head shifted len ++ src) (counted enc) (ce_flags enc) (length buf))
    (encode_string enc buf len shifted string).
Proof.
  intros Hw Hlen Hs Hb Hsh Hsh'. unfold encode_string.
  eapply ends_bind; [by apply encode_counted_spec|]. intros [[err enc1] buf1] (Hl & Hrem & Hfl & Hfit & Hnot).
  assert (Hlen' : Z.of_nat (length src) = len).
  { unfold slice in Hs. case_decide; [|done]. injection Hs as <-. rewrite drop_0, length_take. unfold is_u64 in *. lia. }
  destruct (Z.le_gt_cases (Z.of_nat (length out + length (cbor_head shifted len))) e) as [Hin|Hout].
  - destruct (Hfit Hin) as [-> Hw1]. rewrite <- Hrem, <- Hfl, <- Hl.
    eapply ends_mono; [apply append_to_buffer_spec; [done|unfold is_u64 in *; lia|done|done]|].
    intros [[err2 enc2] buf2] (Hl2 & Hrem2 & Hfl2 & Hfit2 & Hnot2). rewrite length_app in Hfit2, Hnot2.
    split; [done|]. split; [done|]. split; [done|]. rewrite length_app, app_assoc. split; intros; [apply Hfit2|apply Hnot2]; lia.
  - destruct (Hnot Hout) as (-> & He & Hp). eapply ends_mono; [apply append_nowhere; [done|done|unfold is_u64 in *; lia]|].
    intros [[err2 enc2] buf2] (-> & He2 & Hp2 & Hrem2 & Hfl2 & ->). split; [done|]. split; [congruence|]. split; [congruence|].
    rewrite length_app. split; [lia|done].
Qed.

(** The bytes of a string: head and contents. *)
Definition cbor_byte_string (s : list Z) : list Z := cbor_head 0x40 (Z.of_nat (length s)) ++ s.

Lemma encode_byte_string_spec e out enc buf string src len :
  wrote e out enc buf → is_u64 len → slice string 0 (Z.to_nat len) = Some src → bytes_ok src →
  ends (appended e out (cbor_byte_string src) (counted enc) (ce_flags enc) (length buf)) (cbor_encode_byte_string enc buf string len).
Proof.
  intros Hw Hlen Hs Hb. unfold cbor_encode_byte_string, cbor_byte_string.
  replace (Z.of_nat (length src)) with len; [by eapply encode_string_spec|].
  unfold slice in Hs. case_decide; [|done]. injection Hs as <-. rewrite drop_0, length_take. unfold is_u64 in *. lia.
Qed.

(** ** Containers *)

(** A container of [count] items, whose head was written if there was room. *)
Definition created (e : Z) (out head : list Z) (count remaining flags : Z) (n : nat)
    (r : CborError * CborEncoder * CborEncoder * list Z) : Prop :=
  let '(err, enc, container, buf) := r in
  length buf = n ∧ ce_remaining enc = remaining ∧ ce_flags enc = flags ∧
  ce_remaining container = count + 1 ∧ ce_flags container .& CborIteratorFlag_UnknownLength = 0 ∧
  (Z.of_nat (length out + length head) ≤ e → err = CborNoError ∧ wrote e (out ++ head) container buf) ∧
  (e < Z.of_nat (length out + length head) → err = CborErrorOutOfMemory).

Lemma create_container_spec e out enc buf length shifted :
  wrote e out enc buf → 0 ≤ length < 256 → shifted = 0x80 ∨ shifted = 0xa0 →
  ends (created e out (cbor_head shifted length) (if shifted =? 0xa0 then 2 * length else length) (counted enc) (ce_flags enc)
    (base.length buf)) (create_container enc buf length shifted).
Proof.
  intros [Hp He Ho Hr Hby] Hlen Hs. unfold create_container. cbv zeta. unfold CborIndefiniteLength, SIZE_MAX.
  rewrite (proj2 (Z.eqb_neq length _)) by lia. cbn [ce_remaining].
  set (container := if negb _ then _ else _).
  assert (Hc : wrote e out container buf ∧ ce_remaining container = (if shifted =? 0xa0 then 2 * length else length) + 1 ∧
    ce_flags container .& CborIteratorFlag_UnknownLength = 0).
  { unfold container. destruct Hs as [->| ->];
      [change (0x80 .& CborIteratorFlag_ContainerIsMap) with 0|change (0xa0 .& CborIteratorFlag_ContainerIsMap) with 0x20];
      cbn [Z.eqb Pos.eqb negb ce_remaining ce_flags]; (split; [by split|]); (split; [wrap|done]). }
  clearbody container. destruct Hc as (Hw & Hrem & Hfl).
  eapply ends_bind; [apply encode_number_spec; [done|wrap|lia|lia]|].
  intros [[err c1] buf1] (Hl1 & Hrem1 & Hfl1 & Hfit & Hnot). apply ends_ret. destruct (saturated_decrement_eq enc) as [Hr0 Hf0].
  split; [done|]. split; [done|]. split; [done|]. split; [congruence|]. split; [congruence|]. split; [done|]. intros H. by destruct (Hnot H).
Qed.

Lemma close_container_spec e out enc container buf :
  wrote e out container buf → ce_remaining container = 1 → ce_flags container .& CborIteratorFlag_UnknownLength = 0 →
  cbor_encoder_close_container enc container buf =
    Done (CborNoError, mk_cbor_encoder (ce_ptr container) (ce_end container) (ce_remaining enc) (ce_flags enc), buf).
Proof.
  intros [Hp He Ho Hr Hby] Hrem Hfl. unfold cbor_encoder_close_container. rewrite Hfl, Hrem. cbn [Z.eqb Pos.eqb negb ce_end].
  rewrite He. rewrite bool_decide_true by done. reflexivity.
Qed.

Lemma wrote_init size buf : 0 ≤ size ≤ Z.of_nat (length buf) → bytes_ok buf → wrote size [] (cbor_encoder_init size 0) buf.
Proof. intros. split; cbn; lia || done. Qed.

Lemma wrote_size e out enc buf : wrote e out enc buf → e < SIZE_MAX → cbor_encoder_get_buffer_size enc = Z.of_nat (length out).
Proof. intros [Hp _ _ Hr _] He. unfold cbor_encoder_get_buffer_size. rewrite Hp. apply u64_small. unfold is_u64, SIZE_MAX in *. lia. Qed.

Lemma wrote_frame e out enc enc' buf :
  wrote e out enc buf → ce_ptr enc' = ce_ptr enc → ce_end enc' = ce_end enc → wrote e out enc' buf.
Proof. intros [? ? ? ? ?] ? ?. split; congruence. Qed.
