(* ===== verification/CborParse.v ===== *)
(** * CBOR: what the parser reads where the encoder wrote

    The heads and strings of CborEncoder.v, read back at their place in a
    buffer, and two consequences: heads and strings can be told apart from what
    follows them. *)

From S2P Require Import Prelude Cbor CborSafe CborEncoder.
Local Open Scope Z_scope.
Local Open Scope c_scope.

(** The major types other than negative numbers, tags and simple values. *)
Definition major (shifted : Z) : Prop := shifted = 0 ∨ shifted = 0x40 ∨ shifted = 0x60 ∨ shifted = 0x80 ∨ shifted = 0xa0.

(** The first byte of a head, and the number of bytes after it. *)
Definition head_info (ui : Z) : Z :=
  if ui <? 24 then ui else if ui <=? 0xff then 24 else if ui <=? 0xffff then 25 else if ui <=? 0xffffffff then 26 else 27.
Definition head_more (ui : Z) : nat :=
  if ui <? 24 then 0 else if ui <=? 0xff then 1 else if ui <=? 0xffff then 2 else if ui <=? 0xffffffff then 4 else 8.

Lemma head_eq shifted ui : cbor_head shifted ui = (shifted + head_info ui) :: rev (le_bytes (head_more ui) ui).
Proof. unfold cbor_head, head_info, head_more. by destruct (ui <? 24), (ui <=? 0xff), (ui <=? 0xffff), (ui <=? 0xffffffff). Qed.

Lemma head_size_eq ui : head_size ui = 1 + Z.of_nat (head_more ui).
Proof. unfold head_size, head_more. by destruct (ui <? 24), (ui <=? 0xff), (ui <=? 0xffff), (ui <=? 0xffffffff). Qed.

Lemma head_size_range ui : 1 ≤ head_size ui ≤ 9.
Proof. rewrite head_size_eq. unfold head_more. destruct (ui <? 24), (ui <=? 0xff), (ui <=? 0xffff), (ui <=? 0xffffffff); lia. Qed.

Lemma head_length shifted ui : Z.of_nat (length (cbor_head shifted ui)) = head_size ui.
Proof. rewrite head_eq, head_size_eq. cbn [length]. rewrite length_rev, le_bytes_length. lia. Qed.

(** The five forms of a head. *)
Lemma head_cases ui :
  is_u64 ui →
  (head_info ui = ui ∧ head_more ui = 0%nat ∧ ui < 24) ∨
  (head_info ui = 24 ∧ head_more ui = 1%nat ∧ 24 ≤ ui < 256) ∨
  (head_info ui = 25 ∧ head_more ui = 2%nat ∧ 256 ≤ ui < 65536) ∨
  (head_info ui = 26 ∧ head_more ui = 4%nat ∧ 65536 ≤ ui < 4294967296) ∨
  (head_info ui = 27 ∧ head_more ui = 8%nat ∧ 4294967296 ≤ ui < 18446744073709551616).
Proof.
  intros Hu. unfold head_info, head_more, is_u64 in *.
  destruct (Z.ltb_spec ui 24); [by left|]. right. destruct (Z.leb_spec ui 255); [left; lia|]. right.
  destruct (Z.leb_spec ui 65535); [left; lia|]. right. destruct (Z.leb_spec ui 4294967295); [left; lia|]. right. lia.
Qed.

Section Parse.
Context (parser : CborParser) (Hsize : cp_end parser < UINT32_MAX).

(** The buffer holds [bs] at [ptr]. *)
Definition holds (ptr : Z) (bs : list Z) : Prop :=
  0 ≤ ptr ∧ ptr + Z.of_nat (length bs) ≤ cp_end parser ∧ cp_end parser ≤ Z.of_nat (length (cp_buffer parser)) ∧
  take (length bs) (drop (Z.to_nat ptr) (cp_buffer parser)) = bs.

Lemma holds_app ptr bs1 bs2 : holds ptr (bs1 ++ bs2) ↔ holds ptr bs1 ∧ holds (ptr + Z.of_nat (length bs1)) bs2.
Proof.
  unfold holds. rewrite length_app.
  assert (Hd : 0 ≤ ptr → drop (Z.to_nat (ptr + Z.of_nat (length bs1))) (cp_buffer parser) = drop (length bs1) (drop (Z.to_nat ptr) (cp_buffer parser))).
  { intros. rewrite drop_drop. f_equal. lia. }
  revert Hd. set (l := drop (Z.to_nat ptr) (cp_buffer parser)). intros Hd. split.
  - intros (Hp & He & Hb & Ht). rewrite Hd by done.
    assert (Ht1 : take (length bs1) l = bs1).
    { apply (f_equal (take (length bs1))) in Ht. rewrite take_take, take_app_length in Ht. by rewrite Nat.min_l in Ht by lia. }
    assert (Ht2 : take (length bs2) (drop (length bs1) l) = bs2).
    { apply (f_equal (drop (length bs1))) in Ht. rewrite drop_app_length in Ht. rewrite <- Ht at 2. by rewrite take_drop_commute, Nat.add_comm. }
    split; [split; [done|]|]; [split; [lia|done]|]. split; [lia|]. split; [lia|done].
  - intros ((Hp & He & Hb & Ht1) & (_ & He2 & _ & Ht2)). rewrite Hd in Ht2 by done. split; [done|]. split; [lia|]. split; [done|].
    rewrite <- (take_drop (length bs1) (take (length bs1 + length bs2) l)), take_take, Nat.min_l by lia. rewrite Ht1. f_equal.
    rewrite <- Ht2 at 2. by rewrite take_drop_commute, Nat.add_comm.
Qed.

Lemma holds_byte ptr b bs : holds ptr (b :: bs) → byte_at parser ptr = Done b.
Proof.
  intros (Hp & He & Hb & Ht). unfold byte_at. rewrite aget_lookup by done. cbn [length] in *.
  assert (Hl : take (S (length bs)) (drop (Z.to_nat ptr) (cp_buffer parser)) !! 0%nat = Some b) by (by rewrite Ht).
  rewrite lookup_take_lt, lookup_drop, Nat.add_0_r in Hl by lia. by rewrite Hl.
Qed.

Lemma holds_slice ptr bs : holds ptr bs → slice (cp_buffer parser) (Z.to_nat ptr) (length bs) = Some bs.
Proof. intros (Hp & He & Hb & Ht). rewrite slice_in by lia. by rewrite Ht. Qed.

Lemma holds_number ptr n x : holds ptr (rev (le_bytes n x)) → get_big_endian parser n ptr = Done (x mod 256 ^ Z.of_nat n).
Proof.
  intros Hh. unfold get_big_endian. apply holds_slice in Hh. rewrite length_rev, le_bytes_length in Hh. rewrite Hh.
  cbn [defined mbind run_bind]. by rewrite rev_involutive, le_val_bytes.
Qed.

Lemma holds_head ptr shifted ui :
  holds ptr (cbor_head shifted ui) →
  byte_at parser ptr = Done (shifted + head_info ui) ∧ holds (ptr + 1) (rev (le_bytes (head_more ui) ui)) ∧
  0 ≤ ptr ∧ ptr + head_size ui ≤ cp_end parser.
Proof.
  rewrite head_eq. intros Hh. split; [by eapply holds_byte|].
  change (?a :: ?l) with ([a] ++ l) in Hh. apply holds_app in Hh as [(Hp & _) Hh]. split; [done|]. split; [done|].
  destruct Hh as (_ & He & _). rewrite length_rev, le_bytes_length in He. rewrite head_size_eq. cbn [length] in He. lia.
Qed.

(** ** Numbers *)

Lemma info_bits shifted ui :
  major shifted → is_u64 ui → 0 ≤ head_info ui < 32 ∧ is_u8 (shifted + head_info ui) ∧
  (shifted + head_info ui) .& SmallValueMask = head_info ui ∧ (shifted + head_info ui) .& MajorTypeMask = shifted.
Proof.
  intros Hm Hu. assert (0 ≤ head_info ui < 32) by (unfold is_u64 in *; destruct (head_cases ui Hu) as [?|[?|[?|[?|?]]]]; lia).
  assert (Hb : is_u8 (shifted + head_info ui)) by (unfold is_u8; destruct Hm as [->|[->|[->|[->| ->]]]]; lia).
  split; [done|]. split; [done|]. rewrite small_mod, major_div by done.
  destruct Hm as [->|[->|[->|[->| ->]]]]; lia.
Qed.

Lemma read_number ptr ui :
  is_u64 ui → holds ptr (rev (le_bytes (head_more ui) ui)) → head_more ui ≠ 0%nat →
  get_big_endian parser (head_more ui) ptr = Done ui ∧ (head_more ui = 1%nat → byte_at parser ptr = Done ui).
Proof.
  intros Hu Hh Hn. split.
  - rewrite (holds_number _ _ _ Hh). f_equal. unfold is_u64 in *.
    destruct (head_cases ui Hu) as [(_ & Hm & ?)|[(_ & Hm & ?)|[(_ & Hm & ?)|[(_ & Hm & ?)|(_ & Hm & ?)]]]];
      [done|..]; rewrite Hm; apply Z.mod_small; cbn; lia.
  - intros H1. destruct (head_cases ui Hu) as [(_ & H2 & ?)|[(_ & H2 & ?)|[(_ & H2 & ?)|[(_ & H2 & ?)|(_ & H2 & ?)]]]]; try congruence.
    rewrite H2 in Hh. apply holds_byte in Hh. rewrite Hh. f_equal. lia.
Qed.

Lemma extract_number_head ptr shifted ui :
  major shifted → is_u64 ui → holds ptr (cbor_head shifted ui) →
  _cbor_value_extract_number parser ptr = Done (CborNoError, ptr + head_size ui, ui).
Proof.
  intros Hm Hu Hh. destruct (info_bits shifted ui Hm Hu) as (_ & _ & Hi & _).
  destruct (holds_head _ _ _ Hh) as (Hb & Hmore & Hp & He). unfold _cbor_value_extract_number. rewrite Hb. cbn [mbind run_bind].
  rewrite Hi. cbv zeta. unfold Value8Bit, Value64Bit. rewrite head_size_eq in *.
  pose proof (read_number (ptr + 1) ui Hu Hmore) as Hread. unfold get16, get32, get64.
  destruct (head_cases ui Hu) as [(-> & Hn & ?)|[(-> & Hn & ?)|[(-> & Hn & ?)|[(-> & Hn & ?)|(-> & Hn & ?)]]]];
    rewrite Hn in *; [by rewrite (proj2 (Z.ltb_lt _ _)) by done|..];
    destruct (Hread ltac:(done)) as [Hr Hr1]; cbn [Z.ltb Z.compare Pos.compare Pos.compare_cont];
    (match goal with |- context [1 ≪ ?x] => let v := eval vm_compute in (1 ≪ x) in change (1 ≪ x) with v end);
    rewrite (proj2 (Z.ltb_ge _ _)) by lia; cbn [Z.eqb Pos.eqb]; rewrite ?Hr, ?Hr1 by done; cbn [mbind run_bind];
    do 2 f_equal; f_equal; lia.
Qed.

Lemma extract_length_head ptr shifted ui :
  major shifted → is_u64 ui → holds ptr (cbor_head shifted ui) →
  extract_length parser ptr = Done (CborNoError, ptr + head_size ui, ui).
Proof.
  intros Hm Hu Hh. unfold extract_length. rewrite (extract_number_head _ _ _ Hm Hu Hh). cbn [mbind run_bind].
  change (failed CborNoError) with false. cbn. rewrite u64_small by done. by rewrite Z.eqb_refl.
Qed.

(** ** Values *)

(** A value whose head is [shifted], [ui], at [ptr]. *)
Record read_head (ptr remaining shifted ui : Z) (v : CborValue) : Prop := mk_read_head {
  rh_ptr : cv_ptr v = ptr;
  rh_remaining : cv_remaining v = remaining;
  rh_type : cv_type v = shifted;
  rh_known : has_flag v CborIteratorFlag_UnknownLength = false;
  rh_plain : has_flag v CborIteratorFlag_NegativeInteger = false;
  rh_number : _cbor_value_extract_int64_helper parser v = Done ui
}.

Lemma preparse_head it shifted ui :
  major shifted → is_u64 ui → holds (cv_ptr it) (cbor_head shifted ui) →
  ends (λ r, r.1 = CborNoError ∧ read_head (cv_ptr it) (cv_remaining it) shifted ui r.2) (preparse_value parser it).
Proof.
  intros Hm Hu Hh. destruct (info_bits shifted ui Hm Hu) as (Hrange & _ & Hi & Hmt).
  destruct (holds_head _ _ _ Hh) as (Hb & Hmore & Hp & He). pose proof (head_size_range ui) as Hsr. unfold preparse_value. cbv zeta. cbn [cv_ptr].
  rewrite (proj2 (Z.eqb_neq _ _)) by lia. rewrite Hb. cbn [mbind run_bind]. rewrite Hi, Hmt.
  cbn [cv_ptr cv_remaining cv_extra cv_type cv_flags].
  pose proof (kept_flags (cv_flags it)) as Hf. cbv zeta in Hf. set (f := cv_flags it .& _) in *. clearbody f.
  unfold Value64Bit, Value8Bit, Value16Bit, MajorTypeShift. rewrite head_size_eq in He.
  pose proof (read_number (cv_ptr it + 1) ui Hu Hmore) as Hread.
  assert (Hm7 : (shifted ≫ 5 =? 7) = false ∧ (shifted ≫ 5 =? 1) = false) by (by destruct Hm as [->|[->|[->|[->| ->]]]]).
  destruct Hm7 as [-> ->].
  assert (Hplain : ∀ e, _cbor_value_extract_int64_helper parser (mk_cbor_value (cv_ptr it) (cv_remaining it) e shifted f) = Done e ∧
    has_flag (mk_cbor_value (cv_ptr it) (cv_remaining it) e shifted f) CborIteratorFlag_UnknownLength = false ∧
    has_flag (mk_cbor_value (cv_ptr it) (cv_remaining it) e shifted f) CborIteratorFlag_NegativeInteger = false).
  { intros e. unfold _cbor_value_extract_int64_helper, has_flag. cbn [cv_flags cv_extra]. by destruct Hf as [->|[->|[->| ->]]]. }
  assert (Hlarge : ∀ e, head_info ui = 26 ∨ head_info ui = 27 →
    _cbor_value_extract_int64_helper parser
      (mk_cbor_value (cv_ptr it) (cv_remaining it) e shifted (f .| CborIteratorFlag_IntegerValueTooLarge)) = Done ui ∧
    has_flag (mk_cbor_value (cv_ptr it) (cv_remaining it) e shifted (f .| CborIteratorFlag_IntegerValueTooLarge)) CborIteratorFlag_UnknownLength = false ∧
    has_flag (mk_cbor_value (cv_ptr it) (cv_remaining it) e shifted (f .| CborIteratorFlag_IntegerValueTooLarge)) CborIteratorFlag_NegativeInteger = false).
  { intros e H67. unfold _cbor_value_extract_int64_helper, has_flag, _cbor_value_decode_int64_internal. cbn [cv_flags cv_ptr].
    split; [|by destruct Hf as [->|[->|[->| ->]]]].
    replace (negb _) with true by (by destruct Hf as [->|[->|[->| ->]]]). rewrite Hb. cbn [mbind run_bind]. rewrite Hi.
    assert (Hodd : (shifted + head_info ui) .& 1 = head_info ui mod 2).
    { change 1 with (Z.ones 1). rewrite land_ones_mod by lia. change (2 ^ 1) with 2. destruct Hm as [->|[->|[->|[->| ->]]]]; lia. }
    rewrite Hodd. unfold get32, get64.
    destruct (head_cases ui Hu) as [(? & ?)|[(? & ?)|[(? & ?)|[(Hi4 & Hn & ?)|(Hi4 & Hn & ?)]]]]; try lia;
      rewrite Hi4; rewrite Hn in Hread; by destruct (Hread ltac:(done)) as [-> _]. }
  destruct (head_cases ui Hu) as [(Hinfo & Hn & ?)|[(Hinfo & Hn & ?)|[(Hinfo & Hn & ?)|[(Hinfo & Hn & ?)|(Hinfo & Hn & ?)]]]];
    rewrite Hinfo in *; rewrite Hn in *.
  - rewrite (proj2 (Z.ltb_ge 27 _)) by lia. rewrite (proj2 (Z.ltb_lt _ 24)) by lia. rewrite (proj2 (Z.ltb_ge _ _)) by lia.
    apply ends_ret. split; [done|]. by destruct (Hplain ui) as (? & ? & ?); split.
  - destruct (Hread ltac:(done)) as [_ Hr]. cbn [Z.ltb Z.compare Pos.compare Pos.compare_cont].
    rewrite (proj2 (Z.ltb_ge _ _)) by (change (1 ≪ (24 - 24)) with 1; lia).
    cbn [Z.eqb Pos.eqb]. rewrite Hr by done. cbn [mbind run_bind]. apply ends_ret. split; [done|]. by destruct (Hplain ui) as (? & ? & ?); split.
  - destruct (Hread ltac:(done)) as [Hr _]. cbn [Z.ltb Z.compare Pos.compare Pos.compare_cont].
    rewrite (proj2 (Z.ltb_ge _ _)) by (change (1 ≪ (25 - 24)) with 2; lia).
    cbn [Z.eqb Pos.eqb]. unfold get16. rewrite Hr by done. cbn [mbind run_bind]. apply ends_ret. split; [done|]. by destruct (Hplain ui) as (? & ? & ?); split.
  - cbn [Z.ltb Z.compare Pos.compare Pos.compare_cont]. rewrite (proj2 (Z.ltb_ge _ _)) by (change (1 ≪ (26 - 24)) with 4; lia).
    apply ends_ret. split; [done|]. by destruct (Hlarge 26 ltac:(lia)) as (? & ? & ?); split.
  - cbn [Z.ltb Z.compare Pos.compare Pos.compare_cont]. rewrite (proj2 (Z.ltb_ge _ _)) by (change (1 ≪ (27 - 24)) with 8; lia).
    apply ends_ret. split; [done|]. by destruct (Hlarge 27 ltac:(lia)) as (? & ? & ?); split.
Qed.

(** ** The value after the one at hand *)

(** From a value of type [t] with [r] left, the value at [p] comes out as in [P]. *)
Definition continues (p r t : Z) (P : CborError * CborValue → Prop) : Prop :=
  (∀ res, P res → res.1 = CborNoError) ∧
  ∀ v, cv_ptr v = p → cv_remaining v = r → cv_type v = t → ends P (preparse_next_value parser v).

Lemma continues_head p r t shifted ui :
  t ≠ CborTagType → 1 < r < UINT32_MAX → major shifted → is_u64 ui → holds p (cbor_head shifted ui) →
  continues p r t (λ res, res.1 = CborNoError ∧ read_head p (r - 1) shifted ui res.2).
Proof.
  intros Ht Hr Hm Hu Hh. split; [by intros ? []|]. intros v <- <- <-. unfold preparse_next_value. cbv zeta.
  rewrite (proj2 (Z.eqb_neq (cv_type v) _)) by done. rewrite (proj2 (Z.eqb_neq (cv_remaining v) UINT32_MAX)) by lia.
  cbn [negb andb cv_remaining cv_flags cv_ptr cv_extra cv_type].
  rewrite u32_small by (unfold is_u32, UINT32_MAX in *; lia). rewrite (proj2 (Z.eqb_neq (cv_remaining v - 1) 0)) by lia.
  unfold preparse_next_value_nodecrement. cbn [cv_remaining cv_ptr]. rewrite (proj2 (Z.eqb_neq (cv_remaining v - 1) UINT32_MAX)) by lia.
  cbn [andb mbind run_bind]. eapply ends_mono; [by eapply preparse_head|]. done.
Qed.

Lemma continues_end p t :
  t ≠ CborTagType →
  continues p 1 t (λ res, res.1 = CborNoError ∧ cv_ptr res.2 = p ∧ cv_remaining res.2 = 0 ∧ cv_type res.2 = CborInvalidType).
Proof.
  intros Ht. split; [by intros ? []|]. intros v <- Hr <-. unfold preparse_next_value. cbv zeta.
  rewrite (proj2 (Z.eqb_neq (cv_type v) _)) by done. rewrite Hr. by apply ends_ret.
Qed.

Lemma advance_integer v ptr r ui P :
  read_head ptr r 0 ui v → is_u64 ui → holds ptr (cbor_head 0 ui) → r ≠ 0 → continues (ptr + head_size ui) r 0 P →
  ends P (cbor_value_advance parser v).
Proof.
  intros [Hp Hr Ht _ _ _] Hu Hh Hr0 [_ Hc]. unfold cbor_value_advance. rewrite Ht, Hr. cbn [Z.eqb negb cbor_assert mbind run_bind].
  rewrite (proj2 (Z.eqb_neq r 0)) by done. unfold CBOR_PARSER_MAX_RECURSIONS. cbn [advance_recursive]. rewrite Ht. cbn [is_fixed_type].
  unfold advance_internal. rewrite Hp, (extract_number_head ptr 0 ui) by (done || by left). cbn [mbind run_bind].
  change (failed CborNoError) with false. cbn [negb cbor_assert mbind run_bind].
  unfold cbor_value_is_byte_string, cbor_value_is_text_string. cbn [cv_type]. rewrite Ht. apply Hc; done.
Qed.

(** ** Strings *)

Lemma string_no_break ui : (0x40 + head_info ui =? BreakByte) = false ∨ 32 ≤ head_info ui.
Proof. unfold BreakByte. destruct (Z.eqb_spec (0x40 + head_info ui) 0xff); [right; lia|by left]. Qed.

(** The whole string is the first chunk, and the second call ends it. *)
Lemma first_chunk v ptr r s :
  read_head ptr r 0x40 (Z.of_nat (length s)) v → is_u64 (Z.of_nat (length s)) → holds ptr (cbor_byte_string s) →
  let p := ptr + head_size (Z.of_nat (length s)) in
  get_string_chunk parser v =
    Done (CborNoError, Some (p, Z.of_nat (length s)),
      mk_cbor_value (p + Z.of_nat (length s)) r (cv_extra v) 0x40 (cv_flags v .| CborIteratorFlag_IteratingStringChunks)) ∧
  holds p s.
Proof.
  intros [Hp Hr Ht Hk Hpl _] Hu Hh p. unfold cbor_byte_string in Hh. apply holds_app in Hh as [Hh Hs]. rewrite head_length in Hs.
  split; [|done]. assert (Hmaj : major 0x40) by (right; by left). destruct (info_bits 0x40 _ Hmaj Hu) as (Hrange & _ & _ & Hmt).
  destruct (holds_head _ _ _ Hh) as (Hb & _ & Hp0 & He). unfold get_string_chunk. cbv zeta.
  change CborIteratorFlag_IteratingStringChunks with CborIteratorFlag_NegativeInteger. rewrite Hpl. cbn [andb].
  assert (Hprep : prepare_string_iteration v = v).
  { unfold prepare_string_iteration, cbor_value_is_length_known. by rewrite Hk. }
  rewrite Hprep, Hp. pose proof (head_size_range (Z.of_nat (length s))). rewrite (proj2 (Z.eqb_neq _ _)) by lia.
  rewrite Hb. cbn [mbind run_bind]. destruct (string_no_break (Z.of_nat (length s))) as [->|]; [|lia].
  rewrite Hmt, Ht. cbn [Z.eqb Pos.eqb]. rewrite (extract_length_head ptr 0x40 (Z.of_nat (length s))) by done.
  cbn [mbind run_bind]. change (failed CborNoError) with false. cbn iota. destruct Hs as (_ & Hend & _).
  rewrite (proj2 (Z.ltb_ge _ _)) by (unfold p in *; lia). by rewrite Hr.
Qed.

Lemma last_chunk v p r extra fl P :
  has_flag v CborIteratorFlag_UnknownLength = false → continues p r 0x40 P →
  fl = cv_flags v .| CborIteratorFlag_IteratingStringChunks →
  ends (λ res, let '(err, chunk, next) := res in chunk = None ∧ P (err, next)) (get_string_chunk parser (mk_cbor_value p r extra 0x40 fl)).
Proof.
  intros Hk [_ Hc] ->. unfold get_string_chunk. cbv zeta. rewrite iterating_set. unfold cbor_value_is_length_known, has_flag. cbn [cv_flags].
  assert (Hz : ((cv_flags v .| CborIteratorFlag_IteratingStringChunks) .& CborIteratorFlag_UnknownLength =? 0) = true).
  { unfold has_flag in Hk. apply negb_false_iff, Z.eqb_eq in Hk. apply Z.eqb_eq. by rewrite Z.land_lor_distr_l, Hk. }
  rewrite Hz. cbn [negb andb]. eapply ends_bind; [apply Hc; done|]. intros [err next] HP. by apply ends_ret.
Qed.

Lemma string_chunks_loop_whole fuel v ptr r s dest buflen P :
  read_head ptr r 0x40 (Z.of_nat (length s)) v → is_u64 (Z.of_nat (length s)) → holds ptr (cbor_byte_string s) →
  continues (ptr + head_size (Z.of_nat (length s)) + Z.of_nat (length s)) r 0x40 P →
  Z.of_nat (length s) ≤ buflen → (1 < fuel)%nat → ends (λ d, True) (iterate_copy dest 0 s) →
  ends (λ res, let '(err, result, dest', total, next) := res in
      P (err, next) ∧ result = true ∧ total = Z.of_nat (length s) ∧ Done dest' = iterate_copy dest 0 s)
    (string_chunks_loop parser fuel v dest buflen 0 true).
Proof.
  intros Hv Hu Hh Hc Hbuf Hfuel (dest' & Hcopy & _). destruct fuel as [|[|fuel]]; [lia..|]. cbn [string_chunks_loop].
  destruct (first_chunk _ _ _ _ Hv Hu Hh) as [Hfirst Hs]. rewrite Hfirst. cbn [mbind run_bind]. change (failed CborNoError) with false. cbn iota zeta.
  rewrite Z.add_0_l, u64_small by done. rewrite (proj2 (Z.ltb_ge _ _)) by (unfold is_u64, SIZE_MAX in *; lia).
  rewrite (proj2 (Z.leb_le _ _)) by done. cbn [andb]. rewrite Nat2Z.id, (holds_slice _ _ Hs). cbn [defined mbind run_bind].
  rewrite Hcopy. cbn [mbind run_bind].
  eapply ends_bind; [eapply (last_chunk v); [apply (rh_known _ _ _ _ _ Hv)|exact Hc|done]|].
  intros [[err chunk] next] [-> HP]. assert (err = CborNoError) as -> by apply (proj1 Hc _ HP). change (failed CborNoError) with false. cbn iota.
  by apply ends_ret.
Qed.

(** The destination starts with the string; what follows is unchanged but for the NUL. *)
Definition string_in (dest dest' : option (list Z)) (s : list Z) : Prop :=
  match dest, dest' with
  | None, None => True
  | Some d, Some d' => length d' = length d ∧ take (length s) d' = s
  | _, _ => False
  end.

Lemma copy_string_whole v ptr r s dest buflen P :
  read_head ptr r 0x40 (Z.of_nat (length s)) v → is_u64 (Z.of_nat (length s)) → holds ptr (cbor_byte_string s) →
  continues (ptr + head_size (Z.of_nat (length s)) + Z.of_nat (length s)) r 0x40 P →
  Z.of_nat (length s) ≤ buflen → match dest with None => True | Some d => buflen ≤ Z.of_nat (length d) end →
  ends (λ res, let '(err, dest', len, next) := res in
      P (err, next) ∧ err = CborNoError ∧ len = Z.of_nat (length s) ∧ string_in dest dest' s)
    (_cbor_value_copy_string parser v dest buflen).
Proof.
  intros Hv Hu Hh Hc Hbuf Hdest. unfold _cbor_value_copy_string, iterate_string_chunks.
  assert (Hcopy : ends (λ d, string_in dest d s) (iterate_copy dest 0 s)).
  { destruct dest as [d|]; [|by apply ends_ret]. unfold iterate_copy. rewrite memcpy_at_in by lia. apply ends_ret.
    change (Z.to_nat 0) with 0%nat. cbn [take Nat.add]. rewrite take_0. cbn [app]. split; [rewrite length_app, length_drop; lia|by rewrite take_app_length]. }
  assert (Hhold := Hh). unfold cbor_byte_string in Hhold. apply holds_app in Hhold as [Hhead _].
  assert (Hfuel : (1 < enough_fuel parser)%nat) by (unfold enough_fuel; lia).
  destruct Hcopy as (d1 & Hd1 & Hin1).
  unfold cbor_value_is_byte_string, cbor_value_is_text_string. rewrite (rh_type _ _ _ _ _ Hv). cbn [Z.eqb Pos.eqb orb cbor_assert mbind run_bind].
  destruct (string_chunks_loop_whole (enough_fuel parser) v ptr r s dest buflen P) as
    ([[[[err result] dest'] total] next] & -> & HP & -> & -> & Hd'); try done; [by eexists|].
  assert (err = CborNoError) as -> by apply (proj1 Hc _ HP). cbn [mbind run_bind]. change (failed CborNoError) with false. cbn iota.
  rewrite Hd1 in Hd'. injection Hd' as ->. cbn [andb].
  assert (Hnul : ends (λ d, string_in dest d s)
    (if Z.of_nat (length s) <? buflen then iterate_copy d1 (Z.of_nat (length s)) [0] else Done d1)).
  { destruct (Z.ltb_spec (Z.of_nat (length s)) buflen); [|by apply ends_ret].
    destruct dest as [d|], d1 as [d1|]; try done; [|by apply ends_ret]. destruct Hin1 as [Hl1 Ht1]. unfold iterate_copy.
    rewrite Nat2Z.id, memcpy_at_in by (cbn [length]; lia). apply ends_ret. split.
    - rewrite !length_app, length_take, length_drop. cbn [length]. lia.
    - rewrite Ht1. by rewrite take_app_length. }
  destruct Hnul as (d2 & -> & Hin2). cbn [mbind run_bind]. change (failed CborNoError) with false. cbn iota. by apply ends_ret.
Qed.

Lemma copy_byte_string_whole v ptr r s d buflen P :
  read_head ptr r 0x40 (Z.of_nat (length s)) v → is_u64 (Z.of_nat (length s)) → holds ptr (cbor_byte_string s) →
  continues (ptr + head_size (Z.of_nat (length s)) + Z.of_nat (length s)) r 0x40 P →
  Z.of_nat (length s) ≤ buflen ≤ Z.of_nat (length d) →
  ends (λ res, let '(err, d', len, next) := res in
      P (err, next) ∧ err = CborNoError ∧ len = Z.of_nat (length s) ∧ length d' = length d ∧ take (length s) d' = s)
    (cbor_value_copy_byte_string parser v d buflen).
Proof.
  intros Hv Hu Hh Hc Hbuf. unfold cbor_value_copy_byte_string, cbor_value_is_byte_string. rewrite (rh_type _ _ _ _ _ Hv).
  unfold CborByteStringType. cbn [Z.eqb Pos.eqb cbor_assert mbind run_bind].
  eapply ends_bind; [apply (copy_string_whole v ptr r s (Some d) buflen P); lia || done|].
  intros [[[err [d'|]] len] next] (HP & -> & -> & Hin); [|done]. by apply ends_ret.
Qed.

Lemma calculate_string_length_whole v ptr r s P :
  read_head ptr r 0x40 (Z.of_nat (length s)) v → is_u64 (Z.of_nat (length s)) → holds ptr (cbor_byte_string s) →
  continues (ptr + head_size (Z.of_nat (length s)) + Z.of_nat (length s)) r 0x40 P →
  cbor_value_calculate_string_length parser v = Done (CborNoError, Z.of_nat (length s)).
Proof.
  intros Hv Hu Hh Hc. unfold cbor_value_calculate_string_length.
  destruct (copy_string_whole v ptr r s None SIZE_MAX P) as ([[[err d'] len] next] & -> & _ & -> & -> & _); try done.
  unfold is_u64, SIZE_MAX in *. lia.
Qed.

Lemma get_length_head v ptr r shifted ui :
  read_head ptr r shifted ui v → is_u64 ui → get_length parser v = Done (CborNoError, ui).
Proof.
  intros [_ _ _ Hk _ Hn] Hu. unfold get_length, cbor_value_is_length_known. rewrite Hk, Hn. cbn. by rewrite u64_small, Z.eqb_refl by done.
Qed.

Lemma byte_string_head v ptr r ui :
  read_head ptr r 0x40 ui v → is_u64 ui →
  cbor_value_is_byte_string v = true ∧ cbor_value_get_string_length parser v = Done (CborNoError, ui).
Proof.
  intros Hv Hu. assert (Hb : cbor_value_is_byte_string v = true) by (unfold cbor_value_is_byte_string; by rewrite (rh_type _ _ _ _ _ Hv)).
  split; [done|]. unfold cbor_value_get_string_length. rewrite Hb. cbn [orb cbor_assert mbind run_bind]. by eapply get_length_head.
Qed.

Lemma advance_string v ptr r s P :
  read_head ptr r 0x40 (Z.of_nat (length s)) v → is_u64 (Z.of_nat (length s)) → holds ptr (cbor_byte_string s) → r ≠ 0 →
  continues (ptr + head_size (Z.of_nat (length s)) + Z.of_nat (length s)) r 0x40 P →
  ends P (cbor_value_advance parser v).
Proof.
  intros Hv Hu Hh Hr0 Hc. pose proof Hv as [_ Hr Ht _ _ _]. unfold cbor_value_advance. rewrite Ht, Hr. cbn [Z.eqb Pos.eqb negb cbor_assert mbind run_bind].
  rewrite (proj2 (Z.eqb_neq r 0)) by done. unfold CBOR_PARSER_MAX_RECURSIONS. cbn [advance_recursive]. unfold cbor_value_is_container.
  rewrite Ht. cbn [is_fixed_type].
  destruct (copy_string_whole v ptr r s None SIZE_MAX P) as ([[[err d'] len] next] & Heq & HP & -> & -> & _); try done.
  { unfold is_u64, SIZE_MAX in *. lia. }
  change (ends P ('(err, _, _, next) ← _cbor_value_copy_string parser v None SIZE_MAX; Done (err, next))). rewrite Heq. by apply ends_ret.
Qed.

(** ** Containers *)

Lemma enter_items v ptr r shifted count sh ui :
  read_head ptr r shifted count v → shifted = 0x80 ∨ shifted = 0xa0 → 0 < count < 256 →
  holds ptr (cbor_head shifted count) → major sh → is_u64 ui → holds (ptr + head_size count) (cbor_head sh ui) →
  ends (λ res, res.1 = CborNoError ∧ read_head (ptr + head_size count) (if shifted =? 0xa0 then count * 2 else count) sh ui res.2)
    (cbor_value_enter_container parser v).
Proof.
  intros [Hp Hr Ht Hk _ _] Hs Hcount Hh Hm Hu Hh'. unfold cbor_value_enter_container, cbor_value_is_container. rewrite Ht, Hk.
  replace ((shifted =? CborArrayType) || (shifted =? CborMapType)) with true by (by destruct Hs as [->| ->]). cbn [cbor_assert mbind run_bind].
  rewrite Hp, (extract_number_head ptr shifted count) by (first [done | wrap | destruct Hs as [->| ->]; unfold major; tauto]).
  cbn [mbind run_bind]. change (failed CborNoError) with false. cbn [negb cbor_assert mbind run_bind]. cbv zeta.
  rewrite (u32_small count) by wrap. rewrite Z.eqb_refl, (proj2 (Z.eqb_neq count UINT32_MAX)) by wrap. cbn [negb orb].
  rewrite (proj2 (Z.ltb_ge (UINT32_MAX / 2) _)) by (change (UINT32_MAX / 2) with 2147483647; lia). rewrite andb_false_r.
  rewrite (proj2 (Z.eqb_neq count 0)) by lia. unfold preparse_next_value_nodecrement. cbn [cv_remaining cv_ptr].
  rewrite (u32_small (count * 2)) by wrap. unfold CborMapType.
  assert (Hrem : (if shifted =? 0xa0 then count * 2 else count) ≠ UINT32_MAX) by (destruct (_ =? _); unfold UINT32_MAX; lia).
  rewrite (proj2 (Z.eqb_neq _ _) Hrem). cbn [andb mbind run_bind].
  eapply ends_mono; [eapply preparse_head; [done|done|exact Hh']|]. done.
Qed.

Lemma advance_empty_map v ptr r P :
  read_head ptr r 0xa0 0 v → holds ptr (cbor_head 0xa0 0) → r ≠ 0 → continues (ptr + 1) r 0xa0 P →
  ends P (cbor_value_advance parser v).
Proof.
  intros [Hp Hr Ht Hk Hpl Hn] Hh Hr0 [_ Hc]. unfold cbor_value_advance. rewrite Ht, Hr. cbn [Z.eqb Pos.eqb negb cbor_assert mbind run_bind].
  rewrite (proj2 (Z.eqb_neq r 0)) by done. unfold CBOR_PARSER_MAX_RECURSIONS.
  assert (He : cbor_value_enter_container parser v =
    Done (CborNoError, mk_cbor_value (ptr + 1) 0 (cv_extra v) CborInvalidType (cv_flags v))).
  { unfold cbor_value_enter_container, cbor_value_is_container. rewrite Ht, Hk, Hp.
    rewrite (extract_number_head ptr 0xa0 0) by (done || (unfold major; tauto)). reflexivity. }
  cbn [advance_recursive]. unfold cbor_value_is_container. rewrite Ht.
  change (ends P ('(err, recursed) ← cbor_value_enter_container parser v;
    if failed err then Done (err, v)
    else '(err, recursed) ← advance_loop (advance_recursive parser 1023) (enough_fuel parser) recursed;
      if failed err then Done (err, v) else cbor_value_leave_container parser v recursed)).
  rewrite He. cbn [mbind run_bind]. change (failed CborNoError) with false. cbn iota. unfold enough_fuel. cbn [advance_loop].
  unfold cbor_value_at_end. cbn [cv_remaining Z.eqb mbind run_bind]. change (failed CborNoError) with false. cbn iota.
  unfold cbor_value_leave_container, cbor_value_is_container. rewrite Ht. cbn [cv_type Z.eqb Pos.eqb orb cbor_assert mbind run_bind].
  by apply Hc.
Qed.

Lemma leave_last v recursed :
  cv_remaining v = 1 → (cv_type v = 0x80 ∨ cv_type v = 0xa0) → cv_type recursed = CborInvalidType →
  ends (λ res, res.1 = CborNoError) (cbor_value_leave_container parser v recursed).
Proof.
  intros Hr Ht Hrec. unfold cbor_value_leave_container, cbor_value_is_container. rewrite Hrec.
  replace ((cv_type v =? CborArrayType) || (cv_type v =? CborMapType)) with true by (by destruct Ht as [->| ->]).
  cbn [Z.eqb Pos.eqb cbor_assert mbind run_bind].
  destruct (continues_end (cv_ptr recursed) (cv_type v)) as [_ Hc]; [destruct Ht as [->| ->]; done|].
  eapply ends_mono; [apply Hc; done|]. intros ? []. done.
Qed.
End Parse.
