(* ===== verification/ChannelCose.v ===== *)
(** * COSE MAC0 messages (nexus_cose_mac0_common.c, nexus_cose_mac0_sign.c,
    nexus_cose_mac0_verify.c)

    Arrays that the code does not initialise are [garbage], so that no theorem
    can depend on what they hold.  A message is a list of bytes, and the
    pointer to its payload an offset into it.  The result structures of a call
    that fails are not used by the callers and not modelled. *)

From S2P Require Import Prelude Check Cbor CborEncoder.
Local Open Scope Z_scope.
Local Open Scope c_scope.

Definition NEXUS_CHANNEL_MAX_CBOR_PAYLOAD_SIZE : Z := 98.
Definition NEXUS_COSE_MAC0_MAX_ENCODED_CBOR_OBJECT_SIZE : Z := NEXUS_CHANNEL_MAX_CBOR_PAYLOAD_SIZE.
Definition NEXUS_COSE_MAC0_MAX_COAP_URI_LENGTH : Z := 11.
Definition NEXUS_COSE_MAC0_MAX_AAD_SIZE : Z := 1 + 2 + NEXUS_COSE_MAC0_MAX_COAP_URI_LENGTH.
Definition NEXUS_COSE_MAC0_MAX_PROTECTED_HEADER_BSTR_SIZE : Z := 7.
Definition NEXUS_COSE_MAC0_MAX_AAD_SIZE_FOR_CREATING_MAC_STRUCT : Z := 25 + 1.
Definition NEXUS_COSE_MAC0_NONCE_IV_LABEL_KEY : Z := 5.
Definition NEXUS_COSE_MAC0_SECTION_2_COSE_MESSAGE_ARRAY_LENGTH : Z := 4.
Definition NEXUS_COSE_MAC0_VALID_COSE_MESSAGE_ARRAY_LENGTH : Z := 4.
Definition NEXUS_COSE_MAC0_CBOR_SINGLE_BYTE_INT_LENGTH : Z := 24.
Definition mac_struct_size : Z :=
  4 + NEXUS_COSE_MAC0_MAX_PROTECTED_HEADER_BSTR_SIZE + NEXUS_COSE_MAC0_MAX_AAD_SIZE + NEXUS_COSE_MAC0_MAX_ENCODED_CBOR_OBJECT_SIZE.
(** The characters of "MAC0". *)
Definition NEXUS_COSE_MAC0_SECTION_6_3_CONTEXT_STRING : list Z := [0x4d; 0x41; 0x43; 0x30].

Inductive nexus_cose_error :=
| NEXUS_COSE_ERROR_NONE
| NEXUS_COSE_ERROR_BUFFER_TOO_SMALL
| NEXUS_COSE_ERROR_CBOR_ENCODER
| NEXUS_COSE_ERROR_CBOR_PARSER
| NEXUS_COSE_ERROR_INPUT_DATA_INVALID
| NEXUS_COSE_ERROR_MAC_TAG_INVALID.

#[export] Instance cose_error_eq_dec : EqDecision nexus_cose_error.
Proof. solve_decision. Defined.

Record nexus_cose_mac0_common_external_aad_t := mk_aad {
  coap_method : Z;
  coap_uri : list Z;
  coap_uri_len : Z
}.

Record nexus_cose_mac0_common_macparams_t := mk_macparams {
  mp_key : list Z;
  nonce_to_protect : Z;
  mp_aad : nexus_cose_mac0_common_external_aad_t;
  mp_payload : list Z;
  mp_payload_len : Z
}.

Record nexus_cose_mac0_cbor_data_t := mk_cbor_data { cd_buf : list Z; cd_len : Z }.

Record nexus_cose_mac0_verify_ctx_t := mk_verify_ctx {
  vc_key : list Z;
  vc_aad : nexus_cose_mac0_common_external_aad_t;
  vc_payload : list Z;
  vc_payload_len : Z
}.

(** [x_payload] is the offset of the payload in the message. *)
Record nexus_cose_mac0_extracted_cose_params_t := mk_extracted {
  x_nonce : Z;
  x_payload : Z;
  x_payload_len : Z;
  x_tag : list Z
}.

(** What the arrays on the stack hold before they are written. *)
Record garbage := mk_garbage {
  g_hdr_buf : list Z;
  g_struct_tmp_buf : list Z;
  g_mac_struct : nexus_cose_mac0_cbor_data_t;
  g_sign_tmp_buf : list Z;
  g_verify_tmp_buffer : list Z;
  g_tag : list Z
}.

Definition nexus_assert : bool → run unit := cbor_assert.

Section Cose.
Variable g : garbage.

(** ** Common *)

Definition nexus_cose_mac0_encode_protected_header_map (nonce : Z) (protected_header_buf : list Z) (protected_header_buf_size : Z)
    : run (Z * list Z) :=
  if protected_header_buf_size <? NEXUS_COSE_MAC0_MAX_PROTECTED_HEADER_BSTR_SIZE then Done (0, protected_header_buf)
  else
    let nonce_le := nexus_endian_htole32 nonce in
    let enc := cbor_encoder_init NEXUS_COSE_MAC0_MAX_PROTECTED_HEADER_BSTR_SIZE 0 in
    '(err, enc, inner_enc, hdr_buf) ← cbor_encoder_create_map enc enc (g_hdr_buf g) 1;
    if failed err then Done (0, protected_header_buf)
    else
      '(err, inner_enc, hdr_buf) ← cbor_encode_uint inner_enc hdr_buf NEXUS_COSE_MAC0_NONCE_IV_LABEL_KEY;
      if failed err then Done (0, protected_header_buf)
      else
        '(err, inner_enc, hdr_buf) ← cbor_encode_uint inner_enc hdr_buf nonce_le;
        if failed err then Done (0, protected_header_buf)
        else
          '(err, enc, hdr_buf) ← cbor_encoder_close_container enc inner_enc hdr_buf;
          if failed err then Done (0, protected_header_buf)
          else
            let header_size := cbor_encoder_get_buffer_size enc in
            nexus_assert (header_size <=? NEXUS_COSE_MAC0_MAX_PROTECTED_HEADER_BSTR_SIZE);;
            src ← defined (slice hdr_buf 0 (Z.to_nat header_size));
            protected_header_buf ← defined (memcpy_at protected_header_buf 0 src);
            Done (u8 header_size, protected_header_buf).

(** Gives the error and the structure. *)
Definition nexus_cose_mac0_common_mac_params_to_mac_structure
    (mac_params : nexus_cose_mac0_common_macparams_t) (mac_struct : nexus_cose_mac0_cbor_data_t)
    : run (nexus_cose_error * nexus_cose_mac0_cbor_data_t) :=
  '(protected_header_len, tmp_buf) ←
    nexus_cose_mac0_encode_protected_header_map (nonce_to_protect mac_params) (g_struct_tmp_buf g)
      NEXUS_COSE_MAC0_MAX_AAD_SIZE_FOR_CREATING_MAC_STRUCT;
  if protected_header_len =? 0 then Done (NEXUS_COSE_ERROR_CBOR_ENCODER, mac_struct)
  else
    let aad := mp_aad mac_params in
    let enc := cbor_encoder_init mac_struct_size 0 in
    '(err, enc, inner_enc, buf) ←
      cbor_encoder_create_array enc (cd_buf mac_struct) NEXUS_COSE_MAC0_SECTION_2_COSE_MESSAGE_ARRAY_LENGTH;
    if failed err then nexus_assert false;; Done (NEXUS_COSE_ERROR_CBOR_ENCODER, {| mac_struct with cd_buf := buf |})
    else
      nexus_assert (Z.of_nat (length NEXUS_COSE_MAC0_SECTION_6_3_CONTEXT_STRING) =? 4);;
      '(err, inner_enc, buf) ← cbor_encode_text_string inner_enc buf NEXUS_COSE_MAC0_SECTION_6_3_CONTEXT_STRING 4;
      if failed err then Done (NEXUS_COSE_ERROR_CBOR_ENCODER, {| mac_struct with cd_buf := buf |})
      else
        '(err, inner_enc, buf) ← cbor_encode_byte_string inner_enc buf tmp_buf protected_header_len;
        if failed err then Done (NEXUS_COSE_ERROR_CBOR_ENCODER, {| mac_struct with cd_buf := buf |})
        else
          tmp_buf ← defined (aset tmp_buf 0 (coap_method aad));
          if NEXUS_COSE_MAC0_MAX_COAP_URI_LENGTH <? coap_uri_len aad
          then Done (NEXUS_COSE_ERROR_INPUT_DATA_INVALID, {| mac_struct with cd_buf := buf |})
          else
            tmp_buf ←
              (if 0 <? coap_uri_len aad then
                 src ← defined (slice (coap_uri aad) 0 (Z.to_nat (coap_uri_len aad)));
                 defined (memcpy_at tmp_buf 1 src)
               else Done tmp_buf);
            '(err, inner_enc, buf) ← cbor_encode_byte_string inner_enc buf tmp_buf (1 + coap_uri_len aad);
            if failed err then Done (NEXUS_COSE_ERROR_CBOR_ENCODER, {| mac_struct with cd_buf := buf |})
            else
              '(err, inner_enc, buf) ← cbor_encode_byte_string inner_enc buf (mp_payload mac_params) (mp_payload_len mac_params);
              if failed err then Done (NEXUS_COSE_ERROR_CBOR_ENCODER, {| mac_struct with cd_buf := buf |})
              else
                '(err, enc, buf) ← cbor_encoder_close_container enc inner_enc buf;
                if failed err then Done (NEXUS_COSE_ERROR_CBOR_ENCODER, {| mac_struct with cd_buf := buf |})
                else Done (NEXUS_COSE_ERROR_NONE, mk_cbor_data buf (u8 (cbor_encoder_get_buffer_size enc))).

Definition nexus_cose_mac0_common_compute_tag (mac_struct : nexus_cose_mac0_cbor_data_t) (key : list Z) : run (list Z) :=
  defined (nexus_check_compute key (cd_buf mac_struct) (cd_len mac_struct)).

(** ** Signing *)

(** Gives the error, the output, and the number of bytes encoded. *)
Definition _nexus_cose_mac0_sign_input_and_tag_to_nexus_cose_mac0_message_t
    (mac_params : nexus_cose_mac0_common_macparams_t) (tag output : list Z) (output_size encoded_bytes_count : Z)
    : run (nexus_cose_error * list Z * Z) :=
  let enc := cbor_encoder_init output_size 0 in
  '(result, enc, inner_enc, output) ← cbor_encoder_create_array enc output 4;
  if failed result then Done (NEXUS_COSE_ERROR_CBOR_ENCODER, output, encoded_bytes_count)
  else
    '(protected_header_len, tmp_buf) ←
      nexus_cose_mac0_encode_protected_header_map (nonce_to_protect mac_params) (g_sign_tmp_buf g)
        NEXUS_COSE_MAC0_MAX_PROTECTED_HEADER_BSTR_SIZE;
    if protected_header_len =? 0 then Done (NEXUS_COSE_ERROR_CBOR_ENCODER, output, encoded_bytes_count)
    else
      '(result, inner_enc, output) ← cbor_encode_byte_string inner_enc output tmp_buf protected_header_len;
      if failed result then Done (NEXUS_COSE_ERROR_CBOR_ENCODER, output, encoded_bytes_count)
      else
        '(result, inner_enc, map_enc, output) ← cbor_encoder_create_map inner_enc inner_enc output 0;
        if failed result then Done (NEXUS_COSE_ERROR_CBOR_ENCODER, output, encoded_bytes_count)
        else
          '(result, inner_enc, output) ← cbor_encoder_close_container inner_enc map_enc output;
          if failed result then Done (NEXUS_COSE_ERROR_CBOR_ENCODER, output, encoded_bytes_count)
          else
            '(result, inner_enc, output) ← cbor_encode_byte_string inner_enc output (mp_payload mac_params) (mp_payload_len mac_params);
            if failed result then Done (NEXUS_COSE_ERROR_CBOR_ENCODER, output, encoded_bytes_count)
            else
              '(result, inner_enc, output) ← cbor_encode_byte_string inner_enc output tag 8;
              if failed result then Done (NEXUS_COSE_ERROR_CBOR_ENCODER, output, encoded_bytes_count)
              else
                '(result, enc, output) ← cbor_encoder_close_container enc inner_enc output;
                if failed result then Done (NEXUS_COSE_ERROR_CBOR_ENCODER, output, encoded_bytes_count)
                else
                  let encoded_bytes_count := cbor_encoder_get_buffer_size enc in
                  if NEXUS_COSE_MAC0_MAX_ENCODED_CBOR_OBJECT_SIZE <? encoded_bytes_count
                  then Done (NEXUS_COSE_ERROR_INPUT_DATA_INVALID, output, encoded_bytes_count)
                  else Done (NEXUS_COSE_ERROR_NONE, output, encoded_bytes_count).

Definition nexus_cose_mac0_sign_encode_message
    (mac_params : nexus_cose_mac0_common_macparams_t) (output : list Z) (output_size encoded_bytes_count : Z)
    : run (nexus_cose_error * list Z * Z) :=
  if output_size <? NEXUS_COSE_MAC0_MAX_ENCODED_CBOR_OBJECT_SIZE
  then Done (NEXUS_COSE_ERROR_BUFFER_TOO_SMALL, output, encoded_bytes_count)
  else
    '(result, mac_struct) ← nexus_cose_mac0_common_mac_params_to_mac_structure mac_params (g_mac_struct g);
    if bool_decide (result ≠ NEXUS_COSE_ERROR_NONE) then Done (result, output, encoded_bytes_count)
    else
      tag ← nexus_cose_mac0_common_compute_tag mac_struct (mp_key mac_params);
      _nexus_cose_mac0_sign_input_and_tag_to_nexus_cose_mac0_message_t mac_params tag output output_size encoded_bytes_count.

(** ** Verifying *)

(** Gives the nonce, or the error. *)
Definition _nexus_cose_mac0_verify_deserialize_protected_header (protected_header : list Z) (protected_header_len : Z)
    : run (nexus_cose_error + Z) :=
  let prot_parser := mk_cbor_parser protected_header protected_header_len in
  '(err, prot_root) ← cbor_parser_init prot_parser;
  if failed err then Done (inl NEXUS_COSE_ERROR_CBOR_PARSER)
  else if negb (cbor_value_is_map prot_root) then Done (inl NEXUS_COSE_ERROR_INPUT_DATA_INVALID)
  else
    '(err, tmp_length) ← cbor_value_get_map_length prot_parser prot_root;
    if failed err then Done (inl NEXUS_COSE_ERROR_INPUT_DATA_INVALID)
    else if tmp_length =? 0 then Done (inl NEXUS_COSE_ERROR_INPUT_DATA_INVALID)
    else
      '(err, prot_map) ← cbor_value_enter_container prot_parser prot_root;
      if failed err then Done (inl NEXUS_COSE_ERROR_CBOR_PARSER)
      else if negb (cbor_value_is_integer prot_map) then Done (inl NEXUS_COSE_ERROR_INPUT_DATA_INVALID)
      else
        '(err, prot_map) ← cbor_value_advance prot_parser prot_map;
        if failed err || negb (cbor_value_is_integer prot_map) then Done (inl NEXUS_COSE_ERROR_INPUT_DATA_INVALID)
        else
          tmp_nonce ← cbor_value_get_uint64 prot_parser prot_map;
          if UINT32_MAX <? tmp_nonce then Done (inl NEXUS_COSE_ERROR_INPUT_DATA_INVALID)
          else
            let nonce := u32 tmp_nonce in
            '(err, prot_map) ← cbor_value_advance prot_parser prot_map;
            if failed err then Done (inl NEXUS_COSE_ERROR_CBOR_PARSER)
            else
              '(err, _) ← cbor_value_leave_container prot_parser prot_root prot_map;
              if failed err then Done (inl NEXUS_COSE_ERROR_CBOR_PARSER) else Done (inr nonce).

(** The second half of the next function: from the payload on. *)
Definition deserialize_payload_and_tag (parser : CborParser) (root ary : CborValue) (nonce : Z)
    : run (nexus_cose_error + nexus_cose_mac0_extracted_cose_params_t) :=
  '(err, payload_len) ← cbor_value_calculate_string_length parser ary;
  if failed err then Done (inl NEXUS_COSE_ERROR_CBOR_PARSER)
  else if UINT8_MAX <=? payload_len then Done (inl NEXUS_COSE_ERROR_INPUT_DATA_INVALID)
  else
    let payload := if payload_len <? NEXUS_COSE_MAC0_CBOR_SINGLE_BYTE_INT_LENGTH then cv_ptr ary + 1 else cv_ptr ary + 2 in
    '(err, ary) ← cbor_value_advance parser ary;
    if failed err then Done (inl NEXUS_COSE_ERROR_CBOR_PARSER)
    else if negb (cbor_value_is_byte_string ary) then Done (inl NEXUS_COSE_ERROR_INPUT_DATA_INVALID)
    else
      '(err, tmp_length) ← cbor_value_get_string_length parser ary;
      if failed err || (tmp_length =? 0) then Done (inl NEXUS_COSE_ERROR_INPUT_DATA_INVALID)
      else
        '(err, tag, _, ary) ← cbor_value_copy_byte_string parser ary (g_tag g) 8;
        if failed err then Done (inl NEXUS_COSE_ERROR_CBOR_PARSER)
        else
          '(err, _) ← cbor_value_leave_container parser root ary;
          if failed err then Done (inl NEXUS_COSE_ERROR_CBOR_PARSER)
          else Done (inr (mk_extracted nonce payload payload_len tag)).

(** Gives what was extracted, or the error. *)
Definition nexus_cose_mac0_verify_deserialize_protected_message (data : list Z) (data_len : Z)
    : run (nexus_cose_error + nexus_cose_mac0_extracted_cose_params_t) :=
  let parser := mk_cbor_parser data data_len in
  '(err, root) ← cbor_parser_init parser;
  if failed err then Done (inl NEXUS_COSE_ERROR_CBOR_PARSER)
  else if negb (cbor_value_is_array root) then Done (inl NEXUS_COSE_ERROR_CBOR_PARSER)
  else
    '(err, tmp_length) ← cbor_value_get_array_length parser root;
    if failed err then Done (inl NEXUS_COSE_ERROR_CBOR_PARSER)
    else if negb (tmp_length =? NEXUS_COSE_MAC0_VALID_COSE_MESSAGE_ARRAY_LENGTH) then Done (inl NEXUS_COSE_ERROR_INPUT_DATA_INVALID)
    else
      '(err, ary) ← cbor_value_enter_container parser root;
      if failed err then Done (inl NEXUS_COSE_ERROR_CBOR_PARSER)
      else if negb (cbor_value_is_byte_string ary) then Done (inl NEXUS_COSE_ERROR_INPUT_DATA_INVALID)
      else
        '(err, tmp_length) ← cbor_value_get_string_length parser ary;
        if failed err || (tmp_length =? 0) then Done (inl NEXUS_COSE_ERROR_INPUT_DATA_INVALID)
        else
          '(err, tmp_buffer, tmp_length, ary) ←
            cbor_value_copy_byte_string parser ary (g_verify_tmp_buffer g) NEXUS_COSE_MAC0_MAX_PROTECTED_HEADER_BSTR_SIZE;
          if failed err then Done (inl NEXUS_COSE_ERROR_INPUT_DATA_INVALID)
          else
            prot_header ← _nexus_cose_mac0_verify_deserialize_protected_header tmp_buffer tmp_length;
            match prot_header with
            | inl prot_header_err => Done (inl prot_header_err)
            | inr nonce =>
              if negb (cbor_value_is_map ary) then Done (inl NEXUS_COSE_ERROR_INPUT_DATA_INVALID)
              else
                '(err, ary) ← cbor_value_advance parser ary;
                if failed err || negb (cbor_value_is_byte_string ary) then Done (inl NEXUS_COSE_ERROR_INPUT_DATA_INVALID)
                else deserialize_payload_and_tag parser root ary nonce
            end.

(** What [nexus_cose_mac0_verify_message] gives: the nonce, and the offset and
    length of the payload. *)
Record verified := mk_verified { extracted_nonce : Z; unsecured_payload : Z; unsecured_payload_len : Z }.

Definition nexus_cose_mac0_verify_message (verify_ctx : nexus_cose_mac0_verify_ctx_t) : run (nexus_cose_error + verified) :=
  result ← nexus_cose_mac0_verify_deserialize_protected_message (vc_payload verify_ctx) (vc_payload_len verify_ctx);
  match result with
  | inl err => Done (inl err)
  | inr extracted_params =>
    let repacked_mac_params :=
      mk_macparams (vc_key verify_ctx) (x_nonce extracted_params) (vc_aad verify_ctx)
        (drop (Z.to_nat (x_payload extracted_params)) (vc_payload verify_ctx)) (x_payload_len extracted_params) in
    '(result, repacked_mac_struct) ← nexus_cose_mac0_common_mac_params_to_mac_structure repacked_mac_params (g_mac_struct g);
    if bool_decide (result ≠ NEXUS_COSE_ERROR_NONE) then Done (inl result)
    else
      computed_tag ← nexus_cose_mac0_common_compute_tag repacked_mac_struct (mp_key repacked_mac_params);
      if bool_decide (computed_tag ≠ x_tag extracted_params) then Done (inl NEXUS_COSE_ERROR_MAC_TAG_INVALID)
      else Done (inr (mk_verified (x_nonce extracted_params) (x_payload extracted_params) (x_payload_len extracted_params)))
  end.
End Cose.
