(* ===== verification/ChannelCoseSpec.v ===== *)
(** * COSE MAC0: what is signed, and what a verified message is

    The bytes that [nexus_cose_mac0_common_mac_params_to_mac_structure] and
    [nexus_cose_mac0_sign_encode_message] write, for parameters that fit. *)

From S2P Require Import Prelude Check Siphash Cbor CborSafe CborEncoder CborParse ChannelCose.
Local Open Scope Z_scope.
Local Open Scope c_scope.

(** ** The byte strings of RFC 8152 *)

(** The protected header: a map of the label of the IV to the nonce. *)
Definition protected_header (nonce : Z) : list Z :=
  cbor_head 0xa0 1 ++ cbor_head 0 NEXUS_COSE_MAC0_NONCE_IV_LABEL_KEY ++ cbor_head 0 nonce.

(** The structure the MAC is computed over. *)
Definition mac_structure (nonce method : Z) (uri payload : list Z) : list Z :=
  cbor_head 0x80 4 ++ (cbor_head 0x60 4 ++ NEXUS_COSE_MAC0_SECTION_6_3_CONTEXT_STRING) ++
  cbor_byte_string (protected_header nonce) ++ cbor_byte_string (method :: uri) ++ cbor_byte_string payload.

(** The message. *)
Definition cose_message (nonce : Z) (payload tag : list Z) : list Z :=
  cbor_head 0x80 4 ++ cbor_byte_string (protected_header nonce) ++ cbor_head 0xa0 0 ++
  cbor_byte_string payload ++ cbor_byte_string tag.

(** The tag. *)
Definition cose_tag (key : list Z) (nonce method : Z) (uri payload : list Z) : list Z :=
  le_bytes 8 (siphash_ref key (mac_structure nonce method uri payload)).

(** ** Reading heads and strings off *)

Lemma number_at bs rest :
  holds (mk_cbor_parser (bs ++ rest) (Z.of_nat (length (bs ++ rest)))) 0 bs.
Proof.
  unfold holds. cbn [cp_buffer cp_end]. rewrite length_app. split; [lia|]. split; [lia|]. split; [lia|].
  change (Z.to_nat 0) with 0%nat. by rewrite drop_0, take_app_length.
Qed.

Lemma cbor_head_inj shifted a b r1 r2 :
  major shifted → is_u64 a → is_u64 b → cbor_head shifted a ++ r1 = cbor_head shifted b ++ r2 → a = b ∧ r1 = r2.
Proof.
  intros Hm Ha Hb Heq. pose proof (number_at (cbor_head shifted a) r1) as H1. pose proof (number_at (cbor_head shifted b) r2) as H2.
  rewrite Heq in H1. apply extract_number_head in H1; [|done|done]. apply extract_number_head in H2; [|done|done].
  rewrite H1 in H2. injection H2 as _ ->. split; [done|]. by apply app_inv_head in Heq.
Qed.

Lemma byte_string_inj s1 s2 r1 r2 :
  is_u64 (Z.of_nat (length s1)) → is_u64 (Z.of_nat (length s2)) →
  cbor_byte_string s1 ++ r1 = cbor_byte_string s2 ++ r2 → s1 = s2 ∧ r1 = r2.
Proof.
  intros H1 H2 Heq. unfold cbor_byte_string in Heq. rewrite <- !app_assoc in Heq.
  apply cbor_head_inj in Heq as [Hl Heq]; [|right; by left|done|done]. apply app_inj_1 in Heq; [done|lia].
Qed.

Lemma protected_header_length nonce : is_u32 nonce → Z.of_nat (length (protected_header nonce)) = 2 + head_size nonce ∧ head_size nonce ≤ 5.
Proof.
  intros Hn. unfold protected_header. rewrite !length_app, !Nat2Z.inj_add, !head_length.
  change (head_size 1) with 1. change (head_size NEXUS_COSE_MAC0_NONCE_IV_LABEL_KEY) with 1. split; [lia|].
  unfold head_size, is_u32 in *. destruct (nonce <? 24), (nonce <=? 0xff), (nonce <=? 0xffff); try lia.
  all: destruct (Z.leb_spec nonce 0xffffffff); lia.
Qed.

Lemma mac_structure_inj n1 n2 m1 m2 u1 u2 p1 p2 :
  is_u32 n1 → is_u32 n2 → is_u64 (Z.of_nat (S (length u1))) → is_u64 (Z.of_nat (S (length u2))) →
  is_u64 (Z.of_nat (length p1)) → is_u64 (Z.of_nat (length p2)) →
  mac_structure n1 m1 u1 p1 = mac_structure n2 m2 u2 p2 → n1 = n2 ∧ m1 = m2 ∧ u1 = u2 ∧ p1 = p2.
Proof.
  intros Hn1 Hn2 Hu1 Hu2 Hp1 Hp2 Heq. unfold mac_structure in Heq. do 2 apply app_inv_head in Heq.
  pose proof (protected_header_length n1 Hn1). pose proof (protected_header_length n2 Hn2).
  apply byte_string_inj in Heq as [Hh Heq]; [|unfold is_u64; lia..].
  apply byte_string_inj in Heq as [Hu Heq]; [|done..]. injection Hu as -> ->.
  rewrite <- (app_nil_r (cbor_byte_string p1)), <- (app_nil_r (cbor_byte_string p2)) in Heq.
  apply byte_string_inj in Heq as [-> _]; [|done..].
  unfold protected_header in Hh. do 2 apply app_inv_head in Hh. rewrite <- (app_nil_r (cbor_head 0 n1)), <- (app_nil_r (cbor_head 0 n2)) in Hh.
  apply cbor_head_inj in Hh as [-> _]; [done|by left|unfold is_u64; wrap..].
Qed.

(** ** What is encoded *)

(** The arrays have their sizes, and hold bytes. *)
Record garbage_ok (g : garbage) : Prop := mk_garbage_ok {
  gk_hdr : length (g_hdr_buf g) = 7%nat ∧ bytes_ok (g_hdr_buf g);
  gk_struct_tmp : length (g_struct_tmp_buf g) = 26%nat;
  gk_mac_struct : Z.of_nat (length (cd_buf (g_mac_struct g))) = mac_struct_size ∧ bytes_ok (cd_buf (g_mac_struct g));
  gk_sign_tmp : length (g_sign_tmp_buf g) = 7%nat;
  gk_verify_tmp : length (g_verify_tmp_buffer g) = 7%nat ∧ bytes_ok (g_verify_tmp_buffer g);
  gk_tag : length (g_tag g) = 8%nat ∧ bytes_ok (g_tag g)
}.

Section Spec.
Context (g : garbage) (Hg : garbage_ok g).

Lemma protected_header_ok nonce : is_u32 nonce → bytes_ok (protected_header nonce).
Proof. intros Hn. unfold protected_header. repeat apply Forall_app_2; apply cbor_head_ok; unfold NEXUS_COSE_MAC0_NONCE_IV_LABEL_KEY; lia || wrap. Qed.

Lemma encode_header_spec nonce buf size :
  is_u32 nonce → 7 ≤ size → (7 ≤ length buf)%nat →
  ends (λ r, r.1 = Z.of_nat (length (protected_header nonce)) ∧ length r.2 = length buf ∧
      take (length (protected_header nonce)) r.2 = protected_header nonce)
    (nexus_cose_mac0_encode_protected_header_map g nonce buf size).
Proof.
  intros Hn Hsize Hbuf. unfold nexus_cose_mac0_encode_protected_header_map, NEXUS_COSE_MAC0_MAX_PROTECTED_HEADER_BSTR_SIZE.
  rewrite (proj2 (Z.ltb_ge _ _)) by done. cbv zeta. rewrite htole32_id by done.
  pose proof (protected_header_length nonce Hn) as [Hl Hl5].
  assert (Hl1 : Z.of_nat (length (cbor_head 0 nonce)) = head_size nonce) by apply head_length.
  assert (Hw0 : wrote 7 [] (cbor_encoder_init 7 0) (g_hdr_buf g)) by (destruct (gk_hdr _ Hg); apply wrote_init; [lia|done]).
  unfold cbor_encoder_create_map. change (_ && _) with false. cbn iota.
  eapply ends_bind; [apply (create_container_spec 7 []); [exact Hw0|lia|by right]|].
  intros [[[err enc] inner] buf1] (Hb1 & Hrem1 & Hfl1 & Hc1 & Hcf1 & Hfit1 & _).
  destruct Hfit1 as [-> Hw1]; [cbn; lia|]. change (failed CborNoError) with false. cbn iota.
  eapply ends_bind; [apply (encode_uint_spec 7); [exact Hw1|done]|].
  intros [[err inner2] buf2] (Hb2 & Hrem2 & Hfl2 & Hfit2 & _). destruct Hfit2 as [-> Hw2]; [cbn; lia|].
  change (failed CborNoError) with false. cbn iota.
  eapply ends_bind; [apply (encode_uint_spec 7); [exact Hw2|unfold is_u64; wrap]|].
  intros [[err inner3] buf3] (Hb3 & Hrem3 & Hfl3 & Hfit3 & _). destruct Hfit3 as [-> Hw3]; [rewrite Nat2Z.inj_add, Hl1; cbn; lia|].
  change (failed CborNoError) with false. cbn iota.
  assert (Hclose : ce_remaining inner3 = 1 ∧ ce_flags inner3 .& CborIteratorFlag_UnknownLength = 0).
  { rewrite Hrem3, Hfl3, Hfl2. split; [|done]. unfold counted. rewrite Hrem2. unfold counted. rewrite Hc1. reflexivity. }
  rewrite (close_container_spec 7 _ _ _ _ Hw3) by apply Hclose. cbn [mbind run_bind]. change (failed CborNoError) with false. cbn iota.
  replace (([] ++ cbor_head (MapType ≪ MajorTypeShift) 1) ++ cbor_head 0 NEXUS_COSE_MAC0_NONCE_IV_LABEL_KEY) with
    (cbor_head 0xa0 1 ++ cbor_head 0 NEXUS_COSE_MAC0_NONCE_IV_LABEL_KEY) in Hw3 by reflexivity.
  rewrite <- app_assoc in Hw3. fold (protected_header nonce) in Hw3.
  rewrite (wrote_size 7 (protected_header nonce) _ buf3) by (done || by eapply wrote_frame).
  rewrite (proj2 (Z.leb_le _ _)) by lia. cbn [nexus_assert cbor_assert mbind run_bind]. rewrite Nat2Z.id.
  rewrite slice_in by (destruct (gk_hdr _ Hg); lia). cbn [defined mbind run_bind]. rewrite drop_0, (w_out _ _ _ _ Hw3).
  rewrite memcpy_at_in by lia. apply ends_ret. cbn [fst snd]. rewrite take_0. cbn [app].
  split; [apply u8_small; unfold is_u8; lia|]. split; [rewrite length_app, length_drop; lia|by rewrite take_app_length].
Qed.

(** Parameters whose pointers are valid: [uri] and [payload] are what they point to. *)
Record params_ok (mp : nexus_cose_mac0_common_macparams_t) (uri payload : list Z) : Prop := mk_params_ok {
  po_key : bytes_ok (mp_key mp) ∧ length (mp_key mp) = 16%nat;
  po_nonce : is_u32 (nonce_to_protect mp);
  po_method : is_u8 (coap_method (mp_aad mp));
  po_uri_len : is_u8 (coap_uri_len (mp_aad mp));
  po_uri : slice (coap_uri (mp_aad mp)) 0 (Z.to_nat (coap_uri_len (mp_aad mp))) = Some uri ∧ bytes_ok uri;
  po_payload_len : is_u64 (mp_payload_len mp);
  po_payload : slice (mp_payload mp) 0 (Z.to_nat (mp_payload_len mp)) = Some payload ∧ bytes_ok payload
}.

Lemma slice_length l off n s : slice l off n = Some s → length s = n.
Proof. unfold slice. case_decide; [|done]. intros [= <-]. rewrite length_take, length_drop. lia. Qed.

Lemma byte_string_length s : Z.of_nat (length (cbor_byte_string s)) = head_size (Z.of_nat (length s)) + Z.of_nat (length s).
Proof. unfold cbor_byte_string. rewrite length_app, Nat2Z.inj_add, head_length. done. Qed.

Lemma head_size_small n : n < 24 → head_size n = 1.
Proof. intros. unfold head_size. by rewrite (proj2 (Z.ltb_lt _ _)) by done. Qed.

Lemma aad_spec tmp_buf method uri :
  length tmp_buf = 26%nat → (length uri ≤ 11)%nat →
  ∃ tmp1 tmp2, aset tmp_buf 0 method = Some tmp1 ∧
    (if 0 <? Z.of_nat (length uri) then memcpy_at tmp1 1 uri else Some tmp1) = Some tmp2 ∧
    slice tmp2 0 (Z.to_nat (1 + Z.of_nat (length uri))) = Some (method :: uri).
Proof.
  intros Hl Hu. destruct tmp_buf as [|b tmp_buf]; [done|]. cbn [length] in Hl. exists (method :: tmp_buf).
  exists (method :: uri ++ drop (length uri) tmp_buf). split; [rewrite aset_in by (cbn [length]; lia); done|]. split.
  - destruct (Z.ltb_spec 0 (Z.of_nat (length uri))); [rewrite memcpy_at_in by (cbn [length]; lia); done|].
    destruct uri; [done|cbn [length] in *; lia].
  - rewrite slice_in by (cbn [length]; rewrite length_app, length_drop; lia). rewrite drop_0.
    replace (Z.to_nat (1 + Z.of_nat (length uri))) with (length (method :: uri)) by (cbn [length]; lia).
    change (method :: uri ++ drop (length uri) tmp_buf) with ((method :: uri) ++ drop (length uri) tmp_buf). by rewrite take_app_length.
Qed.

Lemma mac_structure_length nonce method uri payload :
  is_u32 nonce → (length uri ≤ 11)%nat →
  Z.of_nat (length (mac_structure nonce method uri payload)) =
    11 + head_size nonce + Z.of_nat (length uri) + Z.of_nat (length (cbor_byte_string payload)).
Proof.
  intros Hn Hu. unfold mac_structure. rewrite !length_app, !Nat2Z.inj_add, !byte_string_length, !head_length.
  destruct (protected_header_length nonce Hn) as [-> H5].
  change (head_size 4) with 1. change (length NEXUS_COSE_MAC0_SECTION_6_3_CONTEXT_STRING) with 4%nat.
  rewrite (head_size_small (2 + head_size nonce)), (head_size_small (Z.of_nat (length (method :: uri)))) by (cbn [length]; lia).
  cbn [length]. lia.
Qed.

Lemma mac_params_spec mp uri payload ms :
  params_ok mp uri payload → Z.of_nat (length (cd_buf ms)) = mac_struct_size → bytes_ok (cd_buf ms) →
  let bytes := mac_structure (nonce_to_protect mp) (coap_method (mp_aad mp)) uri payload in
  ends (λ r, let '(err, ms') := r in
      (err = NEXUS_COSE_ERROR_NONE ↔ (length uri ≤ 11)%nat ∧ Z.of_nat (length bytes) ≤ mac_struct_size) ∧
      (err = NEXUS_COSE_ERROR_NONE → cd_len ms' = Z.of_nat (length bytes) ∧ take (length bytes) (cd_buf ms') = bytes ∧
         Z.of_nat (length (cd_buf ms')) = mac_struct_size ∧ bytes_ok (cd_buf ms')))
    (nexus_cose_mac0_common_mac_params_to_mac_structure g mp ms).
Proof.
  intros [Hkey Hn Hm Hul [Hus Hub] Hpl [Hps Hpb]] Hms Hmsb bytes. unfold nexus_cose_mac0_common_mac_params_to_mac_structure.
  pose proof (slice_length _ _ _ _ Hus) as Hulen. pose proof (slice_length _ _ _ _ Hps) as Hplen.
  destruct (protected_header_length _ Hn) as [Hhl Hh5]. pose proof (head_size_range (nonce_to_protect mp)).
  eapply ends_bind; [apply encode_header_spec; [done|done|rewrite gk_struct_tmp by done; lia]|].
  intros [hdr_len tmp_buf] Hhdr. cbn [fst snd] in Hhdr. destruct Hhdr as (-> & Htl & Htmp). rewrite (proj2 (Z.eqb_neq _ _)) by lia. cbv zeta.
  rewrite gk_struct_tmp in Htl by done. change mac_struct_size with 123 in *.
  assert (Hw0 : wrote 123 [] (cbor_encoder_init 123 0) (cd_buf ms)) by (apply wrote_init; [lia|done]).
  eapply ends_bind; [eapply (create_container_spec 123 [] _ _ 4 0x80); [exact Hw0|done|by left]|].
  intros [[[err enc] inner] buf1] (Hb1 & _ & _ & Hc1 & Hcf1 & Hfit1 & _). destruct Hfit1 as [-> Hw1]; [cbn; lia|].
  change (failed CborNoError) with false. cbn iota. change (nexus_assert (_ =? 4)) with (Done tt). cbn [mbind run_bind].
  eapply ends_bind; [eapply (encode_string_spec 123 _ _ _ _ NEXUS_COSE_MAC0_SECTION_6_3_CONTEXT_STRING 4 0x60); [exact Hw1|done|reflexivity|by repeat constructor|done|done]|].
  intros [[err inner2] buf2] (Hb2 & Hrem2 & Hfl2 & Hfit2 & _). destruct Hfit2 as [-> Hw2]; [cbn; lia|]. change (failed CborNoError) with false. cbn iota.
  set (out2 := _ ++ _) in Hw2. assert (Hout2 : length out2 = 6%nat) by reflexivity.
  eapply ends_bind.
  { eapply (encode_byte_string_spec 123 out2 _ _ tmp_buf (protected_header (nonce_to_protect mp))); [exact Hw2|unfold is_u64; lia| |by apply protected_header_ok].
    rewrite Nat2Z.id, slice_in, drop_0 by lia. by f_equal. }
  pose proof (byte_string_length (protected_header (nonce_to_protect mp))) as Hhs. rewrite head_size_small in Hhs by lia.
  intros [[err inner3] buf3] (Hb3 & Hrem3 & Hfl3 & Hfit3 & _). destruct Hfit3 as [-> Hw3]; [lia|].
  change (failed CborNoError) with false. cbn iota. set (out3 := out2 ++ _) in Hw3.
  assert (Hout3 : Z.of_nat (length out3) = 9 + head_size (nonce_to_protect mp)) by (unfold out3; rewrite length_app; lia).
  unfold NEXUS_COSE_MAC0_MAX_COAP_URI_LENGTH. unfold is_u8 in Hul.
  destruct (Z.ltb_spec 11 (coap_uri_len (mp_aad mp))) as [Hlong|Hshort].
  { rewrite aset_in by lia. apply ends_ret. split; [split; [done|lia]|done]. }
  destruct (aad_spec tmp_buf (coap_method (mp_aad mp)) uri Htl ltac:(lia)) as (tmp1 & tmp2 & -> & Hcpy & Haad).
  cbn [defined mbind run_bind]. rewrite Hus.
  replace (coap_uri_len (mp_aad mp)) with (Z.of_nat (length uri)) in * by lia.
  assert (Hcpy' : (if 0 <? Z.of_nat (length uri) then src ← defined (Some uri); defined (memcpy_at tmp1 1 src) else Done tmp1) = Done tmp2).
  { destruct (0 <? _); [by cbn; rewrite Hcpy|by injection Hcpy as ->]. }
  rewrite Hcpy'. cbn [mbind run_bind].
  eapply ends_bind; [eapply (encode_byte_string_spec 123 out3); [exact Hw3|unfold is_u64; lia|exact Haad|by constructor]|].
  pose proof (byte_string_length (coap_method (mp_aad mp) :: uri)) as Hus2. cbn [length] in Hus2. rewrite head_size_small in Hus2 by lia.
  intros [[err inner4] buf4] (Hb4 & Hrem4 & Hfl4 & Hfit4 & _). destruct Hfit4 as [-> Hw4]; [lia|].
  change (failed CborNoError) with false. cbn iota. set (out4 := out3 ++ _) in Hw4.
  assert (Hout4 : Z.of_nat (length out4) = 11 + head_size (nonce_to_protect mp) + Z.of_nat (length uri)) by (unfold out4; rewrite length_app; lia).
  assert (Hbytes : out4 ++ cbor_byte_string payload = bytes) by (unfold out4, out3, out2, bytes, mac_structure; by rewrite <- !app_assoc).
  eapply ends_bind; [eapply (encode_byte_string_spec 123 out4); [exact Hw4|done|exact Hps|done]|].
  intros [[err inner5] buf5] (Hb5 & Hrem5 & Hfl5 & Hfit5 & Hnot5).
  assert (Hbl : length bytes = (length out4 + length (cbor_byte_string payload))%nat) by (rewrite <- Hbytes; apply length_app).
  destruct (Z.le_gt_cases (Z.of_nat (length bytes)) 123) as [Hin|Hout].
  2: { destruct Hnot5 as (-> & _); [lia|]. apply ends_ret. split; [split; [done|lia]|done]. }
  destruct Hfit5 as [-> Hw5]; [lia|]. change (failed CborNoError) with false. cbn iota. rewrite Hbytes in Hw5.
  assert (Hclose : ce_remaining inner5 = 1 ∧ ce_flags inner5 .& CborIteratorFlag_UnknownLength = 0).
  { rewrite Hrem5, Hfl5, Hfl4, Hfl3, Hfl2. split; [|done]. unfold counted. rewrite Hrem4. unfold counted. rewrite Hrem3. unfold counted.
    rewrite Hrem2. unfold counted. rewrite Hc1. reflexivity. }
  rewrite (close_container_spec 123 _ _ _ _ Hw5) by apply Hclose. cbn [mbind run_bind]. change (failed CborNoError) with false. cbn iota.
  rewrite (wrote_size 123 bytes _ buf5) by (done || by eapply wrote_frame). apply ends_ret. split; [split; [lia|done]|].
  intros _. cbn [cd_len cd_buf]. destruct Hw5. split; [apply u8_small; unfold is_u8; lia|]. split; [done|]. split; [lia|done].
Qed.

Lemma cose_message_length nonce payload tag :
  is_u32 nonce → length tag = 8%nat →
  Z.of_nat (length (cose_message nonce payload tag)) = 14 + head_size nonce + Z.of_nat (length (cbor_byte_string payload)).
Proof.
  intros Hn Ht. unfold cose_message. rewrite !length_app, !Nat2Z.inj_add, !byte_string_length, !head_length, Ht.
  destruct (protected_header_length nonce Hn) as [-> H5]. change (head_size 4) with 1. change (head_size 0) with 1.
  change (head_size (Z.of_nat 8)) with 1. rewrite (head_size_small (2 + head_size nonce)) by lia. lia.
Qed.

(** The array up to the empty map of unprotected headers. *)
Definition message_prefix (nonce : Z) : list Z :=
  cbor_head 0x80 4 ++ cbor_byte_string (protected_header nonce) ++ cbor_head 0xa0 0.

Lemma encode_message_spec mp uri payload tag output output_size count :
  params_ok mp uri payload → length tag = 8%nat → bytes_ok tag → 98 ≤ output_size ≤ Z.of_nat (length output) → output_size < SIZE_MAX →
  bytes_ok output →
  let bytes := cose_message (nonce_to_protect mp) payload tag in
  ends (λ r, let '(err, output', count') := r in
      (err = NEXUS_COSE_ERROR_NONE ↔ Z.of_nat (length bytes) ≤ NEXUS_COSE_MAC0_MAX_ENCODED_CBOR_OBJECT_SIZE) ∧
      (err = NEXUS_COSE_ERROR_NONE → count' = Z.of_nat (length bytes) ∧ take (length bytes) output' = bytes ∧
         length output' = length output ∧ bytes_ok output'))
    (_nexus_cose_mac0_sign_input_and_tag_to_nexus_cose_mac0_message_t g mp tag output output_size count).
Proof.
  intros [Hkey Hn Hm Hul [Hus Hub] Hpl [Hps Hpb]] Htag Htb Hsize Hmax Hob bytes.
  unfold _nexus_cose_mac0_sign_input_and_tag_to_nexus_cose_mac0_message_t, NEXUS_COSE_MAC0_MAX_ENCODED_CBOR_OBJECT_SIZE, NEXUS_CHANNEL_MAX_CBOR_PAYLOAD_SIZE.
  destruct (protected_header_length _ Hn) as [Hhl Hh5]. pose proof (head_size_range (nonce_to_protect mp)). cbv zeta.
  set (e := output_size) in *.
  assert (Hw0 : wrote e [] (cbor_encoder_init e 0) output) by (apply wrote_init; [lia|done]).
  eapply ends_bind; [eapply (create_container_spec e [] _ _ 4 0x80); [exact Hw0|done|by left]|].
  intros [[[err enc] inner] buf1] (Hb1 & _ & _ & Hc1 & Hcf1 & Hfit1 & _). destruct Hfit1 as [-> Hw1]; [cbn; lia|].
  change (failed CborNoError) with false. cbn iota.
  eapply ends_bind; [apply encode_header_spec; [done|done|rewrite gk_sign_tmp by done; lia]|].
  intros [hdr_len tmp_buf] Hhdr. cbn [fst snd] in Hhdr. destruct Hhdr as (-> & Htl & Htmp). rewrite (proj2 (Z.eqb_neq _ _)) by lia.
  rewrite gk_sign_tmp in Htl by done. pose proof (byte_string_length (protected_header (nonce_to_protect mp))) as Hhs. rewrite head_size_small in Hhs by lia.
  eapply ends_bind.
  { eapply (encode_byte_string_spec e _ _ _ tmp_buf (protected_header (nonce_to_protect mp))); [exact Hw1|unfold is_u64; lia| |by apply protected_header_ok].
    rewrite Nat2Z.id, slice_in, drop_0 by lia. by f_equal. }
  intros [[err inner2] buf2] (Hb2 & Hrem2 & Hfl2 & Hfit2 & _). destruct Hfit2 as [-> Hw2]; [rewrite length_app; cbn [length]; change (length (cbor_head 128 4)) with 1%nat; lia|].
  change (failed CborNoError) with false. cbn iota. unfold cbor_encoder_create_map. change (_ && _) with false. cbn iota.
  eapply ends_bind; [eapply (create_container_spec e _ _ _ 0 0xa0); [exact Hw2|done|by right]|].
  intros [[[err inner3] map_enc] buf3] (Hb3 & Hrem3 & Hfl3 & Hc3 & Hcf3 & Hfit3 & _).
  assert (Hpre : (([] ++ cbor_head 128 4) ++ cbor_byte_string (protected_header (nonce_to_protect mp))) ++ cbor_head 160 0 =
    message_prefix (nonce_to_protect mp)) by (unfold message_prefix; by rewrite <- !app_assoc).
  assert (Hprel : Z.of_nat (length (message_prefix (nonce_to_protect mp))) = 5 + head_size (nonce_to_protect mp)).
  { unfold message_prefix. rewrite !length_app, !Nat2Z.inj_add, Hhs, Hhl, !head_length. change (head_size 4) with 1. change (head_size 0) with 1. lia. }
  rewrite Hpre in Hfit3. rewrite <- length_app, Hpre in Hfit3. destruct Hfit3 as [-> Hw3]; [lia|]. change (failed CborNoError) with false. cbn iota.
  rewrite (close_container_spec e _ _ _ _ Hw3) by done. cbn [mbind run_bind]. change (failed CborNoError) with false. cbn iota.
  set (inner4 := mk_cbor_encoder _ _ _ _).
  assert (Hw4 : wrote e (message_prefix (nonce_to_protect mp)) inner4 buf3) by (by eapply wrote_frame).
  eapply ends_bind; [eapply (encode_byte_string_spec e); [exact Hw4|done|exact Hps|done]|].
  intros [[err inner5] buf5] (Hb5 & Hrem5 & Hfl5 & Hfit5 & Hnot5).
  pose proof (cose_message_length (nonce_to_protect mp) payload tag Hn Htag) as Hlen. fold bytes in Hlen.
  destruct (Z.le_gt_cases (Z.of_nat (length (message_prefix (nonce_to_protect mp)) + length (cbor_byte_string payload))) e) as [Hin|Hout].
  2: { destruct Hnot5 as (-> & _); [lia|]. apply ends_ret. split; [split; [done|lia]|done]. }
  destruct Hfit5 as [-> Hw5]; [lia|]. change (failed CborNoError) with false. cbn iota.
  eapply ends_bind; [eapply (encode_byte_string_spec e _ _ _ tag tag); [exact Hw5|done| |done]|].
  { rewrite slice_in, drop_0, take_ge by (cbn; lia). done. }
  intros [[err inner6] buf6] (Hb6 & Hrem6 & Hfl6 & Hfit6 & Hnot6).
  assert (Hbytes : (message_prefix (nonce_to_protect mp) ++ cbor_byte_string payload) ++ cbor_byte_string tag = bytes)
    by (unfold message_prefix, bytes, cose_message; by rewrite <- !app_assoc).
  rewrite <- length_app, Hbytes in Hfit6, Hnot6.
  destruct (Z.le_gt_cases (Z.of_nat (length bytes)) e) as [Hin6|Hout6].
  2: { destruct Hnot6 as (-> & _); [lia|]. apply ends_ret. split; [split; [done|lia]|done]. }
  destruct Hfit6 as [-> Hw6]; [lia|]. change (failed CborNoError) with false. cbn iota.
  assert (Hclose : ce_remaining inner6 = 1 ∧ ce_flags inner6 .& CborIteratorFlag_UnknownLength = 0).
  { rewrite Hrem6, Hfl6, Hfl5. unfold counted. rewrite Hrem5. unfold counted, inner4. cbn [ce_remaining ce_flags]. rewrite Hrem3, Hfl3, Hfl2. split; [|done].
    unfold counted. rewrite Hrem2. unfold counted. rewrite Hc1. reflexivity. }
  rewrite (close_container_spec e _ _ _ _ Hw6) by apply Hclose. cbn [mbind run_bind]. change (failed CborNoError) with false. cbn iota.
  rewrite (wrote_size e bytes _ buf6) by (done || by eapply wrote_frame).
  destruct (Z.ltb_spec 98 (Z.of_nat (length bytes))); apply ends_ret; (split; [split; first [done|lia]|]); [done|].
  intros _. destruct Hw6. split; [done|]. split; [done|]. split; [lia|done].
Qed.

(** Signing, on every branch: it succeeds exactly when the URI and the message
    fit, and then leaves the message at the start of the output. *)
Lemma sign_encode_message_spec mp uri payload output output_size count :
  params_ok mp uri payload → 0 ≤ output_size ≤ Z.of_nat (length output) → output_size < SIZE_MAX → bytes_ok output →
  let bytes := cose_message (nonce_to_protect mp) payload (cose_tag (mp_key mp) (nonce_to_protect mp) (coap_method (mp_aad mp)) uri payload) in
  ends (λ r, let '(err, output', count') := r in
      (err = NEXUS_COSE_ERROR_NONE ↔
         98 ≤ output_size ∧ (length uri ≤ 11)%nat ∧ Z.of_nat (length bytes) ≤ NEXUS_COSE_MAC0_MAX_ENCODED_CBOR_OBJECT_SIZE) ∧
      (err = NEXUS_COSE_ERROR_NONE → count' = Z.of_nat (length bytes) ∧ take (length bytes) output' = bytes ∧
         length output' = length output ∧ bytes_ok output'))
    (nexus_cose_mac0_sign_encode_message g mp output output_size count).
Proof.
  intros Hok Hsize Hmax Hob bytes. unfold nexus_cose_mac0_sign_encode_message.
  destruct (Z.ltb_spec output_size NEXUS_COSE_MAC0_MAX_ENCODED_CBOR_OBJECT_SIZE) as [Hlt|Hge].
  { apply ends_ret. split; [split; [done|]|done]. intros [H98 _]. change NEXUS_COSE_MAC0_MAX_ENCODED_CBOR_OBJECT_SIZE with 98 in Hlt. lia. }
  change NEXUS_COSE_MAC0_MAX_ENCODED_CBOR_OBJECT_SIZE with 98 in Hge |- *. destruct (gk_mac_struct _ Hg) as [Hms Hmsb].
  eapply ends_bind; [by apply (mac_params_spec mp uri payload)|].
  intros [err ms] [Hiff Hres].
  assert (Htag : length (cose_tag (mp_key mp) (nonce_to_protect mp) (coap_method (mp_aad mp)) uri payload) = 8%nat) by apply le_bytes_length.
  pose proof (cose_message_length (nonce_to_protect mp) payload _ (po_nonce _ _ _ Hok) Htag) as Hlen. fold bytes in Hlen.
  case_bool_decide as Herr.
  { apply ends_ret. split; [split; [done|]|done]. intros (_ & Hu & Hl). exfalso. apply Herr, Hiff. split; [done|].
    rewrite mac_structure_length by (done || apply Hok). change mac_struct_size with 123. lia. }
  destruct (decide (err = NEXUS_COSE_ERROR_NONE)) as [->|]; [|tauto]. destruct (Hres eq_refl) as (Hcd & Htake & Hcl & Hcb).
  destruct (proj1 Hiff eq_refl) as [Hu Hfit].
  unfold nexus_cose_mac0_common_compute_tag. destruct (po_key _ _ _ Hok) as [Hkb Hkl].
  rewrite check_compute_spec by (done || lia). rewrite Hcd, Nat2Z.id, Htake. cbn [defined mbind run_bind].
  eapply ends_mono; [apply (encode_message_spec mp uri payload); [done|exact Htag|apply le_bytes_ok|lia|done|done]|].
  intros [[err2 output'] count'] [Hiff2 Hres2]. fold bytes in Hiff2, Hres2. split; [|done]. rewrite Hiff2. tauto.
Qed.

(** ** What is read back *)

(** [no_error] takes the branch of a call without an error. *)
Ltac no_error := change (failed CborNoError) with false; cbn [orb]; cbn iota.

Lemma u64_small_size n : 0 ≤ n < 1000 → is_u64 n.
Proof. unfold is_u64. lia. Qed.

Lemma deserialize_header_spec nonce header :
  is_u32 nonce → take (length (protected_header nonce)) header = protected_header nonce → (length (protected_header nonce) ≤ length header)%nat →
  _nexus_cose_mac0_verify_deserialize_protected_header header (Z.of_nat (length (protected_header nonce))) = Done (inr nonce).
Proof.
  intros Hn Htake Hle. set (n := Z.of_nat (length (protected_header nonce))). set (parser := mk_cbor_parser header n).
  assert (Hend : cp_end parser < UINT32_MAX).
  { cbn. destruct (protected_header_length nonce Hn). unfold UINT32_MAX. lia. }
  assert (Hh : holds parser 0 (protected_header nonce)).
  { unfold holds. cbn [cp_end cp_buffer parser]. change (Z.to_nat 0) with 0%nat. rewrite drop_0. unfold n. split; [lia|]. split; [lia|]. split; [lia|done]. }
  unfold protected_header in Hh. apply holds_app in Hh as [Hmap Hh]. apply holds_app in Hh as [Hkey Hval].
  change (0 + Z.of_nat (length (cbor_head 0xa0 1))) with 1 in *. change (1 + Z.of_nat (length (cbor_head 0 _))) with 2 in Hval.
  assert (H0 : major 0) by (by left). assert (Hnu : is_u64 nonce) by (unfold is_u64; wrap).
  unfold _nexus_cose_mac0_verify_deserialize_protected_header. fold parser. cbv zeta.
  destruct (preparse_head parser (mk_cbor_value 0 1 0 0 0) 0xa0 1) as ([err root] & Hroot & He & Hr); [unfold major; tauto|done|done|].
  cbn [fst snd cv_ptr cv_remaining] in *. subst err. unfold cbor_parser_init. rewrite Hroot. cbn [mbind run_bind]. no_error.
  unfold cbor_value_get_map_length, cbor_value_is_map. rewrite (rh_type _ _ _ _ _ _ Hr). change (0xa0 =? CborMapType) with true.
  cbn [negb cbor_assert mbind run_bind]. rewrite (get_length_head _ _ _ _ _ _ Hr) by done. cbn [mbind run_bind]. no_error. cbn [Z.eqb].
  destruct (enter_items parser root 0 1 0xa0 1 0 5) as ([err key] & -> & He & Hk); [done|by right|done|done|done|done|done|].
  cbn [fst snd] in *. subst err. change (0 + head_size 1) with 1 in Hk. cbn [mbind run_bind]. no_error.
  unfold cbor_value_is_integer at 1. rewrite (rh_type _ _ _ _ _ _ Hk). cbn [Z.eqb negb].
  change (if 0xa0 =? 0xa0 then 1 * 2 else 1) with 2 in Hk.
  destruct (advance_integer parser key 1 2 5 _ Hk ltac:(done) Hkey ltac:(done)
    (continues_head parser 2 2 0 0 nonce ltac:(done) ltac:(done) H0 Hnu Hval)) as ([err val] & -> & He & Hv).
  cbn [fst snd] in *. subst err. change (2 - 1) with 1 in Hv. cbn [mbind run_bind]. no_error.
  unfold cbor_value_get_uint64, cbor_value_is_unsigned_integer, cbor_value_is_integer. rewrite (rh_type _ _ _ _ _ _ Hv), (rh_plain _ _ _ _ _ _ Hv).
  change (0 =? CborIntegerType) with true. cbn [negb andb cbor_assert mbind run_bind]. rewrite (rh_number _ _ _ _ _ _ Hv). cbn [mbind run_bind].
  rewrite (proj2 (Z.ltb_ge UINT32_MAX nonce)) by wrap. rewrite u32_small by done.
  destruct (advance_integer parser val 2 1 nonce _ Hv Hnu Hval ltac:(done) (continues_end parser _ 0 ltac:(done))) as
    ([err last] & -> & He & Hp & Hrem & Hty). cbn [fst snd] in *. subst err. cbn [mbind run_bind]. no_error.
  destruct (leave_last parser root last) as ([err ?] & -> & He); [apply (rh_remaining _ _ _ _ _ _ Hr)|right; apply (rh_type _ _ _ _ _ _ Hr)|done|].
  cbn [fst] in He. subst err. reflexivity.
Qed.

(** Where the payload of a message is. *)
Definition payload_at (nonce : Z) (payload : list Z) : Z := 5 + head_size nonce + head_size (Z.of_nat (length payload)).

Lemma deserialize_payload_spec parser root ary nonce payload tag :
  cp_end parser < UINT32_MAX → cv_remaining root = 1 → cv_type root = 0x80 →
  (length payload < 255)%nat → length tag = 8%nat →
  holds parser (5 + head_size nonce) (cbor_byte_string payload ++ cbor_byte_string tag) →
  read_head parser (5 + head_size nonce) 2 0x40 (Z.of_nat (length payload)) ary →
  deserialize_payload_and_tag g parser root ary nonce =
    Done (inr (mk_extracted nonce (payload_at nonce payload) (Z.of_nat (length payload)) tag)).
Proof.
  intros Hend Hrr Hrt Hpl Htl Hh Ha. apply holds_app in Hh as [Hp Ht]. rewrite byte_string_length in Ht.
  assert (Hpu : is_u64 (Z.of_nat (length payload))) by (apply u64_small_size; lia).
  assert (Htu : is_u64 (Z.of_nat (length tag))) by (apply u64_small_size; lia).
  assert (Hm : major 0x40) by (right; by left).
  assert (Ht' := Ht). unfold cbor_byte_string in Ht'. apply holds_app in Ht' as [Hth _]. set (q := 5 + head_size nonce) in *.
  replace (q + (head_size (Z.of_nat (length payload)) + Z.of_nat (length payload))) with
    (q + head_size (Z.of_nat (length payload)) + Z.of_nat (length payload)) in * by lia.
  pose proof (continues_head parser _ 2 0x40 0x40 (Z.of_nat (length tag)) ltac:(done) ltac:(done) Hm Htu Hth) as Hnext.
  unfold deserialize_payload_and_tag. rewrite (calculate_string_length_whole parser ary q 2 payload _ Ha Hpu Hp Hnext).
  cbn [mbind run_bind]. no_error. rewrite (proj2 (Z.leb_gt UINT8_MAX _)) by (unfold UINT8_MAX; lia). cbv zeta. rewrite (rh_ptr _ _ _ _ _ _ Ha).
  replace (if Z.of_nat (length payload) <? NEXUS_COSE_MAC0_CBOR_SINGLE_BYTE_INT_LENGTH then q + 1 else q + 2) with (payload_at nonce payload).
  2: { unfold payload_at, head_size at 2, NEXUS_COSE_MAC0_CBOR_SINGLE_BYTE_INT_LENGTH. destruct (_ <? 24); [done|].
       by rewrite (proj2 (Z.leb_le _ _)) by lia. }
  destruct (advance_string parser ary q 2 payload _ Ha Hpu Hp ltac:(done) Hnext) as ([err tg] & -> & He & Htag).
  cbn [fst snd] in *. subst err. cbn [mbind run_bind]. no_error. change (2 - 1) with 1 in Htag.
  destruct (byte_string_head _ _ _ _ _ Htag Htu) as [-> ->]. cbn [negb]. cbn [mbind run_bind]. no_error. rewrite Htl at 1. cbn [Z.of_nat Z.eqb].
  destruct (gk_tag _ Hg) as [Hgl Hgb].
  destruct (copy_byte_string_whole parser tg _ 1 tag (g_tag g) 8 _ Htag Htu Ht (continues_end parser _ 0x40 ltac:(done)) ltac:(lia))
    as ([[[err d'] len] last] & -> & (He & _ & _ & Hty) & -> & -> & Hdl & Hdt).
  cbn [mbind run_bind]. no_error. cbn [fst snd] in *.
  destruct (leave_last parser root last) as ([err2 ?] & -> & He2); [done|by left|done|].
  cbn [fst] in He2. subst err2. cbn [mbind run_bind]. no_error. rewrite take_ge in Hdt by lia. by rewrite Hdt.
Qed.

Lemma deserialize_message_spec data nonce payload tag :
  is_u32 nonce → (length payload < 255)%nat → length tag = 8%nat →
  let bytes := cose_message nonce payload tag in
  take (length bytes) data = bytes →
  nexus_cose_mac0_verify_deserialize_protected_message g data (Z.of_nat (length bytes)) =
    Done (inr (mk_extracted nonce (payload_at nonce payload) (Z.of_nat (length payload)) tag)).
Proof.
  intros Hn Hpl Htl bytes Htake. set (n := Z.of_nat (length bytes)). set (parser := mk_cbor_parser data n).
  assert (Hle : (length bytes ≤ length data)%nat) by (rewrite <- Htake, length_take; lia).
  destruct (protected_header_length nonce Hn) as [Hhl Hh5]. pose proof (head_size_range nonce) as Hhr.
  pose proof (head_size_range (Z.of_nat (length payload))).
  assert (Hend : cp_end parser < UINT32_MAX).
  { cbn. unfold n, bytes, UINT32_MAX. rewrite cose_message_length by done. rewrite byte_string_length. lia. }
  assert (Hh : holds parser 0 bytes).
  { unfold holds. cbn [cp_end cp_buffer parser]. change (Z.to_nat 0) with 0%nat. rewrite drop_0. unfold n. split; [lia|]. split; [lia|]. split; [lia|done]. }
  unfold bytes, cose_message in Hh. apply holds_app in Hh as [Harr Hh]. apply holds_app in Hh as [Hprot Hh]. apply holds_app in Hh as [Hmap Hrest].
  rewrite byte_string_length, Hhl, (head_size_small (2 + _)) in * by lia. rewrite !head_length in *.
  change (0 + head_size 4) with 1 in *. change (head_size 0) with 1 in *.
  replace (1 + (1 + (2 + head_size nonce))) with (4 + head_size nonce) in * by lia.
  replace (4 + head_size nonce + 1) with (5 + head_size nonce) in * by lia.
  assert (Hpu : is_u64 (Z.of_nat (length (protected_header nonce)))) by (apply u64_small_size; lia).
  assert (Hm4 : major 0x40) by (right; by left). assert (Hma : major 0xa0) by (unfold major; tauto).
  assert (Hprot' := Hprot). unfold cbor_byte_string in Hprot'. apply holds_app in Hprot' as [Hph _].
  assert (Hrest' := Hrest). apply holds_app in Hrest' as [Hpay _]. unfold cbor_byte_string in Hpay. apply holds_app in Hpay as [Hpay _].
  unfold nexus_cose_mac0_verify_deserialize_protected_message. fold parser. cbv zeta.
  destruct (preparse_head parser (mk_cbor_value 0 1 0 0 0) 0x80 4) as ([err root] & Hroot & He & Hr); [unfold major; tauto|done|done|].
  cbn [fst snd cv_ptr cv_remaining] in *. subst err. unfold cbor_parser_init. rewrite Hroot. cbn [mbind run_bind]. no_error.
  unfold cbor_value_get_array_length, cbor_value_is_array. rewrite (rh_type _ _ _ _ _ _ Hr). change (0x80 =? CborArrayType) with true.
  cbn [negb cbor_assert mbind run_bind]. rewrite (get_length_head _ _ _ _ _ _ Hr) by done. cbn [mbind run_bind]. no_error.
  change (negb (4 =? _)) with false. cbn iota.
  destruct (enter_items parser root 0 1 0x80 4 0x40 (Z.of_nat (length (protected_header nonce)))) as ([err hdr] & -> & He & Hhd);
    [done|by left|done|done|done|done|done|].
  cbn [fst snd] in *. subst err. change (0 + head_size 4) with 1 in Hhd. change (if 0x80 =? 0xa0 then 4 * 2 else 4) with 4 in Hhd.
  cbn [mbind run_bind]. no_error.
  destruct (byte_string_head _ _ _ _ _ Hhd Hpu) as [-> ->]. cbn [negb]. cbn [mbind run_bind]. no_error. rewrite (proj2 (Z.eqb_neq _ 0)) by lia.
  destruct (gk_verify_tmp _ Hg) as [Hgl Hgb].
  assert (Hnext : continues parser (1 + head_size (Z.of_nat (length (protected_header nonce))) + Z.of_nat (length (protected_header nonce))) 4 0x40
    (λ res, res.1 = CborNoError ∧ read_head parser (4 + head_size nonce) (4 - 1) 0xa0 0 res.2)).
  { rewrite Hhl, head_size_small by lia. replace (1 + 1 + (2 + head_size nonce)) with (4 + head_size nonce) by lia. by apply continues_head. }
  destruct (copy_byte_string_whole parser hdr 1 4 (protected_header nonce) (g_verify_tmp_buffer g) 7 _ Hhd Hpu Hprot Hnext ltac:(lia))
    as ([[[err d'] len] mp] & Hcopy & (_ & Hmp) & -> & -> & Hdl & Hdt).
  change NEXUS_COSE_MAC0_MAX_PROTECTED_HEADER_BSTR_SIZE with 7. rewrite Hcopy. cbn [mbind run_bind]. no_error. cbn [fst snd] in *. change (4 - 1) with 3 in Hmp.
  rewrite (deserialize_header_spec nonce d') by (done || lia). cbn [mbind run_bind].
  unfold cbor_value_is_map. rewrite (rh_type _ _ _ _ _ _ Hmp). change (negb (0xa0 =? CborMapType)) with false. cbn iota.
  assert (Hpu' : is_u64 (Z.of_nat (length payload))) by (apply u64_small_size; lia).
  pose proof (continues_head parser (5 + head_size nonce) 3 0xa0 0x40 (Z.of_nat (length payload)) ltac:(done) ltac:(done) Hm4 Hpu' Hpay) as Hnext2.
  replace (5 + head_size nonce) with (4 + head_size nonce + 1) in Hnext2 by lia.
  destruct (advance_empty_map parser mp _ 3 _ Hmp Hmap ltac:(done) Hnext2) as ([err ary] & -> & He & Ha).
  cbn [fst snd] in *. subst err. cbn [mbind run_bind]. no_error. change (3 - 1) with 2 in Ha.
  destruct (byte_string_head _ _ _ _ _ Ha Hpu') as [-> _]. cbn [negb]. cbn iota.
  replace (4 + head_size nonce + 1) with (5 + head_size nonce) in Ha by lia.
  apply deserialize_payload_spec; try done; [apply (rh_remaining _ _ _ _ _ _ Hr)|apply (rh_type _ _ _ _ _ _ Hr)].
Qed.
End Spec.
