(* ===== verification/ChannelCoseRun.v ===== *)
(** * COSE MAC0: verifying any bytes

    Reading a message never leaves its bytes and always ends, whatever the
    bytes are; what is read is within the message, and a message that verifies
    carries the tag of what is read. *)


From S2P Require Import Prelude Siphash Check Cbor CborSafe CborEncoder CborParse ChannelCose ChannelCoseSpec.
Local Open Scope Z_scope.
Local Open Scope c_scope.

Lemma safe_if {A} (Q : A → Prop) (b : bool) (r1 r2 : run A) :
  (b = true → safe Q r1) → (b = false → safe Q r2) → safe Q (if b then r1 else r2).
Proof. by destruct b; auto. Qed.

(** A test of the code that returns early when it is true. *)
Tactic Notation "early" simple_intropattern(H) := apply safe_if; [done|]; intros H.

Section Values.
Context (parser : CborParser) (Hend : 0 ≤ cp_end parser ≤ Z.of_nat (length (cp_buffer parser)))
  (Hbytes : bytes_ok (cp_buffer parser)) (Hsize : cp_end parser < SIZE_MAX).

(** A value whose type the code has tested is not past the end. *)
Lemma typed_head it ty :
  value_ok parser it → (cv_type it =? ty) = true → ty ≠ CborInvalidType → value_head parser it ∧ 0 < cv_remaining it ≤ UINT32_MAX.
Proof.
  intros [Hp Hr Hh He] Ht%Z.eqb_eq Hty.
  destruct (Z.eq_dec (cv_remaining it) 0) as [H0|H0]; [by rewrite (He H0) in Ht|]. split; [by apply Hh|lia].
Qed.

Lemma length_of_safe check it : value_head parser it → safe (λ _, True) (cbor_assert check;; get_length parser it).
Proof. intros Hh. apply safe_assert. intros _. eapply safe_mono; [by apply get_length_safe|done]. Qed.

Lemma get_uint64_safe it : value_head parser it → safe (λ v, 0 ≤ v) (cbor_value_get_uint64 parser it).
Proof. intros Hh. apply safe_assert. intros _. by apply int64_helper_safe. Qed.

(** Copying a byte string of at most [buflen] bytes. *)
Lemma copy_byte_string_safe it d buflen :
  value_head parser it → 0 < cv_remaining it ≤ UINT32_MAX → bytes_ok d → 0 ≤ buflen ≤ Z.of_nat (length d) →
  safe (λ r, let '(err, d', len, next) := r in
      bytes_ok d' ∧ length d' = length d ∧ (err = CborNoError → value_ok parser next ∧ 0 ≤ len ≤ buflen))
    (cbor_value_copy_byte_string parser it d buflen).
Proof.
  intros Hh Hr Hd Hb. unfold cbor_value_copy_byte_string. apply safe_assert. intros _.
  eapply safe_bind; [apply (copy_string_safe parser Hend Hbytes Hsize it (Some d) buflen); [by apply head_string_ok|split; [done|lia]|lia]|].
  intros [[[err [d'|]] len] next] (Hd' & Hl & Hok); [|done]. cbn [default]. destruct Hd' as [Hd' _]. injection Hl as Hl.
  split; [done|]. split; [done|]. intros He. destruct (Hok He) as (? & _ & ? & _). by split.
Qed.
End Values.

Section CoseSafe.
Context (g : garbage) (Hg : garbage_ok g).

Lemma deserialize_header_safe header len :
  bytes_ok header → 0 ≤ len ≤ Z.of_nat (length header) → len < SIZE_MAX →
  safe (λ r, match r with inl _ => True | inr nonce => is_u32 nonce end)
    (_nexus_cose_mac0_verify_deserialize_protected_header header len).
Proof.
  intros Hb Hl Hs. unfold _nexus_cose_mac0_verify_deserialize_protected_header. set (parser := mk_cbor_parser header len). cbv zeta.
  eapply safe_bind; [by apply (cbor_parser_init_safe parser)|]. intros [err root] Hinit. cbn [fst snd] in Hinit. early Hf%failed_spec.
  destruct (Hinit Hf) as [Hroot Hrem]. assert (Hrh : value_head parser root) by (apply ok_head; [done|lia]).
  early Hmap. eapply safe_bind; [by apply length_of_safe|]. intros [err2 len2] _. early Hf2. early Hl0.
  eapply safe_bind; [by apply (enter_container_safe parser)|]. intros [err3 key] Hkey. early Hf3%failed_spec.
  destruct (Hkey Hf3) as [Hk _]. cbn [fst snd] in *. early Hki.
  eapply safe_bind; [by apply (cbor_value_advance_safe parser)|]. intros [err4 val] Hval.
  early Hf4. apply orb_false_iff in Hf4 as [Hf4%failed_spec Hvi%negb_false_iff]. destruct (Hval Hf4) as [Hv _]. cbn [fst snd] in *.
  destruct (typed_head _ _ _ Hv Hvi) as [Hvh Hvr]; [done|].
  eapply safe_bind; [by apply get_uint64_safe|]. intros nonce Hn. early Hmax.
  eapply safe_bind; [by apply (cbor_value_advance_safe parser)|]. intros [err5 last] Hlast. early Hf5%failed_spec.
  destruct (Hlast Hf5) as [Hlo _]. cbn [fst snd] in *.
  eapply safe_bind; [apply (leave_container_safe parser); [done|done|rewrite Hrem; done|apply (ok_ptr _ _ Hlo)]|].
  intros [err6 ?] _. early Hf6. apply u32_range.
Qed.

(** What is read from a message: the payload is within it. *)
Definition extracted_ok (len : Z) (x : nexus_cose_mac0_extracted_cose_params_t) : Prop :=
  is_u32 (x_nonce x) ∧ 0 ≤ x_payload x ∧ 0 ≤ x_payload_len x < 255 ∧ x_payload x + x_payload_len x ≤ len ∧
  bytes_ok (x_tag x) ∧ length (x_tag x) = 8%nat.

Lemma deserialize_payload_safe parser root ary nonce :
  bytes_ok (cp_buffer parser) → 0 ≤ cp_end parser ≤ Z.of_nat (length (cp_buffer parser)) → cp_end parser < SIZE_MAX →
  is_u32 nonce → cv_remaining root = 1 → value_ok parser ary → cbor_value_is_byte_string ary = true →
  safe (λ r, match r with inl _ => True | inr x => extracted_ok (cp_end parser) x end)
    (deserialize_payload_and_tag g parser root ary nonce).
Proof.
  intros Hb He Hs Hn Hrem Ha Hab. destruct (typed_head _ _ _ Ha Hab) as [Hah Har]; [done|]. unfold deserialize_payload_and_tag.
  eapply safe_bind; [by apply (calculate_string_length_safe parser)|]. intros [err len] Hlen. cbn [fst snd] in Hlen. early Hf%failed_spec.
  destruct (Hlen Hf) as [Hl Hfits]. early Hmax. apply Z.leb_gt in Hmax. unfold UINT8_MAX in Hmax. cbv zeta.
  eapply safe_bind; [by apply (cbor_value_advance_safe parser)|]. intros [err2 tg] Htg. early Hf2%failed_spec.
  destruct (Htg Hf2) as [Ht _]. cbn [fst snd] in *. early Htb. apply negb_false_iff in Htb. destruct (typed_head _ _ _ Ht Htb) as [Hth Htr]; [done|].
  eapply safe_bind; [by apply length_of_safe|]. intros [err3 len3] _. early Hf3.
  destruct (gk_tag _ Hg) as [Hgl Hgb].
  eapply safe_bind; [apply (copy_byte_string_safe parser He Hb Hs tg (g_tag g) 8 Hth Htr Hgb); lia|].
  intros [[[err4 tag] len4] last] (Htagb & Htagl & Hlast). early Hf4%failed_spec. destruct (Hlast Hf4) as [Hlo _].
  eapply safe_bind; [apply (leave_container_safe parser); [done|done|rewrite Hrem; done|apply (ok_ptr _ _ Hlo)]|].
  intros [err5 ?] _. early Hf5. cbn [safe]. unfold extracted_ok. cbn [x_nonce x_payload x_payload_len x_tag].
  pose proof (head_in _ _ Hah). unfold NEXUS_COSE_MAC0_CBOR_SINGLE_BYTE_INT_LENGTH, string_fits in *.
  split; [done|]. destruct (Z.ltb_spec len 24); (split; [lia|]; split; [lia|]; split; [lia|]; split; [done|lia]).
Qed.

Lemma deserialize_message_safe data len :
  bytes_ok data → 0 ≤ len ≤ Z.of_nat (length data) → len < SIZE_MAX →
  safe (λ r, match r with inl _ => True | inr x => extracted_ok len x end)
    (nexus_cose_mac0_verify_deserialize_protected_message g data len).
Proof.
  intros Hb Hl Hs. unfold nexus_cose_mac0_verify_deserialize_protected_message. set (parser := mk_cbor_parser data len). cbv zeta.
  eapply safe_bind; [by apply (cbor_parser_init_safe parser)|]. intros [err root] Hinit. cbn [fst snd] in Hinit. early Hf%failed_spec.
  destruct (Hinit Hf) as [Hroot Hrem]. assert (Hrh : value_head parser root) by (apply ok_head; [done|lia]).
  early Harr. eapply safe_bind; [by apply length_of_safe|]. intros [err2 len2] _. early Hf2. early Hl4.
  eapply safe_bind; [by apply (enter_container_safe parser)|]. intros [err3 hdr] Hhdr. early Hf3%failed_spec.
  destruct (Hhdr Hf3) as [Hh _]. cbn [fst snd] in *. early Hhb. apply negb_false_iff in Hhb. destruct (typed_head _ _ _ Hh Hhb) as [Hhh Hhr]; [done|].
  eapply safe_bind; [by apply length_of_safe|]. intros [err4 len4] _. early Hf4. destruct (gk_verify_tmp _ Hg) as [Hgl Hgb].
  eapply safe_bind; [apply (copy_byte_string_safe parser Hl Hb Hs hdr (g_verify_tmp_buffer g) 7 Hhh Hhr Hgb); lia|].
  intros [[[err5 tmp] len5] ary] (Htb & Htl & Hary). early Hf5%failed_spec. destruct (Hary Hf5) as [Ha Hlen5].
  eapply safe_bind; [apply deserialize_header_safe; [done|lia|unfold SIZE_MAX; lia]|]. intros [perr|nonce] Hn; [done|].
  early Hmap. eapply safe_bind; [by apply (cbor_value_advance_safe parser)|]. intros [err6 ary'] Hary'.
  early Hf6. apply orb_false_iff in Hf6 as [Hf6%failed_spec Hbs%negb_false_iff]. destruct (Hary' Hf6) as [Ha' _]. cbn [fst snd] in *.
  by apply (deserialize_payload_safe parser).
Qed.

(** ** Verifying *)

(** A context whose pointers are valid; [uri] is what [coap_uri] points to. *)
Record ctx_ok (ctx : nexus_cose_mac0_verify_ctx_t) (uri : list Z) : Prop := mk_ctx_ok {
  xo_key : bytes_ok (vc_key ctx) ∧ length (vc_key ctx) = 16%nat;
  xo_method : is_u8 (coap_method (vc_aad ctx));
  xo_uri_len : is_u8 (coap_uri_len (vc_aad ctx));
  xo_uri : slice (coap_uri (vc_aad ctx)) 0 (Z.to_nat (coap_uri_len (vc_aad ctx))) = Some uri ∧ bytes_ok uri;
  xo_payload : bytes_ok (vc_payload ctx);
  xo_payload_len : 0 ≤ vc_payload_len ctx ≤ Z.of_nat (length (vc_payload ctx)) ∧ vc_payload_len ctx < SIZE_MAX
}.

(** The bytes a verified message holds as its payload. *)
Definition payload_of (ctx : nexus_cose_mac0_verify_ctx_t) (offset len : Z) : list Z :=
  take (Z.to_nat len) (drop (Z.to_nat offset) (vc_payload ctx)).

(** Once the message is read, it verifies if and only if the URI is short
    enough, the payload fits into the MAC structure, and the tag is right. *)
Lemma verify_extracted ctx uri x :
  ctx_ok ctx uri → extracted_ok (vc_payload_len ctx) x →
  nexus_cose_mac0_verify_deserialize_protected_message g (vc_payload ctx) (vc_payload_len ctx) = Done (inr x) →
  let payload := payload_of ctx (x_payload x) (x_payload_len x) in
  let bytes := mac_structure (x_nonce x) (coap_method (vc_aad ctx)) uri payload in
  ends (λ r, r = inr (mk_verified (x_nonce x) (x_payload x) (x_payload_len x)) ↔
      (length uri ≤ 11)%nat ∧ Z.of_nat (length bytes) ≤ mac_struct_size ∧
      x_tag x = cose_tag (vc_key ctx) (x_nonce x) (coap_method (vc_aad ctx)) uri payload)
    (nexus_cose_mac0_verify_message g ctx) ∧
  ∀ v, nexus_cose_mac0_verify_message g ctx = Done (inr v) → v = mk_verified (x_nonce x) (x_payload x) (x_payload_len x).
Proof.
  intros [Hkey Hm Hul Hu Hb Hl] (Hn & Hp & Hpl & Hfit & Htb & Htl) Hd payload bytes.
  unfold nexus_cose_mac0_verify_message. rewrite Hd. cbn [mbind run_bind]. cbv zeta.
  set (mp := mk_macparams _ _ _ _ _).
  assert (Hok : params_ok mp uri payload).
  { split; cbn [mp mp_key nonce_to_protect mp_aad mp_payload mp_payload_len]; try done; [unfold is_u64; lia|]. split.
    - rewrite slice_in by (rewrite length_drop; lia). by rewrite drop_0.
    - by apply Forall_take, Forall_drop. }
  destruct (gk_mac_struct _ Hg) as [Hms Hmsb].
  destruct (mac_params_spec g Hg mp uri payload (g_mac_struct g) Hok Hms Hmsb) as ([err ms] & -> & Hiff & Hres). cbn [mbind run_bind].
  change (mac_structure _ _ uri payload) with bytes in Hiff, Hres. case_bool_decide as Herr.
  { split; [|done]. apply ends_ret. split; [done|]. intros (H1 & H2 & _). exfalso. by apply Herr, Hiff. }
  destruct (decide (err = NEXUS_COSE_ERROR_NONE)) as [->|]; [|tauto]. destruct (Hres eq_refl) as (Hcd & Htake & Hcl & Hcb).
  destruct (proj1 Hiff eq_refl) as [Hshort Hsmall].
  unfold nexus_cose_mac0_common_compute_tag. destruct Hkey as [Hkb Hkl]. cbn [mp mp_key].
  rewrite check_compute_spec by (done || lia). rewrite Hcd, Nat2Z.id, Htake. cbn [defined mbind run_bind].
  fold (cose_tag (vc_key ctx) (x_nonce x) (coap_method (vc_aad ctx)) uri payload).
  case_bool_decide as Htag; split; try done.
  - apply ends_ret. split; [done|]. intros (_ & _ & H3). by rewrite H3 in Htag.
  - apply ends_ret. split; [|done]. intros _. split; [done|]. split; [done|].
    by destruct (decide (cose_tag (vc_key ctx) (x_nonce x) (coap_method (vc_aad ctx)) uri payload = x_tag x)).
  - by intros v [= <-].
Qed.
End CoseSafe.

(** ** COSE MAC0: the properties

    Signing and verifying fit together; a message that verifies was made with
    the key for the same method and URI; and what the parser's asserts and a
    short tag do. *)


(** The context a receiver verifies with, for the key, method and URI of a sender. *)
Definition receiver_ctx (mp : nexus_cose_mac0_common_macparams_t) (data : list Z) (len : Z) : nexus_cose_mac0_verify_ctx_t :=
  mk_verify_ctx (mp_key mp) (mp_aad mp) data len.

Lemma message_payload nonce payload tag :
  is_u32 nonce →
  take (length payload) (drop (Z.to_nat (payload_at nonce payload)) (cose_message nonce payload tag)) = payload.
Proof.
  intros Hn. unfold cose_message, cbor_byte_string at 2. rewrite <- !app_assoc.
  set (pre := cbor_head 0x80 4 ++ cbor_byte_string (protected_header nonce) ++ cbor_head 0xa0 0 ++ cbor_head 0x40 (Z.of_nat (length payload))).
  assert (Hpre : length pre = Z.to_nat (payload_at nonce payload)).
  { unfold pre, payload_at. rewrite !length_app. destruct (protected_header_length nonce Hn) as [Hhl Hh5].
    pose proof (byte_string_length (protected_header nonce)) as Hb. rewrite Hhl, (head_size_small (2 + _)) in Hb by lia.
    pose proof (head_length 0x80 4). pose proof (head_length 0xa0 0). pose proof (head_length 0x40 (Z.of_nat (length payload))).
    change (head_size 4) with 1 in *. change (head_size 0) with 1 in *. pose proof (head_size_range nonce).
    pose proof (head_size_range (Z.of_nat (length payload))). lia. }
  rewrite <- Hpre. unfold pre. rewrite !app_assoc. rewrite <- (app_assoc _ payload). rewrite drop_app_length. by rewrite take_app_length.
Qed.

Section CoseRun.
Context (g g' : garbage) (Hg : garbage_ok g) (Hg' : garbage_ok g').

(** What signing wrote verifies, wherever it lies. *)
Lemma signed_verifies mp uri payload data :
  let bytes := cose_message (nonce_to_protect mp) payload (cose_tag (mp_key mp) (nonce_to_protect mp) (coap_method (mp_aad mp)) uri payload) in
  params_ok mp uri payload → (length uri ≤ 11)%nat → Z.of_nat (length bytes) ≤ 98 → bytes_ok data → take (length bytes) data = bytes →
  nexus_cose_mac0_verify_message g' (receiver_ctx mp data (Z.of_nat (length bytes))) =
    Done (inr (mk_verified (nonce_to_protect mp) (payload_at (nonce_to_protect mp) payload) (Z.of_nat (length payload)))) ∧
  take (length payload) (drop (Z.to_nat (payload_at (nonce_to_protect mp) payload)) data) = payload.
Proof.
  intros bytes Hok Hu Hlen Hdb Htake. set (tag := cose_tag _ _ _ _ _) in bytes. pose proof Hok as [[Hkb Hkl] Hn Hm Hul [Hus Hub] Hpl [Hps Hpb]].
  assert (Htag : length tag = 8%nat) by apply le_bytes_length.
  pose proof (cose_message_length (nonce_to_protect mp) payload tag Hn Htag) as Hml. fold bytes in Hml. rewrite byte_string_length in Hml.
  pose proof (head_size_range (nonce_to_protect mp)). pose proof (head_size_range (Z.of_nat (length payload))).
  assert (Hle : (length bytes ≤ length data)%nat) by (rewrite <- Htake, length_take; lia).
  assert (Hpay : take (length payload) (drop (Z.to_nat (payload_at (nonce_to_protect mp) payload)) data) = payload).
  { pose proof (message_payload (nonce_to_protect mp) payload tag Hn) as Hp. change (cose_message _ payload tag) with bytes in Hp.
    rewrite <- Htake, skipn_firstn_comm, take_take, Nat.min_l in Hp; [done|]. unfold payload_at. lia. }
  split; [|done]. pose proof (deserialize_message_spec g' Hg' data (nonce_to_protect mp) payload tag Hn ltac:(lia) Htag Htake) as Hd. fold bytes in Hd.
  assert (Hctx : ctx_ok (receiver_ctx mp data (Z.of_nat (length bytes))) uri).
  { split; cbn [receiver_ctx vc_key vc_aad vc_payload vc_payload_len]; try done. unfold SIZE_MAX. lia. }
  assert (Hx : extracted_ok (Z.of_nat (length bytes)) (mk_extracted (nonce_to_protect mp) (payload_at (nonce_to_protect mp) payload)
      (Z.of_nat (length payload)) tag)).
  { unfold extracted_ok, payload_at. cbn [x_nonce x_payload x_payload_len x_tag]. split_and!; first [lia|done|apply le_bytes_ok]. }
  destruct (verify_extracted g' Hg' _ uri _ Hctx Hx Hd) as [(r & Hr & Hiff) _]. rewrite Hr. f_equal. apply Hiff.
  cbn [x_nonce x_payload x_payload_len x_tag receiver_ctx vc_aad vc_key]. unfold payload_of. cbn [receiver_ctx vc_payload].
  rewrite Nat2Z.id, Hpay. split; [done|]. split; [|done]. rewrite mac_structure_length by done. rewrite byte_string_length. change mac_struct_size with 123. lia.
Qed.

(** C7: signing succeeds exactly if the output has 98 bytes, the URI at most 11
    and the message fits into 98; and then the message verifies under the same
    key, method and URI, and gives back the nonce and the payload. *)
Theorem cose_sign_verify mp uri payload output output_size count :
  params_ok mp uri payload → 0 ≤ output_size ≤ Z.of_nat (length output) → output_size < SIZE_MAX → bytes_ok output →
  ends (λ r, let '(err, output', n) := r in
      (err = NEXUS_COSE_ERROR_NONE ↔
         98 ≤ output_size ∧ (length uri ≤ 11)%nat ∧
         14 + head_size (nonce_to_protect mp) + head_size (mp_payload_len mp) + mp_payload_len mp ≤ 98) ∧
      (err = NEXUS_COSE_ERROR_NONE → ∃ v, nexus_cose_mac0_verify_message g' (receiver_ctx mp output' n) = Done (inr v) ∧
         extracted_nonce v = nonce_to_protect mp ∧ unsecured_payload_len v = mp_payload_len mp ∧
         take (Z.to_nat (unsecured_payload_len v)) (drop (Z.to_nat (unsecured_payload v)) output') = payload))
    (nexus_cose_mac0_sign_encode_message g mp output output_size count).
Proof.
  intros Hok Hsize Hmax Hob. pose proof (slice_length _ _ _ _ (proj1 (po_payload _ _ _ Hok))) as Hpl.
  pose proof (po_payload_len _ _ _ Hok) as Hpu. assert (Hplz : mp_payload_len mp = Z.of_nat (length payload)) by (unfold is_u64 in Hpu; lia).
  eapply ends_mono; [by apply (sign_encode_message_spec g Hg mp uri payload)|]. intros [[err output'] n] [Hiff Hres].
  change NEXUS_COSE_MAC0_MAX_ENCODED_CBOR_OBJECT_SIZE with 98 in Hiff.
  rewrite cose_message_length, byte_string_length in Hiff by (apply le_bytes_length || apply Hok). rewrite Hplz. split.
  { rewrite Hiff. split; intros (? & ? & ?); split_and!; lia. }
  intros Herr. destruct (Hres Herr) as (-> & Htake & Hlen & Hbytes). apply Hiff in Herr as (_ & Hu & Hfit).
  destruct (signed_verifies mp uri payload output' Hok Hu) as [Hv Hpay]; [|done|done|].
  { rewrite cose_message_length, byte_string_length by (apply le_bytes_length || apply Hok). lia. }
  eexists. split; [exact Hv|]. cbn [extracted_nonce unsecured_payload unsecured_payload_len]. by rewrite Nat2Z.id.
Qed.


(** the bytes under the MAC determine the nonce, the method, the URI and the
    payload: no two messages share them. *)
Theorem mac_structure_binds mp1 mp2 uri1 uri2 payload1 payload2 s1 s2 :
  params_ok mp1 uri1 payload1 → params_ok mp2 uri2 payload2 →
  nexus_cose_mac0_common_mac_params_to_mac_structure g mp1 (g_mac_struct g) = Done (NEXUS_COSE_ERROR_NONE, s1) →
  nexus_cose_mac0_common_mac_params_to_mac_structure g' mp2 (g_mac_struct g') = Done (NEXUS_COSE_ERROR_NONE, s2) →
  take (Z.to_nat (cd_len s1)) (cd_buf s1) = take (Z.to_nat (cd_len s2)) (cd_buf s2) →
  nonce_to_protect mp1 = nonce_to_protect mp2 ∧ coap_method (mp_aad mp1) = coap_method (mp_aad mp2) ∧ uri1 = uri2 ∧ payload1 = payload2.
Proof.
  intros Hok1 Hok2 H1 H2 Heq. destruct (gk_mac_struct _ Hg) as [Hm1 Hb1]. destruct (gk_mac_struct _ Hg') as [Hm2 Hb2].
  destruct (mac_params_spec g Hg mp1 uri1 payload1 _ Hok1 Hm1 Hb1) as ([err1 ms1] & Hr1 & Hiff1 & Hres1).
  destruct (mac_params_spec g' Hg' mp2 uri2 payload2 _ Hok2 Hm2 Hb2) as ([err2 ms2] & Hr2 & Hiff2 & Hres2).
  rewrite H1 in Hr1. rewrite H2 in Hr2. injection Hr1 as <- <-. injection Hr2 as <- <-.
  destruct (Hres1 eq_refl) as (Hl1 & Ht1 & _). destruct (Hres2 eq_refl) as (Hl2 & Ht2 & _).
  rewrite Hl1, Hl2, !Nat2Z.id, Ht1, Ht2 in Heq.
  pose proof (slice_length _ _ _ _ (proj1 (po_payload _ _ _ Hok1))). pose proof (slice_length _ _ _ _ (proj1 (po_payload _ _ _ Hok2))).
  pose proof (po_payload_len _ _ _ Hok1). pose proof (po_payload_len _ _ _ Hok2).
  destruct (proj1 Hiff1 eq_refl) as [Hu1 _]. destruct (proj1 Hiff2 eq_refl) as [Hu2 _].
  apply mac_structure_inj in Heq; [done|apply Hok1|apply Hok2|unfold is_u64 in *; lia..].
Qed.
End CoseRun.

(** ** The asserts of the parser *)

(** three messages end in a failed assert: a simple value below 20, a
    protected header with two pairs, and a negative nonce. *)
Theorem cose_verify_asserts g key aad :
  garbage_ok g →
  Forall (λ data, nexus_cose_mac0_verify_message g (mk_verify_ctx key aad data (Z.of_nat (length data))) = Aborted)
    [[0xe0]; [0x84; 0x45; 0xa2; 5; 1; 6; 2; 0xa0; 0x40; 0x40]; [0x84; 0x43; 0xa1; 5; 0x20; 0xa0; 0x40; 0x40]].
Proof.
  intros [_ _ _ _ [Hl _] _]. destruct g as [h st ms sg tmp tg]. cbn [g_verify_tmp_buffer] in Hl.
  destruct tmp as [|b0 [|b1 [|b2 [|b3 [|b4 [|b5 [|b6 [|]]]]]]]]; try done.
  repeat (apply Forall_cons_2; [vm_compute; reflexivity|]). apply Forall_nil_2.
Qed.

(** ** Short tags *)

Definition zero_garbage (tag : list Z) : garbage :=
  mk_garbage (replicate 7 0) (replicate 26 0) (mk_cbor_data (replicate 123 0) 0) (replicate 7 0) (replicate 7 0) tag.

Lemma zero_garbage_ok tag : length tag = 8%nat → bytes_ok tag → garbage_ok (zero_garbage tag).
Proof. intros Hl Hb. split; try done; (split; [done|]); apply Forall_replicate; wrap. Qed.

(** A GET request for "n" under nonce 123 with an empty payload, whose tag is
    cut to its first byte, and a key under which the second byte is 0. *)
Definition short_tag_key : list Z := [0; 1; 2; 3; 4; 5; 6; 7; 8; 9; 10; 11; 12; 13; 14; 15].
Definition short_tag_message : list Z := [0x84; 0x44; 0xa1; 5; 0x18; 123; 0xa0; 0x40; 0x41; 77].
Definition short_tag_ctx : nexus_cose_mac0_verify_ctx_t :=
  mk_verify_ctx short_tag_key (mk_aad 1 [0x6e] 1) short_tag_message 10.

(** a tag of one byte is accepted if the tag buffer holds the last six bytes
    of the right tag from before, and rejected if it holds zeroes. *)
Theorem cose_short_tag_stale :
  let stale := cose_tag short_tag_key 123 1 [0x6e] [] in
  nexus_cose_mac0_verify_message (zero_garbage stale) short_tag_ctx = Done (inr (mk_verified 123 8 0)) ∧
  nexus_cose_mac0_verify_message (zero_garbage (replicate 8 0)) short_tag_ctx = Done (inl NEXUS_COSE_ERROR_MAC_TAG_INVALID).
Proof. split; vm_compute; reflexivity. Qed.
