(* ===== verification/ChannelSm.v ===== *)
(** * The security manager (nexus_channel_sm.c), and what the CoAP engine does
    with it

    Which methods of which resources need a secured request, the check of an
    incoming message against the link to its sender, and the secured messages
    that the client and the engine make (oc/api/oc_client_api.c,
    oc/messaging/coap/engine.c).  A packet is what coap_udp_parse_message gives,
    as far as it is looked at here. *)

From S2P Require Import Prelude Check Product DesktopProduct Channel ChannelEndpoint ChannelLm.
From S2P Require Import Cbor CborEncoder ChannelCose.
Local Open Scope Z_scope.
Local Open Scope c_scope.

Definition OC_MAX_APP_RESOURCES : nat := 4.
Definition NEXUS_CHANNEL_NEXUS_DEVICE_ID : Z := 0.
Definition NEXUS_CHANNEL_LINK_SECURITY_RESET_NONCE_SIGNAL_VALUE : Z := UINT32_MAX.
Definition CREATED_2_01 : Z := 65.
Definition BAD_REQUEST_4_00 : Z := 128.
Definition UNAUTHORIZED_4_01 : Z := 129.
Definition FORBIDDEN_4_03 : Z := 131.
Definition NOT_ACCEPTABLE_4_06 : Z := 134.
Definition INTERNAL_SERVER_ERROR_5_00 : Z := 160.
Definition COAP_NO_ERROR : Z := 0.
Definition NEXUS_CHANNEL_SECURITY_RESEND_PREVIOUS_REQUEST : Z := 200.
Definition NEXUS_CHANNEL_SECURITY_REQUIRE_NONCE_SYNC_SPECIAL_CASE_RESET : Z := 201.
Definition APPLICATION_COSE_MAC0 : Z := 17.
Definition APPLICATION_VND_OCF_CBOR : Z := 10000.

(** A resource of the application; [uri] without the NUL at its end. *)
Record oc_resource_t := mk_resource { res_uri : list Z; res_device : Z }.

(** [resource] is [None] for the null pointer. *)
Record nexus_secured_resource_method_t := mk_secured_method { resource : option oc_resource_t; method : Z }.

(** The list of secured methods; the pool behind it holds as many as the list. *)
Definition sec_methods : Type := list nexus_secured_resource_method_t.

Inductive nexus_channel_sm_auth_error_t :=
| NEXUS_CHANNEL_SM_AUTH_MESSAGE_ERROR_NONE
| NEXUS_CHANNEL_SM_AUTH_MESSAGE_ERROR_MAC_INVALID
| NEXUS_CHANNEL_SM_AUTH_MESSAGE_ERROR_COSE_UNPARSEABLE
| NEXUS_CHANNEL_SM_AUTH_MESSAGE_ERROR_PAYLOAD_SIZE_INVALID
| NEXUS_CHANNEL_SM_AUTH_MESSAGE_ERROR_SENDER_DEVICE_NOT_LINKED
| NEXUS_CHANNEL_SM_AUTH_MESSAGE_ERROR_RESOURCE_REQUIRES_SECURED_REQUEST
| NEXUS_CHANNEL_SM_AUTH_MESSAGE_ERROR_REQUEST_RECEIVED_WITH_INVALID_NONCE
| NEXUS_CHANNEL_SM_AUTH_MESSAGE_ERROR_VALID_NONCE_SYNC_RECEIVED
| NEXUS_CHANNEL_SM_AUTH_MESSAGE_ERROR_NONCE_APPROACHING_MAX_FORCED_RESET_REQUIRED.

#[export] Instance sm_auth_error_eq_dec : EqDecision nexus_channel_sm_auth_error_t.
Proof. solve_decision. Defined.

(** The options that are absent are [None]; [payload] is the memory from the
    payload pointer on, [payload_moved] whether the pointer was changed. *)
Record coap_packet_t := mk_coap_packet {
  code : Z;
  uri_path : option (list Z);
  content_format : option Z;
  payload : list Z;
  payload_len : Z;
  payload_moved : bool
}.

(** ** Secured methods *)

Definition nexus_channel_sm_init : sec_methods := [].

(** Gives whether the method was added. *)
Definition nexus_channel_sm_nexus_resource_method_new (resource : option oc_resource_t) (method : Z) (ms : sec_methods)
    : bool * sec_methods :=
  if (length ms <? OC_MAX_APP_RESOURCES * 2)%nat then (true, ms ++ [mk_secured_method resource method]) else (false, ms).

Definition nexus_channel_sm_free_all_nexus_resource_methods (ms : sec_methods) : sec_methods := [].

(** Whether strncmp of two strings is 0: their bytes up to the NUL, [n] at most. *)
Fixpoint strncmp_eq (a b : list Z) (n : nat) : bool :=
  match n with
  | O => true
  | S n =>
    match a, b with
    | [], [] => true
    | x :: a, y :: b => (x =? y) && strncmp_eq a b n
    | _, _ => false
    end
  end.

Definition nexus_channel_sm_resource_method_is_secured (ms : sec_methods) (res : option oc_resource_t) (meth : Z) : bool :=
  match res with
  | None => false
  | Some res =>
    existsb (λ m, match resource m with
                  | Some r => strncmp_eq (res_uri r) (res_uri res) (length (res_uri res)) && (method m =? meth)
                  | None => false
                  end) ms
  end.

(** The resources of the application are a list; the URI of a packet may lack
    the slash at the start. *)
Definition oc_ri_get_app_resource_by_uri (resources : list oc_resource_t) (uri : list Z) (device : Z) : option oc_resource_t :=
  let skip := match uri with x :: _ => if x =? 0x2f then 0%nat else 1%nat | [] => 1%nat end in
  find (λ res, (length (res_uri res) =? length uri + skip)%nat &&
               strncmp_eq uri (drop skip (res_uri res)) (length uri) && (res_device res =? device)) resources.

Definition nexus_channel_sm_requested_method_is_secured (ms : sec_methods) (resources : list oc_resource_t) (pkt : coap_packet_t) : bool :=
  match uri_path pkt with
  | None | Some [] => false
  | Some href =>
    nexus_channel_sm_resource_method_is_secured ms
      (oc_ri_get_app_resource_by_uri resources href NEXUS_CHANNEL_NEXUS_DEVICE_ID) (code pkt)
  end.

Definition _nexus_channel_sm_message_headers_secured_mode0 (pkt : coap_packet_t) : bool :=
  default 0 (content_format pkt) =? APPLICATION_COSE_MAC0.

(** ** Authentication *)

Section Sm.
Context {P : Type} `{Product P} `{!ChannelProduct P} `{ChannelConfig} (g : garbage).

(** A call of the link manager. *)
Definition on_lm {A} (m : M (lm_world P) A) (w : lm_world P) : run (A * lm_world P) := defined (m w).

(** What a verified message does to the link, from its nonce; the second
    component is what the function returns so far. *)
Definition sm_check_nonce (nexus_id : nx_id) (received_nonce link_nonce pkt_code : Z) (w : lm_world P)
    : run (nexus_channel_sm_auth_error_t * lm_world P) :=
  if pkt_code <? CREATED_2_01 then
    if received_nonce <? u32 (link_nonce + 1)
    then Done (NEXUS_CHANNEL_SM_AUTH_MESSAGE_ERROR_REQUEST_RECEIVED_WITH_INVALID_NONCE, w)
    else if UINT32_MAX - NEXUS_CHANNEL_LINK_SECURITY_NONCE_NV_STORAGE_INTERVAL_COUNT <? received_nonce then
      '(_, w) ← on_lm (nexus_channel_link_manager_set_security_data_auth_nonce nexus_id 0) w;
      '(_, w) ← on_lm (nexus_channel_link_manager_reset_link_secs_since_active nexus_id) w;
      Done (NEXUS_CHANNEL_SM_AUTH_MESSAGE_ERROR_NONCE_APPROACHING_MAX_FORCED_RESET_REQUIRED, w)
    else Done (NEXUS_CHANNEL_SM_AUTH_MESSAGE_ERROR_NONE, w)
  else
    nexus_assert (CREATED_2_01 <=? pkt_code);;
    if received_nonce <? link_nonce
    then Done (NEXUS_CHANNEL_SM_AUTH_MESSAGE_ERROR_REQUEST_RECEIVED_WITH_INVALID_NONCE, w)
    else if pkt_code =? NOT_ACCEPTABLE_4_06 then
      let nonce_to_sync := if received_nonce =? NEXUS_CHANNEL_LINK_SECURITY_RESET_NONCE_SIGNAL_VALUE then 0 else received_nonce in
      '(_, w) ← on_lm (nexus_channel_link_manager_set_security_data_auth_nonce nexus_id nonce_to_sync) w;
      '(_, w) ← on_lm (nexus_channel_link_manager_reset_link_secs_since_active nexus_id) w;
      Done (NEXUS_CHANNEL_SM_AUTH_MESSAGE_ERROR_VALID_NONCE_SYNC_RECEIVED, w)
    else Done (NEXUS_CHANNEL_SM_AUTH_MESSAGE_ERROR_NONE, w).

(** What the check of a message is made with. *)
Definition sm_verify_ctx (sec_data : nexus_channel_link_security_mode0_data) (pkt : coap_packet_t) : nexus_cose_mac0_verify_ctx_t :=
  let path := default [] (uri_path pkt) in
  mk_verify_ctx (sym_key sec_data) (mk_aad (code pkt) path (u8 (Z.of_nat (length path)))) (payload pkt) (payload_len pkt).

(** The length is set whatever the check gives, the pointer if it succeeds. *)
Definition sm_unpacked (pkt : coap_packet_t) (v : verified) : coap_packet_t :=
  mk_coap_packet (code pkt) (uri_path pkt) (content_format pkt) (drop (Z.to_nat (unsecured_payload v)) (payload pkt))
    (u32 (unsecured_payload_len v)) true.

Definition nexus_channel_authenticate_message (ms : sec_methods) (resources : list oc_resource_t) (endpoint : oc_endpoint_t)
    (pkt : coap_packet_t) (w : lm_world P) : run (nexus_channel_sm_auth_error_t * coap_packet_t * lm_world P) :=
  let res_method_secured := nexus_channel_sm_requested_method_is_secured ms resources pkt in
  if _nexus_channel_sm_message_headers_secured_mode0 pkt then
    nexus_id ← defined (nexus_oc_wrapper_oc_endpoint_to_nx_id endpoint);
    if NEXUS_CHANNEL_MAX_CBOR_PAYLOAD_SIZE <? payload_len pkt
    then Done (NEXUS_CHANNEL_SM_AUTH_MESSAGE_ERROR_PAYLOAD_SIZE_INVALID, pkt, w)
    else if payload_len pkt =? 0 then Done (NEXUS_CHANNEL_SM_AUTH_MESSAGE_ERROR_PAYLOAD_SIZE_INVALID, pkt, w)
    else
      link_security_data ← defined (nexus_channel_link_manager_security_data_from_nxid nexus_id (lm_this w));
      match link_security_data with
      | None => Done (NEXUS_CHANNEL_SM_AUTH_MESSAGE_ERROR_SENDER_DEVICE_NOT_LINKED, pkt, w)
      | Some link_security_data =>
        verify_result ← nexus_cose_mac0_verify_message g (sm_verify_ctx link_security_data pkt);
        match verify_result with
        | inl err =>
          Done (if bool_decide (err = NEXUS_COSE_ERROR_MAC_TAG_INVALID) then NEXUS_CHANNEL_SM_AUTH_MESSAGE_ERROR_MAC_INVALID
                else NEXUS_CHANNEL_SM_AUTH_MESSAGE_ERROR_COSE_UNPARSEABLE, {| pkt with payload_len := 0 |}, w)
        | inr v =>
          let original_payload_len := payload_len pkt in
          let received_nonce := extracted_nonce v in
          let pkt := sm_unpacked pkt v in
          '(sm_auth_result, w) ← sm_check_nonce nexus_id received_nonce (nonce link_security_data) (code pkt) w;
          if bool_decide (sm_auth_result ≠ NEXUS_CHANNEL_SM_AUTH_MESSAGE_ERROR_NONE) then Done (sm_auth_result, pkt, w)
          else
            '(_, w) ← on_lm (nexus_channel_link_manager_set_security_data_auth_nonce nexus_id received_nonce) w;
            '(_, w) ← on_lm (nexus_channel_link_manager_reset_link_secs_since_active nexus_id) w;
            nexus_assert (payload_len pkt <=? original_payload_len);;
            Done (sm_auth_result, pkt, w)
        end
      end
  else if res_method_secured then Done (NEXUS_CHANNEL_SM_AUTH_MESSAGE_ERROR_RESOURCE_REQUIRES_SECURED_REQUEST, pkt, w)
  else Done (NEXUS_CHANNEL_SM_AUTH_MESSAGE_ERROR_NONE, pkt, w).

(** ** The engine *)

Definition auth_status (auth_result : nexus_channel_sm_auth_error_t) : Z :=
  match auth_result with
  | NEXUS_CHANNEL_SM_AUTH_MESSAGE_ERROR_VALID_NONCE_SYNC_RECEIVED => NEXUS_CHANNEL_SECURITY_RESEND_PREVIOUS_REQUEST
  | NEXUS_CHANNEL_SM_AUTH_MESSAGE_ERROR_NONE => COAP_NO_ERROR
  | NEXUS_CHANNEL_SM_AUTH_MESSAGE_ERROR_NONCE_APPROACHING_MAX_FORCED_RESET_REQUIRED =>
    NEXUS_CHANNEL_SECURITY_REQUIRE_NONCE_SYNC_SPECIAL_CASE_RESET
  | NEXUS_CHANNEL_SM_AUTH_MESSAGE_ERROR_REQUEST_RECEIVED_WITH_INVALID_NONCE => NOT_ACCEPTABLE_4_06
  | NEXUS_CHANNEL_SM_AUTH_MESSAGE_ERROR_SENDER_DEVICE_NOT_LINKED
  | NEXUS_CHANNEL_SM_AUTH_MESSAGE_ERROR_MAC_INVALID => UNAUTHORIZED_4_01
  | NEXUS_CHANNEL_SM_AUTH_MESSAGE_ERROR_COSE_UNPARSEABLE
  | NEXUS_CHANNEL_SM_AUTH_MESSAGE_ERROR_PAYLOAD_SIZE_INVALID => BAD_REQUEST_4_00
  | NEXUS_CHANNEL_SM_AUTH_MESSAGE_ERROR_RESOURCE_REQUIRES_SECURED_REQUEST => FORBIDDEN_4_03
  end.

(** Gives the status, whether the packet was secured, and the packet. *)
Definition _coap_unpack_possibly_secured_payload (ms : sec_methods) (resources : list oc_resource_t) (sender_endpoint : oc_endpoint_t)
    (coap_pkt : coap_packet_t) (w : lm_world P) : run (Z * bool * coap_packet_t * lm_world P) :=
  '(auth_result, coap_pkt, w) ← nexus_channel_authenticate_message ms resources sender_endpoint coap_pkt w;
  let rcvd_pkt_secured := payload_moved coap_pkt in
  let coap_pkt := if rcvd_pkt_secured then {| coap_pkt with content_format := Some APPLICATION_VND_OCF_CBOR |} else coap_pkt in
  let status_code := auth_status auth_result in
  nexus_assert (negb (status_code =? INTERNAL_SERVER_ERROR_5_00));;
  Done (status_code, rcvd_pkt_secured, coap_pkt, w).

(** ** Secured messages *)

(** Gives the output and the number of bytes, 0 for an error; [garbage_size]
    is what the uninitialised counter holds. *)
Definition nexus_oc_wrapper_repack_buffer_secured (secured_output : list Z) (secured_output_size garbage_size : Z)
    (mac_params : nexus_cose_mac0_common_macparams_t) : run (list Z * Z) :=
  if secured_output_size <? NEXUS_CHANNEL_MAX_CBOR_PAYLOAD_SIZE then Done (secured_output, 0)
  else
    '(encode_result, secured_output, bytes_encoded) ←
      nexus_cose_mac0_sign_encode_message g mac_params secured_output secured_output_size garbage_size;
    Done (secured_output, if bool_decide (encode_result = NEXUS_COSE_ERROR_NONE) then bytes_encoded else 0).

(** The request of a client: gives whether it is secured, and the payload to
    send and its size.  [buffer] is the uninitialised local buffer; the method,
    URI and endpoint are those of the client callback. *)
Definition _prepare_secured_coap_request (buffer : list Z) (garbage_size : Z) (endpoint : oc_endpoint_t) (meth : Z) (uri transaction_payload : list Z)
    (payload_size : Z) (w : lm_world P) : run (bool * list Z * Z) :=
  nexus_id ← defined (nexus_oc_wrapper_oc_endpoint_to_nx_id endpoint);
  sec_data ← defined (nexus_channel_link_manager_security_data_from_nxid nexus_id (lm_this w));
  match sec_data with
  | None => Done (false, transaction_payload, payload_size)
  | Some sec_data =>
    let mac_params :=
      mk_macparams (sym_key sec_data) (u32 (nonce sec_data + 1)) (mk_aad meth uri (u8 (Z.of_nat (length uri)))) transaction_payload payload_size in
    '(coap_payload_buffer, size) ←
      nexus_oc_wrapper_repack_buffer_secured buffer NEXUS_CHANNEL_MAX_CBOR_PAYLOAD_SIZE garbage_size mac_params;
    let payload_size := u8 size in
    nexus_assert (payload_size <=? NEXUS_CHANNEL_MAX_CBOR_PAYLOAD_SIZE);;
    if payload_size =? 0 then Done (false, transaction_payload, payload_size)
    else
      src ← defined (slice coap_payload_buffer 0 (Z.to_nat payload_size));
      transaction_payload ← defined (memcpy_at transaction_payload 0 src);
      Done (true, transaction_payload, payload_size)
  end.

(** The packet of a nonce sync; its payload is what is sent. *)
Definition coap_send_nonce_sync_response (buffer : list Z) (garbage_size : Z) (endpoint : oc_endpoint_t) (is_nonce_reset : bool) (w : lm_world P)
    : run coap_packet_t :=
  nexus_id ← defined (nexus_oc_wrapper_oc_endpoint_to_nx_id endpoint);
  sec_data ← defined (nexus_channel_link_manager_security_data_from_nxid nexus_id (lm_this w));
  nexus_assert (bool_decide (is_Some sec_data));;
  let sec_data := default (mk_mode0 (replicate 16 0) 0) sec_data in
  let sync_nonce := if is_nonce_reset then NEXUS_CHANNEL_LINK_SECURITY_RESET_NONCE_SIGNAL_VALUE else nonce sec_data in
  let mac_params := mk_macparams (sym_key sec_data) sync_nonce (mk_aad NOT_ACCEPTABLE_4_06 [] 0) [] 0 in
  '(coap_payload_buffer, size) ←
    nexus_oc_wrapper_repack_buffer_secured buffer NEXUS_CHANNEL_MAX_CBOR_PAYLOAD_SIZE garbage_size mac_params;
  Done (mk_coap_packet NOT_ACCEPTABLE_4_06 None (Some APPLICATION_COSE_MAC0) coap_payload_buffer size false).

(** The request of a stored transaction, packed again under the nonce of the
    link plus one; [None] if it cannot be, and the transaction is dropped. *)
Definition coap_send_previous_request_with_repacked_security (buffer : list Z) (garbage_size : Z) (endpoint : oc_endpoint_t)
    (pkt : coap_packet_t) (w : lm_world P) : run (option coap_packet_t) :=
  cose_result ← nexus_cose_mac0_verify_deserialize_protected_message g (payload pkt) (payload_len pkt);
  match cose_result with
  | inl _ => Done None
  | inr extracted_params =>
    nexus_id ← defined (nexus_oc_wrapper_oc_endpoint_to_nx_id endpoint);
    sec_data ← defined (nexus_channel_link_manager_security_data_from_nxid nexus_id (lm_this w));
    match sec_data with
    | None => Done None
    | Some sec_data =>
      let path := default [] (uri_path pkt) in
      let mac_params :=
        mk_macparams (sym_key sec_data) (u32 (nonce sec_data + 1)) (mk_aad (code pkt) path (u8 (Z.of_nat (length path))))
          (drop (Z.to_nat (x_payload extracted_params)) (payload pkt)) (x_payload_len extracted_params) in
      '(coap_payload_buffer, size) ←
        nexus_oc_wrapper_repack_buffer_secured buffer NEXUS_CHANNEL_MAX_CBOR_PAYLOAD_SIZE garbage_size mac_params;
      Done (Some (mk_coap_packet (code pkt) (uri_path pkt) (Some APPLICATION_COSE_MAC0) coap_payload_buffer size false))
    end
  end.
End Sm.
