(* ===== verification/ChannelSmSpec.v ===== *)
(** * The security manager: what a message does to the link of its sender

    [auth_outcome] is the state machine of a link's nonce: every message that
    claims to be secured is rejected and changes nothing, or it verifies under
    the key of the sender's link and moves the nonce as one of four steps
    allows.  Links to other devices never change. *)




From S2P Require Import Prelude Crc Check NvBlock Product DesktopProduct Nv Channel ChannelEndpoint ChannelLm ChannelLmSpec ChannelLmTable.
From S2P Require Import ChannelLmCreate Cbor CborSafe CborEncoder ChannelCose ChannelCoseSpec ChannelCoseRun ChannelSm.
Local Open Scope Z_scope.
Local Open Scope c_scope.

Section SmSpec.
Context {P : Type} `{HP : ProductLaws P} `{!ReliableNv P} `{!ChannelProduct P} `{!ChannelProductLaws P}
  `{HC : ChannelConfigOk} (g : garbage) (Hg : garbage_ok g).

(** ** The link to a device *)

Definition link_of (w : lm_world P) (id : nx_id) : option nexus_channel_link_t :=
  default None (nexus_channel_link_manager_link_from_nxid id (lm_this w)).

Lemma link_of_answer (w : lm_world P) id :
  lm_ok w → nexus_channel_link_manager_link_from_nxid id (lm_this w) = Some (link_of w id).
Proof.
  intros (Hs & Ht & _). unfold link_of. by destruct (link_from_nxid_spec id _ _ Hs Ht) as [(l & -> & _)|[-> _]].
Qed.

Lemma link_of_slot (w : lm_world P) id l :
  lm_ok w → link_of w id = Some l ↔ linked_device_id l = id ∧ ∃ k, (k < max_links)%nat ∧ slot (lm_this w) k = Some l.
Proof.
  intros (Hs & Ht & _). unfold link_of. split.
  - destruct (link_from_nxid_spec id _ _ Hs Ht) as [(l' & -> & Hid & Hk)|[-> _]]; [|done]. by intros [= <-].
  - intros (Hid & k & Hk & Hsl). by rewrite (link_from_nxid_found id _ _ k l Hs Ht Hk Hsl Hid).
Qed.

Lemma link_of_id (w : lm_world P) id l : lm_ok w → link_of w id = Some l → linked_device_id l = id ∧ link_ok l.
Proof.
  intros Hok Hl. apply link_of_slot in Hl as (Hid & k & Hk & Hsl); [|done]. split; [done|].
  destruct Hok as (_ & Ht & _). by apply (table_links _ _ Ht k).
Qed.

(** The link to [id] became [l], and nothing else changed. *)
Definition link_became (w w' : lm_world P) (id : nx_id) (l : nexus_channel_link_t) : Prop :=
  lm_ok w' ∧ ∀ id', link_of w' id' = if decide (id' = id) then Some l else link_of w id'.

Lemma became_upd (w w' : lm_world P) k l l' sv pf :
  lm_ok w → (k < max_links)%nat → slot (lm_this w) k = Some l → linked_device_id l' = linked_device_id l →
  lm_result w w' (upd k (Some l') (slot (lm_this w))) sv pf → link_became w w' (linked_device_id l) l'.
Proof.
  intros Hok Hk Hsl Hid [Hok' _ Hslot _ _]. split; [done|]. intros id'. apply option_eq. intros x. rewrite link_of_slot by done.
  pose proof Hok as (_ & Ht & _). case_decide as Hd.
  - split.
    + intros (Hx & j & Hj & Hxs). rewrite Hslot in Hxs by done. unfold upd in Hxs. case_decide as Hjk; [done|].
      exfalso. apply Hjk. apply (table_distinct _ _ Ht j k x l); [done|done|done|done|congruence].
    + intros [= <-]. split; [congruence|]. exists k. split; [done|]. rewrite Hslot by done. unfold upd. by rewrite decide_True.
  - rewrite link_of_slot by done. split; intros (Hx & j & Hj & Hxs); (split; [done|]); exists j; (split; [done|]).
    + rewrite Hslot in Hxs by done. unfold upd in Hxs. case_decide as Hjk; [|done]. injection Hxs as <-. congruence.
    + rewrite Hslot by done. unfold upd. rewrite decide_False; [done|]. intros ->. assert (x = l) as -> by congruence. congruence.
Qed.

Lemma became_trans (w1 w2 w3 : lm_world P) id l1 l2 :
  link_became w1 w2 id l1 → link_became w2 w3 id l2 → link_became w1 w3 id l2.
Proof. intros [_ H1] [Hok H2]. split; [done|]. intros id'. rewrite H2, H1. by case_decide. Qed.

(** The two calls that follow every accepted nonce. *)
Definition touched (n : Z) (l : nexus_channel_link_t) : nexus_channel_link_t := with_seconds_since_active 0 (with_nonce n l).

Lemma touch_run (w : lm_world P) id l n :
  lm_ok w → link_of w id = Some l → security_mode l = 0 → is_u32 n →
  ∃ w1 w', link_became w w' id (touched n l) ∧
    nexus_channel_link_manager_set_security_data_auth_nonce id n w = Some (true, w1) ∧
    nexus_channel_link_manager_reset_link_secs_since_active id w1 = Some (true, w').
Proof.
  intros Hok Hl Hm Hn. pose proof Hl as Hl'. apply link_of_slot in Hl' as (Hid & i & Hi & Hsl); [|done].
  destruct (set_nonce_spec id n w Hok Hn) as [(j & x & Hj & Hx & Hxid & Hres)|[_ Hab]]; [|by exfalso; eapply (Hab i l)].
  assert (x = l) as ->.
  { assert (link_of w id = Some x) as Hlx by (apply link_of_slot; [done|]; split; [done|by exists j]). congruence. }
  rewrite Hm in Hres. cbn [Z.eqb] in Hres. destruct Hres as (w1 & Hrun1 & _ & _ & _ & Hres1).
  assert (H1 : link_became w w1 id (with_nonce n l)) by (rewrite <- Hid; by eapply became_upd).
  destruct H1 as [Hok1 H1]. destruct (reset_secs_spec id w1 Hok1) as [(j2 & y & w2 & Hj2 & Hy & Hyid & Hrun2 & _ & _ & _ & Hres2)|[_ Hab]].
  - assert (y = with_nonce n l) as ->.
    { assert (link_of w1 id = Some y) as Hly by (apply link_of_slot; [done|]; split; [done|by exists j2]).
      rewrite H1, decide_True in Hly by done. congruence. }
    exists w1, w2. split; [|done]. eapply became_trans; [by split|]. rewrite <- Hyid at 1. by eapply became_upd.
  - exfalso. assert (link_of w1 id = Some (with_nonce n l)) as Hly by (by rewrite H1, decide_True).
    apply link_of_slot in Hly as (Hyid & k2 & Hk2 & Hsl2); [|done]. by eapply (Hab k2).
Qed.

Lemma touch_spec {B} (w : lm_world P) id l n (k : lm_world P → run B) (Q : B → Prop) :
  lm_ok w → link_of w id = Some l → security_mode l = 0 → is_u32 n →
  (∀ w', link_became w w' id (touched n l) → safe Q (k w')) →
  safe Q ('(_, w) ← on_lm (nexus_channel_link_manager_set_security_data_auth_nonce id n) w;
          '(_, w) ← on_lm (nexus_channel_link_manager_reset_link_secs_since_active id) w; k w).
Proof.
  intros Hok Hl Hm Hn Hk. destruct (touch_run w id l n Hok Hl Hm Hn) as (w1 & w' & Hb & Hrun1 & Hrun2).
  unfold on_lm. rewrite Hrun1. cbn [defined mbind run_bind]. rewrite Hrun2. by apply Hk.
Qed.

Lemma touch_ends {B} (w : lm_world P) id l n (k : lm_world P → run B) (Q : B → Prop) :
  lm_ok w → link_of w id = Some l → security_mode l = 0 → is_u32 n →
  (∀ w', link_became w w' id (touched n l) → ends Q (k w')) →
  ends Q ('(_, w) ← on_lm (nexus_channel_link_manager_set_security_data_auth_nonce id n) w;
          '(_, w) ← on_lm (nexus_channel_link_manager_reset_link_secs_since_active id) w; k w).
Proof.
  intros Hok Hl Hm Hn Hk. destruct (touch_run w id l n Hok Hl Hm Hn) as (w1 & w' & Hb & Hrun1 & Hrun2).
  unfold on_lm. rewrite Hrun1. cbn [defined mbind run_bind]. rewrite Hrun2. by apply Hk.
Qed.

(** ** What authentication does *)

(** Every link is secured in mode 0, the only mode there is. *)
Definition modes_ok (w : lm_world P) : Prop := ∀ id l, link_of w id = Some l → security_mode l = 0.

Record packet_ok (pkt : coap_packet_t) : Prop := mk_packet_ok {
  pk_code : is_u8 (code pkt);
  pk_path : bytes_ok (default [] (uri_path pkt));
  pk_payload : bytes_ok (payload pkt);
  pk_len : 0 ≤ payload_len pkt ≤ Z.of_nat (length (payload pkt))
}.

(** The URI the MAC is computed over: its length is cut to eight bits. *)
Definition mac_uri (pkt : coap_packet_t) : list Z :=
  let path := default [] (uri_path pkt) in take (Z.to_nat (u8 (Z.of_nat (length path)))) path.

(** A packet of an acceptable length verifies under the key of a link. *)
Definition verifies (l : nexus_channel_link_t) (pkt : coap_packet_t) (v : verified) : Prop :=
  0 < payload_len pkt ≤ 98 ∧ nexus_cose_mac0_verify_message g (sm_verify_ctx (security_data l) pkt) = Done (inr v).

(** The nonce in the protected header of a packet. *)
Definition message_nonce (pkt : coap_packet_t) : option Z :=
  match nexus_cose_mac0_verify_deserialize_protected_message g (payload pkt) (payload_len pkt) with
  | Done (inr x) => Some (x_nonce x)
  | _ => None
  end.

Lemma verify_ctx_ok l pkt : link_ok l → packet_ok pkt → payload_len pkt ≤ 98 → ctx_ok (sm_verify_ctx (security_data l) pkt) (mac_uri pkt).
Proof.
  intros Hl [Hc Hp Hb Hlen] H98. destruct Hl. set (path := default [] (uri_path pkt)) in *. pose proof (u8_range (Z.of_nat (length path))) as Hu.
  split; cbn [sm_verify_ctx vc_key vc_aad vc_payload vc_payload_len coap_method coap_uri coap_uri_len]; try done; fold path.
  - split; [|by apply Forall_take]. rewrite slice_in, drop_0; [done|]. wrap_unfold. lia.
  - unfold SIZE_MAX. split; lia.
Qed.

Lemma verifies_safe l pkt :
  link_ok l → packet_ok pkt → 0 < payload_len pkt ≤ 98 →
  safe (λ r, match r with
    | inl _ => True
    | inr v => verifies l pkt v ∧ is_u32 (extracted_nonce v) ∧ message_nonce pkt = Some (extracted_nonce v) ∧
        0 ≤ unsecured_payload v ∧ 0 ≤ unsecured_payload_len v ∧ unsecured_payload v + unsecured_payload_len v ≤ payload_len pkt
    end) (nexus_cose_mac0_verify_message g (sm_verify_ctx (security_data l) pkt)).
Proof.
  intros Hl Hp H98. pose proof (verify_ctx_ok l pkt Hl Hp (proj2 H98)) as Hctx.
  pose proof (deserialize_message_safe g Hg (payload pkt) (payload_len pkt) (pk_payload _ Hp) (pk_len _ Hp) ltac:(unfold SIZE_MAX; lia)) as Hsafe.
  unfold verifies, message_nonce.
  destruct (nexus_cose_mac0_verify_deserialize_protected_message g (payload pkt) (payload_len pkt)) as [[err|x]| |] eqn:Hd; [..|done].
  - unfold nexus_cose_mac0_verify_message. cbn [sm_verify_ctx vc_payload vc_payload_len]. by rewrite Hd.
  - destruct (verify_extracted g Hg _ _ x Hctx Hsafe Hd) as [(r & Hr & _) Hv]. rewrite Hr in Hv |- *. destruct r as [err|v]; [done|].
    rewrite (Hv v eq_refl). destruct Hsafe as (? & ? & ? & ? & ?). cbn [safe extracted_nonce unsecured_payload unsecured_payload_len]. split_and!; lia || done.
  - unfold nexus_cose_mac0_verify_message. cbn [sm_verify_ctx vc_payload vc_payload_len]. by rewrite Hd.
Qed.

(** What a packet that verifies carries. *)
Lemma verifies_tag l pkt v :
  link_ok l → packet_ok pkt → verifies l pkt v →
  is_u32 (extracted_nonce v) ∧ message_nonce pkt = Some (extracted_nonce v) ∧ (length (mac_uri pkt) ≤ 11)%nat ∧
  0 ≤ unsecured_payload v ∧ 0 ≤ unsecured_payload_len v < 255 ∧ unsecured_payload v + unsecured_payload_len v ≤ payload_len pkt ∧
  ∃ x, nexus_cose_mac0_verify_deserialize_protected_message g (payload pkt) (payload_len pkt) = Done (inr x) ∧
    x_nonce x = extracted_nonce v ∧
    x_tag x = cose_tag (sym_key (security_data l)) (extracted_nonce v) (code pkt) (mac_uri pkt)
      (take (Z.to_nat (unsecured_payload_len v)) (drop (Z.to_nat (unsecured_payload v)) (payload pkt))).
Proof.
  intros Hl Hp [H98 Hv]. pose proof (verify_ctx_ok l pkt Hl Hp (proj2 H98)) as Hctx.
  pose proof (deserialize_message_safe g Hg (payload pkt) (payload_len pkt) (pk_payload _ Hp) (pk_len _ Hp) ltac:(unfold SIZE_MAX; lia)) as Hsafe.
  unfold message_nonce. pose proof Hv as Hv'. unfold nexus_cose_mac0_verify_message in Hv'. cbn [sm_verify_ctx vc_payload vc_payload_len] in Hv'.
  destruct (nexus_cose_mac0_verify_deserialize_protected_message g (payload pkt) (payload_len pkt)) as [[err|x]| |] eqn:Hd; try done.
  destruct (verify_extracted g Hg _ _ x Hctx Hsafe Hd) as [(r & Hr & Hiff) Huniq]. rewrite Hv in Hr. injection Hr as <-.
  pose proof (Huniq v Hv) as ->. destruct (proj1 Hiff eq_refl) as (Hu & _ & Htag). destruct Hsafe as (? & ? & ? & ? & _).
  cbn [extracted_nonce unsecured_payload unsecured_payload_len]. split_and!; [done|done|done|lia..|]. by exists x.
Qed.

Inductive auth_outcome (id : nx_id) (pkt : coap_packet_t) (w : lm_world P) :
    nexus_channel_sm_auth_error_t → coap_packet_t → lm_world P → Prop :=
| outcome_rejected err pkt' :
    err ≠ NEXUS_CHANNEL_SM_AUTH_MESSAGE_ERROR_NONE →
    err ≠ NEXUS_CHANNEL_SM_AUTH_MESSAGE_ERROR_VALID_NONCE_SYNC_RECEIVED →
    err ≠ NEXUS_CHANNEL_SM_AUTH_MESSAGE_ERROR_NONCE_APPROACHING_MAX_FORCED_RESET_REQUIRED →
    auth_outcome id pkt w err pkt' w
| outcome_request l v w' :
    link_of w id = Some l → verifies l pkt v → code pkt < CREATED_2_01 →
    u32 (nonce (security_data l) + 1) ≤ extracted_nonce v ≤ UINT32_MAX - 64 →
    link_became w w' id (touched (extracted_nonce v) l) →
    auth_outcome id pkt w NEXUS_CHANNEL_SM_AUTH_MESSAGE_ERROR_NONE (sm_unpacked pkt v) w'
| outcome_response l v w' :
    link_of w id = Some l → verifies l pkt v → CREATED_2_01 ≤ code pkt → code pkt ≠ NOT_ACCEPTABLE_4_06 →
    nonce (security_data l) ≤ extracted_nonce v →
    link_became w w' id (touched (extracted_nonce v) l) →
    auth_outcome id pkt w NEXUS_CHANNEL_SM_AUTH_MESSAGE_ERROR_NONE (sm_unpacked pkt v) w'
| outcome_reset l v w' :
    link_of w id = Some l → verifies l pkt v → code pkt < CREATED_2_01 →
    u32 (nonce (security_data l) + 1) ≤ extracted_nonce v → UINT32_MAX - 64 < extracted_nonce v →
    link_became w w' id (touched 0 l) →
    auth_outcome id pkt w NEXUS_CHANNEL_SM_AUTH_MESSAGE_ERROR_NONCE_APPROACHING_MAX_FORCED_RESET_REQUIRED (sm_unpacked pkt v) w'
| outcome_sync l v w' :
    link_of w id = Some l → verifies l pkt v → code pkt = NOT_ACCEPTABLE_4_06 →
    nonce (security_data l) ≤ extracted_nonce v →
    link_became w w' id (touched (if extracted_nonce v =? UINT32_MAX then 0 else extracted_nonce v) l) →
    auth_outcome id pkt w NEXUS_CHANNEL_SM_AUTH_MESSAGE_ERROR_VALID_NONCE_SYNC_RECEIVED (sm_unpacked pkt v) w'.

Lemma check_nonce_safe id pkt v l (w : lm_world P) :
  lm_ok w → link_of w id = Some l → security_mode l = 0 → is_u32 (extracted_nonce v) → verifies l pkt v →
  safe (λ r, let '(err, w1) := r in
      (err ≠ NEXUS_CHANNEL_SM_AUTH_MESSAGE_ERROR_NONE ∧ auth_outcome id pkt w err (sm_unpacked pkt v) w1) ∨
      (err = NEXUS_CHANNEL_SM_AUTH_MESSAGE_ERROR_NONE ∧ w1 = w ∧
       ∀ w', link_became w w' id (touched (extracted_nonce v) l) →
         auth_outcome id pkt w NEXUS_CHANNEL_SM_AUTH_MESSAGE_ERROR_NONE (sm_unpacked pkt v) w'))
    (sm_check_nonce id (extracted_nonce v) (nonce (security_data l)) (code pkt) w).
Proof.
  intros Hok Hl Hm Hn Hv. unfold sm_check_nonce, NEXUS_CHANNEL_LINK_SECURITY_NONCE_NV_STORAGE_INTERVAL_COUNT.
  assert (Hrej : NEXUS_CHANNEL_SM_AUTH_MESSAGE_ERROR_REQUEST_RECEIVED_WITH_INVALID_NONCE ≠ NEXUS_CHANNEL_SM_AUTH_MESSAGE_ERROR_NONE ∧
    auth_outcome id pkt w NEXUS_CHANNEL_SM_AUTH_MESSAGE_ERROR_REQUEST_RECEIVED_WITH_INVALID_NONCE (sm_unpacked pkt v) w) by (split; [done|by constructor]).
  destruct (Z.ltb_spec (code pkt) CREATED_2_01) as [Hreq|Hresp].
  - destruct (Z.ltb_spec (extracted_nonce v) (u32 (nonce (security_data l) + 1))); [by left|].
    destruct (Z.ltb_spec (UINT32_MAX - 64) (extracted_nonce v)).
    + apply (touch_spec w id l 0); [done..|wrap|]. intros w' Hw'. left. split; [done|]. by eapply outcome_reset.
    + right. split_and!; [done..|]. intros w' Hw'. by eapply outcome_request.
  - apply safe_assert. intros _. destruct (Z.ltb_spec (extracted_nonce v) (nonce (security_data l))); [by left|].
    destruct (Z.eqb_spec (code pkt) NOT_ACCEPTABLE_4_06).
    + cbv zeta. unfold NEXUS_CHANNEL_LINK_SECURITY_RESET_NONCE_SIGNAL_VALUE.
      apply (touch_spec w id l); [done..|destruct (_ =? _); [wrap|done]|]. intros w' Hw'. left. split; [done|]. by eapply outcome_sync.
    + right. split_and!; [done..|]. intros w' Hw'. by eapply outcome_response.
Qed.

(** A message that claims to be secured. *)
Lemma authenticate_secured ms rs endpoint id pkt (w : lm_world P) :
  lm_ok w → modes_ok w → packet_ok pkt → nexus_oc_wrapper_oc_endpoint_to_nx_id endpoint = Some id →
  _nexus_channel_sm_message_headers_secured_mode0 pkt = true →
  safe (λ r, let '(err, pkt', w') := r in lm_ok w' ∧ modes_ok w' ∧ auth_outcome id pkt w err pkt' w')
    (nexus_channel_authenticate_message g ms rs endpoint pkt w).
Proof.
  intros Hok Hm Hp Hid Hsec. unfold nexus_channel_authenticate_message. rewrite Hsec, Hid. cbn [defined mbind run_bind].
  assert (Hrej : ∀ err pkt', err ≠ NEXUS_CHANNEL_SM_AUTH_MESSAGE_ERROR_NONE →
    err ≠ NEXUS_CHANNEL_SM_AUTH_MESSAGE_ERROR_VALID_NONCE_SYNC_RECEIVED →
    err ≠ NEXUS_CHANNEL_SM_AUTH_MESSAGE_ERROR_NONCE_APPROACHING_MAX_FORCED_RESET_REQUIRED →
    lm_ok w ∧ modes_ok w ∧ auth_outcome id pkt w err pkt' w) by (intros; split_and!; [done..|by constructor]).
  destruct (Z.ltb_spec NEXUS_CHANNEL_MAX_CBOR_PAYLOAD_SIZE (payload_len pkt)) as [|H98]; [by apply Hrej|].
  destruct (Z.eqb_spec (payload_len pkt) 0); [by apply Hrej|]. change NEXUS_CHANNEL_MAX_CBOR_PAYLOAD_SIZE with 98 in H98.
  assert (Hplen : 0 < payload_len pkt ≤ 98) by (pose proof (pk_len _ Hp); lia).
  unfold nexus_channel_link_manager_security_data_from_nxid. rewrite link_of_answer by done. cbn [mbind option_bind defined run_bind].
  destruct (link_of w id) as [l|] eqn:Hl; cbn [option_map]; [|by apply Hrej]. pose proof (link_of_id w id l Hok Hl) as [Hlid Hlok].
  eapply safe_bind; [by apply (verifies_safe l pkt)|]. intros [err|v]; [intros _; destruct (bool_decide _); by apply Hrej|].
  intros (Hv & Hn & Hmn & Hoff & Hlen & Hfit). cbv zeta. change (code (sm_unpacked pkt v)) with (code pkt).
  eapply safe_bind; [apply (check_nonce_safe id pkt v l w); [done|done|by eapply Hm|done|done]|].
  assert (Hmodes : ∀ w' n, link_became w w' id (touched n l) → modes_ok w').
  { intros w' n0 [_ Hb] id' l'. rewrite Hb. case_decide; [intros [= <-]; exact (Hm id l Hl)|by apply Hm]. }
  assert (Hout : ∀ err w', auth_outcome id pkt w err (sm_unpacked pkt v) w' → lm_ok w' ∧ modes_ok w').
  { intros err w' Ho. inversion Ho as [| l0 v0 ? Hl0 ? ? ? Hb | l0 v0 ? Hl0 ? ? ? ? Hb | l0 v0 ? Hl0 ? ? ? ? Hb | l0 v0 ? Hl0 ? ? ? Hb]; subst; [done|..];
      (assert (l0 = l) as -> by congruence); (split; [apply Hb|by eapply Hmodes]). }
  intros [err w1] [[Herr Ho]|(-> & -> & Ho)].
  - rewrite bool_decide_true by done. destruct (Hout _ _ Ho). by split_and!.
  - rewrite bool_decide_false by tauto. apply (touch_spec w id l); [done|done|by eapply Hm|done|].
    intros w' Hw'. apply safe_assert. intros _. specialize (Ho w' Hw'). destruct (Hout _ _ Ho). by split_and!.
Qed.

(** ** Messages that verify *)

Lemma verifies_touched n l pkt v : verifies l pkt v ↔ verifies (touched n l) pkt v.
Proof. done. Qed.

(** With the link and the verified message at hand, authentication is the check
    of the nonce and the two calls. *)
Lemma authenticate_verified ms rs endpoint id pkt (w : lm_world P) l v (Q : nexus_channel_sm_auth_error_t * coap_packet_t * lm_world P → Prop) :
  lm_ok w → packet_ok pkt → nexus_oc_wrapper_oc_endpoint_to_nx_id endpoint = Some id →
  _nexus_channel_sm_message_headers_secured_mode0 pkt = true → link_of w id = Some l → security_mode l = 0 → verifies l pkt v →
  ends (λ r, let '(err, w1) := r in
      if decide (err = NEXUS_CHANNEL_SM_AUTH_MESSAGE_ERROR_NONE)
      then w1 = w ∧ ∀ w', link_became w w' id (touched (extracted_nonce v) l) → Q (err, sm_unpacked pkt v, w')
      else Q (err, sm_unpacked pkt v, w1)) (sm_check_nonce id (extracted_nonce v) (nonce (security_data l)) (code pkt) w) →
  ends Q (nexus_channel_authenticate_message g ms rs endpoint pkt w).
Proof.
  intros Hok Hp Hid Hsec Hl Hm Hv Hcheck. unfold nexus_channel_authenticate_message. rewrite Hsec, Hid. cbn [defined mbind run_bind].
  pose proof (link_of_id w id l Hok Hl) as [_ Hlok]. destruct (verifies_tag l pkt v Hlok Hp Hv) as (Hn & _ & _ & Hoff & Hlen & Hfit & _).
  destruct Hv as [H98 Hv]. change NEXUS_CHANNEL_MAX_CBOR_PAYLOAD_SIZE with 98. rewrite (proj2 (Z.ltb_ge _ _)), (proj2 (Z.eqb_neq _ _)) by lia.
  unfold nexus_channel_link_manager_security_data_from_nxid. rewrite link_of_answer, Hl by done. cbn [mbind option_bind defined run_bind option_map].
  rewrite Hv. cbn [mbind run_bind]. cbv zeta. change (code (sm_unpacked pkt v)) with (code pkt).
  eapply ends_bind; [exact Hcheck|]. intros [err w1]. case_decide as Herr.
  - intros [-> Hk]. rewrite bool_decide_false by tauto. apply (touch_ends w id l); [done..|]. intros w' Hw'.
    cbn [payload_len sm_unpacked]. rewrite u32_small by (unfold is_u32; lia). rewrite (proj2 (Z.leb_le _ _)) by lia.
    cbn [nexus_assert cbor_assert mbind run_bind]. apply ends_ret. by apply Hk.
  - intros HQ. rewrite bool_decide_true by done. by apply ends_ret.
Qed.
End SmSpec.
