(* ===== verification/ChannelSmRun.v ===== *)
(** * The security manager: the properties

    Which requests reach a resource, what an accepted message proves, when a
    message can be accepted twice, and that client and server agree. *)




From S2P Require Import Prelude Crc Siphash Check NvBlock Product DesktopProduct Nv Channel ChannelEndpoint ChannelLm ChannelLmSpec.
From S2P Require Import ChannelLmTable ChannelLmCreate Cbor CborSafe CborEncoder CborParse ChannelCose ChannelCoseSpec ChannelCoseRun.
From S2P Require Import ChannelSm ChannelSmSpec.
Local Open Scope Z_scope.
Local Open Scope c_scope.

(** ** Registered methods *)

(** Registering methods one after the other, from the initialised manager. *)
Definition registered (regs : list (oc_resource_t * Z)) : sec_methods :=
  fold_left (λ ms '(r, m), (nexus_channel_sm_nexus_resource_method_new (Some r) m ms).2) regs nexus_channel_sm_init.

Lemma strncmp_eq_refl a : strncmp_eq a a (length a) = true.
Proof. induction a as [|x a IH]; [done|]. cbn. by rewrite Z.eqb_refl. Qed.

Lemma strncmp_eq_true a b : strncmp_eq a b (length a) = true → length b = length a → a = b.
Proof.
  induction a as [|x a IH] in b |- *; intros Hs Hl; destruct b as [|y b]; try done. cbn in Hs, Hl.
  apply andb_true_iff in Hs as [->%Z.eqb_eq Hs]. f_equal. apply IH; [done|lia].
Qed.

Lemma registered_all regs :
  (length regs ≤ OC_MAX_APP_RESOURCES * 2)%nat → registered regs = (λ '(r, m), mk_secured_method (Some r) m) <$> regs.
Proof.
  unfold registered. induction regs as [|[r m] regs IH] using rev_ind; intros Hl; [done|].
  rewrite length_app in Hl. cbn [length] in Hl. rewrite fold_left_app, IH by lia. cbn [fold_left]. rewrite fmap_app.
  unfold nexus_channel_sm_nexus_resource_method_new. by rewrite length_fmap, (proj2 (Nat.ltb_lt _ _)) by lia.
Qed.

(** URIs of resources start with a slash, and packets carry them without it. *)
Lemma resource_found resources r path :
  r ∈ resources → Forall (λ r, head (res_uri r) = Some 0x2f) resources → res_uri r = 0x2f :: path →
  res_device r = NEXUS_CHANNEL_NEXUS_DEVICE_ID → head path ≠ Some 0x2f →
  ∃ r', oc_ri_get_app_resource_by_uri resources path NEXUS_CHANNEL_NEXUS_DEVICE_ID = Some r' ∧ res_uri r' = 0x2f :: path.
Proof.
  intros Hin Hall Huri Hdev Hhead. unfold oc_ri_get_app_resource_by_uri.
  assert (Hskip : match path with x :: _ => if x =? 0x2f then 0%nat else 1%nat | [] => 1%nat end = 1%nat).
  { destruct path as [|x path]; [done|]. destruct (Z.eqb_spec x 0x2f); [by subst|done]. }
  rewrite Hskip. destruct (find _ resources) as [r'|] eqn:Hf.
  - exists r'. split; [done|]. apply find_some in Hf as [Hin' Ht]. rewrite !andb_true_iff in Ht. destruct Ht as [[Hl%Nat.eqb_eq Hs] _].
    rewrite Forall_forall in Hall. apply list_elem_of_In, Hall in Hin'. destruct (res_uri r') as [|x path'] eqn:Hr'; [done|].
    injection Hin' as ->. cbn [length] in Hl. f_equal. symmetry. apply strncmp_eq_true; [done|lia].
  - exfalso. apply list_elem_of_In in Hin. eapply find_none in Hf; [|exact Hin]. cbn beta in Hf. rewrite Huri, Hdev in Hf.
    cbn [length drop skipn] in Hf. rewrite strncmp_eq_refl, (proj2 (Nat.eqb_eq _ _)) in Hf by lia. done.
Qed.

Section SmRun.
Context {P : Type} `{HP : ProductLaws P} `{!ReliableNv P} `{!ChannelProduct P} `{!ChannelProductLaws P}
  `{HC : ChannelConfigOk} (g : garbage) (Hg : garbage_ok g).

(** a request without security for a method that was registered as secured
    is answered with 4.03 and changes nothing, whoever sends it. *)
Theorem sm_unsecured_rejected regs resources r m path endpoint pkt (w : lm_world P) :
  (length regs ≤ OC_MAX_APP_RESOURCES * 2)%nat → (r, m) ∈ regs → r ∈ resources →
  Forall (λ r, head (res_uri r) = Some 0x2f) resources → res_uri r = 0x2f :: path → res_device r = NEXUS_CHANNEL_NEXUS_DEVICE_ID →
  path ≠ [] → head path ≠ Some 0x2f → uri_path pkt = Some path → code pkt = m →
  content_format pkt ≠ Some APPLICATION_COSE_MAC0 → payload_moved pkt = false →
  _coap_unpack_possibly_secured_payload g (registered regs) resources endpoint pkt w = Done (FORBIDDEN_4_03, false, pkt, w).
Proof.
  intros Hl Hreg Hin Hall Huri Hdev Hne Hhead Hpath Hcode Hformat Hmoved.
  unfold _coap_unpack_possibly_secured_payload, nexus_channel_authenticate_message, _nexus_channel_sm_message_headers_secured_mode0.
  rewrite (proj2 (Z.eqb_neq _ _)) by (destruct (content_format pkt); cbn; [congruence|done]).
  assert (Hsec : nexus_channel_sm_requested_method_is_secured (registered regs) resources pkt = true).
  { unfold nexus_channel_sm_requested_method_is_secured. rewrite Hpath. destruct path as [|x path']; [done|].
    destruct (resource_found resources r (x :: path')) as (r' & -> & Hr'); try done.
    unfold nexus_channel_sm_resource_method_is_secured. apply existsb_exists. exists (mk_secured_method (Some r) m).
    split; [rewrite registered_all by done; apply list_elem_of_In, list_elem_of_fmap; by exists (r, m)|].
    cbn [resource method]. by rewrite Hr', Huri, strncmp_eq_refl, Hcode, Z.eqb_refl. }
  rewrite Hsec. cbn [mbind run_bind]. rewrite Hmoved. reflexivity.
Qed.

(** authentication of any packet returns, unless an assert of the parser
    fails, keeps the table of links, and has one of the outcomes of
    [auth_outcome]: only a packet that verifies under the key of the link to
    its sender moves a nonce, and only that link's. *)
Theorem sm_authenticate_outcome ms resources endpoint id pkt (w : lm_world P) :
  lm_ok w → modes_ok w → packet_ok pkt → nexus_oc_wrapper_oc_endpoint_to_nx_id endpoint = Some id →
  safe (λ r, let '(err, pkt', w') := r in
      lm_ok w' ∧ modes_ok w' ∧
      if _nexus_channel_sm_message_headers_secured_mode0 pkt then auth_outcome g id pkt w err pkt' w'
      else w' = w ∧ pkt' = pkt ∧
        err = (if nexus_channel_sm_requested_method_is_secured ms resources pkt
               then NEXUS_CHANNEL_SM_AUTH_MESSAGE_ERROR_RESOURCE_REQUIRES_SECURED_REQUEST
               else NEXUS_CHANNEL_SM_AUTH_MESSAGE_ERROR_NONE))
    (nexus_channel_authenticate_message g ms resources endpoint pkt w).
Proof.
  intros Hok Hm Hp Hid. destruct (_nexus_channel_sm_message_headers_secured_mode0 pkt) eqn:Hsec.
  - by apply authenticate_secured.
  - unfold nexus_channel_authenticate_message. rewrite Hsec. by destruct (nexus_channel_sm_requested_method_is_secured ms resources pkt).
Qed.

(** a secured request that is accepted was made with the key of the link to
    its sender, for this method and URI, under a nonce above the link's, and
    carries the payload that is handed on; the link has that nonce from then on. *)
Theorem sm_accepted_request ms resources endpoint id pkt pkt' (w w' : lm_world P) :
  lm_ok w → modes_ok w → packet_ok pkt → nexus_oc_wrapper_oc_endpoint_to_nx_id endpoint = Some id →
  _nexus_channel_sm_message_headers_secured_mode0 pkt = true → code pkt < CREATED_2_01 →
  nexus_channel_authenticate_message g ms resources endpoint pkt w = Done (NEXUS_CHANNEL_SM_AUTH_MESSAGE_ERROR_NONE, pkt', w') →
  ∃ l n x,
    link_of w id = Some l ∧ link_became w w' id (touched n l) ∧ message_nonce g pkt = Some n ∧
    (nonce (security_data l) < n ∨ nonce (security_data l) = UINT32_MAX) ∧ n ≤ UINT32_MAX - 64 ∧
    (length (mac_uri pkt) ≤ 11)%nat ∧ payload_len pkt' ≤ payload_len pkt ∧
    nexus_cose_mac0_verify_deserialize_protected_message g (payload pkt) (payload_len pkt) = Done (inr x) ∧
    x_tag x = cose_tag (sym_key (security_data l)) n (code pkt) (mac_uri pkt) (take (Z.to_nat (payload_len pkt')) (payload pkt')).
Proof.
  intros Hok Hm Hp Hid Hsec Hcode Hrun. pose proof (authenticate_secured g Hg ms resources endpoint id pkt w Hok Hm Hp Hid Hsec) as Hsafe.
  rewrite Hrun in Hsafe. destruct Hsafe as (_ & _ & Ho). inversion Ho as [|l v ? Hl Hv Hc Hn Hb|l v ? Hl Hv Hc| |]; subst; [done| |lia].
  pose proof (link_of_id w id l Hok Hl) as [_ Hlok]. destruct (verifies_tag g Hg l pkt v Hlok Hp Hv) as (Hnu & Hmn & Hu & Ho1 & Ho2 & Ho3 & x & Hd & Hxn & Hxt).
  exists l, (extracted_nonce v), x. cbn [sm_unpacked payload_len payload]. rewrite u32_small by (unfold is_u32; lia).
  pose proof (ok_nonce _ Hlok) as Hln. split_and!; try done; [|lia..].
  unfold is_u32, u32, UINT32_MAX in *. destruct (Z.eq_dec (nonce (security_data l)) 4294967295); [by right|]. left. rewrite Z.mod_small in Hn; lia.
Qed.

(** ** Replay *)

(** The sender and nonce of a secured request, if it was accepted. *)
Definition accepted_request (id : nx_id) (pkt : coap_packet_t) (err : nexus_channel_sm_auth_error_t) : list (nx_id * Z) :=
  if _nexus_channel_sm_message_headers_secured_mode0 pkt && (code pkt <? CREATED_2_01) &&
     bool_decide (err = NEXUS_CHANNEL_SM_AUTH_MESSAGE_ERROR_NONE)
  then match message_nonce g pkt with Some n => [(id, n)] | None => [] end else [].

(** Messages one after the other, without a reset of the nonce: no request at
    the end of the range of nonces, no message under the largest nonce. *)
Inductive sm_run (ms : sec_methods) (resources : list oc_resource_t) : lm_world P → list (nx_id * Z) → lm_world P → Prop :=
| sm_run_nil w : sm_run ms resources w [] w
| sm_run_message w endpoint id pkt err pkt' w1 acc w2 :
    packet_ok pkt → nexus_oc_wrapper_oc_endpoint_to_nx_id endpoint = Some id →
    nexus_channel_authenticate_message g ms resources endpoint pkt w = Done (err, pkt', w1) →
    err ≠ NEXUS_CHANNEL_SM_AUTH_MESSAGE_ERROR_NONCE_APPROACHING_MAX_FORCED_RESET_REQUIRED →
    message_nonce g pkt ≠ Some UINT32_MAX →
    sm_run ms resources w1 acc w2 →
    sm_run ms resources w (accepted_request id pkt err ++ acc) w2.

Definition nonces_low (w : lm_world P) : Prop := ∀ id l, link_of w id = Some l → nonce (security_data l) < UINT32_MAX.

(** The links stay, and their nonces grow. *)
Definition nonces_grow (w w' : lm_world P) : Prop :=
  ∀ id, match link_of w id, link_of w' id with
        | Some l, Some l' => nonce (security_data l) ≤ nonce (security_data l')
        | None, None => True
        | _, _ => False
        end.

Lemma became_grows (w w' : lm_world P) id l n :
  link_of w id = Some l → link_became w w' id (touched n l) → nonces_low w → nonce (security_data l) ≤ n < UINT32_MAX →
  nonces_grow w w' ∧ nonces_low w'.
Proof.
  intros Hl [_ Hb] Hlow Hn. split.
  - intros id'. rewrite Hb. case_decide as Hid; [subst id'; rewrite Hl; cbn; lia|]. destruct (link_of w id'); [lia|done].
  - intros id' l'. rewrite Hb. case_decide; [intros [= <-]; cbn; lia|apply Hlow].
Qed.

Lemma sm_step ms resources endpoint id pkt err pkt' (w w1 : lm_world P) :
  lm_ok w → modes_ok w → nonces_low w → packet_ok pkt → nexus_oc_wrapper_oc_endpoint_to_nx_id endpoint = Some id →
  nexus_channel_authenticate_message g ms resources endpoint pkt w = Done (err, pkt', w1) →
  err ≠ NEXUS_CHANNEL_SM_AUTH_MESSAGE_ERROR_NONCE_APPROACHING_MAX_FORCED_RESET_REQUIRED → message_nonce g pkt ≠ Some UINT32_MAX →
  lm_ok w1 ∧ modes_ok w1 ∧ nonces_low w1 ∧ nonces_grow w w1 ∧
  (accepted_request id pkt err = [] ∨ ∃ l n, accepted_request id pkt err = [(id, n)] ∧ link_of w id = Some l ∧
     nonce (security_data l) < n ∧ link_of w1 id = Some (touched n l)).
Proof.
  intros Hok Hm Hlow Hp Hid Hrun Hreset Hmax. unfold accepted_request.
  assert (Hsame : w1 = w → nonces_grow w w1) by (intros -> id'; destruct (link_of w id'); [lia|done]).
  destruct (_nexus_channel_sm_message_headers_secured_mode0 pkt) eqn:Hsec; cbn [andb].
  2: { unfold nexus_channel_authenticate_message in Hrun. rewrite Hsec in Hrun.
       destruct (nexus_channel_sm_requested_method_is_secured ms resources pkt); injection Hrun as <- <- <-; split_and!; auto. }
  pose proof (authenticate_secured g Hg ms resources endpoint id pkt w Hok Hm Hp Hid Hsec) as Hsafe. rewrite Hrun in Hsafe.
  destruct Hsafe as (Hok1 & Hm1 & Ho). split; [done|]. split; [done|].
  assert (Hgo : ∀ l v, link_of w id = Some l → verifies g l pkt v → is_u32 (extracted_nonce v) ∧ extracted_nonce v ≠ UINT32_MAX ∧
    message_nonce g pkt = Some (extracted_nonce v) ∧ link_ok l).
  { intros l v Hl Hv. pose proof (link_of_id w id l Hok Hl) as [_ Hlok]. destruct (verifies_tag g Hg l pkt v Hlok Hp Hv) as (Hnu & Hmn & _).
    split_and!; [done|congruence|done|done]. }
  inversion Ho as [e p Hne Hne2|l v ? Hl Hv Hc Hn Hb|l v ? Hl Hv Hc Hc' Hn Hb| |l v ? Hl Hv Hc Hn Hb]; subst; [..|done|].
  - split; [done|]. split; [auto|]. left. by rewrite bool_decide_false, andb_false_r by done.
  - destruct (Hgo l v Hl Hv) as (Hnu & Hnm & Hmn & Hlok). pose proof (ok_nonce _ Hlok) as Hln. specialize (Hlow id l Hl) as Hll.
    assert (Hlt : nonce (security_data l) < extracted_nonce v) by (unfold is_u32, u32, UINT32_MAX in *; rewrite Z.mod_small in Hn; lia).
    destruct (became_grows w w1 id l (extracted_nonce v) Hl Hb Hlow) as [Hg1 Hl1]; [unfold UINT32_MAX in *; lia|].
    split; [done|]. split; [done|]. right. exists l, (extracted_nonce v). rewrite (proj2 (Z.ltb_lt _ _)), bool_decide_true, Hmn by done.
    destruct Hb as [_ Hb]. by rewrite Hb, decide_True.
  - destruct (Hgo l v Hl Hv) as (Hnu & Hnm & Hmn & Hlok).
    destruct (became_grows w w1 id l (extracted_nonce v) Hl Hb Hlow) as [Hg1 Hl1]; [unfold is_u32, UINT32_MAX in *; lia|].
    split; [done|]. split; [done|]. left. by rewrite (proj2 (Z.ltb_ge _ _)) by done.
  - destruct (Hgo l v Hl Hv) as (Hnu & Hnm & Hmn & Hlok). rewrite (proj2 (Z.eqb_neq _ _) Hnm) in Hb.
    destruct (became_grows w w1 id l (extracted_nonce v) Hl Hb Hlow) as [Hg1 Hl1]; [unfold is_u32, UINT32_MAX in *; lia|].
    split; [done|]. split; [done|]. left. by rewrite andb_false_r.
Qed.

(** C5: over any sequence of messages without a reset of the nonce, no two
    requests of one device are accepted under the same nonce; at the end the
    link has a nonce that none of the accepted ones exceeds, so that none is
    accepted again. *)
Theorem sm_no_replay ms resources (w w' : lm_world P) acc :
  lm_ok w → modes_ok w → nonces_low w → sm_run ms resources w acc w' →
  NoDup acc ∧ lm_ok w' ∧ modes_ok w' ∧ nonces_low w' ∧ nonces_grow w w' ∧
  ∀ id n, (id, n) ∈ acc → ∃ l l', link_of w id = Some l ∧ link_of w' id = Some l' ∧ nonce (security_data l) < n ≤ nonce (security_data l').
Proof.
  intros Hok Hm Hlow Hrun.
  induction Hrun as [w|w endpoint id pkt err pkt' w1 acc w2 Hp Hid Hstep Hreset Hmax Hrun IH].
  { split; [constructor|]. split_and!; try done; [intros id; destruct (link_of w id); [lia|done]|]. intros id n Hin. by apply elem_of_nil in Hin. }
  destruct (sm_step ms resources endpoint id pkt err pkt' w w1 Hok Hm Hlow Hp Hid Hstep Hreset Hmax) as (Hok1 & Hm1 & Hlow1 & Hgrow & Hacc).
  destruct (IH Hok1 Hm1 Hlow1) as (Hnd & Hok2 & Hm2 & Hlow2 & Hgrow2 & Hall).
  split; [|split_and!; [done..| |]].
  - destruct Hacc as [->|(l & n & -> & _ & _ & Hl1)]; [done|]. cbn [app]. constructor; [|done]. intros Hin.
    destruct (Hall id n Hin) as (l1 & l2 & Hl1' & _ & Hlt & _). rewrite Hl1 in Hl1'. injection Hl1' as <-. cbn in Hlt. lia.
  - intros id'. specialize (Hgrow id'). specialize (Hgrow2 id').
    destruct (link_of w id'), (link_of w1 id'), (link_of w2 id'); lia || done.
  - intros id' n [Hin|Hin]%elem_of_app.
    + destruct Hacc as [Hacc|(l & n' & Hacc & Hl & Hlt & Hl1)]; rewrite Hacc in Hin; [by apply elem_of_nil in Hin|].
      apply list_elem_of_singleton in Hin as [= -> ->]. exists l. pose proof (Hgrow2 id) as Hg2. rewrite Hl1 in Hg2.
      destruct (link_of w2 id) as [l'|]; [|done]. exists l'. cbn in Hg2. split_and!; lia || done.
    + destruct (Hall id' n Hin) as (l1 & l2 & Hl1 & Hl2 & Hlt & Hle). specialize (Hgrow id'). rewrite Hl1 in Hgrow.
      destruct (link_of w id') as [l|]; [|done]. exists l, l2. split_and!; lia || done.
Qed.

(** ** Requests, answers and resets *)

Lemma accept_request ms rs endpoint id pkt (w : lm_world P) l v :
  lm_ok w → packet_ok pkt → nexus_oc_wrapper_oc_endpoint_to_nx_id endpoint = Some id →
  _nexus_channel_sm_message_headers_secured_mode0 pkt = true → link_of w id = Some l → security_mode l = 0 → verifies g l pkt v →
  code pkt < CREATED_2_01 → nonce (security_data l) < extracted_nonce v →
  ends (λ r, let '(err, pkt', w') := r in
      pkt' = sm_unpacked pkt v ∧
      if extracted_nonce v <=? UINT32_MAX - 64
      then err = NEXUS_CHANNEL_SM_AUTH_MESSAGE_ERROR_NONE ∧ link_became w w' id (touched (extracted_nonce v) l)
      else err = NEXUS_CHANNEL_SM_AUTH_MESSAGE_ERROR_NONCE_APPROACHING_MAX_FORCED_RESET_REQUIRED ∧ link_became w w' id (touched 0 l))
    (nexus_channel_authenticate_message g ms rs endpoint pkt w).
Proof.
  intros Hok Hp Hid Hsec Hl Hm Hv Hc Hn. eapply authenticate_verified; [done..|].
  pose proof (link_of_id w id l Hok Hl) as [_ Hlok]. pose proof (ok_nonce _ Hlok) as Hln.
  destruct (verifies_tag g Hg l pkt v Hlok Hp Hv) as (Hnu & _).
  unfold sm_check_nonce, NEXUS_CHANNEL_LINK_SECURITY_NONCE_NV_STORAGE_INTERVAL_COUNT. rewrite (proj2 (Z.ltb_lt _ _) Hc).
  rewrite u32_small by (unfold is_u32 in *; lia). rewrite (proj2 (Z.ltb_ge (extracted_nonce v) _)) by lia.
  destruct (Z.ltb_spec (UINT32_MAX - 64) (extracted_nonce v)).
  - apply (touch_ends w id l 0); [done..|wrap|]. intros w' Hw'. apply ends_ret. rewrite decide_False by done.
    rewrite (proj2 (Z.leb_gt _ _)) by lia. by split_and!.
  - apply ends_ret. rewrite decide_True by done. split; [done|]. intros w' Hw'. rewrite (proj2 (Z.leb_le _ _)) by lia. by split_and!.
Qed.

(** C37: a request that was accepted is accepted once more after a message that
    forces a reset of the nonce, and that message can itself be repeated. *)
Theorem sm_reset_replay ms rs endpoint id a b va vb (w : lm_world P) l :
  lm_ok w → packet_ok a → packet_ok b → nexus_oc_wrapper_oc_endpoint_to_nx_id endpoint = Some id →
  _nexus_channel_sm_message_headers_secured_mode0 a = true → _nexus_channel_sm_message_headers_secured_mode0 b = true →
  code a < CREATED_2_01 → code b < CREATED_2_01 →
  link_of w id = Some l → security_mode l = 0 → verifies g l a va → verifies g l b vb →
  nonce (security_data l) < extracted_nonce va ≤ UINT32_MAX - 64 → UINT32_MAX - 64 < extracted_nonce vb →
  ∃ w1 w2 w3,
    nexus_channel_authenticate_message g ms rs endpoint a w = Done (NEXUS_CHANNEL_SM_AUTH_MESSAGE_ERROR_NONE, sm_unpacked a va, w1) ∧
    nexus_channel_authenticate_message g ms rs endpoint b w1 =
      Done (NEXUS_CHANNEL_SM_AUTH_MESSAGE_ERROR_NONCE_APPROACHING_MAX_FORCED_RESET_REQUIRED, sm_unpacked b vb, w2) ∧
    nexus_channel_authenticate_message g ms rs endpoint a w2 = Done (NEXUS_CHANNEL_SM_AUTH_MESSAGE_ERROR_NONE, sm_unpacked a va, w3) ∧
    link_of w3 id = link_of w1 id.
Proof.
  intros Hok Hpa Hpb Hid Hsa Hsb Hca Hcb Hl Hm Hva Hvb Hna Hnb. pose proof (link_of_id w id l Hok Hl) as [_ Hlok]. pose proof (ok_nonce _ Hlok) as Hln.
  destruct (accept_request ms rs endpoint id a w l va) as ([[err1 p1] w1] & Hr1 & -> & H1); try done; [lia|].
  rewrite (proj2 (Z.leb_le _ _)) in H1 by lia. destruct H1 as [-> [Hok1 Hb1]].
  assert (Hl1 : link_of w1 id = Some (touched (extracted_nonce va) l)) by (by rewrite Hb1, decide_True).
  destruct (accept_request ms rs endpoint id b w1 _ vb Hok1 Hpb Hid Hsb Hl1) as ([[err2 p2] w2] & Hr2 & -> & H2); try done; [cbn; lia|].
  rewrite (proj2 (Z.leb_gt _ _)) in H2 by lia. destruct H2 as [-> [Hok2 Hb2]].
  assert (Hl2 : link_of w2 id = Some (touched 0 (touched (extracted_nonce va) l))) by (by rewrite Hb2, decide_True).
  destruct (accept_request ms rs endpoint id a w2 _ va Hok2 Hpa Hid Hsa Hl2) as ([[err3 p3] w3] & Hr3 & -> & H3); try done.
  { cbn. unfold is_u32 in Hln. lia. }
  rewrite (proj2 (Z.leb_le _ _)) in H3 by lia. destruct H3 as [-> [Hok3 Hb3]].
  exists w1, w2, w3. split_and!; try done. by rewrite Hb3, decide_True, Hl1.
Qed.
End SmRun.
