(* ===== verification/ChannelSmAgree.v ===== *)
(** * The security manager: a client and a server that share a link

    What a client sends is accepted, and a client that has fallen behind is
    brought back by the nonce sync of the server. *)




From S2P Require Import Prelude Crc Siphash Check NvBlock Product DesktopProduct Nv Channel ChannelEndpoint ChannelLm ChannelLmSpec.
From S2P Require Import ChannelLmTable ChannelLmCreate Cbor CborSafe CborEncoder CborParse ChannelCose ChannelCoseSpec ChannelCoseRun.
From S2P Require Import ChannelSm ChannelSmSpec ChannelSmRun.
Local Open Scope Z_scope.
Local Open Scope c_scope.

Section SmAgree.
Context {P : Type} `{HP : ProductLaws P} `{!ReliableNv P} `{!ChannelProduct P} `{!ChannelProductLaws P}
  `{HC : ChannelConfigOk} (gc gs : garbage) (Hgc : garbage_ok gc) (Hgs : garbage_ok gs).

(** The size of a message, whose tag has 8 bytes. *)
Definition message_size (nonce len : Z) : Z := 14 + head_size nonce + head_size len + len.

Lemma repack_spec g mp uri payload buffer garbage_size :
  garbage_ok g → params_ok mp uri payload → (length uri ≤ 11)%nat → message_size (nonce_to_protect mp) (mp_payload_len mp) ≤ 98 →
  length buffer = 98%nat → bytes_ok buffer →
  let bytes := cose_message (nonce_to_protect mp) payload (cose_tag (mp_key mp) (nonce_to_protect mp) (coap_method (mp_aad mp)) uri payload) in
  Z.of_nat (length bytes) = message_size (nonce_to_protect mp) (mp_payload_len mp) ∧
  ∃ out, nexus_oc_wrapper_repack_buffer_secured g buffer NEXUS_CHANNEL_MAX_CBOR_PAYLOAD_SIZE garbage_size mp =
      Done (out, Z.of_nat (length bytes)) ∧
    take (length bytes) out = bytes ∧ bytes_ok out ∧ length out = 98%nat.
Proof.
  intros Hg Hok Hu Hsize Hbuf Hbb bytes. pose proof (slice_length _ _ _ _ (proj1 (po_payload _ _ _ Hok))) as Hpl.
  pose proof (po_payload_len _ _ _ Hok) as Hpu. assert (Hplz : mp_payload_len mp = Z.of_nat (length payload)) by (unfold is_u64 in Hpu; lia).
  assert (Hlen : Z.of_nat (length bytes) = message_size (nonce_to_protect mp) (mp_payload_len mp)).
  { unfold bytes, message_size. rewrite cose_message_length, byte_string_length, Hplz by (apply le_bytes_length || apply Hok). lia. }
  split; [done|]. unfold nexus_oc_wrapper_repack_buffer_secured. change NEXUS_CHANNEL_MAX_CBOR_PAYLOAD_SIZE with 98. cbn [Z.ltb Z.compare Pos.compare Pos.compare_cont].
  destruct (sign_encode_message_spec g Hg mp uri payload buffer 98 garbage_size Hok) as ([[err out] n] & -> & Hiff & Hres);
    [lia|done|done|]. fold bytes in Hiff, Hres.
  assert (Herr : err = NEXUS_COSE_ERROR_NONE) by (apply Hiff; change NEXUS_COSE_MAC0_MAX_ENCODED_CBOR_OBJECT_SIZE with 98; split_and!; lia).
  destruct (Hres Herr) as (-> & Htake & Hlo & Hbo). exists out. cbn [mbind run_bind]. rewrite bool_decide_true by done.
  split; [done|]. split; [done|]. split; [done|]. lia.
Qed.

(** A packet with a message for a method and URI. *)
Definition secured_packet (meth : Z) (path : option (list Z)) (data : list Z) (len : Z) : coap_packet_t :=
  mk_coap_packet meth path (Some APPLICATION_COSE_MAC0) data len false.

Lemma mac_uri_short meth path data len : (length (default [] path) ≤ 11)%nat → mac_uri (secured_packet meth path data len) = default [] path.
Proof. intros Hu. unfold mac_uri, secured_packet. cbn [uri_path]. rewrite u8_small by (unfold is_u8; lia). by rewrite Nat2Z.id, take_ge by lia. Qed.

(** Whatever was packed under the key of a link verifies under it. *)
Lemma packed_verifies g mp path payload data l :
  let uri := default [] path in
  let bytes := cose_message (nonce_to_protect mp) payload (cose_tag (mp_key mp) (nonce_to_protect mp) (coap_method (mp_aad mp)) uri payload) in
  garbage_ok g → params_ok mp uri payload → mp_aad mp = mk_aad (coap_method (mp_aad mp)) uri (Z.of_nat (length uri)) →
  (length uri ≤ 11)%nat → Z.of_nat (length bytes) ≤ 98 → bytes_ok data → take (length bytes) data = bytes → sym_key (security_data l) = mp_key mp →
  let pkt := secured_packet (coap_method (mp_aad mp)) path data (Z.of_nat (length bytes)) in
  let v := mk_verified (nonce_to_protect mp) (payload_at (nonce_to_protect mp) payload) (Z.of_nat (length payload)) in
  packet_ok pkt ∧ verifies g l pkt v ∧ take (Z.to_nat (payload_len (sm_unpacked pkt v))) (ChannelSm.payload (sm_unpacked pkt v)) = payload.
Proof.
  intros uri bytes Hg Hok Haad Hu Hlen Hdb Htake Hkey pkt v. destruct (signed_verifies g Hg mp uri payload data Hok Hu Hlen Hdb Htake) as [Hv Hpay].
  assert (Hle : (length bytes ≤ length data)%nat) by (rewrite <- Htake, length_take; lia).
  assert (Hpos : (0 < length bytes)%nat) by (unfold bytes, cose_message; rewrite length_app; cbn; lia).
  assert (Hpl : Z.of_nat (length payload) < 98).
  { unfold bytes in Hlen. rewrite cose_message_length, byte_string_length in Hlen by (apply le_bytes_length || apply Hok).
    pose proof (head_size_range (nonce_to_protect mp)). pose proof (head_size_range (Z.of_nat (length payload))). lia. }
  split; [|split].
  - split; cbn [pkt secured_packet code uri_path ChannelSm.payload payload_len]; [apply Hok|apply Hok|done|lia].
  - split; [cbn [pkt secured_packet payload_len]; lia|]. etransitivity; [|exact Hv]. f_equal. unfold sm_verify_ctx, receiver_ctx. cbn [pkt secured_packet code uri_path ChannelSm.payload payload_len].
    fold uri. rewrite u8_small by (unfold is_u8; lia). by rewrite Hkey, <- Haad.
  - cbn [sm_unpacked pkt v secured_packet payload_len ChannelSm.payload unsecured_payload unsecured_payload_len].
    rewrite u32_small by (unfold is_u32; lia). by rewrite Nat2Z.id.
Qed.

(** ** Requests *)

(** What the client is asked to send, with its buffers. *)
Record client_request := mk_client_request {
  cr_method : Z;
  cr_uri : list Z;
  cr_payload : list Z;
  cr_size : Z;
  cr_buffer : list Z;
  cr_garbage_size : Z
}.

(** The request fits under a nonce; the transaction's payload area has room for 98 bytes. *)
Record request_ok (rq : client_request) (n : Z) : Prop := mk_request_ok {
  rq_method : 0 ≤ cr_method rq < CREATED_2_01;
  rq_uri : bytes_ok (cr_uri rq) ∧ (length (cr_uri rq) ≤ 11)%nat;
  rq_payload : bytes_ok (cr_payload rq) ∧ (98 ≤ length (cr_payload rq))%nat;
  rq_size : 0 ≤ cr_size rq ∧ message_size n (cr_size rq) ≤ 98;
  rq_buffer : bytes_ok (cr_buffer rq) ∧ length (cr_buffer rq) = 98%nat
}.

Definition request_payload (rq : client_request) : list Z := take (Z.to_nat (cr_size rq)) (cr_payload rq).

Definition request_params (rq : client_request) (key : list Z) (n : Z) : nexus_cose_mac0_common_macparams_t :=
  mk_macparams key n (mk_aad (cr_method rq) (cr_uri rq) (Z.of_nat (length (cr_uri rq)))) (cr_payload rq) (cr_size rq).

Definition client_send (rq : client_request) (endpoint : oc_endpoint_t) (w : lm_world P) : run (option (list Z * Z)) :=
  '(security_ok, data, size) ← _prepare_secured_coap_request gc (cr_buffer rq) (cr_garbage_size rq) endpoint (cr_method rq) (cr_uri rq)
    (cr_payload rq) (cr_size rq) w;
  Done (if security_ok : bool then Some (data, size) else None).

Lemma request_params_ok rq l n :
  request_ok rq n → link_ok l → is_u32 n → params_ok (request_params rq (sym_key (security_data l)) n) (cr_uri rq) (request_payload rq).
Proof.
  intros [Hm [Hu Hul] [Hp Hpl] [Hs Hfit] _] Hl Hn. pose proof (head_size_range n). pose proof (head_size_range (cr_size rq)). unfold message_size in Hfit.
  unfold CREATED_2_01 in Hm. split; cbn [request_params mp_key nonce_to_protect mp_aad mp_payload mp_payload_len coap_method coap_uri coap_uri_len].
  - split; apply Hl.
  - done.
  - unfold is_u8. lia.
  - unfold is_u8. lia.
  - rewrite Nat2Z.id, slice_in, drop_0, take_ge by lia. done.
  - unfold is_u64. lia.
  - rewrite slice_in, drop_0 by lia. split; [done|by apply Forall_take].
Qed.

Lemma client_send_prepared rq endpoint (w : lm_world P) data size : client_send rq endpoint w = Done (Some (data, size)) →
  _prepare_secured_coap_request gc (cr_buffer rq) (cr_garbage_size rq) endpoint (cr_method rq) (cr_uri rq) (cr_payload rq) (cr_size rq) w =
    Done (true, data, size).
Proof.
  unfold client_send. destruct (_prepare_secured_coap_request _ _ _ _ _ _ _ _ _) as [[[[] d] n]| |]; [|done..].
  cbn [mbind run_bind]. by intros [= -> ->].
Qed.

Lemma client_send_spec rq endpoint id (w : lm_world P) l :
  lm_ok w → nexus_oc_wrapper_oc_endpoint_to_nx_id endpoint = Some id → link_of w id = Some l →
  nonce (security_data l) < UINT32_MAX → request_ok rq (nonce (security_data l) + 1) →
  let n := nonce (security_data l) + 1 in
  let bytes := cose_message n (request_payload rq) (cose_tag (sym_key (security_data l)) n (cr_method rq) (cr_uri rq) (request_payload rq)) in
  ∃ data, client_send rq endpoint w = Done (Some (data, Z.of_nat (length bytes))) ∧
    take (length bytes) data = bytes ∧ bytes_ok data ∧ Z.of_nat (length bytes) ≤ 98.
Proof.
  intros Hok Hid Hl Hmax Hrq n bytes. pose proof (link_of_id w id l Hok Hl) as [_ Hlok]. pose proof (ok_nonce _ Hlok) as Hln.
  assert (Hn : is_u32 n) by (unfold n, is_u32, UINT32_MAX in *; lia).
  pose proof (request_params_ok rq l n Hrq Hlok Hn) as Hpo. destruct (rq_uri _ _ Hrq) as [Hub Hul]. destruct (rq_buffer _ _ Hrq) as [Hbb Hbl].
  destruct (rq_payload _ _ Hrq) as [Hpb Hpl]. destruct (rq_size _ _ Hrq) as [Hs Hfit].
  destruct (repack_spec gc _ _ _ (cr_buffer rq) (cr_garbage_size rq) Hgc Hpo Hul Hfit Hbl Hbb) as [Hsize (out & Hrun & Htake & Hob & Hol)].
  change (cose_message _ _ _) with bytes in Hsize, Hrun, Htake.
  assert (Hpos : (0 < length bytes)%nat) by (unfold bytes, cose_message; rewrite length_app; cbn; lia).
  unfold client_send, _prepare_secured_coap_request. rewrite Hid. cbn [defined mbind run_bind].
  unfold nexus_channel_link_manager_security_data_from_nxid. rewrite link_of_answer, Hl by done. cbn [mbind option_bind defined run_bind option_map].
  fold n. rewrite u32_small by done. rewrite (u8_small (Z.of_nat (length (cr_uri rq)))) by (unfold is_u8; lia).
  change (mk_macparams _ _ _ _ _) with (request_params rq (sym_key (security_data l)) n). rewrite Hrun. cbn [mbind run_bind].
  cbv zeta. cbn [request_params nonce_to_protect mp_payload_len] in Hsize. fold n in Hfit.
  rewrite (u8_small (Z.of_nat (length bytes))) by (unfold is_u8; lia). change NEXUS_CHANNEL_MAX_CBOR_PAYLOAD_SIZE with 98.
  rewrite (proj2 (Z.leb_le _ _)) by lia. cbn [nexus_assert cbor_assert mbind run_bind]. rewrite (proj2 (Z.eqb_neq _ _)) by lia.
  rewrite Nat2Z.id, slice_in by lia. cbn [defined mbind run_bind]. rewrite drop_0, Htake, memcpy_at_in by lia. cbn [defined mbind run_bind].
  eexists. split; [reflexivity|]. rewrite take_0. cbn [app]. rewrite take_app_length. split; [done|]. split; [|lia].
  apply Forall_app_2; [|by apply Forall_drop]. rewrite <- Htake. by apply Forall_take.
Qed.

(** a secured request of a client is accepted by a server whose link has
    the same key and a nonce that is not above the client's, with the payload
    that was sent; the server's nonce becomes the client's plus one. *)
Theorem sm_request_accepted ms rs rq endpoint_s id_s endpoint_c id_c lc ls (wc ws : lm_world P) :
  lm_ok wc → lm_ok ws → nexus_oc_wrapper_oc_endpoint_to_nx_id endpoint_s = Some id_s →
  nexus_oc_wrapper_oc_endpoint_to_nx_id endpoint_c = Some id_c →
  link_of wc id_s = Some lc → link_of ws id_c = Some ls → security_mode ls = 0 →
  sym_key (security_data lc) = sym_key (security_data ls) →
  nonce (security_data ls) ≤ nonce (security_data lc) < UINT32_MAX - 64 →
  request_ok rq (nonce (security_data lc) + 1) →
  ∃ data len pkt' ws',
    client_send rq endpoint_s wc = Done (Some (data, len)) ∧
    nexus_channel_authenticate_message gs ms rs endpoint_c (secured_packet (cr_method rq) (Some (cr_uri rq)) data len) ws =
      Done (NEXUS_CHANNEL_SM_AUTH_MESSAGE_ERROR_NONE, pkt', ws') ∧
    take (Z.to_nat (payload_len pkt')) (ChannelSm.payload pkt') = request_payload rq ∧
    link_became ws ws' id_c (touched (nonce (security_data lc) + 1) ls).
Proof.
  intros Hokc Hoks Hids Hidc Hlc Hls Hm Hkey Hn Hrq.
  destruct (client_send_spec rq endpoint_s id_s wc lc Hokc Hids Hlc) as (data & Hsend & Htake & Hdb & H98); [lia|done|].
  pose proof (link_of_id wc id_s lc Hokc Hlc) as [_ Hlok]. pose proof (ok_nonce _ Hlok) as Hln.
  set (n := nonce (security_data lc) + 1) in *. assert (Hnu : is_u32 n) by (unfold n, is_u32, UINT32_MAX in *; lia).
  pose proof (request_params_ok rq lc n Hrq Hlok Hnu) as Hpo.
  destruct (packed_verifies gs _ (Some (cr_uri rq)) (request_payload rq) data ls Hgs Hpo eq_refl (proj2 (rq_uri _ _ Hrq)) H98 Hdb Htake)
    as (Hpk & Hv & Hpay); [by rewrite <- Hkey|].
  destruct (accept_request gs Hgs ms rs endpoint_c id_c _ ws ls _ Hoks Hpk Hidc eq_refl Hls Hm Hv) as ([[err pkt'] ws'] & Hrun & -> & Hres).
  { apply (rq_method _ _ Hrq). } { cbn [extracted_nonce request_params nonce_to_protect]. lia. }
  cbn [extracted_nonce request_params nonce_to_protect] in Hres. rewrite (proj2 (Z.leb_le _ _)) in Hres by lia. destruct Hres as [-> Hb].
  eexists data, _, _, ws'. split; [exact Hsend|]. split; [exact Hrun|]. split; [exact Hpay|exact Hb].
Qed.

(** ** Falling behind *)

(** The answer of a server to a request under too low a nonce. *)
Lemma sync_response_spec buffer garbage_size endpoint id (w : lm_world P) l :
  lm_ok w → nexus_oc_wrapper_oc_endpoint_to_nx_id endpoint = Some id → link_of w id = Some l →
  length buffer = 98%nat → bytes_ok buffer →
  let n := nonce (security_data l) in
  let bytes := cose_message n [] (cose_tag (sym_key (security_data l)) n NOT_ACCEPTABLE_4_06 [] []) in
  ∃ data, coap_send_nonce_sync_response gs buffer garbage_size endpoint false w =
      Done (secured_packet NOT_ACCEPTABLE_4_06 None data (Z.of_nat (length bytes))) ∧
    take (length bytes) data = bytes ∧ bytes_ok data ∧ Z.of_nat (length bytes) ≤ 98 ∧
    params_ok (mk_macparams (sym_key (security_data l)) n (mk_aad NOT_ACCEPTABLE_4_06 [] 0) [] 0) [] [].
Proof.
  intros Hok Hid Hl Hbl Hbb n bytes. pose proof (link_of_id w id l Hok Hl) as [_ Hlok]. pose proof (ok_nonce _ Hlok) as Hln.
  assert (Hpo : params_ok (mk_macparams (sym_key (security_data l)) n (mk_aad NOT_ACCEPTABLE_4_06 [] 0) [] 0) [] []).
  { split; cbn; try done; destruct Hlok; done. }
  assert (Hfit : message_size n 0 ≤ 98) by (unfold message_size; pose proof (head_size_range n); pose proof (head_size_range 0); lia).
  destruct (repack_spec gs _ _ _ buffer garbage_size Hgs Hpo (Nat.le_0_l 11) Hfit Hbl Hbb) as [Hsize (out & Hrun & Htake & Hob & Hol)].
  change (cose_message _ _ _) with bytes in Hsize, Hrun, Htake. cbn [nonce_to_protect mp_payload_len] in Hsize.
  unfold coap_send_nonce_sync_response. rewrite Hid. cbn [defined mbind run_bind].
  unfold nexus_channel_link_manager_security_data_from_nxid. rewrite link_of_answer, Hl by done. cbn [mbind option_bind defined run_bind option_map].
  rewrite bool_decide_true by done. cbn [nexus_assert cbor_assert mbind run_bind]. change (default _ (Some (security_data l))) with (security_data l). cbv zeta. cbn iota. fold n. rewrite Hrun. cbn [mbind run_bind].
  exists out. split; [reflexivity|]. split_and!; [done|done|lia|done].
Qed.

(** A client that gets the nonce of the server takes it over. *)
Lemma accept_sync ms rs endpoint id pkt (w : lm_world P) l v :
  lm_ok w → packet_ok pkt → nexus_oc_wrapper_oc_endpoint_to_nx_id endpoint = Some id →
  _nexus_channel_sm_message_headers_secured_mode0 pkt = true → link_of w id = Some l → security_mode l = 0 → verifies gc l pkt v →
  code pkt = NOT_ACCEPTABLE_4_06 → nonce (security_data l) ≤ extracted_nonce v < UINT32_MAX →
  ∃ w', nexus_channel_authenticate_message gc ms rs endpoint pkt w =
      Done (NEXUS_CHANNEL_SM_AUTH_MESSAGE_ERROR_VALID_NONCE_SYNC_RECEIVED, sm_unpacked pkt v, w') ∧
    link_became w w' id (touched (extracted_nonce v) l).
Proof.
  intros Hok Hp Hid Hsec Hl Hm Hv Hc Hn.
  assert (Hends : ends (λ r, let '(err, pkt', w') := r in err = NEXUS_CHANNEL_SM_AUTH_MESSAGE_ERROR_VALID_NONCE_SYNC_RECEIVED ∧
      pkt' = sm_unpacked pkt v ∧ link_became w w' id (touched (extracted_nonce v) l)) (nexus_channel_authenticate_message gc ms rs endpoint pkt w)).
  { eapply authenticate_verified; [done..|]. pose proof (link_of_id w id l Hok Hl) as [_ Hlok].
    destruct (verifies_tag gc Hgc l pkt v Hlok Hp Hv) as (Hnu & _). unfold sm_check_nonce. rewrite Hc.
    change (NOT_ACCEPTABLE_4_06 <? CREATED_2_01) with false. change (CREATED_2_01 <=? NOT_ACCEPTABLE_4_06) with true. cbn [nexus_assert cbor_assert mbind run_bind].
    rewrite (proj2 (Z.ltb_ge _ _)) by lia. rewrite Z.eqb_refl. cbv zeta. unfold NEXUS_CHANNEL_LINK_SECURITY_RESET_NONCE_SIGNAL_VALUE.
    rewrite (proj2 (Z.eqb_neq (extracted_nonce v) UINT32_MAX)) by lia.
    apply (touch_ends w id l); [done..|]. intros w' Hw'. apply ends_ret. rewrite decide_False by done. done. }
  destruct Hends as ([[err pkt'] w'] & Hrun & -> & -> & Hb). by exists w'.
Qed.

(** The stored request, packed again. *)
Lemma resend_spec rq endpoint id buffer garbage_size data n0 tag0 (w : lm_world P) l :
  lm_ok w → nexus_oc_wrapper_oc_endpoint_to_nx_id endpoint = Some id → link_of w id = Some l →
  nonce (security_data l) < UINT32_MAX → is_u32 n0 → request_ok rq n0 → request_ok rq (nonce (security_data l) + 1) →
  length tag0 = 8%nat → bytes_ok data → length buffer = 98%nat → bytes_ok buffer →
  let stored := cose_message n0 (request_payload rq) tag0 in
  take (length stored) data = stored →
  let n := nonce (security_data l) + 1 in
  let bytes := cose_message n (request_payload rq) (cose_tag (sym_key (security_data l)) n (cr_method rq) (cr_uri rq) (request_payload rq)) in
  ∃ data', coap_send_previous_request_with_repacked_security gc buffer garbage_size endpoint
      (secured_packet (cr_method rq) (Some (cr_uri rq)) data (Z.of_nat (length stored))) w =
      Done (Some (secured_packet (cr_method rq) (Some (cr_uri rq)) data' (Z.of_nat (length bytes)))) ∧
    take (length bytes) data' = bytes ∧ bytes_ok data' ∧ Z.of_nat (length bytes) ≤ 98.
Proof.
  intros Hok Hid Hl Hmax Hn0 Hrq0 Hrq Htag0 Hdb Hbl Hbb stored Hstored n bytes. pose proof (link_of_id w id l Hok Hl) as [_ Hlok]. pose proof (ok_nonce _ Hlok) as Hln.
  assert (Hn : is_u32 n) by (unfold n, is_u32, UINT32_MAX in *; lia). destruct (rq_uri _ _ Hrq) as [Hub Hul]. destruct (rq_size _ _ Hrq) as [Hs Hfit].
  destruct (rq_payload _ _ Hrq) as [Hpb Hpl]. unfold message_size in Hfit. fold n in Hfit. pose proof (head_size_range n). pose proof (head_size_range (cr_size rq)). pose proof (head_size_range n0).
  assert (Hplen : Z.of_nat (length (request_payload rq)) = cr_size rq) by (unfold request_payload; rewrite length_take; lia).
  unfold coap_send_previous_request_with_repacked_security. cbn [secured_packet ChannelSm.payload payload_len uri_path code].
  pose proof (deserialize_message_spec gc Hgc data n0 (request_payload rq) tag0 Hn0 ltac:(lia) Htag0 Hstored) as Hdes. fold stored in Hdes.
  rewrite Hdes. cbn [mbind run_bind].
  rewrite Hid. cbn [defined mbind run_bind]. unfold nexus_channel_link_manager_security_data_from_nxid. rewrite link_of_answer, Hl by done.
  cbn [mbind option_bind defined run_bind option_map]. cbv zeta. cbn [x_payload x_payload_len x_nonce].
  change (default [] (Some (cr_uri rq))) with (cr_uri rq). fold n. rewrite u32_small by done.
  rewrite (u8_small (Z.of_nat (length (cr_uri rq)))) by (unfold is_u8; lia). rewrite Hplen. set (mp := mk_macparams _ _ _ _ _).
  assert (Hpo : params_ok mp (cr_uri rq) (request_payload rq)).
  { pose proof (request_params_ok rq l n Hrq Hlok Hn) as [? ? ? ? ? ? ?]. split; cbn [mp mp_key nonce_to_protect mp_aad mp_payload mp_payload_len]; try done.
    split; [|by apply Forall_take]. rewrite slice_in, drop_0.
    - f_equal. rewrite <- Hplen, Nat2Z.id.
      pose proof (message_payload n0 (request_payload rq) tag0 Hn0) as Hp. fold stored in Hp.
      pose proof (cose_message_length n0 (request_payload rq) tag0 Hn0 Htag0) as Hsl. fold stored in Hsl. rewrite byte_string_length, Hplen in Hsl.
      rewrite <- Hstored, skipn_firstn_comm, take_take, Nat.min_l in Hp; [done|]. unfold payload_at. rewrite Hplen. lia.
    - pose proof (cose_message_length n0 (request_payload rq) tag0 Hn0 Htag0) as Hsl. fold stored in Hsl. rewrite byte_string_length, Hplen in Hsl.
      assert ((length stored ≤ length data)%nat) by (rewrite <- Hstored, length_take; lia). rewrite length_drop. unfold payload_at. rewrite Hplen. lia. }
  destruct (repack_spec gc mp _ _ buffer garbage_size Hgc Hpo Hul ltac:(exact Hfit) Hbl Hbb) as [Hsize (out & Hrun & Htake & Hob & Hol)].
  change (cose_message _ _ _) with bytes in Hsize, Hrun, Htake. rewrite Hrun. cbn [mbind run_bind].
  exists out. split; [reflexivity|]. split_and!; [done|done|]. rewrite Hsize. exact Hfit.
Qed.

Lemma refuse_request ms rs endpoint id pkt (w : lm_world P) l v :
  lm_ok w → packet_ok pkt → nexus_oc_wrapper_oc_endpoint_to_nx_id endpoint = Some id →
  _nexus_channel_sm_message_headers_secured_mode0 pkt = true → link_of w id = Some l → security_mode l = 0 → verifies gs l pkt v →
  code pkt < CREATED_2_01 → extracted_nonce v ≤ nonce (security_data l) < UINT32_MAX →
  nexus_channel_authenticate_message gs ms rs endpoint pkt w =
    Done (NEXUS_CHANNEL_SM_AUTH_MESSAGE_ERROR_REQUEST_RECEIVED_WITH_INVALID_NONCE, sm_unpacked pkt v, w).
Proof.
  intros Hok Hp Hid Hsec Hl Hm Hv Hc Hn.
  assert (Hends : ends (λ r, r = (NEXUS_CHANNEL_SM_AUTH_MESSAGE_ERROR_REQUEST_RECEIVED_WITH_INVALID_NONCE, sm_unpacked pkt v, w))
    (nexus_channel_authenticate_message gs ms rs endpoint pkt w)).
  { eapply authenticate_verified; [done..|]. pose proof (link_of_id w id l Hok Hl) as [_ Hlok]. pose proof (ok_nonce _ Hlok) as Hln.
    unfold sm_check_nonce. rewrite (proj2 (Z.ltb_lt _ _) Hc). rewrite u32_small by (unfold is_u32, UINT32_MAX in *; lia).
    rewrite (proj2 (Z.ltb_lt (extracted_nonce v) _)) by lia. apply ends_ret. by rewrite decide_False. }
  by destruct Hends as (r & -> & ->).
Qed.

(** The message a client makes for a request under a nonce. *)
Definition request_message (rq : client_request) (key : list Z) (n : Z) : list Z :=
  cose_message n (request_payload rq) (cose_tag key n (cr_method rq) (cr_uri rq) (request_payload rq)).

(** The packet of a request verifies on the link of the server. *)
Lemma request_verifies rq lc ls data n :
  link_ok lc → is_u32 n → request_ok rq n → sym_key (security_data lc) = sym_key (security_data ls) →
  let bytes := request_message rq (sym_key (security_data ls)) n in
  let pkt := secured_packet (cr_method rq) (Some (cr_uri rq)) data (Z.of_nat (length bytes)) in
  take (length bytes) data = bytes → bytes_ok data → Z.of_nat (length bytes) ≤ 98 →
  ∃ v, packet_ok pkt ∧ verifies gs ls pkt v ∧ extracted_nonce v = n ∧
    take (Z.to_nat (payload_len (sm_unpacked pkt v))) (ChannelSm.payload (sm_unpacked pkt v)) = request_payload rq.
Proof.
  intros Hl Hn Hrq Hkey bytes pkt Htake Hdb H98. pose proof (request_params_ok rq lc n Hrq Hl Hn) as Hpo. rewrite Hkey in Hpo.
  destruct (packed_verifies gs _ (Some (cr_uri rq)) (request_payload rq) data ls Hgs Hpo eq_refl (proj2 (rq_uri _ _ Hrq)) H98 Hdb Htake eq_refl)
    as (Hpk & Hv & Hpay).
  eexists. split; [exact Hpk|]. split; [exact Hv|]. done.
Qed.

End SmAgree.
