(* ===== verification/Coap.v ===== *)
(** * CoAP messages (oc/messaging/coap/coap.c)

    How a packet is written into the buffer of a message, and how a message is
    parsed in place: the strings of several Uri-Path options are joined inside
    the message, so that the parser takes and gives back its bytes.

    A packet is polymorphic in what its pointers are.  Those of a parsed packet
    are offsets in the message; those of a packet to be written are a [coap_ptr].
    The fields that only the disabled options use are left out.  A read or
    write outside an array, of the ten bytes of [options] as well, is [None]. *)

From S2P Require Import Prelude Check Product DesktopProduct Channel ChannelCose ChannelSm.
Local Open Scope Z_scope.
Local Open Scope c_scope.

Definition BAD_OPTION_4_02 : Z := 130.
Definition UNSUPPORTED_MEDIA_TYPE_4_15 : Z := 143.
Definition COAP_OPTION_URI_PATH : Z := 11.
Definition COAP_OPTION_CONTENT_FORMAT : Z := 12.
Definition COAP_OPTION_URI_QUERY : Z := 15.
Definition COAP_HEADER_LEN : Z := 4.
Definition COAP_TOKEN_LEN : Z := 1.
Definition COAP_TYPE_CON : Z := 0.
Definition COAP_TYPE_NON : Z := 1.
Definition COAP_TYPE_ACK : Z := 2.
Definition COAP_TYPE_RST : Z := 3.
Definition COAP_HEADER_VERSION_MASK : Z := 0xC0.
Definition COAP_HEADER_VERSION_POSITION : Z := 6.
Definition COAP_HEADER_TYPE_MASK : Z := 0x30.
Definition COAP_HEADER_TYPE_POSITION : Z := 4.
Definition COAP_HEADER_TOKEN_LEN_MASK : Z := 0x0F.
Definition COAP_HEADER_TOKEN_LEN_POSITION : Z := 0.
Definition COAP_PAYLOAD_MARKER_LEN : Z := 1.
Definition COAP_MAX_HEADER_SIZE : Z := 22.
Definition OPTION_MAP_SIZE : Z := 8.

(** The separators of paths and queries, and the mark before a query. *)
Definition slash : Z := 47.
Definition ampersand : Z := 38.
Definition question : Z := 63.

Inductive coap_transport_type_t := COAP_TRANSPORT_UDP | COAP_TRANSPORT_TCP.

(** Memory from a pointer on: the buffer that the packet is written to, from
    an offset, or other memory. *)
Inductive coap_ptr := ptr_buffer (off : Z) | ptr_memory (bytes : list Z).

(** [pk_buffer]: whether the pointer to the message is set. *)
Record coap_packet {ptr : Type} := mk_packet {
  pk_buffer : bool;
  pk_transport_type : coap_transport_type_t;
  pk_version : Z;
  pk_type : Z;
  pk_code : Z;
  pk_mid : Z;
  pk_token_len : Z;
  pk_token : list Z;
  pk_options : list Z;
  pk_content_format : Z;
  pk_uri_path : option ptr;
  pk_uri_path_len : Z;
  pk_uri_query : option ptr;
  pk_uri_query_len : Z;
  pk_payload : option ptr;
  pk_payload_len : Z
}.
#[global] Arguments coap_packet : clear implicits.
#[global] Arguments mk_packet {ptr}.

(** All bytes zero. *)
Definition zero_packet {ptr} : coap_packet ptr :=
  mk_packet false COAP_TRANSPORT_UDP 0 0 0 0 0 [0] (replicate 10 0) 0 None 0 None 0 None 0.

(** [SET_OPTION] and [IS_OPTION]. *)
Definition SET_OPTION {ptr} (coap_pkt : coap_packet ptr) (opt : Z) : option (coap_packet ptr) :=
  flags ← aget (pk_options coap_pkt) (opt / OPTION_MAP_SIZE);
  options ← aset (pk_options coap_pkt) (opt / OPTION_MAP_SIZE) (u8 (flags .| (1 ≪ (opt mod OPTION_MAP_SIZE))));
  Some {| coap_pkt with pk_options := options |}.
Definition IS_OPTION {ptr} (coap_pkt : coap_packet ptr) (opt : Z) : option bool :=
  flags ← aget (pk_options coap_pkt) (opt / OPTION_MAP_SIZE);
  Some (negb (flags .& (1 ≪ (opt mod OPTION_MAP_SIZE)) =? 0)).

(** ** Writing *)

Definition coap_option_nibble (value : Z) : Z := if value <? 13 then u8 value else if value <=? 0xFF + 13 then 13 else 14.

(** A buffer may be the null pointer: the size is counted, nothing written. *)
Definition out_buffer : Type := option (list Z).

Definition put (buffer : out_buffer) (i v : Z) : option out_buffer :=
  match buffer with
  | Some b => b ← aset b i v; Some (Some b)
  | None => Some None
  end.

(** The bytes that extend a nibble; [written] counts from [base]. *)
Definition put_extended (value base written : Z) (buffer : out_buffer) : option (Z * out_buffer) :=
  if 268 <? value then
    let written := written + 1 in
    buffer ← put buffer (base + written) (((value - 269) ≫ 8) .& 0xff);
    let written := written + 1 in
    buffer ← put buffer (base + written) ((value - 269) .& 0xff);
    Some (written, buffer)
  else if 12 <? value then
    let written := written + 1 in
    buffer ← put buffer (base + written) (u8 (value - 13));
    Some (written, buffer)
  else Some (written, buffer).

(** Writes from [base] on, and gives the number of bytes. *)
Definition coap_set_option_header (delta length base : Z) (buffer : out_buffer) : option (Z * out_buffer) :=
  let written := 0 in
  buffer ← put buffer base (u8 ((coap_option_nibble delta ≪ 4) .| coap_option_nibble length));
  '(written, buffer) ← put_extended delta base written buffer;
  '(written, buffer) ← put_extended length base written buffer;
  Some (written + 1, buffer).

Definition coap_serialize_int_option (number current_number base : Z) (buffer : out_buffer) (value : Z) : option (Z * out_buffer) :=
  let i := 0 in
  let i := if negb (0xFF000000 .& value =? 0) then i + 1 else i in
  let i := if negb (0xFFFF0000 .& value =? 0) then i + 1 else i in
  let i := if negb (0xFFFFFF00 .& value =? 0) then i + 1 else i in
  let i := if negb (0xFFFFFFFF .& value =? 0) then i + 1 else i in
  '(i, buffer) ← coap_set_option_header (u32 (number - current_number)) i base buffer;
  '(i, buffer) ← (if negb (0xFF000000 .& value =? 0) then b ← put buffer (base + i) (u8 (value ≫ 24)); Some (i + 1, b) else Some (i, buffer));
  '(i, buffer) ← (if negb (0xFFFF0000 .& value =? 0) then b ← put buffer (base + i) (u8 (value ≫ 16)); Some (i + 1, b) else Some (i, buffer));
  '(i, buffer) ← (if negb (0xFFFFFF00 .& value =? 0) then b ← put buffer (base + i) (u8 (value ≫ 8)); Some (i + 1, b) else Some (i, buffer));
  (if negb (0xFFFFFFFF .& value =? 0) then b ← put buffer (base + i) (u8 value); Some (i + 1, b) else Some (i, buffer)).

(** memcpy into the buffer, if there is one. *)
Definition put_bytes (buffer : out_buffer) (i : Z) (src : list Z) : option out_buffer :=
  match buffer with
  | Some b => b ← memcpy_at b (Z.to_nat i) src; Some (Some b)
  | None => Some None
  end.

(** The memory behind a pointer, when [buffer] is the message being written;
    nothing is behind the null pointer. *)
Definition deref (buffer : list Z) (p : option coap_ptr) : list Z :=
  match p with
  | Some (ptr_buffer off) => drop (Z.to_nat off) buffer
  | Some (ptr_memory bytes) => bytes
  | None => []
  end.

Section Array.
(** An array option is read while it is written, maybe in the same message:
    [memory] is what is behind the array, given the buffer as it is. *)
Context (number : Z) (memory : out_buffer → list Z).

(** [temp_length] bytes of the array from [start], an option after [current_number]. *)
Definition coap_put_part (current_number base : Z) (buffer : out_buffer) (start temp_length : Z) : option (Z * out_buffer) :=
  '(n, buffer) ← coap_set_option_header (u32 (number - current_number)) temp_length base buffer;
  match buffer with
  | Some _ =>
      part ← slice (memory buffer) (Z.to_nat start) (Z.to_nat temp_length);
      buffer ← put_bytes buffer (base + n) part;
      Some (n + temp_length, buffer)
  | None => Some (n + temp_length, None)
  end.

(** The loop over [j]: a splitter ends a part, and the character after it is
    not looked at. *)
Fixpoint coap_split_loop (fuel : nat) (current_number base length split_char j part_start i : Z) (buffer : out_buffer)
    : option (Z * out_buffer) :=
  match fuel with
  | O => None
  | S fuel =>
      if j <=? length + 1 then
        c ← aget (memory buffer) j;
        if (c =? split_char) || (j =? length) then
          '(n, buffer) ← coap_put_part current_number (base + i) buffer part_start (j - part_start);
          let j := j + 1 in
          coap_split_loop fuel number base length split_char (j + 1) j (i + n) buffer
        else coap_split_loop fuel current_number base length split_char (j + 1) part_start i buffer
      else Some (i, buffer)
  end.

Definition coap_serialize_array_option (current_number base : Z) (buffer : out_buffer) (length split_char : Z)
    : option (Z * out_buffer) :=
  if negb (split_char =? 0) then
    coap_split_loop (Z.to_nat (length + 3)) current_number base length split_char 0 0 0 buffer
  else coap_put_part current_number base buffer 0 length.
End Array.

(** The three options, from [base] on in [buffer].  [message] is the buffer
    of the message: with the null pointer for [buffer] the strings are read
    all the same. *)
Definition coap_serialize_options (coap_pkt : coap_packet coap_ptr) (message : list Z) (base : Z) (option_array : out_buffer)
    : option (Z * out_buffer) :=
  let memory p buffer := deref (default message buffer) p in
  let current_number := 0 in
  let option_length := 0 in
  set ← IS_OPTION coap_pkt COAP_OPTION_URI_PATH;
  '(option_length, current_number, buffer) ←
    (if (set : bool) then
       '(n, buffer) ← coap_serialize_array_option COAP_OPTION_URI_PATH (memory (pk_uri_path coap_pkt))
                        current_number (base + option_length) option_array (pk_uri_path_len coap_pkt) slash;
       Some (option_length + n, COAP_OPTION_URI_PATH, buffer)
     else Some (option_length, current_number, option_array));
  set ← IS_OPTION coap_pkt COAP_OPTION_CONTENT_FORMAT;
  '(option_length, current_number, buffer) ←
    (if (set : bool) then
       '(n, buffer) ← coap_serialize_int_option COAP_OPTION_CONTENT_FORMAT current_number (base + option_length) buffer
                        (pk_content_format coap_pkt);
       Some (option_length + n, COAP_OPTION_CONTENT_FORMAT, buffer)
     else Some (option_length, current_number, buffer));
  set ← IS_OPTION coap_pkt COAP_OPTION_URI_QUERY;
  if (set : bool) then
    '(n, buffer) ← coap_serialize_array_option COAP_OPTION_URI_QUERY (memory (pk_uri_query coap_pkt))
                     current_number (base + option_length) buffer (pk_uri_query_len coap_pkt) ampersand;
    Some (option_length + n, buffer)
  else Some (option_length, buffer).

Definition coap_udp_init_message {ptr} (type code mid : Z) : coap_packet ptr :=
  mk_packet false COAP_TRANSPORT_UDP 0 type code mid 0 [0] (replicate 10 0) 0 None 0 None 0 None 0.

Definition coap_udp_set_header_fields {ptr} (coap_pkt : coap_packet ptr) (buffer : list Z) : option (list Z) :=
  let b0 := 0x00 in
  let b0 := u8 (b0 .| (COAP_HEADER_VERSION_MASK .& (pk_version coap_pkt ≪ COAP_HEADER_VERSION_POSITION))) in
  let b0 := u8 (b0 .| (COAP_HEADER_TYPE_MASK .& (pk_type coap_pkt ≪ COAP_HEADER_TYPE_POSITION))) in
  let b0 := u8 (b0 .| (COAP_HEADER_TOKEN_LEN_MASK .& (pk_token_len coap_pkt ≪ COAP_HEADER_TOKEN_LEN_POSITION))) in
  buffer ← aset buffer 0 b0;
  buffer ← aset buffer 1 (pk_code coap_pkt);
  buffer ← aset buffer 2 (u8 (pk_mid coap_pkt ≫ 8));
  aset buffer 3 (u8 (pk_mid coap_pkt)).

(** The payload goes behind the marker; it may overlap with what is written. *)
Definition coap_put_payload (coap_pkt : coap_packet coap_ptr) (buffer : list Z) (opt : Z) : option (Z * list Z) :=
  if 0 <? pk_payload_len coap_pkt then
    buffer ← aset buffer opt 0xFF;
    let opt := opt + 1 in
    payload ← slice (deref buffer (pk_payload coap_pkt)) 0 (Z.to_nat (pk_payload_len coap_pkt));
    buffer ← memcpy_at buffer (Z.to_nat opt) payload;
    Some (opt, buffer)
  else Some (opt, buffer).

(** The label [exit]. *)
Definition coap_serialize_exit (coap_pkt : coap_packet coap_ptr) (buffer : list Z) : Z * option (coap_packet coap_ptr) * out_buffer :=
  (0, Some {| coap_pkt with pk_buffer := false |}, Some buffer).

(** The message, once the calculated length is found to fit. *)
Definition coap_write_message (coap_pkt : coap_packet coap_ptr) (buffer : list Z)
    : option (Z * option (coap_packet coap_ptr) * out_buffer) :=
  let token_location := COAP_HEADER_LEN in
  buffer ← coap_udp_set_header_fields coap_pkt buffer;
  if pk_code coap_pkt =? 0 then Some (token_location, Some coap_pkt, Some buffer)
  else
    token0 ← aget (pk_token coap_pkt) 0;
    buffer ← aset buffer token_location token0;
    let opt := token_location + 1 in
    '(option_length, written) ← coap_serialize_options coap_pkt buffer opt (Some buffer);
    let buffer := default buffer written in
    let opt := opt + option_length in
    if opt <=? COAP_MAX_HEADER_SIZE then
      '(opt, buffer) ← coap_put_payload coap_pkt buffer opt;
      Some (opt + pk_payload_len coap_pkt, Some coap_pkt, Some buffer)
    else Some (coap_serialize_exit coap_pkt buffer).

(** Gives the length, the packet and the buffer; the null pointers are [None]. *)
Definition coap_serialize_message (packet : option (coap_packet coap_ptr)) (buffer : out_buffer)
    : option (Z * option (coap_packet coap_ptr) * out_buffer) :=
  match packet, buffer with
  | Some coap_pkt, Some buffer =>
      let coap_pkt : coap_packet coap_ptr := {| coap_pkt with pk_buffer := true; pk_version := 1 |} in
      '(option_length_calculation, _) ← coap_serialize_options coap_pkt buffer 0 None;
      let header_length_calculation := option_length_calculation in
      let header_length_calculation :=
        if 0 <? pk_payload_len coap_pkt then header_length_calculation + COAP_PAYLOAD_MARKER_LEN else header_length_calculation in
      let header_length_calculation := header_length_calculation + pk_token_len coap_pkt in
      let header_length_calculation := header_length_calculation + COAP_HEADER_LEN in
      if COAP_MAX_HEADER_SIZE <? header_length_calculation then Some (coap_serialize_exit coap_pkt buffer)
      else coap_write_message coap_pkt buffer
  | _, _ => Some (0, packet, buffer)
  end.

(** ** Parsing *)

Definition coap_parse_int_option (data : list Z) (bytes length : Z) : option Z :=
  for_loop (Z.to_nat length) 0 (λ i var, b ← aget data (bytes + i); Some (u32 (var ≪ 8) .| b)) 0.

(** [dst] and [option_start] are offsets in [data]. *)
Definition coap_merge_multi_option (data : list Z) (dst : option Z) (dst_len option_start option_len separator : Z)
    : option (option Z * Z * list Z) :=
  if 0 <? dst_len then
    d ← dst;
    data ← aset data (d + dst_len) separator;
    let dst_len := dst_len + 1 in
    src ← slice data (Z.to_nat option_start) (Z.to_nat option_len);
    data ← memcpy_at data (Z.to_nat (d + dst_len)) src;
    Some (dst, dst_len + option_len, data)
  else Some (Some option_start, option_len, data).

(** A nibble with the bytes that extend it; gives the position behind them. *)
Definition coap_extended (data : list Z) (current_option nibble : Z) : option (Z * Z) :=
  if nibble =? 13 then
    b ← aget data current_option;
    Some (nibble + b, current_option + 1)
  else if nibble =? 14 then
    b1 ← aget data current_option;
    b2 ← aget data (current_option + 1);
    Some (nibble + 255 + (b1 ≪ 8) + b2, current_option + 2)
  else Some (nibble, current_option).

Definition coap_packet_at : Type := coap_packet Z.

(** The payload starts at [payload]; the byte behind it is set to zero. *)
Definition coap_parse_payload (coap_pkt : coap_packet_at) (data : list Z) (data_len payload : Z) : option (coap_packet_at * list Z) :=
  let len := u32 (data_len - payload) in
  let len :=
    match pk_transport_type coap_pkt with
    | COAP_TRANSPORT_UDP => if NEXUS_CHANNEL_MAX_CBOR_PAYLOAD_SIZE <? len then NEXUS_CHANNEL_MAX_CBOR_PAYLOAD_SIZE else len
    | COAP_TRANSPORT_TCP => len
    end in
  data ← aset data (payload + len) 0;
  Some ({| coap_pkt with pk_payload := Some payload; pk_payload_len := len |}, data).

(** The value of an option, by its number: a status ends the parse. *)
Definition coap_parse_value (coap_pkt : coap_packet_at) (data : list Z) (option_number current_option option_length : Z)
    : option (option Z * coap_packet_at * list Z) :=
  if option_number =? COAP_OPTION_CONTENT_FORMAT then
    v ← coap_parse_int_option data current_option option_length;
    let coap_pkt : coap_packet_at := {| coap_pkt with pk_content_format := u16 v |} in
    if negb (pk_content_format coap_pkt =? APPLICATION_VND_OCF_CBOR) && negb (pk_content_format coap_pkt =? APPLICATION_COSE_MAC0)
    then Some (Some UNSUPPORTED_MEDIA_TYPE_4_15, coap_pkt, data)
    else Some (None, coap_pkt, data)
  else if option_number =? COAP_OPTION_URI_PATH then
    '(dst, dst_len, data) ←
      coap_merge_multi_option data (pk_uri_path coap_pkt) (pk_uri_path_len coap_pkt) current_option option_length slash;
    Some (None, {| coap_pkt with pk_uri_path := dst; pk_uri_path_len := dst_len |}, data)
  else if option_number =? COAP_OPTION_URI_QUERY then
    '(dst, dst_len, data) ←
      coap_merge_multi_option data (pk_uri_query coap_pkt) (pk_uri_query_len coap_pkt) current_option option_length ampersand;
    Some (None, {| coap_pkt with pk_uri_query := dst; pk_uri_query_len := dst_len |}, data)
  else if negb (option_number .& 1 =? 0) then Some (Some BAD_OPTION_4_02, coap_pkt, data)
  else Some (None, coap_pkt, data).

(** The loop over the options; every turn moves on by a byte at least. *)
Fixpoint coap_parse_options (fuel : nat) (coap_pkt : coap_packet_at) (data : list Z) (data_len current_option option_number : Z)
    : option (Z * coap_packet_at * list Z) :=
  match fuel with
  | O => None
  | S fuel =>
      if current_option <? data_len then
        b ← aget data current_option;
        if b .& 0xF0 =? 0xF0 then
          '(coap_pkt, data) ← coap_parse_payload coap_pkt data data_len (current_option + 1);
          Some (COAP_NO_ERROR, coap_pkt, data)
        else
          '(option_delta, p) ← coap_extended data (current_option + 1) (b ≫ 4);
          '(option_length, current_option) ← coap_extended data p (b .& 0x0F);
          let option_number := u32 (option_number + option_delta) in
          coap_pkt ← SET_OPTION coap_pkt option_number;
          if data_len <? current_option + option_length then Some (BAD_OPTION_4_02, coap_pkt, data)
          else
            '(ret, coap_pkt, data) ← coap_parse_value coap_pkt data option_number current_option option_length;
            match ret with
            | Some ret => Some (ret, coap_pkt, data)
            | None => coap_parse_options fuel coap_pkt data data_len (current_option + option_length) option_number
            end
      else Some (COAP_NO_ERROR, coap_pkt, data)
  end.

Definition coap_parse_token_option (coap_pkt : coap_packet_at) (data : list Z) (data_len current_option : Z)
    : option (Z * coap_packet_at * list Z) :=
  token ← slice data (Z.to_nat current_option) (Z.to_nat (pk_token_len coap_pkt));
  token ← memcpy_at (pk_token coap_pkt) 0 token;
  let coap_pkt : coap_packet_at := {| coap_pkt with pk_token := token; pk_options := replicate 10 0 |} in
  coap_parse_options (S (Z.to_nat data_len)) coap_pkt data data_len (current_option + pk_token_len coap_pkt) 0.

(** Gives the status, the packet and the bytes of the message. *)
Definition coap_udp_parse_message (data : list Z) (data_len : Z) : option (Z * coap_packet_at * list Z) :=
  b0 ← aget data 0;
  b1 ← aget data 1;
  b2 ← aget data 2;
  b3 ← aget data 3;
  let coap_pkt : coap_packet_at :=
    let memset : coap_packet_at := zero_packet in
    {| memset with
       pk_buffer := true;
       pk_transport_type := COAP_TRANSPORT_UDP;
       pk_version := (COAP_HEADER_VERSION_MASK .& b0) ≫ COAP_HEADER_VERSION_POSITION;
       pk_type := (COAP_HEADER_TYPE_MASK .& b0) ≫ COAP_HEADER_TYPE_POSITION;
       pk_token_len := (COAP_HEADER_TOKEN_LEN_MASK .& b0) ≫ COAP_HEADER_TOKEN_LEN_POSITION;
       pk_code := b1;
       pk_mid := u16 ((b2 ≪ 8) .| b3) |} in
  if negb (pk_version coap_pkt =? 1) then Some (BAD_REQUEST_4_00, coap_pkt, data)
  else if COAP_TOKEN_LEN <? pk_token_len coap_pkt then Some (BAD_REQUEST_4_00, coap_pkt, data)
  else coap_parse_token_option coap_pkt data data_len COAP_HEADER_LEN.

(** ** Message IDs *)

(** The state [current_mid]; [oc_random_value] is what the product's source of
    randomness gave. *)
Definition coap_init_connection (oc_random_value : Z) : Z := u16 oc_random_value.
Definition coap_get_mid (current_mid : Z) : Z * Z := (u16 (current_mid + 1), u16 (current_mid + 1)).

(** ** Fields of a packet *)

Section Fields.
Context {ptr : Type}.
Implicit Types (coap_pkt : coap_packet ptr).

Definition coap_set_status_code coap_pkt (code : Z) : Z * coap_packet ptr :=
  if code <=? 0xFF then (1, {| coap_pkt with pk_code := u8 code |}) else (0, coap_pkt).

Definition coap_set_token coap_pkt (token : list Z) (token_len : Z) : option (Z * coap_packet ptr) :=
  let coap_pkt : coap_packet ptr := {| coap_pkt with pk_token_len := u8 (if COAP_TOKEN_LEN <? token_len then COAP_TOKEN_LEN else token_len) |} in
  src ← slice token 0 (Z.to_nat (pk_token_len coap_pkt));
  dst ← memcpy_at (pk_token coap_pkt) 0 src;
  Some (pk_token_len coap_pkt, {| coap_pkt with pk_token := dst |}).

(** Gives 0 and no format if the option is not set. *)
Definition coap_get_header_content_format coap_pkt : option (Z * option Z) :=
  set ← IS_OPTION coap_pkt COAP_OPTION_CONTENT_FORMAT;
  Some (if (set : bool) then (1, Some (pk_content_format coap_pkt)) else (0, None)).

Definition coap_set_header_content_format coap_pkt (format : Z) : option (Z * coap_packet ptr) :=
  coap_pkt ← SET_OPTION {| coap_pkt with pk_content_format := u16 format |} COAP_OPTION_CONTENT_FORMAT;
  Some (1, coap_pkt).

(** The pointer is left alone ([None]) if the option is not set. *)
Definition coap_get_header_uri_path coap_pkt : option (Z * option (option ptr)) :=
  set ← IS_OPTION coap_pkt COAP_OPTION_URI_PATH;
  Some (if (set : bool) then (pk_uri_path_len coap_pkt, Some (pk_uri_path coap_pkt)) else (0, None)).

Definition coap_get_header_uri_query coap_pkt : option (Z * option (option ptr)) :=
  set ← IS_OPTION coap_pkt COAP_OPTION_URI_QUERY;
  Some (if (set : bool) then (pk_uri_query_len coap_pkt, Some (pk_uri_query coap_pkt)) else (0, None)).

Definition coap_get_payload coap_pkt : Z * option ptr :=
  match pk_payload coap_pkt with
  | Some payload => (pk_payload_len coap_pkt, Some payload)
  | None => (0, None)
  end.

Definition coap_set_payload coap_pkt (payload : option ptr) (length : Z) : Z * coap_packet ptr :=
  let len := u16 (if NEXUS_CHANNEL_MAX_CBOR_PAYLOAD_SIZE <? length then NEXUS_CHANNEL_MAX_CBOR_PAYLOAD_SIZE else length) in
  (len, {| coap_pkt with pk_payload := payload; pk_payload_len := len |}).
End Fields.

(** [path] is the memory from the pointer on; leading slashes are skipped. *)
Fixpoint skip_slashes (path : list Z) (path_len : Z) : option (list Z * Z) :=
  match path with
  | c :: rest => if c =? slash then skip_slashes rest (u64 (path_len - 1)) else Some (path, path_len)
  | [] => None
  end.

Definition coap_set_header_uri_path (coap_pkt : coap_packet coap_ptr) (path : list Z) (path_len : Z)
    : option (Z * coap_packet coap_ptr) :=
  '(path, path_len) ← skip_slashes path path_len;
  coap_pkt ← SET_OPTION {| coap_pkt with pk_uri_path := Some (ptr_memory path); pk_uri_path_len := path_len |} COAP_OPTION_URI_PATH;
  Some (pk_uri_path_len coap_pkt, coap_pkt).

(** [strlen]: the bytes before the first zero. *)
Fixpoint c_strlen (s : list Z) : option Z :=
  match s with
  | c :: rest => if c =? 0 then Some 0 else n ← c_strlen rest; Some (n + 1)
  | [] => None
  end.

Fixpoint skip_questions (query : list Z) : option (list Z) :=
  match query with
  | c :: rest => if c =? question then skip_questions rest else Some query
  | [] => None
  end.

Definition coap_set_header_uri_query (coap_pkt : coap_packet coap_ptr) (query : list Z) : option (Z * coap_packet coap_ptr) :=
  query ← skip_questions query;
  len ← c_strlen query;
  coap_pkt ← SET_OPTION {| coap_pkt with pk_uri_query := Some (ptr_memory query); pk_uri_query_len := len |} COAP_OPTION_URI_QUERY;
  Some (pk_uri_query_len coap_pkt, coap_pkt).
