(* ===== verification/CoapSpec.v ===== *)
(** * CoAP messages: the bytes of options, and what is written

    [encode_options] gives the bytes of a list of options, numbers with their
    values, as RFC 7252 lays them out; writing a packet puts the bytes of its
    options into the buffer, or counts them. *)

From S2P Require Import Prelude Check Product DesktopProduct Channel ChannelCose ChannelSm Coap.
Local Open Scope Z_scope.
Local Open Scope c_scope.

Abbreviation zlen l := (Z.of_nat (@length Z l)).

(** ** Bytes put into a buffer *)

Definition room (buffer : out_buffer) (i n : Z) : Prop :=
  match buffer with Some b => i + n ≤ zlen b | None => True end.

Definition blit (buffer : out_buffer) (i : Z) (bs : list Z) : out_buffer :=
  (λ b, take (Z.to_nat i) b ++ bs ++ drop (Z.to_nat i + length bs) b) <$> buffer.

Lemma blit_length b i bs :
  0 ≤ i → i + zlen bs ≤ zlen b → length (take (Z.to_nat i) b ++ bs ++ drop (Z.to_nat i + length bs) b) = length b.
Proof. intros. rewrite !length_app, length_take, length_drop. lia. Qed.

Lemma room_blit buffer i bs k n : 0 ≤ i → room buffer i (zlen bs) → room (blit buffer i bs) k n ↔ room buffer k n.
Proof. destruct buffer as [b|]; [|done]. cbn. intros. by rewrite blit_length. Qed.

Lemma room_le buffer i n k m : room buffer i n → k + m ≤ i + n → room buffer k m.
Proof. destruct buffer; cbn; [lia|done]. Qed.

(** Side conditions on positions and room. *)
Ltac roomy := cbn [app] in *; rewrite ?length_app in *; cbn [length] in *; first
  [lia | match goal with H : room _ _ _ |- _ => eapply room_le; [exact H|lia] end | rewrite room_blit by roomy; roomy].

Lemma blit_nil buffer i : 0 ≤ i → blit buffer i [] = buffer.
Proof. destruct buffer as [b|]; [|done]. cbn. intros. by rewrite Nat.add_0_r, take_drop. Qed.

Lemma blit_blit buffer i k x y :
  0 ≤ i → k = i + zlen x → room buffer i (zlen x + zlen y) → blit (blit buffer i x) k y = blit buffer i (x ++ y).
Proof.
  intros Hi ->. destruct buffer as [b|]; [|done]. cbn. intros Hr. f_equal.
  replace (Z.to_nat (i + zlen x)) with (Z.to_nat i + length x)%nat by lia.
  assert (Hl : length (take (Z.to_nat i) b ++ x) = (Z.to_nat i + length x)%nat) by (rewrite length_app, length_take; lia).
  rewrite (app_assoc (take _ b) x), (take_app_length' _ _ _ (eq_sym Hl)), (drop_app_add' _ _ _ _ (eq_sym Hl)).
  rewrite drop_drop, length_app, <- !app_assoc. do 4 f_equal. lia.
Qed.

Lemma put_at buffer i v : 0 ≤ i → room buffer i 1 → put buffer i v = Some (blit buffer i [v]).
Proof.
  destruct buffer as [b|]; [|done]. cbn. intros. rewrite aset_in by lia. cbn. do 2 f_equal.
  rewrite insert_take_drop by lia. by rewrite Nat.add_1_r.
Qed.

Lemma put_bytes_at buffer i bs : 0 ≤ i → room buffer i (zlen bs) → put_bytes buffer i bs = Some (blit buffer i bs).
Proof. destruct buffer as [b|]; [|done]. cbn. intros. by rewrite memcpy_at_in by lia. Qed.

(** ** The bytes of an option *)

Definition option_extension (v : Z) : list Z :=
  if 268 <? v then [((v - 269) ≫ 8) .& 0xff; (v - 269) .& 0xff] else if 12 <? v then [u8 (v - 13)] else [].

Definition option_head (delta len : Z) : list Z :=
  u8 ((coap_option_nibble delta ≪ 4) .| coap_option_nibble len) :: option_extension delta ++ option_extension len.

Fixpoint encode_options (current_number : Z) (opts : list (Z * list Z)) : list Z :=
  match opts with
  | [] => []
  | (number, value) :: opts => option_head (number - current_number) (zlen value) ++ value ++ encode_options number opts
  end.

Lemma encode_options_app cur a n v b :
  encode_options cur (a ++ (n, v) :: b) = encode_options cur (a ++ [(n, v)]) ++ encode_options n b.
Proof.
  revert cur. induction a as [|[n' v'] a IH]; intros cur; cbn [app encode_options]; [by rewrite app_nil_r, <- !app_assoc|].
  by rewrite IH, <- !app_assoc.
Qed.

Lemma put_extended_at v base written buffer :
  0 ≤ base + written → room buffer (base + written + 1) (zlen (option_extension v)) →
  put_extended v base written buffer =
  Some (written + zlen (option_extension v), blit buffer (base + written + 1) (option_extension v)).
Proof.
  intros Hb Hr. unfold put_extended. revert Hr. unfold option_extension.
  destruct (268 <? v); [|destruct (12 <? v)]; cbn [length]; intros Hr.
  - rewrite put_at by roomy. cbn [mbind option_bind]. rewrite put_at by roomy. cbn [mbind option_bind].
    rewrite blit_blit by roomy. f_equal; f_equal; try lia; f_equal; lia.
  - rewrite put_at by roomy. cbn [mbind option_bind]. f_equal; f_equal; try lia; f_equal; lia.
  - rewrite blit_nil by lia. do 2 f_equal. lia.
Qed.

Lemma set_option_header_at delta len base buffer :
  0 ≤ base → room buffer base (zlen (option_head delta len)) →
  coap_set_option_header delta len base buffer =
  Some (zlen (option_head delta len), blit buffer base (option_head delta len)).
Proof.
  intros Hb Hr. unfold coap_set_option_header. unfold option_head in *. cbn [length] in *. rewrite length_app in *.
  rewrite put_at by roomy. cbn [mbind option_bind]. rewrite put_extended_at by roomy.
  cbn [mbind option_bind]. rewrite blit_blit by roomy. rewrite put_extended_at by roomy.
  cbn [mbind option_bind]. rewrite blit_blit by roomy. cbn [app]. do 2 f_equal. lia.
Qed.

(** ** Integer options *)

(** The bytes of an integer, without leading zeros. *)
Definition int_bytes (v : Z) : list Z :=
  if v =? 0 then [] else if v <? 256 then rev (le_bytes 1 v) else if v <? 65536 then rev (le_bytes 2 v)
  else if v <? 16777216 then rev (le_bytes 3 v) else rev (le_bytes 4 v).

Lemma high_bits_zero v mask k :
  0 ≤ k ≤ 32 → mask = (Z.ones (32 - k)) ≪ k → is_u32 v → (mask .& v =? 0) = (v <? 2 ^ k).
Proof.
  intros Hk -> Hv. assert (Z.shiftl (Z.ones (32 - k)) k .& v = Z.shiftl (v ≫ k) k) as ->.
  { apply Z.bits_inj'. intros i Hi. rewrite Z.land_spec. destruct (Z.lt_ge_cases i k) as [Hlt|Hge].
    - by rewrite !Z.shiftl_spec_low.
    - rewrite !Z.shiftl_spec, Z.shiftr_spec by lia. replace (i - k + k) with i by lia. destruct (Z.lt_ge_cases i 32).
      + by rewrite Z.ones_spec_low by lia.
      + by rewrite (testbit_high v 32), andb_false_r by (lia || wrap). }
  rewrite Z.shiftl_mul_pow2, Z.shiftr_div_pow2 by lia. pose proof (Z.pow_pos_nonneg 2 k).
  destruct (Z.ltb_spec v (2 ^ k)).
  - rewrite Z.div_small by wrap. done.
  - apply Z.eqb_neq. assert (1 ≤ v / 2 ^ k) by (apply Z.div_le_lower_bound; lia). nia.
Qed.

Lemma serialize_int_option_at number cur base buffer v :
  0 ≤ base → 0 ≤ cur ≤ number → number < 65536 → is_u32 v → room buffer base (zlen (encode_options cur [(number, int_bytes v)])) →
  coap_serialize_int_option number cur base buffer v =
  Some (zlen (encode_options cur [(number, int_bytes v)]), blit buffer base (encode_options cur [(number, int_bytes v)])).
Proof.
  intros Hb Hc Hn Hv. cbn [encode_options]. rewrite app_nil_r. intros Hr. unfold coap_serialize_int_option.
  rewrite (high_bits_zero v 0xFF000000 24), (high_bits_zero v 0xFFFF0000 16), (high_bits_zero v 0xFFFFFF00 8),
    (high_bits_zero v 0xFFFFFFFF 0) by (lia || done).
  rewrite u32_small by wrap. change (2 ^ 24) with 16777216. change (2 ^ 16) with 65536. change (2 ^ 8) with 256. change (2 ^ 0) with 1.
  assert (Hs : ∀ k, 0 ≤ k → u8 (v ≫ k) = (v / 2 ^ k) mod 256) by (intros; unfold u8; by rewrite Z.shiftr_div_pow2).
  rewrite !Hs by lia. pow_const.
  unfold int_bytes in *.
  destruct (Z.eqb_spec v 0) as [->|]; [|destruct (Z.ltb_spec v 256); [|destruct (Z.ltb_spec v 65536); [|destruct (Z.ltb_spec v 16777216)]]];
    repeat match goal with |- context [?x <? ?y] =>
      let H := fresh in destruct (Z.ltb_spec x y) as [H|H]; try (exfalso; wrap) end;
    cbn [negb rev app le_bytes length] in *.
  all: match goal with |- context [coap_set_option_header ?d ?i] => let n := eval vm_compute in (Z.to_nat i) in change i with (Z.of_nat n) end.
  all: rewrite set_option_header_at by roomy; cbn [mbind option_bind]; rewrite ?app_nil_r.
  all: repeat (rewrite put_at by roomy; cbn [mbind option_bind]; rewrite blit_blit by roomy).
  all: rewrite <- ?app_assoc, ?Z.div_div by lia; cbn [app]; f_equal; f_equal; rewrite ?length_app; cbn [length]; lia || done.
Qed.

(** ** Array options *)

Fixpoint joined (sep : Z) (segs : list (list Z)) : list Z :=
  match segs with
  | [] => []
  | [s] => s
  | s :: segs => s ++ sep :: joined sep segs
  end.

Definition segs_ok (sep : Z) (segs : list (list Z)) : Prop := Forall (λ s, s ≠ [] ∧ Forall (λ c, c ≠ sep) s) segs.

Section Array.
Context (number : Z) (memory : out_buffer → list Z) (array : list Z) (sep : Z).

(** While a part is looked for and after its head is written, the rest of the
    array is behind the pointer as it was before.  [out]: the bytes written. *)
Fixpoint readable (buffer : out_buffer) (base : Z) (out : list Z) (start : nat) (cur : Z) (segs : list (list Z)) : Prop :=
  match segs with
  | [] => True
  | s :: segs =>
      let head := option_head (number - cur) (zlen s) in
      drop start (memory (blit buffer base out)) = drop start array ∧
      drop start (memory (blit buffer base (out ++ head))) = drop start array ∧
      readable buffer base (out ++ head ++ s) (start + length s + 1) number segs
  end.

Lemma split_scan n fuel cur base length j start i buffer :
  0 ≤ j → j + Z.of_nat n ≤ length → (∀ k, (k < n)%nat → ∃ c, memory buffer !! (Z.to_nat j + k)%nat = Some c ∧ c ≠ sep) →
  coap_split_loop number memory (n + fuel) cur base length sep j start i buffer =
  coap_split_loop number memory fuel cur base length sep (j + Z.of_nat n) start i buffer.
Proof.
  revert j. induction n as [|n IH]; intros j Hj Hl Hm; [by rewrite Z.add_0_r|]. cbn [Nat.add coap_split_loop].
  rewrite (proj2 (Z.leb_le _ _)) by lia. destruct (Hm 0%nat) as (c & Hc & Hs); [lia|]. rewrite Nat.add_0_r in Hc.
  rewrite aget_lookup, Hc by lia. cbn [mbind option_bind]. rewrite (proj2 (Z.eqb_neq _ _) Hs), (proj2 (Z.eqb_neq j length)) by lia.
  cbn [orb]. rewrite IH; [by replace (j + 1 + Z.of_nat n) with (j + Z.of_nat (S n)) by lia|lia|lia|].
  intros k Hk. destruct (Hm (S k)) as (c' & Hc' & Hs'); [lia|]. exists c'. split; [|done]. by replace (Z.to_nat (j + 1) + k)%nat with (Z.to_nat j + S k)%nat by lia.
Qed.

Lemma put_part_at cur base buffer start seg :
  0 ≤ base → 0 ≤ cur ≤ number → number < 65536 → room buffer base (zlen (encode_options cur [(number, seg)])) →
  slice (memory (blit buffer base (option_head (number - cur) (zlen seg)))) start (length seg) = Some seg →
  coap_put_part number memory cur base buffer (Z.of_nat start) (zlen seg) =
  Some (zlen (encode_options cur [(number, seg)]), blit buffer base (encode_options cur [(number, seg)])).
Proof.
  intros Hb Hc Hn. cbn [encode_options]. rewrite app_nil_r. intros Hr Hs. unfold coap_put_part. rewrite u32_small by wrap.
  rewrite set_option_header_at by roomy. cbn [mbind option_bind]. rewrite !Nat2Z.id.
  destruct (blit buffer base (option_head (number - cur) (zlen seg))) as [b|] eqn:E.
  - rewrite Hs. cbn [mbind option_bind]. rewrite <- E, put_bytes_at by roomy. cbn [mbind option_bind].
    rewrite blit_blit by roomy. by rewrite length_app, Nat2Z.inj_add.
  - destruct buffer; [done|]. by rewrite length_app, Nat2Z.inj_add.
Qed.

Lemma split_emit fuel cur base length start i buffer seg c :
  0 ≤ base + i → 0 ≤ cur ≤ number → number < 65536 → room buffer (base + i) (zlen (encode_options cur [(number, seg)])) →
  Z.of_nat (start + Datatypes.length seg) ≤ length → memory buffer !! (start + Datatypes.length seg)%nat = Some c →
  (c = sep ∨ Z.of_nat (start + Datatypes.length seg) = length) →
  slice (memory (blit buffer (base + i) (option_head (number - cur) (zlen seg)))) start (Datatypes.length seg) = Some seg →
  coap_split_loop number memory (S fuel) cur base length sep (Z.of_nat (start + Datatypes.length seg)) (Z.of_nat start) i buffer =
  coap_split_loop number memory fuel number base length sep (Z.of_nat (start + Datatypes.length seg) + 2)
    (Z.of_nat (start + Datatypes.length seg + 1)) (i + zlen (encode_options cur [(number, seg)]))
    (blit buffer (base + i) (encode_options cur [(number, seg)])).
Proof.
  intros Hb Hc Hn Hr Hl Hm Hs Hp. cbn [coap_split_loop]. rewrite (proj2 (Z.leb_le _ _)) by lia.
  rewrite aget_lookup, Nat2Z.id, Hm by lia. cbn [mbind option_bind].
  assert (((c =? sep) || (Z.of_nat (start + Datatypes.length seg) =? length)) = true) as ->.
  { apply orb_true_iff. rewrite !Z.eqb_eq. tauto. }
  replace (Z.of_nat (start + Datatypes.length seg) - Z.of_nat start) with (zlen seg) by lia.
  rewrite put_part_at by done. cbn [mbind option_bind]. f_equal; lia.
Qed.

Lemma split_end fuel cur base length j start i buffer :
  length + 1 < j → coap_split_loop number memory (S fuel) cur base length sep j start i buffer = Some (i, buffer).
Proof. intros. cbn [coap_split_loop]. by rewrite (proj2 (Z.leb_gt _ _)) by lia. Qed.

Lemma slice_drop (m : list Z) start s r : drop start m = s ++ r → s ≠ [] → slice m start (Datatypes.length s) = Some s.
Proof.
  intros Hd Hs. assert (Hl : Datatypes.length (drop start m) = (Datatypes.length s + Datatypes.length r)%nat) by (by rewrite Hd, length_app).
  rewrite length_drop in Hl. assert (0 < Datatypes.length s)%nat by (by destruct s; cbn; [|lia]).
  rewrite slice_in by lia. by rewrite Hd, take_app_length.
Qed.

(** One turn of the loop over parts: the part [s] from [start], whose first
    [skip] characters are not looked at. *)
Lemma split_turn buffer base length fuel cur start skip out s c rest :
  s ≠ [] → Forall (λ c, c ≠ sep) s → drop start array = s ++ c :: rest → (c = sep ∨ Z.of_nat (start + Datatypes.length s) = length) →
  Z.of_nat (start + Datatypes.length s) ≤ length → (skip ≤ 1)%nat → 0 ≤ base → 0 ≤ cur ≤ number → number < 65536 →
  room buffer base (zlen (out ++ encode_options cur [(number, s)])) →
  drop start (memory (blit buffer base out)) = drop start array →
  drop start (memory (blit buffer base (out ++ option_head (number - cur) (zlen s)))) = drop start array →
  coap_split_loop number memory ((Datatypes.length s - skip) + S fuel) cur base length sep (Z.of_nat (start + skip)) (Z.of_nat start)
    (zlen out) (blit buffer base out) =
  coap_split_loop number memory fuel number base length sep (Z.of_nat (start + Datatypes.length s) + 2)
    (Z.of_nat (start + Datatypes.length s + 1)) (zlen (out ++ encode_options cur [(number, s)]))
    (blit buffer base (out ++ encode_options cur [(number, s)])).
Proof.
  intros Hne Hs Harr Hc Hlen Hskip Hb Hcur Hn Hr Hm1 Hm2. assert (0 < Datatypes.length s)%nat by (by destruct s; cbn; [|lia]).
  assert (Hlook : ∀ k, memory (blit buffer base out) !! (start + k)%nat = (s ++ c :: rest) !! k).
  { intros k. by rewrite <- lookup_drop, Hm1, Harr. }
  rewrite split_scan; [|lia|lia|]; cycle 1.
  { intros k Hk. destruct (lookup_lt_is_Some_2 s (skip + k)) as [x Hx]; [lia|]. exists x. rewrite Nat2Z.id, <- Nat.add_assoc, Hlook.
    split; [by apply lookup_app_l_Some|]. by apply (Forall_lookup_1 _ _ _ _ Hs Hx). }
  replace (Z.of_nat (start + skip) + Z.of_nat (Datatypes.length s - skip)) with (Z.of_nat (start + Datatypes.length s)) by lia.
  assert (Hblit : ∀ x, (zlen x ≤ zlen (encode_options cur [(number, s)])) → blit (blit buffer base out) (base + zlen out) x = blit buffer base (out ++ x)).
  { intros x Hx. apply blit_blit; [done|done|]. eapply room_le; [exact Hr|]. rewrite length_app. lia. }
  rewrite split_emit with (seg := s) (c := c); try done; try lia.
  - rewrite Hblit by lia. f_equal. rewrite length_app. lia.
  - rewrite room_blit; [eapply room_le; [exact Hr|]; rewrite length_app; lia|done|eapply room_le; [exact Hr|]; rewrite length_app; lia].
  - by rewrite Hlook, lookup_app_r, Nat.sub_diag by lia.
  - rewrite Hblit; [|cbn [encode_options]; rewrite !length_app; lia]. eapply slice_drop; [by rewrite Hm2|done].
Qed.

(** The loop writes the parts, from any of them on. *)
Lemma split_loop_at buffer base length more segs : ∀ fuel cur start skip out,
  segs ≠ [] → segs_ok sep segs → drop start array = joined sep segs ++ more → more ≠ [] →
  length = Z.of_nat (start + Datatypes.length (joined sep segs)) → (skip ≤ 1)%nat →
  (Datatypes.length (joined sep segs) + 3 ≤ fuel + skip)%nat →
  0 ≤ base → 0 ≤ cur ≤ number → number < 65536 → room buffer base (zlen (out ++ encode_options cur (map (number,.) segs))) →
  readable buffer base out start cur segs →
  coap_split_loop number memory fuel cur base length sep (Z.of_nat (start + skip)) (Z.of_nat start) (zlen out) (blit buffer base out) =
  Some (zlen (out ++ encode_options cur (map (number,.) segs)), blit buffer base (out ++ encode_options cur (map (number,.) segs))).
Proof.
  induction segs as [|s segs IH]; [done|]. intros fuel cur start skip out _ [[Hne Hs] Hsegs]%Forall_cons Harr Hmore Hlen Hskip Hfuel Hb Hc Hn Hr [Hm1 [Hm2 Hm3]].
  assert (0 < Datatypes.length s)%nat by (by destruct s; cbn; [|lia]).
  assert (He : out ++ encode_options cur (map (number,.) (s :: segs)) = (out ++ encode_options cur [(number, s)]) ++ encode_options number (map (number,.) segs)).
  { cbn [map encode_options]. by rewrite app_nil_r, <- !app_assoc. }
  rewrite He in *. assert (room buffer base (zlen (out ++ encode_options cur [(number, s)]))).
  { eapply room_le; [exact Hr|]. rewrite (length_app _ (encode_options number _)). lia. }
  destruct segs as [|s2 segs].
  - cbn [joined map encode_options] in *. rewrite app_nil_r in *. destruct more as [|c rest]; [done|].
    replace fuel with ((Datatypes.length s - skip) + S (S (fuel - (Datatypes.length s - skip) - 2)))%nat by lia.
    rewrite (split_turn _ _ _ _ _ _ _ _ s c rest) by (done || lia || (right; lia)). by rewrite split_end by lia.
  - change (joined sep (s :: s2 :: segs)) with (s ++ sep :: joined sep (s2 :: segs)) in *. rewrite length_app in Hlen, Hfuel. cbn [Datatypes.length] in Hlen, Hfuel.
    rewrite <- app_assoc in Harr. cbn [app] in Harr.
    replace fuel with ((Datatypes.length s - skip) + S (fuel - (Datatypes.length s - skip) - 1))%nat by lia.
    rewrite (split_turn _ _ _ _ _ _ _ _ s sep (joined sep (s2 :: segs) ++ more)) by (done || lia || by left).
    rewrite <- (IH (fuel - (Datatypes.length s - skip) - 1)%nat number (start + Datatypes.length s + 1)%nat 1%nat); try done; try lia.
    + f_equal; lia.
    + rewrite <- Nat.add_assoc, <- drop_drop, Harr, drop_app_add. done.
    + cbn [encode_options]. rewrite app_nil_r. done.
Qed.

Lemma serialize_array_at buffer base more segs cur :
  segs ≠ [] → segs_ok sep segs → array = joined sep segs ++ more → more ≠ [] → sep ≠ 0 →
  0 ≤ base → 0 ≤ cur ≤ number → number < 65536 → room buffer base (zlen (encode_options cur (map (number,.) segs))) →
  readable buffer base [] 0 cur segs →
  coap_serialize_array_option number memory cur base buffer (zlen (joined sep segs)) sep =
  Some (zlen (encode_options cur (map (number,.) segs)), blit buffer base (encode_options cur (map (number,.) segs))).
Proof.
  intros Hne Hs Harr Hmore Hsep Hb Hc Hn Hr Hm. unfold coap_serialize_array_option. rewrite (proj2 (Z.eqb_neq sep 0)) by done. cbn [negb].
  rewrite <- (blit_nil buffer base) at 1 by done.
  apply (split_loop_at buffer base _ more segs _ cur 0 0 []); try done; try lia.
Qed.

(** Memory that is not the message is always readable. *)
Lemma readable_elsewhere buffer base segs : ∀ out start cur, (∀ b, memory b = array) → readable buffer base out start cur segs.
Proof. induction segs as [|s segs IH]; intros out start cur Hm; [done|]. cbn [readable]. rewrite !Hm. auto. Qed.
End Array.

(** ** The options of a packet *)

(** A path and a query in parts, and a content format. *)
Record coap_view := mk_view {
  vw_path : list (list Z);
  vw_format : option Z;
  vw_query : list (list Z)
}.

Definition format_values (format : option Z) : list (list Z) := match format with Some f => [int_bytes f] | None => [] end.

Definition view_options (v : coap_view) : list (Z * list Z) :=
  map (COAP_OPTION_URI_PATH,.) (vw_path v) ++ map (COAP_OPTION_CONTENT_FORMAT,.) (format_values (vw_format v)) ++
  map (COAP_OPTION_URI_QUERY,.) (vw_query v).

Definition number_after (cur number : Z) (values : list (list Z)) : Z := if values is [] then cur else number.

Lemma encode_options_map cur number values opts :
  encode_options cur (map (number,.) values ++ opts) =
  encode_options cur (map (number,.) values) ++ encode_options (number_after cur number values) opts.
Proof.
  revert cur. induction values as [|v values IH]; intros cur; [done|]. cbn [map app encode_options number_after]. rewrite IH, <- !app_assoc.
  by destruct values.
Qed.

(** A string that is not in the message, with a byte behind it. *)
Definition string_of (p : option coap_ptr) (len sep : Z) (segs : list (list Z)) : Prop :=
  segs_ok sep segs ∧ len = zlen (joined sep segs) ∧ ∃ more, more ≠ [] ∧ p = Some (ptr_memory (joined sep segs ++ more)).

Definition not_empty {A} (l : list A) : bool := if l is [] then false else true.

Record describes (pk : coap_packet coap_ptr) (v : coap_view) : Prop := mk_describes {
  d_path : IS_OPTION pk COAP_OPTION_URI_PATH = Some (not_empty (vw_path v));
  d_path_string : vw_path v ≠ [] → string_of (pk_uri_path pk) (pk_uri_path_len pk) slash (vw_path v);
  d_format : IS_OPTION pk COAP_OPTION_CONTENT_FORMAT = Some (not_empty (format_values (vw_format v)));
  d_format_value : ∀ f, vw_format v = Some f → pk_content_format pk = f ∧ is_u16 f;
  d_query : IS_OPTION pk COAP_OPTION_URI_QUERY = Some (not_empty (vw_query v));
  d_query_string : vw_query v ≠ [] → string_of (pk_uri_query pk) (pk_uri_query_len pk) ampersand (vw_query v)
}.

Section Options.
Context (buffer : out_buffer) (base : Z) (Hbase : 0 ≤ base).

Lemma room_app out bs : room buffer base (zlen (out ++ bs)) → room (blit buffer base out) (base + zlen out) (zlen bs).
Proof. intros Hr. rewrite length_app in Hr. rewrite room_blit by roomy. roomy. Qed.

Lemma blit_app out bs : room buffer base (zlen (out ++ bs)) → blit (blit buffer base out) (base + zlen out) bs = blit buffer base (out ++ bs).
Proof. intros Hr. apply blit_blit; [done|done|]. roomy. Qed.

Lemma string_option_at (message : list Z) number cur sep p len segs out :
  segs ≠ [] → string_of p len sep segs → sep ≠ 0 → 0 ≤ cur ≤ number → number < 65536 →
  room buffer base (zlen (out ++ encode_options cur (map (number,.) segs))) →
  coap_serialize_array_option number (λ b, deref (default message b) p) cur (base + zlen out) (blit buffer base out) len sep =
  Some (zlen (encode_options cur (map (number,.) segs)), blit buffer base (out ++ encode_options cur (map (number,.) segs))).
Proof.
  intros Hne (Hok & -> & more & Hmore & ->) Hsep Hc Hn Hr. cbn [deref].
  rewrite (serialize_array_at _ _ (joined sep segs ++ more)) with (more := more); try done; try lia.
  - by rewrite blit_app.
  - by apply room_app.
  - by apply readable_elsewhere.
Qed.

Lemma int_option_at number cur v out :
  0 ≤ cur ≤ number → number < 65536 → is_u32 v → room buffer base (zlen (out ++ encode_options cur [(number, int_bytes v)])) →
  coap_serialize_int_option number cur (base + zlen out) (blit buffer base out) v =
  Some (zlen (encode_options cur [(number, int_bytes v)]), blit buffer base (out ++ encode_options cur [(number, int_bytes v)])).
Proof.
  intros Hc Hn Hv Hr. rewrite serialize_int_option_at; [|lia|done|done|done|by apply room_app]. by rewrite blit_app.
Qed.
End Options.

Lemma serialize_options_at pk v message base buffer :
  describes pk v → 0 ≤ base → room buffer base (zlen (encode_options 0 (view_options v))) →
  coap_serialize_options pk message base buffer =
  Some (zlen (encode_options 0 (view_options v)), blit buffer base (encode_options 0 (view_options v))).
Proof.
  intros [Hp Hps Hf Hfv Hq Hqs] Hb. unfold view_options. rewrite !encode_options_map, app_assoc. intros Hr.
  set (e1 := encode_options 0 (map _ (vw_path v))) in *. set (c1 := number_after 0 _ (vw_path v)) in *.
  set (e2 := encode_options _ (map _ (format_values (vw_format v)))) in *. set (c2 := number_after c1 _ _) in *.
  assert (Hc : 0 ≤ c1 ≤ 11) by (unfold c1; by destruct (vw_path v)).
  assert (Hc2 : 0 ≤ c2 ≤ 12) by (unfold c2; destruct (vw_format v); cbn; unfold COAP_OPTION_CONTENT_FORMAT; lia).
  assert (Hr2 : room buffer base (zlen (e1 ++ e2))) by roomy. assert (Hr1 : room buffer base (zlen ([] ++ e1))) by roomy.
  unfold coap_serialize_options. rewrite Hp. cbn [mbind option_bind].
  set (first := if not_empty (vw_path v) then _ else _). assert (first = Some (zlen e1, c1, blit buffer base e1)) as ->.
  { unfold first, c1. unfold e1 in *. destruct (vw_path v) as [|s segs] eqn:E; [cbn; by rewrite (blit_nil buffer base)|].
    pose proof (string_option_at buffer base Hb message COAP_OPTION_URI_PATH 0 slash (pk_uri_path pk) (pk_uri_path_len pk) (s :: segs) []) as H.
    rewrite blit_nil in H by done. cbn [not_empty]. setoid_rewrite H; try done. by apply Hps. }
  cbn [mbind option_bind]. rewrite Hf. cbn [mbind option_bind]. set (second := if not_empty (format_values _) then _ else _).
  assert (second = Some (zlen (e1 ++ e2), c2, blit buffer base (e1 ++ e2))) as ->.
  { unfold second, c2. destruct (vw_format v) as [f|] eqn:E; cbn [not_empty format_values]; [|unfold e2; cbn; by rewrite app_nil_r].
    destruct (Hfv f) as [-> Hu]; [done|]. rewrite int_option_at; [|done|unfold COAP_OPTION_CONTENT_FORMAT; lia|done|wrap|done].
    cbn [mbind option_bind]. by rewrite length_app, Nat2Z.inj_add. }
  cbn [mbind option_bind]. rewrite Hq. cbn [mbind option_bind]. unfold COAP_OPTION_URI_QUERY in *.
  destruct (vw_query v) as [|s segs] eqn:E; cbn [not_empty map encode_options]; [by rewrite app_nil_r|].
  rewrite (string_option_at buffer base Hb message 15 c2 ampersand _ _ (s :: segs)); [|done|by apply Hqs|done|lia|lia|done].
  cbn [mbind option_bind]. by rewrite (length_app (e1 ++ e2)), Nat2Z.inj_add.
Qed.

(** ** A whole message *)

Definition header_bytes (type token_len code mid : Z) : list Z :=
  [u8 (u8 (u8 (0xC0 .& (1 ≪ 6)) .| (0x30 .& (type ≪ 4))) .| (0x0F .& (token_len ≪ 0))); code; u8 (mid ≫ 8); u8 mid].

Definition payload_bytes (payload : list Z) : list Z := if payload is [] then [] else 0xFF :: payload.

Definition message_bytes (type token code mid : Z) (v : coap_view) (payload : list Z) : list Z :=
  header_bytes type 1 code mid ++ token :: encode_options 0 (view_options v) ++ payload_bytes payload.

(** The size of all that comes before the payload. *)
Definition message_header_size (v : coap_view) (payload : list Z) : Z :=
  5 + zlen (encode_options 0 (view_options v)) + (if payload is [] then 0 else 1).

(** The payload of a packet, in other memory or in the message behind the
    space for the header. *)
Definition carries (pk : coap_packet coap_ptr) (buffer payload : list Z) : Prop :=
  pk_payload_len pk = zlen payload ∧
  (payload ≠ [] → match pk_payload pk with
                  | Some (ptr_memory m) => ∃ more, m = payload ++ more
                  | Some (ptr_buffer off) => COAP_MAX_HEADER_SIZE ≤ off ∧ ∃ more, drop (Z.to_nat off) buffer = payload ++ more
                  | None => False
                  end).

Lemma message_size type token code mid v payload :
  zlen (message_bytes type token code mid v payload) = message_header_size v payload + zlen payload.
Proof.
  unfold message_bytes, message_header_size, payload_bytes. rewrite length_app. cbn [length header_bytes]. rewrite length_app.
  destruct payload; cbn [length]; lia.
Qed.

Lemma set_header_fields_at {ptr} (pk : coap_packet ptr) buffer :
  4 ≤ zlen buffer → pk_version pk = 1 →
  coap_udp_set_header_fields pk buffer = blit (Some buffer) 0 (header_bytes (pk_type pk) (pk_token_len pk) (pk_code pk) (pk_mid pk)).
Proof.
  intros Hl Hv. unfold coap_udp_set_header_fields. rewrite Hv. do 4 (destruct buffer as [|? buffer]; [cbn in Hl; lia|]).
  repeat (rewrite aset_in by (cbn [length insert list_insert]; rewrite ?length_insert; cbn [length] in *; lia); cbn [mbind option_bind insert list_insert Z.to_nat Pos.to_nat Pos.iter_op Nat.add]).
  done.
Qed.

Lemma aset_blit b i v : 0 ≤ i → i + 1 ≤ zlen b → aset b i v = blit (Some b) i [v].
Proof. intros. pose proof (put_at (Some b) i v) as H1. cbn [put room] in H1. destruct (aset b i v); cbn [mbind option_bind] in H1; naive_solver. Qed.

Lemma memcpy_blit b i bs : 0 ≤ i → i + zlen bs ≤ zlen b → memcpy_at b (Z.to_nat i) bs = blit (Some b) i bs.
Proof. intros. by rewrite memcpy_at_in by lia. Qed.

Lemma blit_drop b i bs b' off : blit (Some b) i bs = Some b' → 0 ≤ i → i + zlen bs ≤ Z.of_nat off → i + zlen bs ≤ zlen b → drop off b' = drop off b.
Proof.
  cbn. intros [= <-] Hi Hoff Hl. rewrite app_assoc, drop_app_ge by (rewrite length_app, length_take; lia).
  rewrite drop_drop, length_app, length_take. f_equal. lia.
Qed.

Lemma blit_room b i bs b' : 0 ≤ i → i + zlen bs ≤ zlen b → blit (Some b) i bs = Some b' → length b' = length b.
Proof. cbn. intros Hi Hl [= <-]. by apply blit_length. Qed.

Lemma blit_start b bs b' : blit (Some b) 0 bs = Some b' → take (length bs) b' = bs.
Proof. intros [= <-]. apply take_app_length. Qed.

Lemma carried pk buffer payload out written :
  carries pk buffer payload → payload ≠ [] → blit (Some buffer) 0 out = Some written → zlen out ≤ COAP_MAX_HEADER_SIZE → zlen out ≤ zlen buffer →
  slice (deref written (pk_payload pk)) 0 (length payload) = Some payload.
Proof.
  intros [_ Hp] Hne Hw Hout Hb. specialize (Hp Hne). destruct (pk_payload pk) as [[off|m]|]; [|destruct Hp as [more ->]|done]; cbn [deref].
  - destruct Hp as [Hoff [more Hm]]. apply (slice_drop _ 0 payload more); [|done]. rewrite drop_0.
    rewrite <- Hm. apply (blit_drop _ _ _ _ _ Hw); lia.
  - by apply (slice_drop _ 0 payload more).
Qed.

Lemma put_payload_at pk buffer payload out written :
  carries pk buffer payload → zlen (out ++ payload_bytes payload) ≤ zlen buffer →
  zlen out + (if payload is [] then 0 else 1) ≤ COAP_MAX_HEADER_SIZE → blit (Some buffer) 0 out = Some written →
  ∃ written', coap_put_payload pk written (zlen out) = Some (zlen out + (if payload is [] then 0 else 1), written') ∧
    blit (Some buffer) 0 (out ++ payload_bytes payload) = Some written'.
Proof.
  intros Hc Hroom Hhead Hw. pose proof (proj1 Hc) as Hlen. unfold coap_put_payload. rewrite Hlen. destruct payload as [|x payload'] eqn:E.
  - cbn [length payload_bytes]. rewrite app_nil_r. exists written. split; [cbn; do 2 f_equal; lia|done].
  - rewrite <- E in *. assert (Hp : payload_bytes payload = 0xFF :: payload) by (by rewrite E). rewrite Hp in *.
    rewrite length_app in Hroom. cbn [length] in Hroom. rewrite (proj2 (Z.ltb_lt _ _)) by (rewrite E; cbn [length]; lia).
    assert (Hwl : length written = length buffer) by (apply (blit_room _ _ _ _ (Z.le_refl 0)) in Hw; [done|lia]).
    rewrite aset_blit, <- Hw, blit_blit by (lia || cbn [room length]; lia).
    destruct (blit (Some buffer) 0 (out ++ [255])) as [b1|] eqn:E1; [|done]. cbn [mbind option_bind].
    rewrite Nat2Z.id, (carried pk buffer payload (out ++ [255]) b1 Hc); [|by rewrite E|done|rewrite length_app; cbn [length]; lia..].
    cbn [mbind option_bind]. rewrite memcpy_blit, <- E1, blit_blit;
      [|lia|rewrite length_app; cbn [length]; lia|cbn [room]; rewrite length_app; cbn [length]; lia|lia|].
    + rewrite <- app_assoc. cbn [app]. destruct (blit (Some buffer) 0 (out ++ 255 :: payload)) as [b2|] eqn:E2; [|done]. by exists b2.
    + apply (blit_room _ _ _ _ (Z.le_refl 0)) in E1; [|rewrite length_app; cbn [length]; lia]. lia.
Qed.

Lemma write_message_at pk v token buffer payload :
  pk_version pk = 1 → describes pk v → pk_token_len pk = 1 → pk_token pk = [token] → pk_code pk ≠ 0 → carries pk buffer payload →
  COAP_MAX_HEADER_SIZE + zlen payload ≤ zlen buffer → message_header_size v payload ≤ COAP_MAX_HEADER_SIZE →
  coap_write_message pk buffer =
  Some (message_header_size v payload + zlen payload, Some pk,
        blit (Some buffer) 0 (message_bytes (pk_type pk) token (pk_code pk) (pk_mid pk) v payload)).
Proof.
  intros Hv Hd Htl Ht Hcode Hc Hroom Hfit. pose proof Hfit as Hsize. unfold message_header_size in Hsize.
  assert (zlen (encode_options 0 (view_options v)) + 5 ≤ zlen buffer) by (unfold COAP_MAX_HEADER_SIZE in *; destruct payload; lia).
  unfold coap_write_message. rewrite set_header_fields_at by (done || lia). rewrite Htl.
  set (hdr := header_bytes _ _ _ _). destruct (blit (Some buffer) 0 hdr) as [b1|] eqn:E1; [|done].
  cbn [mbind option_bind]. rewrite (proj2 (Z.eqb_neq _ _) Hcode), Ht. change (aget [token] 0) with (Some token). cbn [mbind option_bind].
  assert (Hl1 : length b1 = length buffer) by (apply (blit_room _ _ _ _ (Z.le_refl 0)) in E1; [done|cbn; lia]).
  rewrite aset_blit, <- E1, blit_blit by (done || (unfold COAP_HEADER_LEN; cbn [room length hdr header_bytes] in *; lia)).
  destruct (blit (Some buffer) 0 (hdr ++ [token])) as [b2|] eqn:E2; [|done]. cbn [mbind option_bind].
  assert (Hl2 : length b2 = length buffer) by (apply (blit_room _ _ _ _ (Z.le_refl 0)) in E2; [done|cbn; lia]).
  rewrite (serialize_options_at _ v) by (done || (unfold COAP_HEADER_LEN; cbn [room]; lia)).
  rewrite <- E2, blit_blit by (done || (cbn [room length hdr header_bytes app]; lia)). cbn [mbind option_bind].
  set (out := (hdr ++ [token]) ++ encode_options 0 (view_options v)).
  assert (Hout : COAP_HEADER_LEN + 1 + zlen (encode_options 0 (view_options v)) = zlen out).
  { unfold out. rewrite !length_app. cbn [length hdr header_bytes]. unfold COAP_HEADER_LEN. lia. }
  assert (Hbytes : out ++ payload_bytes payload = message_bytes (pk_type pk) token (pk_code pk) (pk_mid pk) v payload).
  { unfold out, message_bytes. by rewrite <- !app_assoc. }
  unfold COAP_HEADER_LEN, COAP_MAX_HEADER_SIZE in *.
  rewrite Hout, (proj2 (Z.leb_le _ _)) by (destruct payload; lia).
  destruct (blit (Some buffer) 0 out) as [b3|] eqn:E3; [|done]. cbn [default from_option id].
  destruct (put_payload_at pk buffer payload out b3) as (b4 & -> & Hb4);
    [done|rewrite Hbytes, message_size; lia|unfold COAP_MAX_HEADER_SIZE; destruct payload; lia|done|].
  cbn [mbind option_bind]. by rewrite (proj1 Hc), <- Hbytes, Hb4, <- Hout.
Qed.

(** Writing a packet: nothing if what comes before the payload is too long,
    and else the bytes of the message. *)
Lemma serialize_message_at pk v token buffer payload :
  describes pk v → pk_token_len pk = 1 → pk_token pk = [token] → pk_code pk ≠ 0 → carries pk buffer payload →
  COAP_MAX_HEADER_SIZE + zlen payload ≤ zlen buffer →
  coap_serialize_message (Some pk) (Some buffer) =
  if COAP_MAX_HEADER_SIZE <? message_header_size v payload then Some (0, Some {| pk with pk_buffer := false; pk_version := 1 |}, Some buffer)
  else Some (message_header_size v payload + zlen payload, Some {| pk with pk_buffer := true; pk_version := 1 |},
             blit (Some buffer) 0 (message_bytes (pk_type pk) token (pk_code pk) (pk_mid pk) v payload)).
Proof.
  intros Hd Htl Ht Hcode Hc Hroom. unfold coap_serialize_message. set (pk1 := {| pk with pk_buffer := true; pk_version := 1 |}).
  assert (Hd1 : describes pk1 v) by (destruct Hd; by split).
  rewrite (serialize_options_at _ v) by done. cbn [mbind option_bind].
  assert (Hsize : (if 0 <? pk_payload_len pk1 then zlen (encode_options 0 (view_options v)) + COAP_PAYLOAD_MARKER_LEN
    else zlen (encode_options 0 (view_options v))) + pk_token_len pk1 + COAP_HEADER_LEN = message_header_size v payload).
  { cbn [pk1 pk_payload_len pk_token_len]. rewrite (proj1 Hc), Htl. unfold message_header_size, COAP_PAYLOAD_MARKER_LEN, COAP_HEADER_LEN.
    destruct payload; cbn [length]; (destruct (0 <? _) eqn:Hb; [apply Z.ltb_lt in Hb|apply Z.ltb_ge in Hb]; lia). }
  rewrite Hsize. destruct (Z.ltb_spec COAP_MAX_HEADER_SIZE (message_header_size v payload)) as [Hlong|Hfit]; [done|].
  by rewrite (write_message_at pk1 v token _ payload).
Qed.
