(* ===== verification/CoapParse.v ===== *)
(** * CoAP messages: parsing in place, and parsing what was written

    [decode_options] reads options off a list of bytes the way RFC 7252 lays
    them out, [interpret] says what the options mean; the parser, which works
    in place, gives the same. *)

From S2P Require Import Prelude Check Product DesktopProduct Channel ChannelCose ChannelSm Coap CoapSpec.
Local Open Scope Z_scope.
Local Open Scope c_scope.

(** ** The reference *)

(** How a message ends: after its options, with a payload, within the value
    of an option, or within the head of one. *)
Inductive coap_end :=
| end_options
| end_payload (payload : list Z)
| end_in_value (number : Z)
| end_in_head.

Definition decode_nibble (nibble : Z) (bs : list Z) : option (Z * list Z) :=
  if nibble =? 13 then match bs with b :: bs => Some (13 + b, bs) | [] => None end
  else if nibble =? 14 then match bs with b1 :: b2 :: bs => Some (269 + 256 * b1 + b2, bs) | _ => None end
  else Some (nibble, bs).

Fixpoint decode_options (fuel : nat) (number : Z) (bs : list Z) : list (Z * list Z) * coap_end :=
  match fuel, bs with
  | O, _ => ([], end_in_head)
  | _, [] => ([], end_options)
  | S fuel, b :: bs =>
      if b .& 0xF0 =? 0xF0 then ([], end_payload bs)
      else
        match decode_nibble (b ≫ 4) bs with
        | None => ([], end_in_head)
        | Some (delta, bs) =>
            match decode_nibble (b .& 0x0F) bs with
            | None => ([], end_in_head)
            | Some (len, bs) =>
                if zlen bs <? len then ([], end_in_value (number + delta))
                else
                  let '(opts, e) := decode_options fuel (number + delta) (drop (Z.to_nat len) bs) in
                  ((number + delta, take (Z.to_nat len) bs) :: opts, e)
            end
        end
  end.

(** What has been read: the options that are set, the content format, path and query. *)
Record reading := mk_reading {
  rd_flags : list Z;
  rd_format : Z;
  rd_path : list Z;
  rd_query : list Z
}.

Definition set_flag (flags : list Z) (n : Z) : list Z :=
  alter (λ f, u8 (f .| (1 ≪ (n mod OPTION_MAP_SIZE)))) (Z.to_nat (n / OPTION_MAP_SIZE)) flags.

Definition merge (sep : Z) (string value : list Z) : list Z := if string is [] then value else string ++ sep :: value.

Definition int_value (bs : list Z) : Z := foldl (λ v b, u32 (v ≪ 8) .| b) 0 bs.

(** The number of options that the ten bytes of flags have room for. *)
Definition max_options : Z := 80.

(** One option: a status, if it ends the parse. *)
Definition read_option (r : reading) (number : Z) (value : list Z) : option Z * reading :=
  let r := {| r with rd_flags := set_flag (rd_flags r) number |} in
  if number =? COAP_OPTION_CONTENT_FORMAT then
    let f := u16 (int_value value) in
    (if (f =? APPLICATION_VND_OCF_CBOR) || (f =? APPLICATION_COSE_MAC0) then None else Some UNSUPPORTED_MEDIA_TYPE_4_15,
     {| r with rd_format := f |})
  else if number =? COAP_OPTION_URI_PATH then (None, {| r with rd_path := merge slash (rd_path r) value |})
  else if number =? COAP_OPTION_URI_QUERY then (None, {| r with rd_query := merge ampersand (rd_query r) value |})
  else (if Z.odd number then Some BAD_OPTION_4_02 else None, r).

(** The status, what was read and the payload; [None] if an option has a
    number that the flags have no room for. *)
Fixpoint interpret (r : reading) (opts : list (Z * list Z)) (e : coap_end) : option (Z * reading * option (list Z)) :=
  match opts with
  | [] =>
      match e with
      | end_options => Some (COAP_NO_ERROR, r, None)
      | end_payload payload => Some (COAP_NO_ERROR, r, Some (take (Z.to_nat NEXUS_CHANNEL_MAX_CBOR_PAYLOAD_SIZE) payload))
      | end_in_value number =>
          if max_options <=? number then None else Some (BAD_OPTION_4_02, {| r with rd_flags := set_flag (rd_flags r) number |}, None)
      | end_in_head => None
      end
  | (number, value) :: opts =>
      if max_options <=? number then None
      else match read_option r number value with
           | (Some status, r) => Some (status, r, None)
           | (None, r) => interpret r opts e
           end
  end.

(** ** Strings in the message *)

(** [s] is at a pointer between [lo] and [hi], unless it is empty. *)
Definition string_in (data : list Z) (lo hi : nat) (p : option Z) (len : Z) (s : list Z) : Prop :=
  len = zlen s ∧ (s ≠ [] → ∃ d : nat, p = Some (Z.of_nat d) ∧ (lo ≤ d)%nat ∧ (d + length s ≤ hi)%nat ∧ take (length s) (drop d data) = s).

Lemma string_in_frame data data' lo hi p len s : take hi data' = take hi data → string_in data lo hi p len s → string_in data' lo hi p len s.
Proof.
  intros Ht [Hl Hs]. split; [done|]. intros Hne. destruct (Hs Hne) as (d & Hp & Hlo & Hhi & Hd). exists d. split; [done|]. split; [done|]. split; [done|].
  assert (Hin : ∀ m : list Z, take (length s) (drop d m) = take (length s) (drop d (take hi m))).
  { intros m. rewrite !take_drop_commute, take_take. do 2 f_equal. lia. }
  by rewrite Hin, Ht, <- Hin.
Qed.

Lemma string_in_mono data lo hi lo' hi' p len s : (lo' ≤ lo)%nat → (hi ≤ hi')%nat → string_in data lo hi p len s → string_in data lo' hi' p len s.
Proof. intros Hlo Hhi [Hl Hs]. split; [done|]. intros Hne. destruct (Hs Hne) as (d & Hp & ? & ? & Hd). exists d. split_and!; [done|lia|lia|done]. Qed.

Lemma string_in_nil data lo hi p : string_in data lo hi p 0 [].
Proof. by split. Qed.

Lemma blit_take b i bs b' off : blit (Some b) i bs = Some b' → Z.of_nat off ≤ i → i + zlen bs ≤ zlen b → take off b' = take off b.
Proof. cbn. intros [= <-] Hoff Hl. rewrite take_app_le by (rewrite length_take; lia). rewrite take_take. f_equal. lia. Qed.

Lemma blit_bytes b i bs b' : blit (Some b) i bs = Some b' → bytes_ok b → bytes_ok bs → bytes_ok b'.
Proof. cbn. intros [= <-] Hb Hbs. repeat apply Forall_app_2; [by apply Forall_take|done|by apply Forall_drop]. Qed.

(** A string in the buffer with bytes put behind it. *)
Lemma blit_behind b (d : nat) s bs b' :
  blit (Some b) (Z.of_nat d + zlen s) bs = Some b' → take (length s) (drop d b) = s → (d + length s + length bs ≤ length b)%nat →
  take (length s + length bs) (drop d b') = s ++ bs.
Proof.
  cbn. intros [= <-] Hs Hl. replace (Z.to_nat (Z.of_nat d + zlen s)) with (d + length s)%nat by lia.
  rewrite <- (take_take_drop b d (length s)), Hs, <- !app_assoc. rewrite drop_app_length' by (rewrite length_take; lia).
  rewrite app_assoc. apply take_app_length'. by rewrite length_app.
Qed.

(** Joining an option's value to a string before its head: nothing from the
    end of the value on, and nothing before the string's end, changes. *)
Lemma merge_at data lo hi p len s start n value sep :
  string_in data lo hi p len s → (lo ≤ hi)%nat → (hi < start)%nat → (start + n ≤ length data)%nat → value = take n (drop start data) →
  ∃ p' len' data', coap_merge_multi_option data p len (Z.of_nat start) (Z.of_nat n) sep = Some (p', len', data') ∧
    length data' = length data ∧ drop (start + n) data' = drop (start + n) data ∧ take lo data' = take lo data ∧
    (bytes_ok data → is_u8 sep → bytes_ok data') ∧ string_in data' lo (start + n) p' len' (merge sep s value).
Proof.
  intros [-> Hs] Hlo Hhi Hn ->. unfold coap_merge_multi_option. destruct (decide (s = [])) as [->|Hne].
  - cbn [length Z.of_nat Z.ltb Z.compare]. exists (Some (Z.of_nat start)), (Z.of_nat n), data. split_and!; try done. cbn [merge].
    split; [rewrite length_take, length_drop; lia|]. intros _. exists start. split_and!; [done|lia|rewrite length_take, length_drop; lia|].
    by rewrite length_take, length_drop, Nat.min_l by lia.
  - destruct (Hs Hne) as (d & -> & Hd & Hend & Hat). assert (0 < length s)%nat by (by destruct s; cbn; [|lia]).
    rewrite (proj2 (Z.ltb_lt _ _)) by lia. cbn [mbind option_bind].
    rewrite aset_blit by lia. destruct (blit (Some data) (Z.of_nat d + zlen s) [sep]) as [d1|] eqn:E1; [|done]. cbn [mbind option_bind].
    assert (Hl1 : length d1 = length data) by (apply blit_room in E1; cbn [length]; lia).
    rewrite slice_in by (rewrite !Nat2Z.id; lia). rewrite !Nat2Z.id. cbn [mbind option_bind].
    assert (Hv : take n (drop start d1) = take n (drop start data)) by (rewrite (blit_drop _ _ _ _ _ E1); cbn [length]; done || lia).
    rewrite Hv. set (value := take n (drop start data)). assert (Hvl : length value = n) by (unfold value; rewrite length_take, length_drop; lia).
    rewrite memcpy_blit, <- E1, blit_blit by (cbn [room length]; lia).
    destruct (blit (Some data) (Z.of_nat d + zlen s) ([sep] ++ value)) as [d2|] eqn:E2; [|done]. cbn [mbind option_bind].
    exists (Some (Z.of_nat d)), (zlen s + 1 + Z.of_nat n), d2. split; [done|].
    assert (Hl2 : length d2 = length data) by (apply blit_room in E2; cbn [length app]; lia).
    split; [done|]. split; [apply (blit_drop _ _ _ _ _ E2); cbn [length app]; lia|].
    split; [apply (blit_take _ _ _ _ _ E2); cbn [length app]; lia|].
    split; [intros Hb Hsep; apply (blit_bytes _ _ _ _ E2); [done|]; apply Forall_cons; split; [done|]; by apply Forall_take, Forall_drop|].
    assert (Hm : merge sep s value = s ++ sep :: value) by (unfold merge; by destruct s). rewrite Hm.
    split; [rewrite length_app; cbn [length]; lia|]. intros _. exists d. rewrite length_app. cbn [length]. split_and!; [done|lia|lia|].
    apply (blit_behind _ _ _ _ _ E2 Hat). cbn [length app]. lia.
Qed.

(** ** One turn of the loop *)

(** The bytes of the message from [p] on. *)
Definition rest (data : list Z) (n p : nat) : list Z := drop p (take n data).

Lemma rest_length data n p : (n ≤ length data)%nat → length (rest data n p) = (n - p)%nat.
Proof. intros. unfold rest. rewrite length_drop, length_take. lia. Qed.

Lemma rest_drop data n p k : drop k (rest data n p) = rest data n (p + k).
Proof. unfold rest. by rewrite drop_drop. Qed.

Lemma rest_take data n p : rest data n p = take (n - p) (drop p data).
Proof. unfold rest. destruct (decide (p ≤ n)%nat); [rewrite take_drop_commute; do 2 f_equal; lia|].
  rewrite !drop_ge by (rewrite length_take; lia). replace (n - p)%nat with 0%nat by lia. done. Qed.

Lemma rest_frame data data' n p : drop p data' = drop p data → rest data' n p = rest data n p.
Proof. intros H. by rewrite !rest_take, H. Qed.

Lemma rest_cons data n p b bs : rest data n p = b :: bs → aget data (Z.of_nat p) = Some b ∧ bs = rest data n (p + 1) ∧ (p < n)%nat.
Proof.
  intros Hr. assert (Hb : rest data n p !! 0%nat = Some b) by by rewrite Hr. unfold rest in Hb. rewrite lookup_drop, Nat.add_0_r in Hb.
  apply lookup_take_Some in Hb as [Hb Hp]. rewrite aget_lookup, Nat2Z.id by lia. split; [done|]. split; [|done].
  by rewrite <- rest_drop, Hr.
Qed.

Lemma extended_at data n p nibble v bs :
  bytes_ok data → decode_nibble nibble (rest data n p) = Some (v, bs) →
  ∃ p', coap_extended data (Z.of_nat p) nibble = Some (v, Z.of_nat p') ∧ bs = rest data n p' ∧ (p ≤ p')%nat ∧ ((p ≤ n)%nat → (p' ≤ n)%nat).
Proof.
  intros Hbytes. unfold decode_nibble, coap_extended. destruct (nibble =? 13) eqn:E1; [apply Z.eqb_eq in E1 as ->|destruct (nibble =? 14) eqn:E2; [apply Z.eqb_eq in E2 as ->|]].
  - destruct (rest data n p) as [|b bs'] eqn:E; [done|]. intros [= <- <-]. apply rest_cons in E as (Hb & -> & Hp).
    rewrite Hb. cbn [mbind option_bind]. exists (p + 1)%nat. split; [do 2 f_equal; lia|]. split; [done|lia].
  - destruct (rest data n p) as [|b1 [|b2 bs']] eqn:E; [done|done|]. intros [= <- <-]. apply rest_cons in E as (Hb1 & E & Hp).
    symmetry in E. apply rest_cons in E as (Hb2 & -> & Hp2). rewrite Hb1. cbn [mbind option_bind].
    replace (Z.of_nat p + 1) with (Z.of_nat (p + 1)) by lia. rewrite Hb2. cbn [mbind option_bind]. exists (p + 1 + 1)%nat.
    rewrite Z.shiftl_mul_pow2 by lia. change (2 ^ 8) with 256. split; [do 2 f_equal; lia|]. split; [done|lia].
  - intros [= <- <-]. exists p. split; [done|]. split; [done|lia].
Qed.

Lemma alter_is_insert {A} (f : A → A) (l : list A) i x : l !! i = Some x → alter f i l = <[i := f x]> l.
Proof. revert i. induction l as [|y l IH]; intros [|i] H; [done|done|by injection H as ->|]. cbn. f_equal. by apply IH. Qed.

Lemma set_option_at {ptr} (pk : coap_packet ptr) n :
  0 ≤ n → length (pk_options pk) = 10%nat →
  SET_OPTION pk n = if max_options <=? n then None else Some {| pk with pk_options := set_flag (pk_options pk) n |}.
Proof.
  intros Hn Hl. unfold SET_OPTION, max_options, set_flag. set (i := n / OPTION_MAP_SIZE). assert (Hi : i = n / 8) by done.
  destruct (Z.leb_spec 80 n).
  - unfold aget. rewrite decide_True by lia. by rewrite lookup_ge_None_2 by lia.
  - destruct (lookup_lt_is_Some_2 (pk_options pk) (Z.to_nat i)) as [f Hf]; [lia|]. rewrite aget_lookup, Hf by lia. cbn [mbind option_bind].
    rewrite aset_in by lia. cbn [mbind option_bind]. do 2 f_equal. by rewrite (alter_is_insert _ _ _ _ Hf).
Qed.

(** ** The value of an option *)

(** The packet and the message hold what was read up to [p]; an option with a
    lower number than that of the query comes before it. *)
Record holds_reading (pk : coap_packet_at) (data : list Z) (p : nat) (number : Z) (r : reading) : Prop := mk_holds_reading {
  hr_flags : pk_options pk = rd_flags r;
  hr_ten : length (rd_flags r) = 10%nat;
  hr_format : pk_content_format pk = rd_format r;
  hr_strings : ∃ mid, (mid ≤ p)%nat ∧ string_in data 0 mid (pk_uri_path pk) (pk_uri_path_len pk) (rd_path r) ∧
                 string_in data mid p (pk_uri_query pk) (pk_uri_query_len pk) (rd_query r);
  hr_query : number < COAP_OPTION_URI_QUERY → rd_query r = []
}.

Lemma int_option_value data start n :
  bytes_ok data → (start + n ≤ length data)%nat → coap_parse_int_option data (Z.of_nat start) (Z.of_nat n) = Some (int_value (take n (drop start data))).
Proof.
  intros Hbytes Hn. unfold coap_parse_int_option. rewrite Nat2Z.id.
  assert (Hloop : ∀ k i v, (i + k ≤ n)%nat →
    for_loop k (Z.of_nat i) (λ i v, b ← aget data (Z.of_nat start + i); Some (u32 (v ≪ 8) .| b)) v =
    Some (foldl (λ v b, u32 (v ≪ 8) .| b) v (take k (drop (start + i) data)))).
  { induction k as [|k IH]; intros i v Hk; [done|]. cbn [for_loop].
    destruct (lookup_lt_is_Some_2 data (start + i)) as [b Hb]; [lia|].
    replace (Z.of_nat start + Z.of_nat i) with (Z.of_nat (start + i)) by lia. rewrite aget_lookup, Nat2Z.id, Hb by lia. cbn [mbind option_bind].
    rewrite (drop_S _ _ _ Hb). cbn [take foldl]. replace (Z.of_nat i + 1) with (Z.of_nat (S i)) by lia. rewrite IH by lia.
    by rewrite Nat.add_succ_r. }
  etransitivity; [apply (Hloop n 0%nat 0); lia|by rewrite Nat.add_0_r].
Qed.

Lemma odd_land n : (n .& 1 =? 0) = negb (Z.odd n).
Proof. change 1 with (Z.ones 1) at 1. rewrite Z.land_ones by lia. change (2 ^ 1) with 2. rewrite Zmod_odd. by destruct (Z.odd n). Qed.

(** What the options leave alone. *)
Definition header_of {ptr} (pk : coap_packet ptr) :=
  (pk_buffer pk, pk_transport_type pk, pk_version pk, pk_type pk, pk_code pk, pk_mid pk, pk_token_len pk, pk_token pk).
Definition payload_of {ptr} (pk : coap_packet ptr) := (pk_payload pk, pk_payload_len pk).

Lemma parse_value_at pk data p number r option_number start n status r' :
  bytes_ok data → holds_reading pk data p number r → number ≤ option_number → (p < start)%nat → (start + n ≤ length data)%nat →
  read_option r option_number (take n (drop start data)) = (status, r') →
  ∃ pk' data', coap_parse_value {| pk with pk_options := set_flag (pk_options pk) option_number |} data option_number (Z.of_nat start) (Z.of_nat n) =
      Some (status, pk', data') ∧ header_of pk' = header_of pk ∧ payload_of pk' = payload_of pk ∧
    length data' = length data ∧ drop (start + n) data' = drop (start + n) data ∧ bytes_ok data' ∧
    holds_reading pk' data' (start + n) option_number r'.
Proof.
  intros Hbytes [Hfl Hten Hfo (mid & Hmid & Hpath & Hquery) Hq] Hle Hp Hn. set (value := take n (drop start data)).
  unfold read_option, coap_parse_value.
  assert (Hten' : length (set_flag (rd_flags r) option_number) = 10%nat) by (unfold set_flag; by rewrite length_alter).
  destruct (option_number =? COAP_OPTION_CONTENT_FORMAT) eqn:E1; [apply Z.eqb_eq in E1 as ->|destruct (option_number =? COAP_OPTION_URI_PATH) eqn:E2;
    [apply Z.eqb_eq in E2 as ->|destruct (option_number =? COAP_OPTION_URI_QUERY) eqn:E3; [apply Z.eqb_eq in E3 as ->|]]].
  - rewrite int_option_value by done. fold value. cbn [mbind option_bind pk_content_format]. intros [= <- <-].
    eexists _, data. split; [by destruct (_ =? APPLICATION_VND_OCF_CBOR), (_ =? APPLICATION_COSE_MAC0)|].
    split; [done|]. split; [done|]. split; [done|]. split; [done|]. split; [done|].
    split; cbn; [by rewrite Hfl|done|done| |].
    + exists mid. split; [lia|]. split; [done|]. apply (string_in_mono _ mid p); [lia|lia|done].
    + intros _. apply Hq. unfold COAP_OPTION_CONTENT_FORMAT, COAP_OPTION_URI_QUERY in *. lia.
  - destruct (merge_at data 0 mid _ _ _ start n value slash Hpath) as (p' & len' & data' & Hm & Hl & Hdrop & _ & Hb' & Hs'); [lia|lia|lia|done|].
    cbn [pk_uri_path pk_uri_path_len]. rewrite Hm. cbn [mbind option_bind]. intros [= <- <-].
    eexists _, data'. split; [done|]. split_and!; [done|done|done|done|by apply Hb'|].
    rewrite Hq in Hquery by (unfold COAP_OPTION_URI_PATH, COAP_OPTION_URI_QUERY in *; lia).
    split; cbn; [by rewrite Hfl|done|done| |].
    + exists (start + n)%nat. split; [lia|]. split; [done|]. rewrite Hq by (unfold COAP_OPTION_URI_PATH, COAP_OPTION_URI_QUERY in *; lia).
      by destruct Hquery as [-> _].
    + intros _. apply Hq. unfold COAP_OPTION_URI_PATH, COAP_OPTION_URI_QUERY in *. lia.
  - destruct (merge_at data mid p _ _ _ start n value ampersand Hquery) as (p' & len' & data' & Hm & Hl & Hdrop & Htake & Hb' & Hs'); [lia|lia|lia|done|].
    cbn [pk_uri_query pk_uri_query_len]. rewrite Hm. cbn [mbind option_bind]. intros [= <- <-].
    eexists _, data'. split; [done|]. split_and!; [done|done|done|done|by apply Hb'|].
    split; cbn; [by rewrite Hfl|done|done| |unfold COAP_OPTION_URI_QUERY; lia].
    exists mid. split; [lia|]. split; [|done]. by apply (string_in_frame data).
  - rewrite odd_land, negb_involutive. intros [= <- <-]. eexists _, data. split; [by destruct (Z.odd option_number)|].
    split_and!; [done|done|done|done|done|]. split; cbn; [by rewrite Hfl|done|done| |].
    + exists mid. split; [lia|]. split; [done|]. apply (string_in_mono _ mid p); [lia|lia|done].
    + intros Hlt. apply Hq. unfold COAP_OPTION_URI_QUERY in *. lia.
Qed.

(** ** The loop *)

(** What a parsed packet holds at the end: the reading, and the payload. *)
Record parsed (pk : coap_packet_at) (data : list Z) (r : reading) (payload : option (list Z)) : Prop := mk_parsed {
  pd_flags : pk_options pk = rd_flags r;
  pd_ten : length (rd_flags r) = 10%nat;
  pd_format : pk_content_format pk = rd_format r;
  pd_path : string_in data 0 (length data) (pk_uri_path pk) (pk_uri_path_len pk) (rd_path r);
  pd_query : string_in data 0 (length data) (pk_uri_query pk) (pk_uri_query_len pk) (rd_query r);
  pd_payload : match payload with
               | Some bs => pk_payload_len pk = zlen bs ∧ ∃ d : nat, pk_payload pk = Some (Z.of_nat d) ∧ take (length bs) (drop d data) = bs
               | None => payload_of pk = (None, 0)
               end
}.

Lemma reading_parsed pk data p number r :
  holds_reading pk data p number r → (p ≤ length data)%nat → payload_of pk = (None, 0) → parsed pk data r None.
Proof.
  intros [Hfl Hten Hfo (mid & Hmid & Hpath & Hquery) _] Hp Hpl. split; try done; by eapply string_in_mono; [..|done]; lia.
Qed.

Lemma holds_flag pk data p number r n :
  holds_reading pk data p number r →
  holds_reading {| pk with pk_options := set_flag (pk_options pk) n |} data p number {| r with rd_flags := set_flag (rd_flags r) n |}.
Proof. intros [Hfl Hten Hfo Hs Hq]. split; cbn; [by rewrite Hfl|unfold set_flag; by rewrite length_alter|done..]. Qed.

Lemma parse_payload_at pk data p number r n :
  bytes_ok data → (n < length data)%nat → (p < n)%nat → Z.of_nat n ≤ UINT16_MAX → holds_reading pk data p number r →
  pk_transport_type pk = COAP_TRANSPORT_UDP →
  ∃ pk' data', coap_parse_payload pk data (Z.of_nat n) (Z.of_nat p + 1) = Some (pk', data') ∧ header_of pk' = header_of pk ∧
    parsed pk' data' r (Some (take (Z.to_nat NEXUS_CHANNEL_MAX_CBOR_PAYLOAD_SIZE) (rest data n (p + 1)))).
Proof.
  intros Hbytes Hn Hp H16 [Hfl Hten Hfo (mid & Hmid & Hpath & Hquery) _] Hudp. unfold coap_parse_payload. rewrite Hudp.
  set (len := if _ <? _ then _ else _). set (bs := take _ (rest data n (p + 1))).
  pose proof (rest_length data n (p + 1) ltac:(lia)) as Hrl.
  assert (Hbl : length bs = Nat.min 98 (n - (p + 1))) by (unfold bs; by rewrite length_take, Hrl).
  assert (Hlen : len = zlen bs).
  { unfold len, NEXUS_CHANNEL_MAX_CBOR_PAYLOAD_SIZE. rewrite u32_small by wrap. destruct (Z.ltb_spec 98 (Z.of_nat n - (Z.of_nat p + 1))); lia. }
  assert (Hbs : bs = take (length bs) (drop (p + 1) data)).
  { rewrite Hbl. unfold bs, rest. rewrite !take_drop_commute, take_take. do 2 f_equal. change (Z.to_nat _) with 98%nat. lia. }
  rewrite Hlen. replace (Z.of_nat p + 1 + zlen bs) with (Z.of_nat (p + 1 + length bs)) by lia.
  rewrite aset_blit by lia. destruct (blit (Some data) (Z.of_nat (p + 1 + length bs)) [0]) as [d|] eqn:E; [|done]. cbn [mbind option_bind].
  assert (Hl : length d = length data) by (apply blit_room in E; cbn [length]; lia).
  assert (Htake : ∀ off, (off ≤ p + 1 + length bs)%nat → take off d = take off data) by (intros; apply (blit_take _ _ _ _ _ E); cbn [length]; lia).
  eexists _, d. split; [done|]. split; [unfold header_of; by rewrite Hudp|]. split; cbn; [done|done|done| | |].
  - eapply string_in_mono; [..|apply (string_in_frame data); [apply (Htake mid); lia|done]]; lia.
  - eapply string_in_mono; [..|apply (string_in_frame data); [apply (Htake p); lia|done]]; lia.
  - split; [done|]. exists (p + 1)%nat. split; [f_equal; lia|]. by rewrite Hbs at 2; rewrite !take_drop_commute, Htake by lia.
Qed.

Lemma decode_nibble_range nibble bs v bs' : bytes_ok bs → 0 ≤ nibble < 16 → decode_nibble nibble bs = Some (v, bs') → 0 ≤ v < 65805.
Proof.
  intros Hb Hn. unfold decode_nibble. destruct (nibble =? 13), (nibble =? 14), bs as [|b1 [|b2 bs]]; try done;
    intros [= <- _]; rewrite ?Forall_cons in Hb; wrap.
Qed.

Lemma nibbles_range b : is_u8 b → 0 ≤ b ≫ 4 < 16 ∧ 0 ≤ b .& 0x0F < 16.
Proof.
  intros Hb. split; [rewrite Z.shiftr_div_pow2 by lia; change (2 ^ 4) with 16; wrap|].
  change 0x0F with (Z.ones 4). rewrite Z.land_ones by lia. change (2 ^ 4) with 16. lia.
Qed.

(** A turn that reads a head: where the value starts, and its length. *)
Lemma head_at data n p b delta len bs1 bs2 :
  bytes_ok data → (n ≤ length data)%nat → rest data n p = b :: rest data n (p + 1) → (p < n)%nat → 
  decode_nibble (b ≫ 4) (rest data n (p + 1)) = Some (delta, bs1) → decode_nibble (b .& 0x0F) bs1 = Some (len, bs2) →
  ∃ p1 start, coap_extended data (Z.of_nat p + 1) (b ≫ 4) = Some (delta, Z.of_nat p1) ∧
    coap_extended data (Z.of_nat p1) (b .& 0x0F) = Some (len, Z.of_nat start) ∧ bs2 = rest data n start ∧
    (p < start ≤ n)%nat ∧ 0 ≤ delta < 65805 ∧ 0 ≤ len < 65805.
Proof.
  intros Hbytes Hn Hr Hp Hd1 Hd2. assert (Hrb : ∀ q, bytes_ok (rest data n q)) by (intros; by apply Forall_drop, Forall_take).
  pose proof (Hrb p) as Hb. rewrite Hr in Hb. apply Forall_cons in Hb as [Hb _]. destruct (nibbles_range b Hb) as [Hn1 Hn2].
  destruct (extended_at _ _ _ _ _ _ Hbytes Hd1) as (p1 & He1 & -> & Hp1 & Hp1n). destruct (extended_at _ _ _ _ _ _ Hbytes Hd2) as (start & He2 & -> & Hs & Hsn).
  exists p1, start. replace (Z.of_nat p + 1) with (Z.of_nat (p + 1)) by lia. split; [done|]. split; [done|]. split; [done|]. split; [lia|].
  split; [by apply (decode_nibble_range _ _ _ _ (Hrb _) Hn1 Hd1)|by apply (decode_nibble_range _ _ _ _ (Hrb _) Hn2 Hd2)].
Qed.

Definition parses_as (pk : coap_packet_at) (result : option (Z * coap_packet_at * list Z)) (expected : option (Z * reading * option (list Z))) : Prop :=
  match expected with
  | None => result = None
  | Some (status, r, payload) =>
      ∃ pk' data', result = Some (status, pk', data') ∧ header_of pk' = header_of pk ∧ parsed pk' data' r payload
  end.

Lemma parses_as_header pk pk' result expected : header_of pk' = header_of pk → parses_as pk' result expected → parses_as pk result expected.
Proof. intros Hh. unfold parses_as. destruct expected as [[[status r] payload]|]; [by setoid_rewrite Hh|done]. Qed.

(** A message that ends within the head of an option is not accepted. *)
Definition not_accepted (result : option (Z * coap_packet_at * list Z)) : Prop := ∀ pk data, result ≠ Some (COAP_NO_ERROR, pk, data).

Definition outcome (pk : coap_packet_at) (result : option (Z * coap_packet_at * list Z)) (r : reading) (opts : list (Z * list Z)) (e : coap_end) : Prop :=
  if e is end_in_head then not_accepted result else parses_as pk result (interpret r opts e).

Lemma read_option_status r number value status r' : read_option r number value = (Some status, r') → status ≠ COAP_NO_ERROR.
Proof. unfold read_option. repeat case_match; intros [= <- _]; done. Qed.

Lemma extended_moves data p nibble v p' : bytes_ok data → 0 ≤ nibble → coap_extended data p nibble = Some (v, p') → p ≤ p' ∧ 0 ≤ v.
Proof.
  intros Hb Hn. unfold coap_extended. destruct (nibble =? 13); [|destruct (nibble =? 14)].
  - destruct (aget data p) as [b|] eqn:E; [|done]. apply (Forall_aget _ _ _ _ Hb) in E. cbn. intros [= <- <-]. wrap.
  - destruct (aget data p) as [b|] eqn:E; [|done]. destruct (aget data (p + 1)) as [b2|] eqn:E2; [|done].
    apply (Forall_aget _ _ _ _ Hb) in E. apply (Forall_aget _ _ _ _ Hb) in E2. cbn. rewrite Z.shiftl_mul_pow2 by lia. intros [= <- <-]. wrap.
  - intros [= <- <-]. lia.
Qed.

Lemma extended_cut data n p nibble v p' :
  (n ≤ length data)%nat → (p ≤ n)%nat → decode_nibble nibble (rest data n p) = None → coap_extended data (Z.of_nat p) nibble = Some (v, p') → Z.of_nat n < p'.
Proof.
  intros Hn Hp. pose proof (rest_length data n p Hn) as Hl. unfold decode_nibble, coap_extended. destruct (nibble =? 13); [|destruct (nibble =? 14); [|done]].
  - destruct (rest data n p); [|done]. cbn in Hl. intros _. destruct (aget data _); [|done]. cbn. intros [= _ <-]. lia.
  - destruct (rest data n p) as [|? [|? ?]]; [| |done]; cbn in Hl; intros _; destruct (aget data _); try done; cbn; destruct (aget data _); try done; cbn; intros [= _ <-]; lia.
Qed.

(** A head that the message does not hold in full. *)
Lemma cut_turn data n p b number pk (k : Z → Z → Z → coap_packet_at → option (Z * coap_packet_at * list Z)) :
  bytes_ok data → (n ≤ length data)%nat → is_u8 b → (p < n)%nat →
  (decode_nibble (b ≫ 4) (rest data n (p + 1)) = None ∨
   ∃ delta bs, decode_nibble (b ≫ 4) (rest data n (p + 1)) = Some (delta, bs) ∧ decode_nibble (b .& 0x0F) bs = None) →
  not_accepted ('(option_delta, q) ← coap_extended data (Z.of_nat p + 1) (b ≫ 4);
    '(option_length, current_option) ← coap_extended data q (b .& 0x0F);
    let option_number := u32 (number + option_delta) in
    pk ← SET_OPTION pk option_number;
    if Z.of_nat n <? current_option + option_length then Some (BAD_OPTION_4_02, pk, data) else k option_number option_length current_option pk).
Proof.
  intros Hbytes Hn Hb Hp Hcut pk' data'. destruct (nibbles_range b Hb) as [Hn1 Hn2]. replace (Z.of_nat p + 1) with (Z.of_nat (p + 1)) by lia.
  destruct (coap_extended data (Z.of_nat (p + 1)) (b ≫ 4)) as [[delta q]|] eqn:E1; [|done]. cbn [mbind option_bind].
  destruct (coap_extended data q (b .& 0x0F)) as [[len current]|] eqn:E2; [|done]. cbn [mbind option_bind].
  destruct (extended_moves _ _ _ _ _ Hbytes (proj1 Hn2) E2) as [Hq Hlen].
  assert (Hp1 : (p + 1 ≤ n)%nat) by lia. assert (Z.of_nat n < current) as Hpast.
  { destruct Hcut as [Hc|(delta' & bs & Hc1 & Hc2)]; [pose proof (extended_cut _ _ _ _ _ _ Hn Hp1 Hc E1); lia|].
    destruct (extended_at _ _ _ _ _ _ Hbytes Hc1) as (q' & E1' & -> & Hq' & Hqn). rewrite E1 in E1'. injection E1' as -> ->.
    exact (extended_cut _ _ _ _ _ _ Hn (Hqn Hp1) Hc2 E2). }
  destruct (SET_OPTION _ _); [|done]. cbn [mbind option_bind]. by rewrite (proj2 (Z.ltb_lt _ _)) by lia.
Qed.

Lemma outcome_header pk pk' result r opts e : header_of pk' = header_of pk → outcome pk' result r opts e → outcome pk result r opts e.
Proof. intros Hh. unfold outcome. destruct e; try done; by apply parses_as_header. Qed.

Section Loop.
Context (n : nat) (H16 : Z.of_nat n ≤ UINT16_MAX).

(** The loop, when at most [fuel] bytes are left. *)
Definition loop_spec (fuel : nat) : Prop := ∀ fuel' pk data p number r opts e,
  bytes_ok data → (n < length data)%nat → (p ≤ length data)%nat → holds_reading pk data p number r → 0 ≤ number < max_options →
  pk_transport_type pk = COAP_TRANSPORT_UDP → payload_of pk = (None, 0) →
  (length (rest data n p) < fuel)%nat → (length (rest data n p) < fuel')%nat →
  decode_options fuel number (rest data n p) = (opts, e) →
  outcome pk (coap_parse_options fuel' pk data (Z.of_nat n) (Z.of_nat p) number) r opts e.

(** The turn behind the head of an option: its value starts at [start]. *)
Lemma value_turn fuel fuel' pk data p number option_number start len r opts e :
  loop_spec fuel → bytes_ok data → (n < length data)%nat → holds_reading pk data p number r →
  0 ≤ number ≤ option_number → option_number < max_options → pk_transport_type pk = COAP_TRANSPORT_UDP → payload_of pk = (None, 0) →
  (p < start ≤ n)%nat → 0 ≤ len ≤ Z.of_nat (n - start) → (n - start < fuel)%nat → (n - start < fuel')%nat →
  decode_options fuel option_number (drop (Z.to_nat len) (rest data n start)) = (opts, e) →
  outcome pk
    ('(ret, pk, data) ← coap_parse_value {| pk with pk_options := set_flag (pk_options pk) option_number |} data option_number (Z.of_nat start) len;
     match ret with
     | Some ret => Some (ret, pk, data)
     | None => coap_parse_options fuel' pk data (Z.of_nat n) (Z.of_nat start + len) option_number
     end)
    r ((option_number, take (Z.to_nat len) (rest data n start)) :: opts) e.
Proof.
  intros IH Hbytes Hn Hr Hle Hnear Hudp Hpay Hs Hin Hfuel Hfuel' Hdec. unfold outcome. cbn [interpret]. rewrite (proj2 (Z.leb_gt _ _)) by done.
  destruct (read_option r option_number _) as [status r'] eqn:Ev.
  assert (Hval : take (Z.to_nat len) (rest data n start) = take (Z.to_nat len) (drop start data)).
  { unfold rest. rewrite !take_drop_commute, take_take. do 2 f_equal. lia. }
  rewrite Hval in Ev.
  destruct (parse_value_at pk data p number r option_number start (Z.to_nat len) status r') as (pk' & data' & Hv & Hh & Hpay' & Hl & Hdrop & Hb' & Hr');
    [done|done|lia|lia|lia|done|]. rewrite Z2Nat.id in Hv by lia. rewrite Hv. cbn [mbind option_bind]. destruct status as [status|].
  - assert (parses_as pk (Some (status, pk', data')) (Some (status, r', None))).
    { exists pk', data'. split; [done|]. split; [done|]. apply (reading_parsed _ _ _ _ _ Hr'); [lia|congruence]. }
    destruct e; try done. intros pk2 data2 [= -> _ _]. by apply read_option_status in Ev.
  - apply (outcome_header _ pk'); [done|]. replace (Z.of_nat start + len) with (Z.of_nat (start + Z.to_nat len)) by lia.
    rewrite rest_drop, <- (rest_frame data data') in Hdec by done.
    apply IH; rewrite ?rest_length by lia; try done; try lia; [|congruence].
    unfold header_of in Hh. congruence.
Qed.

Lemma parse_options_at fuel : loop_spec fuel.
Proof.
  induction fuel as [|fuel IH]; intros fuel' pk data p number r opts e Hbytes Hn Hpl Hr Hnum Hudp Hpay Hfuel Hfuel' Hdec; [lia|].
  destruct fuel' as [|fuel']; [lia|]. cbn [coap_parse_options]. cbn [decode_options] in Hdec. pose proof (rest_length data n p) as Hrl.
  destruct (rest data n p) as [|b bs] eqn:Er.
  { injection Hdec as <- <-. cbn [length] in Hrl. rewrite (proj2 (Z.ltb_ge _ _)) by lia. cbn [interpret parses_as].
    exists pk, data. split; [done|]. split; [done|]. apply (reading_parsed _ _ p number); [done|lia|done]. }
  destruct (rest_cons _ _ _ _ _ Er) as (Hb & -> & Hp). rewrite (proj2 (Z.ltb_lt _ _)), Hb by lia. cbn [mbind option_bind].
  destruct (b .& 0xF0 =? 0xF0).
  { injection Hdec as <- <-. destruct (parse_payload_at pk data p number r n) as (pk' & data' & -> & Hh & Hpd); [done|lia|lia|lia|done|done|].
    cbn [mbind option_bind interpret parses_as]. by exists pk', data'. }
  pose (k option_number len current pk := '(ret, pk, data) ← coap_parse_value pk data option_number current len;
    if ret is Some ret then Some (ret, pk, data) else coap_parse_options fuel' pk data (Z.of_nat n) (current + len) option_number).
  destruct (decode_nibble (b ≫ 4) (rest data n (p + 1))) as [[delta bs1]|] eqn:Ed; [|injection Hdec as <- <-; apply (cut_turn data n p b number pk k); [done|lia|exact (Forall_aget _ _ _ _ Hbytes Hb)|done|by left]].
  destruct (decode_nibble (b .& 0x0F) bs1) as [[len bs2]|] eqn:El; [|injection Hdec as <- <-; apply (cut_turn data n p b number pk k); [done|lia|exact (Forall_aget _ _ _ _ Hbytes Hb)|done|right; by eexists _, _]].
  destruct (head_at _ _ _ _ _ _ _ _ Hbytes (Nat.lt_le_incl _ _ Hn) Er Hp Ed El) as (p1 & start & -> & He2 & -> & Hs & Hdr & Hlr).
  cbn [mbind option_bind]. rewrite He2. cbn [mbind option_bind]. unfold max_options in Hnum. rewrite u32_small by wrap.
  pose proof Hr as [Hfl Hten _ _ _]. rewrite set_option_at by (rewrite ?Hfl; done || lia).
  rewrite rest_length in Hdec by lia. cbn [length] in Hfuel, Hfuel', Hrl.
  destruct (Z.leb_spec max_options (number + delta)) as [Hfar|Hnear].
  { cbn [mbind option_bind]. destruct (Z.of_nat (n - start) <? len); [|destruct (decode_options _ _ _) as [opts' e']]; injection Hdec as <- <-;
      unfold outcome; cbn [interpret]; rewrite (proj2 (Z.leb_le _ _) Hfar); [done|by destruct e']. }
  cbn [mbind option_bind]. destruct (Z.ltb_spec (Z.of_nat (n - start)) len) as [Hcut|Hin].
  { injection Hdec as <- <-. rewrite (proj2 (Z.ltb_lt _ _)) by lia. unfold outcome. cbn [interpret]. rewrite (proj2 (Z.leb_gt _ _)) by done. cbn [parses_as].
    eexists _, data. split; [done|]. split; [done|]. apply (reading_parsed _ _ p number); [by apply holds_flag|lia|done]. }
  rewrite (proj2 (Z.ltb_ge _ _)) by lia. destruct (decode_options _ _ _) as [opts' e'] eqn:Ed' in Hdec. injection Hdec as <- <-.
  apply (value_turn fuel fuel' pk data p number); done || lia.
Qed.
End Loop.

(** ** The whole parse *)

Definition nothing_read : reading := mk_reading (replicate 10 0) 0 [] [].

Lemma parse_token_at pk data n tkl opts e :
  Z.of_nat n ≤ UINT16_MAX → bytes_ok data → (n < length data)%nat → (4 + tkl ≤ length data)%nat → (tkl ≤ 1)%nat →
  pk_transport_type pk = COAP_TRANSPORT_UDP → pk_token_len pk = Z.of_nat tkl → pk_token pk = [0] → pk_content_format pk = 0 →
  pk_uri_path_len pk = 0 → pk_uri_query_len pk = 0 → payload_of pk = (None, 0) →
  decode_options (S n) 0 (rest data n (4 + tkl)) = (opts, e) →
  outcome {| pk with pk_token := take tkl (drop 4 data) ++ drop tkl [0]; pk_options := replicate 10 0 |}
    (coap_parse_token_option pk data (Z.of_nat n) 4) nothing_read opts e.
Proof.
  intros H16 Hbytes Hn Htkl Ht Hudp Htl Htok Hcf Hpl Hql Hpay Hdec. unfold coap_parse_token_option. rewrite Htl, !Nat2Z.id, Htok.
  change (Z.to_nat 4) with 4%nat. rewrite slice_in by lia. cbn [mbind option_bind].
  assert (Hlen : length (take tkl (drop 4 data)) = tkl) by (rewrite length_take, length_drop; lia).
  rewrite memcpy_at_in by (rewrite Hlen; cbn [length]; lia). cbn [mbind option_bind take app pk_token_len]. rewrite Hlen, Nat.add_0_l.
  replace (4 + Z.of_nat tkl) with (Z.of_nat (4 + tkl)) by lia.
  eapply (parse_options_at n H16 (S n)); try done.
  - split; cbn; try done. exists 0%nat. split; [lia|]. rewrite Hpl, Hql. split; apply string_in_nil.
  - rewrite rest_length by lia. lia.
  - rewrite rest_length by lia. lia.
Qed.

Lemma header_byte b0 : is_u8 b0 →
  (COAP_HEADER_VERSION_MASK .& b0) ≫ COAP_HEADER_VERSION_POSITION = b0 / 64 ∧
  (COAP_HEADER_TYPE_MASK .& b0) ≫ COAP_HEADER_TYPE_POSITION = b0 / 16 mod 4 ∧
  (COAP_HEADER_TOKEN_LEN_MASK .& b0) ≫ COAP_HEADER_TOKEN_LEN_POSITION = b0 mod 16.
Proof.
  intros Hb. pose proof (byte_forallb (λ b, ((COAP_HEADER_VERSION_MASK .& b) ≫ 6 =? b / 64) && ((COAP_HEADER_TYPE_MASK .& b) ≫ 4 =? b / 16 mod 4)
    && ((COAP_HEADER_TOKEN_LEN_MASK .& b) ≫ 0 =? b mod 16)) eq_refl b0 Hb) as H. cbn beta in H.
  rewrite !andb_true_iff, !Z.eqb_eq in H. tauto.
Qed.

(** The fields of the fixed part of a message. *)
Definition fixed_header (pk : coap_packet_at) (type code mid token_len : Z) (token : list Z) : Prop :=
  pk_type pk = type ∧ pk_code pk = code ∧ pk_mid pk = mid ∧ pk_token_len pk = token_len ∧ pk_token pk = token.

(** A parse with the expected result, of a message with this fixed part. *)
Definition message_parses (result : option (Z * coap_packet_at * list Z)) (expected : option (Z * reading * option (list Z)))
    (type code mid token_len : Z) (token : list Z) : Prop :=
  match expected with
  | None => result = None
  | Some (status, r, payload) =>
      ∃ pk data', result = Some (status, pk, data') ∧ fixed_header pk type code mid token_len token ∧ parsed pk data' r payload
  end.

Lemma parses_message pk result expected type code mid token_len token :
  parses_as pk result expected → fixed_header pk type code mid token_len token → message_parses result expected type code mid token_len token.
Proof.
  intros Hp (<- & <- & <- & <- & <-). revert Hp. unfold parses_as, message_parses. destruct expected as [[[status r] payload]|]; [|done].
  intros (pk' & data' & -> & Hh & Hpd). exists pk', data'. split; [done|]. split; [|done].
  unfold header_of in Hh. injection Hh. intros. unfold fixed_header. split_and!; congruence.
Qed.

(** The parser reads what the layout of a message says: a version or a token
    length it does not know is refused, and else the options mean what
    [interpret] gives for them, or have a number behind the flags. *)
Lemma parse_message_at data n b0 code m1 m0 more :
  Z.of_nat n ≤ UINT16_MAX → bytes_ok data → (n < length data)%nat → data = b0 :: code :: m1 :: m0 :: more → (1 ≤ length more)%nat →
  if negb (b0 / 64 =? 1) || (1 <? b0 mod 16) then ∃ pk, coap_udp_parse_message data (Z.of_nat n) = Some (BAD_REQUEST_4_00, pk, data)
  else ∀ opts e, decode_options (S n) 0 (rest data n (4 + Z.to_nat (b0 mod 16))) = (opts, e) →
    if e is end_in_head then not_accepted (coap_udp_parse_message data (Z.of_nat n))
    else message_parses (coap_udp_parse_message data (Z.of_nat n)) (interpret nothing_read opts e) (b0 / 16 mod 4) code (256 * m1 + m0) (b0 mod 16)
      (take (Z.to_nat (b0 mod 16)) more ++ drop (Z.to_nat (b0 mod 16)) [0]).
Proof.
  intros H16 Hbytes Hn Hdata Hmore. pose proof Hbytes as Hall. rewrite Hdata, !Forall_cons in Hall. destruct Hall as (Hb0 & Hcode & Hm1 & Hm0 & _).
  destruct (header_byte b0 Hb0) as (Hv & Hty & Htl). unfold coap_udp_parse_message.
  assert (Hg : aget data 0 = Some b0 ∧ aget data 1 = Some code ∧ aget data 2 = Some m1 ∧ aget data 3 = Some m0) by (by rewrite Hdata).
  destruct Hg as (-> & -> & -> & ->). cbn [mbind option_bind]. cbn [pk_version pk_token_len]. rewrite Hv, Hty, Htl. unfold COAP_TOKEN_LEN.
  destruct (b0 / 64 =? 1); cbn [negb orb]; [|by eexists].
  destruct (Z.ltb_spec 1 (b0 mod 16)) as [Hlong|Hshort]; [by eexists|]. intros opts e Hdec.
  assert (Hmid : u16 ((m1 ≪ 8) .| m0) = 256 * m1 + m0).
  { rewrite Z.lor_comm, (lor_shiftl_add m0 m1 8) by wrap. change (2 ^ 8) with 256. rewrite u16_small by wrap. lia. }
  rewrite Hmid. assert (Ht : b0 mod 16 = Z.of_nat (Z.to_nat (b0 mod 16))) by lia. unfold COAP_HEADER_LEN.
  match goal with |- context [coap_parse_token_option ?pk] => pose proof (parse_token_at pk data n (Z.to_nat (b0 mod 16)) opts e H16 Hbytes Hn) as Hp end.
  specialize (Hp ltac:(rewrite Hdata; cbn [length]; lia) ltac:(lia) eq_refl Ht eq_refl eq_refl eq_refl eq_refl eq_refl Hdec).
  revert Hp. unfold outcome. destruct e; intros Hp; try exact Hp; (eapply parses_message; [exact Hp|]);
    rewrite Hdata; unfold fixed_header; cbn; by rewrite drop_0.
Qed.
