(* ===== verification/CoapRun.v ===== *)
(** * CoAP messages: properties

    Decoding gives back the options that were encoded; with that, a message
    that was written is parsed to the packet it was written from. *)

From S2P Require Import Prelude Check Product DesktopProduct Channel ChannelCose ChannelSm Coap CoapSpec CoapParse.
Local Open Scope Z_scope.
Local Open Scope c_scope.

(** ** Decoding what was encoded *)

Definition small_option (v : Z) : Prop := 0 ≤ v < 65805.

Lemma nibble_range v : 0 ≤ v → 0 ≤ coap_option_nibble v < 15.
Proof. intros. unfold coap_option_nibble. destruct (Z.ltb_spec v 13); [rewrite u8_small by wrap; lia|]. case_match; lia. Qed.

Lemma decode_nibble_extension v tail : small_option v → decode_nibble (coap_option_nibble v) (option_extension v ++ tail) = Some (v, tail).
Proof.
  intros Hv. unfold small_option in Hv. unfold coap_option_nibble, option_extension, decode_nibble. change (0xFF + 13) with 268.
  destruct (Z.ltb_spec v 13); [rewrite u8_small by wrap|destruct (Z.leb_spec v 268)].
  - rewrite (proj2 (Z.ltb_ge 268 v)), (proj2 (Z.ltb_ge 12 v)), !(proj2 (Z.eqb_neq _ _)) by lia. done.
  - rewrite (proj2 (Z.ltb_ge 268 v)), (proj2 (Z.ltb_lt 12 v)) by lia. cbn. rewrite u8_small by wrap. do 2 f_equal. lia.
  - rewrite (proj2 (Z.ltb_lt 268 v)) by lia. cbn -[Z.shiftr]. change 255 with (Z.ones 8). rewrite !Z.land_ones, Z.shiftr_div_pow2 by lia.
    change (2 ^ 8) with 256. do 2 f_equal. lia.
Qed.

Lemma head_byte nd nl : 0 ≤ nd < 15 → 0 ≤ nl < 15 →
  let b := u8 ((nd ≪ 4) .| nl) in (b .& 0xF0 =? 0xF0) = false ∧ b ≫ 4 = nd ∧ b .& 0x0F = nl.
Proof.
  intros Hd Hl b.
  pose proof (seqZ_forallb (λ nd, forallb (λ nl, let b := u8 ((nd ≪ 4) .| nl) in negb (b .& 0xF0 =? 0xF0) && (b ≫ 4 =? nd) && (b .& 0x0F =? nl))
    (seqZ 0 15)) 0 15 eq_refl nd Hd) as H. cbn beta in H. pose proof (seqZ_forallb _ 0 15 H nl Hl) as H2. cbn beta zeta in H2.
  rewrite !andb_true_iff, negb_true_iff, !Z.eqb_eq in H2. tauto.
Qed.

(** Options with ascending numbers from [cur] on. *)
Fixpoint options_ok (cur : Z) (opts : list (Z * list Z)) : Prop :=
  match opts with
  | [] => True
  | (n, v) :: opts => small_option (n - cur) ∧ small_option (zlen v) ∧ options_ok n opts
  end.

Lemma decode_encode opts : ∀ fuel cur tail tail_opts e,
  options_ok cur opts → (length opts + length tail < fuel)%nat →
  (∀ fuel cur', (length tail < fuel)%nat → decode_options fuel cur' tail = (tail_opts, e)) →
  decode_options fuel cur (encode_options cur opts ++ tail) = (opts ++ tail_opts, e).
Proof.
  induction opts as [|[n v] opts IH]; intros fuel cur tail tail_opts e Hok Hfuel Htail; [apply Htail; cbn in Hfuel; lia|].
  destruct Hok as (Hn & Hv & Hok). destruct fuel as [|fuel]; [lia|]. cbn [length] in Hfuel. cbn [encode_options].
  destruct (head_byte (coap_option_nibble (n - cur)) (coap_option_nibble (zlen v))) as (Hp & Hd & Hl);
    [apply nibble_range, Hn|apply nibble_range, Hv|].
  unfold option_head. rewrite <- !app_assoc. cbn [app decode_options]. rewrite Hp, Hd, <- !app_assoc.
  rewrite decode_nibble_extension by done. rewrite Hl, decode_nibble_extension by done.
  rewrite (proj2 (Z.ltb_ge _ _)) by (rewrite length_app; lia). rewrite Nat2Z.id, drop_app_length, take_app_length.
  replace (cur + (n - cur)) with n by lia. rewrite (IH fuel n tail tail_opts e) by (done || lia). done.
Qed.

Lemma decode_payload fuel cur payload : (length (payload_bytes payload) < fuel)%nat →
  decode_options fuel cur (payload_bytes payload) = ([], if payload is [] then end_options else end_payload payload).
Proof. intros Hf. destruct fuel as [|fuel]; [lia|]. by destruct payload. Qed.

(** ** Flags *)

Definition has_flag (flags : list Z) (n : Z) : bool :=
  negb (default 0 (flags !! Z.to_nat (n / OPTION_MAP_SIZE)) .& (1 ≪ (n mod OPTION_MAP_SIZE)) =? 0).

Lemma land_bit x k : 0 ≤ k → negb (x .& (1 ≪ k) =? 0) = Z.testbit x k.
Proof.
  intros Hk. rewrite Z.shiftl_1_l. destruct (Z.testbit x k) eqn:E.
  - apply negb_true_iff, Z.eqb_neq. intros H0. apply (f_equal (λ z, Z.testbit z k)) in H0.
    by rewrite Z.land_spec, E, Z.pow2_bits_true, Z.bits_0 in H0 by lia.
  - apply negb_false_iff, Z.eqb_eq, Z.bits_inj'. intros i Hi. rewrite Z.land_spec, Z.bits_0, Z.pow2_bits_eqb by lia.
    destruct (Z.eqb_spec k i) as [->|]; [by rewrite E|apply andb_false_r].
Qed.

Lemma has_set_flag flags n m :
  length flags = 10%nat → 0 ≤ n < max_options → 0 ≤ m < max_options → has_flag (set_flag flags n) m = (n =? m) || has_flag flags m.
Proof.
  unfold max_options. intros Hl Hn Hm. unfold has_flag, set_flag. unfold OPTION_MAP_SIZE. rewrite !land_bit by lia.
  destruct (decide (n / 8 = m / 8)) as [E|E].
  - rewrite E, list_lookup_alter, decide_True by done. destruct (lookup_lt_is_Some_2 flags (Z.to_nat (m / 8))) as [f Hf]; [lia|]. rewrite Hf. cbn [fmap option_fmap option_map default from_option id].
    unfold u8. change 256 with (2 ^ 8). rewrite (Z.mod_pow2_bits_low _ 8 (m mod 8)) by lia. rewrite Z.lor_spec, Z.shiftl_1_l, Z.pow2_bits_eqb, orb_comm by lia. f_equal.
    destruct (Z.eqb_spec (n mod 8) (m mod 8)), (Z.eqb_spec n m); try done; exfalso; lia.
  - rewrite list_lookup_alter, decide_False by lia. by rewrite (proj2 (Z.eqb_neq n m)) by congruence.
Qed.

Lemma is_option_flag {ptr} (pk : coap_packet ptr) n :
  length (pk_options pk) = 10%nat → 0 ≤ n < max_options → IS_OPTION pk n = Some (has_flag (pk_options pk) n).
Proof.
  unfold max_options. intros Hl Hn. unfold IS_OPTION, has_flag, OPTION_MAP_SIZE.
  destruct (lookup_lt_is_Some_2 (pk_options pk) (Z.to_nat (n / 8))) as [f Hf]; [lia|]. by rewrite aget_lookup, Hf by lia.
Qed.

(** ** What the options of a packet mean *)

Definition set_flags (flags : list Z) (n : Z) {A} (values : list A) : list Z := foldl (λ f _, set_flag f n) flags values.

Lemma set_flag_length flags n : length (set_flag flags n) = length flags.
Proof. unfold set_flag. by rewrite length_alter. Qed.

Lemma set_flags_length {A} n (values : list A) : ∀ flags, length (set_flags flags n values) = length flags.
Proof. induction values as [|x values IH]; intros flags; [done|]. unfold set_flags in *. cbn [foldl]. by rewrite IH, set_flag_length. Qed.

Lemma has_set_flags {A} n m (values : list A) : 0 ≤ n < max_options → 0 ≤ m < max_options → ∀ flags, length flags = 10%nat →
  has_flag (set_flags flags n values) m = ((n =? m) && not_empty values) || has_flag flags m.
Proof.
  intros Hn Hm. induction values as [|x values IH]; intros flags Hl; [by rewrite andb_false_r|]. unfold set_flags in *. cbn [foldl not_empty].
  rewrite IH, has_set_flag by (done || by rewrite set_flag_length). by destruct (n =? m), (not_empty values), (has_flag flags m).
Qed.

Lemma merge_joined sep segs : ∀ s, s ≠ [] → foldl (merge sep) s segs = joined sep (s :: segs).
Proof.
  induction segs as [|x segs IH]; intros s Hs; [done|]. cbn [foldl].
  assert (merge sep s x = s ++ sep :: x) as -> by by destruct s. rewrite IH by by destruct s.
  destruct segs; cbn [joined]; by rewrite <- ?app_assoc.
Qed.

Lemma merges_joined sep segs : segs_ok sep segs → foldl (merge sep) [] segs = joined sep segs.
Proof. destruct segs as [|s segs]; [done|]. intros [[Hs _] _]%Forall_cons. cbn [foldl merge]. by apply merge_joined. Qed.

Lemma interpret_path segs opts e : ∀ r, interpret r (map (COAP_OPTION_URI_PATH,.) segs ++ opts) e =
  interpret (mk_reading (set_flags (rd_flags r) COAP_OPTION_URI_PATH segs) (rd_format r) (foldl (merge slash) (rd_path r) segs) (rd_query r)) opts e.
Proof. induction segs as [|s segs IH]; intros r; [by destruct r|]. cbn [map app interpret]. cbn. by rewrite IH. Qed.

Lemma interpret_query segs opts e : ∀ r, interpret r (map (COAP_OPTION_URI_QUERY,.) segs ++ opts) e =
  interpret (mk_reading (set_flags (rd_flags r) COAP_OPTION_URI_QUERY segs) (rd_format r) (rd_path r) (foldl (merge ampersand) (rd_query r) segs)) opts e.
Proof. induction segs as [|s segs IH]; intros r; [by destruct r|]. cbn [map app interpret]. cbn. by rewrite IH. Qed.

Definition known_format (format : option Z) : Prop := format = None ∨ format = Some APPLICATION_VND_OCF_CBOR ∨ format = Some APPLICATION_COSE_MAC0.

Lemma interpret_format format opts e r : known_format format → interpret r (map (COAP_OPTION_CONTENT_FORMAT,.) (format_values format) ++ opts) e =
  interpret (mk_reading (set_flags (rd_flags r) COAP_OPTION_CONTENT_FORMAT (format_values format)) (default (rd_format r) format) (rd_path r) (rd_query r)) opts e.
Proof. intros [->|[->| ->]]; by destruct r. Qed.

(** The reading of a packet's options, in full. *)
Definition view_reading (v : coap_view) : reading :=
  mk_reading (set_flags (set_flags (set_flags (replicate 10 0) COAP_OPTION_URI_PATH (vw_path v)) COAP_OPTION_CONTENT_FORMAT (format_values (vw_format v)))
                COAP_OPTION_URI_QUERY (vw_query v))
    (default 0 (vw_format v)) (joined slash (vw_path v)) (joined ampersand (vw_query v)).

Definition view_ok (v : coap_view) : Prop :=
  segs_ok slash (vw_path v) ∧ segs_ok ampersand (vw_query v) ∧ known_format (vw_format v) ∧
  Forall bytes_ok (vw_path v) ∧ Forall bytes_ok (vw_query v).

Lemma interpret_view v e : view_ok v → interpret nothing_read (view_options v) e = interpret (view_reading v) [] e.
Proof.
  intros (Hp & Hq & Hf & _). unfold view_options. rewrite interpret_path, interpret_format by done.
  rewrite <- (app_nil_r (map _ (vw_query v))), interpret_query. cbn [rd_flags rd_format rd_path rd_query nothing_read].
  by rewrite !merges_joined.
Qed.

Lemma view_flags v n : 0 ≤ n < max_options → has_flag (rd_flags (view_reading v)) n =
  ((COAP_OPTION_URI_PATH =? n) && not_empty (vw_path v)) || ((COAP_OPTION_CONTENT_FORMAT =? n) && not_empty (format_values (vw_format v))) ||
  ((COAP_OPTION_URI_QUERY =? n) && not_empty (vw_query v)).
Proof.
  intros Hn. cbn [rd_flags view_reading]. rewrite !has_set_flags by (done || by rewrite ?set_flags_length).
  assert (has_flag (replicate 10 0) n = false) as ->.
  { apply negb_true_iff. pose proof (seqZ_forallb (λ n, negb (has_flag (replicate 10 0) n)) 0 80 eq_refl n Hn) as H. exact H. }
  rewrite orb_false_r. by rewrite orb_comm, (orb_comm (_ && not_empty (format_values _))).
Qed.

(** ** A written message is parsed to what it was written from *)

Lemma options_ok_map cur n values opts :
  0 ≤ cur ≤ n → n < 65536 → Forall (λ v : list Z, zlen v < 65805) values → options_ok (number_after cur n values) opts → options_ok cur (map (n,.) values ++ opts).
Proof.
  intros Hc Hn Hv. revert cur Hc. induction Hv as [|v values Hv _ IH]; intros cur Hc Ho; [done|]. cbn [map app options_ok]. unfold small_option.
  split; [lia|]. split; [lia|]. apply IH; [lia|]. by destruct values.
Qed.

Lemma encoded_value_le opts n v : ∀ cur, (n, v) ∈ opts → zlen v ≤ zlen (encode_options cur opts).
Proof.
  induction opts as [|[n' v'] opts IH]; intros cur; [by intros ?%elem_of_nil|]. cbn [encode_options]. rewrite !length_app.
  intros [[= -> ->]|Hin]%elem_of_cons; [lia|]. specialize (IH n' Hin). lia.
Qed.

Lemma encode_options_length opts : ∀ cur, (length opts ≤ length (encode_options cur opts))%nat.
Proof. induction opts as [|[n v] opts IH]; intros cur; [done|]. cbn [encode_options]. rewrite !length_app. specialize (IH n). cbn [length option_head]. lia. Qed.

Lemma int_bytes_ok v : bytes_ok (int_bytes v) ∧ (length (int_bytes v) ≤ 4)%nat.
Proof.
  unfold int_bytes. repeat case_match; (split; [|by rewrite ?length_rev, ?le_bytes_length; cbn; lia]); try by apply Forall_nil.
  all: apply Forall_rev, le_bytes_ok.
Qed.

Lemma option_head_bytes d l : bytes_ok (option_head d l).
Proof.
  assert (He : ∀ v, bytes_ok (option_extension v)).
  { intros v. unfold option_extension. assert (Hl : ∀ x, is_u8 (x .& 0xff)).
    { intros x. change 0xff with (Z.ones 8). rewrite Z.land_ones by lia. change (2 ^ 8) with 256. wrap. }
    repeat case_match; rewrite ?Forall_cons; auto with cint. }
  apply Forall_cons. split; [apply u8_range|]. by apply Forall_app_2.
Qed.

Lemma encode_options_bytes opts : ∀ cur, Forall (λ o, bytes_ok o.2) opts → bytes_ok (encode_options cur opts).
Proof.
  induction opts as [|[n v] opts IH]; intros cur; [by intros|]. intros [Hv Ho]%Forall_cons. cbn [encode_options].
  repeat apply Forall_app_2; [apply option_head_bytes|done|by apply IH].
Qed.

Lemma view_options_bytes v : view_ok v → Forall (λ o, bytes_ok o.2) (view_options v).
Proof.
  intros (_ & _ & _ & Hp & Hq). unfold view_options. repeat apply Forall_app_2; apply Forall_map; [done| |done].
  destruct (vw_format v); [|done]. apply Forall_singleton, int_bytes_ok.
Qed.

Lemma view_options_ok v n : zlen (encode_options 0 (view_options v)) ≤ n → n < 65536 → options_ok 0 (view_options v).
Proof.
  intros Hn Hlt.
  assert (Hall : Forall (λ o : Z * list Z, zlen o.2 < 65805) (view_options v)).
  { apply Forall_forall. intros [k x] Hin. cbn. pose proof (encoded_value_le _ _ _ 0 Hin). lia. }
  unfold view_options in *. rewrite !Forall_app, !Forall_map in Hall. destruct Hall as (Hp & Hf & Hq).
  apply options_ok_map; [unfold COAP_OPTION_URI_PATH; lia|done|done|].
  apply options_ok_map; [unfold COAP_OPTION_CONTENT_FORMAT; by destruct (vw_path v)|done|done|].
  rewrite <- (app_nil_r (map _ (vw_query v))). apply options_ok_map; [|done|done|done].
  unfold COAP_OPTION_URI_QUERY. by destruct (vw_format v), (vw_path v).
Qed.

(** A packet whose accessors give what [v] and [payload] say. *)
Definition text_at (data : list Z) (p : option Z) (s : list Z) : Prop :=
  s ≠ [] → ∃ d : nat, p = Some (Z.of_nat d) ∧ take (length s) (drop d data) = s.

Record received (pk : coap_packet_at) (data : list Z) (v : coap_view) (payload : list Z) : Prop := mk_received {
  rc_format : coap_get_header_content_format pk = Some (match vw_format v with Some f => (1, Some f) | None => (0, None) end);
  rc_path : coap_get_header_uri_path pk = Some (if not_empty (vw_path v) then (zlen (joined slash (vw_path v)), Some (pk_uri_path pk)) else (0, None));
  rc_path_text : text_at data (pk_uri_path pk) (joined slash (vw_path v));
  rc_query : coap_get_header_uri_query pk = Some (if not_empty (vw_query v) then (zlen (joined ampersand (vw_query v)), Some (pk_uri_query pk)) else (0, None));
  rc_query_text : text_at data (pk_uri_query pk) (joined ampersand (vw_query v));
  rc_payload : coap_get_payload pk = (zlen payload, pk_payload pk);
  rc_payload_text : text_at data (pk_payload pk) payload
}.

Lemma parsed_received pk data v payload :
  parsed pk data (view_reading v) (if payload is [] then None else Some payload) → received pk data v payload.
Proof.
  intros [Hfl Hten Hfo [Hpl Hp] [Hql Hq] Hpay]. cbn [rd_format rd_path rd_query view_reading] in *.
  assert (Hflag : ∀ n, 0 ≤ n < max_options → IS_OPTION pk n = Some (has_flag (rd_flags (view_reading v)) n)) by (intros n Hn; rewrite is_option_flag, Hfl; by rewrite ?Hfl).
  split.
  - unfold coap_get_header_content_format. rewrite Hflag, view_flags, Hfo by done. by destruct (vw_format v), (vw_path v), (vw_query v).
  - unfold coap_get_header_uri_path. rewrite Hflag, view_flags, Hpl by done. by destruct (vw_format v), (vw_path v), (vw_query v).
  - intros Hne. destruct (Hp Hne) as (d & -> & _ & _ & Hd). by exists d.
  - unfold coap_get_header_uri_query. rewrite Hflag, view_flags, Hql by done. by destruct (vw_format v), (vw_path v), (vw_query v).
  - intros Hne. destruct (Hq Hne) as (d & -> & _ & _ & Hd). by exists d.
  - unfold coap_get_payload. destruct payload; [by injection Hpay as -> _|]. destruct Hpay as (-> & d & -> & _). done.
  - intros Hne. destruct payload; [done|]. destruct Hpay as (_ & d & -> & Hd). by exists d.
Qed.

(** A packet that can be written: with a token of one byte, the options of
    [v] and [payload]. *)
Record writable (pk : coap_packet coap_ptr) (token : Z) (v : coap_view) (buffer payload : list Z) : Prop := mk_writable {
  wr_describes : describes pk v;
  wr_view : view_ok v;
  wr_token_len : pk_token_len pk = 1;
  wr_token : pk_token pk = [token];
  wr_token_byte : is_u8 token;
  wr_type : 0 ≤ pk_type pk < 4;
  wr_code : 0 < pk_code pk < 256;
  wr_mid : is_u16 (pk_mid pk);
  wr_carries : carries pk buffer payload;
  wr_payload : bytes_ok payload ∧ zlen payload ≤ NEXUS_CHANNEL_MAX_CBOR_PAYLOAD_SIZE;
  wr_room : COAP_MAX_HEADER_SIZE + zlen payload ≤ zlen buffer
}.

Lemma header_byte_0 type : 0 ≤ type < 4 → let b0 := u8 (u8 (u8 (0xC0 .& (1 ≪ 6)) .| (0x30 .& (type ≪ 4))) .| (0x0F .& (1 ≪ 0))) in
  b0 / 64 = 1 ∧ b0 / 16 mod 4 = type ∧ b0 mod 16 = 1.
Proof.
  intros Ht b0. pose proof (seqZ_forallb (λ t, let b := u8 (u8 (u8 (0xC0 .& (1 ≪ 6)) .| (0x30 .& (t ≪ 4))) .| (0x0F .& (1 ≪ 0))) in
    (b / 64 =? 1) && (b / 16 mod 4 =? t) && (b mod 16 =? 1)) 0 4 eq_refl type Ht) as H. cbn beta zeta in H.
  rewrite !andb_true_iff, !Z.eqb_eq in H. tauto.
Qed.

(** Parsing the bytes of a message, in an array with a byte behind it. *)
Lemma message_bytes_parsed type token code mid v payload data n :
  view_ok v → 0 ≤ type < 4 → is_u16 mid → zlen payload ≤ NEXUS_CHANNEL_MAX_CBOR_PAYLOAD_SIZE → message_header_size v payload ≤ COAP_MAX_HEADER_SIZE →
  n = length (message_bytes type token code mid v payload) → take n data = message_bytes type token code mid v payload → (n < length data)%nat → bytes_ok data →
  ∃ pk data', coap_udp_parse_message data (Z.of_nat n) = Some (COAP_NO_ERROR, pk, data') ∧
    fixed_header pk type code mid 1 [token] ∧ received pk data' v payload.
Proof.
  intros Hv Hty Hmid Hpl Hsize Hn Htake Hroom Hbytes. pose proof (message_size type token code mid v payload) as Hms. rewrite <- Hn in Hms.
  destruct (header_byte_0 type Hty) as (Hb1 & Hb2 & Hb3). unfold COAP_MAX_HEADER_SIZE, NEXUS_CHANNEL_MAX_CBOR_PAYLOAD_SIZE in *.
  assert (Hdata : data = message_bytes type token code mid v payload ++ drop n data) by (by rewrite <- Htake, take_drop).
  unfold message_bytes at 1, header_bytes in Hdata. cbn [app] in Hdata.
  pose proof (parse_message_at data n _ _ _ _ _ ltac:(wrap) Hbytes Hroom Hdata ltac:(cbn; lia)) as Hparse.
  rewrite Hb1, Hb3 in Hparse. cbn [Z.eqb Pos.eqb negb orb Z.ltb Z.compare Pos.compare Pos.compare_cont] in Hparse.
  assert (Hrest : rest data n (4 + Z.to_nat 1) = encode_options 0 (view_options v) ++ payload_bytes payload) by (unfold rest; by rewrite Htake).
  assert (Hsz : zlen (encode_options 0 (view_options v)) ≤ 22) by (unfold message_header_size in Hsize; destruct payload; lia).
  assert (Hdec : decode_options (S n) 0 (rest data n (4 + Z.to_nat 1)) = (view_options v, if payload is [] then end_options else end_payload payload)).
  { rewrite Hrest, (decode_encode _ _ _ _ [] (if payload is [] then end_options else end_payload payload));
      [by rewrite app_nil_r|by apply (view_options_ok v 22)| |intros; by apply decode_payload].
    pose proof (encode_options_length (view_options v) 0). apply (f_equal length) in Hrest. rewrite rest_length, length_app in Hrest by lia. lia. }
  specialize (Hparse _ _ Hdec).
  assert (Hnot : ∀ x y : Prop, (if (if payload is [] then end_options else end_payload payload) is end_in_head then x else y) → y) by (by destruct payload).
  apply Hnot in Hparse. rewrite interpret_view in Hparse by done.
  rewrite Hb2 in Hparse. assert (Hm : 256 * u8 (mid ≫ 8) + u8 mid = mid).
  { rewrite Z.shiftr_div_pow2 by lia. change (2 ^ 8) with 256. wrap. }
  rewrite Hm in Hparse. assert (He : interpret (view_reading v) [] (if payload is [] then end_options else end_payload payload) =
    Some (COAP_NO_ERROR, view_reading v, if payload is [] then None else Some payload)).
  { destruct payload; [done|]. cbn [interpret]. unfold NEXUS_CHANNEL_MAX_CBOR_PAYLOAD_SIZE. by rewrite take_ge by lia. }
  rewrite He in Hparse. destruct Hparse as (pk & data' & -> & Hfix & Hpd). exists pk, data'. split; [done|]. split; [exact Hfix|].
  by apply parsed_received.
Qed.

(** C6: A message that is written from a packet is parsed, in whatever array its
    bytes arrive, to a packet with the same type, code, ID, token, content
    format, path, query and payload; a packet with more than 22 bytes before
    its payload is not written. *)
Theorem coap_message_round_trip pk token v buffer payload :
  writable pk token v buffer payload →
  if COAP_MAX_HEADER_SIZE <? message_header_size v payload then
    ∃ pk', coap_serialize_message (Some pk) (Some buffer) = Some (0, Some pk', Some buffer)
  else ∃ (n : nat) pk' buf, coap_serialize_message (Some pk) (Some buffer) = Some (Z.of_nat n, Some pk', Some buf) ∧
    length buf = length buffer ∧
    ∀ data, take n data = take n buf → (n < length data)%nat → bytes_ok data →
      ∃ rpk data', coap_udp_parse_message data (Z.of_nat n) = Some (COAP_NO_ERROR, rpk, data') ∧
        fixed_header rpk (pk_type pk) (pk_code pk) (pk_mid pk) 1 [token] ∧ received rpk data' v payload.
Proof.
  intros [Hd Hv Htl Htok Htb Hty Hcode Hmid Hc [Hpb Hpl] Hroom].
  rewrite (serialize_message_at pk v token buffer payload) by (done || lia).
  destruct (Z.ltb_spec COAP_MAX_HEADER_SIZE (message_header_size v payload)) as [Hlong|Hfit]; [by eexists|].
  set (bs := message_bytes (pk_type pk) token (pk_code pk) (pk_mid pk) v payload). pose proof (message_size (pk_type pk) token (pk_code pk) (pk_mid pk) v payload) as Hms.
  fold bs in Hms. destruct (blit (Some buffer) 0 bs) as [buf|] eqn:E; [|done]. exists (length bs). eexists _, buf. rewrite <- Hms. split; [done|].
  split; [apply (blit_room buffer 0 bs buf); [done|lia|done]|]. intros data Hdata Hlen Hbytes.
  apply (message_bytes_parsed _ _ _ _ _ _ data (length bs)); try done.
  by rewrite Hdata, (blit_start _ _ _ E).
Qed.

(** ** Messages of any bytes *)

Definition values_of (number : Z) (opts : list (Z * list Z)) : list (list Z) := map snd (filter (λ o, o.1 = number) opts).

Lemma decode_nibble_rest nibble bs v bs' : bytes_ok bs → decode_nibble nibble bs = Some (v, bs') → bytes_ok bs'.
Proof. unfold decode_nibble. intros Hb. repeat case_match; simplify_eq; rewrite ?Forall_cons in Hb; intros [= <- <-]; tauto. Qed.

(** An option that the parser goes on after. *)
Definition acceptable (o : Z * list Z) : Prop :=
  0 ≤ o.1 < max_options ∧
  (o.1 = COAP_OPTION_URI_PATH ∨ o.1 = COAP_OPTION_URI_QUERY ∨ Z.even o.1 = true) ∧
  (o.1 = COAP_OPTION_CONTENT_FORMAT → known_format (Some (u16 (int_value o.2)))).

Lemma read_option_goes_on r number value r' : 0 ≤ number < max_options →
  read_option r number value = (None, r') →
  acceptable (number, value) ∧ rd_path r' = foldl (merge slash) (rd_path r) (values_of COAP_OPTION_URI_PATH [(number, value)]) ∧
  rd_query r' = foldl (merge ampersand) (rd_query r) (values_of COAP_OPTION_URI_QUERY [(number, value)]) ∧
  rd_format r' = foldl (λ _ v, u16 (int_value v)) (rd_format r) (values_of COAP_OPTION_CONTENT_FORMAT [(number, value)]).
Proof.
  intros Hn. unfold read_option, acceptable, values_of, known_format. rewrite !filter_cons. cbn [fst snd].
  destruct (Z.eqb_spec number COAP_OPTION_CONTENT_FORMAT) as [->|H1]; [|destruct (Z.eqb_spec number COAP_OPTION_URI_PATH) as [->|H2];
    [|destruct (Z.eqb_spec number COAP_OPTION_URI_QUERY) as [->|H3]]].
  - destruct (Z.eqb_spec (u16 (int_value value)) APPLICATION_VND_OCF_CBOR) as [E|E]; [|destruct (Z.eqb_spec (u16 (int_value value)) APPLICATION_COSE_MAC0) as [E2|E2]];
      cbn [orb]; intros [= <-]; (split; [split; [done|split; [by right; right|]]|done]); intros _; right; [left; by rewrite E|right; by rewrite E2].
  - intros [= <-]. split; [|done]. split; [done|]. split; [by left|done].
  - intros [= <-]. split; [|done]. split; [done|]. split; [by right; left|done].
  - destruct (Z.odd number) eqn:E; intros [= <-]. rewrite !decide_False by done. split; [|done]. split; [done|].
    split; [right; right; by rewrite <- Z.negb_odd, E|done].
Qed.

Lemma values_of_cons n o opts : values_of n (o :: opts) = values_of n [o] ++ values_of n opts.
Proof. unfold values_of. rewrite !filter_cons. by case_decide. Qed.

Lemma interpret_accepts opts e : ∀ r r' payload, Forall (λ o, 0 ≤ o.1) opts → interpret r opts e = Some (COAP_NO_ERROR, r', payload) →
  Forall acceptable opts ∧ (e = end_options ∧ payload = None ∨ ∃ bs, e = end_payload bs ∧ payload = Some (take 98 bs)) ∧
  rd_path r' = foldl (merge slash) (rd_path r) (values_of COAP_OPTION_URI_PATH opts) ∧
  rd_query r' = foldl (merge ampersand) (rd_query r) (values_of COAP_OPTION_URI_QUERY opts) ∧
  rd_format r' = foldl (λ _ v, u16 (int_value v)) (rd_format r) (values_of COAP_OPTION_CONTENT_FORMAT opts).
Proof.
  induction opts as [|[n v] opts IH]; intros r r' payload; cbn [interpret].
  - intros _. destruct e as [|bs|k|]; [intros [= -> <-]|intros [= -> <-]|by case_match|done]; (split; [done|]); split; try done; [by left|right; by eexists].
  - intros [Hn Hall]%Forall_cons. cbn in Hn. destruct (Z.leb_spec max_options n); [done|]. destruct (read_option r n v) as [[status|] r1] eqn:E.
    { intros [= -> _ _]. by apply read_option_status in E. }
    intros Hi. destruct (read_option_goes_on r n v r1) as (Ha & Hp & Hq & Hf); [lia|done|]. destruct (IH r1 r' payload Hall Hi) as (Hacc & He & Hp' & Hq' & Hf').
    rewrite !(values_of_cons _ (n, v) opts), !foldl_app, <- Hp, <- Hq, <- Hf. split; [by apply Forall_cons|done].
Qed.

Lemma decoded_numbers fuel : ∀ cur bs opts e, 0 ≤ cur → bytes_ok bs → decode_options fuel cur bs = (opts, e) → Forall (λ o, 0 ≤ o.1) opts.
Proof.
  induction fuel as [|fuel IH]; intros cur bs opts e Hc Hb; [by intros [= <- _]|]. cbn [decode_options].
  destruct bs as [|b bs]; [by intros [= <- _]|]. apply Forall_cons in Hb as [Hb Hbs]. destruct (nibbles_range b Hb) as [Hn1 Hn2].
  destruct (b .& 0xF0 =? 0xF0); [by intros [= <- _]|].
  destruct (decode_nibble (b ≫ 4) bs) as [[delta bs1]|] eqn:E1; [|by intros [= <- _]]. pose proof (decode_nibble_rest _ _ _ _ Hbs E1) as Hb1.
  destruct (decode_nibble (b .& 0x0F) bs1) as [[len bs2]|] eqn:E2; [|by intros [= <- _]].
  pose proof (decode_nibble_range _ _ _ _ Hbs Hn1 E1) as Hd. destruct (zlen bs2 <? len); [by intros [= <- _]|].
  destruct (decode_options fuel _ _) as [opts' e'] eqn:Ed. intros [= <- _]. apply Forall_cons. split; [cbn; lia|].
  apply IH in Ed; [done|lia|]. apply Forall_drop. exact (decode_nibble_rest _ _ _ _ Hb1 E2).
Qed.

(** Where the options of a message start, and what is read off its bytes. *)
Definition decoded (data : list Z) (n : nat) (opts : list (Z * list Z)) (e : coap_end) : Prop :=
  ∃ b0, aget data 0 = Some b0 ∧ b0 / 64 = 1 ∧ b0 mod 16 ≤ 1 ∧ decode_options (S n) 0 (rest data n (4 + Z.to_nat (b0 mod 16))) = (opts, e).

(** A received message: at most 65535 of the bytes of an array, with one behind them. *)
Record message_in (data : list Z) (n : nat) : Prop := mk_message_in {
  mi_bytes : bytes_ok data;
  mi_behind : (n < length data)%nat;
  mi_length : Z.of_nat n ≤ UINT16_MAX;
  mi_header : (5 ≤ length data)%nat
}.

Lemma message_split data n : message_in data n → ∃ b0 code m1 m0 more, data = b0 :: code :: m1 :: m0 :: more ∧ (1 ≤ length more)%nat ∧ is_u8 b0.
Proof.
  intros [Hb _ _ Hl]. do 4 (destruct data as [|? data]; [cbn in Hl; lia|]). do 5 eexists. split; [done|]. cbn in Hl. split; [lia|]. by apply Forall_cons in Hb as [? _].
Qed.

(** A message has a version or token that is refused, or its options decide. *)
Lemma parse_decoded data n : message_in data n →
  (∃ pk, coap_udp_parse_message data (Z.of_nat n) = Some (BAD_REQUEST_4_00, pk, data) ∧ ∀ opts e, ¬ decoded data n opts e) ∨
  ∃ opts e, decoded data n opts e ∧ Forall (λ o, 0 ≤ o.1) opts ∧
    if e is end_in_head then not_accepted (coap_udp_parse_message data (Z.of_nat n))
    else ∃ type code mid tkl token, message_parses (coap_udp_parse_message data (Z.of_nat n)) (interpret nothing_read opts e) type code mid tkl token.
Proof.
  intros Hm. destruct (message_split data n Hm) as (b0 & code & m1 & m0 & more & Hdata & Hmore & Hb0). destruct Hm as [Hb Hbehind Hlen _].
  pose proof (parse_message_at data n b0 code m1 m0 more Hlen Hb Hbehind Hdata Hmore) as Hp. assert (Hg : aget data 0 = Some b0) by by rewrite Hdata.
  assert (Hno : b0 / 64 ≠ 1 ∨ 1 < b0 mod 16 → ∀ opts e, ¬ decoded data n opts e).
  { intros Hbad opts e (b & Hb' & Hv & Ht & _). rewrite Hg in Hb'. injection Hb' as <-. lia. }
  destruct (Z.eqb_spec (b0 / 64) 1) as [Hv|Hv]; cbn [negb orb] in Hp; [|left; destruct Hp as [pk' Hp]; exists pk'; split; [done|apply Hno; by left]].
  destruct (Z.ltb_spec 1 (b0 mod 16)) as [Ht|Ht]; [left; destruct Hp as [pk' Hp]; exists pk'; split; [done|apply Hno; by right]|].
  right. destruct (decode_options (S n) 0 (rest data n (4 + Z.to_nat (b0 mod 16)))) as [opts e] eqn:Hdec. specialize (Hp _ _ eq_refl).
  exists opts, e. split; [by exists b0|]. split; [eapply (decoded_numbers _ 0); [done| |exact Hdec]; by apply Forall_drop, Forall_take|].
  destruct e; try exact Hp; by do 5 eexists.
Qed.

Lemma string_in_text data lo hi p len s : string_in data lo hi p len s → len = zlen s ∧ text_at data p s.
Proof. intros [Hl Hs]. split; [done|]. intros Hne. destruct (Hs Hne) as (d & Hp & _ & _ & Hd). by exists d. Qed.

Lemma accepted_parsed data n pk data' :
  message_in data n → coap_udp_parse_message data (Z.of_nat n) = Some (COAP_NO_ERROR, pk, data') →
  ∃ opts e r payload, decoded data n opts e ∧ Forall (λ o, 0 ≤ o.1) opts ∧
    interpret nothing_read opts e = Some (COAP_NO_ERROR, r, payload) ∧ parsed pk data' r payload.
Proof.
  intros Hm Hparse. destruct (parse_decoded data n Hm) as [(pk' & Hp & _)|(opts & e & Hdec & Hnums & Hp)]; [by rewrite Hp in Hparse|].
  exists opts, e. destruct e; try (by apply Hp in Hparse); destruct Hp as (type & code & mid & tkl & token & Hp); unfold message_parses in Hp; rewrite Hparse in Hp;
    destruct (interpret nothing_read opts _) as [[[status r] pl]|]; try done; destruct Hp as (pk' & d' & [= <- <- <-] & _ & Hpd); by exists r, pl.
Qed.

(** C19: Whatever bytes are received: a message that is accepted has version 1, a
    token of at most one byte, and options that are complete, known or
    elective, and have room in the flags; its content format is a known one,
    and path, query, content format and payload are those its options give. *)
Theorem coap_parse_accepts data n pk data' :
  message_in data n → coap_udp_parse_message data (Z.of_nat n) = Some (COAP_NO_ERROR, pk, data') →
  ∃ opts e, decoded data n opts e ∧ Forall acceptable opts ∧
    pk_uri_path_len pk = zlen (foldl (merge slash) [] (values_of COAP_OPTION_URI_PATH opts)) ∧
    text_at data' (pk_uri_path pk) (foldl (merge slash) [] (values_of COAP_OPTION_URI_PATH opts)) ∧
    pk_uri_query_len pk = zlen (foldl (merge ampersand) [] (values_of COAP_OPTION_URI_QUERY opts)) ∧
    text_at data' (pk_uri_query pk) (foldl (merge ampersand) [] (values_of COAP_OPTION_URI_QUERY opts)) ∧
    pk_content_format pk = foldl (λ _ v, u16 (int_value v)) 0 (values_of COAP_OPTION_CONTENT_FORMAT opts) ∧
    (e = end_options ∧ coap_get_payload pk = (0, None) ∨
     ∃ bs, e = end_payload bs ∧ coap_get_payload pk = (zlen (take 98 bs), pk_payload pk) ∧ text_at data' (pk_payload pk) (take 98 bs)).
Proof.
  intros Hm Hparse. destruct (accepted_parsed data n pk data' Hm Hparse) as (opts & e & r & payload & Hdec & Hnums & Hi & [Hfl Hten Hfo Hp1 Hq1 Hpay]). destruct (interpret_accepts opts e _ r payload Hnums Hi) as (Hacc & He & Hpath & Hquery & Hformat).
  apply string_in_text in Hp1 as [Hpl Hp1]. apply string_in_text in Hq1 as [Hql Hq1]. rewrite Hpath in Hpl, Hp1. rewrite Hquery in Hql, Hq1. rewrite Hformat in Hfo.
  exists opts, e. do 7 (split; [done|]). unfold coap_get_payload.
  destruct He as [[-> ->]|(bs & -> & ->)]; [left; split; [done|]; by injection Hpay as -> _|right].
  destruct Hpay as (Hlen & d & Hd & Hat). exists bs. rewrite Hd, Hlen. split; [done|]. split; [done|]. intros _. by exists d.
Qed.

Lemma acceptable_goes_on r n v : acceptable (n, v) → ∃ r', read_option r n v = (None, r').
Proof.
  intros (_ & Hnum & Hf). cbn [fst snd] in *. unfold read_option.
  destruct (Z.eqb_spec n COAP_OPTION_CONTENT_FORMAT) as [->|H1]; [|destruct (Z.eqb_spec n COAP_OPTION_URI_PATH) as [->|H2];
    [by eexists|destruct (Z.eqb_spec n COAP_OPTION_URI_QUERY) as [->|H3]; [by eexists|]]].
  - destruct (Hf eq_refl) as [|[[= ->]|[= ->]]]; [done|by eexists..].
  - destruct Hnum as [|[|He]]; [done|done|]. rewrite <- Z.negb_even, He. by eexists.
Qed.

Definition first_far (opts : list (Z * list Z)) (e : coap_end) : Prop :=
  ∃ before number, Forall acceptable before ∧ max_options <= number ∧
    ((∃ value after, opts = before ++ (number, value) :: after) ∨ (opts = before ∧ e = end_in_value number)).

Lemma interpret_none opts e : e ≠ end_in_head → ∀ r, Forall (λ o, 0 ≤ o.1) opts → interpret r opts e = None ↔ first_far opts e.
Proof.
  intros He. induction opts as [|[n v] opts IH]; intros r Hnums; cbn [interpret].
  - split.
    + intros Hi. destruct e as [| |k|]; try done. exists [], k. split; [done|]. destruct (Z.leb_spec max_options k); [|done]. split; [done|by right].
    + intros (before & k & _ & Hk & [(v & after & Hl)|[_ ->]]); [by destruct before|]. by rewrite (proj2 (Z.leb_le _ _)).
  - apply Forall_cons in Hnums as [Hn Hnums]. cbn in Hn. destruct (Z.leb_spec max_options n) as [Hfar|Hnear].
    { split; [|done]. intros _. exists [], n. split; [done|]. split; [done|]. left. by exists v, opts. }
    destruct (read_option r n v) as [status r'] eqn:E. split.
    + destruct status; [done|]. intros (before & k & Hb & Hk & Hcase)%IH; [|done]. destruct (read_option_goes_on r n v r') as [Ha _]; [lia|done|].
      exists ((n, v) :: before), k. split; [by apply Forall_cons|]. split; [done|]. destruct Hcase as [(v' & after & ->)|[-> ->]]; [left; by exists v', after|by right].
    + intros (before & k & Hb & Hk & Hcase). destruct before as [|o before].
      { destruct Hcase as [(v' & after & [= -> _ _])|[Hl _]]; [lia|done]. }
      apply Forall_cons in Hb as [Ha Hb].
      assert (o = (n, v) ∧ ((∃ value after, opts = before ++ (k, value) :: after) ∨ (opts = before ∧ e = end_in_value k))) as [-> Hcase'].
      { destruct Hcase as [(v' & after & [= <- ->])|[[= <- ->] ->]]; (split; [done|]); [left; by exists v', after|by right]. }
      destruct (acceptable_goes_on r n v Ha) as [r2 Hr]. rewrite E in Hr. injection Hr as -> ->. apply IH; [done|]. by exists before, k.
Qed.

