(* ===== verification/CoapTransactions.v ===== *)
(** * Buffers and transactions of the CoAP layer (oc/messaging/coap/transactions.c,
    oc/api/oc_buffer.c, oc/util/oc_memb.c, oc/util/oc_process.c)

    A buffer for an outgoing message is counted by the transaction it belongs
    to and by the events that are to send it; a transaction is kept to be sent
    again, or until it is sent.  Pointers into the pools are indices of blocks,
    and a freed block keeps its content, as the memory it is does.  The build
    is the one with link security and without confirmable messages. *)

From S2P Require Import Prelude Check Product DesktopProduct Channel ChannelEndpoint Coap.
Local Open Scope Z_scope.
Local Open Scope c_scope.

Definition OC_MAX_NUM_CONCURRENT_REQUESTS : nat := 2.
Definition COAP_MAX_OPEN_TRANSACTIONS : nat := OC_MAX_NUM_CONCURRENT_REQUESTS.
Definition OC_PROCESS_NUMEVENTS : nat := 10.
Definition OC_TRANSACTION_CACHED_IDLE_TIMEOUT_SECONDS : Z := 5.

(** ** Pools of blocks, each with its count *)

Abbreviation memb A := (list (Z * A)).

Definition oc_memb_init {A} (num : nat) (zero : A) : memb A := replicate num (0, zero).

(** The first block whose count is 0, with its memory cleared. *)
Fixpoint _oc_memb_alloc {A} (zero : A) (m : memb A) : option (nat * memb A) :=
  match m with
  | [] => None
  | (count, block) :: m =>
      if count =? 0 then Some (0%nat, (1, zero) :: m)
      else '(i, m) ← _oc_memb_alloc zero m; Some (S i, (count, block) :: m)
  end.

Definition _oc_memb_free {A} (i : nat) (m : memb A) : memb A :=
  alter (λ b : Z * A, if 0 <? b.1 then (b.1 - 1, b.2) else b) i m.

Definition oc_memb_numfree {A} (m : memb A) : nat := length (filter (λ b, b.1 = 0) m).

(** ** Lists of blocks

    An item that is on the list already would be linked to itself. *)
Definition oc_list_add (l : list nat) (item : nat) : option (list nat) := if decide (item ∈ l) then None else Some (l ++ [item]).

Fixpoint oc_list_remove (l : list nat) (item : nat) : list nat :=
  match l with
  | [] => []
  | x :: l => if decide (x = item) then l else x :: oc_list_remove l item
  end.

(** The item behind [item]: its [next] pointer. *)
Fixpoint list_next (l : list nat) (item : nat) : option nat :=
  match l with
  | [] => None
  | x :: l => if decide (x = item) then head l else list_next l item
  end.

(** ** State *)

Record buffer := mk_buffer { bf_message : oc_message_t; bf_ref_count : Z }.

Record oc_timer := mk_timer { start : Z; interval : Z }.

(** The idle timer; [None]: its process is OC_PROCESS_NONE, as after it has
    expired or was stopped, or when it was never set.  The retransmission timer
    is never set in this build. *)
Record coap_transaction := mk_transaction {
  tr_mid : Z;
  tr_retrans_counter : Z;
  tr_idle_timeout_timer : option oc_timer;
  tr_message : option nat
}.

Definition zero_message : oc_message_t := mk_oc_message (replicate 120 0) 0 (mk_oc_endpoint 0 0 (replicate 16 0) 0 0).
Definition zero_buffer : buffer := mk_buffer zero_message 0.
Definition zero_transaction : coap_transaction := mk_transaction 0 0 None None.

(** The events in the queue: a message to send, for message_buffer_handler; a
    timer that has expired, for coap_engine; and those of other processes. *)
Inductive event := OUTBOUND_NETWORK_EVENT (message : nat) | OC_PROCESS_EVENT_TIMER | other_event.

(** [cs_prod]: the product and the client callbacks. *)
Record coap_state (P : Type) := mk_coap_state {
  cs_buffers : memb buffer;
  cs_pool : memb coap_transaction;
  cs_list : list nat;
  cs_events : list event;
  cs_initialized : bool;
  cs_prod : P
}.
#[global] Arguments mk_coap_state {P}.
#[global] Arguments cs_buffers {P}.
#[global] Arguments cs_pool {P}.
#[global] Arguments cs_list {P}.
#[global] Arguments cs_events {P}.
#[global] Arguments cs_initialized {P}.
#[global] Arguments cs_prod {P}.

(** ** Timers *)

Definition oc_timer_set (now interval : Z) : oc_timer := mk_timer now interval.
Definition oc_timer_expired (now : Z) (t : oc_timer) : bool := interval t <? u64 (now - start t + 1).

(** A timer whose process is OC_PROCESS_NONE. *)
Definition oc_etimer_expired (timer : option oc_timer) : bool := match timer with Some _ => false | None => true end.

Section Transactions.
Context {P : Type} `{Product P} `{!ChannelProduct P}.
(** The client callbacks of a message ID are told that there was no answer. *)
Context (oc_ri_free_client_cbs_by_mid : Z → P → P).
Implicit Types (s : coap_state P).

Definition coap_start (prod : P) : coap_state P :=
  mk_coap_state (oc_memb_init OC_MAX_NUM_CONCURRENT_REQUESTS zero_buffer) (oc_memb_init COAP_MAX_OPEN_TRANSACTIONS zero_transaction)
    [] [] true prod.

Definition oc_buffer_outgoing_free_count s : nat := oc_memb_numfree (cs_buffers s).
Definition coap_transactions_free_count s : nat := oc_memb_numfree (cs_pool s).

Definition on_buffer (h : nat) (f : buffer → buffer) : M (coap_state P) unit :=
  modify (λ s, {| s with cs_buffers := alter (λ b : Z * buffer, (b.1, f b.2)) h (cs_buffers s) |}).
Definition get_buffer (h : nat) : M (coap_state P) buffer := λ s, '(_, b) ← cs_buffers s !! h; Some (b, s).
Definition on_transaction (t : nat) (f : coap_transaction → coap_transaction) : M (coap_state P) unit :=
  modify (λ s, {| s with cs_pool := alter (λ b : Z * coap_transaction, (b.1, f b.2)) t (cs_pool s) |}).
Definition get_transaction (t : nat) : M (coap_state P) coap_transaction := λ s, '(_, b) ← cs_pool s !! t; Some (b, s).

(** ** Buffers *)

Definition allocate_message : M (coap_state P) (option nat) := λ s,
  match _oc_memb_alloc zero_buffer (cs_buffers s) with
  | Some (h, buffers) =>
      let buffers := alter (λ b : Z * buffer, (b.1, mk_buffer (bf_message b.2) 1)) h buffers in
      Some (Some h, {| s with cs_buffers := buffers |})
  | None => Some (None, s)
  end.
Definition oc_internal_allocate_outgoing_message : M (coap_state P) (option nat) := allocate_message.

Definition oc_message_add_ref (message : option nat) : M (coap_state P) unit :=
  match message with
  | Some h => on_buffer h (λ b, mk_buffer (bf_message b) (u8 (bf_ref_count b + 1)))
  | None => mret ()
  end.

Definition oc_message_unref (message : option nat) : M (coap_state P) unit :=
  match message with
  | Some h =>
      on_buffer h (λ b, mk_buffer (bf_message b) (u8 (bf_ref_count b - 1)));;
      b ← get_buffer h;
      when (bf_ref_count b <=? 0) (modify (λ s, {| s with cs_buffers := _oc_memb_free h (cs_buffers s) |}))
  | None => mret ()
  end.

(** Gives whether there was room in the queue. *)
Definition oc_process_post (ev : event) : M (coap_state P) bool :=
  s ← get_state;
  if (length (cs_events s) =? OC_PROCESS_NUMEVENTS)%nat then mret false
  else modify (λ s, {| s with cs_events := cs_events s ++ [ev] |});; mret true.

Definition oc_send_message (h : nat) : M (coap_state P) unit :=
  posted ← oc_process_post (OUTBOUND_NETWORK_EVENT h);
  when (negb posted) (on_buffer h (λ b, mk_buffer (bf_message b) (u8 (bf_ref_count b - 1)))).

(** OUTBOUND_NETWORK_EVENT at the process message_buffer_handler. *)
Definition message_buffer_handler (h : nat) : M (coap_state P) unit :=
  b ← get_buffer h;
  _ ← zoom cs_prod (λ p s, {| s with cs_prod := p |}) (oc_send_buffer (bf_message b));
  oc_message_unref (Some h).

(** ** Transactions *)

Definition coap_new_transaction (mid : Z) (endpoint : oc_endpoint_t) : M (coap_state P) (option nat) :=
  s ← get_state;
  match _oc_memb_alloc zero_transaction (cs_pool s) with
  | Some (t, pool) =>
      modify (λ s, {| s with cs_pool := pool |});;
      message ← oc_internal_allocate_outgoing_message;
      on_transaction t (λ tr, {| tr with tr_message := message |});;
      match message with
      | Some h =>
          on_transaction t (λ tr, {| tr with tr_mid := mid; tr_retrans_counter := 0 |});;
          on_buffer h (λ b, let m := bf_message b in mk_buffer {| m with msg_endpoint := endpoint |} (bf_ref_count b));;
          s ← get_state;
          l ← lift (oc_list_add (cs_list s) t);
          modify (λ s, {| s with cs_list := l |});;
          mret (Some t)
      | None =>
          modify (λ s, {| s with cs_pool := _oc_memb_free t (cs_pool s) |});;
          mret None
      end
  | None => mret None
  end.

Definition coap_clear_transaction (t : option nat) : M (coap_state P) unit :=
  match t with
  | Some t =>
      on_transaction t (λ tr, {| tr with tr_idle_timeout_timer := None |});;
      tr ← get_transaction t;
      oc_message_unref (tr_message tr);;
      modify (λ s, {| s with cs_list := oc_list_remove (cs_list s) t; cs_pool := _oc_memb_free t (cs_pool s) |})
  | None => mret ()
  end.

(** [now]: the time of oc_clock_time. *)
Definition coap_send_transaction (now : Z) (t : nat) (should_cache : bool) : M (coap_state P) unit :=
  s ← get_state;
  if negb (cs_initialized s) then mret ()
  else
    tr ← get_transaction t;
    oc_message_add_ref (tr_message tr);;
    h ← lift (tr_message tr);
    oc_send_message h;;
    if should_cache then
      on_transaction t (λ tr, {| tr with tr_idle_timeout_timer := Some (oc_timer_set now OC_TRANSACTION_CACHED_IDLE_TIMEOUT_SECONDS) |})
    else coap_clear_transaction (Some t).

Definition coap_get_transaction_by_mid (mid : Z) : M (coap_state P) (option nat) :=
  gets (λ s, find (λ t, match cs_pool s !! t with Some (_, tr) => tr_mid tr =? mid | None => false end) (cs_list s)).

(** The loop of coap_check_transactions; [t] is the block it is at.  The
    retransmission timer, never set, counts as expired. *)
Fixpoint check_loop (fuel : nat) (now : Z) (t : option nat) : M (coap_state P) unit :=
  match fuel, t with
  | _, None => mret ()
  | O, _ => undefined
  | S fuel, Some t =>
      next ← gets (λ s, list_next (cs_list s) t);
      tr ← get_transaction t;
      if oc_etimer_expired (tr_idle_timeout_timer tr) then
        modify (λ s, {| s with cs_prod := oc_ri_free_client_cbs_by_mid (tr_mid tr) (cs_prod s) |});;
        coap_clear_transaction (Some t);;
        check_loop fuel now next
      else
        on_transaction t (λ tr, {| tr with tr_retrans_counter := u8 (tr_retrans_counter tr + 1) |});;
        removed ← gets (λ s, length (cs_list s));
        coap_send_transaction now t false;;
        left ← gets (λ s, length (cs_list s));
        if (1 <? removed - left)%nat then t ← gets (λ s, head (cs_list s)); check_loop fuel now t
        else check_loop fuel now next
  end.

Definition coap_check_transactions (now : Z) : M (coap_state P) unit :=
  s ← get_state;
  check_loop (S (length (cs_list s))) now (head (cs_list s)).

Fixpoint free_loop (fuel : nat) (t : option nat) : M (coap_state P) unit :=
  match fuel, t with
  | _, None => mret ()
  | O, _ => undefined
  | S fuel, Some t =>
      next ← gets (λ s, list_next (cs_list s) t);
      coap_clear_transaction (Some t);;
      free_loop fuel next
  end.

Definition coap_free_all_transactions : M (coap_state P) unit :=
  s ← get_state;
  free_loop (S (length (cs_list s))) (head (cs_list s)).

(** ** Events and timers

    The turn of oc_etimer_process at the idle timer of [t]. *)
Definition oc_etimer_process (now : Z) (t : nat) : M (coap_state P) unit :=
  tr ← get_transaction t;
  match tr_idle_timeout_timer tr with
  | Some timer =>
      if oc_timer_expired now timer then
        posted ← oc_process_post OC_PROCESS_EVENT_TIMER;
        when posted (on_transaction t (λ tr, {| tr with tr_idle_timeout_timer := None |}))
      else mret ()
  | None => mret ()
  end.

(** The first event of the queue; those of other processes change nothing
    here. *)
Definition do_event (now : Z) : M (coap_state P) unit :=
  s ← get_state;
  match cs_events s with
  | [] => mret ()
  | ev :: events =>
      modify (λ s, {| s with cs_events := events |});;
      match ev with
      | OUTBOUND_NETWORK_EVENT h => message_buffer_handler h
      | OC_PROCESS_EVENT_TIMER => coap_check_transactions now
      | other_event => mret ()
      end
  end.

(** ** Messages of the engine

    How a sender of the engine ends, with the bytes serialized. *)
Definition coap_send_message (h : nat) (data : list Z) (len : Z) : M (coap_state P) unit :=
  on_buffer h (λ b, let m := bf_message b in mk_buffer {| m with msg_data := data |} (bf_ref_count b));;
  when (0 <? len)
    (on_buffer h (λ b, let m := bf_message b in mk_buffer {| m with msg_length := len |} (bf_ref_count b));;
     oc_send_message h);;
  b ← get_buffer h;
  when (bf_ref_count b =? 0) (oc_message_unref (Some h)).

(** A packet to [endpoint] in a buffer of its own. *)
Definition coap_send_packet (pkt : coap_packet coap_ptr) (token : option (list Z)) (token_len : Z) (endpoint : oc_endpoint_t)
    : M (coap_state P) unit :=
  message ← oc_internal_allocate_outgoing_message;
  match message with
  | Some h =>
      on_buffer h (λ b, let m := bf_message b in mk_buffer {| m with msg_endpoint := endpoint |} (bf_ref_count b));;
      pkt ← (match token with
             | Some token => if 0 <? token_len then '(_, pkt) ← lift (coap_set_token pkt token token_len); mret pkt else mret pkt
             | None => mret pkt
             end);
      b ← get_buffer h;
      '(len, _, data) ← lift (coap_serialize_message (Some pkt) (Some (msg_data (bf_message b))));
      coap_send_message h (default (msg_data (bf_message b)) data) len
  | None => mret ()
  end.

Definition coap_send_empty_response (type mid : Z) (token : option (list Z)) (token_len code : Z) (endpoint : oc_endpoint_t)
    : M (coap_state P) unit :=
  coap_send_packet (coap_udp_init_message type code mid) token token_len endpoint.

(** A request that is for the resources: [response] and [data] are the packet
    of the answer and the message's buffer as the resource's handler, and the
    securing of the answer, left them ([coap_receive] from the parsed message
    on, unless the answer could not be secured). *)
Definition coap_respond (now mid response_mid : Z) (endpoint : oc_endpoint_t) (response : coap_packet coap_ptr) (data token : list Z) (token_len : Z)
    : M (coap_state P) unit :=
  transaction ← coap_get_transaction_by_mid mid;
  coap_clear_transaction transaction;;
  transaction ← coap_new_transaction response_mid endpoint;
  match transaction with
  | Some t =>
      when (negb (pk_type response =? COAP_TYPE_RST) && negb (token_len =? 0))
        ('(_, response) ← lift (coap_set_token response token token_len);
         '(len, _, out) ← lift (coap_serialize_message (Some response) (Some data));
         tr ← get_transaction t;
         h ← lift (tr_message tr);
         on_buffer h (λ b, let m := bf_message b in mk_buffer {| m with msg_data := default data out; msg_length := len |} (bf_ref_count b));;
         if len =? 0 then coap_clear_transaction (Some t) else coap_send_transaction now t false)
  | None => mret ()
  end.
End Transactions.
