(* ===== verification/CoapSteps.v ===== *)
(** * Buffers and transactions of the CoAP layer: who refers to what

    The reference count of a buffer is the number of transactions and events
    that refer to it, its block is free when there are none, and the list of
    transactions holds the blocks that are taken. *)


From S2P Require Import Prelude Check Product DesktopProduct Channel ChannelEndpoint Coap CoapTransactions.
Local Open Scope Z_scope.
Local Open Scope c_scope.

Lemma filter_all {A} (Q : A → Prop) `{∀ x, Decision (Q x)} (l : list A) : (∀ x, x ∈ l → Q x) → filter Q l = l.
Proof.
  induction l as [|x l IH]; intros Hq; [done|]. rewrite filter_cons_True by (apply Hq; by left). f_equal. apply IH.
  intros y Hy. apply Hq. by right.
Qed.

Lemma omap_short {A B} (f : A → option B) (l : list A) : (length (omap f l) ≤ length l)%nat.
Proof. induction l as [|x l IH]; [done|]. change (omap f (x :: l)) with (match f x with Some y => y :: omap f l | None => omap f l end).
  destruct (f x); cbn [length]; lia.
Qed.

(** ** Counting references *)

Definition uses (h : nat) (l : list nat) : Z := Z.of_nat (length (filter (λ x, x = h) l)).

Lemma uses_app h l1 l2 : uses h (l1 ++ l2) = uses h l1 + uses h l2.
Proof. unfold uses. rewrite filter_app, length_app. lia. Qed.

Lemma uses_cons h x l : uses h (x :: l) = (if decide (x = h) then 1 else 0) + uses h l.
Proof. unfold uses. rewrite filter_cons. destruct (decide (x = h)); cbn [length]; lia. Qed.

Lemma uses_nil h : uses h [] = 0.
Proof. done. Qed.

Lemma uses_perm h l l' : l ≡ₚ l' → uses h l = uses h l'.
Proof. unfold uses. by intros ->. Qed.

Lemma uses_range h l : 0 ≤ uses h l ≤ Z.of_nat (length l).
Proof. unfold uses. pose proof (length_filter (λ x, x = h) l). lia. Qed.

Lemma uses_elem h l : h ∈ l ↔ 0 < uses h l.
Proof.
  induction l as [|x l IH]; [rewrite uses_nil; split; [by intros ?%not_elem_of_nil|lia]|].
  rewrite elem_of_cons, IH, uses_cons. pose proof (uses_range h l). case_decide; split; [lia|auto|intros [->|]; [done|lia]|right; lia].
Qed.

Lemma uses_zero h l : h ∉ l ↔ uses h l = 0.
Proof. rewrite uses_elem. pose proof (uses_range h l). lia. Qed.

(** ** Blocks of buffers

    The blocks [lost] are taken and nothing refers to them; the count of any
    other says how often [l] does. *)

Definition accounted (lost l : list nat) (m : memb buffer) : Prop := ∀ h,
  match m !! h with
  | Some (count, b) =>
      if decide (h ∈ lost) then count = 1 ∧ uses h l = 0
      else bf_ref_count b = uses h l ∧ count = (if decide (h ∈ l) then 1 else 0)
  | None => uses h l = 0 ∧ h ∉ lost
  end.

Lemma accounted_perm lost l l' m : l ≡ₚ l' → accounted lost l m → accounted lost l' m.
Proof.
  intros Hp Ha h. specialize (Ha h). destruct (m !! h) as [[c b]|]; rewrite <- (uses_perm _ _ _ Hp); [|done].
  case_decide; [done|]. by rewrite (decide_ext (h ∈ l') (h ∈ l)) by (by rewrite Hp).
Qed.

Lemma accounted_held lost l m h : accounted lost l m → h ∈ l →
  (h ∉ lost) ∧ ∃ b, m !! h = Some (1, b) ∧ bf_ref_count b = uses h l.
Proof.
  intros Ha Hh. specialize (Ha h). pose proof (proj1 (uses_elem h l) Hh). destruct (m !! h) as [[c b]|]; [|lia].
  case_decide; [lia|]. destruct Ha as [? ->]. rewrite decide_True by done. eauto.
Qed.

(** A change at one block that is not lost. *)
Lemma accounted_alter lost l l' m h (f : Z * buffer → Z * buffer) :
  h ∉ lost → (∀ x, x ≠ h → uses x l' = uses x l) →
  (∀ c b, m !! h = Some (c, b) → bf_ref_count (f (c, b)).2 = uses h l' ∧ (f (c, b)).1 = if decide (h ∈ l') then 1 else 0) →
  (h < length m)%nat → accounted lost l m → accounted lost l' (alter f h m).
Proof.
  intros Hl Hx Hf Hlt Ha x. specialize (Ha x). rewrite list_lookup_alter. destruct (decide (x = h)) as [->|Hne].
  - rewrite decide_True by done. destruct (lookup_lt_is_Some_2 m h Hlt) as [[c b] Hm]. rewrite Hm in *. cbn [fmap option_fmap option_map].
    specialize (Hf c b eq_refl). destruct (f (c, b)) as [c' b']. cbn in Hf. by rewrite decide_False.
  - rewrite decide_False by congruence. rewrite (Hx x Hne). destruct (m !! x) as [[c b]|]; [|done].
    case_decide; [done|]. rewrite (decide_ext (x ∈ l') (x ∈ l)) by (rewrite !uses_elem, Hx by done; done). done.
Qed.

Definition add_ref (h : nat) : memb buffer → memb buffer := alter (λ b, (b.1, mk_buffer (bf_message b.2) (u8 (bf_ref_count b.2 + 1)))) h.
Definition sub_ref (h : nat) : memb buffer → memb buffer := alter (λ b, (b.1, mk_buffer (bf_message b.2) (u8 (bf_ref_count b.2 - 1)))) h.
Definition unref (h : nat) (m : memb buffer) : memb buffer :=
  let m := sub_ref h m in
  match m !! h with Some (_, b) => if bf_ref_count b <=? 0 then _oc_memb_free h m else m | None => m end.

Lemma accounted_add lost l m h : accounted lost l m → h ∈ l → Z.of_nat (length l) < 255 → accounted lost (h :: l) (add_ref h m).
Proof.
  intros Ha Hh Hlen. destruct (accounted_held _ _ _ _ Ha Hh) as (Hl & b & Hm & Hb).
  apply accounted_alter with l; [done| | |by eapply lookup_lt_Some|done].
  - intros x Hx. rewrite uses_cons, decide_False by congruence. lia.
  - intros c b' Hm'. rewrite Hm in Hm'. simplify_eq. cbn [fst snd bf_ref_count]. rewrite uses_cons, !decide_True by (done || left).
    rewrite Hb. split; [|done]. pose proof (uses_range h l). rewrite u8_small by (unfold is_u8; lia). lia.
Qed.

(** One reference less, where another stays. *)
Lemma accounted_sub lost l m h : accounted lost (h :: l) m → h ∈ l → Z.of_nat (length l) < 255 → accounted lost l (sub_ref h m).
Proof.
  intros Ha Hh Hlen. destruct (accounted_held _ _ _ h Ha) as (Hl & b & Hm & Hb); [by left|].
  apply accounted_alter with (h :: l); [done| | |by eapply lookup_lt_Some|done].
  - intros x Hx. rewrite uses_cons, decide_False by congruence. lia.
  - intros c b' Hm'. rewrite Hm in Hm'. simplify_eq. cbn [fst snd bf_ref_count]. rewrite decide_True by done. split; [|done].
    rewrite Hb, uses_cons, decide_True by done. pose proof (uses_range h l). rewrite u8_small by (unfold is_u8; lia). lia.
Qed.

Lemma accounted_unref lost l m h : accounted lost (h :: l) m → Z.of_nat (length l) < 255 → accounted lost l (unref h m).
Proof.
  intros Ha Hlen. destruct (accounted_held _ _ _ h Ha) as (Hl & b & Hm & Hb); [by left|].
  rewrite uses_cons, decide_True in Hb by done. pose proof (uses_range h l) as Hr.
  assert (Hsub : sub_ref h m !! h = Some (1, mk_buffer (bf_message b) (uses h l))).
  { unfold sub_ref. rewrite list_lookup_alter, decide_True by done. rewrite Hm. cbn. do 3 f_equal. rewrite Hb.
    rewrite u8_small by (unfold is_u8; lia). lia. }
  unfold unref. cbv zeta. rewrite Hsub. cbn [bf_ref_count]. destruct (Z.leb_spec (uses h l) 0) as [Hz|Hz].
  - unfold _oc_memb_free, sub_ref. rewrite list_alter_alter_eq.
    apply accounted_alter with (h :: l); [done| | |by eapply lookup_lt_Some|done].
    + intros x Hx. rewrite uses_cons, decide_False by congruence. lia.
    + intros c b' Hm'. rewrite Hm in Hm'. simplify_eq. cbn [fst snd compose bf_ref_count Z.ltb Z.compare].
      rewrite decide_False by (rewrite uses_elem; lia). split; [|done]. rewrite Hb, u8_small by (unfold is_u8; lia). lia.
  - apply accounted_sub; [done|by apply uses_elem|done].
Qed.

(** A change that leaves the count alone, and the loss of the only reference. *)
Lemma accounted_message lost l m h f : (∀ b, bf_ref_count (f b) = bf_ref_count b) →
  accounted lost l m → accounted lost l (alter (λ b, (b.1, f b.2)) h m).
Proof.
  intros Hf Ha x. specialize (Ha x). rewrite list_lookup_alter. destruct (decide (h = x)) as [->|]; [|done].
  destruct (m !! x) as [[c b]|]; [|done]. cbn. by rewrite Hf.
Qed.

Lemma accounted_lose lost l m h f : h ∉ l → accounted lost (h :: l) m → accounted (h :: lost) l (alter (λ b, (b.1, f b.2)) h m).
Proof.
  intros Hl Ha x. destruct (accounted_held _ _ _ h Ha) as (_ & b & Hm & _); [by left|]. rewrite list_lookup_alter.
  destruct (decide (h = x)) as [<-|Hne].
  - rewrite Hm. cbn [fmap option_fmap option_map fst]. rewrite decide_True by by left. split; [done|by apply uses_zero].
  - specialize (Ha x). rewrite uses_cons, decide_False, Z.add_0_l in Ha by done. destruct (m !! x) as [[c b']|].
    + rewrite (decide_ext (x ∈ h :: lost) (x ∈ lost)) by (rewrite elem_of_cons; intuition congruence). case_decide; [done|].
      by rewrite (decide_ext (x ∈ h :: l) (x ∈ l)) in Ha by (rewrite elem_of_cons; intuition congruence).
    + split; [tauto|]. apply not_elem_of_cons. split; [congruence|tauto].
Qed.

(** ** Taking a block *)

Lemma alloc_spec {A} (zero : A) (m : memb A) :
  match _oc_memb_alloc zero m with
  | Some (i, m') => (∃ b, m !! i = Some (0, b)) ∧ m' = <[i := (1, zero)]> m ∧ oc_memb_numfree m ≠ 0%nat
  | None => oc_memb_numfree m = 0%nat
  end.
Proof.
  unfold oc_memb_numfree. induction m as [|[c b] m IH]; [done|]. cbn [_oc_memb_alloc]. rewrite filter_cons. cbn [fst]. case_decide as Hc.
  - subst. cbn. split_and!; [by exists b|done..].
  - rewrite (proj2 (Z.eqb_neq _ _) Hc). destruct (_oc_memb_alloc zero m) as [[i m']|]; cbn; [|done].
    destruct IH as (? & -> & ?). done.
Qed.

Lemma accounted_alloc lost l m i b b' : m !! i = Some (0, b) → bf_ref_count b' = 1 → accounted lost l m →
  (i ∉ lost) ∧ (i ∉ l) ∧ accounted lost (i :: l) (<[i := (1, b')]> m).
Proof.
  intros Hm Hb' Ha. pose proof (Ha i) as Hi. rewrite Hm in Hi. case_decide as Hl; [lia|]. case_decide as Hi'; [lia|].
  split_and!; [done..|]. rewrite list_insert_alter. apply accounted_alter with l; [done| | |by eapply lookup_lt_Some|done].
  - intros x Hx. rewrite uses_cons, decide_False by congruence. lia.
  - intros c b0 _. cbn [fst snd]. rewrite uses_cons, !decide_True by (done || left). apply uses_zero in Hi'. lia.
Qed.

Lemma accounted_free m : accounted [] [] m → oc_memb_numfree m = length m.
Proof.
  intros Ha. unfold oc_memb_numfree. f_equal. apply filter_all. intros x Hx.
  apply list_elem_of_lookup in Hx as [h Hh]. specialize (Ha h). rewrite Hh in Ha. destruct x as [c b]. cbn.
  rewrite !decide_False in Ha by (apply not_elem_of_nil). tauto.
Qed.

(** ** The list of transactions *)

Lemma remove_filter l t : NoDup l → oc_list_remove l t = filter (λ x, x ≠ t) l.
Proof.
  induction 1 as [|x l Hx Hl IH]; [done|]. cbn [oc_list_remove]. rewrite filter_cons. destruct (decide (x = t)) as [->|].
  - rewrite decide_False by tauto. symmetry. apply filter_all. intros y Hy ->. done.
  - rewrite decide_True by done. by rewrite IH.
Qed.

Definition linked (l : list nat) (pool : memb coap_transaction) : Prop :=
  NoDup l ∧ ∀ t,
    match pool !! t with
    | Some (count, tr) => if decide (t ∈ l) then count = 1 ∧ is_Some (tr_message tr) else count = 0
    | None => ¬ t ∈ l
    end.

Definition message_of (pool : memb coap_transaction) (t : nat) : option nat := '(_, tr) ← pool !! t; tr_message tr.
Definition messages (pool : memb coap_transaction) (l : list nat) : list nat := omap (message_of pool) l.

Lemma linked_at l pool t : linked l pool → t ∈ l →
  ∃ tr h, pool !! t = Some (1, tr) ∧ tr_message tr = Some h ∧ message_of pool t = Some h.
Proof.
  intros [_ Hp] Ht. specialize (Hp t). unfold message_of. destruct (pool !! t) as [[c tr]|]; [|done].
  rewrite decide_True in Hp by done. destruct Hp as [-> [h Hh]]. exists tr, h. by rewrite Hh.
Qed.

Lemma messages_ext l pool pool' : (∀ t, t ∈ l → message_of pool' t = message_of pool t) → messages pool' l = messages pool l.
Proof.
  intros Heq. induction l as [|t l IH]; [done|]. cbn [messages omap list_omap]. rewrite (Heq t) by by left.
  unfold messages in IH. cbn [omap] in IH. rewrite IH; [done|]. intros x Hx. apply Heq. by right.
Qed.

Lemma messages_app pool l1 l2 : messages pool (l1 ++ l2) = messages pool l1 ++ messages pool l2.
Proof. apply omap_app. Qed.

Lemma messages_remove pool l t h : message_of pool t = Some h → t ∈ l → messages pool l ≡ₚ h :: messages pool (oc_list_remove l t).
Proof.
  intros Ht. induction l as [|x l IH]; intros Hin; [by apply not_elem_of_nil in Hin|]. cbn [oc_list_remove].
  destruct (decide (x = t)) as [->|Hne].
  - unfold messages. cbn [omap list_omap]. by rewrite Ht.
  - apply elem_of_cons in Hin as [?|Hin]; [congruence|]. specialize (IH Hin). unfold messages in *. cbn [omap list_omap] in *.
    destruct (message_of pool x); [|done]. rewrite IH. apply perm_swap.
Qed.

(** A transaction is taken off. *)
Lemma linked_remove l pool pool' t : linked l pool → t ∈ l → (∀ x, x ≠ t → pool' !! x = pool !! x) →
  (∃ tr, pool' !! t = Some (0, tr)) → linked (oc_list_remove l t) pool'.
Proof.
  intros [Hd Hp] Ht Hx [tr Htr]. rewrite remove_filter by done. split; [by apply NoDup_filter|]. intros x.
  destruct (decide (x = t)) as [->|Hne].
  - rewrite Htr. rewrite decide_False; [done|]. by intros [? _]%list_elem_of_filter.
  - rewrite Hx by done. specialize (Hp x). assert (x ∈ filter (λ x, x ≠ t) l ↔ x ∈ l) as Hiff by (rewrite list_elem_of_filter; tauto).
    destruct (pool !! x) as [[c tr']|]; [|by rewrite Hiff]. by rewrite (decide_ext _ (x ∈ l)) by exact Hiff.
Qed.

(** A block is put on. *)
Lemma linked_add l pool pool' t : linked l pool → t ∉ l → (∀ x, x ≠ t → pool' !! x = pool !! x) →
  (∃ tr, pool' !! t = Some (1, tr) ∧ is_Some (tr_message tr)) → linked (l ++ [t]) pool'.
Proof.
  intros [Hd Hp] Ht Hx (tr & Htr & Hm). split; [apply NoDup_app; split_and!; [done|by intros y ? ->%list_elem_of_singleton|apply NoDup_singleton]|]. intros x.
  destruct (decide (x = t)) as [->|Hne].
  - rewrite Htr. rewrite decide_True; [done|]. apply elem_of_app. right. by left.
  - rewrite Hx by done. specialize (Hp x). assert (x ∈ l ++ [t] ↔ x ∈ l) as Hiff by (rewrite elem_of_app, list_elem_of_singleton; tauto).
    destruct (pool !! x) as [[c tr']|]; [|by rewrite Hiff]. by rewrite (decide_ext _ (x ∈ l)) by exact Hiff.
Qed.

Lemma linked_length l pool : linked l pool → (length l ≤ length pool)%nat.
Proof.
  intros [Hd Hp]. enough (length l ≤ length (seq 0 (length pool)))%nat as Hl by by rewrite length_seq in Hl. apply submseteq_length, NoDup_submseteq; [done|].
  intros t Ht. apply elem_of_seq. specialize (Hp t). destruct (pool !! t) eqn:Heq; [|done]. apply lookup_lt_Some in Heq. lia.
Qed.

(** ** States *)

Definition outbound (ev : event) : option nat := match ev with OUTBOUND_NETWORK_EVENT h => Some h | _ => None end.

Definition message_ok (m : oc_message_t) : Prop := length (msg_data m) = 120%nat ∧ length (ep_address (msg_endpoint m)) = 16%nat.

Section States.
Context {P : Type}.
Implicit Types (s : coap_state P).

(** The references of the events and the transactions. *)
Definition held s : list nat := omap outbound (cs_events s) ++ messages (cs_pool s) (cs_list s).

(** [ex]: references that the code at work holds. *)
Record good (lost ex : list nat) s : Prop := mk_good {
  good_accounted : accounted lost (ex ++ held s) (cs_buffers s);
  good_linked : linked (cs_list s) (cs_pool s);
  good_events : (length (cs_events s) ≤ OC_PROCESS_NUMEVENTS)%nat;
  good_pool : length (cs_pool s) = COAP_MAX_OPEN_TRANSACTIONS;
  good_buffers : length (cs_buffers s) = OC_MAX_NUM_CONCURRENT_REQUESTS;
  good_messages : Forall (λ b, message_ok (bf_message b.2)) (cs_buffers s)
}.

Lemma held_length lost ex s : good lost ex s → (length (held s) ≤ 12)%nat.
Proof.
  intros [_ Hl He Hp _ _]. unfold held. rewrite length_app. pose proof (linked_length _ _ Hl) as Hll. rewrite Hp in Hll.
  assert (length (omap outbound (cs_events s)) ≤ length (cs_events s))%nat as H1 by apply omap_short.
  assert (length (messages (cs_pool s) (cs_list s)) ≤ length (cs_list s))%nat as H2 by apply omap_short.
  unfold OC_PROCESS_NUMEVENTS, COAP_MAX_OPEN_TRANSACTIONS, OC_MAX_NUM_CONCURRENT_REQUESTS in *. lia.
Qed.

Definition set_buffers (bufs : memb buffer) s : coap_state P := {| s with cs_buffers := bufs |}.
Definition set_events (evs : list event) s : coap_state P := {| s with cs_events := evs |}.

(** The buffers change, the references do not. *)
Lemma good_set_buffers lost lost' ex ex' s bufs : good lost ex s → accounted lost' (ex' ++ held s) bufs →
  length bufs = length (cs_buffers s) → Forall (λ b, message_ok (bf_message b.2)) bufs → good lost' ex' (set_buffers bufs s).
Proof. intros [] Ha Hlen Hm. split; [done..| |done]. cbn. congruence. Qed.

Lemma messages_alter (Q : oc_message_t → Prop) (f : Z * buffer → Z * buffer) h (m : memb buffer) :
  (∀ b, Q (bf_message b.2) → Q (bf_message (f b).2)) →
  Forall (λ b, Q (bf_message b.2)) m → Forall (λ b, Q (bf_message b.2)) (alter f h m).
Proof. intros Hf Hm. apply Forall_alter; [done|]. auto. Qed.

Lemma unref_length h m : length (unref h m) = length m.
Proof.
  unfold unref, _oc_memb_free, sub_ref. cbv zeta. destruct (alter _ _ _ !! h) as [[c b]|]; [case_match|]; by rewrite ?length_alter.
Qed.

Lemma unref_messages (Q : oc_message_t → Prop) h m :
  Forall (λ b, Q (bf_message b.2)) m → Forall (λ b, Q (bf_message b.2)) (unref h m).
Proof.
  intros Hm. assert (Hs : Forall (λ b, Q (bf_message b.2)) (sub_ref h m)) by (by apply messages_alter).
  unfold unref. cbv zeta. destruct (sub_ref h m !! h) as [[c b]|]; [|done]. case_match; [|done].
  apply messages_alter; [|done]. intros b' Hb'. by case_match.
Qed.

(** *** References *)

Lemma good_lt lost ex s h : good lost ex s → h ∈ ex ++ held s → (h < length (cs_buffers s))%nat.
Proof. intros [Ha _ _ _ _ _] Hh. destruct (accounted_held _ _ _ _ Ha Hh) as (_ & b & Hb & _). by eapply lookup_lt_Some. Qed.

Lemma good_count lost ex s : good lost ex s → (length ex ≤ 200)%nat → Z.of_nat (length (ex ++ held s)) < 255.
Proof. intros Hg%held_length Hex. rewrite length_app. lia. Qed.

Lemma good_add lost ex s h : good lost ex s → (length ex ≤ 100)%nat → h ∈ ex ++ held s →
  good lost (h :: ex) (set_buffers (add_ref h (cs_buffers s)) s).
Proof.
  intros Hg Hex Hh. apply good_set_buffers with lost ex; [done| | |].
  - apply accounted_add; [apply Hg|done|eapply good_count; [done|lia]].
  - apply length_alter.
  - apply messages_alter; [done|apply Hg].
Qed.

Lemma good_sub lost ex s h : good lost (h :: ex) s → (length ex ≤ 100)%nat → h ∈ ex ++ held s →
  good lost ex (set_buffers (sub_ref h (cs_buffers s)) s).
Proof.
  intros Hg Hex Hh. apply good_set_buffers with lost (h :: ex); [done| | |].
  - apply accounted_sub; [apply Hg|done|]. pose proof (good_count _ _ _ Hg) as Hc. cbn [app length] in Hc. specialize (Hc ltac:(lia)). lia.
  - apply length_alter.
  - apply messages_alter; [done|apply Hg].
Qed.

Lemma good_unref lost ex s h : good lost (h :: ex) s → (length ex ≤ 100)%nat →
  good lost ex (set_buffers (unref h (cs_buffers s)) s).
Proof.
  intros Hg Hex. apply good_set_buffers with lost (h :: ex); [done| | |].
  - apply accounted_unref; [apply Hg|]. pose proof (good_count _ _ _ Hg) as Hc. cbn [app length] in Hc. specialize (Hc ltac:(lia)). lia.
  - apply unref_length.
  - apply unref_messages, Hg.
Qed.

(** A reference goes from the code to an event, and back when the event comes. *)
Lemma good_post lost ex s h : good lost (h :: ex) s → (length (cs_events s) < OC_PROCESS_NUMEVENTS)%nat →
  good lost ex (set_events (cs_events s ++ [OUTBOUND_NETWORK_EVENT h]) s).
Proof.
  intros [] Hlt. split; [|done| |done..].
  - eapply accounted_perm; [|done]. unfold held. cbn [cs_events cs_pool cs_list set_events]. rewrite omap_app.
    cbn [omap list_omap outbound]. solve_Permutation.
  - cbn. rewrite length_app. cbn [length]. lia.
Qed.

Lemma good_event lost ex s ev evs : good lost ex s → cs_events s = ev :: evs →
  good lost (match outbound ev with Some h => h :: ex | None => ex end) (set_events evs s).
Proof.
  intros [] He. split; [|done| |done..].
  - eapply accounted_perm; [|done]. unfold held. cbn [cs_events cs_pool cs_list set_events]. rewrite He. cbn [omap list_omap].
    destruct (outbound ev); solve_Permutation.
  - cbn. rewrite He in good_events0. cbn [length] in good_events0. lia.
Qed.
End States.

(** ** The operations *)

Section Operations.
Context {P : Type} `{Product P} `{!ChannelProduct P}.
Implicit Types (s : coap_state P).

Lemma oc_message_add_ref_eq h s : oc_message_add_ref (Some h) s = Some ((), set_buffers (add_ref h (cs_buffers s)) s).
Proof. done. Qed.

Lemma oc_message_unref_eq h s : (h < length (cs_buffers s))%nat →
  oc_message_unref (Some h) s = Some ((), set_buffers (unref h (cs_buffers s)) s).
Proof.
  intros [[c b] Hb]%lookup_lt_is_Some_2. unfold unref. cbv zeta.
  unfold oc_message_unref. erewrite bind_Some by reflexivity. cbn [cs_buffers]. fold (sub_ref h (cs_buffers s)).
  assert (Hs : ∃ b, sub_ref h (cs_buffers s) !! h = Some b) by (unfold sub_ref; rewrite list_lookup_alter, decide_True, Hb by done; eauto).
  destruct Hs as [[c' b'] Hs]. erewrite bind_Some by (unfold get_buffer; cbn [cs_buffers]; rewrite Hs; reflexivity).
  rewrite Hs. by case_match.
Qed.

Lemma oc_process_post_eq ev s :
  oc_process_post ev s = Some (if (length (cs_events s) =? OC_PROCESS_NUMEVENTS)%nat then (false, s)
                               else (true, set_events (cs_events s ++ [ev]) s)).
Proof. unfold oc_process_post. mstep. by case_match. Qed.

Lemma oc_send_message_eq h s :
  oc_send_message h s = Some ((), if (length (cs_events s) =? OC_PROCESS_NUMEVENTS)%nat then set_buffers (sub_ref h (cs_buffers s)) s
                                  else set_events (cs_events s ++ [OUTBOUND_NETWORK_EVENT h]) s).
Proof. unfold oc_send_message. unfold mbind, M_bind. rewrite oc_process_post_eq. by destruct (_ =? _)%nat. Qed.

(** Sending a message that something else refers to as well. *)
Lemma good_send lost ex s h : good lost (h :: ex) s → (length ex ≤ 100)%nat → h ∈ ex ++ held s →
  ∃ s', oc_send_message h s = Some ((), s') ∧ good lost ex s' ∧
    cs_pool s' = cs_pool s ∧ cs_list s' = cs_list s ∧ cs_initialized s' = cs_initialized s ∧ cs_prod s' = cs_prod s ∧
    cs_events s' = (if (length (cs_events s) =? OC_PROCESS_NUMEVENTS)%nat then cs_events s else cs_events s ++ [OUTBOUND_NETWORK_EVENT h]).
Proof.
  intros Hg Hex Hh. rewrite oc_send_message_eq. eexists. split; [done|]. destruct (_ =? _)%nat eqn:Hfull.
  - split; [by apply good_sub|done].
  - apply Nat.eqb_neq in Hfull. pose proof (good_events _ _ _ Hg). split; [apply good_post; [done|lia]|done].
Qed.

(** *** Transactions *)

Definition clear_pool (t : nat) (pool : memb coap_transaction) : memb coap_transaction :=
  _oc_memb_free t (alter (λ b : Z * coap_transaction, (b.1, (λ tr : coap_transaction, {| tr with tr_idle_timeout_timer := None |}) b.2)) t pool).

Lemma clear_pool_at t pool tr : pool !! t = Some (1, tr) → clear_pool t pool !! t = Some (0, {| tr with tr_idle_timeout_timer := None |}).
Proof. intros Ht. unfold clear_pool, _oc_memb_free. rewrite list_lookup_alter, decide_True by done. by rewrite list_lookup_alter, decide_True, Ht by done. Qed.

Lemma clear_pool_ne t x pool : x ≠ t → clear_pool t pool !! x = pool !! x.
Proof. intros Hx. unfold clear_pool, _oc_memb_free. by rewrite !list_lookup_alter, !decide_False by congruence. Qed.

Lemma clear_pool_length t pool : length (clear_pool t pool) = length pool.
Proof. unfold clear_pool, _oc_memb_free. by rewrite !length_alter. Qed.

(** Its reference to the message goes with the transaction. *)
Lemma coap_clear_transaction_spec lost ex s t : good lost ex s → (length ex ≤ 100)%nat → t ∈ cs_list s →
  ∃ s', coap_clear_transaction (Some t) s = Some ((), s') ∧ good lost ex s' ∧
    cs_list s' = oc_list_remove (cs_list s) t ∧ cs_events s' = cs_events s ∧ cs_initialized s' = cs_initialized s ∧
    cs_prod s' = cs_prod s ∧ cs_pool s' = clear_pool t (cs_pool s).
Proof.
  intros Hg Hex Ht. destruct (linked_at _ _ _ (good_linked _ _ _ Hg) Ht) as (tr & h & Hp & Hm & Hmo).
  assert (Hperm : ex ++ held s ≡ₚ h :: ex ++ (omap outbound (cs_events s) ++ messages (clear_pool t (cs_pool s)) (oc_list_remove (cs_list s) t))).
  { unfold held. rewrite (messages_remove _ _ _ _ Hmo Ht). rewrite (messages_ext _ (cs_pool s) (clear_pool t (cs_pool s))).
    - solve_Permutation.
    - intros x Hx. unfold message_of. rewrite clear_pool_ne; [done|]. intros ->.
      rewrite remove_filter in Hx by apply (good_linked _ _ _ Hg). by apply list_elem_of_filter in Hx as [? _]. }
  assert (Hlt : (h < length (cs_buffers s))%nat) by (eapply good_lt; [done|]; rewrite Hperm; by left).
  eexists. split.
  - unfold coap_clear_transaction. unfold on_transaction at 1. unfold modify, mbind, M_bind. unfold get_transaction. cbn [cs_pool].
    rewrite list_lookup_alter, decide_True, Hp by done. cbn [fmap option_fmap option_map fst snd mbind option_bind tr_message]. rewrite Hm.
    rewrite oc_message_unref_eq by done. reflexivity.
  - cbn [set_buffers cs_buffers cs_list cs_events cs_initialized cs_prod cs_pool]. split; [|done].
    destruct Hg as [Ha Hl He Hpl Hbl Hmsg]. split.
    + unfold held. cbn [cs_buffers cs_list cs_events cs_pool]. apply accounted_unref; [by eapply accounted_perm|].
      pose proof (Permutation_length Hperm) as Hplen.
      pose proof (good_count lost ex s (mk_good _ _ _ Ha Hl He Hpl Hbl Hmsg) ltac:(lia)). cbn [length] in Hplen.
      fold (clear_pool t (cs_pool s)). lia.
    + cbn [cs_list cs_pool]. fold (clear_pool t (cs_pool s)). eapply linked_remove; [done..|intros; by apply clear_pool_ne|].
      eexists. by apply clear_pool_at.
    + done.
    + cbn [cs_pool]. fold (clear_pool t (cs_pool s)). by rewrite clear_pool_length.
    + cbn [cs_buffers]. by rewrite unref_length.
    + cbn [cs_buffers]. by apply unref_messages.
Qed.
End Operations.

(** ** Steps of the CoAP layer

    What a new transaction, sending, looking through the transactions and the
    next event do, and what every sequence of them keeps. *)


Lemma alter_insert {A} (f : A → A) i x (l : list A) : alter f i (<[i := x]> l) = <[i := f x]> l.
Proof. by rewrite !list_insert_alter, list_alter_alter_eq. Qed.

(** The event of a message, if there is room. *)
Definition post (h : nat) (evs : list event) : list event :=
  if (length evs =? OC_PROCESS_NUMEVENTS)%nat then evs else evs ++ [OUTBOUND_NETWORK_EVENT h].

Definition endpoint_ok (ep : oc_endpoint_t) : Prop := length (ep_address ep) = 16%nat.

Section Operations.
Context {P : Type} `{Product P} `{!ChannelProduct P}.
Implicit Types (s : coap_state P).

Lemma allocate_spec lost ex s : good lost ex s →
  match allocate_message s with
  | Some (Some h, s') => (∃ b, cs_buffers s !! h = Some (0, b)) ∧ (h ∉ ex ++ held s) ∧
      s' = set_buffers (<[h := (1, mk_buffer zero_message 1)]> (cs_buffers s)) s ∧ good lost (h :: ex) s' ∧ oc_buffer_outgoing_free_count s ≠ 0%nat
  | Some (None, s') => s' = s ∧ oc_buffer_outgoing_free_count s = 0%nat
  | None => False
  end.
Proof.
  intros Hg. unfold allocate_message, oc_buffer_outgoing_free_count. pose proof (alloc_spec zero_buffer (cs_buffers s)) as Ha.
  destruct (_oc_memb_alloc _ _) as [[h bufs]|]; [|done]. destruct Ha as ([b Hb] & -> & Hfree). rewrite alter_insert. cbn [fst snd zero_buffer bf_message].
  destruct (accounted_alloc _ _ _ _ _ (mk_buffer zero_message 1) Hb eq_refl (good_accounted _ _ _ Hg)) as (Hl & Hh & Hacc).
  split_and!; [by exists b|done|done| |done]. apply good_set_buffers with lost ex; [done|done|apply length_insert|].
  apply Forall_insert; [apply Hg|done].
Qed.

Lemma good_endpoint lost ex s h f : (∀ m, message_ok m → message_ok (f m)) → good lost ex s →
  good lost ex (set_buffers (alter (λ b : Z * buffer, (b.1, mk_buffer (f (bf_message b.2)) (bf_ref_count b.2))) h (cs_buffers s)) s).
Proof.
  intros Hf Hg. apply good_set_buffers with lost ex; [done| |apply length_alter|].
  - apply (accounted_message _ _ _ _ (λ b, mk_buffer (f (bf_message b)) (bf_ref_count b))); [done|apply Hg].
  - apply messages_alter; [|apply Hg]. intros b. apply Hf.
Qed.

Definition fresh (endpoint : oc_endpoint_t) : oc_message_t := {| zero_message with msg_endpoint := endpoint |}.

Lemma coap_new_transaction_eq s mid endpoint t pool h bufs :
  _oc_memb_alloc zero_transaction (cs_pool s) = Some (t, pool) → _oc_memb_alloc zero_buffer (cs_buffers s) = Some (h, bufs) → t ∉ cs_list s →
  coap_new_transaction mid endpoint s =
  Some (Some t, {| s with cs_buffers := <[h := (1, mk_buffer (fresh endpoint) 1)]> (cs_buffers s);
                          cs_pool := <[t := (1, mk_transaction mid 0 None (Some h))]> (cs_pool s); cs_list := cs_list s ++ [t] |}).
Proof.
  intros Hpool Hbufs Ht. unfold coap_new_transaction. erewrite bind_Some by reflexivity. rewrite Hpool.
  unfold oc_internal_allocate_outgoing_message, allocate_message, mbind, M_bind, modify. cbn [cs_buffers]. rewrite Hbufs.
  unfold on_transaction, on_buffer, modify, mret, M_ret, get_state, lift. cbn [mbind option_bind cs_pool cs_list cs_buffers].
  unfold oc_list_add. rewrite decide_False by done. cbn [mbind option_bind].
  pose proof (alloc_spec zero_transaction (cs_pool s)) as Ha. rewrite Hpool in Ha. destruct Ha as (_ & -> & _).
  pose proof (alloc_spec zero_buffer (cs_buffers s)) as Hb. rewrite Hbufs in Hb. destruct Hb as (_ & -> & _).
  by rewrite !alter_insert.
Qed.

(** A new transaction takes a free block and a free buffer, if there are both. *)
Lemma coap_new_transaction_spec lost s mid endpoint : good lost [] s → endpoint_ok endpoint →
  ∃ r s', coap_new_transaction mid endpoint s = Some (r, s') ∧ good lost [] s' ∧
    cs_events s' = cs_events s ∧ cs_initialized s' = cs_initialized s ∧ cs_prod s' = cs_prod s ∧
    match r with
    | Some t => coap_transactions_free_count s ≠ 0%nat ∧ oc_buffer_outgoing_free_count s ≠ 0%nat ∧ (t ∉ cs_list s) ∧
        cs_list s' = cs_list s ++ [t] ∧
        ∃ h b, cs_buffers s !! h = Some (0, b) ∧ (h ∉ held s) ∧
          cs_buffers s' = <[h := (1, mk_buffer (fresh endpoint) 1)]> (cs_buffers s) ∧
          cs_pool s' = <[t := (1, mk_transaction mid 0 None (Some h))]> (cs_pool s)
    | None => (coap_transactions_free_count s = 0%nat ∨ oc_buffer_outgoing_free_count s = 0%nat) ∧
        cs_list s' = cs_list s ∧ cs_buffers s' = cs_buffers s
    end.
Proof.
  intros Hg Hep. unfold coap_transactions_free_count, oc_buffer_outgoing_free_count.
  pose proof (alloc_spec zero_transaction (cs_pool s)) as Ha. pose proof (alloc_spec zero_buffer (cs_buffers s)) as Hb.
  destruct (_oc_memb_alloc zero_transaction _) as [[t pool]|] eqn:Hpool.
  2: { unfold coap_new_transaction. erewrite bind_Some by reflexivity. rewrite Hpool. eexists _, _. split; [reflexivity|]. by split_and!; auto. }
  destruct Ha as ([tr Htr] & Heq & Hfree).
  assert (Ht : t ∉ cs_list s).
  { intros Ht. destruct (linked_at _ _ _ (good_linked _ _ _ Hg) Ht) as (tr' & h & Hp & _). congruence. }
  destruct (_oc_memb_alloc zero_buffer _) as [[h bufs]|] eqn:Halloc.
  - rewrite (coap_new_transaction_eq _ _ _ _ _ _ _ Hpool Halloc Ht). destruct Hb as ([b Hb] & _ & Hfree').
    eexists _, _. split; [reflexivity|]. cbn [cs_events cs_initialized cs_prod cs_list cs_buffers cs_pool].
    destruct (accounted_alloc _ _ _ _ _ (mk_buffer (fresh endpoint) 1) Hb eq_refl (good_accounted _ _ _ Hg)) as (Hl & Hh & Hacc).
    cbn [app] in Hh, Hacc. split; [|split_and!; [done..|]; exists h, b; by split_and!].
    destruct Hg as [Ha Hlk He Hpl Hbl Hmsg]. split; cbn [cs_list cs_pool cs_events cs_buffers].
    + eapply accounted_perm; [|exact Hacc]. unfold held. cbn [cs_list cs_pool cs_events app]. rewrite messages_app, (messages_ext (cs_list s) (cs_pool s) (<[t:=_]> (cs_pool s))).
      2: { intros x Hx. unfold message_of. rewrite list_lookup_insert_ne; [done|]. intros ->. done. }
      unfold messages at 3. cbn [omap list_omap]. unfold message_of at 1. rewrite list_lookup_insert_eq by by eapply lookup_lt_Some. cbn. solve_Permutation.
    + eapply linked_add; [done|done| |].
      * intros x Hx. by rewrite list_lookup_insert_ne.
      * eexists. rewrite list_lookup_insert_eq by by eapply lookup_lt_Some. split; [done|by eexists].
    + done.
    + by rewrite length_insert.
    + by rewrite length_insert.
    + apply Forall_insert; [done|]. split; [done|exact Hep].
  - unfold coap_new_transaction. erewrite bind_Some by reflexivity. rewrite Hpool, Heq.
    unfold oc_internal_allocate_outgoing_message, allocate_message, mbind, M_bind, modify. cbn [cs_buffers]. rewrite Halloc.
    unfold on_transaction, modify, mret, M_ret. cbn [cs_pool cs_list cs_buffers]. unfold _oc_memb_free. rewrite !alter_insert.
    cbn [fst snd Z.ltb Z.compare Z.sub Z.add Z.opp Z.pos_sub]. eexists _, _. split; [reflexivity|]. cbn [cs_events cs_initialized cs_prod cs_list cs_buffers].
    split; [|split_and!; [done..| |done|done]; by right].
    destruct Hg as [Ha [Hnd Hlk] He Hpl Hbl Hmsg]. split; cbn [cs_list cs_pool cs_events cs_buffers]; [| |done| |done|done].
    + unfold held. cbn [cs_list cs_pool cs_events]. rewrite (messages_ext _ (cs_pool s)); [done|].
      intros x Hx. unfold message_of. rewrite list_lookup_insert_ne; [done|]. intros ->. done.
    + split; [done|]. intros x. destruct (decide (x = t)) as [->|Hne].
      * rewrite list_lookup_insert_eq by by eapply lookup_lt_Some. by rewrite decide_False.
      * rewrite list_lookup_insert_ne by done. apply Hlk.
    + by rewrite length_insert.
Qed.

(** *** Sending *)

Lemma held_message s t : linked (cs_list s) (cs_pool s) → t ∈ cs_list s →
  ∃ tr h, cs_pool s !! t = Some (1, tr) ∧ tr_message tr = Some h ∧ message_of (cs_pool s) t = Some h ∧ h ∈ held s.
Proof.
  intros Hl Ht. destruct (linked_at _ _ _ Hl Ht) as (tr & h & Hp & Hm & Hmo). exists tr, h. split_and!; [done..|].
  unfold held. apply elem_of_app. right. apply list_elem_of_omap. by exists t.
Qed.

Definition set_timer (now : Z) (tr : coap_transaction) : coap_transaction :=
  {| tr with tr_idle_timeout_timer := Some (oc_timer_set now OC_TRANSACTION_CACHED_IDLE_TIMEOUT_SECONDS) |}.

(** A change of transactions that keeps their messages. *)
Lemma good_pool_map lost ex s (f : coap_transaction → coap_transaction) t : (∀ tr, tr_message (f tr) = tr_message tr) → good lost ex s →
  good lost ex {| s with cs_pool := alter (λ b : Z * coap_transaction, (b.1, f b.2)) t (cs_pool s) |}.
Proof.
  intros Hf [Ha [Hnd Hl] He Hp Hb Hm]. split; cbn [cs_list cs_pool cs_events cs_buffers]; [| |done| |done..].
  - unfold held in *. cbn [cs_list cs_pool cs_events]. rewrite (messages_ext _ (cs_pool s)); [done|]. intros x _. unfold message_of.
    rewrite list_lookup_alter. destruct (decide (t = x)) as [->|]; [|done]. destruct (cs_pool s !! x) as [[c tr]|]; [|done]. apply Hf.
  - split; [done|]. intros x. specialize (Hl x). rewrite list_lookup_alter. destruct (decide (t = x)) as [->|]; [|done].
    destruct (cs_pool s !! x) as [[c tr]|]; [|done]. cbn. by rewrite Hf.
  - by rewrite length_alter.
Qed.

Lemma coap_send_transaction_spec lost s now t cache : good lost [] s → t ∈ cs_list s → cs_initialized s = true →
  ∃ h s', message_of (cs_pool s) t = Some h ∧ coap_send_transaction now t cache s = Some ((), s') ∧ good lost [] s' ∧
    cs_initialized s' = true ∧ cs_prod s' = cs_prod s ∧ cs_events s' = post h (cs_events s) ∧
    cs_list s' = (if cache then cs_list s else oc_list_remove (cs_list s) t) ∧
    cs_pool s' = (if cache then alter (λ b : Z * coap_transaction, (b.1, set_timer now b.2)) t (cs_pool s) else clear_pool t (cs_pool s)).
Proof.
  intros Hg Ht Hi. destruct (held_message _ _ (good_linked _ _ _ Hg) Ht) as (tr & h & Hp & Hm & Hmo & Hh). exists h.
  pose proof (good_add _ _ _ h Hg ltac:(cbn; lia) Hh) as Hg1. set (s1 := set_buffers (add_ref h (cs_buffers s)) s) in *.
  destruct (good_send _ _ _ _ Hg1 ltac:(cbn; lia) Hh) as (s2 & Hsend & Hg2 & Hp2 & Hl2 & Hi2 & Hpr2 & He2).
  assert (Hstart : ∀ m : M (coap_state P) unit, (tr ← get_transaction t; oc_message_add_ref (tr_message tr);; h ← lift (tr_message tr); oc_send_message h;; m) s = m s2).
  { intros m. erewrite bind_Some by (unfold get_transaction; rewrite Hp; reflexivity). rewrite Hm. erewrite bind_Some by apply oc_message_add_ref_eq.
    erewrite bind_lift by done. by erewrite bind_Some by exact Hsend. }
  unfold coap_send_transaction. erewrite bind_Some by reflexivity. rewrite Hi. cbn [negb]. rewrite Hstart.
  destruct cache.
  - eexists. split; [done|]. split; [reflexivity|]. cbn [cs_initialized cs_prod cs_events cs_list cs_pool].
    split; [by apply (good_pool_map _ _ s2 (set_timer now))|]. rewrite Hp2, Hl2, Hi2, Hpr2, He2. by split_and!.
  - assert (Ht2 : t ∈ cs_list s2) by by rewrite Hl2.
    destruct (coap_clear_transaction_spec _ _ _ _ Hg2 ltac:(cbn; lia) Ht2) as (s3 & Hc & Hg3 & Hl3 & He3 & Hi3 & Hpr3 & Hp3).
    exists s3. split; [done|]. split; [exact Hc|]. rewrite Hl3, He3, Hi3, Hpr3, Hp3, He2, Hl2, Hp2, Hi2, Hpr2. by split_and!.
Qed.

(** *** Looking through the transactions *)

Definition running (pool : memb coap_transaction) (t : nat) : bool :=
  match pool !! t with Some (_, tr) => negb (oc_etimer_expired (tr_idle_timeout_timer tr)) | None => false end.
Definition mid_of (pool : memb coap_transaction) (t : nat) : Z := match pool !! t with Some (_, tr) => tr_mid tr | None => 0 end.

Definition expired (pool : memb coap_transaction) (l : list nat) : list nat := filter (λ t, running pool t = false) l.
Definition unanswered (pool : memb coap_transaction) (l : list nat) : list nat := filter (λ t, running pool t = true) l.

Lemma list_next_app l1 t l2 : NoDup (l1 ++ t :: l2) → list_next (l1 ++ t :: l2) t = head l2.
Proof.
  induction l1 as [|x l1 IH]; cbn [app list_next]; [by rewrite decide_True|]. intros [Hx Hnd]%NoDup_cons.
  rewrite decide_False; [by apply IH|]. intros ->. apply Hx, elem_of_app. right. by left.
Qed.

End Operations.

Section Looking.
Context {P : Type} `{Product P} `{!ChannelProduct P}.
Context (oc_ri_free_client_cbs_by_mid : Z → P → P).
Implicit Types (s : coap_state P).

(** What a look through [l] does to the callbacks and the queue. *)
Definition told (pool : memb coap_transaction) (l : list nat) (p : P) : P :=
  foldl (λ p t, oc_ri_free_client_cbs_by_mid (mid_of pool t) p) p (expired pool l).
Definition sent_again (pool : memb coap_transaction) (l : list nat) (evs : list event) : list event :=
  foldl (λ evs h, post h evs) evs (messages pool (unanswered pool l)).

Lemma running_ext pool pool' t : pool' !! t = pool !! t → running pool' t = running pool t.
Proof. unfold running. by intros ->. Qed.

Lemma told_ext pool pool' l p : (∀ t, t ∈ l → pool' !! t = pool !! t) → told pool' l p = told pool l p.
Proof.
  unfold told, expired. revert p. induction l as [|t l IH]; intros p Heq; [done|]. rewrite !filter_cons.
  rewrite (decide_ext _ (running pool t = false)) by (rewrite (running_ext pool); [done|]; apply Heq; by left).
  assert (IH' : ∀ p, foldl (λ p t, oc_ri_free_client_cbs_by_mid (mid_of pool' t) p) p (filter (λ t, running pool' t = false) l) =
    foldl (λ p t, oc_ri_free_client_cbs_by_mid (mid_of pool t) p) p (filter (λ t, running pool t = false) l)) by (intros; apply IH; intros; apply Heq; by right).
  case_decide; [|done]. cbn [foldl]. rewrite IH'. unfold mid_of at 2 4. by rewrite (Heq t) by (by left).
Qed.

Lemma sent_again_ext pool pool' l evs : (∀ t, t ∈ l → pool' !! t = pool !! t) → sent_again pool' l evs = sent_again pool l evs.
Proof.
  intros Heq. unfold sent_again. f_equal. assert (Hu : unanswered pool' l = unanswered pool l).
  { unfold unanswered. induction l as [|t l IH]; [done|]. rewrite !filter_cons.
    rewrite (decide_ext _ (running pool t = true)) by (rewrite (running_ext pool); [done|]; apply Heq; by left). rewrite IH by (intros; apply Heq; by right). done. }
  rewrite Hu. apply messages_ext. intros t [_ Ht]%list_elem_of_filter. unfold message_of. by rewrite Heq.
Qed.

Lemma remove_head l t : oc_list_remove (t :: l) t = l.
Proof. cbn. by rewrite decide_True. Qed.

Lemma check_loop_spec lost now l : ∀ fuel s, good lost [] s → cs_list s = l → cs_initialized s = true → (length l ≤ fuel)%nat →
  ∃ s', check_loop oc_ri_free_client_cbs_by_mid fuel now (head l) s = Some ((), s') ∧ good lost [] s' ∧ cs_initialized s' = true ∧
    cs_list s' = [] ∧ cs_prod s' = told (cs_pool s) l (cs_prod s) ∧ cs_events s' = sent_again (cs_pool s) l (cs_events s).
Proof.
  induction l as [|t l IH]; intros fuel s Hg Hl Hi Hfuel.
  { exists s. split; [by destruct fuel|]. by split_and!. }
  destruct fuel as [|fuel]; [cbn in Hfuel; lia|]. cbn [length] in Hfuel. cbn [head check_loop].
  assert (Ht : t ∈ cs_list s) by (rewrite Hl; by left).
  assert (Hnd : NoDup (t :: l)) by (rewrite <- Hl; apply (good_linked _ _ _ Hg)).
  destruct (held_message _ _ (good_linked _ _ _ Hg) Ht) as (tr & h & Hp & Hm & Hmo & Hh).
  erewrite bind_Some by reflexivity. rewrite Hl, (list_next_app [] t l Hnd : list_next (t :: l) t = head l).
  erewrite bind_Some by (unfold get_transaction; rewrite Hp; reflexivity).
  assert (Hne : ∀ x, x ∈ l → x ≠ t) by (apply NoDup_cons in Hnd as [Htl _]; by intros x Hx ->).
  destruct (oc_etimer_expired (tr_idle_timeout_timer tr)) eqn:Hexp.
  - erewrite bind_Some by reflexivity. set (s1 := {| s with cs_prod := _ |}).
    assert (Hg1 : good lost [] s1) by (destruct Hg; by split).
    destruct (coap_clear_transaction_spec _ _ _ _ Hg1 ltac:(cbn; lia) Ht) as (s2 & Hc & Hg2 & Hl2 & He2 & Hi2 & Hpr2 & Hp2).
    erewrite bind_Some by exact Hc. cbn [s1 cs_list] in Hl2. rewrite Hl, remove_head in Hl2.
    destruct (IH fuel s2 Hg2 Hl2 ltac:(by rewrite Hi2) ltac:(lia)) as (s' & Hrun & Hg' & Hi' & Hl' & Hpr' & He').
    exists s'. split; [exact Hrun|]. rewrite Hpr', He', Hpr2, He2, Hp2. cbn [s1 cs_pool cs_prod cs_events].
    assert (Hext : ∀ x, x ∈ l → clear_pool t (cs_pool s) !! x = cs_pool s !! x) by (intros x Hx%Hne; by apply clear_pool_ne).
    rewrite (told_ext _ _ _ _ Hext), (sent_again_ext _ _ _ _ Hext). split_and!; [done..| |].
    + unfold told, expired. rewrite filter_cons_True by (unfold running; by rewrite Hp, Hexp). cbn [foldl]. unfold mid_of at 3. by rewrite Hp.
    + unfold sent_again, unanswered. by rewrite filter_cons_False by (unfold running; by rewrite Hp, Hexp).
  - set (f := λ tr : coap_transaction, {| tr with tr_retrans_counter := u8 (tr_retrans_counter tr + 1) |}).
    pose proof (good_pool_map _ _ _ f t (λ _, eq_refl) Hg) as Hg1. erewrite bind_Some by reflexivity. set (s1 := {| s with cs_pool := _ |}) in *.
    erewrite bind_Some by reflexivity. destruct (coap_send_transaction_spec _ s1 now t false Hg1 Ht Hi) as (h' & s2 & Hmo' & Hs & Hg2 & Hi2 & Hpr2 & He2 & Hl2 & Hp2).
    assert (h' = h) as ->.
    { cbn [s1 cs_pool] in Hmo'. unfold message_of in Hmo'. rewrite list_lookup_alter, decide_True, Hp in Hmo' by done. cbn in Hmo'. congruence. }
    erewrite bind_Some by exact Hs. erewrite bind_Some by reflexivity. cbn [s1 cs_list] in Hl2 |- *. rewrite Hl, remove_head in Hl2. rewrite Hl, Hl2.
    replace (1 <? length (t :: l) - length l)%nat with false by (symmetry; apply Nat.ltb_ge; cbn; lia).
    destruct (IH fuel s2 Hg2 Hl2 Hi2 ltac:(lia)) as (s' & Hrun & Hg' & Hi' & Hl' & Hpr' & He').
    exists s'. split; [exact Hrun|]. rewrite Hpr', He', Hpr2, He2, Hp2. cbn [s1 cs_pool cs_prod cs_events].
    assert (Hext : ∀ x, x ∈ l → clear_pool t (alter (λ b : Z * coap_transaction, (b.1, f b.2)) t (cs_pool s)) !! x = cs_pool s !! x).
    { intros x Hx%Hne. rewrite clear_pool_ne by done. by rewrite list_lookup_alter, decide_False. }
    rewrite (told_ext _ _ _ _ Hext), (sent_again_ext _ _ _ _ Hext). split_and!; [done..| |].
    + unfold told, expired. by rewrite filter_cons_False by (unfold running; by rewrite Hp, Hexp).
    + unfold sent_again, unanswered. rewrite filter_cons_True by (unfold running; by rewrite Hp, Hexp). unfold messages.
      cbn [omap list_omap]. by rewrite Hmo.
Qed.

End Looking.

Section Events.
Context {P : Type} `{Product P} `{!ChannelProduct P}.
Implicit Types (s : coap_state P).

Lemma free_loop_spec lost l : ∀ fuel s, good lost [] s → cs_list s = l → (length l ≤ fuel)%nat →
  ∃ s', free_loop fuel (head l) s = Some ((), s') ∧ good lost [] s' ∧ cs_initialized s' = cs_initialized s ∧ cs_list s' = [] ∧
    cs_events s' = cs_events s ∧ cs_prod s' = cs_prod s.
Proof.
  induction l as [|t l IH]; intros fuel s Hg Hl Hfuel.
  { exists s. split; [by destruct fuel|]. by split_and!. }
  destruct fuel as [|fuel]; [cbn in Hfuel; lia|]. cbn [length] in Hfuel. cbn [head free_loop].
  assert (Ht : t ∈ cs_list s) by (rewrite Hl; by left).
  assert (Hnd : NoDup (t :: l)) by (rewrite <- Hl; apply (good_linked _ _ _ Hg)).
  erewrite bind_Some by reflexivity. rewrite Hl, (list_next_app [] t l Hnd : list_next (t :: l) t = head l).
  destruct (coap_clear_transaction_spec _ _ _ _ Hg ltac:(cbn; lia) Ht) as (s2 & Hc & Hg2 & Hl2 & He2 & Hi2 & Hpr2 & Hp2).
  erewrite bind_Some by exact Hc. rewrite Hl, remove_head in Hl2. rewrite <- He2, <- Hi2, <- Hpr2. apply IH; [done..|lia].
Qed.

(** *** Events *)

Lemma oc_send_buffer_defined m (p : P) : message_ok m → ∃ r p', oc_send_buffer m p = Some (r, p').
Proof.
  intros [Hd He]. unfold oc_send_buffer, _nexus_oc_wrapper_inner_network_send. cbv zeta. cbn [msg_endpoint ep_flags msg_length msg_data].
  erewrite bind_Some by reflexivity. set (multi := negb _). set (ep := {| ep_flags := _ |}).
  assert (Hid : ∃ id, nexus_oc_wrapper_oc_endpoint_to_nx_id ep = Some id).
  { unfold nexus_oc_wrapper_oc_endpoint_to_nx_id. cbv zeta. cbn [ep ep_address].
    generalize dependent (ep_address (msg_endpoint m)). intros l Hl.
    do 16 (destruct l as [|? l]; [done|]). eauto. }
  destruct Hid as [id Hid].
  assert (Hdest : ∃ id, (if multi then mret NEXUS_OC_WRAPPER_MULTICAST_NX_ID else lift (nexus_oc_wrapper_oc_endpoint_to_nx_id ep)) p = Some (id, p)).
  { destruct multi; [by eexists|]. exists id. unfold lift. by rewrite Hid. }
  destruct Hdest as [id' Hdest]. erewrite bind_Some by exact Hdest. destruct (_ <? msg_length m) eqn:Hlen; [by eexists _, _|].
  apply Z.ltb_ge in Hlen. unfold NEXUS_CHANNEL_MAX_COAP_TOTAL_MESSAGE_SIZE in Hlen.
  assert (Hslice : slice (msg_data m) 0 (Z.to_nat (msg_length m)) = Some (take (Z.to_nat (msg_length m)) (drop 0 (msg_data m)))) by (apply slice_in; lia).
  erewrite bind_lift by exact Hslice. by eexists _, _.
Qed.

Lemma message_buffer_handler_spec lost ex s h : good lost (h :: ex) s → (length ex ≤ 100)%nat →
  ∃ s', message_buffer_handler h s = Some ((), s') ∧ good lost ex s' ∧ cs_initialized s' = cs_initialized s ∧ cs_list s' = cs_list s ∧
    cs_events s' = cs_events s ∧ cs_pool s' = cs_pool s ∧ cs_buffers s' = unref h (cs_buffers s) ∧
    ∃ c b r, cs_buffers s !! h = Some (c, b) ∧ oc_send_buffer (bf_message b) (cs_prod s) = Some (r, cs_prod s').
Proof.
  intros Hg Hex. pose proof (good_lt _ _ _ h Hg ltac:(by left)) as Hlt. destruct (lookup_lt_is_Some_2 _ _ Hlt) as [[c b] Hb].
  pose proof (good_messages _ _ _ Hg) as Hmsg. rewrite Forall_lookup in Hmsg. specialize (Hmsg _ _ Hb). cbn in Hmsg.
  destruct (oc_send_buffer_defined _ (cs_prod s) Hmsg) as (r & p' & Hsend).
  unfold message_buffer_handler. erewrite bind_Some by (unfold get_buffer; rewrite Hb; reflexivity).
  erewrite bind_Some by (unfold zoom; rewrite Hsend; reflexivity). set (s1 := {| s with cs_prod := p' |}).
  assert (Hg1 : good lost (h :: ex) s1) by (destruct Hg; by split).
  eexists. split; [by apply (oc_message_unref_eq h s1)|]. split; [by apply good_unref|].
  split_and!; [done..|]. by exists c, b, r.
Qed.

Lemma good_post_timer lost ex s : good lost ex s → (length (cs_events s) < OC_PROCESS_NUMEVENTS)%nat →
  good lost ex (set_events (cs_events s ++ [OC_PROCESS_EVENT_TIMER]) s).
Proof.
  intros [] Hlt. split; [|done| |done..].
  - unfold held in *. cbn [cs_events cs_pool cs_list set_events]. rewrite omap_app. cbn [omap list_omap outbound]. by rewrite app_nil_r.
  - cbn. rewrite length_app. cbn [length]. lia.
Qed.

Lemma oc_etimer_process_spec lost s now t : good lost [] s → t ∈ cs_list s →
  ∃ s', oc_etimer_process now t s = Some ((), s') ∧ good lost [] s' ∧ cs_initialized s' = cs_initialized s ∧ cs_list s' = cs_list s ∧
    cs_prod s' = cs_prod s ∧ cs_buffers s' = cs_buffers s.
Proof.
  intros Hg Ht. destruct (linked_at _ _ _ (good_linked _ _ _ Hg) Ht) as (tr & h & Hp & Hm & _).
  unfold oc_etimer_process. erewrite bind_Some by (unfold get_transaction; rewrite Hp; reflexivity).
  assert (Hstay : ∃ s', Some ((), s) = Some ((), s') ∧ good lost [] s' ∧ cs_initialized s' = cs_initialized s ∧ cs_list s' = cs_list s ∧
    cs_prod s' = cs_prod s ∧ cs_buffers s' = cs_buffers s) by by exists s.
  destruct (tr_idle_timeout_timer tr) as [timer|]; [|exact Hstay]. destruct (oc_timer_expired now timer); [|exact Hstay].
  unfold mbind, M_bind. rewrite oc_process_post_eq. destruct (_ =? _)%nat eqn:Hfull; [exact Hstay|]. apply Nat.eqb_neq in Hfull.
  pose proof (good_events _ _ _ Hg). eexists. split; [reflexivity|]. split; [|done].
  apply (good_pool_map _ _ (set_events _ s) (λ tr : coap_transaction, {| tr with tr_idle_timeout_timer := None |})); [done|].
  apply good_post_timer; [done|lia].
Qed.

Lemma do_event_spec (oc_ri_free_client_cbs_by_mid : Z → P → P) lost s now : good lost [] s → cs_initialized s = true →
  ∃ s', do_event oc_ri_free_client_cbs_by_mid now s = Some ((), s') ∧ good lost [] s' ∧ cs_initialized s' = true.
Proof.
  intros Hg Hi. unfold do_event. erewrite bind_Some by reflexivity. destruct (cs_events s) as [|ev evs] eqn:He; [by exists s|].
  erewrite bind_Some by reflexivity. pose proof (good_event _ _ _ _ _ Hg He) as Hg1. fold (set_events evs s). destruct ev; cbn [outbound] in Hg1.
  - destruct (message_buffer_handler_spec _ [] _ _ Hg1 ltac:(cbn; lia)) as (s' & ? & ? & Hi' & _). exists s'. split_and!; [done..|]. by rewrite Hi'.
  - unfold coap_check_transactions. erewrite bind_Some by reflexivity.
    destruct (check_loop_spec oc_ri_free_client_cbs_by_mid lost now (cs_list s) (S (length (cs_list s))) (set_events evs s) Hg1 eq_refl Hi ltac:(lia)) as (s' & ? & ? & ? & _).
    by exists s'.
  - by exists (set_events evs s).
Qed.

(** *** The engine's own messages *)

Lemma good_lose lost ex s h f : (∀ b, bf_message (f b) = bf_message b) → good lost (h :: ex) s → h ∉ ex ++ held s →
  good (h :: lost) ex (set_buffers (alter (λ b : Z * buffer, (b.1, f b.2)) h (cs_buffers s)) s).
Proof.
  intros Hf Hg Hh. apply good_set_buffers with lost (h :: ex); [done| |apply length_alter|].
  - apply accounted_lose; [done|apply Hg].
  - apply messages_alter; [|apply Hg]. intros b. cbn. by rewrite Hf.
Qed.

(** A buffer's only reference. *)
Lemma good_only lost ex s h : good lost (h :: ex) s → h ∉ ex ++ held s → ∃ b, cs_buffers s !! h = Some (1, b) ∧ bf_ref_count b = 1.
Proof.
  intros Hg Hh. destruct (accounted_held _ _ _ h (good_accounted _ _ _ Hg)) as (_ & b & Hb & Hr); [by left|]. exists b. split; [done|].
  rewrite Hr. cbn [app]. rewrite uses_cons, decide_True by done. apply uses_zero in Hh. lia.
Qed.

Lemma sub_ref_at h m c b : m !! h = Some (c, b) → sub_ref h m !! h = Some (c, mk_buffer (bf_message b) (u8 (bf_ref_count b - 1))).
Proof. intros Hm. unfold sub_ref. by rewrite list_lookup_alter, decide_True, Hm by done. Qed.

(** The queue is full: the count wraps round, and the block stays taken. *)
Lemma unsent_unref h m b : m !! h = Some (1, b) → bf_ref_count b = 1 →
  unref h (sub_ref h m) = alter (λ b : Z * buffer, (b.1, mk_buffer (bf_message b.2) (u8 (u8 (bf_ref_count b.2 - 1) - 1)))) h m.
Proof.
  intros Hm Hr. unfold unref. cbv zeta. rewrite (sub_ref_at _ _ _ _ (sub_ref_at _ _ _ _ Hm)). cbn [bf_ref_count]. rewrite Hr. cbn [Z.leb].
  change (u8 (u8 (1 - 1) - 1) <=? 0) with false. cbv iota. unfold sub_ref. by rewrite list_alter_alter_eq.
Qed.

(** Whether a message of the engine gets into the queue. *)
Definition accepts (len : Z) (evs : list event) : bool := (0 <? len) && negb (length evs =? OC_PROCESS_NUMEVENTS)%nat.

Lemma coap_send_message_spec lost ex s h data len : good lost (h :: ex) s → h ∉ ex ++ held s → length data = 120%nat →
  ∃ s', coap_send_message h data len s = Some ((), s') ∧ good (if accepts len (cs_events s) then lost else h :: lost) ex s' ∧
    cs_initialized s' = cs_initialized s ∧ cs_list s' = cs_list s ∧ cs_pool s' = cs_pool s ∧ cs_prod s' = cs_prod s ∧
    cs_events s' = (if accepts len (cs_events s) then cs_events s ++ [OUTBOUND_NETWORK_EVENT h] else cs_events s).
Proof.
  intros Hg Hh Hdata. unfold coap_send_message, accepts.
  set (with_data := λ m : oc_message_t, {| m with msg_data := data |}). set (with_length := λ m : oc_message_t, {| m with msg_length := len |}).
  set (s1 := set_buffers (alter (λ b : Z * buffer, (b.1, mk_buffer (with_data (bf_message b.2)) (bf_ref_count b.2))) h (cs_buffers s)) s).
  assert (Hg1 : good lost (h :: ex) s1) by (apply good_endpoint; [by intros m []|done]).
  rewrite (bind_Some _ _ _ tt s1) by reflexivity. destruct (0 <? len) eqn:Hlen; cbn [andb when].
  2: { destruct (good_only _ _ _ _ Hg1 Hh) as (b & Hb & Hr). erewrite bind_Some by reflexivity.
       erewrite bind_Some by (unfold get_buffer; rewrite Hb; reflexivity). rewrite Hr. exists s1. split; [done|]. split; [|done].
       pose proof (good_lose _ _ _ _ (λ b, b) ltac:(done) Hg1 Hh) as Hg2. rewrite list_alter_id in Hg2 by by intros []. exact Hg2. }
  set (s2 := set_buffers (alter (λ b : Z * buffer, (b.1, mk_buffer (with_length (bf_message b.2)) (bf_ref_count b.2))) h (cs_buffers s1)) s1).
  assert (Hg2 : good lost (h :: ex) s2) by (apply good_endpoint; [by intros m []|done]).
  destruct (good_only _ _ _ _ Hg2 Hh) as (b & Hb & Hr). rewrite bind_assoc, (bind_Some _ _ _ tt s2) by reflexivity.
  erewrite bind_Some by apply oc_send_message_eq. change (cs_events s2) with (cs_events s).
  destruct (_ =? _)%nat eqn:Hfull; cbn [negb].
  - erewrite bind_Some by (unfold get_buffer; cbn [set_buffers cs_buffers]; rewrite (sub_ref_at _ _ _ _ Hb); reflexivity).
    cbn [bf_ref_count]. rewrite Hr. change (u8 (1 - 1) =? 0) with true. cbn [when]. eexists. split.
    { apply oc_message_unref_eq. cbn [set_buffers cs_buffers]. unfold sub_ref. rewrite length_alter. by eapply lookup_lt_Some. }
    split; [|done]. cbn [set_buffers cs_buffers]. rewrite (unsent_unref _ _ _ Hb Hr).
    exact (good_lose _ _ _ _ (λ b, mk_buffer (bf_message b) (u8 (u8 (bf_ref_count b - 1) - 1))) ltac:(done) Hg2 Hh).
  - erewrite bind_Some by (unfold get_buffer; cbn [set_events cs_buffers]; rewrite Hb; reflexivity). rewrite Hr. eexists. split; [reflexivity|].
    split; [|done]. apply Nat.eqb_neq in Hfull. pose proof (good_events _ _ _ Hg2). apply (good_post _ _ s2); [done|]. cbn in *. lia.
Qed.

(** A packet that the serializer can write into a fresh buffer. *)
Definition sendable (pkt : coap_packet coap_ptr) : Prop :=
  ∃ len pk data, coap_serialize_message (Some pkt) (Some (replicate 120 0)) = Some (len, pk, Some data) ∧ length data = 120%nat.

Definition with_token (pkt : coap_packet coap_ptr) (token : option (list Z)) (token_len : Z) : option (coap_packet coap_ptr) :=
  match token with
  | Some token => if 0 <? token_len then '(_, pkt) ← coap_set_token pkt token token_len; Some pkt else Some pkt
  | None => Some pkt
  end.

Lemma coap_send_packet_spec lost s pkt token token_len endpoint pkt' : good lost [] s → endpoint_ok endpoint →
  with_token pkt token token_len = Some pkt' → sendable pkt' →
  ∃ s', coap_send_packet pkt token token_len endpoint s = Some ((), s') ∧
    cs_initialized s' = cs_initialized s ∧ cs_list s' = cs_list s ∧ cs_prod s' = cs_prod s ∧ cs_pool s' = cs_pool s ∧
    (oc_buffer_outgoing_free_count s = 0%nat ∧ s' = s ∨
     oc_buffer_outgoing_free_count s ≠ 0%nat ∧ ∃ h len, (h ∉ lost) ∧ (h < OC_MAX_NUM_CONCURRENT_REQUESTS)%nat ∧
       good (if accepts len (cs_events s) then lost else h :: lost) [] s' ∧
       cs_events s' = (if accepts len (cs_events s) then cs_events s ++ [OUTBOUND_NETWORK_EVENT h] else cs_events s)).
Proof.
  intros Hg Hep Htok (len & pk & data & Hser & Hdata). unfold coap_send_packet, oc_internal_allocate_outgoing_message.
  pose proof (allocate_spec _ _ _ Hg) as Ha. destruct (allocate_message s) as [[[h|] s1]|] eqn:Halloc; [| |done].
  2: { destruct Ha as [-> Hfree]. erewrite bind_Some by exact Halloc. exists s. split_and!; [done..|]. by left. }
  destruct Ha as ([b0 Hb0] & Hh & -> & Hg1 & Hfree). erewrite bind_Some by exact Halloc.
  set (s2 := set_buffers (<[h:=(1, mk_buffer (fresh endpoint) 1)]> (cs_buffers s)) s).
  assert (Hstep : on_buffer h (λ b, let m := bf_message b in mk_buffer {| m with msg_endpoint := endpoint |} (bf_ref_count b))
      (set_buffers (<[h:=(1, mk_buffer zero_message 1)]> (cs_buffers s)) s) = Some ((), s2)).
  { unfold on_buffer, modify, set_buffers, s2. cbn [cs_buffers]. by rewrite alter_insert. }
  assert (Hg2 : good lost [h] s2).
  { pose proof (good_endpoint _ _ _ h (λ m : oc_message_t, {| m with msg_endpoint := endpoint |}) ltac:(by intros m []) Hg1) as Hg2.
    unfold set_buffers in Hg2. cbn [cs_buffers] in Hg2. by rewrite alter_insert in Hg2. }
  cbv beta iota. erewrite bind_Some by exact Hstep.
  assert (Htoken : match token with
      | Some token => if 0 <? token_len then '(_, pkt) ← lift (coap_set_token pkt token token_len); mret pkt else mret pkt
      | None => mret pkt
      end s2 = Some (pkt', s2)).
  { unfold with_token in Htok. destruct token as [tk|]; [|by simplify_eq]. destruct (0 <? token_len); [|by simplify_eq].
    destruct (coap_set_token pkt tk token_len) as [[n p]|]; [|done]. cbn in Htok. by simplify_eq. }
  erewrite bind_Some by exact Htoken.
  erewrite bind_Some by (unfold get_buffer; cbn [s2 set_buffers cs_buffers]; rewrite list_lookup_insert_eq by (by eapply lookup_lt_Some); reflexivity).
  erewrite bind_lift by exact Hser. cbn [default].
  destruct (coap_send_message_spec lost [] s2 h data len Hg2 Hh Hdata) as (s' & Hrun & Hg' & Hi & Hl & Hp & Hpr & He).
  exists s'. split_and!; [exact Hrun|done..|]. right. split; [done|]. exists h, len. split_and!; [| |done|done].
  - by apply (accounted_held _ _ _ h (good_accounted _ _ _ Hg2)); left.
  - rewrite <- (good_buffers _ _ _ Hg). by eapply lookup_lt_Some.
Qed.
End Events.
