(* ===== verification/CoapReach.v ===== *)
(** * What holds of the CoAP layer after any sequence of steps *)


From S2P Require Import Prelude Check Product DesktopProduct Channel ChannelEndpoint Coap CoapSpec CoapTransactions CoapSteps.
Local Open Scope Z_scope.
Local Open Scope c_scope.

(** ** Serializing keeps the size of the buffer *)

Definition keeps (b b' : out_buffer) : Prop := length <$> b' = length <$> b.

#[local] Instance keeps_preorder : PreOrder keeps.
Proof. split; [by intros x|]. intros x y z Hxy Hyz. unfold keeps in *. congruence. Qed.

(** Takes the binds of a hypothesis apart. *)
Ltac binds H :=
  repeat match type of H with
         | context [mbind _ ?o] => destruct o as [?|] eqn:?; cbn [mbind option_bind] in H; [|discriminate H]
         | context [let '(_, _) := ?p in _] => destruct p as [? ?]
         end.

Lemma aset_length {A} (l : list A) i x l' : aset l i x = Some l' → length l' = length l.
Proof. unfold aset. case_decide; [|done]. intros [= <-]. apply length_insert. Qed.

Lemma memcpy_length l off src l' : memcpy_at l off src = Some l' → length l' = length l.
Proof. unfold memcpy_at. case_decide; [|done]. intros [= <-]. rewrite !length_app, length_take, length_drop. lia. Qed.

Lemma put_keeps b i v b' : put b i v = Some b' → keeps b b'.
Proof. unfold put. destruct b as [b|]; [|by intros [= <-]]. intros Hp. binds Hp. injection Hp as <-. apply (f_equal Some). by eapply aset_length. Qed.

Lemma put_bytes_keeps b i src b' : put_bytes b i src = Some b' → keeps b b'.
Proof. unfold put_bytes. destruct b as [b|]; [|by intros [= <-]]. intros Hp. binds Hp. injection Hp as <-. apply (f_equal Some). by eapply memcpy_length. Qed.

Lemma put_extended_keeps v base n b n' b' : put_extended v base n b = Some (n', b') → keeps b b'.
Proof.
  unfold put_extended. destruct (268 <? v); [|destruct (12 <? v)]; intros Hp; binds Hp; injection Hp as <- <-; [|by eapply put_keeps|done].
  etransitivity; by eapply put_keeps.
Qed.

Lemma header_keeps d l base b n b' : coap_set_option_header d l base b = Some (n, b') → keeps b b'.
Proof.
  unfold coap_set_option_header. intros Hp. binds Hp. injection Hp as <- <-.
  etransitivity; [by eapply put_keeps|]. etransitivity; by eapply put_extended_keeps.
Qed.

Lemma put_then_keeps b i v (x y : Z) b' : (b1 ← put b i v; Some (x, b1)) = Some (y, b') → keeps b b'.
Proof. intros Hp. binds Hp. injection Hp as _ <-. by eapply put_keeps. Qed.

Ltac chain :=
  first [reflexivity | eapply put_keeps; eassumption
        | etransitivity; [first [eapply put_keeps; eassumption | eapply put_then_keeps; eassumption]|chain]].

Lemma int_option_keeps number cur base b v n b' : coap_serialize_int_option number cur base b v = Some (n, b') → keeps b b'.
Proof.
  unfold coap_serialize_int_option. intros Hp. cbv zeta in Hp.
  destruct (coap_set_option_header _ _ _ _) as [[n1 b1]|] eqn:Hh; [|done]. cbn [mbind option_bind] in Hp. etransitivity; [by eapply header_keeps|]. clear Hh.
  do 4 (destruct (negb _); cbn [mbind option_bind] in Hp; binds Hp).
  all: injection Hp as <- <-; simplify_eq; chain.
Qed.

Lemma put_part_keeps number memory cur base b start len n b' : coap_put_part number memory cur base b start len = Some (n, b') → keeps b b'.
Proof.
  unfold coap_put_part. destruct (coap_set_option_header _ _ _ _) as [[n1 b1]|] eqn:Hh; [|done]. cbn [mbind option_bind].
  apply header_keeps in Hh. destruct b1 as [b1|]; [|by intros [= <- <-]]. intros Hp. binds Hp. injection Hp as <- <-.
  etransitivity; [exact Hh|by eapply put_bytes_keeps].
Qed.

Lemma split_loop_keeps number memory fuel : ∀ cur base len split j start i b n b',
  coap_split_loop number memory fuel cur base len split j start i b = Some (n, b') → keeps b b'.
Proof.
  induction fuel as [|fuel IH]; intros cur base len split j start i b n b'; [done|]. cbn [coap_split_loop].
  destruct (j <=? len + 1); [|by intros [= <- <-]]. destruct (aget _ _) as [c|]; [|done]. cbn [mbind option_bind].
  destruct (_ || _); [|by apply IH]. destruct (coap_put_part _ _ _ _ _ _ _) as [[n1 b1]|] eqn:Hp; [|done]. cbn [mbind option_bind].
  intros Hl%IH. etransitivity; [by eapply put_part_keeps|done].
Qed.

Lemma array_option_keeps number memory cur base b len split n b' :
  coap_serialize_array_option number memory cur base b len split = Some (n, b') → keeps b b'.
Proof. unfold coap_serialize_array_option. destruct (negb _); [apply split_loop_keeps|apply put_part_keeps]. Qed.

Lemma options_keep pk message base b n b' : coap_serialize_options pk message base b = Some (n, b') → keeps b b'.
Proof.
  unfold coap_serialize_options. cbv zeta. destruct (IS_OPTION pk COAP_OPTION_URI_PATH) as [s1|]; [|done]. cbn [mbind option_bind].
  set (o1 := if s1 then _ else _). destruct o1 as [[[l1 c1] b1]|] eqn:H1; [|done]. cbn [mbind option_bind].
  assert (Hk1 : keeps b b1).
  { unfold o1 in H1. destruct s1; [|injection H1 as <- <- <-; reflexivity].
    destruct (coap_serialize_array_option _ _ _ _ _ _ _) as [[k b2]|] eqn:Ha; [|done]. injection H1 as <- <- <-. by eapply array_option_keeps. }
  clearbody o1.
  destruct (IS_OPTION pk COAP_OPTION_CONTENT_FORMAT) as [s2|]; [|done]. cbn [mbind option_bind].
  set (o2 := if s2 then _ else _). destruct o2 as [[[l2 c2] b2]|] eqn:H2; [|done]. cbn [mbind option_bind].
  assert (Hk2 : keeps b1 b2).
  { unfold o2 in H2. destruct s2; [|injection H2 as <- <- <-; reflexivity].
    destruct (coap_serialize_int_option _ _ _ _ _) as [[k b3]|] eqn:Ha; [|done]. injection H2 as <- <- <-. by eapply int_option_keeps. }
  clearbody o2.
  destruct (IS_OPTION pk COAP_OPTION_URI_QUERY) as [s3|]; [|done]. cbn [mbind option_bind]. destruct s3.
  - destruct (coap_serialize_array_option _ _ _ _ _ _ _) as [[k b3]|] eqn:Ha; [|done]. intros [= <- <-].
    etransitivity; [exact Hk1|]. etransitivity; [exact Hk2|by eapply array_option_keeps].
  - intros [= <- <-]. by etransitivity.
Qed.

Lemma put_payload_length pk b opt opt' b' : coap_put_payload pk b opt = Some (opt', b') → length b' = length b.
Proof.
  unfold coap_put_payload. destruct (0 <? _); [|by intros [= <- <-]]. intros Hp. binds Hp. injection Hp as <- <-.
  etransitivity; [by eapply memcpy_length|by eapply aset_length].
Qed.

Lemma serialize_keeps pk data len pk' out :
  coap_serialize_message (Some pk) (Some data) = Some (len, pk', out) → ∃ data', out = Some data' ∧ length data' = length data.
Proof.
  unfold coap_serialize_message. cbv zeta. destruct (coap_serialize_options _ _ _ None) as [[n0 b0]|]; [|done]. cbn [mbind option_bind].
  destruct (COAP_MAX_HEADER_SIZE <? _); [intros [= <- <- <-]; by exists data|]. unfold coap_write_message.
  assert (Hheader : ∀ (pk : coap_packet coap_ptr) d, coap_udp_set_header_fields pk data = Some d → length d = length data).
  { intros pk0 d. unfold coap_udp_set_header_fields. cbv zeta. intros Hp. binds Hp. repeat match goal with H : aset _ _ _ = Some _ |- _ => apply aset_length in H end. congruence. }
  destruct (coap_udp_set_header_fields _ _) as [d|] eqn:Hh; [|done]. cbn [mbind option_bind]. apply Hheader in Hh.
  destruct (_ =? 0); [intros [= <- <- <-]; by exists d|]. destruct (aget _ 0); [|done]. cbn [mbind option_bind].
  destruct (aset d _ _) as [d1|] eqn:H1; [|done]. cbn [mbind option_bind]. apply aset_length in H1.
  destruct (coap_serialize_options _ _ _ (Some d1)) as [[n1 b1]|] eqn:Ho; [|done]. cbn [mbind option_bind]. apply options_keep in Ho.
  destruct b1 as [d2|]; [|done]. injection Ho as Ho. cbn [default].
  destruct (_ <=? COAP_MAX_HEADER_SIZE); [|intros [= <- <- <-]; exists d2; split; [done|cbn in *; congruence]].
  destruct (coap_put_payload _ _ _) as [[opt d3]|] eqn:Hpay; [|done]. apply put_payload_length in Hpay.
  intros [= <- <- <-]. exists d3. split; [done|cbn in *; congruence].
Qed.

(** The packet of an empty response can be written. *)
Lemma empty_sendable type mid token code pkt : code ≠ 0 →
  with_token (coap_udp_init_message type code mid) (Some [token]) 1 = Some pkt → sendable pkt.
Proof.
  intros Hc [= <-]. unfold sendable. eexists _, _, _. split.
  - rewrite (serialize_message_at _ (mk_view [] None []) token _ []); [|by split|done|done|done|by split|done].
    replace (_ <? _) with false by done. reflexivity.
  - by rewrite (blit_length (replicate 120 0) 0).
Qed.


Lemma sent_again_take pool l evs : (length evs ≤ OC_PROCESS_NUMEVENTS)%nat →
  sent_again pool l evs = evs ++ take (OC_PROCESS_NUMEVENTS - length evs) (OUTBOUND_NETWORK_EVENT <$> messages pool (unanswered pool l)).
Proof.
  unfold sent_again. generalize (messages pool (unanswered pool l)). intros hs. revert evs.
  induction hs as [|h hs IH]; intros evs He; cbn [foldl fmap list_fmap]; [by rewrite take_nil, app_nil_r|]. unfold post.
  destruct (_ =? _)%nat eqn:Hfull.
  - apply Nat.eqb_eq in Hfull. rewrite IH by done. by rewrite Hfull, Nat.sub_diag.
  - apply Nat.eqb_neq in Hfull. rewrite IH by (rewrite length_app; cbn [length]; lia). rewrite length_app, <- app_assoc. f_equal. cbn [length].
    replace (OC_PROCESS_NUMEVENTS - length evs)%nat with (S (OC_PROCESS_NUMEVENTS - (length evs + 1)))%nat by lia. done.
Qed.

(** A pool of two blocks. *)
Lemma numfree_two {A} (m : memb A) : length m = 2%nat → oc_memb_numfree m = 2%nat → ∀ i c b, m !! i = Some (c, b) → c = 0.
Proof.
  unfold oc_memb_numfree. intros Hlen Hf i c b Hi. apply list_elem_of_lookup_2 in Hi.
  assert (Hall : filter (λ b, b.1 = 0) m = m).
  { pose proof (filter_app_complement (λ b : Z * A, b.1 = 0) m) as Hp. apply Permutation_length in Hp. rewrite length_app in Hp.
    assert (filter (λ b : Z * A, b.1 ≠ 0) m = []) as Hnil by (apply nil_length_inv; lia).
    apply filter_all. intros x Hx. destruct (decide (x.1 = 0)); [done|]. exfalso.
    by apply (filter_nil_not_elem_of (λ b : Z * A, b.1 ≠ 0) m x Hnil). }
  rewrite <- Hall in Hi. by apply list_elem_of_filter in Hi as [? _].
Qed.

Lemma numfree_zero {A} (m : memb A) : (∀ i c b, m !! i = Some (c, b) → c = 1) → oc_memb_numfree m = 0%nat.
Proof.
  intros Hm. unfold oc_memb_numfree. enough (filter (λ b, b.1 = 0) m = []) as -> by done.
  destruct (filter (λ b, b.1 = 0) m) as [|[c b] l] eqn:Hf; [done|]. exfalso.
  assert (Hin : (c, b) ∈ filter (λ b, b.1 = 0) m) by (rewrite Hf; by left). apply list_elem_of_filter in Hin as [Hc [i Hi]%list_elem_of_lookup].
  cbn in Hc. specialize (Hm _ _ _ Hi). lia.
Qed.

Section Steps.
Context {P : Type} `{Product P} `{!ChannelProduct P}.
Context (oc_ri_free_client_cbs_by_mid : Z → P → P).
Implicit Types (s : coap_state P).

Definition write_message (t : nat) (data : list Z) (len : Z) : M (coap_state P) unit :=
  tr ← get_transaction t;
  h ← lift (tr_message tr);
  on_buffer h (λ b, let m := bf_message b in mk_buffer {| m with msg_data := data; msg_length := len |} (bf_ref_count b)).

(** The calls of clients and servers and what the processes do. *)
Inductive coap_step : coap_state P → coap_state P → Prop :=
  | step_new mid endpoint r s s' : endpoint_ok endpoint → coap_new_transaction mid endpoint s = Some (r, s') → coap_step s s'
  | step_write t data len s s' : t ∈ cs_list s → length data = 120%nat → write_message t data len s = Some ((), s') → coap_step s s'
  | step_send now t cache s s' : t ∈ cs_list s → coap_send_transaction now t cache s = Some ((), s') → coap_step s s'
  | step_clear t s s' : t ∈ cs_list s → coap_clear_transaction (Some t) s = Some ((), s') → coap_step s s'
  | step_free_all s s' : coap_free_all_transactions s = Some ((), s') → coap_step s s'
  | step_respond type mid token code endpoint s s' : endpoint_ok endpoint → code ≠ 0 →
      coap_send_empty_response type mid (Some [token]) 1 code endpoint s = Some ((), s') → coap_step s s'
  | step_answer now mid response_mid endpoint response data token token_len s s' : endpoint_ok endpoint → length data = 120%nat →
      coap_respond now mid response_mid endpoint response data token token_len s = Some ((), s') → coap_step s s'
  | step_timer now t s s' : t ∈ cs_list s → oc_etimer_process now t s = Some ((), s') → coap_step s s'
  | step_post r s s' : oc_process_post other_event s = Some (r, s') → coap_step s s'
  | step_event now s s' : do_event oc_ri_free_client_cbs_by_mid now s = Some ((), s') → coap_step s s'.

Definition reachable s : Prop := ∃ prod, rtc coap_step (coap_start prod) s.

Lemma start_good (prod : P) : good [] [] (coap_start prod) ∧ cs_initialized (coap_start prod) = true.
Proof.
  split; [|done]. split; [|split; [constructor|]|cbn; lia|done|done|].
  - intros h. cbn. do 2 (destruct h as [|h]; [by rewrite decide_False by apply not_elem_of_nil|]). cbn. split; [done|apply not_elem_of_nil].
  - intros t. cbn. do 2 (destruct t as [|t]; [done|]). cbn. apply not_elem_of_nil.
  - by repeat constructor.
Qed.

Lemma write_message_spec lost s t data len : good lost [] s → t ∈ cs_list s → length data = 120%nat →
  ∃ s', write_message t data len s = Some ((), s') ∧ good lost [] s' ∧ cs_initialized s' = cs_initialized s ∧ cs_list s' = cs_list s.
Proof.
  intros Hg Ht Hd. destruct (linked_at _ _ _ (good_linked _ _ _ Hg) Ht) as (tr & h & Hp & Hm & _).
  unfold write_message. erewrite bind_Some by (unfold get_transaction; rewrite Hp; reflexivity). rewrite Hm.
  eexists. split; [reflexivity|]. split; [|done].
  by apply (good_endpoint _ _ _ h (λ m, {| m with msg_data := data; msg_length := len |})); [intros m []|].
Qed.

Lemma by_mid_spec mid s : ∃ t, coap_get_transaction_by_mid mid s = Some (t, s) ∧ match t with
  | Some t => t ∈ cs_list s ∧ mid_of (cs_pool s) t = mid
  | None => ∀ t, t ∈ cs_list s → is_Some (cs_pool s !! t) → mid_of (cs_pool s) t ≠ mid
  end.
Proof.
  eexists. split; [reflexivity|]. destruct (find _ _) as [t|] eqn:Hf.
  - apply find_some in Hf as [Hin%list_elem_of_In Ht]. split; [done|]. unfold mid_of. by destruct (cs_pool s !! t) as [[c tr]|]; [apply Z.eqb_eq|].
  - intros t Ht%list_elem_of_In [[c tr] Hp] Hm. eapply find_none in Hf; [|exact Ht]. cbn in Hf. unfold mid_of in Hm. rewrite Hp in Hf, Hm.
    by apply Z.eqb_neq in Hf.
Qed.

Lemma lift_inv {S A} (o : option A) (u : S) x (u' : S) : lift o u = Some (x, u') → o = Some x ∧ u' = u.
Proof. unfold lift. destruct o; [|done]. by intros [= -> ->]. Qed.

Lemma clear_found lost s t : good lost [] s → match t with Some t => t ∈ cs_list s | None => True end →
  ∃ s', coap_clear_transaction t s = Some ((), s') ∧ good lost [] s' ∧ cs_initialized s' = cs_initialized s ∧
    cs_events s' = cs_events s ∧ cs_prod s' = cs_prod s ∧ (t = None → s' = s).
Proof.
  intros Hg Ht. destruct t as [t|]; [|by exists s].
  destruct (coap_clear_transaction_spec _ _ _ _ Hg ltac:(cbn; lia) Ht) as (s' & Hrun & Hg' & _ & He & Hi & Hp & _). by exists s'.
Qed.

Lemma answer_good lost s s' now mid response_mid endpoint response data token token_len : good lost [] s → cs_initialized s = true →
  endpoint_ok endpoint → length data = 120%nat → coap_respond now mid response_mid endpoint response data token token_len s = Some ((), s') →
  good lost [] s' ∧ cs_initialized s' = true.
Proof.
  intros Hg Hi Hep Hd Hrun. unfold coap_respond in Hrun. destruct (by_mid_spec mid s) as (t & Hget & Ht). erewrite bind_Some in Hrun by exact Hget.
  destruct (clear_found lost s t Hg) as (s1 & Hc & Hg1 & Hi1 & _); [by destruct t as [t|]; [destruct Ht|]|]. erewrite bind_Some in Hrun by exact Hc.
  destruct (coap_new_transaction_spec _ _ response_mid _ Hg1 Hep) as (r & s2 & Hnew & Hg2 & _ & Hi2 & _ & Hr). erewrite bind_Some in Hrun by exact Hnew.
  destruct r as [t'|]; [|injection Hrun as <-; split; [done|congruence]]. destruct Hr as (_ & _ & _ & Hl2 & _).
  assert (Hin : t' ∈ cs_list s2) by (rewrite Hl2; apply elem_of_app; right; by left).
  destruct (_ && _); [|injection Hrun as <-; split; [done|congruence]]. cbn [when] in Hrun.
  apply bind_inv in Hrun as ([n r] & s2a & [_ ->]%lift_inv & Hrun).
  apply bind_inv in Hrun as ([[len pk] out] & s2b & [Hser ->]%lift_inv & Hrun).
  destruct (serialize_keeps _ _ _ _ _ Hser) as (out' & -> & Hlen). cbn [default] in Hrun. rewrite Hd in Hlen.
  destruct (linked_at _ _ _ (good_linked _ _ _ Hg2) Hin) as (tr & h & Hp & Hm & _).
  erewrite bind_Some in Hrun by (unfold get_transaction; rewrite Hp; reflexivity). rewrite Hm in Hrun. erewrite bind_lift in Hrun by reflexivity.
  erewrite bind_Some in Hrun by reflexivity.
  pose proof (good_endpoint _ _ _ h (λ m, {| m with msg_data := out'; msg_length := len |}) ltac:(by intros m []) Hg2) as Hg3.
  destruct (len =? 0).
  - destruct (coap_clear_transaction_spec _ _ _ _ Hg3 ltac:(cbn; lia) Hin) as (s4 & Hrun4 & Hg4 & _ & _ & Hi4 & _).
    assert (s4 = s') as <- by (unfold set_buffers in Hrun4; cbn in Hrun4, Hrun; congruence). split; [done|]. rewrite Hi4. cbn. congruence.
  - destruct (coap_send_transaction_spec _ _ now _ false Hg3 Hin ltac:(cbn; congruence)) as (h4 & s4 & _ & Hrun4 & Hg4 & Hi4 & _).
    assert (s4 = s') as <- by (unfold set_buffers in Hrun4; cbn in Hrun4, Hrun; congruence). done.
Qed.

Lemma step_good lost s s' : good lost [] s → cs_initialized s = true → coap_step s s' →
  ∃ lost', lost ⊆ lost' ∧ good lost' [] s' ∧ cs_initialized s' = true.
Proof.
  intros Hg Hi Hstep. assert (Hsame : ∀ s1, good lost [] s1 → cs_initialized s1 = cs_initialized s → ∃ lost', lost ⊆ lost' ∧ good lost' [] s1 ∧ cs_initialized s1 = true)
    by (intros s1 ? ->; by exists lost).
  destruct Hstep as [mid ep r s s' Hep Hrun|t data len s s' Ht Hd Hrun|now t cache s s' Ht Hrun|t s s' Ht Hrun|s s' Hrun|type mid token code ep s s' Hep Hc Hrun|now mid rmid ep resp data tk tkl s s' Hep Hd Hrun|now t s s' Ht Hrun|r s s' Hrun|now s s' Hrun].
  - destruct (coap_new_transaction_spec _ _ mid _ Hg Hep) as (? & ? & Heq & ? & _ & ? & _). apply Hsame; congruence.
  - destruct (write_message_spec _ _ _ _ len Hg Ht Hd) as (? & Heq & ? & ? & _). apply Hsame; congruence.
  - destruct (coap_send_transaction_spec _ _ now _ cache Hg Ht Hi) as (? & ? & _ & Heq & ? & ? & _). apply Hsame; congruence.
  - destruct (coap_clear_transaction_spec _ _ _ _ Hg ltac:(cbn; lia) Ht) as (? & Heq & ? & _ & _ & ? & _). apply Hsame; congruence.
  - unfold coap_free_all_transactions in Hrun. destruct (free_loop_spec _ (cs_list s) (S (length (cs_list s))) _ Hg eq_refl ltac:(lia)) as (? & Heq & ? & ? & _).
    erewrite bind_Some in Hrun by reflexivity. apply Hsame; congruence.
  - assert (Htok : with_token (coap_udp_init_message type code mid) (Some [token]) 1 = Some (default (coap_udp_init_message type code mid)
      (with_token (coap_udp_init_message type code mid) (Some [token]) 1))) by done.
    destruct (coap_send_packet_spec _ _ _ _ _ _ _ Hg Hep Htok (empty_sendable _ _ _ _ _ Hc Htok)) as (s1 & Heq & Hi1 & _ & _ & _ & Hcases).
    assert (s1 = s') as <- by (unfold coap_send_empty_response in Hrun; congruence).
    destruct Hcases as [[_ ->]|(_ & h & len & _ & _ & Hg1 & _)]; [by apply Hsame|]. eexists. split; [|split; [exact Hg1|congruence]].
    destruct (accepts _ _); [done|]. intros x Hx. by right.
  - destruct (answer_good _ _ _ _ _ _ _ _ _ _ _ Hg Hi Hep Hd Hrun). by exists lost.
  - destruct (oc_etimer_process_spec _ _ now _ Hg Ht) as (? & Heq & ? & ? & _). apply Hsame; congruence.
  - rewrite oc_process_post_eq in Hrun. destruct (_ =? _)%nat eqn:Hfull; simplify_eq; [by apply Hsame|]. apply Nat.eqb_neq in Hfull.
    apply Hsame; [|done]. pose proof (good_events _ _ _ Hg). destruct Hg. split; [|done| |done..].
    + unfold held in *. cbn. by rewrite omap_app, app_nil_r.
    + cbn. rewrite length_app. cbn [length]. lia.
  - destruct (do_event_spec oc_ri_free_client_cbs_by_mid _ _ now Hg Hi) as (? & Heq & ? & ?). apply Hsame; congruence.
Qed.

Lemma steps_good lost s s' : good lost [] s → cs_initialized s = true → rtc coap_step s s' →
  ∃ lost', lost ⊆ lost' ∧ good lost' [] s' ∧ cs_initialized s' = true.
Proof.
  intros Hg Hi Hsteps. revert lost Hg Hi. induction Hsteps as [s|s s1 s' Hs _ IH]; intros lost Hg Hi; [by exists lost|].
  destruct (step_good _ _ _ Hg Hi Hs) as (lost1 & Hsub & Hg1 & Hi1). destruct (IH _ Hg1 Hi1) as (lost2 & Hsub2 & ?).
  exists lost2. split; [by etransitivity|done].
Qed.

Lemma reachable_good s : reachable s → ∃ lost, good lost [] s ∧ cs_initialized s = true.
Proof.
  intros [prod Hsteps]. destruct (start_good prod) as [Hg Hi]. destruct (steps_good _ _ _ Hg Hi Hsteps) as (lost & _ & ? & ?). by exists lost.
Qed.

(** ** Theorems *)


(** C21: Looking through the transactions ends, and empties the list: one whose idle
    timer has run out is dropped and its callbacks are told; any other is sent
    once more, as far as the queue has room, and dropped too. *)
Theorem coap_check_empties s now : reachable s → ∃ s',
  coap_check_transactions oc_ri_free_client_cbs_by_mid now s = Some ((), s') ∧ cs_list s' = [] ∧
  coap_transactions_free_count s' = COAP_MAX_OPEN_TRANSACTIONS ∧
  cs_prod s' = foldl (λ p t, oc_ri_free_client_cbs_by_mid (mid_of (cs_pool s) t) p) (cs_prod s) (expired (cs_pool s) (cs_list s)) ∧
  cs_events s' = cs_events s ++ take (OC_PROCESS_NUMEVENTS - length (cs_events s))
    (OUTBOUND_NETWORK_EVENT <$> messages (cs_pool s) (unanswered (cs_pool s) (cs_list s))).
Proof.
  intros Hr. destruct (reachable_good s Hr) as (lost & Hg & Hi).
  destruct (check_loop_spec oc_ri_free_client_cbs_by_mid lost now (cs_list s) (S (length (cs_list s))) s Hg eq_refl Hi ltac:(lia))
    as (s' & Hrun & Hg' & _ & Hl & Hp & He).
  exists s'. split_and!; [exact Hrun|done| |exact Hp|].
  - unfold coap_transactions_free_count, oc_memb_numfree. rewrite filter_all; [apply Hg'|]. intros [c tr] Hx.
    apply list_elem_of_lookup in Hx as [t Ht]. pose proof (proj2 (good_linked _ _ _ Hg') t) as Hlk. rewrite Ht, Hl in Hlk.
    by rewrite decide_False in Hlk by apply not_elem_of_nil.
  - rewrite He. apply sent_again_take. apply Hg.
Qed.

Lemma empty_response_full lost s type mid token code endpoint s' : good lost [] s → endpoint_ok endpoint → code ≠ 0 →
  length (cs_events s) = OC_PROCESS_NUMEVENTS → oc_buffer_outgoing_free_count s ≠ 0%nat →
  coap_send_empty_response type mid (Some [token]) 1 code endpoint s = Some ((), s') →
  ∃ h, (h ∉ lost) ∧ (h < OC_MAX_NUM_CONCURRENT_REQUESTS)%nat ∧ good (h :: lost) [] s' ∧ held s' = held s ∧
    cs_events s' = cs_events s ∧ cs_initialized s' = cs_initialized s.
Proof.
  intros Hg Hep Hc Hfull Hfree Hrun.
  assert (Htok : with_token (coap_udp_init_message type code mid) (Some [token]) 1 = Some (default (coap_udp_init_message type code mid)
    (with_token (coap_udp_init_message type code mid) (Some [token]) 1))) by done.
  destruct (coap_send_packet_spec _ _ _ _ _ _ _ Hg Hep Htok (empty_sendable _ _ _ _ _ Hc Htok)) as (s1 & Heq & Hi1 & Hl & _ & Hp & Hcases).
  assert (s1 = s') as <- by (unfold coap_send_empty_response in Hrun; congruence).
  destruct Hcases as [[Hz _]|(_ & h & len & Hh & Hlt & Hg1 & He)]; [done|].
  assert (Hacc : accepts len (cs_events s) = false) by (unfold accepts; rewrite Hfull, Nat.eqb_refl; apply andb_false_r).
  rewrite Hacc in Hg1, He. exists h. split_and!; [done..| |done|done]. unfold held. by rewrite He, Hl, Hp.
Qed.

(** All blocks lost: nothing is ever sent again. *)
Lemma lost_all lost s mid endpoint : good lost [] s → (∀ h, (h < OC_MAX_NUM_CONCURRENT_REQUESTS)%nat → h ∈ lost) → endpoint_ok endpoint →
  ∃ s', coap_new_transaction mid endpoint s = Some (None, s').
Proof.
  intros Hg Hall Hep. destruct (coap_new_transaction_spec _ _ mid _ Hg Hep) as (r & s' & Hrun & _ & _ & _ & _ & Hcases).
  destruct r as [t|]; [|by exists s']. destruct Hcases as (_ & Hfree & _). exfalso. apply Hfree, numfree_zero. intros i c b Hi.
  pose proof (good_accounted _ _ _ Hg i) as Ha. rewrite Hi in Ha. rewrite decide_True in Ha; [tauto|].
  apply Hall. rewrite <- (good_buffers _ _ _ Hg). by eapply lookup_lt_Some.
Qed.

(** C38: Two responses of the engine while the queue of events is full: their
    buffers are never freed, and no transaction can ever be made again. *)
Theorem coap_full_queue_silences s s1 s2 s' type mid token code endpoint : reachable s →
  length (cs_events s) = OC_PROCESS_NUMEVENTS → oc_buffer_outgoing_free_count s = OC_MAX_NUM_CONCURRENT_REQUESTS →
  endpoint_ok endpoint → code ≠ 0 →
  coap_send_empty_response type mid (Some [token]) 1 code endpoint s = Some ((), s1) →
  coap_send_empty_response type mid (Some [token]) 1 code endpoint s1 = Some ((), s2) →
  rtc coap_step s2 s' →
  ∀ mid endpoint, endpoint_ok endpoint → ∃ s'', coap_new_transaction mid endpoint s' = Some (None, s'').
Proof.
  intros Hr Hfull Hfree Hep Hc Hrun1 Hrun2 Hsteps mid' ep' Hep'. destruct (reachable_good s Hr) as (lost & Hg & Hi).
  pose proof (numfree_two _ (good_buffers _ _ _ Hg) Hfree) as Hzero.
  assert (Hfree1 : oc_buffer_outgoing_free_count s ≠ 0%nat) by by rewrite Hfree.
  destruct (empty_response_full _ _ _ _ _ _ _ _ Hg Hep Hc Hfull Hfree1 Hrun1) as (h1 & Hh1 & Hlt1 & Hg1 & Hheld1 & He1 & Hi1).
  assert (Hother : ∃ x, (x < OC_MAX_NUM_CONCURRENT_REQUESTS)%nat ∧ x ≠ h1) by (exists (if decide (h1 = 0%nat) then 1%nat else 0%nat); case_decide; unfold OC_MAX_NUM_CONCURRENT_REQUESTS; lia).
  destruct Hother as (x & Hx & Hne).
  assert (Hblock : ∀ h, (h < OC_MAX_NUM_CONCURRENT_REQUESTS)%nat → (h ∉ lost) ∧ h ∉ held s).
  { intros h Hh. rewrite <- (good_buffers _ _ _ Hg) in Hh. destruct (lookup_lt_is_Some_2 _ _ Hh) as [[c b] Hb].
    pose proof (good_accounted _ _ _ Hg h) as Ha. rewrite Hb in Ha. specialize (Hzero _ _ _ Hb). subst.
    destruct (decide (h ∈ lost)); [lia|]. split; [done|]. cbn [app] in Ha. destruct (decide (h ∈ held s)); [lia|done]. }
  assert (Hfree2 : oc_buffer_outgoing_free_count s1 ≠ 0%nat).
  { destruct (Hblock x Hx) as [Hxl Hxh]. pose proof (good_accounted _ _ _ Hg1 x) as Ha. cbn [app] in Ha. rewrite Hheld1 in Ha.
    assert (Hin : x ∉ h1 :: lost) by (apply not_elem_of_cons; split; [congruence|done]).
    destruct (cs_buffers s1 !! x) as [[c b]|] eqn:Hb.
    2: { apply lookup_ge_None in Hb. rewrite (good_buffers _ _ _ Hg1) in Hb. lia. }
    rewrite !decide_False in Ha by done. destruct Ha as [_ ->]. unfold oc_buffer_outgoing_free_count, oc_memb_numfree. intros Hnil%nil_length_inv.
    apply (filter_nil_not_elem_of (λ b : Z * buffer, b.1 = 0) (cs_buffers s1) (0, b) Hnil); [done|]. by eapply list_elem_of_lookup_2. }
  rewrite <- He1 in Hfull.
  destruct (empty_response_full _ _ _ _ _ _ _ _ Hg1 Hep Hc Hfull Hfree2 Hrun2) as (h2 & Hh2 & Hlt2 & Hg2 & _ & _ & Hi2).
  destruct (steps_good _ _ _ Hg2 ltac:(congruence) Hsteps) as (lost' & Hsub & Hg' & _).
  apply (lost_all lost'); [done| |done]. intros h Hh. apply Hsub. apply not_elem_of_cons in Hh2 as [Hh12 _].
  unfold OC_MAX_NUM_CONCURRENT_REQUESTS in *. assert (h = h2 ∨ h = h1) as [->| ->] by lia; [by left|right; by left].
Qed.

(** C39: The engine sends a request again that a transaction keeps: the buffer goes
    to the network without a reference of its own, so that it is free once it
    is sent, and the next transaction shares it with the one that still has
    it. *)
Theorem coap_resend_shares_buffer s now t data len mid endpoint : reachable s →
  cs_events s = [] → t ∈ cs_list s → message_of (cs_pool s) t = Some 0%nat → uses 0 (held s) = 1 →
  coap_transactions_free_count s ≠ 0%nat → length data = 120%nat → 0 < len →
  ∃ s1 s2 t' s3, coap_send_message 0 data len s = Some ((), s1) ∧
    do_event oc_ri_free_client_cbs_by_mid now s1 = Some ((), s2) ∧
    coap_new_transaction mid endpoint s2 = Some (Some t', s3) ∧
    t ≠ t' ∧ t ∈ cs_list s3 ∧ t' ∈ cs_list s3 ∧
    message_of (cs_pool s3) t = message_of (cs_pool s3) t'.
Proof.
  intros Hr He Ht Hm Huse Hfree Hd Hlen. destruct (reachable_good s Hr) as (lost & Hg & Hi).
  destruct (accounted_held _ _ _ 0%nat (good_accounted _ _ _ Hg)) as (_ & b & Hb & Href); [apply uses_elem; cbn [app]; lia|].
  cbn [app] in Href. rewrite Huse in Href.
  set (f := λ m : oc_message_t, {| ({| m with msg_data := data |} : oc_message_t) with msg_length := len |}).
  set (s0 := set_buffers (alter (λ b : Z * buffer, (b.1, mk_buffer (f (bf_message b.2)) (bf_ref_count b.2))) 0%nat (cs_buffers s)) s).
  set (s1 := set_events [OUTBOUND_NETWORK_EVENT 0] s0).
  assert (Hb1 : cs_buffers s1 !! 0%nat = Some (1, mk_buffer (f (bf_message b)) 1)).
  { cbn [s1 s0 set_events set_buffers cs_buffers]. rewrite list_lookup_alter, decide_True, Hb by done. cbn. by rewrite Href. }
  assert (Hsend : coap_send_message 0 data len s = Some ((), s1)).
  { unfold coap_send_message. rewrite (proj2 (Z.ltb_lt 0 len) Hlen). cbn [when].
    set (with_data := λ m : oc_message_t, {| m with msg_data := data |}).
    rewrite (bind_Some _ _ _ tt (set_buffers (alter (λ b : Z * buffer, (b.1, mk_buffer (with_data (bf_message b.2)) (bf_ref_count b.2))) 0%nat (cs_buffers s)) s)) by reflexivity.
    rewrite bind_assoc, (bind_Some _ _ _ tt s0).
    2: { unfold on_buffer, modify, set_buffers, s0. cbn [cs_buffers]. by rewrite list_alter_alter_eq. }
    rewrite (bind_Some _ _ _ tt s1) by (rewrite oc_send_message_eq; change (cs_events s0) with (cs_events s); by rewrite He).
    erewrite bind_Some by (unfold get_buffer; rewrite Hb1; reflexivity). done. }
  assert (Hok : message_ok (f (bf_message b))).
  { pose proof (good_messages _ _ _ Hg) as Hmsg. rewrite Forall_lookup in Hmsg. destruct (Hmsg _ _ Hb) as [_ Hep]. done. }
  destruct (oc_send_buffer_defined _ (cs_prod s) Hok) as (r & p' & Hnet).
  set (s2 := set_buffers (unref 0 (cs_buffers s1)) {| (set_events [] s1) with cs_prod := p' |}).
  assert (Hevent : do_event oc_ri_free_client_cbs_by_mid now s1 = Some ((), s2)).
  { unfold do_event. rewrite (bind_Some _ _ _ s1 s1) by reflexivity. change (cs_events s1) with [OUTBOUND_NETWORK_EVENT 0].
    cbv iota beta. rewrite (bind_Some _ _ _ tt (set_events [] s1)) by reflexivity.
    unfold message_buffer_handler.
    erewrite bind_Some by (unfold get_buffer; change (cs_buffers (set_events [] s1)) with (cs_buffers s1); rewrite Hb1; reflexivity).
    rewrite (bind_Some _ _ _ r {| (set_events [] s1) with cs_prod := p' |}).
    2: { unfold zoom. change (cs_prod (set_events [] s1)) with (cs_prod s). cbn [bf_message]. by rewrite Hnet. }
    apply (oc_message_unref_eq 0%nat {| (set_events [] s1) with cs_prod := p' |}). change (0 < length (cs_buffers s1))%nat. by eapply lookup_lt_Some. }
  assert (Hb2 : ∃ b, cs_buffers s2 !! 0%nat = Some (0, b)).
  { cbn [s2 set_buffers cs_buffers]. unfold unref. cbv zeta. rewrite (sub_ref_at _ _ _ _ Hb1). cbn [bf_ref_count].
    change (u8 (1 - 1) <=? 0) with true. cbv iota. unfold _oc_memb_free. rewrite list_lookup_alter, decide_True, (sub_ref_at _ _ _ _ Hb1) by done. by eexists. }
  destruct Hb2 as [b2 Hb2]. assert (Hbufs : ∃ bufs, _oc_memb_alloc zero_buffer (cs_buffers s2) = Some (0%nat, bufs)).
  { destruct (cs_buffers s2) as [|x bufs]; [done|]. cbn in Hb2. simplify_eq. by eexists. }
  destruct Hbufs as [bufs Hbufs]. pose proof (alloc_spec zero_transaction (cs_pool s)) as Hpool. unfold coap_transactions_free_count in Hfree.
  destruct (_oc_memb_alloc zero_transaction (cs_pool s)) as [[t' pool]|] eqn:Halloc; [|done]. destruct Hpool as ([tr' Htr'] & _ & _).
  assert (Ht' : t' ∉ cs_list s).
  { intros Hin. destruct (linked_at _ _ _ (good_linked _ _ _ Hg) Hin) as (? & ? & Hp & _). congruence. }
  exists s1, s2, t'. eexists. split; [exact Hsend|]. split; [exact Hevent|].
  split; [exact (coap_new_transaction_eq s2 mid endpoint t' pool 0 bufs Halloc Hbufs Ht')|].
  change (cs_list s2) with (cs_list s). change (cs_pool s2) with (cs_pool s). cbn [cs_list cs_pool].
  split_and!; [by intros ->|apply elem_of_app; by left|apply elem_of_app; right; by left|].
  unfold message_of at 1 2. rewrite list_lookup_insert_ne by (intros ->; done). rewrite list_lookup_insert_eq by by eapply lookup_lt_Some.
  fold (message_of (cs_pool s) t). by rewrite Hm.
Qed.

(** *** Requests without a token *)

Definition idle (pool : memb coap_transaction) (t : nat) : Prop := ∃ c tr, pool !! t = Some (c, tr) ∧ tr_idle_timeout_timer tr = None.

(** All blocks of transactions are taken, and no timer runs or has run out. *)
Record clogged s : Prop := mk_clogged {
  cl_length : length (cs_list s) = COAP_MAX_OPEN_TRANSACTIONS;
  cl_idle : ∀ t, t ∈ cs_list s → idle (cs_pool s) t;
  cl_events : OC_PROCESS_EVENT_TIMER ∉ cs_events s
}.

(** What a server does on messages that carry none of the transactions' IDs. *)
Inductive quiet_step : coap_state P → coap_state P → Prop :=
  | quiet_answer now mid response_mid endpoint response data token token_len s s' : endpoint_ok endpoint → length data = 120%nat →
      (∀ t, t ∈ cs_list s → mid_of (cs_pool s) t ≠ mid) →
      coap_respond now mid response_mid endpoint response data token token_len s = Some ((), s') → quiet_step s s'
  | quiet_respond type mid token code endpoint s s' : endpoint_ok endpoint → code ≠ 0 →
      coap_send_empty_response type mid (Some [token]) 1 code endpoint s = Some ((), s') → quiet_step s s'
  | quiet_timer now t s s' : t ∈ cs_list s → oc_etimer_process now t s = Some ((), s') → quiet_step s s'
  | quiet_post r s s' : oc_process_post other_event s = Some (r, s') → quiet_step s s'
  | quiet_event now s s' : do_event oc_ri_free_client_cbs_by_mid now s = Some ((), s') → quiet_step s s'.

Lemma quiet_coap s s' : quiet_step s s' → coap_step s s'.
Proof. destruct 1; [by eapply step_answer|by eapply step_respond|by eapply step_timer|by eapply step_post|by eapply step_event]. Qed.

Lemma clogged_full lost s : good lost [] s → length (cs_list s) = COAP_MAX_OPEN_TRANSACTIONS → _oc_memb_alloc zero_transaction (cs_pool s) = None.
Proof.
  intros Hg Hlen. pose proof (alloc_spec zero_transaction (cs_pool s)) as Ha. destruct (_oc_memb_alloc _ _) as [[i pool]|]; [|done]. exfalso.
  destruct Ha as ([b Hb] & _ & _). assert (Hi : i ∉ cs_list s).
  { intros Hi. destruct (linked_at _ _ _ (good_linked _ _ _ Hg) Hi) as (tr & h & Hp & _). congruence. }
  assert (Hl : linked (cs_list s ++ [i]) (<[i := (1, mk_transaction 0 0 None (Some 0%nat))]> (cs_pool s))).
  { eapply linked_add; [apply Hg|done|intros x Hx; by rewrite list_lookup_insert_ne|].
    eexists. rewrite list_lookup_insert_eq by (by eapply lookup_lt_Some). split; [done|by eexists]. }
  apply linked_length in Hl. rewrite length_app, length_insert, (good_pool _ _ _ Hg), Hlen in Hl. cbn [length] in Hl. lia.
Qed.

Lemma new_full mid endpoint s : _oc_memb_alloc zero_transaction (cs_pool s) = None → coap_new_transaction mid endpoint s = Some (None, s).
Proof. intros Hp. unfold coap_new_transaction. erewrite bind_Some by reflexivity. by rewrite Hp. Qed.

Lemma not_found mid s : (∀ t, t ∈ cs_list s → mid_of (cs_pool s) t ≠ mid) → coap_get_transaction_by_mid mid s = Some (None, s).
Proof. intros Hm. destruct (by_mid_spec mid s) as ([t|] & -> & Ht); [|done]. destruct Ht as [Hin Heq]. by destruct (Hm t). Qed.

Lemma clogged_step lost s s' : good lost [] s → clogged s → quiet_step s s' → clogged s'.
Proof.
  intros Hg [Hlen Hidle Hev] Hstep.
  destruct Hstep as [now mid rmid ep resp data tk tkl s s' Hep Hd Hmid Hrun|type mid token code ep s s' Hep Hc Hrun|now t s s' Ht Hrun|r s s' Hrun|now s s' Hrun].
  - unfold coap_respond in Hrun. erewrite bind_Some in Hrun by by apply not_found. erewrite bind_Some in Hrun by reflexivity.
    erewrite bind_Some in Hrun by by apply new_full, (clogged_full lost). injection Hrun as <-. by split.
  - assert (Htok : with_token (coap_udp_init_message type code mid) (Some [token]) 1 = Some (default (coap_udp_init_message type code mid)
      (with_token (coap_udp_init_message type code mid) (Some [token]) 1))) by done.
    destruct (coap_send_packet_spec _ _ _ _ _ _ _ Hg Hep Htok (empty_sendable _ _ _ _ _ Hc Htok)) as (s1 & Heq & _ & Hl & _ & Hp & Hcases).
    assert (s1 = s') as <- by (unfold coap_send_empty_response in Hrun; congruence). split; [by rewrite Hl|by rewrite Hl, Hp|].
    destruct Hcases as [[_ ->]|(_ & h & len & _ & _ & _ & ->)]; [done|]. destruct (accepts _ _); [|done].
    rewrite elem_of_app, list_elem_of_singleton. by intros [?|?].
  - destruct (Hidle t Ht) as (c & tr & Hp & Hn). unfold oc_etimer_process in Hrun.
    erewrite bind_Some in Hrun by (unfold get_transaction; rewrite Hp; reflexivity). rewrite Hn in Hrun. injection Hrun as <-. by split.
  - rewrite oc_process_post_eq in Hrun. destruct (_ =? _)%nat; injection Hrun as _ <-; (split; [done|done|]); [done|].
    cbn. rewrite elem_of_app, list_elem_of_singleton. by intros [?|?].
  - unfold do_event in Hrun. erewrite bind_Some in Hrun by reflexivity. destruct (cs_events s) as [|ev evs] eqn:He; [injection Hrun as <-; split; [done|done|by rewrite He]|].
    apply not_elem_of_cons in Hev as [Hne Hev]. erewrite bind_Some in Hrun by reflexivity. pose proof (good_event _ _ _ _ _ Hg He) as Hg1.
    change {| cs_buffers := cs_buffers s; cs_pool := cs_pool s; cs_list := cs_list s; cs_events := evs; cs_initialized := cs_initialized s; cs_prod := cs_prod s |}
      with (set_events evs s) in Hrun. destruct ev; cbn [outbound] in Hg1; [|done|].
    + destruct (message_buffer_handler_spec _ [] _ _ Hg1 ltac:(cbn; lia)) as (s1 & Heq & _ & _ & Hl & He1 & Hp & _).
      assert (s1 = s') as <- by congruence. split; [by rewrite Hl|by rewrite Hl, Hp|by rewrite He1].
    + injection Hrun as <-. by split.
Qed.

Lemma clogged_steps lost s s' : good lost [] s → cs_initialized s = true → clogged s → rtc quiet_step s s' →
  clogged s' ∧ ∃ lost', good lost' [] s'.
Proof.
  intros Hg Hi Hcl Hsteps. revert lost Hg Hi Hcl. induction Hsteps as [s|s s1 s' Hs _ IH]; intros lost Hg Hi Hcl; [by split; [|exists lost]|].
  destruct (step_good _ _ _ Hg Hi (quiet_coap _ _ Hs)) as (lost1 & _ & Hg1 & Hi1). apply (IH lost1); [done|done|exact (clogged_step _ _ _ Hg Hcl Hs)].
Qed.

(** The transaction of its answer is neither sent nor cleared. *)
Lemma tokenless_spec lost s s' now mid response_mid endpoint response data token : good lost [] s → endpoint_ok endpoint →
  (∀ t, t ∈ cs_list s → mid_of (cs_pool s) t ≠ mid) →
  coap_transactions_free_count s ≠ 0%nat → oc_buffer_outgoing_free_count s ≠ 0%nat →
  coap_respond now mid response_mid endpoint response data token 0 s = Some ((), s') →
  good lost [] s' ∧ cs_initialized s' = cs_initialized s ∧ cs_events s' = cs_events s ∧
  ∃ t h, (t ∉ cs_list s) ∧ cs_list s' = cs_list s ++ [t] ∧
    cs_pool s' = <[t := (1, mk_transaction response_mid 0 None (Some h))]> (cs_pool s) ∧ (t < length (cs_pool s))%nat ∧
    cs_buffers s' = <[h := (1, mk_buffer (fresh endpoint) 1)]> (cs_buffers s).
Proof.
  intros Hg Hep Hmid Hfree Hbuf Hrun. unfold coap_respond in Hrun. erewrite bind_Some in Hrun by by apply not_found.
  erewrite bind_Some in Hrun by reflexivity.
  destruct (coap_new_transaction_spec _ _ response_mid _ Hg Hep) as (r & s1 & Hnew & Hg1 & He1 & Hi1 & _ & Hr). erewrite bind_Some in Hrun by exact Hnew.
  destruct r as [t|]; [|by destruct Hr as ([?|?] & _)]. rewrite andb_false_r in Hrun. injection Hrun as <-.
  destruct Hr as (_ & _ & Ht & Hl & h & b & Hb & _ & Hbufs & Hpool). split; [done|]. split; [done|]. split; [done|].
  exists t, h. split_and!; [done..| |done].
  assert (Hin : t ∈ cs_list s1) by (rewrite Hl; apply elem_of_app; right; by left).
  destruct (linked_at _ _ _ (good_linked _ _ _ Hg1) Hin) as (tr & h' & Hp%lookup_lt_Some & _). by rewrite Hpool, length_insert in Hp.
Qed.

Lemma numfree_some {A} (m : memb A) i b : m !! i = Some (0, b) → oc_memb_numfree m ≠ 0%nat.
Proof.
  unfold oc_memb_numfree. intros Hi Hnil%nil_length_inv. apply (filter_nil_not_elem_of (λ b : Z * A, b.1 = 0) m (0, b) Hnil); [done|].
  by eapply list_elem_of_lookup_2.
Qed.

(** A block other than one that was just taken. *)
Lemma other_free {A} (m : memb A) i x : length m = 2%nat → (∀ j c b, m !! j = Some (c, b) → c = 0) → oc_memb_numfree (<[i := x]> m) ≠ 0%nat.
Proof.
  intros Hlen Hz. assert (Hj : ∃ j, j ≠ i ∧ (j < length m)%nat) by (destruct i; [exists 1%nat|exists 0%nat]; lia). destruct Hj as (j & Hne & Hlt).
  destruct (lookup_lt_is_Some_2 _ _ Hlt) as [[c b] Hb]. rewrite (Hz _ _ _ Hb) in Hb.
  apply (numfree_some _ j b). by rewrite list_lookup_insert_ne.
Qed.

End Steps.
