(* ===== verification/CoapEngine.v ===== *)
(** * Requests from the client to the engine of the server
    (oc/api/oc_client_api.c, oc/messaging/coap/engine.c)

    How a client makes the message of a request, secured or not, and what the
    engine does with any message it receives: it parses it, authenticates it,
    and hands it to the resources or the client's callbacks, or answers it
    itself.  Duplicates are not looked for in this build. *)

From S2P Require Import Prelude Check Product DesktopProduct Channel ChannelEndpoint ChannelLm.
From S2P Require Import Cbor CborEncoder ChannelCose ChannelSm Coap CoapTransactions.
Local Open Scope Z_scope.
Local Open Scope c_scope.

Definition COAP_GET : Z := 1.
Definition COAP_DELETE : Z := 4.

(** ** The client *)

(** What a request is made from; [cb_uri] and [cb_query] without the NUL. *)
Record oc_client_cb_t := mk_client_cb {
  cb_uri : list Z;
  cb_query : list Z;
  cb_high_qos : bool;
  cb_method : Z;
  cb_mid : Z;
  cb_token : list Z;
  cb_token_len : Z
}.

(** The packet that prepare_coap_request starts. *)
Definition prepare_coap_request (cb : oc_client_cb_t) : option (coap_packet coap_ptr) :=
  let type := if cb_high_qos cb then COAP_TYPE_CON else COAP_TYPE_NON in
  let request := coap_udp_init_message type (u8 (cb_method cb)) (cb_mid cb) in
  '(_, request) ← coap_set_token request (cb_token cb) (cb_token_len cb);
  '(_, request) ← coap_set_header_uri_path request (cb_uri cb ++ [0]) (Z.of_nat (length (cb_uri cb)));
  if 0 <? Z.of_nat (length (cb_query cb)) then
    '(_, request) ← coap_set_header_uri_query request (cb_query cb ++ [0]); Some request
  else Some request.

Section Client.
Context {P : Type} `{Product P} `{!ChannelProduct P} `{ChannelConfig} (g : garbage).

(** The packet with the payload, and its length and format, if it has one. *)
Definition request_with_payload (request : coap_packet coap_ptr) (payload_size : Z) : option (coap_packet coap_ptr) :=
  if 0 <? payload_size then
    let '(_, request) := coap_set_payload request (Some (ptr_buffer COAP_MAX_HEADER_SIZE)) payload_size in
    if negb (pk_content_format request =? APPLICATION_COSE_MAC0) then
      '(_, request) ← coap_set_header_content_format request APPLICATION_VND_OCF_CBOR; Some request
    else Some request
  else Some request.

(** [data]: the buffer of the transaction's message, with the payload that the
    application wrote behind the space for the header; [buffer] is the local
    buffer.  Gives the message, [None] if nothing is sent: the transaction is
    cleared then. *)
Definition dispatch_coap_request (nx_secure_request : bool) (buffer : list Z) (garbage_size : Z) (endpoint : oc_endpoint_t) (cb : oc_client_cb_t)
    (request : coap_packet coap_ptr) (data : list Z) (payload_size : Z) (w : lm_world P) : run (option (list Z * Z)) :=
  let header := Z.to_nat COAP_MAX_HEADER_SIZE in
  '(security_ok, request, data, payload_size) ←
    (if nx_secure_request then
       '(security_ok, transaction_payload, payload_size) ←
         _prepare_secured_coap_request g buffer garbage_size endpoint (cb_method cb) (cb_uri cb) (drop header data) payload_size w;
       request ← defined (if security_ok : bool then '(_, request) ← coap_set_header_content_format request APPLICATION_COSE_MAC0; Some request
                          else Some request);
       Done (security_ok, request, take header data ++ transaction_payload, payload_size)
     else Done (true, request, data, payload_size));
  request ← defined (request_with_payload request payload_size);
  '(len, _, data) ← defined (coap_serialize_message (Some request) (Some data));
  match data with
  | Some data => if (0 <? len) && security_ok then Done (Some (data, len)) else Done None
  | None => Done None
  end.

(** ** The engine *)

(** A parsed packet as the security manager looks at it. *)
Definition received_packet (pk : coap_packet_at) (data : list Z) : option coap_packet_t :=
  '(path_len, path) ← coap_get_header_uri_path pk;
  path ← (match path with
          | Some p => if path_len =? 0 then Some (Some []) else p ← p; path ← slice data (Z.to_nat p) (Z.to_nat path_len); Some (Some path)
          | None => Some None
          end);
  '(_, format) ← coap_get_header_content_format pk;
  let payload := match pk_payload pk with Some p => drop (Z.to_nat p) data | None => [] end in
  Some (mk_coap_packet (pk_code pk) path format payload (pk_payload_len pk) false).

(** What becomes of a message: a request for the resources, an answer for the
    client's callbacks, or an answer of the engine itself. *)
Inductive engine_action :=
| to_resources (pkt : coap_packet_t) (rcvd_pkt_secured : bool)
| to_callbacks (pkt : coap_packet_t) (rcvd_pkt_secured : bool)
| send_nonce_sync (is_nonce_reset : bool)
| send_previous_request
| send_empty_response (type code : Z).

(** By the status; [pkt] matters only for COAP_NO_ERROR. *)
Definition engine_act (coap_status_code type : Z) (pkt : coap_packet_t) (rcvd_pkt_secured : bool) : engine_action :=
  if coap_status_code =? COAP_NO_ERROR then
    if (COAP_GET <=? code pkt) && (code pkt <=? COAP_DELETE) then to_resources pkt rcvd_pkt_secured else to_callbacks pkt rcvd_pkt_secured
  else if coap_status_code =? NOT_ACCEPTABLE_4_06 then send_nonce_sync false
  else if coap_status_code =? NEXUS_CHANNEL_SECURITY_RESEND_PREVIOUS_REQUEST then send_previous_request
  else if coap_status_code =? NEXUS_CHANNEL_SECURITY_REQUIRE_NONCE_SYNC_SPECIAL_CASE_RESET then send_nonce_sync true
  else send_empty_response (if type =? COAP_TYPE_CON then COAP_TYPE_ACK else COAP_TYPE_NON) coap_status_code.

(** The message is the first [data_len] bytes of [data]. *)
Definition coap_receive (ms : sec_methods) (resources : list oc_resource_t) (endpoint : oc_endpoint_t) (data : list Z) (data_len : Z) (w : lm_world P)
    : run (Z * coap_packet_at * engine_action * lm_world P) :=
  '(coap_status_code, pk, data) ← defined (coap_udp_parse_message data data_len);
  '(coap_status_code, rcvd_pkt_secured, pkt, w) ←
    (if coap_status_code =? COAP_NO_ERROR then
       pkt ← defined (received_packet pk data);
       _coap_unpack_possibly_secured_payload g ms resources endpoint pkt w
     else Done (coap_status_code, false, mk_coap_packet (pk_code pk) None None [] 0 false, w));
  Done (coap_status_code, pk, engine_act coap_status_code (pk_type pk) pkt rcvd_pkt_secured, w).
End Client.
