(* ===== verification/CoapDelivery.v ===== *)
(** * Delivery of requests: from the client's call to the server's resources *)

From S2P Require Import Prelude Check Product DesktopProduct Channel ChannelEndpoint ChannelLm ChannelLmSpec ChannelLmTable ChannelLmCreate.
From S2P Require Import Cbor CborSafe CborEncoder ChannelCose ChannelCoseSpec ChannelCoseRun ChannelSm ChannelSmSpec ChannelSmRun ChannelSmAgree.
From S2P Require Import Coap CoapSpec CoapParse CoapRun CoapTransactions CoapEngine.
Local Open Scope Z_scope.
Local Open Scope c_scope.

(** ** Parsing keeps bytes *)

Lemma aset_bytes l i x l' : bytes_ok l → is_u8 x → aset l i x = Some l' → bytes_ok l'.
Proof. unfold aset. case_decide; [|done]. intros Hl Hx [= <-]. by apply Forall_insert. Qed.

Lemma slice_bytes l off n l' : bytes_ok l → slice l off n = Some l' → bytes_ok l'.
Proof. unfold slice. case_decide; [|done]. intros Hl [= <-]. by apply Forall_take, Forall_drop. Qed.

Lemma memcpy_bytes l off src l' : bytes_ok l → bytes_ok src → memcpy_at l off src = Some l' → bytes_ok l'.
Proof.
  unfold memcpy_at. case_decide; [|done]. intros Hl Hs [= <-].
  apply Forall_app_2; [by apply Forall_take|]. apply Forall_app_2; [done|by apply Forall_drop].
Qed.

Lemma merge_bytes data dst dst_len start len sep d l data' : bytes_ok data → is_u8 sep →
  coap_merge_multi_option data dst dst_len start len sep = Some (d, l, data') → bytes_ok data'.
Proof.
  intros Hd Hs. unfold coap_merge_multi_option. destruct (0 <? dst_len); [|by intros [= <- <- <-]].
  destruct dst as [p|]; [|done]. cbn [mbind option_bind]. destruct (aset _ _ _) as [d1|] eqn:H1; [|done]. cbn [mbind option_bind].
  destruct (slice _ _ _) as [src|] eqn:H2; [|done]. cbn [mbind option_bind]. destruct (memcpy_at _ _ _) as [d2|] eqn:H3; [|done].
  intros [= <- <- <-]. eapply memcpy_bytes; [| |exact H3]; [by eapply aset_bytes|]. eapply slice_bytes; [|exact H2]. by eapply aset_bytes.
Qed.

Lemma parse_value_bytes pk data number cur len ret pk' data' : bytes_ok data →
  coap_parse_value pk data number cur len = Some (ret, pk', data') → bytes_ok data'.
Proof.
  intros Hd. unfold coap_parse_value. repeat case_match; try done.
  - destruct (coap_parse_int_option _ _ _); [|done]. cbn [mbind option_bind]. destruct (_ && _); by intros [= <- <- <-].
  - destruct (coap_merge_multi_option _ _ _ _ _ _) as [[[d l] data1]|] eqn:Hm; [|done]. intros [= <- <- <-]. refine (merge_bytes _ _ _ _ _ _ _ _ _ Hd _ Hm); by split.
  - destruct (coap_merge_multi_option _ _ _ _ _ _) as [[[d l] data1]|] eqn:Hm; [|done]. intros [= <- <- <-]. refine (merge_bytes _ _ _ _ _ _ _ _ _ Hd _ Hm); by split.
  - by intros [= <- <- <-].
  - by intros [= <- <- <-].
Qed.

Lemma parse_options_bytes fuel : ∀ pk data n cur number st pk' data', bytes_ok data →
  coap_parse_options fuel pk data n cur number = Some (st, pk', data') → bytes_ok data'.
Proof.
  induction fuel as [|fuel IH]; intros pk data n cur number st pk' data' Hd; [done|]. cbn [coap_parse_options].
  destruct (cur <? n); [|by intros [= <- <- <-]]. destruct (aget data cur) as [b|]; [|done]. cbn [mbind option_bind].
  destruct (_ =? 0xF0).
  - unfold coap_parse_payload. destruct (aset _ _ _) as [d1|] eqn:H1; [|done]. intros [= <- <- <-]. by eapply aset_bytes.
  - destruct (coap_extended _ _ (b ≫ 4)) as [[delta p]|]; [|done]. cbn [mbind option_bind].
    destruct (coap_extended _ _ _) as [[len cur']|]; [|done]. cbn [mbind option_bind].
    destruct (SET_OPTION _ _) as [pk1|]; [|done]. cbn [mbind option_bind]. destruct (n <? _); [by intros [= <- <- <-]|].
    destruct (coap_parse_value _ _ _ _ _) as [[[ret pk2] d2]|] eqn:Hv; [|done]. cbn [mbind option_bind].
    pose proof (parse_value_bytes _ _ _ _ _ _ _ _ Hd Hv) as Hd2. destruct ret; [by intros [= <- <- <-]|]. by apply IH.
Qed.

Lemma parse_message_bytes data n st pk data' : bytes_ok data → coap_udp_parse_message data n = Some (st, pk, data') → bytes_ok data'.
Proof.
  intros Hd. unfold coap_udp_parse_message. destruct (aget data 0); [|done]. destruct (aget data 1); [|done].
  destruct (aget data 2); [|done]. destruct (aget data 3); [|done]. cbn [mbind option_bind].
  destruct (negb _); [by intros [= <- <- <-]|]. destruct (COAP_TOKEN_LEN <? _); [by intros [= <- <- <-]|]. unfold coap_parse_token_option.
  destruct (slice _ _ _) as [tk|]; [|done]. cbn [mbind option_bind]. destruct (memcpy_at _ _ _) as [tk'|]; [|done]. cbn [mbind option_bind].
  by apply parse_options_bytes.
Qed.

(** ** The packet of a message, as the security manager sees it *)

Definition view_path (v : coap_view) : option (list Z) := if vw_path v is [] then None else Some (joined slash (vw_path v)).

Lemma text_slice data p s : s ≠ [] → text_at data p s → ∃ d, p = Some (Z.of_nat d) ∧ slice data d (length s) = Some s.
Proof.
  intros Hne Ht. destruct (Ht Hne) as (d & -> & Hd). exists d. split; [done|]. rewrite slice_in; [by rewrite Hd|].
  apply (f_equal length) in Hd. rewrite length_take, length_drop in Hd. destruct s; [done|]. cbn [length] in *. lia.
Qed.

Lemma received_view pk data v bytes : received pk data v bytes → view_ok v → bytes_ok data → bytes ≠ [] →
  ∃ payload, received_packet pk data = Some (mk_coap_packet (pk_code pk) (view_path v) (vw_format v) payload (Z.of_nat (length bytes)) false) ∧
    take (length bytes) payload = bytes ∧ bytes_ok payload.
Proof.
  intros [Hf Hp Hpt _ _ Hpay Hpayt] Hv Hb Hne. unfold received_packet. rewrite Hp. cbn [mbind option_bind].
  destruct (Hpayt Hne) as (d & Hd & Htake). rewrite Hd in Hpay |- *. unfold coap_get_payload in Hpay. rewrite Hd in Hpay. injection Hpay as Hlen.
  exists (drop d data). rewrite Nat2Z.id. split_and!; [|done|by apply Forall_drop].
  unfold view_path. destruct (vw_path v) as [|s segs] eqn:Hpath; cbn [not_empty].
  - cbn [mbind option_bind]. rewrite Hf. cbn [mbind option_bind]. by rewrite Hlen; destruct (vw_format v).
  - assert (Hj : joined slash (s :: segs) ≠ []).
    { destruct Hv as (Hs & _). rewrite Hpath in Hs. apply Forall_cons in Hs as [[Hs _] _]. destruct s; [done|]. by destruct segs. }
    destruct (text_slice _ _ _ Hj Hpt) as (p & -> & Hsl).
    rewrite (proj2 (Z.eqb_neq _ 0)) by (destruct (joined slash (s :: segs)); [done|cbn; lia]). cbn [mbind option_bind].
    rewrite !Nat2Z.id, Hsl. cbn [mbind option_bind].
    rewrite Hf. cbn [mbind option_bind]. by rewrite Hlen; destruct (vw_format v).
Qed.

(** ** The client's message *)

(** A request for a path and a query in parts. *)
Record client_ok (cb : oc_client_cb_t) (token : Z) (segs qsegs : list (list Z)) : Prop := mk_client_ok {
  co_uri : cb_uri cb = joined slash segs;
  co_segs : segs ≠ [] ∧ segs_ok slash segs ∧ Forall bytes_ok segs;
  co_query : cb_query cb = joined ampersand qsegs;
  co_qsegs : segs_ok ampersand qsegs ∧ Forall bytes_ok qsegs ∧ head (cb_query cb) ≠ Some question ∧ 0 ∉ cb_query cb;
  co_token : cb_token cb = [token] ∧ cb_token_len cb = 1 ∧ is_u8 token;
  co_mid : is_u16 (cb_mid cb);
  co_method : COAP_GET ≤ cb_method cb ≤ COAP_DELETE
}.

Definition request_type (cb : oc_client_cb_t) : Z := if cb_high_qos cb then COAP_TYPE_CON else COAP_TYPE_NON.

(** The packet of a secured request whose message has [size] bytes. *)
Definition request_packet (cb : oc_client_cb_t) (size : Z) : coap_packet coap_ptr :=
  let query := (0 <? Z.of_nat (length (cb_query cb))) in
  mk_packet false COAP_TRANSPORT_UDP 0 (request_type cb) (cb_method cb) (cb_mid cb) 1 (cb_token cb)
    [0; (if query then 152 else 24); 0; 0; 0; 0; 0; 0; 0; 0]
    APPLICATION_COSE_MAC0 (Some (ptr_memory (cb_uri cb ++ [0]))) (Z.of_nat (length (cb_uri cb)))
    (if query then Some (ptr_memory (cb_query cb ++ [0])) else None) (if query then Z.of_nat (length (cb_query cb)) else 0)
    (Some (ptr_buffer COAP_MAX_HEADER_SIZE)) size.

Lemma joined_head sep segs : segs ≠ [] → segs_ok sep segs → ∃ c s, joined sep segs = c :: s ∧ c ≠ sep.
Proof.
  destruct segs as [|s segs]; [done|]. intros _ [[Hne Hc] _]%Forall_cons. destruct s as [|c s]; [done|].
  apply Forall_cons in Hc as [Hc _]. destruct segs; by exists c; eexists.
Qed.

Lemma c_strlen_string s : 0 ∉ s → c_strlen (s ++ [0]) = Some (Z.of_nat (length s)).
Proof.
  induction s as [|c s IH]; [done|]. intros Hc. apply not_elem_of_cons in Hc as [Hc Hs]. cbn [c_strlen app].
  rewrite (proj2 (Z.eqb_neq c 0)) by congruence. rewrite IH by done. cbn. f_equal. lia.
Qed.

Lemma with_payload_eq (r : coap_packet coap_ptr) size : 0 < size ≤ 98 → pk_content_format r = APPLICATION_COSE_MAC0 →
  request_with_payload r size = Some {| r with pk_payload := Some (ptr_buffer COAP_MAX_HEADER_SIZE); pk_payload_len := size |}.
Proof.
  intros Hs Hf. unfold request_with_payload, coap_set_payload. rewrite (proj2 (Z.ltb_lt 0 size)) by lia.
  change NEXUS_CHANNEL_MAX_CBOR_PAYLOAD_SIZE with 98. rewrite (proj2 (Z.ltb_ge 98 size)), u16_small by (unfold is_u16; lia).
  cbv beta iota zeta. cbn [pk_content_format]. by rewrite Hf.
Qed.

Lemma prepare_request_spec cb token segs qsegs : client_ok cb token segs qsegs →
  ∃ request, prepare_coap_request cb = Some request ∧
    ∀ size, 0 < size ≤ 98 →
      ∃ r n, coap_set_header_content_format request APPLICATION_COSE_MAC0 = Some (n, r) ∧ request_with_payload r size = Some (request_packet cb size).
Proof.
  intros [Hu (Hne & Hs & _) Hq (Hqs & _ & Hh & Hz) (Ht & Htl & Htb) Hmid Hm].
  destruct (joined_head _ _ Hne Hs) as (c & rest & Hj & Hc).
  assert (Hskip : skip_slashes (cb_uri cb ++ [0]) (Z.of_nat (length (cb_uri cb))) = Some (cb_uri cb ++ [0], Z.of_nat (length (cb_uri cb)))).
  { rewrite Hu, Hj. cbn [app skip_slashes]. by rewrite (proj2 (Z.eqb_neq c slash)). }
  assert (Hm8 : u8 (cb_method cb) = cb_method cb) by (apply u8_small; unfold is_u8, COAP_GET, COAP_DELETE in *; lia).
  unfold prepare_coap_request. cbv zeta. rewrite Hm8, Htl, Ht. fold (request_type cb).
  change (coap_set_token (coap_udp_init_message (request_type cb) (cb_method cb) (cb_mid cb)) [token] 1) with
    (Some (1, mk_packet (ptr:=coap_ptr) false COAP_TRANSPORT_UDP 0 (request_type cb) (cb_method cb) (cb_mid cb) 1 [token] (replicate 10 0) 0 None 0 None 0 None 0)).
  cbn [mbind option_bind]. unfold coap_set_header_uri_path at 1. rewrite Hskip. cbn [mbind option_bind].
  unfold request_packet. rewrite Ht.
  destruct (cb_query cb) as [|x query] eqn:Hquery.
  - eexists. split; [reflexivity|]. intros size Hs'. exists
      (mk_packet (ptr:=coap_ptr) false COAP_TRANSPORT_UDP 0 (request_type cb) (cb_method cb) (cb_mid cb) 1 [token] [0; 24; 0; 0; 0; 0; 0; 0; 0; 0]
        APPLICATION_COSE_MAC0 (Some (ptr_memory (cb_uri cb ++ [0]))) (Z.of_nat (length (cb_uri cb))) None 0 None 0), 1.
    split; [reflexivity|]. by rewrite (with_payload_eq _ _ Hs').
  - replace (0 <? Z.of_nat (length (x :: query))) with true by (symmetry; apply Z.ltb_lt; cbn; lia).
    unfold coap_set_header_uri_query. assert (Hx : skip_questions ((x :: query) ++ [0]) = Some ((x :: query) ++ [0])).
    { cbn [app skip_questions]. rewrite (proj2 (Z.eqb_neq x question)); [done|]. intros ->. by apply Hh. }
    rewrite Hx. cbn [mbind option_bind]. rewrite (c_strlen_string _ Hz). cbn [mbind option_bind].
    eexists. split; [reflexivity|]. intros size Hs'. exists
      (mk_packet (ptr:=coap_ptr) false COAP_TRANSPORT_UDP 0 (request_type cb) (cb_method cb) (cb_mid cb) 1 [token] [0; 152; 0; 0; 0; 0; 0; 0; 0; 0]
        APPLICATION_COSE_MAC0 (Some (ptr_memory (cb_uri cb ++ [0]))) (Z.of_nat (length (cb_uri cb)))
        (Some (ptr_memory ((x :: query) ++ [0]))) (Z.of_nat (length (x :: query))) None 0), 1.
    split; [reflexivity|]. by rewrite (with_payload_eq _ _ Hs').
Qed.

Definition request_view (segs qsegs : list (list Z)) : coap_view := mk_view segs (Some APPLICATION_COSE_MAC0) qsegs.

Lemma request_packet_describes cb token segs qsegs size : client_ok cb token segs qsegs →
  describes (request_packet cb size) (request_view segs qsegs) ∧ view_ok (request_view segs qsegs).
Proof.
  intros [Hu (Hne & Hs & Hsb) Hq (Hqs & Hqb & Hh & Hz) (Ht & Htl & Htb) Hmid Hm]. split.
  - assert (Hempty : not_empty qsegs = (0 <? Z.of_nat (length (cb_query cb)))).
    { destruct qsegs as [|x qsegs]; [by rewrite Hq|]. destruct (joined_head ampersand (x :: qsegs) ltac:(done) Hqs) as (c & r & Hj & _). rewrite Hq, Hj. done. }
    unfold request_packet. split; cbn [request_view vw_path vw_format vw_query pk_uri_path pk_uri_path_len pk_uri_query pk_uri_query_len pk_content_format].
    + destruct segs; [done|]. by destruct (0 <? _).
    + intros _. rewrite Hu. split; [done|]. split; [done|]. by exists [0].
    + by destruct (0 <? _).
    + by intros f [= <-].
    + rewrite Hempty. by destruct (0 <? _).
    + intros Hqne. assert (Htrue : (0 <? Z.of_nat (length (cb_query cb))) = true) by (rewrite <- Hempty; by destruct qsegs).
      rewrite Htrue, Hq. split; [done|]. split; [done|]. by exists [0].
  - unfold view_ok, known_format. cbn. split_and!; auto.
Qed.

(** ** Messages of any bytes *)

Lemma set_option_code (pk pk' : coap_packet_at) opt : SET_OPTION pk opt = Some pk' → pk_code pk' = pk_code pk.
Proof. unfold SET_OPTION. destruct (aget _ _); [|done]. cbn [mbind option_bind]. destruct (aset _ _ _); [|done]. by intros [= <-]. Qed.

Lemma parse_value_code pk data number cur len ret pk' data' : coap_parse_value pk data number cur len = Some (ret, pk', data') → pk_code pk' = pk_code pk.
Proof.
  unfold coap_parse_value. destruct (_ =? _).
  { destruct (coap_parse_int_option _ _ _); [|done]. cbn [mbind option_bind]. destruct (_ && _); by intros [= <- <- <-]. }
  destruct (_ =? _); [destruct (coap_merge_multi_option _ _ _ _ _ _) as [[[d l] data1]|]; [by intros [= <- <- <-]|done]|].
  destruct (_ =? _); [destruct (coap_merge_multi_option _ _ _ _ _ _) as [[[d l] data1]|]; [by intros [= <- <- <-]|done]|].
  destruct (negb _); by intros [= <- <- <-].
Qed.

Lemma parse_options_code fuel : ∀ pk data n cur number st pk' data',
  coap_parse_options fuel pk data n cur number = Some (st, pk', data') → pk_code pk' = pk_code pk.
Proof.
  induction fuel as [|fuel IH]; intros pk data n cur number st pk' data'; [done|]. cbn [coap_parse_options].
  destruct (cur <? n); [|by intros [= <- <- <-]]. destruct (aget data cur) as [b|]; [|done]. cbn [mbind option_bind].
  destruct (_ =? 0xF0).
  - unfold coap_parse_payload. destruct (aset _ _ _) as [d1|]; [|done]. by intros [= <- <- <-].
  - destruct (coap_extended _ _ (b ≫ 4)) as [[delta p]|]; [|done]. cbn [mbind option_bind].
    destruct (coap_extended _ _ _) as [[len cur']|]; [|done]. cbn [mbind option_bind].
    destruct (SET_OPTION _ _) as [pk1|] eqn:Hs; [|done]. cbn [mbind option_bind]. apply set_option_code in Hs. destruct (n <? _); [by intros [= <- <- <-]|].
    destruct (coap_parse_value _ _ _ _ _) as [[[ret pk2] d2]|] eqn:Hv; [|done]. cbn [mbind option_bind]. apply parse_value_code in Hv.
    destruct ret; [intros [= <- <- <-]; congruence|]. intros Hr%IH. congruence.
Qed.

Lemma parse_message_code data n st pk data' : bytes_ok data → coap_udp_parse_message data n = Some (st, pk, data') → is_u8 (pk_code pk).
Proof.
  intros Hd. unfold coap_udp_parse_message. destruct (aget data 0); [|done]. destruct (aget data 1) as [code|] eqn:Hc; [|done].
  destruct (aget data 2); [|done]. destruct (aget data 3); [|done]. cbn [mbind option_bind]. pose proof (Forall_aget _ _ _ _ Hd Hc) as Hcode.
  destruct (negb _); [by intros [= <- <- <-]|]. destruct (COAP_TOKEN_LEN <? _); [by intros [= <- <- <-]|]. unfold coap_parse_token_option.
  destruct (slice _ _ _) as [tk|]; [|done]. cbn [mbind option_bind]. destruct (memcpy_at _ _ _) as [tk'|]; [|done]. cbn [mbind option_bind].
  by intros ->%parse_options_code.
Qed.

(** The packet of a message that was accepted. *)
Lemma accepted_packet data n pk data' : message_in data n → coap_udp_parse_message data (Z.of_nat n) = Some (COAP_NO_ERROR, pk, data') →
  ∃ pkt, received_packet pk data' = Some pkt ∧ packet_ok pkt ∧ payload_moved pkt = false.
Proof.
  intros Hm Hparse. destruct (accepted_parsed _ _ _ _ Hm Hparse) as (opts & e & r & payload & _ & _ & _ & [Hfl Hten _ [Hpl Hp] _ Hpay]).
  pose proof (parse_message_bytes _ _ _ _ _ (mi_bytes _ _ Hm) Hparse) as Hdb. pose proof (parse_message_code _ _ _ _ _ (mi_bytes _ _ Hm) Hparse) as Hcode.
  assert (Hflag : ∀ k, 0 ≤ k < max_options → ∃ b, IS_OPTION pk k = Some b) by (intros k Hk; eexists; rewrite is_option_flag; rewrite ?Hfl; done).
  destruct (Hflag COAP_OPTION_URI_PATH ltac:(done)) as [fp Hfp]. destruct (Hflag COAP_OPTION_CONTENT_FORMAT ltac:(done)) as [ff Hff].
  assert (Hpath : ∃ len path, coap_get_header_uri_path pk = Some (len, path) ∧ ∃ path', match path with
      | Some p => if len =? 0 then Some (Some []) else p ← p; path ← slice data' (Z.to_nat p) (Z.to_nat len); Some (Some path)
      | None => Some None
      end = Some path' ∧ bytes_ok (default [] path')).
  { unfold coap_get_header_uri_path. rewrite Hfp. cbn [mbind option_bind]. destruct fp; eexists _, _; (split; [reflexivity|]); [|by exists None].
    rewrite Hpl. destruct (Z.eqb_spec (zlen (rd_path r)) 0) as [|Hne]; [by exists (Some [])|].
    destruct (text_slice data' (pk_uri_path pk) (rd_path r)) as (d & -> & Hs); [by intros Hnil; rewrite Hnil in Hne|by destruct (string_in_text _ _ _ _ _ _ (conj Hpl Hp))|].
    cbn [mbind option_bind]. rewrite !Nat2Z.id, Hs. exists (Some (rd_path r)). split; [done|]. by eapply slice_bytes. }
  destruct Hpath as (len & path & Hget & path' & Hpath & Hpb).
  unfold received_packet. rewrite Hget. cbn [mbind option_bind]. rewrite Hpath. cbn [mbind option_bind].
  unfold coap_get_header_content_format. rewrite Hff. cbn [mbind option_bind]. destruct ff; (eexists; split; [reflexivity|]; split; [|done]).
  all: split; cbn [code uri_path ChannelSm.payload payload_len]; [done|done|by destruct (pk_payload pk); [apply Forall_drop|]|].
  all: destruct payload as [bs|]; [destruct Hpay as (-> & d & -> & Ht); rewrite Nat2Z.id; apply (f_equal length) in Ht; rewrite length_take in Ht; lia|].
  all: injection Hpay as -> ->; cbn; lia.
Qed.

Lemma engine_act_request type pkt secured : COAP_GET ≤ code pkt ≤ COAP_DELETE → engine_act COAP_NO_ERROR type pkt secured = to_resources pkt secured.
Proof. intros [Hl Hu]. unfold engine_act. change (COAP_NO_ERROR =? COAP_NO_ERROR) with true. by rewrite (proj2 (Z.leb_le _ _) Hl), (proj2 (Z.leb_le _ _) Hu). Qed.

Section Delivery.
Context {P : Type} `{HP : ProductLaws P} `{!ReliableNv P} `{!ChannelProduct P} `{!ChannelProductLaws P}
  `{HC : ChannelConfigOk} (gc gs : garbage) (Hgc : garbage_ok gc) (Hgs : garbage_ok gs).

(** The request as the security manager's client sees it. *)
Definition secured_request (cb : oc_client_cb_t) (data buffer : list Z) (garbage_size payload_size : Z) : client_request :=
  mk_client_request (cb_method cb) (cb_uri cb) (drop 22 data) payload_size buffer garbage_size.

(** What goes out is the message of the packet with the secured payload. *)
Lemma dispatch_secured cb token segs qsegs buffer garbage_size data payload_size endpoint id (w : lm_world P) l :
  client_ok cb token segs qsegs → length data = 120%nat →
  lm_ok w → nexus_oc_wrapper_oc_endpoint_to_nx_id endpoint = Some id → link_of w id = Some l → nonce (security_data l) < UINT32_MAX →
  request_ok (secured_request cb data buffer garbage_size payload_size) (nonce (security_data l) + 1) →
  message_header_size (request_view segs qsegs) [0] ≤ COAP_MAX_HEADER_SIZE →
  let n := nonce (security_data l) + 1 in
  let payload := take (Z.to_nat payload_size) (drop 22 data) in
  let bytes := cose_message n payload (cose_tag (sym_key (security_data l)) n (cb_method cb) (cb_uri cb) payload) in
  let message := message_bytes (request_type cb) token (cb_method cb) (cb_mid cb) (request_view segs qsegs) bytes in
  ∃ request sent, prepare_coap_request cb = Some request ∧
    dispatch_coap_request gc true buffer garbage_size endpoint cb request data payload_size w = Done (Some (sent, Z.of_nat (length message))) ∧
    take (length message) sent = message ∧ bytes_ok bytes ∧ zlen bytes ≤ 98 ∧ bytes ≠ [] ∧
    message_header_size (request_view segs qsegs) bytes ≤ COAP_MAX_HEADER_SIZE.
Proof.
  intros Hcb Hdata Hok Hid Hl Hn Hrq Hfit n payload bytes message.
  destruct (client_send_spec gc Hgc _ endpoint id w l Hok Hid Hl Hn Hrq) as (tp & Hsend & Htake & Htpb & H98).
  unfold request_payload in *. cbn [secured_request cr_method cr_uri cr_payload cr_size cr_buffer cr_garbage_size] in Htake, Hsend, H98.
  fold n payload in Htake, Hsend, H98. fold bytes in Htake, Hsend, H98.
  assert (Hne : bytes ≠ []) by (intros Hnil; by apply (f_equal length) in Hnil).
  assert (Hlb : (length bytes ≤ length tp)%nat) by (rewrite <- Htake, length_take; lia).
  assert (Hpos : 0 < Z.of_nat (length bytes) ≤ 98) by (destruct bytes; [done|cbn [length] in *; lia]).
  destruct (prepare_request_spec cb token segs qsegs Hcb) as (request & Hprep & Hrest). exists request.
  destruct (Hrest _ Hpos) as (r & k & Hformat & Hpkt). set (pk := request_packet cb (Z.of_nat (length bytes))) in *.
  set (buf := take 22 data ++ tp). destruct (request_packet_describes cb token segs qsegs (Z.of_nat (length bytes)) Hcb) as [Hd Hv]. fold pk in Hd.
  assert (Hdrop : drop 22 buf = tp) by (unfold buf; apply drop_app_length'; rewrite length_take; lia).
  assert (Hcar : carries pk buf bytes).
  { split; [done|]. intros _. cbn [pk request_packet pk_payload]. split; [done|]. change (Z.to_nat COAP_MAX_HEADER_SIZE) with 22%nat. rewrite Hdrop.
    exists (drop (length bytes) tp). by rewrite <- Htake at 1; rewrite take_drop. }
  assert (Hsz : message_header_size (request_view segs qsegs) bytes ≤ COAP_MAX_HEADER_SIZE) by (unfold message_header_size in *; by destruct bytes).
  pose proof (serialize_message_at pk (request_view segs qsegs) token buf bytes Hd eq_refl (proj1 (co_token _ _ _ _ Hcb))) as Hser.
  assert (Hbuf : COAP_MAX_HEADER_SIZE + zlen bytes ≤ zlen buf).
  { unfold buf. rewrite length_app, length_take, Hdata. unfold COAP_MAX_HEADER_SIZE. lia. }
  assert (Hcode : pk_code pk ≠ 0) by (pose proof (co_method _ _ _ _ Hcb); cbn; unfold COAP_GET in *; lia).
  specialize (Hser Hcode Hcar Hbuf). rewrite (proj2 (Z.ltb_ge _ _) Hsz) in Hser.
  change (message_bytes (pk_type pk) token (pk_code pk) (pk_mid pk) (request_view segs qsegs) bytes) with message in Hser.
  pose proof (message_size (request_type cb) token (cb_method cb) (cb_mid cb) (request_view segs qsegs) bytes) as Hms. fold message in Hms.
  destruct (blit (Some buf) 0 message) as [sent|] eqn:Hblit; [|done]. exists sent. split; [done|]. split.
  - unfold dispatch_coap_request. cbv zeta. change (Z.to_nat COAP_MAX_HEADER_SIZE) with 22%nat. apply client_send_prepared in Hsend.
    cbn [secured_request cr_method cr_uri cr_payload cr_size cr_buffer cr_garbage_size] in Hsend.
    rewrite Hsend. cbn [mbind run_bind]. rewrite Hformat. cbn [defined mbind run_bind option_bind]. rewrite Hpkt. cbn [defined mbind run_bind]. fold buf. rewrite Hser.
    cbn [defined mbind run_bind]. rewrite <- Hms. rewrite andb_true_r, (proj2 (Z.ltb_lt _ _)); [done|]. rewrite Hms. unfold message_header_size. clear. destruct bytes; lia.
  - split; [by apply (blit_start _ _ _ Hblit)|]. split_and!; [|lia|done|done]. rewrite <- Htake. by apply Forall_take.
Qed.


(** A packet carries the tag of the link's key over its method, its path and
    what is handed on, under a nonce that the link has not used. *)
Record authenticated (l : nexus_channel_link_t) (received pkt : coap_packet_t) (n : Z) : Prop := mk_authenticated {
  au_same : code pkt = code received ∧ uri_path pkt = uri_path received;
  au_nonce : message_nonce gs received = Some n;
  au_fresh : nonce (security_data l) < n ∨ nonce (security_data l) = UINT32_MAX;
  au_bound : n ≤ UINT32_MAX - 64;
  au_tag : ∃ x, nexus_cose_mac0_verify_deserialize_protected_message gs (ChannelSm.payload received) (payload_len received) = Done (inr x) ∧
    x_tag x = cose_tag (sym_key (security_data l)) n (code pkt) (mac_uri pkt) (take (Z.to_nat (payload_len pkt)) (ChannelSm.payload pkt))
}.

(** The packet that the first [n] bytes of [data] are parsed as. *)
Definition parsed_as (data : list Z) (n : nat) : option coap_packet_t :=
  '(_, pk, data') ← coap_udp_parse_message data (Z.of_nat n); received_packet pk data'.

(** What the engine may do with a message from [id]. *)
Definition action_ok (ms : sec_methods) (rs : list oc_resource_t) (id : nx_id) (data : list Z) (len : nat)
    (w : lm_world P) (act : engine_action) (w' : lm_world P) : Prop :=
  match act with
  | to_resources pkt true => ∃ l n received, parsed_as data len = Some received ∧ link_of w id = Some l ∧
      authenticated l received pkt n ∧ link_became w w' id (touched n l)
  | to_resources pkt false => parsed_as data len = Some pkt ∧ nexus_channel_sm_requested_method_is_secured ms rs pkt = false ∧ w' = w
  | _ => True
  end.

End Delivery.
