(* ===== verification/ChannelPayg.v ===== *)
(** * The PAYG credit resource (nexus_channel_res_payg_credit.c)

    A controller sends its credit to the linked accessories, one after the
    other; an accessory takes the credit of its controller over and loses it
    when it does not hear from the controller.  The product's part and the
    requests over the CoAP stack are classes. *)

From S2P Require Import Prelude Check NvBlock Product Nv DesktopProduct Channel ChannelEndpoint ChannelLm ChannelHs.
Local Open Scope Z_scope.

#[export] Instance nx_channel_error_eq_dec : EqDecision nx_channel_error.
Proof. solve_decision. Defined.

(** ** The product and the stack *)

(** The functions of include/nxp_channel.h on credit; the errors they return
    are not looked at. *)
Class CreditProduct (P : Type) := {
  nxp_channel_payg_credit_set : Z → P → P;
  nxp_channel_payg_credit_unlock : P → P
}.

(** The requests to "nx/pc" of another device: starting and sending a POST with
    the credit, and a GET.  They give whether they succeed. *)
Class CreditStack (P : Type) := {
  oc_init_post_credit : oc_endpoint_t → P → bool * P;
  oc_do_post_credit : Z → P → bool * P;
  oc_do_get_credit : oc_endpoint_t → P → bool * P
}.

Definition NXP_CHANNEL_PAYG_CREDIT_REMAINING_UNLOCKED_SENTINEL_VALUE : Z := UINT32_MAX.
Definition NEXUS_CHANNEL_PAYG_CREDIT_INTERVAL_BETWEEN_PAYG_CREDIT_POST_SECONDS : Z := 2.
Definition NEXUS_CHANNEL_PAYG_CREDIT_POST_UPDATE_CYCLE_TIME_SECONDS : Z := 25.
Definition NEXUS_CHANNEL_PAYG_CREDIT_FOLLOWER_MAX_TIME_BETWEEN_UPDATES_SECONDS : Z :=
  3 * NEXUS_CHANNEL_PAYG_CREDIT_POST_UPDATE_CYCLE_TIME_SECONDS.
Definition NEXUS_CHANNEL_PAYG_CREDIT_UNITS_SECONDS : Z := 1.
Definition NEXUS_CHANNEL_PAYG_CREDIT_SENTINEL_NULL_NEXUS_ID : nx_id := mk_nx_id 0 0.

(** "re" *)
Definition PAYG_CREDIT_REMAINING_SHORT_PROP_NAME : list Z := [0x72; 0x65].

Inductive nexus_channel_payg_credit_operating_mode :=
| NEXUS_CHANNEL_PAYG_CREDIT_OPERATING_MODE_INDEPENDENT
| NEXUS_CHANNEL_PAYG_CREDIT_OPERATING_MODE_LEADING
| NEXUS_CHANNEL_PAYG_CREDIT_OPERATING_MODE_FOLLOWING
| NEXUS_CHANNEL_PAYG_CREDIT_OPERATING_MODE_RELAYING.

#[export] Instance payg_mode_eq_dec : EqDecision nexus_channel_payg_credit_operating_mode.
Proof. solve_decision. Defined.

Definition payg_mode_code (m : nexus_channel_payg_credit_operating_mode) : Z :=
  match m with
  | NEXUS_CHANNEL_PAYG_CREDIT_OPERATING_MODE_INDEPENDENT => 0
  | NEXUS_CHANNEL_PAYG_CREDIT_OPERATING_MODE_LEADING => 1
  | NEXUS_CHANNEL_PAYG_CREDIT_OPERATING_MODE_FOLLOWING => 2
  | NEXUS_CHANNEL_PAYG_CREDIT_OPERATING_MODE_RELAYING => 3
  end.

(** [_this]; a build for one role only does not have all of the fields, and
    does not look at the others here. *)
Record payg_credit := mk_payg_credit {
  remaining : Z;
  mode : nexus_channel_payg_credit_operating_mode;
  follower_mode_seconds_since_credit_updated : Z;
  last_payg_state : nxp_common_payg_state;
  last_updated_nexus_id : nx_id;
  seconds_since_last_post : Z;
  cycle_first_nexus_id : nx_id;
  seconds_since_last_cycle_start : Z
}.

(** The resource, whether the response handlers of the wrapper are set, and the
    link manager. *)
Record pc_world (P : Type) := mk_pc_world {
  pc_this : payg_credit;
  _active_client_get_handler : bool;
  _active_client_post_handler : bool;
  pc_lm : lm_world P
}.
Arguments mk_pc_world {P} _ _ _ _.
Arguments pc_this {P} _.
Arguments _active_client_get_handler {P} _.
Arguments _active_client_post_handler {P} _.
Arguments pc_lm {P} _.

Section Payg.
Context {P : Type} `{Product P} `{!ChannelProduct P} `{!CreditProduct P} `{!CreditStack P} `{ChannelConfig}.

Definition pc_on_prod {A} (m : M P A) : M (pc_world P) A :=
  zoom pc_lm (λ l w, {| w with pc_lm := l |}) (lm_on_prod m).
Definition pc_gets {A} (f : payg_credit → A) : M (pc_world P) A := gets (λ w, f (pc_this w)).
Definition pc_modify (f : payg_credit → payg_credit) : M (pc_world P) unit :=
  modify (λ w, {| w with pc_this := f (pc_this w) |}).
(** A query of the link manager. *)
Definition pc_link {A} (f : link_manager → option A) : M (pc_world P) A :=
  λ w, x ← f (lm_this (pc_lm w)); Some (x, w).

(** ** Requests (nexus_oc_wrapper.c) *)

Definition nx_channel_do_get_request_secured (server : nx_id) : M (pc_world P) nx_channel_error :=
  modify (λ w, {| w with _active_client_get_handler := true |});;
  server_oc_ep ← lift (nexus_oc_wrapper_nx_id_to_oc_endpoint server);
  success ← pc_on_prod (λ p, Some (oc_do_get_credit server_oc_ep p));
  pc_on_prod request_processing;;
  if (success : bool) then mret NX_CHANNEL_ERROR_NONE
  else modify (λ w, {| w with _active_client_get_handler := false |});; mret NX_CHANNEL_ERROR_UNSPECIFIED.

Definition nx_channel_init_post_request (server : nx_id) : M (pc_world P) nx_channel_error :=
  modify (λ w, {| w with _active_client_post_handler := true |});;
  server_oc_ep ← lift (nexus_oc_wrapper_nx_id_to_oc_endpoint server);
  success ← pc_on_prod (λ p, Some (oc_init_post_credit server_oc_ep p));
  if (success : bool) then mret NX_CHANNEL_ERROR_NONE
  else modify (λ w, {| w with _active_client_post_handler := false |});; mret NX_CHANNEL_ERROR_UNSPECIFIED.

(** [re] is the property that was encoded since the last call. *)
Definition nx_channel_do_post_request_secured (re : Z) : M (pc_world P) nx_channel_error :=
  active ← gets _active_client_post_handler;
  if negb active then mret NX_CHANNEL_ERROR_UNSPECIFIED
  else
    success ← pc_on_prod (λ p, Some (oc_do_post_credit re p));
    pc_on_prod request_processing;;
    if (success : bool) then mret NX_CHANNEL_ERROR_NONE
    else modify (λ w, {| w with _active_client_post_handler := false |});; mret NX_CHANNEL_ERROR_UNSPECIFIED.

(** ** Credit *)

Definition _nexus_channel_res_payg_credit_get_latest (current_payg_state : nxp_common_payg_state) : M (pc_world P) Z :=
  if bool_decide (current_payg_state = NXP_COMMON_PAYG_STATE_UNLOCKED)
  then mret NXP_CHANNEL_PAYG_CREDIT_REMAINING_UNLOCKED_SENTINEL_VALUE
  else pc_on_prod (gets nxp_common_payg_credit_get_remaining).

Definition _nexus_channel_res_payg_credit_get_credit_operating_mode : M (pc_world P) nexus_channel_payg_credit_operating_mode :=
  controller ← pc_link nexus_channel_link_manager_has_linked_controller;
  has_accessory ← pc_link nexus_channel_link_manager_has_linked_accessory;
  let has_controller := bool_decide (is_Some controller) in
  mret (if has_accessory && has_controller then NEXUS_CHANNEL_PAYG_CREDIT_OPERATING_MODE_RELAYING
        else if (has_accessory : bool) then NEXUS_CHANNEL_PAYG_CREDIT_OPERATING_MODE_LEADING
        else if has_controller then NEXUS_CHANNEL_PAYG_CREDIT_OPERATING_MODE_FOLLOWING
        else NEXUS_CHANNEL_PAYG_CREDIT_OPERATING_MODE_INDEPENDENT).

Definition _nexus_channel_payg_credit_update_from_post_or_get (new_remaining : Z) : M (pc_world P) unit :=
  pc_modify (λ t, {| t with remaining := new_remaining |});;
  cur ← pc_gets remaining;
  (if negb (cur =? NXP_CHANNEL_PAYG_CREDIT_REMAINING_UNLOCKED_SENTINEL_VALUE)
   then pc_on_prod (modify (nxp_channel_payg_credit_set cur))
   else pc_on_prod (modify nxp_channel_payg_credit_unlock));;
  when NEXUS_CHANNEL_SUPPORT_ACCESSORY_MODE
    (m ← _nexus_channel_res_payg_credit_get_credit_operating_mode;
     when (bool_decide (m = NEXUS_CHANNEL_PAYG_CREDIT_OPERATING_MODE_FOLLOWING))
       (pc_modify (λ t, {| t with follower_mode_seconds_since_credit_updated := 0 |}))).

Definition _nexus_channel_res_payg_credit_calculate_initial_credit
    (current_mode : nexus_channel_payg_credit_operating_mode) (current_remaining_credit : Z) : Z :=
  match current_mode with
  | NEXUS_CHANNEL_PAYG_CREDIT_OPERATING_MODE_INDEPENDENT =>
    if NEXUS_CHANNEL_SUPPORT_CONTROLLER_MODE then current_remaining_credit
    else if current_remaining_credit =? NXP_CHANNEL_PAYG_CREDIT_REMAINING_UNLOCKED_SENTINEL_VALUE
    then current_remaining_credit else 0
  | NEXUS_CHANNEL_PAYG_CREDIT_OPERATING_MODE_FOLLOWING =>
    if current_remaining_credit =? NXP_CHANNEL_PAYG_CREDIT_REMAINING_UNLOCKED_SENTINEL_VALUE
    then current_remaining_credit else 0
  | NEXUS_CHANNEL_PAYG_CREDIT_OPERATING_MODE_RELAYING
  | NEXUS_CHANNEL_PAYG_CREDIT_OPERATING_MODE_LEADING => current_remaining_credit
  end.

(** The registration of the resource is the stack's; its result is not looked
    at.  Without a controller the ID asked for its credit is not read. *)
Definition nexus_channel_res_payg_credit_init : M (pc_world P) unit :=
  payg_state ← pc_on_prod (gets nxp_common_payg_state_get_current);
  stored_remaining ← _nexus_channel_res_payg_credit_get_latest payg_state;
  m ← _nexus_channel_res_payg_credit_get_credit_operating_mode;
  pc_modify (λ t, {| t with mode := m |});;
  let new_remaining := _nexus_channel_res_payg_credit_calculate_initial_credit m stored_remaining in
  pc_modify (λ t, {| t with remaining := new_remaining |});;
  when (negb (new_remaining =? stored_remaining)) (pc_on_prod (modify (nxp_channel_payg_credit_set new_remaining)));;
  when NEXUS_CHANNEL_SUPPORT_ACCESSORY_MODE (pc_modify (λ t, {| t with follower_mode_seconds_since_credit_updated := 0 |}));;
  when NEXUS_CHANNEL_SUPPORT_CONTROLLER_MODE
    (pc_modify (λ t, {| t with last_payg_state := payg_state |});;
     pc_modify (λ t, {| t with last_updated_nexus_id := NEXUS_CHANNEL_PAYG_CREDIT_SENTINEL_NULL_NEXUS_ID |});;
     pc_modify (λ t, {| t with cycle_first_nexus_id := NEXUS_CHANNEL_PAYG_CREDIT_SENTINEL_NULL_NEXUS_ID |});;
     pc_modify (λ t, {| t with seconds_since_last_post :=
       NEXUS_CHANNEL_PAYG_CREDIT_INTERVAL_BETWEEN_PAYG_CREDIT_POST_SECONDS |});;
     pc_modify (λ t, {| t with seconds_since_last_cycle_start :=
       NEXUS_CHANNEL_PAYG_CREDIT_POST_UPDATE_CYCLE_TIME_SECONDS |}));;
  when (NEXUS_CHANNEL_SUPPORT_ACCESSORY_MODE &&
        bool_decide (m = NEXUS_CHANNEL_PAYG_CREDIT_OPERATING_MODE_FOLLOWING ∨ m = NEXUS_CHANNEL_PAYG_CREDIT_OPERATING_MODE_RELAYING))
    (controller_id ← pc_link nexus_channel_link_manager_has_linked_controller;
     controller_id ← lift controller_id;
     _ ← nx_channel_do_get_request_secured controller_id;
     mret tt).

(** The value of the last property "re" that is an integer in range; the
    comparison with the range is one of signed integers. *)
Fixpoint evaluate_payload_loop (rep : list oc_rep_t) (error_state : bool) (new_remaining : Z) : bool * Z :=
  match rep with
  | [] => (error_state, new_remaining)
  | r :: rep =>
    if bool_decide (rep_name r = PAYG_CREDIT_REMAINING_SHORT_PROP_NAME) then
      match rep_value r with
      | OC_REP_INT integer =>
        if UINT32_MAX <? integer then evaluate_payload_loop rep error_state new_remaining
        else evaluate_payload_loop rep false (u32 integer)
      | _ => evaluate_payload_loop rep error_state new_remaining
      end
    else evaluate_payload_loop rep error_state new_remaining
  end.

Definition _nexus_channel_payg_credit_evaluate_payload_extract_credit (rep : list oc_rep_t) : bool * Z :=
  evaluate_payload_loop rep true 0.

Definition _nexus_channel_res_payg_credit_get_response_handler (payload : list oc_rep_t) : M (pc_world P) unit :=
  let '(error_state, new_remaining) := _nexus_channel_payg_credit_evaluate_payload_extract_credit payload in
  if error_state then mret tt else _nexus_channel_payg_credit_update_from_post_or_get new_remaining.

(** The wrapper around the handler of a GET. *)
Definition _nx_channel_get_response_handler_wrapper (payload : list oc_rep_t) : M (pc_world P) unit :=
  active ← gets _active_client_get_handler;
  when active (_nexus_channel_res_payg_credit_get_response_handler payload);;
  modify (λ w, {| w with _active_client_get_handler := false |}).

(** The wrapper around the handler of the POST's response, which only logs. *)
Definition _nx_channel_post_response_handler_wrapper : M (pc_world P) unit :=
  modify (λ w, {| w with _active_client_post_handler := false |}).

(** ** Processing *)

(** What an accessory does: gives the time to sleep. *)
Definition payg_process_follower (current_operating_mode : nexus_channel_payg_credit_operating_mode) (seconds_elapsed min_sleep : Z)
    : M (pc_world P) Z :=
  cur ← pc_gets remaining;
  if negb (cur =? NXP_CHANNEL_PAYG_CREDIT_REMAINING_UNLOCKED_SENTINEL_VALUE) then
    if bool_decide (current_operating_mode = NEXUS_CHANNEL_PAYG_CREDIT_OPERATING_MODE_FOLLOWING) then
      pc_modify (λ t, {| t with follower_mode_seconds_since_credit_updated :=
        u32 (follower_mode_seconds_since_credit_updated t + seconds_elapsed) |});;
      seconds ← pc_gets follower_mode_seconds_since_credit_updated;
      if NEXUS_CHANNEL_PAYG_CREDIT_FOLLOWER_MAX_TIME_BETWEEN_UPDATES_SECONDS <=? seconds then
        pc_on_prod (modify (nxp_channel_payg_credit_set 0));;
        pc_modify (λ t, {| t with remaining := 0 |});;
        pc_modify (λ t, {| t with follower_mode_seconds_since_credit_updated := 0 |});;
        mret min_sleep
      else mret (NEXUS_CHANNEL_PAYG_CREDIT_FOLLOWER_MAX_TIME_BETWEEN_UPDATES_SECONDS - seconds)
    else
      old_mode ← pc_gets mode;
      when (bool_decide (current_operating_mode = NEXUS_CHANNEL_PAYG_CREDIT_OPERATING_MODE_INDEPENDENT) &&
            bool_decide (old_mode = NEXUS_CHANNEL_PAYG_CREDIT_OPERATING_MODE_FOLLOWING))
        (pc_on_prod (modify (nxp_channel_payg_credit_set 0));;
         pc_modify (λ t, {| t with remaining := 0 |}));;
      mret min_sleep
  else mret min_sleep.

(** The counters of a controller as they are when nothing was sent yet. *)
Definition payg_reset_counters : M (pc_world P) unit :=
  pc_modify (λ t, {| t with seconds_since_last_post := NEXUS_CHANNEL_PAYG_CREDIT_INTERVAL_BETWEEN_PAYG_CREDIT_POST_SECONDS |});;
  pc_modify (λ t, {| t with seconds_since_last_cycle_start := NEXUS_CHANNEL_PAYG_CREDIT_POST_UPDATE_CYCLE_TIME_SECONDS |}).

(** The devices of the last update and of the start of the cycle are forgotten
    when one of them is not linked any more. *)
Definition payg_check_stored_ids : M (pc_world P) unit :=
  last ← pc_gets last_updated_nexus_id;
  last_link ← pc_link (nexus_channel_link_manager_link_from_nxid last);
  stored_ids_still_linked ←
    (if bool_decide (is_Some last_link) then
       first ← pc_gets cycle_first_nexus_id;
       first_link ← pc_link (nexus_channel_link_manager_link_from_nxid first);
       mret (bool_decide (is_Some first_link))
     else mret false);
  when (negb stored_ids_still_linked)
    (pc_modify (λ t, {| t with last_updated_nexus_id := NEXUS_CHANNEL_PAYG_CREDIT_SENTINEL_NULL_NEXUS_ID |});;
     pc_modify (λ t, {| t with cycle_first_nexus_id := NEXUS_CHANNEL_PAYG_CREDIT_SENTINEL_NULL_NEXUS_ID |});;
     payg_reset_counters).

(** The POST to the next device. *)
Definition payg_send_credit (next_id : nx_id) : M (pc_world P) Z :=
  pc_modify (λ t, {| t with last_updated_nexus_id := next_id |});;
  pc_modify (λ t, {| t with seconds_since_last_post := 0 |});;
  err ← nx_channel_init_post_request next_id;
  if bool_decide (err ≠ NX_CHANNEL_ERROR_NONE)
  then mret NEXUS_CHANNEL_PAYG_CREDIT_INTERVAL_BETWEEN_PAYG_CREDIT_POST_SECONDS
  else
    cur ← pc_gets remaining;
    err ← nx_channel_do_post_request_secured cur;
    if bool_decide (err ≠ NX_CHANNEL_ERROR_NONE)
    then mret NEXUS_CHANNEL_PAYG_CREDIT_INTERVAL_BETWEEN_PAYG_CREDIT_POST_SECONDS
    else
      first ← pc_gets cycle_first_nexus_id;
      when (nx_id_eqb first NEXUS_CHANNEL_PAYG_CREDIT_SENTINEL_NULL_NEXUS_ID)
        (pc_modify (λ t, {| t with cycle_first_nexus_id := next_id |});;
         pc_modify (λ t, {| t with seconds_since_last_cycle_start := 0 |}));;
      mret NEXUS_CHANNEL_PAYG_CREDIT_INTERVAL_BETWEEN_PAYG_CREDIT_POST_SECONDS.

(** The turn of a device: it waits for the start of the cycle, if the device is
    the first of it, and for the time between two POSTs. *)
Definition payg_turn (next_id : nx_id) (seconds_elapsed : Z) : M (pc_world P) Z :=
  pc_modify (λ t, {| t with seconds_since_last_post := u32 (seconds_since_last_post t + seconds_elapsed) |});;
  pc_modify (λ t, {| t with seconds_since_last_cycle_start := u32 (seconds_since_last_cycle_start t + seconds_elapsed) |});;
  first ← pc_gets cycle_first_nexus_id;
  cycle ← pc_gets seconds_since_last_cycle_start;
  if nx_id_eqb first next_id && (cycle <? NEXUS_CHANNEL_PAYG_CREDIT_POST_UPDATE_CYCLE_TIME_SECONDS)
  then mret (NEXUS_CHANNEL_PAYG_CREDIT_POST_UPDATE_CYCLE_TIME_SECONDS - cycle)
  else
    when (nx_id_eqb first next_id) (pc_modify (λ t, {| t with seconds_since_last_cycle_start := 0 |}));;
    since ← pc_gets seconds_since_last_post;
    if since <? NEXUS_CHANNEL_PAYG_CREDIT_INTERVAL_BETWEEN_PAYG_CREDIT_POST_SECONDS
    then mret (NEXUS_CHANNEL_PAYG_CREDIT_INTERVAL_BETWEEN_PAYG_CREDIT_POST_SECONDS - since)
    else payg_send_credit next_id.

(** What a controller does. *)
Definition payg_process_leader (payg_state : nxp_common_payg_state) (seconds_elapsed min_sleep : Z) : M (pc_world P) Z :=
  num_links ← pc_link nexus_channel_link_manager_accessory_link_count;
  last_state ← pc_gets last_payg_state;
  when (bool_decide (payg_state ≠ last_state)) payg_reset_counters;;
  pc_modify (λ t, {| t with last_payg_state := payg_state |});;
  if num_links =? 0 then mret min_sleep
  else
    payg_check_stored_ids;;
    last ← pc_gets last_updated_nexus_id;
    next ← pc_link (nexus_channel_link_manager_next_linked_accessory
      (if nx_id_eqb last NEXUS_CHANNEL_PAYG_CREDIT_SENTINEL_NULL_NEXUS_ID then None else Some last));
    next_id ← lift next;
    payg_turn next_id seconds_elapsed.

Definition nexus_channel_res_payg_credit_process (seconds_elapsed : Z) : M (pc_world P) Z :=
  payg_state ← pc_on_prod (gets nxp_common_payg_state_get_current);
  latest_credit ← _nexus_channel_res_payg_credit_get_latest payg_state;
  pc_modify (λ t, {| t with remaining := latest_credit |});;
  current_operating_mode ← _nexus_channel_res_payg_credit_get_credit_operating_mode;
  min_sleep ←
    (if NEXUS_CHANNEL_SUPPORT_ACCESSORY_MODE
     then payg_process_follower current_operating_mode seconds_elapsed NEXUS_COMMON_IDLE_TIME_BETWEEN_PROCESS_CALL_SECONDS
     else mret NEXUS_COMMON_IDLE_TIME_BETWEEN_PROCESS_CALL_SECONDS);
  pc_modify (λ t, {| t with mode := current_operating_mode |});;
  if NEXUS_CHANNEL_SUPPORT_CONTROLLER_MODE
  then payg_process_leader payg_state seconds_elapsed min_sleep
  else mret min_sleep.

(** ** The resource *)

Inductive oc_interface_mask_t := OC_IF_BASELINE | OC_IF_RW | OC_IF_OTHER.

(** What a GET sends besides the baseline properties, which are the stack's:
    "mo", "re", "un", "di". *)
Record payg_representation := mk_payg_representation { rep_mo : Z; rep_re : Z; rep_un : Z; rep_di : list (list Z) }.

(** The loop over the linked accessories from the second turn on; the bound is
    one more than there are links. *)
Fixpoint payg_di_loop (n : nat) (first_id prev_id : nx_id) (m : link_manager) : option (list (list Z)) :=
  match n with
  | O => None
  | S n =>
    next ← nexus_channel_link_manager_next_linked_accessory (Some prev_id) m;
    match next with
    | None => Some []
    | Some next_id =>
      if nx_id_eqb first_id next_id then Some []
      else rest ← payg_di_loop n first_id next_id m; Some (link_transmit next_id :: rest)
    end
  end.

Definition payg_di (m : link_manager) : option (list (list Z)) :=
  first ← nexus_channel_link_manager_next_linked_accessory None m;
  match first with
  | None => Some []
  | Some first_id => rest ← payg_di_loop (S max_links) first_id first_id m; Some (link_transmit first_id :: rest)
  end.

(** [None] is an empty object. *)
Definition nexus_channel_res_payg_credit_get_handler (interfaces : oc_interface_mask_t) : M (pc_world P) (option payg_representation) :=
  payg_state ← pc_on_prod (gets nxp_common_payg_state_get_current);
  latest ← _nexus_channel_res_payg_credit_get_latest payg_state;
  pc_modify (λ t, {| t with remaining := latest |});;
  m ← _nexus_channel_res_payg_credit_get_credit_operating_mode;
  pc_modify (λ t, {| t with mode := m |});;
  match interfaces with
  | OC_IF_BASELINE | OC_IF_RW =>
    di ← (if NEXUS_CHANNEL_SUPPORT_CONTROLLER_MODE && bool_decide (m = NEXUS_CHANNEL_PAYG_CREDIT_OPERATING_MODE_LEADING)
          then pc_link payg_di else mret []);
    mret (Some (mk_payg_representation (payg_mode_code m) latest NEXUS_CHANNEL_PAYG_CREDIT_UNITS_SECONDS di))
  | OC_IF_OTHER => mret None
  end.

(** The status, and for 2.04 the properties "re" and "un". *)
Definition nexus_channel_res_payg_credit_post_handler (request_payload : list oc_rep_t) : M (pc_world P) (oc_status_t * option (Z * Z)) :=
  let '(error_state, new_remaining) := _nexus_channel_payg_credit_evaluate_payload_extract_credit request_payload in
  if negb error_state then
    _nexus_channel_payg_credit_update_from_post_or_get new_remaining;;
    cur ← pc_gets remaining;
    mret (OC_STATUS_CHANGED, Some (cur, NEXUS_CHANNEL_PAYG_CREDIT_UNITS_SECONDS))
  else mret (OC_STATUS_BAD_REQUEST, None).
End Payg.
