(* ===== verification/ChannelPaygRing.v ===== *)
(** * The linked accessories as a ring

    [accessories m] are the devices linked as accessories, in the order of the
    slots.  The link manager's search for the next accessory goes around this
    list. *)


From S2P Require Import Prelude Crc Check NvBlock Product DesktopProduct Nv Channel ChannelLm ChannelLmSpec ChannelLmTable ChannelHs.
From S2P Require Import ChannelPayg.
Local Open Scope Z_scope.

(** ** Lists *)

Lemma split_unique {A} (l1 l2 l1' l2' : list A) x :
  NoDup (l1 ++ x :: l2) → l1 ++ x :: l2 = l1' ++ x :: l2' → l1 = l1' ∧ l2 = l2'.
Proof.
  revert l1'. induction l1 as [|y l1 IH]; intros [|y' l1'] Hn Heq; cbn in *.
  - by injection Heq.
  - injection Heq as <- ->. exfalso. apply NoDup_cons in Hn as [Hn _]. apply Hn. apply elem_of_app. right. by left.
  - injection Heq as -> Heq. exfalso. apply NoDup_cons in Hn as [Hn _]. apply Hn. apply elem_of_app. right. by left.
  - injection Heq as <- Heq. apply NoDup_cons in Hn as [_ Hn]. destruct (IH l1' Hn Heq) as [-> ->]. done.
Qed.

(** The numbers that pass a test. *)
Definition tested (f : nat → bool) (ks : list nat) : list nat := filter (λ k, f k = true) ks.

Lemma tested_app f ks1 ks2 : tested f (ks1 ++ ks2) = tested f ks1 ++ tested f ks2.
Proof. apply filter_app. Qed.

Lemma tested_none f i n : (∀ j, (i ≤ j < i + n)%nat → f j = false) → tested f (seq i n) = [].
Proof.
  intros Hf. unfold tested. apply elem_of_nil_inv. intros k Hk. apply list_elem_of_filter in Hk as [Hk Hin].
  apply elem_of_seq in Hin. by rewrite Hf in Hk.
Qed.

Lemma tested_first f i n k :
  (i ≤ k < i + n)%nat → f k = true → (∀ j, (i ≤ j < k)%nat → f j = false) →
  tested f (seq i n) = k :: tested f (seq (S k) (i + n - S k)).
Proof.
  intros Hk Hfk Hf. replace n with ((k - i) + S (i + n - S k))%nat at 1 by lia.
  rewrite seq_app, tested_app, tested_none by (intros; apply Hf; lia). cbn [app]. replace (i + (k - i))%nat with k by lia.
  cbn [seq]. unfold tested at 1. by rewrite filter_cons_True.
Qed.

Lemma tested_at f n k : (k < n)%nat → f k = true → tested f (seq 0 n) = tested f (seq 0 k) ++ k :: tested f (seq (S k) (n - S k)).
Proof.
  intros Hk Hfk. replace n with (k + S (n - S k))%nat at 1 by lia. rewrite seq_app, tested_app. cbn [seq Nat.add].
  f_equal. unfold tested at 1. by rewrite filter_cons_True.
Qed.

Lemma around_table p n : (p < n)%nat → (λ j, (j mod n)%nat) <$> seq (S p) (n - 1) = seq (S p) (n - S p) ++ seq 0 p.
Proof.
  intros Hp. replace (n - 1)%nat with ((n - S p) + p)%nat by lia. rewrite seq_app, fmap_app. f_equal.
  - transitivity (id <$> seq (S p) (n - S p)); [|by rewrite list_fmap_id]. apply list_fmap_ext. intros i j Hj.
    apply lookup_seq in Hj as [-> Hj]. cbn. apply Nat.mod_small. lia.
  - replace (seq (S p + (n - S p)) p) with (Nat.add n <$> seq 0 p) by (rewrite fmap_add_seq; f_equal; lia). rewrite <- list_fmap_compose.
    transitivity (id <$> seq 0 p); [|by rewrite list_fmap_id]. apply list_fmap_ext. intros i j Hj.
    apply lookup_seq in Hj as [-> Hj]. unfold compose, id. replace (n + (0 + i))%nat with (i + 1 * n)%nat by lia.
    rewrite Nat.Div0.mod_add. apply Nat.mod_small. lia.
Qed.

Section Ring.
Context {P : Type} `{HP : ProductLaws P} `{!ReliableNv P} `{!ChannelProduct P} `{!ChannelProductLaws P}
  `{HC : ChannelConfigOk}.

(** Whether a slot holds a link to an accessory, and to which. *)
Definition accessory_at (m : link_manager) (k : nat) : bool :=
  match slot m k with Some l => negb (operating_mode l =? 0) | None => false end.
Definition id_at (m : link_manager) (k : nat) : nx_id := from_option linked_device_id (mk_nx_id 0 0) (slot m k).
Definition accessories (m : link_manager) : list nx_id := id_at m <$> tested (accessory_at m) (seq 0 max_links).

(** The links of a unit: made as a controller or an accessory, to devices with
    IDs. *)
Record roles_ok (m : link_manager) : Prop := mk_roles_ok {
  role_of k l : (k < max_links)%nat → slot m k = Some l → operating_mode l = 0 ∨ operating_mode l = 1;
  role_id k l : (k < max_links)%nat → slot m k = Some l → linked_device_id l ≠ NEXUS_CHANNEL_PAYG_CREDIT_SENTINEL_NULL_NEXUS_ID
}.

Abbreviation not_led := (λ l, negb (operating_mode l =? operating_mode_code CHANNEL_LINK_OPERATING_MODE_ACCESSORY)).

(** The first accessory. *)
Lemma find_accessory m :
  lm_shape m →
  ∃ index, find_link max_links 0 not_led m = Some index ∧
    match index with
    | Some i => ∃ k l, i = Z.of_nat k ∧ (k < max_links)%nat ∧ slot m k = Some l ∧ accessory_at m k = true ∧ links m !! k = Some l ∧
        accessories m = linked_device_id l :: (id_at m <$> tested (accessory_at m) (seq (S k) (max_links - S k)))
    | None => accessories m = []
    end.
Proof.
  intros Hs. destruct (find_link_spec max_links 0 not_led m Hs ltac:(lia)) as [(k & l & Hk & Hsl & Ht & Hf & Hmin)|[Hf Hno]].
  - exists (Some (Z.of_nat k)). split; [done|]. exists k, l. cbn in Ht.
    assert (Hat : accessory_at m k = true) by (unfold accessory_at; by rewrite Hsl).
    split_and!; [done|lia|done|done| |].
    + destruct (slot_free_or_link m k Hs ltac:(lia)) as [[_ Hn]|(l' & _ & Hl' & Hsl' & _)]; [congruence|]. congruence.
    + unfold accessories. rewrite (tested_first _ 0 max_links k) by
        (lia || done || (intros j Hj; unfold accessory_at; destruct (slot m j) eqn:Hj'; [by apply (Hmin j)|done])).
      cbn [fmap list_fmap]. f_equal. unfold id_at. by rewrite Hsl.
  - exists None. split; [done|]. unfold accessories. rewrite tested_none; [done|].
    intros j Hj. unfold accessory_at. destruct (slot m j) eqn:Hj'; [|done]. apply (Hno j); [lia|done].
Qed.

(** Counting them. *)
Lemma accessory_count_loop_spec n i m c :
  lm_shape m → roles_ok m → (i + n = max_links)%nat → 0 ≤ c → c + Z.of_nat n < 256 →
  accessory_count_loop n (Z.of_nat i) m c = Some (c + Z.of_nat (length (tested (accessory_at m) (seq i n)))).
Proof.
  intros Hs Hr. revert i c. induction n as [|n IH]; intros i c Hn Hc Hb; cbn [accessory_count_loop seq]; [f_equal; cbn; lia|].
  assert (Hi : (i < max_links)%nat) by lia. replace (Z.of_nat i + 1) with (Z.of_nat (S i)) by lia. unfold tested.
  destruct (slot_free_or_link m i Hs Hi) as [[Hu Hsl]|(l & Hu & Hl & Hsl & _)]; rewrite !aget_lookup, Nat2Z.id, Hu by lia;
    cbn [mbind option_bind negb].
  - rewrite filter_cons_False by (unfold accessory_at; by rewrite Hsl). apply IH; lia.
  - rewrite Hl. cbn [mbind option_bind]. change (operating_mode_code CHANNEL_LINK_OPERATING_MODE_CONTROLLER) with 1.
    destruct (role_of _ Hr i l Hi Hsl) as [Hm0|Hm1].
    + rewrite filter_cons_False by (unfold accessory_at; by rewrite Hsl, Hm0). rewrite Hm0. cbn [Z.eqb]. apply IH; lia.
    + rewrite filter_cons_True by (unfold accessory_at; by rewrite Hsl, Hm1). rewrite Hm1, Z.eqb_refl. cbn [length].
      rewrite u8_small by (unfold is_u8; lia). rewrite IH by lia. unfold tested. f_equal. lia.
Qed.

Lemma accessory_count_spec m :
  lm_shape m → roles_ok m → nexus_channel_link_manager_accessory_link_count m = Some (Z.of_nat (length (accessories m))).
Proof.
  intros Hs Hr. pose proof max_links_range. unfold nexus_channel_link_manager_accessory_link_count.
  rewrite (accessory_count_loop_spec max_links 0) by (done || lia). unfold accessories. by rewrite length_fmap.
Qed.

(** The search around the table. *)
Lemma next_loop_spec n i m :
  lm_shape m → (i + n ≤ 2 * max_links)%nat →
  next_accessory_loop n (Z.of_nat i) m =
    Some (head (id_at m <$> tested (accessory_at m) ((λ j, (j mod max_links)%nat) <$> seq i n))).
Proof.
  intros Hs. pose proof max_links_range as Hmax. revert i. induction n as [|n IH]; intros i Hn; cbn [next_accessory_loop seq]; [done|].
  rewrite u8_small by (unfold is_u8; lia). replace (Z.of_nat i + 1) with (Z.of_nat (S i)) by lia. cbn [fmap list_fmap].
  assert (Hi : (i mod max_links < max_links)%nat) by (apply Nat.mod_upper_bound; lia).
  assert (Hz : Z.of_nat i mod NEXUS_CHANNEL_MAX_SIMULTANEOUS_LINKS = Z.of_nat (i mod max_links)).
  { rewrite Nat2Z.inj_mod. f_equal. unfold max_links. pose proof max_links_ok. lia. }
  rewrite Hz. unfold tested. set (k := (i mod max_links)%nat) in *.
  destruct (slot_free_or_link m k Hs Hi) as [[Hu Hsl]|(l & Hu & Hl & Hsl & _)]; rewrite !aget_lookup, Nat2Z.id, Hu by lia; cbn [mbind option_bind].
  - pose proof (shape_links _ Hs). destruct (lookup_lt_is_Some_2 (links m) k) as [l Hl]; [lia|]. rewrite Hl. cbn [mbind option_bind negb orb].
    rewrite filter_cons_False by (unfold accessory_at; by rewrite Hsl). apply IH. lia.
  - rewrite Hl. cbn [mbind option_bind negb orb]. change (operating_mode_code CHANNEL_LINK_OPERATING_MODE_ACCESSORY) with 0.
    destruct (Z.eqb_spec (operating_mode l) 0) as [Hm0|Hm0].
    + rewrite filter_cons_False by (unfold accessory_at; by rewrite Hsl, Hm0). apply IH. lia.
    + rewrite filter_cons_True by (unfold accessory_at; rewrite Hsl; by rewrite (proj2 (Z.eqb_neq _ _) Hm0)).
      cbn [fmap list_fmap head]. unfold id_at. by rewrite Hsl.
Qed.

Lemma ring_nodup m sv : table_ok (slot m) sv → NoDup (accessories m).
Proof.
  intros Ht. unfold accessories. apply NoDup_fmap_2_strong; [|apply NoDup_filter, NoDup_seq].
  intros j k Hj Hk Heq. apply list_elem_of_filter in Hj as [Hj Hjs]. apply list_elem_of_filter in Hk as [Hk Hks].
  apply elem_of_seq in Hjs. apply elem_of_seq in Hks. unfold accessory_at, id_at in *.
  destruct (slot m j) as [lj|] eqn:Hlj; [|done]. destruct (slot m k) as [lk|] eqn:Hlk; [|done]. cbn in Heq.
  eapply (table_distinct _ _ Ht j k lj lk); lia || done.
Qed.

(** The next accessory: the one after it in the list, around the end; a single
    one comes after itself. *)
Lemma next_accessory_none m :
  lm_shape m → roles_ok m →
  nexus_channel_link_manager_next_linked_accessory None m = Some (head (accessories m)).
Proof.
  intros Hs Hr. unfold nexus_channel_link_manager_next_linked_accessory. rewrite accessory_count_spec by done. cbn [mbind option_bind].
  destruct (find_accessory m Hs) as (index & -> & Hx). cbn [mbind option_bind]. destruct index as [i|]; [|by rewrite Hx].
  destruct Hx as (k & l & -> & _ & _ & _ & Hl & ->). by rewrite aget_lookup, Nat2Z.id, Hl by lia.
Qed.

Lemma next_accessory_some m sv xs id ys :
  lm_shape m → table_ok (slot m) sv → roles_ok m → accessories m = xs ++ id :: ys →
  nexus_channel_link_manager_next_linked_accessory (Some id) m = Some (head (ys ++ xs ++ [id])).
Proof.
  intros Hs Ht Hr Hacc. unfold nexus_channel_link_manager_next_linked_accessory. rewrite accessory_count_spec by done.
  cbn [mbind option_bind]. pose proof Hacc as Hacc'. unfold accessories in Hacc'.
  destruct (fmap_app_inv _ _ _ _ Hacc') as (ks1 & ks2 & -> & Hks & Hsplit).
  destruct ks2 as [|p ks2]; [done|]. cbn [fmap list_fmap] in Hks. injection Hks as Hid ->.
  assert (Hp : p ∈ tested (accessory_at m) (seq 0 max_links)) by (rewrite Hsplit; apply elem_of_app; right; by left).
  apply list_elem_of_filter in Hp as [Hat Hp]. apply elem_of_seq in Hp. pose proof Hsplit as Hsp.
  rewrite (tested_at _ max_links p) in Hsp by (done || lia).
  assert (Hnd : NoDup (tested (accessory_at m) (seq 0 max_links))) by apply NoDup_filter, NoDup_seq.
  rewrite (tested_at _ max_links p) in Hnd by (done || lia). destruct (split_unique _ _ _ _ _ Hnd Hsp) as [<- <-].
  assert (Hlen : length (accessories m) = S (length (id_at m <$> tested (accessory_at m) (seq (S p) (max_links - S p))) +
      length (id_at m <$> tested (accessory_at m) (seq 0 p)))) by (rewrite Hacc, length_app; cbn [length]; lia).
  destruct (Z.eqb_spec (Z.of_nat (length (accessories m))) 1) as [Hone|Hone].
  - destruct (find_accessory m Hs) as (index & -> & Hx). cbn [mbind option_bind].
    destruct (nil_or_length_pos (id_at m <$> tested (accessory_at m) (seq 0 p))) as [Hxs|]; [|lia].
    destruct (nil_or_length_pos (id_at m <$> tested (accessory_at m) (seq (S p) (max_links - S p)))) as [Hys|]; [|lia].
    rewrite Hxs, Hys in Hacc |- *. cbn [app head] in Hacc |- *. destruct index as [i|]; [|congruence].
    destruct Hx as (k & l & -> & _ & _ & _ & Hl & Hcons). rewrite aget_lookup, Nat2Z.id, Hl by lia. cbn [mbind option_bind]. congruence.
  - destruct (slot m p) as [l|] eqn:Hsl; [|unfold accessory_at in Hat; by rewrite Hsl in Hat].
    assert (Hlid : linked_device_id l = id) by (unfold id_at in Hid; by rewrite Hsl in Hid).
    destruct (link_index_spec id m Hs) as [(k & l' & Hk & Hsl' & Hid' & ->)|[_ Hab]]; [|exfalso; apply (Hab p l); [lia|done|done]].
    assert (k = p) as -> by (eapply (table_distinct _ _ Ht k p l' l); lia || congruence).
    cbn [mbind option_bind]. replace (Z.of_nat p + 1) with (Z.of_nat (S p)) by lia.
    rewrite next_loop_spec by (done || lia). rewrite around_table, tested_app, fmap_app by lia. f_equal.
    rewrite (app_assoc _ _ [id]). set (zs := (id_at m <$> tested (accessory_at m) (seq (S p) (max_links - S p))) ++ (id_at m <$> tested (accessory_at m) (seq 0 p))).
    destruct zs as [|x zs'] eqn:Hz; [|done]. unfold zs in Hz. apply (f_equal length) in Hz. rewrite length_app in Hz. cbn [length] in Hz. lia.
Qed.

(** After a device that is linked otherwise, there is an accessory too. *)
Definition linked (m : link_manager) (id : nx_id) : Prop := ∃ k l, (k < max_links)%nat ∧ slot m k = Some l ∧ linked_device_id l = id.

Lemma next_accessory_linked m sv id :
  lm_shape m → table_ok (slot m) sv → roles_ok m → linked m id → accessories m ≠ [] →
  ∃ x, x ∈ accessories m ∧ nexus_channel_link_manager_next_linked_accessory (Some id) m = Some (Some x).
Proof.
  intros Hs Ht Hr (p & l & Hp & Hsl & Hid) Hne. destruct (decide (id ∈ accessories m)) as [Hin|Hnin].
  - apply list_elem_of_split in Hin as (xs & ys & Hacc). rewrite (next_accessory_some m sv xs id ys) by done. rewrite Hacc.
    destruct ys as [|y ys]; [|exists y; split; [apply elem_of_app; right; right; by left|done]].
    destruct xs as [|x xs]; [exists id; split; [by left|done]|]. exists x. split; [by left|done].
  - assert (Hat : accessory_at m p = false).
    { destruct (accessory_at m p) eqn:Hat; [|done]. exfalso. apply Hnin. unfold accessories. apply list_elem_of_fmap. exists p.
      split; [unfold id_at; by rewrite Hsl|]. apply list_elem_of_filter. split; [done|]. apply elem_of_seq. lia. }
    unfold nexus_channel_link_manager_next_linked_accessory. rewrite accessory_count_spec by done. cbn [mbind option_bind].
    destruct (_ =? 1).
    + destruct (find_accessory m Hs) as (index & -> & Hx). cbn [mbind option_bind]. destruct index as [i|]; [|done].
      destruct Hx as (k & l' & -> & _ & _ & _ & Hl & Hacc). rewrite aget_lookup, Nat2Z.id, Hl by lia. cbn [mbind option_bind].
      eexists. split; [|done]. rewrite Hacc. by left.
    + destruct (link_index_spec id m Hs) as [(k & l' & Hk & Hsl' & Hid' & ->)|[_ Hab]]; [|exfalso; apply (Hab p l); done].
      assert (k = p) as -> by (eapply (table_distinct _ _ Ht k p l' l); lia || congruence).
      cbn [mbind option_bind]. replace (Z.of_nat p + 1) with (Z.of_nat (S p)) by lia.
      rewrite next_loop_spec by (done || lia). rewrite around_table, tested_app, fmap_app by lia.
      assert (Hacc : accessories m = (id_at m <$> tested (accessory_at m) (seq 0 p)) ++
        (id_at m <$> tested (accessory_at m) (seq (S p) (max_links - S p)))).
      { unfold accessories. rewrite <- fmap_app. f_equal. replace max_links with (p + S (max_links - S p))%nat at 1 by lia.
        rewrite seq_app, tested_app. cbn [seq Nat.add]. f_equal. unfold tested at 1. rewrite filter_cons_False by (by rewrite Hat). done. }
      rewrite Hacc in Hne |- *. destruct (id_at m <$> tested (accessory_at m) (seq (S p) (max_links - S p))) as [|y ys].
      * rewrite app_nil_r in Hne |- *. cbn [app]. destruct (id_at m <$> _) as [|x xs]; [done|]. exists x. split; [by left|done].
      * exists y. split; [apply elem_of_app; right; by left|done].
Qed.

(** The devices the GET handler lists. *)
Lemma di_loop_spec m sv first zs xs prev ys n :
  lm_shape m → table_ok (slot m) sv → roles_ok m → accessories m = first :: zs → accessories m = xs ++ prev :: ys → (length ys < n)%nat →
  payg_di_loop n first prev m = Some (link_transmit <$> ys).
Proof.
  intros Hs Ht Hr Hf. pose proof (ring_nodup m sv Ht) as Hnd. revert xs prev ys. induction n as [|n IH]; intros xs prev ys Hacc Hn; [lia|].
  cbn [payg_di_loop]. rewrite (next_accessory_some m sv xs prev ys) by done. cbn [mbind option_bind].
  destruct ys as [|y ys]; cbn [app head].
  - assert (Hh : head (xs ++ [prev]) = Some first) by (by rewrite <- Hacc, Hf). rewrite Hh. cbn [mbind option_bind].
    by rewrite (proj2 (nx_id_eqb_spec first first) eq_refl).
  - assert (Hne : nx_id_eqb first y = false).
    { apply not_true_is_false. rewrite nx_id_eqb_spec. intros ->. rewrite Hacc in Hf, Hnd.
      apply NoDup_app in Hnd as (_ & Hxs & Hnd). apply NoDup_cons in Hnd as [Hp _].
      destruct xs as [|x xs]; cbn in Hf; injection Hf as ->; [apply Hp; by left|]. apply (Hxs y); [by left|right; by left]. }
    rewrite Hne. rewrite (IH (xs ++ [prev]) y ys); [done| |cbn in Hn; lia]. by rewrite <- app_assoc.
Qed.

Lemma payg_di_spec m sv :
  lm_shape m → table_ok (slot m) sv → roles_ok m → payg_di m = Some (link_transmit <$> accessories m).
Proof.
  intros Hs Ht Hr. unfold payg_di. rewrite next_accessory_none by done. cbn [mbind option_bind].
  destruct (accessories m) as [|first zs] eqn:Hacc; [done|]. cbn [head].
  rewrite (di_loop_spec m sv first zs [] first zs); [done..|].
  assert (Hlen : (length (accessories m) ≤ max_links)%nat).
  { unfold accessories. rewrite length_fmap. unfold tested. etransitivity; [apply length_filter|]. by rewrite length_seq. }
  rewrite Hacc in Hlen. cbn in Hlen. lia.
Qed.
End Ring.
