(* ===== verification/ChannelPaygSpec.v ===== *)
(** * The PAYG credit resource: every step by its effect

    The table of links never changes here, so a world is [pcw t g h m p]: the
    resource, the two flags of the wrapper, the table and the product. *)



From S2P Require Import Prelude Crc Check NvBlock Product DesktopProduct Nv Channel ChannelEndpoint ChannelLm ChannelLmSpec ChannelLmTable.
From S2P Require Import ChannelHs ChannelHsServer ChannelHsClient ChannelPayg ChannelPaygRing.
Local Open Scope Z_scope.

Abbreviation pcw t g h m p := (mk_pc_world t g h (mk_lm_world m p)).

Abbreviation FOLLOWING := NEXUS_CHANNEL_PAYG_CREDIT_OPERATING_MODE_FOLLOWING.
Abbreviation INDEPENDENT := NEXUS_CHANNEL_PAYG_CREDIT_OPERATING_MODE_INDEPENDENT.

(** What the headers say of the product's credit over the channel, as of the
    keycode's; the requests to other devices are the stack's affair. *)
Class CreditProductLaws (P : Type) `{Product P} `{!ChannelProduct P} `{!CreditProduct P} := {
  credit_remaining_range (p : P) : is_u32 (nxp_common_payg_credit_get_remaining p);
  channel_set_remaining c (p : P) : is_u32 c → nxp_common_payg_credit_get_remaining (nxp_channel_payg_credit_set c p) = c;
  channel_set_state c (p : P) :
    is_u32 c →
    nxp_common_payg_state_get_current (nxp_channel_payg_credit_set c p) =
    if c =? 0 then NXP_COMMON_PAYG_STATE_DISABLED else NXP_COMMON_PAYG_STATE_ENABLED;
  channel_unlock_state (p : P) :
    nxp_common_payg_state_get_current (nxp_channel_payg_credit_unlock p) = NXP_COMMON_PAYG_STATE_UNLOCKED;
  channel_set_frame c (p : P) : nv_equiv (nxp_channel_payg_credit_set c p) p;
  channel_unlock_frame (p : P) : nv_equiv (nxp_channel_payg_credit_unlock p) p
}.

Class CreditStackLaws (P : Type) `{Product P} `{!ChannelProduct P} `{!CreditStack P} := {
  credit_init_unnoticed ep (p : P) : unnoticed p (oc_init_post_credit ep p).2;
  credit_post_unnoticed c (p : P) : unnoticed p (oc_do_post_credit c p).2;
  credit_get_unnoticed ep (p : P) : unnoticed p (oc_do_get_credit ep p).2
}.

Section PaygSpec.
Context {P : Type} `{HP : ProductLaws P} `{!ReliableNv P} `{!ChannelProduct P} `{!ChannelProductLaws P}
  `{HC : ChannelConfigOk} `{!CreditProduct P} `{!CreditProductLaws P} `{!CreditStack P} `{!CreditStackLaws P}.

Lemma pc_link_at {A} (f : link_manager → option A) t g h m (p : P) x : f m = Some x → pc_link f (pcw t g h m p) = Some (x, pcw t g h m p).
Proof. intros Hf. unfold pc_link. cbn [pc_lm lm_this]. by rewrite Hf. Qed.

Lemma pc_modify_bind {A} f (k : () → M (pc_world P) A) t g h m (p : P) : (pc_modify f ≫= k) (pcw t g h m p) = k tt (pcw (f t) g h m p).
Proof. done. Qed.

Lemma pc_gets_bind {A B} (f : payg_credit → B) (k : B → M (pc_world P) A) t g h m (p : P) :
  (pc_gets f ≫= k) (pcw t g h m p) = k (f t) (pcw t g h m p).
Proof. done. Qed.

(** ** Credit and mode *)

(** The credit of a unit as the resource shows it. *)
Definition credit_of (p : P) : Z :=
  if bool_decide (nxp_common_payg_state_get_current p = NXP_COMMON_PAYG_STATE_UNLOCKED)
  then UINT32_MAX else nxp_common_payg_credit_get_remaining p.

Lemma credit_range p : is_u32 (credit_of p).
Proof. unfold credit_of. case_bool_decide; [unfold is_u32, UINT32_MAX; lia|apply credit_remaining_range]. Qed.

Lemma credit_unnoticed p p' : unnoticed p p' → credit_of p' = credit_of p.
Proof. intros [_ [Hs Hr] _]. unfold credit_of. by rewrite Hs, Hr. Qed.

Lemma credit_set c p : is_u32 c → credit_of (nxp_channel_payg_credit_set c p) = c.
Proof.
  intros Hc. unfold credit_of. rewrite channel_set_state, channel_set_remaining by done.
  by destruct (c =? 0); rewrite bool_decide_false.
Qed.

Lemma credit_unlock p : credit_of (nxp_channel_payg_credit_unlock p) = UINT32_MAX.
Proof. unfold credit_of. by rewrite channel_unlock_state, bool_decide_true. Qed.

(** Some other device is the controller of this one. *)
Definition led (m : link_manager) : Prop := ∃ k l, (k < max_links)%nat ∧ slot m k = Some l ∧ operating_mode l = 0.

Definition mode_is (m : link_manager) (md : nexus_channel_payg_credit_operating_mode) : Prop :=
  match md with
  | NEXUS_CHANNEL_PAYG_CREDIT_OPERATING_MODE_INDEPENDENT => accessories m = [] ∧ ¬ led m
  | NEXUS_CHANNEL_PAYG_CREDIT_OPERATING_MODE_LEADING => accessories m ≠ [] ∧ ¬ led m
  | NEXUS_CHANNEL_PAYG_CREDIT_OPERATING_MODE_FOLLOWING => accessories m = [] ∧ led m
  | NEXUS_CHANNEL_PAYG_CREDIT_OPERATING_MODE_RELAYING => accessories m ≠ [] ∧ led m
  end.

Lemma accessories_in m x :
  x ∈ accessories m ↔ ∃ k l, (k < max_links)%nat ∧ slot m k = Some l ∧ operating_mode l ≠ 0 ∧ linked_device_id l = x.
Proof.
  unfold accessories, tested. rewrite list_elem_of_fmap. split.
  - intros (k & -> & Hk). apply list_elem_of_filter in Hk as [Hat Hk]. apply elem_of_seq in Hk. unfold accessory_at, id_at in *.
    destruct (slot m k) as [l|] eqn:Hl; [|done]. exists k, l. split_and!; [lia|done| |done]. intros H0'. by rewrite H0' in Hat.
  - intros (k & l & Hk & Hl & Hop & <-). exists k. unfold id_at. rewrite Hl. split; [done|]. apply list_elem_of_filter.
    split; [|apply elem_of_seq; lia]. unfold accessory_at. rewrite Hl. by rewrite (proj2 (Z.eqb_neq _ _) Hop).
Qed.

Lemma role_query md m :
  lm_shape m →
  ∃ r, _nexus_channel_link_manager_has_link_with_role md m = Some r ∧
    (is_Some r ↔ ∃ k l, (k < max_links)%nat ∧ slot m k = Some l ∧ operating_mode l = operating_mode_code md) ∧
    ∀ x, r = Some x → ∃ k l, (k < max_links)%nat ∧ slot m k = Some l ∧ linked_device_id l = x.
Proof.
  intros Hs. unfold _nexus_channel_link_manager_has_link_with_role.
  destruct (find_link_spec max_links 0 (λ l, operating_mode l =? operating_mode_code md) m Hs ltac:(lia))
    as [(k & l & Hk & Hsl & Ht & Hf & _)|[Hf Hno]]; change (Z.of_nat 0) with 0 in Hf; rewrite Hf; cbn [mbind option_bind].
  - destruct (slot_free_or_link m k Hs ltac:(lia)) as [[_ Hn]|(l' & _ & Hl' & Hsl' & _)]; [congruence|].
    rewrite aget_lookup, Nat2Z.id, Hl' by lia. cbn [mbind option_bind]. assert (l' = l) as -> by congruence.
    eexists. split; [done|]. apply Z.eqb_eq in Ht. split.
    + split; [|by eexists]. intros _. exists k, l. split_and!; [lia|done|done].
    + intros x [= <-]. exists k, l. split_and!; [lia|done|done].
  - exists None. split; [done|]. split; [|done]. split; [by intros [? ?]|]. intros (k & l & Hk & Hsl & Hop).
    specialize (Hno k l ltac:(lia) Hsl). cbn in Hno. by rewrite Hop, Z.eqb_refl in Hno.
Qed.

(** The controller of this unit, if there is one. *)
Lemma controller_query m :
  lm_shape m → ∃ r, nexus_channel_link_manager_has_linked_controller m = Some r ∧ (is_Some r ↔ led m) ∧
    ∀ x, r = Some x → ∃ k l, (k < max_links)%nat ∧ slot m k = Some l ∧ linked_device_id l = x.
Proof. intros Hs. exact (role_query CHANNEL_LINK_OPERATING_MODE_ACCESSORY m Hs). Qed.

Lemma mode_query t g h m (p : P) :
  lm_shape m → roles_ok m →
  ∃ md, _nexus_channel_res_payg_credit_get_credit_operating_mode (pcw t g h m p) = Some (md, pcw t g h m p) ∧ mode_is m md.
Proof.
  intros Hs Hr. destruct (controller_query m Hs) as (r & Hrun & Hled & _).
  destruct (role_query CHANNEL_LINK_OPERATING_MODE_CONTROLLER m Hs) as (r2 & Hrun2 & Hacc & _).
  assert (Hne : is_Some r2 ↔ accessories m ≠ []).
  { rewrite Hacc. cbn [operating_mode_code]. split.
    - intros (k & l & Hk & Hl & Hop) Hnil. assert (Hin : linked_device_id l ∈ accessories m).
      { apply accessories_in. exists k, l. split_and!; [done|done|lia|done]. }
      rewrite Hnil in Hin. by apply elem_of_nil in Hin.
    - intros Hnn. destruct (accessories m) as [|x xs] eqn:Ha; [done|].
      destruct (proj1 (accessories_in m x)) as (k & l & Hk & Hl & Hop & _); [rewrite Ha; by left|].
      exists k, l. split_and!; [done|done|]. destruct (role_of _ Hr k l Hk Hl); [done|done]. }
  unfold _nexus_channel_res_payg_credit_get_credit_operating_mode. rewrite (bind_Some _ _ _ _ _ (pc_link_at _ _ _ _ _ _ _ Hrun)).
  erewrite bind_Some by (apply pc_link_at; unfold nexus_channel_link_manager_has_linked_accessory; by rewrite Hrun2).
  eexists. split; [reflexivity|]. destruct (decide (is_Some r2)) as [Ha|Ha], (decide (is_Some r)) as [Hl|Hl];
    rewrite ?(bool_decide_true _ Ha), ?(bool_decide_false _ Ha), ?(bool_decide_true _ Hl), ?(bool_decide_false _ Hl); cbn [andb mode_is];
    rewrite Hne in Ha; rewrite Hled in Hl; (split; [|done]); first [done|by apply dec_stable].
Qed.

Lemma latest_query t g h m (p : P) :
  _nexus_channel_res_payg_credit_get_latest (nxp_common_payg_state_get_current p) (pcw t g h m p) = Some (credit_of p, pcw t g h m p).
Proof. unfold _nexus_channel_res_payg_credit_get_latest, credit_of. by case_bool_decide. Qed.

(** ** Following *)

Definition erased (t : payg_credit) : payg_credit := {| t with remaining := 0 |}.
Definition followed (secs : Z) (t : payg_credit) : payg_credit := {| t with follower_mode_seconds_since_credit_updated := secs |}.

(** What time does to a unit that is not unlocked. *)
Definition follower_effect (md : nexus_channel_payg_credit_operating_mode) (dt : Z) (t : payg_credit) (p : P) : payg_credit * P :=
  let secs := u32 (follower_mode_seconds_since_credit_updated t + dt) in
  if remaining t =? UINT32_MAX then (t, p)
  else if bool_decide (md = FOLLOWING)
  then if 75 <=? secs then (followed 0 (erased t), nxp_channel_payg_credit_set 0 p) else (followed secs t, p)
  else if bool_decide (md = INDEPENDENT) && bool_decide (mode t = FOLLOWING) then (erased t, nxp_channel_payg_credit_set 0 p)
  else (t, p).

Lemma follower_spec md dt min t g h m (p : P) :
  ∃ s, payg_process_follower md dt min (pcw t g h m p) =
    Some (s, pcw (follower_effect md dt t p).1 g h m (follower_effect md dt t p).2).
Proof.
  unfold payg_process_follower, follower_effect, pc_gets, pc_modify, pc_on_prod, lm_on_prod. mstep. cbn [pc_this pc_lm lm_prod lm_this].
  change NXP_CHANNEL_PAYG_CREDIT_REMAINING_UNLOCKED_SENTINEL_VALUE with UINT32_MAX.
  destruct (remaining t =? UINT32_MAX); cbn [negb]; [by eexists|].
  destruct (bool_decide (md = FOLLOWING)).
  - change NEXUS_CHANNEL_PAYG_CREDIT_FOLLOWER_MAX_TIME_BETWEEN_UPDATES_SECONDS with 75.
    cbn [follower_mode_seconds_since_credit_updated]. by destruct (75 <=? _); eexists.
  - cbn [pc_this]. by destruct (bool_decide (md = INDEPENDENT) && bool_decide (mode t = FOLLOWING)); eexists.
Qed.

(** ** Sending *)

(** A POST with the credit [c] to a device. *)
Definition credit_sent (id : nx_id) (c : Z) (p p' : P) : Prop :=
  ∃ ep, nexus_oc_wrapper_nx_id_to_oc_endpoint id = Some ep ∧ (oc_init_post_credit ep p).1 = true ∧
    (oc_do_post_credit c (oc_init_post_credit ep p).2).1 = true ∧
    p' = nxp_common_request_processing (oc_do_post_credit c (oc_init_post_credit ep p).2).2.

Definition turned_to (id : nx_id) (t : payg_credit) : payg_credit :=
  let t := {| t with last_updated_nexus_id := id |} in {| t with seconds_since_last_post := 0 |}.
Definition cycle_begun (id : nx_id) (t : payg_credit) : payg_credit :=
  let t := {| t with cycle_first_nexus_id := id |} in {| t with seconds_since_last_cycle_start := 0 |}.

Definition request_error (b : bool) : nx_channel_error := if b then NX_CHANNEL_ERROR_NONE else NX_CHANNEL_ERROR_UNSPECIFIED.

Lemma request_failed b : bool_decide (request_error b ≠ NX_CHANNEL_ERROR_NONE) = negb b.
Proof. by destruct b. Qed.

Lemma init_post_at id ep t g h m (p : P) :
  nexus_oc_wrapper_nx_id_to_oc_endpoint id = Some ep →
  nx_channel_init_post_request id (pcw t g h m p) =
    Some (request_error (oc_init_post_credit ep p).1, pcw t g (oc_init_post_credit ep p).1 m (oc_init_post_credit ep p).2).
Proof.
  intros Hep. unfold nx_channel_init_post_request, pc_on_prod, lm_on_prod. mstep. rewrite Hep. mstep. cbn [pc_lm lm_prod lm_this].
  by destruct (oc_init_post_credit ep p) as [[] p1].
Qed.

Lemma do_post_at c t g m (p : P) :
  nx_channel_do_post_request_secured c (pcw t g true m p) =
    Some (request_error (oc_do_post_credit c p).1,
      pcw t g (oc_do_post_credit c p).1 m (nxp_common_request_processing (oc_do_post_credit c p).2)).
Proof.
  unfold nx_channel_do_post_request_secured, pc_on_prod, lm_on_prod, request_processing. mstep.
  cbn [_active_client_post_handler negb]. mstep. cbn [pc_lm lm_prod lm_this]. by destruct (oc_do_post_credit c p) as [[] p1].
Qed.

(** A POST to a device that is not sent. *)
Definition credit_unsent (id : nx_id) (c : Z) (p : P) : Prop :=
  ∃ ep, nexus_oc_wrapper_nx_id_to_oc_endpoint id = Some ep ∧
    ((oc_init_post_credit ep p).1 = false ∨ (oc_do_post_credit c (oc_init_post_credit ep p).2).1 = false).

Definition sent_state (id : nx_id) (t : payg_credit) : payg_credit :=
  if nx_id_eqb (cycle_first_nexus_id t) NEXUS_CHANNEL_PAYG_CREDIT_SENTINEL_NULL_NEXUS_ID
  then cycle_begun id (turned_to id t) else turned_to id t.

Lemma send_credit_spec id t g h m (p : P) :
  nx_id_ok id →
  ∃ h' p', unnoticed p p' ∧
    ((credit_sent id (remaining t) p p' ∧ payg_send_credit id (pcw t g h m p) = Some (2, pcw (sent_state id t) g h' m p')) ∨
     (credit_unsent id (remaining t) p ∧ payg_send_credit id (pcw t g h m p) = Some (2, pcw (turned_to id t) g h' m p'))).
Proof.
  intros Hid. destruct (nx_id_to_endpoint_spec id Hid) as (ep & Hep & _).
  pose proof (credit_init_unnoticed ep p) as Hu1. pose proof (credit_post_unnoticed (remaining t) (oc_init_post_credit ep p).2) as Hu2.
  pose proof (request_unnoticed (oc_do_post_credit (remaining t) (oc_init_post_credit ep p).2).2) as Hu3.
  unfold payg_send_credit. do 2 (erewrite bind_Some by reflexivity). cbn [pc_this].
  erewrite bind_Some by (by apply init_post_at). rewrite request_failed.
  destruct (oc_init_post_credit ep p).1 eqn:Hi; cbn [negb].
  2: { exists false, (oc_init_post_credit ep p).2. split; [done|]. right. split; [exists ep; auto|reflexivity]. }
  erewrite bind_Some by reflexivity. cbn [pc_this remaining]. erewrite bind_Some by apply do_post_at. rewrite request_failed.
  destruct (oc_do_post_credit (remaining t) (oc_init_post_credit ep p).2).1 eqn:Hd; cbn [negb].
  2: { eexists false, _. split; [etransitivity; [exact Hu1|]; etransitivity; [exact Hu2|exact Hu3]|]. right. split; [exists ep; auto|reflexivity]. }
  eexists true, _. split; [etransitivity; [exact Hu1|]; etransitivity; [exact Hu2|exact Hu3]|]. left.
  split; [by exists ep|]. unfold sent_state. erewrite bind_Some by reflexivity. cbn [pc_this cycle_first_nexus_id].
  by destruct (nx_id_eqb _ _).
Qed.

(** ** Leading *)

(** [lm_ok] as far as the table goes, and the roles. *)
Record pc_table (m : link_manager) (p : P) : Prop := mk_pc_table {
  pt_ok : lm_ok (mk_lm_world m p);
  pt_roles : roles_ok m
}.

Lemma pc_table_on m p p' : pc_table m p → nv_equiv p' p → pc_table m p'.
Proof.
  intros [Hok Hr] Hnv. split; [|done]. apply (lm_ok_on_that (mk_lm_world m p) p'); [done|]. intros j _. unfold saved. cbn. by rewrite Hnv.
Qed.

Lemma linked_query id m (p : P) :
  pc_table m p → ∃ r, nexus_channel_link_manager_link_from_nxid id m = Some r ∧ (is_Some r ↔ linked m id).
Proof.
  intros [(Hs & Ht & _) _]. destruct (link_from_nxid_spec id m _ Hs Ht) as [(l & -> & Hid & k & Hk & Hl)|[-> Hab]]; eexists; (split; [done|]).
  - split; [|by eexists]. intros _. by exists k, l.
  - split; [by intros [? ?]|]. intros (k & l & Hk & Hl & Hid). by destruct (Hab k l).
Qed.

Definition stored_linked (m : link_manager) (t : payg_credit) : Prop :=
  linked m (last_updated_nexus_id t) ∧ linked m (cycle_first_nexus_id t).

Definition counters_reset (t : payg_credit) : payg_credit :=
  let t := {| t with seconds_since_last_post := 2 |} in {| t with seconds_since_last_cycle_start := 25 |}.
Definition forgotten (t : payg_credit) : payg_credit :=
  let t := {| t with last_updated_nexus_id := NEXUS_CHANNEL_PAYG_CREDIT_SENTINEL_NULL_NEXUS_ID |} in
  counters_reset {| t with cycle_first_nexus_id := NEXUS_CHANNEL_PAYG_CREDIT_SENTINEL_NULL_NEXUS_ID |}.

Lemma check_stored_spec t g h m (p : P) :
  pc_table m p →
  ∃ t', payg_check_stored_ids (pcw t g h m p) = Some (tt, pcw t' g h m p) ∧
    (stored_linked m t ∧ t' = t ∨ ¬ stored_linked m t ∧ t' = forgotten t).
Proof.
  intros Ht. destruct (linked_query (last_updated_nexus_id t) m p Ht) as (r1 & Hr1 & Hl1).
  destruct (linked_query (cycle_first_nexus_id t) m p Ht) as (r2 & Hr2 & Hl2).
  assert (Hst : stored_linked m t ↔ is_Some r1 ∧ is_Some r2) by (unfold stored_linked; tauto).
  unfold payg_check_stored_ids. erewrite bind_Some by reflexivity. cbn [pc_this].
  erewrite bind_Some by (by apply pc_link_at). destruct (decide (is_Some r1)) as [H1|H1].
  - rewrite (bool_decide_true _ H1). cbn iota. rewrite bind_assoc. erewrite bind_Some by reflexivity. cbn [pc_this].
    rewrite bind_assoc. erewrite bind_Some by (by apply pc_link_at). erewrite bind_Some by reflexivity.
    destruct (decide (is_Some r2)) as [H2|H2].
    + rewrite (bool_decide_true _ H2). exists t. split; [reflexivity|]. left. split; [by apply Hst|done].
    + rewrite (bool_decide_false _ H2). exists (forgotten t). split; [reflexivity|]. right. split; [by intros []%Hst|done].
  - rewrite (bool_decide_false _ H1). erewrite bind_Some by reflexivity. exists (forgotten t). split; [reflexivity|]. right. split; [by intros []%Hst|done].
Qed.

(** The fields that are not the controller's. *)
Definition same_credit (t t' : payg_credit) : Prop :=
  remaining t' = remaining t ∧ mode t' = mode t ∧
  follower_mode_seconds_since_credit_updated t' = follower_mode_seconds_since_credit_updated t.

Definition waited (dt : Z) (t : payg_credit) : payg_credit :=
  let t := {| t with seconds_since_last_post := u32 (seconds_since_last_post t + dt) |} in
  {| t with seconds_since_last_cycle_start := u32 (seconds_since_last_cycle_start t + dt) |}.
(** With the counter of the cycle reset if [id] begins it. *)
Definition at_turn (id : nx_id) (t : payg_credit) : payg_credit :=
  if nx_id_eqb (cycle_first_nexus_id t) id then {| t with seconds_since_last_cycle_start := 0 |} else t.

(** A turn: the device waits for the cycle, or for the time between two POSTs,
    or is sent to. *)
Lemma turn_cases id dt t g h m (p : P) :
  (nx_id_eqb (cycle_first_nexus_id t) id = true ∧ seconds_since_last_cycle_start (waited dt t) < 25 ∧
     payg_turn id dt (pcw t g h m p) = Some (25 - seconds_since_last_cycle_start (waited dt t), pcw (waited dt t) g h m p)) ∨
  ((nx_id_eqb (cycle_first_nexus_id t) id = true → 25 ≤ seconds_since_last_cycle_start (waited dt t)) ∧
   (seconds_since_last_post (waited dt t) < 2 ∧
      payg_turn id dt (pcw t g h m p) = Some (2 - seconds_since_last_post (waited dt t), pcw (at_turn id (waited dt t)) g h m p) ∨
    2 ≤ seconds_since_last_post (waited dt t) ∧
      payg_turn id dt (pcw t g h m p) = payg_send_credit id (pcw (at_turn id (waited dt t)) g h m p))).
Proof.
  unfold payg_turn. rewrite !pc_modify_bind, !pc_gets_bind. fold (waited dt t). unfold at_turn.
  change (cycle_first_nexus_id (waited dt t)) with (cycle_first_nexus_id t).
  change NEXUS_CHANNEL_PAYG_CREDIT_POST_UPDATE_CYCLE_TIME_SECONDS with 25.
  change NEXUS_CHANNEL_PAYG_CREDIT_INTERVAL_BETWEEN_PAYG_CREDIT_POST_SECONDS with 2.
  destruct (nx_id_eqb (cycle_first_nexus_id t) id) eqn:Hid; cbn [andb].
  - destruct (Z.ltb_spec (seconds_since_last_cycle_start (waited dt t)) 25) as [Hc|Hc]; [by left|]. right. split; [done|]. cbn [when].
    rewrite pc_modify_bind, pc_gets_bind. cbn [seconds_since_last_post].
    destruct (Z.ltb_spec (seconds_since_last_post (waited dt t)) 2); [by left|by right].
  - right. split; [done|]. cbn [when]. erewrite bind_Some by reflexivity. rewrite pc_gets_bind.
    destruct (Z.ltb_spec (seconds_since_last_post (waited dt t)) 2); [by left|by right].
Qed.

Lemma turn_returns id dt t g h m (p : P) :
  nx_id_ok id →
  ∃ s t' h' p', payg_turn id dt (pcw t g h m p) = Some (s, pcw t' g h' m p') ∧ unnoticed p p' ∧ same_credit t t'.
Proof.
  intros Hid. assert (Hat : same_credit t (at_turn id (waited dt t))) by (unfold at_turn; by destruct (nx_id_eqb _ _)).
  destruct (turn_cases id dt t g h m p) as [(_ & _ & ->)|(_ & [[_ ->]|[_ ->]])].
  - by eexists _, _, h, p.
  - by eexists _, _, h, p.
  - destruct Hat as (Hr & Hm & Hf). destruct (send_credit_spec id (at_turn id (waited dt t)) g h m p Hid) as (h' & p' & Hu & Hrun).
    destruct Hrun as [[_ ->]|[_ ->]]; eexists _, _, h', p'; (split; [done|]); (split; [done|]); unfold same_credit, sent_state;
      [destruct (nx_id_eqb (cycle_first_nexus_id _) NEXUS_CHANNEL_PAYG_CREDIT_SENTINEL_NULL_NEXUS_ID)|]; by split_and!.
Qed.

Definition stamped (st : nxp_common_payg_state) (t : payg_credit) : payg_credit :=
  let t := if bool_decide (st ≠ last_payg_state t) then counters_reset t else t in {| t with last_payg_state := st |}.

Lemma sentinel_not_linked m : roles_ok m → ¬ linked m NEXUS_CHANNEL_PAYG_CREDIT_SENTINEL_NULL_NEXUS_ID.
Proof. intros Hr (k & l & Hk & Hl & Hid). exact (role_id _ Hr k l Hk Hl Hid). Qed.

Lemma nx_id_eqb_false (a b : nx_id) : a ≠ b → nx_id_eqb a b = false.
Proof. intros Hne. apply not_true_is_false. by rewrite nx_id_eqb_spec. Qed.

Lemma stamp_bind {A} st (k : () → M (pc_world P) A) t g h m (p : P) :
  (when (bool_decide (st ≠ last_payg_state t)) payg_reset_counters;; pc_modify (λ t, {| t with last_payg_state := st |}) ≫= k) (pcw t g h m p)
  = k tt (pcw (stamped st t) g h m p).
Proof. unfold stamped. by case_bool_decide. Qed.

(** The device whose turn it is. *)
Lemma leader_turn st dt min t g h m (p : P) :
  pc_table m p → accessories m ≠ [] →
  ∃ t2 id, id ∈ accessories m ∧
    (stored_linked m t ∧ t2 = stamped st t ∧
       nexus_channel_link_manager_next_linked_accessory (Some (last_updated_nexus_id t)) m = Some (Some id) ∨
     ¬ stored_linked m t ∧ t2 = forgotten (stamped st t) ∧ head (accessories m) = Some id) ∧
    payg_process_leader st dt min (pcw t g h m p) = payg_turn id dt (pcw t2 g h m p).
Proof.
  intros Ht Hne. pose proof (pt_ok _ _ Ht) as (Hs & Htab & _). pose proof (pt_roles _ _ Ht) as Hr.
  unfold payg_process_leader. erewrite bind_Some by (by apply pc_link_at, accessory_count_spec). rewrite pc_gets_bind, stamp_bind.
  rewrite (proj2 (Z.eqb_neq _ _)) by (destruct (accessories m); cbn [length]; [done|lia]).
  destruct (check_stored_spec (stamped st t) g h m p Ht) as (t2 & Hrun & Hres). rewrite (bind_Some _ _ _ _ _ Hrun), pc_gets_bind.
  assert (Hst : stored_linked m (stamped st t) ↔ stored_linked m t) by (unfold stored_linked, stamped; by case_bool_decide).
  assert (Hlast : last_updated_nexus_id (stamped st t) = last_updated_nexus_id t) by (unfold stamped; by case_bool_decide).
  destruct Hres as [[Hl ->]|[Hl ->]].
  - apply Hst in Hl. rewrite Hlast. destruct (next_accessory_linked m _ (last_updated_nexus_id t) Hs Htab Hr (proj1 Hl) Hne) as (id & Hin & Hnext).
    exists (stamped st t), id. split; [done|]. split; [by left|].
    rewrite nx_id_eqb_false by (intros Heq; apply (sentinel_not_linked m Hr); rewrite <- Heq; apply Hl).
    by erewrite bind_Some by (by apply pc_link_at).
  - destruct (accessories m) as [|id ids] eqn:Hacc; [done|]. exists (forgotten (stamped st t)), id. split; [by left|].
    split; [right; split_and!; [by intros ?%Hst|done|done]|].
    erewrite bind_Some by (apply pc_link_at; cbn; by apply next_accessory_none). by rewrite Hacc.
Qed.

Lemma accessory_id_ok m (p : P) id : pc_table m p → id ∈ accessories m → nx_id_ok id.
Proof.
  intros Ht Hin. pose proof (pt_ok _ _ Ht) as (_ & Htab & _). apply accessories_in in Hin as (k & l & Hk & Hl & _ & <-).
  pose proof (table_links _ _ Htab k l Hk Hl) as Hlok. split; [apply (ok_authority _ Hlok)|apply (ok_device _ Hlok)].
Qed.

Lemma leader_returns st dt min t g h m (p : P) :
  pc_table m p →
  ∃ s t' h' p', payg_process_leader st dt min (pcw t g h m p) = Some (s, pcw t' g h' m p') ∧ unnoticed p p' ∧ same_credit t t'.
Proof.
  intros Ht. pose proof (pt_ok _ _ Ht) as (Hs & Htab & _). pose proof (pt_roles _ _ Ht) as Hr.
  assert (Hstamp : ∀ t', same_credit (stamped st t) t' → same_credit t t') by (intros t'; unfold stamped; by case_bool_decide).
  destruct (decide (accessories m = [])) as [Hnil|Hne].
  - unfold payg_process_leader. erewrite bind_Some by (by apply pc_link_at, accessory_count_spec). rewrite pc_gets_bind, stamp_bind, Hnil.
    exists min, (stamped st t), h, p. split_and!; [done|done|by apply Hstamp..].
  - destruct (leader_turn st dt min t g h m p Ht Hne) as (t2 & id & Hin & Hcase & ->).
    destruct (turn_returns id dt t2 g h m p) as (s & t' & h' & p' & Hrun & Hu & Hsame); [by eapply accessory_id_ok|].
    exists s, t', h', p'. split; [done|]. split; [done|]. apply Hstamp. by destruct Hcase as [(_ & -> & _)|(_ & -> & _)].
Qed.

(** ** The whole step *)

(** The resource and the product when the controller's part of a step is
    reached. *)
Definition process_entry (md : nexus_channel_payg_credit_operating_mode) (dt : Z) (t : payg_credit) (p : P) : payg_credit * P :=
  let t0 := {| t with remaining := credit_of p |} in
  let '(t1, p1) := if NEXUS_CHANNEL_SUPPORT_ACCESSORY_MODE then follower_effect md dt t0 p else (t0, p) in
  ({| t1 with mode := md |}, p1).

Lemma process_run dt t g h m (p : P) :
  pc_table m p →
  ∃ md min, mode_is m md ∧
    nexus_channel_res_payg_credit_process dt (pcw t g h m p) =
    (if NEXUS_CHANNEL_SUPPORT_CONTROLLER_MODE then payg_process_leader (nxp_common_payg_state_get_current p) dt min else mret min)
      (pcw (process_entry md dt t p).1 g h m (process_entry md dt t p).2).
Proof.
  intros Ht. pose proof (pt_ok _ _ Ht) as (Hs & _). unfold nexus_channel_res_payg_credit_process, process_entry.
  erewrite bind_Some by reflexivity. rewrite (bind_Some _ _ _ _ _ (latest_query t g h m p)), pc_modify_bind.
  set (t0 := mk_payg_credit _ _ _ _ _ _ _ _) in *.
  destruct (mode_query t0 g h m p Hs (pt_roles _ _ Ht)) as (md & Hmd & His). rewrite (bind_Some _ _ _ _ _ Hmd). exists md.
  destruct NEXUS_CHANNEL_SUPPORT_ACCESSORY_MODE.
  - destruct (follower_spec md dt NEXUS_COMMON_IDLE_TIME_BETWEEN_PROCESS_CALL_SECONDS t0 g h m p) as (s & Hf). exists s. split; [done|].
    rewrite (bind_Some _ _ _ _ _ Hf), pc_modify_bind. by destruct (follower_effect md dt t0 p), NEXUS_CHANNEL_SUPPORT_CONTROLLER_MODE.
  - eexists. split; [done|]. erewrite bind_Some by reflexivity. rewrite pc_modify_bind. by destruct NEXUS_CHANNEL_SUPPORT_CONTROLLER_MODE.
Qed.

End PaygSpec.
