(* ===== verification/ChannelPaygRun.v ===== *)
(** * The PAYG credit resource: what an accessory does with its credit

    A device that follows a controller is a cell with a countdown: it takes the
    credit of a POST over and loses it when none came for 75 seconds. *)



From S2P Require Import Prelude Crc Check NvBlock Product DesktopProduct Nv Channel ChannelEndpoint ChannelLm ChannelLmSpec ChannelLmTable.
From S2P Require Import ChannelHs ChannelHsServer ChannelHsClient ChannelPayg ChannelPaygRing ChannelPaygSpec.
Local Open Scope Z_scope.

(** ** Payloads *)

(** The credit a property gives. *)
Definition re_value (r : oc_rep_t) : option Z :=
  match rep_value r with
  | OC_REP_INT v => if bool_decide (rep_name r = PAYG_CREDIT_REMAINING_SHORT_PROP_NAME) && (v <=? UINT32_MAX) then Some (u32 v) else None
  | _ => None
  end.

Definition payload_credit (rep : list oc_rep_t) : option Z := last (omap re_value rep).

Lemma evaluate_loop_spec rep e c :
  evaluate_payload_loop rep e c = match payload_credit rep with Some c' => (false, c') | None => (e, c) end.
Proof.
  unfold payload_credit. revert e c. induction rep as [|r rep IH]; intros e c; [done|]. cbn [evaluate_payload_loop omap list_omap].
  unfold re_value at 1. destruct (bool_decide _); [|by destruct (rep_value r); apply IH].
  destruct (rep_value r) as [|v|]; try apply IH. cbn [andb]. destruct (Z.ltb_spec UINT32_MAX v).
  - rewrite (proj2 (Z.leb_gt _ _)) by lia. apply IH.
  - rewrite (proj2 (Z.leb_le _ _)) by lia. rewrite IH, last_cons. by destruct (last _).
Qed.

Lemma evaluate_spec rep :
  _nexus_channel_payg_credit_evaluate_payload_extract_credit rep =
  match payload_credit rep with Some c => (false, c) | None => (true, 0) end.
Proof. apply evaluate_loop_spec. Qed.

Lemma payload_credit_range rep c : payload_credit rep = Some c → is_u32 c.
Proof.
  unfold payload_credit. intros Hl. apply last_Some in Hl as (l & Hl).
  assert (Hin : c ∈ omap re_value rep) by (rewrite Hl; apply elem_of_app; right; by left).
  apply list_elem_of_omap in Hin as (r & _ & Hv). unfold re_value in Hv. destruct (rep_value r); [done| |done].
  destruct (_ && _); [|done]. injection Hv as <-. apply u32_range.
Qed.

Section PaygRun.
Context {P : Type} `{HP : ProductLaws P} `{!ReliableNv P} `{!ChannelProduct P} `{!ChannelProductLaws P}
  `{HC : ChannelConfigOk} `{!CreditProduct P} `{!CreditProductLaws P} `{!CreditStack P} `{!CreditStackLaws P}.

(** The product with another credit. *)
Definition given_credit (c : Z) (p : P) : P := if c =? UINT32_MAX then nxp_channel_payg_credit_unlock p else nxp_channel_payg_credit_set c p.

Lemma given_credit_of c p : is_u32 c → credit_of (given_credit c p) = c.
Proof.
  intros Hc. unfold given_credit. destruct (Z.eqb_spec c UINT32_MAX) as [->|Hne]; [apply credit_unlock|by apply credit_set].
Qed.

Lemma given_credit_frame c p : nv_equiv (given_credit c p) p.
Proof. unfold given_credit. destruct (c =? UINT32_MAX); [apply channel_unlock_frame|apply channel_set_frame]. Qed.

Lemma update_spec c t g h m (p : P) :
  pc_table m p →
  ∃ md, mode_is m md ∧
    _nexus_channel_payg_credit_update_from_post_or_get c (pcw t g h m p) =
    let t1 := {| t with remaining := c |} in
    Some (tt, pcw (if NEXUS_CHANNEL_SUPPORT_ACCESSORY_MODE && bool_decide (md = FOLLOWING) then followed 0 t1 else t1) g h m (given_credit c p)).
Proof.
  intros Ht. pose proof (pt_ok _ _ Ht) as (Hs & _). set (t1 := {| t with remaining := c |}).
  destruct (mode_query t1 g h m (given_credit c p) Hs (pt_roles _ _ Ht)) as (md & Hmd & His). exists md. split; [done|].
  unfold _nexus_channel_payg_credit_update_from_post_or_get. rewrite pc_modify_bind, pc_gets_bind. fold t1.
  change NXP_CHANNEL_PAYG_CREDIT_REMAINING_UNLOCKED_SENTINEL_VALUE with UINT32_MAX. cbn [remaining t1].
  assert (Hset : ∀ k : () → M (pc_world P) (), ((if negb (c =? UINT32_MAX) then pc_on_prod (modify (nxp_channel_payg_credit_set c))
    else pc_on_prod (modify nxp_channel_payg_credit_unlock)) ≫= k) (pcw t1 g h m p) = k tt (pcw t1 g h m (given_credit c p))).
  { intros k. unfold given_credit. by destruct (c =? UINT32_MAX). }
  rewrite Hset. destruct NEXUS_CHANNEL_SUPPORT_ACCESSORY_MODE; cbn [when andb]; [|done]. rewrite (bind_Some _ _ _ _ _ Hmd).
  by destruct (bool_decide _).
Qed.
(** ** The resource's handlers *)

(** The credit and the mode, and, for a controller that leads, every device it
    leads, once. *)
Definition shown_representation (md : nexus_channel_payg_credit_operating_mode) (m : link_manager) (p : P) : payg_representation :=
  mk_payg_representation (payg_mode_code md) (credit_of p) 1
    (if NEXUS_CHANNEL_SUPPORT_CONTROLLER_MODE && bool_decide (md = NEXUS_CHANNEL_PAYG_CREDIT_OPERATING_MODE_LEADING)
     then link_transmit <$> accessories m else []).

Lemma get_handler_spec i t g h m (p : P) :
  pc_table m p →
  ∃ md, mode_is m md ∧
    nexus_channel_res_payg_credit_get_handler i (pcw t g h m p) =
    let t1 := {| t with remaining := credit_of p |} in
    Some (match i with OC_IF_OTHER => None | _ => Some (shown_representation md m p) end, pcw {| t1 with mode := md |} g h m p).
Proof.
  intros Ht. pose proof (pt_ok _ _ Ht) as (Hs & Htab & _). unfold nexus_channel_res_payg_credit_get_handler, shown_representation.
  erewrite bind_Some by reflexivity. rewrite (bind_Some _ _ _ _ _ (latest_query t g h m p)), pc_modify_bind.
  set (t1 := mk_payg_credit _ _ _ _ _ _ _ _).
  destruct (mode_query t1 g h m p Hs (pt_roles _ _ Ht)) as (md & Hmd & His). exists md. split; [done|].
  rewrite (bind_Some _ _ _ _ _ Hmd), pc_modify_bind.
  assert (Hdi : ∀ t2, pc_link payg_di (pcw t2 g h m p) = Some (link_transmit <$> accessories m, pcw t2 g h m p))
    by (intros t2; by eapply pc_link_at, payg_di_spec, pt_roles).
  destruct i; [destruct (_ && _)..|done]; first [by rewrite (bind_Some _ _ _ _ _ (Hdi _))|done].
Qed.

Lemma post_handler_spec payload t g h m (p : P) :
  pc_table m p →
  match payload_credit payload with
  | Some c =>
    ∃ t', nexus_channel_res_payg_credit_post_handler payload (pcw t g h m p) =
        Some ((OC_STATUS_CHANGED, Some (c, 1)), pcw t' g h m (given_credit c p)) ∧
      (NEXUS_CHANNEL_SUPPORT_ACCESSORY_MODE = true → mode_is m FOLLOWING → follower_mode_seconds_since_credit_updated t' = 0)
  | None => nexus_channel_res_payg_credit_post_handler payload (pcw t g h m p) = Some ((OC_STATUS_BAD_REQUEST, None), pcw t g h m p)
  end.
Proof.
  intros Ht. unfold nexus_channel_res_payg_credit_post_handler. rewrite evaluate_spec.
  destruct (payload_credit payload) as [c|] eqn:Hc; [|done]. cbn [negb].
  destruct (update_spec c t g h m p Ht) as (md & Hmd & Hrun). cbn zeta in Hrun. rewrite (bind_Some _ _ _ _ _ Hrun), pc_gets_bind.
  match goal with |- context [pcw ?t1 g h m _] => exists t1 end. split; [by destruct (_ && _)|]. intros Hacc Hf.
  assert (md = FOLLOWING) as -> by (destruct md, Hmd as [Ha Hb], Hf as [Ha' Hb']; done || by destruct Hb).
  by rewrite Hacc, bool_decide_true.
Qed.

(** ** A step *)

Lemma mode_is_unique m md md' : mode_is m md → mode_is m md' → md = md'.
Proof. destruct md, md'; cbn [mode_is]; intros [Ha Hb] [Ha' Hb']; done || by destruct Hb || by destruct Hb'. Qed.

Lemma entry_frame md dt t (p : P) : nv_equiv (process_entry md dt t p).2 p.
Proof.
  unfold process_entry, follower_effect. destruct NEXUS_CHANNEL_SUPPORT_ACCESSORY_MODE; [|done].
  destruct (remaining _ =? UINT32_MAX); [done|]. destruct (bool_decide (md = FOLLOWING)).
  - destruct (75 <=? _); [apply channel_set_frame|done].
  - destruct (_ && _); [apply channel_set_frame|done].
Qed.

(** The credit after the accessory's part. *)
Lemma entry_credit md dt t (p : P) :
  remaining (process_entry md dt t p).1 = credit_of (process_entry md dt t p).2 ∧
  mode (process_entry md dt t p).1 = md ∧
  (credit_of (process_entry md dt t p).2 = credit_of p ∨
   credit_of (process_entry md dt t p).2 = 0 ∧ credit_of p ≠ UINT32_MAX ∧ (md = FOLLOWING ∨ md = INDEPENDENT ∧ mode t = FOLLOWING)).
Proof.
  unfold process_entry, follower_effect. destruct NEXUS_CHANNEL_SUPPORT_ACCESSORY_MODE; [|by split_and!; [..|left]].
  cbn [remaining mode]. destruct (Z.eqb_spec (credit_of p) UINT32_MAX) as [Hu|Hu]; [by split_and!; [..|left]|].
  pose proof (credit_set 0 p) as Hset. specialize (Hset ltac:(unfold is_u32; lia)). case_bool_decide as Hm.
  - destruct (75 <=? _); cbn; [|by split_and!; [..|left]]. rewrite Hset. split_and!; [done|done|right]. auto.
  - destruct (bool_decide (md = INDEPENDENT)) eqn:Hi, (bool_decide (mode t = FOLLOWING)) eqn:Hf; cbn [andb]; try by split_and!; [..|left].
    apply bool_decide_eq_true in Hi, Hf. cbn. rewrite Hset. split_and!; [done|done|right]. auto.
Qed.

Lemma process_returns_at dt t g h m (p : P) :
  pc_table m p →
  ∃ md s t' h' p', mode_is m md ∧ nexus_channel_res_payg_credit_process dt (pcw t g h m p) = Some (s, pcw t' g h' m p') ∧
    unnoticed (process_entry md dt t p).2 p' ∧ same_credit (process_entry md dt t p).1 t'.
Proof.
  intros Ht. destruct (process_run dt t g h m p Ht) as (md & min & His & ->). pose proof (entry_frame md dt t p) as Hf.
  destruct NEXUS_CHANNEL_SUPPORT_CONTROLLER_MODE; [|by eexists md, min, _, h, _].
  destruct (leader_returns (nxp_common_payg_state_get_current p) dt min (process_entry md dt t p).1 g h m (process_entry md dt t p).2)
    as (s & t' & h' & p' & Hrun & Hu & Hsame); [by eapply pc_table_on|]. by exists md, s, t', h', p'.
Qed.

(** a step of the resource always returns, with the mode of the links and
    the credit of the unit up to date; the credit is the one from before, or it
    is erased, which happens neither to an unlocked unit nor to one that leads
    others. *)
Theorem payg_process_safe dt t g h m (p : P) :
  pc_table m p →
  ∃ s t' h' p', nexus_channel_res_payg_credit_process dt (pcw t g h m p) = Some (s, pcw t' g h' m p') ∧
    pc_table m p' ∧ remaining t' = credit_of p' ∧ mode_is m (mode t') ∧
    (credit_of p' = credit_of p ∨
     credit_of p' = 0 ∧ credit_of p ≠ UINT32_MAX ∧ (mode t' = FOLLOWING ∨ mode t' = INDEPENDENT ∧ mode t = FOLLOWING)).
Proof.
  intros Ht. destruct (process_returns_at dt t g h m p Ht) as (md & s & t' & h' & p' & His & Hrun & Hu & Hr & Hm & _).
  destruct (entry_credit md dt t p) as (Hre & Hme & Hc). exists s, t', h', p'. split; [done|].
  rewrite (credit_unnoticed _ _ Hu), Hr, Hm, Hme. split_and!; try done.
  apply (pc_table_on m (process_entry md dt t p).2); [eapply pc_table_on; [done|apply entry_frame]|apply Hu].
Qed.

(** ** Following as a countdown *)

(** What happens to the resource: a step, a POST of the controller, a GET. *)
Inductive payg_event := Elapsed (dt : Z) | Posted (payload : list oc_rep_t) | Shown (i : oc_interface_mask_t).

Definition payg_event_step (e : payg_event) : M (pc_world P) unit :=
  match e with
  | Elapsed dt => _ ← nexus_channel_res_payg_credit_process dt; mret tt
  | Posted payload => _ ← nexus_channel_res_payg_credit_post_handler payload; mret tt
  | Shown i => _ ← nexus_channel_res_payg_credit_get_handler i; mret tt
  end.
Fixpoint payg_events (es : list payg_event) : M (pc_world P) unit :=
  match es with [] => mret tt | e :: es => payg_event_step e;; payg_events es end.

(** The cell: its credit and the seconds since it was set. *)
Definition cell_step (c : Z * Z) (e : payg_event) : Z * Z :=
  match e with
  | Elapsed dt => if c.1 =? UINT32_MAX then c else if 75 <=? c.2 + dt then (0, 0) else (c.1, c.2 + dt)
  | Posted payload => match payload_credit payload with Some new => (new, 0) | None => c end
  | Shown _ => c
  end.
Definition payg_event_ok (e : payg_event) : Prop := match e with Elapsed dt => 0 ≤ dt < 2 ^ 32 - 75 | _ => True end.

Definition cell_of (w : pc_world P) : Z * Z := (credit_of (lm_prod (pc_lm w)), follower_mode_seconds_since_credit_updated (pc_this w)).

(** A unit that follows, in the course of its countdown. *)
Record follows (w : pc_world P) : Prop := mk_follows {
  follows_table : pc_table (lm_this (pc_lm w)) (lm_prod (pc_lm w));
  follows_mode : mode_is (lm_this (pc_lm w)) FOLLOWING;
  follows_time : 0 ≤ follower_mode_seconds_since_credit_updated (pc_this w) < 75
}.

Lemma follow_process dt w :
  NEXUS_CHANNEL_SUPPORT_ACCESSORY_MODE = true → follows w → payg_event_ok (Elapsed dt) →
  ∃ s w', nexus_channel_res_payg_credit_process dt w = Some (s, w') ∧ follows w' ∧ cell_of w' = cell_step (cell_of w) (Elapsed dt).
Proof.
  destruct w as [t g h [m p]]. intros Hacc [Ht Hmode Hn] Hdt. cbn [pc_lm lm_this lm_prod pc_this] in *.
  destruct (process_returns_at dt t g h m p Ht) as (md & s & t' & h' & p' & His & Hrun & Hu & _ & _ & Hf).
  rewrite (mode_is_unique m md FOLLOWING His Hmode) in Hu, Hf. exists s, (pcw t' g h' m p'). split; [exact Hrun|].
  assert (Ht' : pc_table m p')
    by (eapply pc_table_on; [eapply pc_table_on; [exact Ht|apply (entry_frame FOLLOWING dt t p)]|apply Hu]).
  cbn [payg_event_ok] in Hdt. unfold cell_of. cbn [cell_step fst snd pc_lm lm_prod pc_this]. rewrite (credit_unnoticed _ _ Hu), Hf. clear Hrun Hu.
  revert Hf. unfold process_entry, follower_effect. rewrite Hacc. cbn [remaining follower_mode_seconds_since_credit_updated].
  rewrite bool_decide_true, (u32_small (_ + dt)) by (unfold is_u32; lia || done).
  destruct (credit_of p =? UINT32_MAX); [|destruct (Z.leb_spec 75 (follower_mode_seconds_since_credit_updated t + dt))];
    cbn; intros Hf; (split; [split; cbn; (done || lia)|]); [done| |done].
  by rewrite credit_set by (unfold is_u32; lia).
Qed.

Lemma follow_event e w :
  NEXUS_CHANNEL_SUPPORT_ACCESSORY_MODE = true → follows w → payg_event_ok e →
  ∃ w', payg_event_step e w = Some (tt, w') ∧ follows w' ∧ cell_of w' = cell_step (cell_of w) e.
Proof.
  intros Hacc Hw Hok. destruct e as [dt|payload|i]; cbn [payg_event_step].
  - destruct (follow_process dt w Hacc Hw Hok) as (s & w' & Hrun & Hw' & Hcell). exists w'. by rewrite (bind_Some _ _ _ _ _ Hrun).
  - destruct w as [t g h [m p]]. destruct Hw as [Ht Hmode Hn]. cbn [pc_lm lm_this lm_prod pc_this] in *.
    pose proof (post_handler_spec payload t g h m p Ht) as Hpost. unfold cell_of. cbn [cell_step pc_lm lm_prod pc_this].
    destruct (payload_credit payload) as [c|] eqn:Hc.
    + destruct Hpost as (t' & Hrun & Hz). specialize (Hz Hacc Hmode). rewrite (bind_Some _ _ _ _ _ Hrun). eexists. split; [done|].
      split; [split; cbn|cbn; rewrite Hz, given_credit_of by by eapply payload_credit_range]; [|done|lia|done].
      eapply pc_table_on; [exact Ht|apply given_credit_frame].
    + rewrite (bind_Some _ _ _ _ _ Hpost). eexists. split; [done|]. split; [by split|done].
  - destruct w as [t g h [m p]]. destruct Hw as [Ht Hmode Hn]. cbn [pc_lm lm_this lm_prod pc_this] in *.
    destruct (get_handler_spec i t g h m p Ht) as (md & _ & Hrun). cbn zeta in Hrun. rewrite (bind_Some _ _ _ _ _ Hrun).
    eexists. split; [done|]. split; [by split|done].
Qed.

Lemma follow_events es w :
  NEXUS_CHANNEL_SUPPORT_ACCESSORY_MODE = true → follows w → Forall payg_event_ok es →
  ∃ w', payg_events es w = Some (tt, w') ∧ follows w' ∧ cell_of w' = foldl cell_step (cell_of w) es.
Proof.
  intros Hacc. revert w. induction es as [|e es IH]; intros w Hw Hes; [by exists w|]. apply Forall_cons in Hes as [He Hes]. cbn [payg_events foldl].
  destruct (follow_event e w Hacc Hw He) as (w1 & Hrun & Hw1 & Hcell). rewrite (bind_Some _ _ _ _ _ Hrun), <- Hcell. by apply IH.
Qed.

(** The cell over time: [n] is the time since the credit was set. *)
Lemma cell_elapsed dts c n :
  c ≠ UINT32_MAX → 0 ≤ n < 75 → Forall (λ dt, 0 ≤ dt) dts →
  (foldl cell_step (c, n) (Elapsed <$> dts)).1 = if n + foldr Z.add 0 dts <? 75 then c else 0.
Proof.
  intros Hc Hn Hdts. revert c n Hc Hn. induction dts as [|dt dts IH]; intros c n Hc Hn; cbn [foldl foldr fmap list_fmap].
  - cbn. by rewrite (proj2 (Z.ltb_lt _ _)) by lia.
  - apply Forall_cons in Hdts as [Hdt Hdts]. specialize (IH Hdts).
    assert (Hsum : 0 ≤ foldr Z.add 0 dts) by (clear IH; induction Hdts; cbn; lia).
    cbn [cell_step fst snd]. rewrite (proj2 (Z.eqb_neq c _) Hc).
    destruct (Z.leb_spec 75 (n + dt)).
    + rewrite IH by (unfold UINT32_MAX; lia). rewrite (proj2 (Z.ltb_ge (n + _) 75)) by lia. by destruct (_ <? _).
    + rewrite IH by (done || lia). by replace (n + dt + foldr Z.add 0 dts) with (n + (dt + foldr Z.add 0 dts)) by lia.
Qed.

(** C27: an accessory that follows a controller implements the cell with the
    countdown: whatever steps, POSTs and GETs it sees, in any order, its credit
    and its counter are those of the cell. *)
Theorem payg_follower_refines_cell es w :
  NEXUS_CHANNEL_SUPPORT_ACCESSORY_MODE = true → follows w → Forall payg_event_ok es →
  ∃ w', payg_events es w = Some (tt, w') ∧ follows w' ∧ cell_of w' = foldl cell_step (cell_of w) es.
Proof. apply follow_events. Qed.

(** C28: the credit of a POST lasts for less than 75 seconds without another,
    however the time is divided into steps, and is erased after that. *)
Theorem payg_credit_lasts_75_seconds payload c dts w :
  NEXUS_CHANNEL_SUPPORT_ACCESSORY_MODE = true → follows w → payload_credit payload = Some c → c ≠ UINT32_MAX →
  Forall (λ dt, 0 ≤ dt < 2 ^ 32 - 75) dts →
  ∃ w', payg_events (Posted payload :: (Elapsed <$> dts)) w = Some (tt, w') ∧
    credit_of (lm_prod (pc_lm w')) = if foldr Z.add 0 dts <? 75 then c else 0.
Proof.
  intros Hacc Hw Hp Hc Hdts. destruct (follow_events (Posted payload :: (Elapsed <$> dts)) w Hacc Hw) as (w' & Hrun & _ & Hcell).
  { apply Forall_cons. split; [done|]. by apply Forall_fmap. }
  exists w'. split; [done|]. apply (f_equal fst) in Hcell. cbn [foldl cell_step] in Hcell. rewrite Hp in Hcell.
  rewrite cell_elapsed in Hcell; [exact Hcell|done|done|]. eapply Forall_impl; [exact Hdts|]. cbn. lia.
Qed.

(** a GET shows the mode, the credit and, when the unit leads, every device
    that is linked as an accessory, each of them once and in the order of the
    table; it changes nothing but the resource's copy of the credit and the mode. *)
Theorem payg_get_lists_accessories i t g h m (p : P) :
  pc_table m p → i ≠ OC_IF_OTHER →
  ∃ md t' r, mode_is m md ∧ nexus_channel_res_payg_credit_get_handler i (pcw t g h m p) = Some (Some r, pcw t' g h m p) ∧
    rep_mo r = payg_mode_code md ∧ rep_re r = credit_of p ∧
    rep_di r = (if NEXUS_CHANNEL_SUPPORT_CONTROLLER_MODE && bool_decide (md = NEXUS_CHANNEL_PAYG_CREDIT_OPERATING_MODE_LEADING)
                then link_transmit <$> accessories m else []) ∧
    NoDup (accessories m) ∧
    (∀ x, x ∈ accessories m ↔
       ∃ k l, (k < max_links)%nat ∧ slot m k = Some l ∧ operating_mode l ≠ 0 ∧ linked_device_id l = x).
Proof.
  intros Ht Hi. destruct (get_handler_spec i t g h m p Ht) as (md & His & Hrun). cbn zeta in Hrun.
  exists md. eexists _, (shown_representation md m p). split; [done|]. split; [rewrite Hrun; by destruct i|]. split_and!; [done..| |apply accessories_in].
  eapply ring_nodup, (pt_ok _ _ Ht).
Qed.

(** a POST with an integer of at most 32 bits as the last "re" sets the
    credit to it, or unlocks the unit for the largest, and answers 2.04 with it;
    any other POST is answered 4.00 and changes nothing. *)
Theorem payg_post_sets_credit payload t g h m (p : P) :
  pc_table m p →
  match payload_credit payload with
  | Some c =>
    ∃ t' p', nexus_channel_res_payg_credit_post_handler payload (pcw t g h m p) = Some ((OC_STATUS_CHANGED, Some (c, 1)), pcw t' g h m p') ∧
      pc_table m p' ∧ credit_of p' = c ∧
      (c = UINT32_MAX → nxp_common_payg_state_get_current p' = NXP_COMMON_PAYG_STATE_UNLOCKED)
  | None => nexus_channel_res_payg_credit_post_handler payload (pcw t g h m p) = Some ((OC_STATUS_BAD_REQUEST, None), pcw t g h m p)
  end.
Proof.
  intros Ht. pose proof (post_handler_spec payload t g h m p Ht) as Hpost. destruct (payload_credit payload) as [c|] eqn:Hc; [|done].
  destruct Hpost as (t' & Hrun & _). exists t', (given_credit c p). split; [done|]. split; [eapply pc_table_on; [exact Ht|apply given_credit_frame]|].
  split; [by eapply given_credit_of, payload_credit_range|]. intros ->. apply channel_unlock_state.
Qed.
(** a unit whose last link is gone loses the credit its controller gave it
    at the next step, but keeps it if a GET comes first: the handler of the GET
    brings the mode up to date that the step compares with. *)
Theorem payg_get_hides_lost_link i dt t g h m (p : P) :
  NEXUS_CHANNEL_SUPPORT_ACCESSORY_MODE = true → pc_table m p → mode_is m INDEPENDENT → mode t = FOLLOWING → credit_of p ≠ UINT32_MAX →
  (∃ s t' h' p', nexus_channel_res_payg_credit_process dt (pcw t g h m p) = Some (s, pcw t' g h' m p') ∧ credit_of p' = 0) ∧
  (∃ s t' h' p', (nexus_channel_res_payg_credit_get_handler i;; nexus_channel_res_payg_credit_process dt) (pcw t g h m p) =
     Some (s, pcw t' g h' m p') ∧ credit_of p' = credit_of p).
Proof.
  intros Hacc Ht Hind Hmode Hc. split.
  - destruct (process_returns_at dt t g h m p Ht) as (md & s & t' & h' & p' & His & Hrun & Hu & _).
    rewrite (mode_is_unique m md INDEPENDENT His Hind) in Hu. exists s, t', h', p'. split; [exact Hrun|]. rewrite (credit_unnoticed _ _ Hu).
    unfold process_entry, follower_effect. rewrite Hacc. cbn [remaining mode]. rewrite (proj2 (Z.eqb_neq _ _) Hc), Hmode. cbn.
    apply credit_set. unfold is_u32. lia.
  - destruct (get_handler_spec i t g h m p Ht) as (md & His & Hget). cbn zeta in Hget. rewrite (mode_is_unique m md INDEPENDENT His Hind) in Hget.
    rewrite (bind_Some _ _ _ _ _ Hget). match type of Hget with _ = Some (_, pcw ?t1 _ _ _ _) =>
      destruct (process_returns_at dt t1 g h m p Ht) as (md' & s & t' & h' & p' & His' & Hrun & Hu & _) end.
    rewrite (mode_is_unique m md' INDEPENDENT His' Hind) in Hu. exists s, t', h', p'. split; [exact Hrun|]. rewrite (credit_unnoticed _ _ Hu).
    unfold process_entry, follower_effect. rewrite Hacc. cbn [remaining mode]. by rewrite (proj2 (Z.eqb_neq _ _) Hc).
Qed.

End PaygRun.
