(* ===== verification/ChannelPaygCycle.v ===== *)
(** * The PAYG credit resource: the cycle of a controller

    A controller sends its credit to its accessories in turn.  When the requests
    are sent, no accessory waits for more than a cycle; when the first one can
    not be sent to, no other ever gets its turn. *)



From S2P Require Import Prelude Crc Check NvBlock Product DesktopProduct Nv Channel ChannelEndpoint ChannelLm ChannelLmSpec ChannelLmTable.
From S2P Require Import ChannelHs ChannelHsServer ChannelHsClient ChannelPayg ChannelPaygRing ChannelPaygSpec.
Local Open Scope Z_scope.

Section PaygCycle.
Context {P : Type} `{HP : ProductLaws P} `{!ReliableNv P} `{!ChannelProduct P} `{!ChannelProductLaws P}
  `{HC : ChannelConfigOk} `{!CreditProduct P} `{!CreditProductLaws P} `{!CreditStack P} `{!CreditStackLaws P}.

Lemma ring_next m (p : P) j id :
  pc_table m p → accessories m !! j = Some id →
  nexus_channel_link_manager_next_linked_accessory (Some id) m = Some (accessories m !! (S j mod length (accessories m))%nat).
Proof.
  intros Ht Hj. pose proof (pt_ok _ _ Ht) as (Hs & Htab & _). pose proof (lookup_lt_Some _ _ _ Hj) as Hlt.
  rewrite (next_accessory_some m _ (take j (accessories m)) id (drop (S j) (accessories m)) Hs Htab (pt_roles _ _ Ht))
    by (symmetry; by apply take_drop_middle). f_equal.
  destruct (decide (S j < length (accessories m))%nat) as [Hin|Hout].
  - rewrite Nat.mod_small by done. destruct (lookup_lt_is_Some_2 (accessories m) (S j) Hin) as [x Hx].
    by rewrite (drop_S _ _ _ Hx), Hx.
  - assert (Hlen : length (accessories m) = S j) by lia. rewrite Hlen, Nat.Div0.mod_same, drop_ge by lia. cbn [app].
    rewrite <- head_lookup. rewrite <- (take_drop_middle _ _ _ Hj) at 2. rewrite drop_ge by lia. done.
Qed.

(** The turn is the one of the [k]-th accessory. *)
Definition turn_of (m : link_manager) (k : nat) (t : payg_credit) : Prop :=
  (k = 0%nat ∧ ¬ stored_linked m t) ∨
  (linked m (cycle_first_nexus_id t) ∧
   ∃ j, accessories m !! j = Some (last_updated_nexus_id t) ∧ k = (S j mod length (accessories m))%nat).

(** The counters leave room for the time [T]. *)
Record counters_room (T : Z) (t : payg_credit) : Prop := mk_counters_room {
  counter_post : 0 ≤ seconds_since_last_post t;
  counter_cycle : 0 ≤ seconds_since_last_cycle_start t;
  counter_post_room : Z.max 25 (seconds_since_last_post t) + T < 2 ^ 32;
  counter_cycle_room : Z.max 25 (seconds_since_last_cycle_start t) + T < 2 ^ 32
}.
(** They are at least the time since the last POST, but for a second less of the
    cycle's. *)
Definition counters_since (since : Z) (t : payg_credit) : Prop :=
  0 ≤ since ∧ since ≤ seconds_since_last_post t ∧ since - 1 ≤ seconds_since_last_cycle_start t.
Definition counters_ready (t : payg_credit) : Prop := 2 ≤ seconds_since_last_post t ∧ 25 ≤ seconds_since_last_cycle_start t.

Lemma accessory_linked m id : id ∈ accessories m → linked m id.
Proof. intros Hin. apply accessories_in in Hin as (k & l & Hk & Hl & _ & <-). by exists k, l. Qed.

Definition cycle_known (m : link_manager) (t : payg_credit) : Prop :=
  linked m (cycle_first_nexus_id t) ∨ cycle_first_nexus_id t = NEXUS_CHANNEL_PAYG_CREDIT_SENTINEL_NULL_NEXUS_ID.

Lemma stamped_cases st t : same_credit t (stamped st t) ∧
  last_updated_nexus_id (stamped st t) = last_updated_nexus_id t ∧ cycle_first_nexus_id (stamped st t) = cycle_first_nexus_id t ∧
  (seconds_since_last_post (stamped st t) = seconds_since_last_post t ∧
     seconds_since_last_cycle_start (stamped st t) = seconds_since_last_cycle_start t ∨
   seconds_since_last_post (stamped st t) = 2 ∧ seconds_since_last_cycle_start (stamped st t) = 25).
Proof. unfold stamped. case_bool_decide; (split_and!; [done..|]); [by right|by left]. Qed.

(** The controller turns to the [k]-th accessory. *)
Lemma leader_turns_to st dt min t g h m (p : P) k since T :
  pc_table m p → accessories m ≠ [] → turn_of m k t → counters_since since t → counters_room T t →
  ∃ t2 id, accessories m !! k = Some id ∧ payg_process_leader st dt min (pcw t g h m p) = payg_turn id dt (pcw t2 g h m p) ∧
    turn_of m k t2 ∧ cycle_known m t2 ∧ remaining t2 = remaining t ∧ counters_room T t2 ∧ (counters_since since t2 ∨ counters_ready t2).
Proof.
  intros Ht Hne Hk Hsince [Hp0 Hc0 Hp1 Hc1]. destruct (stamped_cases st t) as (Hsame & Hlast & Hfirst & Hcount).
  destruct (leader_turn st dt min t g h m p Ht Hne) as (t2 & id & _ & Hcase & Hrun). exists t2, id.
  destruct Hcase as [(Hl & -> & Hnext)|(Hl & -> & Hhead)].
  - destruct Hk as [[_ Hk]|(Hf & j & Hj & ->)]; [done|]. rewrite (ring_next m p j _ Ht Hj) in Hnext. injection Hnext as Hid.
    split_and!; [done|done|right; rewrite Hlast, Hfirst; by split; [|exists j]|left; by rewrite Hfirst|by destruct Hsame| |].
    + split; lia.
    + unfold counters_since, counters_ready in *. destruct Hcount as [[-> ->]|[-> ->]]; [by left|right; lia].
  - assert (Hnot : ¬ stored_linked m (forgotten (stamped st t)))
      by (intros [Hx _]; exact (sentinel_not_linked m (pt_roles _ _ Ht) Hx)).
    destruct Hk as [[-> _]|(Hf & j & Hj & _)].
    2: { exfalso. apply Hl. split; [|done]. apply accessory_linked. by eapply list_elem_of_lookup_2. }
    rewrite head_lookup in Hhead. split_and!; [done|done|by left|by right|by destruct Hsame| |right; by split]. split; cbn; lia.
Qed.

(** ** A turn when the requests are sent *)

Definition requests_sent : Prop := ∀ ep c (p : P), (oc_init_post_credit ep p).1 = true ∧ (oc_do_post_credit c p).1 = true.

Lemma waited_post dt T t : 0 ≤ dt ≤ T → counters_room T t → seconds_since_last_post (waited dt t) = seconds_since_last_post t + dt.
Proof. intros Hdt [H1 H2 H3 H4]. cbn. apply u32_small. unfold is_u32. lia. Qed.

Lemma waited_cycle dt T t :
  0 ≤ dt ≤ T → counters_room T t → seconds_since_last_cycle_start (waited dt t) = seconds_since_last_cycle_start t + dt.
Proof. intros Hdt [H1 H2 H3 H4]. cbn. apply u32_small. unfold is_u32. lia. Qed.

Lemma at_turn_cases id t :
  same_credit t (at_turn id t) ∧ last_updated_nexus_id (at_turn id t) = last_updated_nexus_id t ∧
  cycle_first_nexus_id (at_turn id t) = cycle_first_nexus_id t ∧ seconds_since_last_post (at_turn id t) = seconds_since_last_post t ∧
  (seconds_since_last_cycle_start (at_turn id t) = 0 ∨
   seconds_since_last_cycle_start (at_turn id t) = seconds_since_last_cycle_start t).
Proof. unfold at_turn. destruct (nx_id_eqb _ _); (split_and!; [done..|]); [by left|by right]. Qed.

Lemma sent_state_cases id t :
  same_credit t (sent_state id t) ∧ last_updated_nexus_id (sent_state id t) = id ∧ seconds_since_last_post (sent_state id t) = 0 ∧
  (seconds_since_last_cycle_start (sent_state id t) = 0 ∨
   seconds_since_last_cycle_start (sent_state id t) = seconds_since_last_cycle_start t) ∧
  (cycle_first_nexus_id (sent_state id t) = id ∨
   cycle_first_nexus_id (sent_state id t) = cycle_first_nexus_id t ∧ cycle_first_nexus_id t ≠ NEXUS_CHANNEL_PAYG_CREDIT_SENTINEL_NULL_NEXUS_ID).
Proof.
  unfold sent_state. destruct (nx_id_eqb _ _) eqn:Heq; (split_and!; [done..| |]); [by left|by left|by right|right]. split; [done|].
  intros Hs. by rewrite (proj2 (nx_id_eqb_spec _ _) Hs) in Heq.
Qed.
(** The turn of the [k]-th accessory: it waits, for no more than 25 seconds since
    the last POST, or is sent the credit. *)
Lemma turn_step id dt t g h m (p : P) k since T :
  pc_table m p → requests_sent → accessories m !! k = Some id → turn_of m k t → cycle_known m t →
  counters_room T t → (counters_since since t ∨ counters_ready t) → 0 ≤ dt ≤ T → 0 ≤ since →
  ∃ s t' h' p', payg_turn id dt (pcw t g h m p) = Some (s, pcw t' g h' m p') ∧ unnoticed p p' ∧ counters_room (T - dt) t' ∧
    (p' = p ∧ turn_of m k t' ∧ since + dt ≤ 25 ∧ counters_since (since + dt) t' ∨
     credit_sent id (remaining t) p p' ∧ last_updated_nexus_id t' = id ∧ seconds_since_last_post t' = 0 ∧
       turn_of m (S k mod length (accessories m))%nat t' ∧ counters_since 0 t').
Proof.
  intros Ht Hsent Hid Hk Hknown Hroom Hsince Hdt Hpos. pose proof (waited_post dt T t Hdt Hroom) as Hwp. pose proof (waited_cycle dt T t Hdt Hroom) as Hwc.
  destruct Hroom as [Hp0 Hc0 Hp1 Hc1]. destruct (at_turn_cases id (waited dt t)) as (_ & Hal & Haf & Hap & Hac).
  change (last_updated_nexus_id (waited dt t)) with (last_updated_nexus_id t) in Hal.
  change (cycle_first_nexus_id (waited dt t)) with (cycle_first_nexus_id t) in Haf.
  destruct (turn_cases id dt t g h m p) as [(_ & Hlt & ->)|(_ & [[Hlt ->]|[_ ->]])].
  - eexists _, _, h, p. split; [done|]. split; [done|]. split; [split; lia|]. left. unfold counters_since, counters_ready in *.
    split; [done|]. split; [exact Hk|]. lia.
  - eexists _, _, h, p. split; [done|]. split; [done|]. split; [split; lia|]. left. unfold counters_since, counters_ready in *.
    split; [done|]. split; [|lia]. unfold turn_of, stored_linked in *. by rewrite Hal, Haf.
  - assert (Hin : id ∈ accessories m) by by eapply list_elem_of_lookup_2.
    destruct (send_credit_spec id (at_turn id (waited dt t)) g h m p) as (h' & p' & Hu & Hrun).
    { by eapply accessory_id_ok. }
    destruct Hrun as [[Hcredit Hrun]|[(ep & _ & Hfail) _]]; [|destruct (Hsent ep (remaining (at_turn id (waited dt t))) p) as [H1 _];
      destruct (Hsent ep (remaining (at_turn id (waited dt t))) (oc_init_post_credit ep p).2) as [_ H2]; destruct Hfail; congruence].
    destruct (sent_state_cases id (at_turn id (waited dt t))) as (_ & Hsl & Hsp & Hsc & Hsf).
    eexists _, _, h', p'. split; [exact Hrun|]. split; [done|]. split; [split; lia|]. right. unfold counters_since. split_and!; try (done || lia).
    + revert Hcredit. unfold at_turn. by destruct (nx_id_eqb _ _).
    + right. rewrite Hsl. split; [|by exists k]. destruct Hsf as [->|[-> Hns]]; [by apply accessory_linked|]. rewrite Haf in Hns |- *. by destruct Hknown.
Qed.

(** ** The cycle *)

(** The resource with the credit and the mode of a step. *)
Definition process_state (c : Z) (md : nexus_channel_payg_credit_operating_mode) (t : payg_credit) : payg_credit :=
  let t := {| t with remaining := c |} in {| t with mode := md |}.

Lemma process_leads dt t g h m (p : P) :
  NEXUS_CHANNEL_SUPPORT_CONTROLLER_MODE = true → pc_table m p → accessories m ≠ [] →
  ∃ md min, nexus_channel_res_payg_credit_process dt (pcw t g h m p) =
    payg_process_leader (nxp_common_payg_state_get_current p) dt min (pcw (process_state (credit_of p) md t) g h m p).
Proof.
  intros Hctrl Ht Hne. destruct (process_run dt t g h m p Ht) as (md & min & His & ->). rewrite Hctrl. exists md, min. do 2 f_equal.
  - unfold process_entry, follower_effect. destruct NEXUS_CHANNEL_SUPPORT_ACCESSORY_MODE; [|done].
    destruct (_ =? _); [done|]. by destruct md, His; rewrite !bool_decide_false by done.
  - f_equal. unfold process_entry, follower_effect. destruct NEXUS_CHANNEL_SUPPORT_ACCESSORY_MODE; [|done].
    destruct (_ =? _); [done|]. by destruct md, His; rewrite !bool_decide_false by done.
Qed.

(** Steps with the given times, and the devices and credits that were sent. *)
Inductive payg_calls : list Z → pc_world P → list (nx_id * Z) → pc_world P → Prop :=
| payg_calls_end w : payg_calls [] w [] w
| payg_calls_wait dt dts s w w1 l w' :
  nexus_channel_res_payg_credit_process dt w = Some (s, w1) →
  lm_prod (pc_lm w1) = lm_prod (pc_lm w) → payg_calls dts w1 l w' → payg_calls (dt :: dts) w l w'
| payg_calls_send dt dts s w w1 id c l w' :
  nexus_channel_res_payg_credit_process dt w = Some (s, w1) →
  credit_sent id c (lm_prod (pc_lm w)) (lm_prod (pc_lm w1)) → last_updated_nexus_id (pc_this w1) = id → seconds_since_last_post (pc_this w1) = 0 →
  payg_calls dts w1 l w' → payg_calls (dt :: dts) w ((id, c) :: l) w'.

Lemma process_turn dt t g h m (p : P) k since T :
  NEXUS_CHANNEL_SUPPORT_CONTROLLER_MODE = true → pc_table m p → accessories m ≠ [] → requests_sent →
  turn_of m k t → counters_since since t → counters_room T t → 0 ≤ dt ≤ T →
  ∃ s id t' h' p', nexus_channel_res_payg_credit_process dt (pcw t g h m p) = Some (s, pcw t' g h' m p') ∧
    accessories m !! k = Some id ∧ unnoticed p p' ∧ counters_room (T - dt) t' ∧
    (p' = p ∧ turn_of m k t' ∧ since + dt ≤ 25 ∧ counters_since (since + dt) t' ∨
     credit_sent id (credit_of p) p p' ∧ last_updated_nexus_id t' = id ∧ seconds_since_last_post t' = 0 ∧
       turn_of m (S k mod length (accessories m))%nat t' ∧ counters_since 0 t').
Proof.
  intros Hctrl Ht Hne Hsent Hk Hsince Hroom Hdt. destruct (process_leads dt t g h m p Hctrl Ht Hne) as (md & min & ->).
  destruct (leader_turns_to (nxp_common_payg_state_get_current p) dt min (process_state (credit_of p) md t) g h m p k since T Ht Hne)
    as (t2 & id & Hid & Hrun & Hk2 & Hknown & Hrem & Hroom2 & Hsince2); [exact Hk|exact Hsince|by destruct Hroom; split|].
  rewrite Hrun. change (remaining (process_state _ _ _)) with (credit_of p) in Hrem. rewrite <- Hrem.
  destruct (turn_step id dt t2 g h m p k since T) as (s & t' & h' & p' & Hturn); [done..|apply Hsince|]. exists s, id, t', h', p'. by destruct Hturn.
Qed.

Lemma turn_bound m k t : accessories m ≠ [] → turn_of m k t → (k < length (accessories m))%nat.
Proof.
  intros Hne Hk. assert (0 < length (accessories m))%nat by (destruct (accessories m); [done|cbn; lia]).
  destruct Hk as [[-> _]|(_ & j & _ & ->)]; [done|]. apply Nat.mod_upper_bound. lia.
Qed.

Lemma cycle_run dts t g h m (p : P) k since D :
  NEXUS_CHANNEL_SUPPORT_CONTROLLER_MODE = true → pc_table m p → accessories m ≠ [] → requests_sent →
  turn_of m k t → counters_since since t → since ≤ 25 → counters_room (foldr Z.add 0 dts) t → Forall (λ dt, 0 ≤ dt ≤ D) dts →
  ∃ l w', payg_calls dts (pcw t g h m p) l w' ∧ since + foldr Z.add 0 dts ≤ Z.of_nat (length l) * (25 + D) + 25 ∧
    ∀ i x, l !! i = Some x → ∃ id, x = (id, credit_of p) ∧ accessories m !! ((k + i) mod length (accessories m))%nat = Some id.
Proof.
  intros Hctrl Ht Hne Hsent. revert t h p Ht k since. induction dts as [|dt dts IH]; intros t h p Ht k since Hk Hsince H25 Hroom Hdts.
  { eexists [], _. split; [constructor|]. split; [cbn; lia|done]. }
  apply Forall_cons in Hdts as [Hdt Hdts]. cbn [foldr] in Hroom |- *.
  assert (Hsum : 0 ≤ foldr Z.add 0 dts) by (clear -Hdts; induction Hdts; cbn; lia).
  destruct (process_turn dt t g h m p k since _ Hctrl Ht Hne Hsent Hk Hsince Hroom ltac:(lia))
    as (s & id & t' & h' & p' & Hrun & Hid & Hu & Hroom' & Hcase).
  replace (dt + foldr Z.add 0 dts - dt) with (foldr Z.add 0 dts) in Hroom' by lia.
  assert (Ht' : pc_table m p') by (eapply pc_table_on; [exact Ht|apply Hu]).
  pose proof (turn_bound m k t Hne Hk) as Hlt. destruct Hcase as [(-> & Hk' & H25' & Hsince')|(Hsend & Hlast & Hpost & Hk' & Hsince')].
  - destruct (IH t' h' p Ht' k (since + dt) Hk' Hsince' H25' Hroom' Hdts) as (l & w' & Hcalls & Hlen & Hl).
    exists l, w'. split; [by eapply payg_calls_wait|]. split; [lia|done].
  - destruct (IH t' h' p' Ht' _ 0 Hk' Hsince' ltac:(lia) Hroom' Hdts) as (l & w' & Hcalls & Hlen & Hl).
    exists ((id, credit_of p) :: l), w'. split; [by eapply payg_calls_send|]. split; [cbn [length]; lia|].
    intros [|i] x Hx; cbn in Hx.
    + injection Hx as <-. exists id. by rewrite Nat.add_0_r, Nat.mod_small by done.
    + destruct (Hl i x Hx) as (id' & -> & Hid'). exists id'. rewrite (credit_unnoticed _ _ Hu). split; [done|].
      rewrite Nat.Div0.add_mod_idemp_l in Hid'. by replace (k + S i)%nat with (S k + i)%nat by lia.
Qed.

(** C26: when its requests are sent, a controller sends its credit to the linked
    accessories in the order of the table, around and around, and leaves none
    out: at most 25 seconds and one step pass between two POSTs. *)
Theorem payg_every_accessory_updated dts t g h m (p : P) k D :
  NEXUS_CHANNEL_SUPPORT_CONTROLLER_MODE = true → pc_table m p → accessories m ≠ [] → requests_sent →
  turn_of m k t → counters_room (foldr Z.add 0 dts) t → 0 < D → Forall (λ dt, 0 ≤ dt ≤ D) dts →
  ∃ l w', payg_calls dts (pcw t g h m p) l w' ∧ foldr Z.add 0 dts ≤ Z.of_nat (length l) * (25 + D) + 25 ∧
    (∀ i x, l !! i = Some x → ∃ id, x = (id, credit_of p) ∧ accessories m !! ((k + i) mod length (accessories m))%nat = Some id) ∧
    (Z.of_nat (length (accessories m)) * (25 + D) ≤ foldr Z.add 0 dts → ∀ id, id ∈ accessories m → (id, credit_of p) ∈ l).
Proof.
  intros Hctrl Ht Hne Hsent Hk Hroom HD Hdts. assert (Hsince : counters_since 0 t) by (destruct Hroom; unfold counters_since; lia).
  destruct (cycle_run dts t g h m p k 0 D Hctrl Ht Hne Hsent Hk Hsince ltac:(lia) Hroom Hdts) as (l & w' & Hcalls & Hlen & Hl).
  exists l, w'. split_and!; [done|lia|done|]. intros Hlong id Hin. apply list_elem_of_lookup in Hin as [j Hj].
  pose proof (lookup_lt_Some _ _ _ Hj) as Hjn. pose proof (turn_bound m k t Hne Hk) as Hkn.
  assert (Hll : (length (accessories m) ≤ length l)%nat) by nia.
  set (n := length (accessories m)) in *. set (i := ((j + n - k) mod n)%nat).
  assert (Hi : (i < n)%nat) by (apply Nat.mod_upper_bound; lia).
  destruct (lookup_lt_is_Some_2 l i ltac:(lia)) as [x Hx]. destruct (Hl i x Hx) as (id' & -> & Hid').
  assert (Hmod : ((k + i) mod n)%nat = j).
  { unfold i. rewrite Nat.Div0.add_mod_idemp_r. replace (k + (j + n - k))%nat with (j + 1 * n)%nat by lia.
    rewrite Nat.Div0.mod_add. by apply Nat.mod_small. }
  rewrite Hmod, Hj in Hid'. injection Hid' as ->. by eapply list_elem_of_lookup_2.
Qed.

(** ** When the first request is not sent *)

(** The steps of the resource with the given times. *)
Fixpoint payg_process_calls (dts : list Z) : M (pc_world P) unit :=
  match dts with [] => mret tt | dt :: dts => _ ← nexus_channel_res_payg_credit_process dt; payg_process_calls dts end.

(** Nothing was sent since the resource was set up or a link was lost. *)
Definition nothing_sent (first : nx_id) (t : payg_credit) : Prop :=
  cycle_first_nexus_id t = NEXUS_CHANNEL_PAYG_CREDIT_SENTINEL_NULL_NEXUS_ID ∧
  (last_updated_nexus_id t = NEXUS_CHANNEL_PAYG_CREDIT_SENTINEL_NULL_NEXUS_ID ∨ last_updated_nexus_id t = first).

Definition requests_fail (id : nx_id) : Prop :=
  ∀ ep (p : P), nexus_oc_wrapper_nx_id_to_oc_endpoint id = Some ep → (oc_init_post_credit ep p).1 = false.

Lemma init_fails first dt t g h m (p : P) rest :
  NEXUS_CHANNEL_SUPPORT_CONTROLLER_MODE = true → pc_table m p → accessories m = first :: rest → nothing_sent first t → requests_fail first →
  ∃ s t' h' p', nexus_channel_res_payg_credit_process dt (pcw t g h m p) = Some (s, pcw t' g h' m p') ∧
    unnoticed p p' ∧ nothing_sent first t'.
Proof.
  intros Hctrl Ht Hacc [Hfirst _] Hfail. assert (Hne : accessories m ≠ []) by (by rewrite Hacc).
  destruct (process_leads dt t g h m p Hctrl Ht Hne) as (md & min & ->).
  destruct (leader_turn (nxp_common_payg_state_get_current p) dt min (process_state (credit_of p) md t) g h m p Ht Hne)
    as (t2 & id & _ & Hcase & ->).
  destruct Hcase as [([_ Hl] & _)|(_ & -> & Hhead)].
  { exfalso. change (cycle_first_nexus_id (process_state _ _ _)) with (cycle_first_nexus_id t) in Hl. rewrite Hfirst in Hl.
    exact (sentinel_not_linked m (pt_roles _ _ Ht) Hl). }
  rewrite Hacc in Hhead. injection Hhead as <-. set (t3 := forgotten _).
  assert (Hin : first ∈ accessories m) by (rewrite Hacc; by left).
  assert (Hneq : nx_id_eqb (cycle_first_nexus_id t3) first = false).
  { apply nx_id_eqb_false. intros Heq. apply (sentinel_not_linked m (pt_roles _ _ Ht)). change (cycle_first_nexus_id t3) with
      NEXUS_CHANNEL_PAYG_CREDIT_SENTINEL_NULL_NEXUS_ID in Heq. rewrite Heq. by apply accessory_linked. }
  assert (Hat : at_turn first (waited dt t3) = waited dt t3).
  { unfold at_turn. change (cycle_first_nexus_id (waited dt t3)) with (cycle_first_nexus_id t3). by rewrite Hneq. }
  destruct (turn_cases first dt t3 g h m p) as [(Heq & _)|(_ & [[_ ->]|[_ ->]])]; [congruence| |]; rewrite Hat.
  - eexists _, _, h, p. split; [done|]. split; [done|]. split; [done|by left].
  - destruct (send_credit_spec first (waited dt t3) g h m p) as (h' & p' & Hu & Hrun).
    { by eapply accessory_id_ok. }
    destruct Hrun as [[(ep & Hep & Hinit & _) _]|[_ ->]]; [rewrite (Hfail ep p Hep) in Hinit; done|].
    eexists _, _, h', p'. split; [done|]. split; [done|]. split; [done|by right].
Qed.

(** when the first request of a cycle can not be started, no other device
    ever gets its turn: at every step the controller turns to the same one
    again, although the code means to go on to the next one. *)
Theorem payg_first_failure_starves dts first rest t g h m (p : P) :
  NEXUS_CHANNEL_SUPPORT_CONTROLLER_MODE = true → pc_table m p → accessories m = first :: rest → nothing_sent first t → requests_fail first →
  ∃ t' h' p', payg_process_calls dts (pcw t g h m p) = Some (tt, pcw t' g h' m p') ∧ nothing_sent first t' ∧ unnoticed p p'.
Proof.
  intros Hctrl Ht Hacc Hn Hfail. revert t h p Ht Hn. induction dts as [|dt dts IH]; intros t h p Ht Hn; [by exists t, h, p|].
  cbn [payg_process_calls]. destruct (init_fails first dt t g h m p rest Hctrl Ht Hacc Hn Hfail) as (s & t1 & h1 & p1 & Hrun & Hu & Hn1).
  rewrite (bind_Some _ _ _ _ _ Hrun). destruct (IH t1 h1 p1) as (t' & h' & p' & Hrun' & Hn' & Hu'); [eapply pc_table_on; [exact Ht|apply Hu]|done|].
  exists t', h', p'. split; [exact Hrun'|]. split; [done|]. by etransitivity.
Qed.

(** ** The start *)

Lemma linked_id_ok m (p : P) id : pc_table m p → linked m id → nx_id_ok id.
Proof.
  intros Ht (k & l & Hk & Hl & <-). pose proof (pt_ok _ _ Ht) as (_ & Htab & _).
  pose proof (table_links _ _ Htab k l Hk Hl) as Hlok. split; [apply (ok_authority _ Hlok)|apply (ok_device _ Hlok)].
Qed.

Lemma do_get_at id t g h m (p : P) :
  nx_id_ok id →
  ∃ err g' p', nx_channel_do_get_request_secured id (pcw t g h m p) = Some (err, pcw t g' h m p') ∧ unnoticed p p'.
Proof.
  intros Hid. destruct (nx_id_to_endpoint_spec id Hid) as (ep & Hep & _). pose proof (credit_get_unnoticed ep p) as Hu.
  pose proof (request_unnoticed (oc_do_get_credit ep p).2) as Hr.
  unfold nx_channel_do_get_request_secured, pc_on_prod, lm_on_prod, request_processing. mstep. rewrite Hep. mstep. cbn [pc_lm lm_prod lm_this].
  destruct (oc_do_get_credit ep p) as [[] p1]; mstep; cbn [pc_lm lm_prod lm_this]; eexists _, _, _; (split; [reflexivity|]);
    (etransitivity; [exact Hu|exact Hr]).
Qed.

(** The GET to the controller. *)
Lemma get_controller t g h m (p : P) :
  pc_table m p → led m →
  ∃ g' p', (controller_id ← pc_link nexus_channel_link_manager_has_linked_controller;
            controller_id ← lift controller_id; _ ← nx_channel_do_get_request_secured controller_id; mret tt) (pcw t g h m p) =
    Some (tt, pcw t g' h m p') ∧ unnoticed p p'.
Proof.
  intros Ht Hled. pose proof (pt_ok _ _ Ht) as (Hs & _). destruct (controller_query m Hs) as (r & Hr & Hsome & Hin).
  destruct (proj2 Hsome Hled) as [id ->]. destruct (Hin id eq_refl) as (k & l & Hk & Hl & Hid).
  destruct (do_get_at id t g h m p) as (err & g' & p' & Hget & Hu); [eapply linked_id_ok; [exact Ht|by exists k, l]|].
  exists g', p'. split; [|done]. erewrite bind_Some by (by apply pc_link_at). cbn [lift]. erewrite bind_Some by reflexivity.
  by rewrite (bind_Some _ _ _ _ _ Hget).
Qed.

Definition init_state (md : nexus_channel_payg_credit_operating_mode) (st : nxp_common_payg_state) (c : Z) (t : payg_credit) : payg_credit :=
  let t := {| t with mode := md |} in let t := {| t with remaining := c |} in
  let t := if NEXUS_CHANNEL_SUPPORT_ACCESSORY_MODE then followed 0 t else t in
  if NEXUS_CHANNEL_SUPPORT_CONTROLLER_MODE then forgotten {| t with last_payg_state := st |} else t.

Definition stored_credit (c : Z) (p : P) : P := if c =? credit_of p then p else nxp_channel_payg_credit_set c p.

Lemma init_run t g h m (p : P) :
  pc_table m p →
  ∃ md g' p', mode_is m md ∧
    let c := _nexus_channel_res_payg_credit_calculate_initial_credit md (credit_of p) in
    nexus_channel_res_payg_credit_init (pcw t g h m p) =
      Some (tt, pcw (init_state md (nxp_common_payg_state_get_current p) c t) g' h m p') ∧
    unnoticed (stored_credit c p) p'.
Proof.
  intros Ht. pose proof (pt_ok _ _ Ht) as (Hs & _). unfold nexus_channel_res_payg_credit_init.
  destruct (mode_query t g h m p Hs (pt_roles _ _ Ht)) as (md & Hmd & His). exists md. cbn zeta.
  erewrite bind_Some by reflexivity. rewrite (bind_Some _ _ _ _ _ (latest_query t g h m p)), (bind_Some _ _ _ _ _ Hmd), !pc_modify_bind.
  set (c := _nexus_channel_res_payg_credit_calculate_initial_credit md (credit_of p)).
  assert (Hset : ∀ t0 (k : () → M (pc_world P) ()), (when (negb (c =? credit_of p)) (pc_on_prod (modify (nxp_channel_payg_credit_set c))) ≫= k)
    (pcw t0 g h m p) = k tt (pcw t0 g h m (stored_credit c p))) by (intros t0 k; unfold stored_credit; by destruct (c =? credit_of p)).
  rewrite Hset. clear Hset. assert (Htc : pc_table m (stored_credit c p)).
  { eapply pc_table_on; [exact Ht|]. unfold stored_credit. destruct (c =? credit_of p); [done|apply channel_set_frame]. }
  unfold init_state. destruct NEXUS_CHANNEL_SUPPORT_ACCESSORY_MODE; cbn [when andb].
  - rewrite pc_modify_bind. assert (Hctl : ∀ t0 (k : () → M (pc_world P) ()),
      (when NEXUS_CHANNEL_SUPPORT_CONTROLLER_MODE (pc_modify (λ t, {| t with last_payg_state := nxp_common_payg_state_get_current p |});;
         pc_modify (λ t, {| t with last_updated_nexus_id := NEXUS_CHANNEL_PAYG_CREDIT_SENTINEL_NULL_NEXUS_ID |});;
         pc_modify (λ t, {| t with cycle_first_nexus_id := NEXUS_CHANNEL_PAYG_CREDIT_SENTINEL_NULL_NEXUS_ID |});;
         pc_modify (λ t, {| t with seconds_since_last_post := NEXUS_CHANNEL_PAYG_CREDIT_INTERVAL_BETWEEN_PAYG_CREDIT_POST_SECONDS |});;
         pc_modify (λ t, {| t with seconds_since_last_cycle_start := NEXUS_CHANNEL_PAYG_CREDIT_POST_UPDATE_CYCLE_TIME_SECONDS |})) ≫= k)
        (pcw t0 g h m (stored_credit c p)) =
      k tt (pcw (if NEXUS_CHANNEL_SUPPORT_CONTROLLER_MODE
        then forgotten {| t0 with last_payg_state := nxp_common_payg_state_get_current p |} else t0) g h m (stored_credit c p)))
      by (intros t0 k; by destruct NEXUS_CHANNEL_SUPPORT_CONTROLLER_MODE).
    rewrite Hctl. clear Hctl. case_bool_decide as Hrole.
    + assert (Hled : led m) by (by destruct Hrole; subst md; destruct His).
      cbn [when]. match goal with |- context [pcw ?t1 g h m (stored_credit c p)] =>
        destruct (get_controller t1 g h m (stored_credit c p) Htc Hled) as (g' & p' & -> & Hu) end. by exists g', p'.
    + by exists g, (stored_credit c p).
  - by destruct NEXUS_CHANNEL_SUPPORT_CONTROLLER_MODE; exists g, (stored_credit c p).
Qed.

Lemma init_ready t g h m (p : P) :
  pc_table m p →
  ∃ t' g' p', nexus_channel_res_payg_credit_init (pcw t g h m p) = Some (tt, pcw t' g' h m p') ∧
    pc_table m p' ∧ nv_equiv p' p ∧ mode_is m (mode t') ∧ remaining t' = credit_of p' ∧
    (credit_of p' = if bool_decide (credit_of p = UINT32_MAX) then UINT32_MAX
     else match mode t' with
          | FOLLOWING => 0
          | INDEPENDENT => if NEXUS_CHANNEL_SUPPORT_CONTROLLER_MODE then credit_of p else 0
          | _ => credit_of p
          end) ∧
    (NEXUS_CHANNEL_SUPPORT_CONTROLLER_MODE = true → turn_of m 0 t' ∧ counters_ready t') ∧
    (NEXUS_CHANNEL_SUPPORT_ACCESSORY_MODE = true → follower_mode_seconds_since_credit_updated t' = 0).
Proof.
  intros Ht. destruct (init_run t g h m p Ht) as (md & g' & p' & His & Hrun & Hu). cbn zeta in *.
  set (c := _nexus_channel_res_payg_credit_calculate_initial_credit md (credit_of p)) in *.
  assert (Hc : c = if bool_decide (credit_of p = UINT32_MAX) then UINT32_MAX else match md with
     | FOLLOWING => 0 | INDEPENDENT => if NEXUS_CHANNEL_SUPPORT_CONTROLLER_MODE then credit_of p else 0 | _ => credit_of p end).
  { unfold c. case_bool_decide as Hmax.
    - rewrite Hmax. destruct md; cbn; [by destruct NEXUS_CHANNEL_SUPPORT_CONTROLLER_MODE|done..].
    - change NXP_CHANNEL_PAYG_CREDIT_REMAINING_UNLOCKED_SENTINEL_VALUE with UINT32_MAX. destruct md; cbn; [|done| |done];
        change NXP_CHANNEL_PAYG_CREDIT_REMAINING_UNLOCKED_SENTINEL_VALUE with UINT32_MAX; rewrite (proj2 (Z.eqb_neq _ UINT32_MAX)) by done; done. }
  assert (Hcr : is_u32 c).
  { rewrite Hc. pose proof (credit_range p) as Hr. unfold is_u32, UINT32_MAX in *.
    case_bool_decide; [lia|]. destruct md; try lia. destruct NEXUS_CHANNEL_SUPPORT_CONTROLLER_MODE; lia. }
  assert (Hst : credit_of (stored_credit c p) = c).
  { unfold stored_credit. destruct (Z.eqb_spec c (credit_of p)); [done|by apply credit_set]. }
  assert (Hm : mode (init_state md (nxp_common_payg_state_get_current p) c t) = md ∧
    remaining (init_state md (nxp_common_payg_state_get_current p) c t) = c).
  { unfold init_state. by destruct NEXUS_CHANNEL_SUPPORT_ACCESSORY_MODE, NEXUS_CHANNEL_SUPPORT_CONTROLLER_MODE. }
  assert (Hnv : nv_equiv p' p).
  { etransitivity; [apply Hu|]. unfold stored_credit. destruct (c =? credit_of p); [done|apply channel_set_frame]. }
  destruct Hm as [Hm Hre]. eexists _, g', p'. split; [exact Hrun|]. rewrite Hm, Hre, (credit_unnoticed _ _ Hu), Hst. split_and!; try done.
  - eapply pc_table_on; [exact Ht|exact Hnv].
  - intros Hctrl. unfold init_state. rewrite Hctrl. split; [|by split]. left. split; [done|]. intros [Hx _].
    exact (sentinel_not_linked m (pt_roles _ _ Ht) Hx).
  - intros Hacc. unfold init_state. rewrite Hacc. by destruct NEXUS_CHANNEL_SUPPORT_CONTROLLER_MODE.
Qed.

(** the start takes the mode from the links and the credit from the
    product; a unit that follows has none until it hears from its controller,
    unless it is unlocked; a controller begins with the first accessory, without
    waiting. *)
Theorem payg_init_ready t g h m (p : P) :
  pc_table m p →
  ∃ t' g' p', nexus_channel_res_payg_credit_init (pcw t g h m p) = Some (tt, pcw t' g' h m p') ∧
    pc_table m p' ∧ nv_equiv p' p ∧ mode_is m (mode t') ∧ remaining t' = credit_of p' ∧
    (credit_of p' = if bool_decide (credit_of p = UINT32_MAX) then UINT32_MAX
     else match mode t' with
          | FOLLOWING => 0
          | INDEPENDENT => if NEXUS_CHANNEL_SUPPORT_CONTROLLER_MODE then credit_of p else 0
          | _ => credit_of p
          end) ∧
    (NEXUS_CHANNEL_SUPPORT_CONTROLLER_MODE = true → turn_of m 0 t' ∧ counters_ready t') ∧
    (NEXUS_CHANNEL_SUPPORT_ACCESSORY_MODE = true → follower_mode_seconds_since_credit_updated t' = 0).
Proof. apply init_ready. Qed.
End PaygCycle.
