(* ===== verification/ChannelUnit.v ===== *)
(** * The whole Nexus Channel library on a unit (nexus_channel_core.c)

    The modules of ChannelCore and the PAYG credit resource, which shares the
    link manager and the product with them: initialisation and processing.  The event loop of the CoAP stack, which calls back
    into the resources, is a parameter. *)






From S2P Require Import Prelude Window Check NvBlock Product DesktopProduct Nv Channel ChannelEndpoint ChannelOm ChannelOmApply.
From S2P Require Import ChannelLm ChannelLmSpec ChannelLmProcess ChannelLmTable ChannelLmCreate ChannelLmRun ChannelHs ChannelHsServer.
From S2P Require Import ChannelHsClient ChannelHsRun ChannelCore ChannelPayg ChannelPaygRing ChannelPaygSpec ChannelPaygRun ChannelPaygCycle.
Local Open Scope Z_scope.

Record unit_world (P : Type) := mk_unit_world {
  u_channel : channel_world P;
  u_credit : payg_credit;
  u_get_handler : bool;
  u_post_handler : bool
}.
Arguments mk_unit_world {P} _ _ _ _.
Arguments u_channel {P} _.
Arguments u_credit {P} _.
Arguments u_get_handler {P} _.
Arguments u_post_handler {P} _.

(** What the PAYG credit resource sees of the unit. *)
Definition credit_view {P} (w : unit_world P) : pc_world P :=
  mk_pc_world (u_credit w) (u_get_handler w) (u_post_handler w) (hs_lm (ch_hs (u_channel w))).
Definition with_credit_view {P} (v : pc_world P) (w : unit_world P) : unit_world P :=
  let c := u_channel w in let h := ch_hs c in
  mk_unit_world {| c with ch_hs := {| h with hs_lm := pc_lm v |} |} (pc_this v) (_active_client_get_handler v) (_active_client_post_handler v).

Section Unit.
Context {P : Type} `{Product P} `{!ChannelProduct P} `{!OcStack P} `{ChannelConfig} `{!CreditProduct P} `{!CreditStack P}.
(** Whether the build has the PAYG credit resource. *)
Variable NEXUS_CHANNEL_USE_PAYG_CREDIT_RESOURCE : bool.

Definition on_channel {A} (m : M (channel_world P) A) : M (unit_world P) A :=
  zoom u_channel (λ c w, {| w with u_channel := c |}) m.
Definition on_credit {A} (m : M (pc_world P) A) : M (unit_world P) A := zoom credit_view with_credit_view m.

(** The modules' initialisation, once the stack is up; [tmp_link] is the local
    structure of the link manager. *)
Definition nexus_channel_core_init (tmp_link : list Z) (registered : bool) : M (unit_world P) bool :=
  when NEXUS_CHANNEL_SUPPORT_CONTROLLER_MODE (on_channel nexus_channel_om_init);;
  on_channel (ch_on_hs nexus_channel_res_link_hs_init);;
  _ ← on_channel (ch_on_lm (nexus_channel_link_manager_init tmp_link registered));
  when NEXUS_CHANNEL_USE_PAYG_CREDIT_RESOURCE (on_credit nexus_channel_res_payg_credit_init);;
  mret true.

(** [oc_main_poll] gives the uptime at which the stack has work again, or 0;
    [uptime] is what [nexus_common_uptime] gives. *)
Definition nexus_channel_core_process (oc_main_poll : M (unit_world P) Z) (uptime seconds_elapsed : Z)
    : M (unit_world P) Z :=
  let min_sleep := NEXUS_COMMON_IDLE_TIME_BETWEEN_PROCESS_CALL_SECONDS in
  next_oc_event ← oc_main_poll;
  let secs_until_next_oc_process :=
    if 0 <? next_oc_event then
      if uptime <? u32 next_oc_event then u32 (u32 next_oc_event - uptime) else 0
    else UINT32_MAX in
  let min_sleep := if secs_until_next_oc_process <? UINT32_MAX then secs_until_next_oc_process else min_sleep in
  hs_secs ← on_channel (ch_on_hs (nexus_channel_res_link_hs_process seconds_elapsed));
  let min_sleep := u32min min_sleep hs_secs in
  lm_secs ← on_channel (ch_on_lm (nexus_channel_link_manager_process seconds_elapsed));
  let min_sleep := u32min min_sleep lm_secs in
  if NEXUS_CHANNEL_USE_PAYG_CREDIT_RESOURCE then
    credit_secs ← on_credit (nexus_channel_res_payg_credit_process seconds_elapsed);
    mret (u32min min_sleep credit_secs)
  else mret min_sleep.
End Unit.

Section UnitSpec.
Context {P : Type} `{HP : ProductLaws P} `{!ReliableNv P} `{!ChannelProduct P} `{!ChannelProductLaws P}
  `{HC : ChannelConfigOk} `{!OcStack P} `{!OcStackLaws P} `{!CreditProduct P} `{!CreditProductLaws P} `{!CreditStack P} `{!CreditStackLaws P}.

Definition u_lm (w : unit_world P) : lm_world P := hs_lm (ch_hs (u_channel w)).
Definition u_table (w : unit_world P) : link_manager := lm_this (u_lm w).
Definition u_prod (w : unit_world P) : P := lm_prod (u_lm w).

(** The links, with the one that waits to be added. *)
Record links_ok (m : link_manager) : Prop := mk_links_ok {
  links_roles : roles_ok m;
  links_pending : pending_add_link m = true →
    (operating_mode (pending_link_to_create m) = 0 ∨ operating_mode (pending_link_to_create m) = 1) ∧
    linked_device_id (pending_link_to_create m) ≠ NEXUS_CHANNEL_PAYG_CREDIT_SENTINEL_NULL_NEXUS_ID
}.

Record unit_ok (w : unit_world P) : Prop := mk_unit_ok {
  unit_hs : hs_ok (ch_hs (u_channel w));
  unit_links : links_ok (u_table w)
}.

Lemma unit_table w : unit_ok w → pc_table (u_table w) (u_prod w).
Proof. intros [(_ & Hlm & _) [Hr _]]. split; [|done]. unfold u_table, u_prod, u_lm. by destruct (hs_lm (ch_hs (u_channel w))). Qed.

Lemma on_channel_at {A} (m : M (channel_world P) A) x c w : m (u_channel w) = Some (x, c) → on_channel m w = Some (x, {| w with u_channel := c |}).
Proof. intros Hm. unfold on_channel, zoom. by rewrite Hm. Qed.

Lemma on_credit_at {A} (m : M (pc_world P) A) x v w : m (credit_view w) = Some (x, v) → on_credit m w = Some (x, with_credit_view v w).
Proof. intros Hm. unfold on_credit, zoom. by rewrite Hm. Qed.

(** A unit with another table and product. *)
Definition with_lm (l : lm_world P) (w : unit_world P) : unit_world P :=
  let c := u_channel w in let h := ch_hs c in {| w with u_channel := {| c with ch_hs := {| h with hs_lm := l |} |} |}.

Lemma on_lm_at {A} (m : M (lm_world P) A) x l w : m (u_lm w) = Some (x, l) → on_channel (ch_on_lm m) w = Some (x, with_lm l w).
Proof. intros Hm. unfold on_channel, ch_on_lm, ch_on_hs, hs_on_lm, zoom. unfold u_lm in Hm. by rewrite Hm. Qed.

(** ** Processing *)

Lemma processed_roles dt m j l :
  roles_ok m → (j < max_links)%nat → process_slot dt (slot m j) = Some l →
  (operating_mode l = 0 ∨ operating_mode l = 1) ∧ linked_device_id l ≠ NEXUS_CHANNEL_PAYG_CREDIT_SENTINEL_NULL_NEXUS_ID.
Proof.
  intros Hr Hj. unfold process_slot. destruct (slot m j) as [l0|] eqn:Hl0; [|done]. destruct (timed_out dt l0); [done|]. intros [= <-].
  split; [exact (role_of _ Hr j l0 Hj Hl0)|exact (role_id _ Hr j l0 Hj Hl0)].
Qed.

(** The link manager's step on a unit. *)
Lemma unit_lm_process dt w :
  unit_ok w →
  ∃ r l, nexus_channel_link_manager_process dt (u_lm w) = Some (r, l) ∧ unit_ok (with_lm l w) ∧ payg_equiv (lm_prod l) (u_prod w) ∧
    (pending_add_link (u_table w) = false →
     ∀ j, (j < max_links)%nat →
       slot (lm_this l) j = (if pending_clear_all_links (u_table w) then None else process_slot dt (slot (u_table w) j)) ∧
       (slot (lm_this l) j = None → saved (lm_prod l) j = None)).
Proof.
  intros [Hhs [Hr Hp]]. pose proof Hhs as (Hsh & Hlm & Hsv). destruct (lm_process_spec dt (u_lm w) Hlm) as (l & Hrun & Hpend & Hres).
  eexists _, l. split; [exact Hrun|]. change (lm_this (u_lm w)) with (u_table w) in Hres.
  assert (Hok : ∀ sl sv pf, lm_result (u_lm w) l sl sv pf →
    (∀ j x, (j < max_links)%nat → sl j = Some x →
      (operating_mode x = 0 ∨ operating_mode x = 1) ∧ linked_device_id x ≠ NEXUS_CHANNEL_PAYG_CREDIT_SENTINEL_NULL_NEXUS_ID) →
    unit_ok (with_lm l w) ∧ payg_equiv (lm_prod l) (u_prod w) ∧
    ∀ j, (j < max_links)%nat → slot (lm_this l) j = None → saved (lm_prod l) j = None).
  { intros sl sv pf [Hok1 Hf Hsl _ _] Hroles. split; [|split; [exact (frame_payg _ _ Hf)|]].
    - split.
      + pose proof (proj1 (hs_ok_created (server (hs_this (ch_hs (u_channel w)))) (ch_hs (u_channel w)) l Hhs (hs_server_ok _ Hsh) Hok1 Hf)) as Hc.
        destruct w as [[? [[] ?]] ? ? ?]. exact Hc.
      + split; [|intros Hc; change (pending_add_link (lm_this l) = true) in Hc; congruence]. split; intros k x Hk Hx; cbn in Hx; rewrite Hsl in Hx by done; by eapply Hroles.
    - intros j Hj Hn. destruct Hok1 as (_ & Ht & _). by eapply table_none. }
  destruct (pending_add_link (u_table w)) eqn:Hadd.
  - destruct Hres as (_ & i & Hi & _ & _ & Hres). destruct (Hok _ _ _ Hres) as (H1 & H2 & _); [|by split].
    intros j x Hj. unfold upd. case_decide; [intros [= <-]; by apply Hp|]. by apply processed_roles.
  - destruct Hres as [_ Hres]. destruct (pending_clear_all_links (u_table w)).
    + destruct (Hok _ _ _ Hres) as (H1 & H2 & H3); [done|]. split; [done|]. split; [done|]. intros _ j Hj.
      split; [exact (result_slot _ _ _ _ _ Hres j Hj)|by apply H3].
    + destruct (Hok _ _ _ Hres) as (H1 & H2 & H3); [intros j x Hj; by apply processed_roles|]. split; [done|]. split; [done|]. intros _ j Hj.
      split; [exact (result_slot _ _ _ _ _ Hres j Hj)|by apply H3].
Qed.
(** The handshake's step on a unit. *)
Lemma unit_hs_process dt w :
  unit_ok w →
  ∃ r h, nexus_channel_res_link_hs_process dt (ch_hs (u_channel w)) = Some (r, h) ∧
    on_channel (ch_on_hs (nexus_channel_res_link_hs_process dt)) w = Some (r, {| w with u_channel := mk_channel_world (ch_om (u_channel w)) h |}) ∧
    lm_this (hs_lm h) = u_table w ∧ unnoticed (u_prod w) (lm_prod (hs_lm h)) ∧ hs_ok h.
Proof.
  intros [Hhs _]. destruct (hs_process_spec dt (ch_hs (u_channel w)) Hhs) as (r & h & Hrun & Hk & _). exists r, h. split; [exact Hrun|].
  split; [|split; [exact (kept_lm _ _ Hk)|split; [exact (kept_prod _ _ Hk)|exact (kept_ok _ _ Hk)]]].
  unfold on_channel, ch_on_hs, zoom. rewrite Hrun. reflexivity.
Qed.

(** All modules after the stack. *)
Definition modules_process (dt min : Z) : M (unit_world P) Z :=
  hs_secs ← on_channel (ch_on_hs (nexus_channel_res_link_hs_process dt));
  let min_sleep := u32min min hs_secs in
  lm_secs ← on_channel (ch_on_lm (nexus_channel_link_manager_process dt));
  let min_sleep := u32min min_sleep lm_secs in
  credit_secs ← on_credit (nexus_channel_res_payg_credit_process dt);
  mret (u32min min_sleep credit_secs).

Lemma with_credit_ok w t g h (m : link_manager) (p : P) :
  unit_ok w → u_table w = m → nv_equiv p (u_prod w) → unit_ok (with_credit_view (mk_pc_world t g h (mk_lm_world m p)) w).
Proof.
  intros [(Hsh & Hlm & Hsv) Hl] <- Hnv. split; [|exact Hl]. split; [exact Hsh|]. split.
  - change (lm_ok (mk_lm_world (u_table w) p)). apply (lm_ok_on_that (u_lm w) p Hlm). intros j _. unfold saved. by rewrite Hnv.
  - unfold hs_saved_ok in *. change (hs_prod _) with p. change (hs_prod (ch_hs (u_channel w))) with (u_prod w) in Hsv. cbn. by rewrite (nv_stored_proper _ _ _ Hnv).
Qed.

Lemma modules_process_spec dt min w :
  unit_ok w →
  ∃ s w', modules_process dt min w = Some (s, w') ∧ unit_ok w' ∧ mode_is (u_table w') (mode (u_credit w')) ∧
    remaining (u_credit w') = credit_of (u_prod w') ∧
    (credit_of (u_prod w') = credit_of (u_prod w) ∨ credit_of (u_prod w') = 0) ∧
    (NEXUS_CHANNEL_SUPPORT_ACCESSORY_MODE = true → mode (u_credit w) = FOLLOWING → mode (u_credit w') = INDEPENDENT →
     credit_of (u_prod w) ≠ UINT32_MAX → credit_of (u_prod w') = 0) ∧
    (pending_add_link (u_table w) = false →
     ∀ j, (j < max_links)%nat →
       slot (u_table w') j = (if pending_clear_all_links (u_table w) then None else process_slot dt (slot (u_table w) j)) ∧
       (slot (u_table w') j = None → saved (u_prod w') j = None)).
Proof.
  intros Hok. unfold modules_process. destruct (unit_hs_process dt w Hok) as (r & h & _ & Hrun & Htab & Hun & Hh). rewrite (bind_Some _ _ _ _ _ Hrun).
  set (w1 := {| w with u_channel := mk_channel_world (ch_om (u_channel w)) h |}).
  assert (Hok1 : unit_ok w1) by (split; [exact Hh|]; change (u_table w1) with (lm_this (hs_lm h)); rewrite Htab; apply Hok).
  assert (Htab1 : u_table w1 = u_table w) by exact Htab.
  destruct (unit_lm_process dt w1 Hok1) as (r2 & l & Hlrun & Hok2 & Hpayg & Hslots).
  cbv zeta. rewrite (bind_Some _ _ _ _ _ (on_lm_at _ _ _ _ Hlrun)). set (w2 := with_lm l w1) in *.
  destruct (process_returns_at dt (u_credit w2) (u_get_handler w2) (u_post_handler w2) (u_table w2) (u_prod w2) (unit_table _ Hok2))
    as (md & s & t' & h' & p' & His & Hcrun & Hu & Hr & Hm & _).
  pose proof (entry_credit md dt (u_credit w2) (u_prod w2)) as (Hre & Hme & Hce).
  pose proof (entry_frame md dt (u_credit w2) (u_prod w2)) as Hef.
  assert (Hc2 : credit_of (u_prod w2) = credit_of (u_prod w)).
  { assert (Hp1 : credit_of (u_prod w1) = credit_of (u_prod w)) by (apply credit_unnoticed; exact Hun). rewrite <- Hp1.
    destruct Hpayg as [Hs1 Hr1]. change (u_prod w2) with (lm_prod l). unfold credit_of. by rewrite Hs1, Hr1. }
  assert (Hview : credit_view w2 = pcw (u_credit w2) (u_get_handler w2) (u_post_handler w2) (u_table w2) (u_prod w2))
    by (unfold credit_view, u_table, u_prod, u_lm; by destruct (hs_lm (ch_hs (u_channel w2)))).
  rewrite <- Hview in Hcrun. rewrite (bind_Some _ _ _ _ _ (on_credit_at _ _ _ _ Hcrun)).
  set (w3 := with_credit_view _ w2). exists (u32min (u32min (u32min min r) r2) s), w3. split; [reflexivity|].
  assert (Hnv : nv_equiv p' (u_prod w2)) by (etransitivity; [apply Hu|exact Hef]).
  assert (Hok3 : unit_ok w3) by (by apply with_credit_ok).
  change (u_table w3) with (u_table w2). change (u_prod w3) with p'. change (u_credit w3) with t'.
  rewrite (credit_unnoticed _ _ Hu), Hr, Hm, Hme, Hre. split_and!; try done.
  - rewrite <- Hc2. destruct Hce as [->|(-> & _)]; auto.
  - intros Hacc Hfol -> Hne. unfold process_entry, follower_effect. rewrite Hacc. cbn [remaining mode]. rewrite Hc2, (proj2 (Z.eqb_neq _ _) Hne).
    change (mode (u_credit w2)) with (mode (u_credit w)). rewrite Hfol. cbn. apply credit_set. unfold is_u32. lia.
  - intros Hadd j Hj. rewrite <- Htab1 in Hadd. destruct (Hslots Hadd j Hj) as [Hsl Hsv]. change (u_table w2) with (lm_this l).
    rewrite <- Htab1. split; [exact Hsl|]. intros Hn. specialize (Hsv Hn). unfold saved in *. by rewrite (nv_stored_proper _ _ _ Hnv).
Qed.

(** The stack hands nothing to the resources that breaks the modules. *)
Definition poll_ok (poll : M (unit_world P) Z) : Prop := ∀ w, unit_ok w → ∃ e w', poll w = Some (e, w') ∧ unit_ok w'.

Lemma core_process_at poll uptime dt e w w' :
  poll w = Some (e, w') → ∃ min, nexus_channel_core_process true poll uptime dt w = modules_process dt min w'.
Proof. intros Hp. unfold nexus_channel_core_process. rewrite (bind_Some _ _ _ _ _ Hp). by eexists. Qed.

Lemma quiet_process uptime dt w : ∃ min, nexus_channel_core_process true (mret 0) uptime dt w = modules_process dt min w.
Proof. by apply (core_process_at (mret 0) uptime dt 0). Qed.


(** An accessory without accessories of its own is in accessory mode. *)
Lemma following_mode m (p : P) :
  NEXUS_CHANNEL_SUPPORT_ACCESSORY_MODE = true → pc_table m p → mode_is m FOLLOWING →
  nexus_channel_link_manager_operating_mode m = Some CHANNEL_LINK_OPERATING_MODE_ACCESSORY.
Proof.
  intros Hacc Ht [Hnone Hled]. pose proof (pt_ok _ _ Ht) as (Hs & _). unfold nexus_channel_link_manager_operating_mode. rewrite Hacc.
  destruct NEXUS_CHANNEL_SUPPORT_CONTROLLER_MODE; cbn [andb negb]; [|done].
  destruct (controller_query m Hs) as (r & Hr & Hsome & _). rewrite Hr. cbn [mbind option_bind].
  destruct (role_query CHANNEL_LINK_OPERATING_MODE_CONTROLLER m Hs) as (r2 & Hr2 & Hsome2 & _).
  unfold nexus_channel_link_manager_has_linked_accessory. rewrite Hr2. cbn [mbind option_bind].
  rewrite (bool_decide_true (is_Some r)) by (by apply Hsome). rewrite (bool_decide_false (is_Some r2)); [done|].
  intros Hx. apply Hsome2 in Hx as (k & l & Hk & Hl & Hop). assert (Hin : linked_device_id l ∈ accessories m).
  { apply accessories_in. exists k, l. split_and!; [done|done|cbn in Hop; lia|done]. }
  rewrite Hnone in Hin. by apply elem_of_nil in Hin.
Qed.

Lemma unlinked_independent m : (∀ j, (j < max_links)%nat → slot m j = None) → mode_is m INDEPENDENT.
Proof.
  intros Hnone. split.
  - apply elem_of_nil_inv. intros x (k & l & Hk & Hl & _)%accessories_in. by rewrite Hnone in Hl.
  - intros (k & l & Hk & Hl & _). by rewrite Hnone in Hl.
Qed.

Lemma unlinked_erases dt min w :
  NEXUS_CHANNEL_SUPPORT_ACCESSORY_MODE = true → unit_ok w → mode (u_credit w) = FOLLOWING → pending_add_link (u_table w) = false →
  credit_of (u_prod w) ≠ UINT32_MAX →
  (pending_clear_all_links (u_table w) = true ∨ ∀ j l, (j < max_links)%nat → slot (u_table w) j = Some l → timed_out dt l = true) →
  ∃ s w', modules_process dt min w = Some (s, w') ∧ unit_ok w' ∧ mode (u_credit w') = INDEPENDENT ∧ credit_of (u_prod w') = 0 ∧
    ∀ j, (j < max_links)%nat → slot (u_table w') j = None ∧ saved (u_prod w') j = None.
Proof.
  intros Hacc Hok Hmode Hadd Hmax Hgone. destruct (modules_process_spec dt min w Hok) as (s & w' & Hrun & Hok' & Hm & Hr & _ & Hera & Hslots).
  assert (Hnone : ∀ j, (j < max_links)%nat → slot (u_table w') j = None).
  { intros j Hj. destruct (Hslots Hadd j Hj) as [-> _]. destruct Hgone as [->|Hto]; [done|].
    destruct (pending_clear_all_links (u_table w)); [done|]. unfold process_slot. destruct (slot (u_table w) j) as [l|] eqn:Hl; [|done].
    by rewrite (Hto j l Hj Hl). }
  assert (Hind : mode (u_credit w') = INDEPENDENT) by (eapply mode_is_unique; [exact Hm|by apply unlinked_independent]).
  exists s, w'. split; [done|]. split; [done|]. split; [done|]. split; [by apply Hera|]. intros j Hj. split; [by apply Hnone|].
  destruct (Hslots Hadd j Hj) as [_ Hsv]. by apply Hsv, Hnone.
Qed.

(** C30: the hard reset of an accessory with credit of its controller is
    accepted, and the next step deletes every link from the table and from NV
    and erases the credit, unless the unit is unlocked; the same happens
    without a reset when every link has timed out. *)
Theorem unit_reset_erases_credit uptime dt w :
  NEXUS_CHANNEL_SUPPORT_ACCESSORY_MODE = true → unit_ok w → mode_is (u_table w) FOLLOWING → mode (u_credit w) = FOLLOWING →
  pending_add_link (u_table w) = false → credit_of (u_prod w) ≠ UINT32_MAX →
  (∃ w1 s w', on_channel (ch_on_lm nx_channel_accessory_delete_all_links) w = Some (NX_CHANNEL_ERROR_NONE, w1) ∧
     nexus_channel_core_process true (mret 0) uptime dt w1 = Some (s, w') ∧ unit_ok w' ∧ mode (u_credit w') = INDEPENDENT ∧
     credit_of (u_prod w') = 0 ∧ ∀ j, (j < max_links)%nat → slot (u_table w') j = None ∧ saved (u_prod w') j = None) ∧
  ((∀ j l, (j < max_links)%nat → slot (u_table w) j = Some l → timed_out dt l = true) →
   ∃ s w', nexus_channel_core_process true (mret 0) uptime dt w = Some (s, w') ∧ unit_ok w' ∧ mode (u_credit w') = INDEPENDENT ∧
     credit_of (u_prod w') = 0 ∧ ∀ j, (j < max_links)%nat → slot (u_table w') j = None ∧ saved (u_prod w') j = None).
Proof.
  intros Hacc Hok Hfol Hmode Hadd Hmax. split.
  - pose proof Hok as [(Hsh & Hlm & Hsv) [Hr Hpr]]. destruct (clear_all_spec (u_lm w) Hlm) as (l & Hclear & Hlok & Hu & Hpc).
    assert (Hdel : nx_channel_accessory_delete_all_links (u_lm w) = Some (NX_CHANNEL_ERROR_NONE, l)).
    { unfold nx_channel_accessory_delete_all_links. erewrite bind_Some by reflexivity. change (lm_this (u_lm w)) with (u_table w).
      rewrite (bind_lift _ _ _ _ (following_mode _ _ Hacc (unit_table _ Hok) Hfol)), bool_decide_false by (intros Hx; by apply Hx).
      by rewrite (bind_Some _ _ _ _ _ Hclear). }
    rewrite (on_lm_at _ _ _ _ Hdel).
    set (w1 := with_lm l w).
    assert (Hthis : lm_this l = let m := u_table w in {| m with pending_clear_all_links := true |}).
    { revert Hclear. unfold nexus_channel_link_manager_clear_all_links, lm_modify, lm_on_prod, request_processing. mstep.
      intros Hx. injection Hx as <-. reflexivity. }
    assert (Hok1 : unit_ok w1).
    { split; [split; [exact Hsh|split; [exact Hlok|]]|].
      - unfold hs_saved_ok in *. change (hs_prod (ch_hs (u_channel w1))) with (lm_prod l). cbn.
        by rewrite (nv_stored_proper _ _ _ (unnoticed_nv _ _ Hu)).
      - change (u_table w1) with (lm_this l). rewrite Hthis. split; [|exact Hpr]. by destruct Hr. }
    destruct (quiet_process uptime dt w1) as (min & Hq).
    destruct (unlinked_erases dt min w1 Hacc Hok1 Hmode) as (s & w' & Hrun & Hrest).
    + change (u_table w1) with (lm_this l). by rewrite Hthis.
    + change (u_prod w1) with (lm_prod l). by rewrite (credit_unnoticed _ _ Hu).
    + left. exact Hpc.
    + exists w1, s, w'. rewrite Hq. split; [done|]. split; [exact Hrun|exact Hrest].
  - intros Hto. destruct (quiet_process uptime dt w) as (min & ->). apply unlinked_erases; auto.
Qed.

End UnitSpec.

(** ** The start of a unit

    The initialisation of the modules takes what is in NV and makes every
    invariant hold that ChannelUnit keeps. *)



Section UnitInit.
Context {P : Type} `{HP : ProductLaws P} `{!ReliableNv P} `{!ChannelProduct P} `{!ChannelProductLaws P}
  `{HC : ChannelConfigOk} `{!OcStack P} `{!OcStackLaws P} `{!CreditProduct P} `{!CreditProductLaws P} `{!CreditStack P} `{!CreditStackLaws P}.

(** ** The stored state of the handshake and the origin manager *)

Lemma bytes_split_ok b n :
  bytes_ok b → length b = (4 + n)%nat → is_u32 (le_val (take 4 b)) ∧ bytes_ok (drop 4 b) ∧ length (drop 4 b) = n.
Proof.
  intros Hb Hl. split_and!; [|by apply Forall_drop|rewrite length_drop; lia].
  pose proof (le_val_range (take 4 b) ltac:(by apply Forall_take)) as Hr. rewrite length_take, Hl, Nat.min_l in Hr by lia.
  unfold is_u32. change (256 ^ Z.of_nat 4) with 4294967296 in Hr. lia.
Qed.

Lemma bytes_join b n : bytes_ok b → length b = (4 + n)%nat → le_bytes 4 (le_val (take 4 b)) ++ drop 4 b = b.
Proof.
  intros Hb Hl. rewrite <- (take_drop 4 b) at 3. f_equal. replace 4%nat with (length (take 4 b)) at 1 by (rewrite length_take; lia).
  apply le_bytes_val. by apply Forall_take.
Qed.

(** What a start finds in a block, or [st]. *)
Definition hs_restored (p : P) (st : hs_stored) : hs_stored :=
  match nv_stored NX_NV_BLOCK_CHANNEL_LINK_HS_ACCESSORY p with Some b => hs_stored_of_bytes b | None => st end.
Definition om_restored (p : P) (st : nexus_om_stored) : nexus_om_stored :=
  match nv_stored NX_NV_BLOCK_CHANNEL_OM p with Some b => om_stored_of_bytes b | None => st end.

Lemma hs_restored_ok p st : hs_stored_ok st → hs_stored_ok (hs_restored p st) ∧ hs_saved_ok (hs_restored p st) p.
Proof.
  intros Hst. unfold hs_restored, hs_saved_ok. destruct (nv_stored _ p) as [b|] eqn:Hb; [|done].
  destruct (nv_stored_ok _ _ _ hs_meta_ok Hb) as [Hbo Hbl]. change (inner_length _) with (4 + 2)%nat in Hbl.
  split; [by apply bytes_split_ok|]. symmetry. by apply (bytes_join b 2).
Qed.

Lemma om_restored_ok p st :
  om_stored_ok st → om_stored_ok (om_restored p st) ∧
  match nv_stored NX_NV_BLOCK_CHANNEL_OM p with Some b => b = om_stored_bytes (om_restored p st) | None => True end.
Proof.
  intros Hst. unfold om_restored. destruct (nv_stored _ p) as [b|] eqn:Hb; [|done].
  destruct (nv_stored_ok _ _ _ om_meta_ok Hb) as [Hbo Hbl]. change (inner_length _) with (4 + 4)%nat in Hbl.
  split; [by apply bytes_split_ok|]. symmetry. by apply (bytes_join b 4).
Qed.

(** ** The modules *)

Definition hs_blank (n : nat) : hs_stored := mk_hs_stored NEXUS_CHANNEL_LINK_HS_RECEIVE_WINDOW_BEFORE_CENTER_INDEX (replicate n 0).
Definition om_blank (n : nat) : nexus_om_stored := mk_om_stored NEXUS_CHANNEL_OM_RECEIVE_WINDOW_BEFORE_CENTER_INDEX (replicate n 0).

Lemma hs_init_spec (w : hs_world P) :
  NEXUS_CHANNEL_SUPPORT_ACCESSORY_MODE = true → NEXUS_CHANNEL_SUPPORT_CONTROLLER_MODE = true →
  length (hs_received_ids (stored_accessory (hs_this w))) = 2%nat →
  ∃ h, nexus_channel_res_link_hs_init w = Some (tt, mk_hs_world h (hs_lm w)) ∧ hs_shape h ∧ hs_saved_ok (stored_accessory h) (hs_prod w).
Proof.
  intros Hacc Hctrl Hlen. unfold nexus_channel_res_link_hs_init. rewrite Hacc, Hctrl. cbn [when].
  assert (Hok : hs_stored_ok (hs_blank 2)) by (split_and!; [vm_compute; by split|apply Forall_replicate; wrap|done]).
  destruct (hs_restored_ok (hs_prod w) (hs_blank 2) Hok) as [Hrok Hrs].
  exists (mk_link_hs (replicate NEXUS_CHANNEL_SIMULTANEOUS_LINK_HANDSHAKES client_zero) server_zero (hs_restored (hs_prod w) (hs_blank 2))).
  split; [|split; [|exact Hrs]].
  - destruct w as [[c s [hi ids]] [m p]]. cbn [hs_this stored_accessory hs_received_ids] in Hlen.
    set (w1 := mk_hs_world (mk_link_hs c server_zero (hs_blank 2)) (mk_lm_world m p)).
    assert (Hread : hs_on_prod (nexus_nv_read NX_NV_BLOCK_CHANNEL_LINK_HS_ACCESSORY (hs_stored_bytes (hs_blank 2))) w1 =
      Some (match nv_stored NX_NV_BLOCK_CHANNEL_LINK_HS_ACCESSORY p with Some d => (true, d) | None => (false, hs_stored_bytes (hs_blank 2)) end, w1)).
    { unfold hs_on_prod, hs_on_lm, lm_on_prod, zoom. cbn [w1 hs_lm lm_prod].
      by rewrite nexus_nv_read_spec by (apply hs_meta_ok || by apply hs_stored_bytes_ok). }
    do 3 (rewrite bind_assoc; erewrite bind_Some by reflexivity). rewrite bind_assoc. erewrite bind_Some by reflexivity.
    cbn [hs_this stored_accessory hs_received_ids]. rewrite Hlen. fold (hs_blank 2). fold w1. rewrite bind_assoc, (bind_Some _ _ _ _ _ Hread).
    unfold hs_restored, hs_prod. cbn [hs_lm lm_prod].
    destruct (nv_stored NX_NV_BLOCK_CHANNEL_LINK_HS_ACCESSORY p) as [b|]; [done|]. erewrite bind_Some by reflexivity. by rewrite hs_stored_of_to.
  - split; cbn; [apply server_zero_ok|repeat constructor; apply client_zero_ok|done|done].
Qed.

Lemma om_blank_ok : om_stored_ok (om_blank 4).
Proof. split_and!; [vm_compute; by split|apply Forall_replicate; wrap|done]. Qed.

Lemma om_init_spec (w : channel_world P) :
  length (received_ids (ch_om w)) = 4%nat →
  nexus_channel_om_init w = Some (tt, mk_channel_world (om_restored (hs_prod (ch_hs w)) (om_blank 4)) (ch_hs w)).
Proof.
  intros Hlen. pose proof om_blank_ok as Hok.
  destruct w as [[ci ids] [h [m p]]]. cbn [ch_om received_ids] in Hlen. unfold nexus_channel_om_init, om_reload.
  set (w1 := mk_channel_world (om_blank 4) (mk_hs_world h (mk_lm_world m p))).
  assert (Hread : on_om_prod (nexus_nv_read NX_NV_BLOCK_CHANNEL_OM (om_stored_bytes (om_blank 4))) w1 =
    Some (match nv_stored NX_NV_BLOCK_CHANNEL_OM p with Some d => (true, d) | None => (false, om_stored_bytes (om_blank 4)) end, w1)).
  { unfold on_om_prod, zoom. cbn [w1 om_prod channel_om_env ch_hs hs_lm lm_prod].
    by rewrite nexus_nv_read_spec by (apply om_meta_ok || by apply om_stored_bytes_ok). }
  do 3 (erewrite bind_Some by reflexivity). cbn [ch_om received_ids om_stored om_set_stored channel_om_env]. rewrite Hlen. fold (om_blank 4). fold w1.
  rewrite (bind_Some _ _ _ _ _ Hread). unfold om_restored, hs_prod. cbn [hs_lm lm_prod ch_hs].
  destruct (nv_stored NX_NV_BLOCK_CHANNEL_OM p) as [b|]; [done|]. unfold om_modify, modify. by rewrite om_stored_of_to.
Qed.

End UnitInit.
