(* ===== verification/ChannelWitnesses.v ===== *)
(** * Concrete instances of the channel's properties

    Two units with the sample product, a controller and an accessory, on a
    CoAP stack that takes every message and remembers nothing. *)








From S2P Require Import Prelude Crc Siphash Digits Window Check NvBlock Product DesktopProduct Nv KeycodeWitnesses Channel ChannelEndpoint.
From S2P Require Import ChannelOm ChannelOmApply ChannelOmRun ChannelLm ChannelLmSpec ChannelLmProcess ChannelLmTable ChannelLmCreate.
From S2P Require Import ChannelLmRun ChannelHs ChannelHsServer ChannelHsClient ChannelHsRun ChannelCore.
Local Open Scope Z_scope.
Local Open Scope c_scope.

#[export] Instance sample_stack : OcStack desktop := {|
  oc_allocate_message := λ d, (true, d);
  oc_network_event := λ _ _ d, d;
  oc_ri_get_client_cb := λ _, false;
  oc_ri_remove_client_cb := λ d, d;
  oc_init_post := λ _ d, (true, d);
  oc_do_post := λ _ _ _ d, (true, d)
|}.

#[export] Instance sample_stack_laws : OcStackLaws desktop.
Proof. by split. Qed.

#[export] Existing Instances user_channel_config user_channel_config_ok.

Lemma endpoint_round_trip_witness :
  ∃ ep, nexus_oc_wrapper_nx_id_to_oc_endpoint (mk_nx_id 0x1234 0x89abcdef) = Some ep ∧
    nexus_oc_wrapper_oc_endpoint_to_nx_id ep = Some (mk_nx_id 0x1234 0x89abcdef) ∧
    (ep_flags ep .& MULTICAST ≠ 0 ↔ mk_nx_id 0x1234 0x89abcdef = NEXUS_OC_WRAPPER_MULTICAST_NX_ID).
Proof. apply (endpoint_round_trip (mk_nx_id 0x1234 0x89abcdef)). split; cbn; wrap. Defined.

(** ** The link manager *)

Definition scratch : list Z := replicate 36 0.
Definition lm_new : lm_world desktop := mk_lm_world lm_zero new_unit.

(** The world after calls from the restart of a unit without links. *)
Definition lm_after (es : list lm_event) : lm_world desktop :=
  match lm_exec (lm_restart scratch :: es) lm_new with Some (_, w) => w | None => lm_new end.

(** The slots of the table one by one. *)
Lemma slot_by_slot (Q : nat → Prop) : Forall Q (seq 0 8) → ∀ i, (i < max_links)%nat → Q i.
Proof. intros HQ i Hi. rewrite Forall_seq in HQ. apply HQ. change max_links with 8%nat in Hi. lia. Qed.
Ltac each_slot :=
  lazymatch goal with |- ∀ j, _ → @?Q j => apply (slot_by_slot Q) end; change (seq 0 8) with [0; 1; 2; 3; 4; 5; 6; 7]%nat;
  repeat lazymatch goal with
  | |- Forall _ [] => apply Forall_nil_2
  | |- Forall _ (_ :: _) => apply Forall_cons_2
  end; vm_compute.

Lemma new_unit_distinct : saved_distinct new_unit.
Proof.
  assert (Hnone : ∀ i, (i < max_links)%nat → saved new_unit i = None) by (each_slot; reflexivity).
  intros i j li lj Hi _. by rewrite Hnone.
Qed.

Lemma lm_after_ok es : Forall event_ok es → lm_ok (lm_after es).
Proof.
  intros He. destruct (restart_nonces scratch lm_new eq_refl new_unit_distinct) as (w1 & Hrun & Hok & _).
  destruct (exec_ok es w1 He Hok) as (w2 & Hrun2 & Hok2). unfold lm_after. cbn [lm_exec lm_exec1].
  rewrite bind_assoc, (bind_Some _ _ _ _ _ Hrun). erewrite bind_Some by reflexivity. by rewrite Hrun2.
Qed.

Definition peer : nx_id := mk_nx_id 0x1234 77.
Definition peer_key : nexus_channel_link_security_mode0_data := mk_mode0 (seqZ 1 16) 0.
Definition linking : list lm_event := [lm_create peer CHANNEL_LINK_OPERATING_MODE_CONTROLLER 0 peer_key; lm_process 5].

Lemma peer_link_ok : link_ok (new_link peer CHANNEL_LINK_OPERATING_MODE_CONTROLLER 0 peer_key).
Proof. apply new_link_ok; [split; cbn; wrap|split; [bytes|reflexivity]]. Qed.

Lemma linking_ok : Forall event_ok linking.
Proof. repeat constructor; apply peer_link_ok. Qed.


Lemma lm_created_link_found_witness :
  ∃ b w1 v, nexus_channel_link_manager_create_link peer CHANNEL_LINK_OPERATING_MODE_CONTROLLER 0 peer_key (lm_after []) = Some (b, w1) ∧
    makes_room (slot (lm_this (lm_after []))) peer CHANNEL_LINK_OPERATING_MODE_CONTROLLER v ∧
    match v with
    | None => b = false ∧ w1 = lm_after []
    | Some k => b = true ∧ ∃ r w2, nexus_channel_link_manager_process 5 w1 = Some (r, w2) ∧ lm_ok w2 ∧
        nexus_channel_link_manager_link_from_nxid peer (lm_this w2) =
          Some (Some (new_link peer CHANNEL_LINK_OPERATING_MODE_CONTROLLER 0 peer_key)) ∧
        ∀ j l, (j < max_links)%nat → slot (lm_this (lm_after [])) j = Some l → k ≠ Some j →
          nexus_channel_link_manager_link_from_nxid (linked_device_id l) (lm_this w2) =
          Some (if timed_out 5 l then None else Some (aged 5 l))
    end.
Proof.
  apply (lm_created_link_found peer CHANNEL_LINK_OPERATING_MODE_CONTROLLER 0 peer_key 5 (lm_after [])).
  - apply lm_after_ok. constructor.
  - vm_compute. reflexivity.
  - apply peer_link_ok.
Defined.

(** The world after calls from [w]. *)
Definition lm_then (es : list lm_event) (w : lm_world desktop) : lm_world desktop :=
  match lm_exec es w with Some (_, w') => w' | None => w end.

Definition lm_used : lm_world desktop := lm_after (linking ++ [lm_set_nonce peer 5]).
Definition lm_saved : lm_world desktop := lm_then [lm_process 5] lm_used.
Definition lm_restarted : lm_world desktop := lm_then [lm_restart scratch] lm_saved.

Definition used_link : nexus_channel_link_t :=
  mk_link peer (operating_mode_code CHANNEL_LINK_OPERATING_MODE_CONTROLLER) 0 5 5 (mk_mode0 (seqZ 1 16) 5).

(** One call of a run, from the calls so far. *)
Lemma after_step es e w :
  event_ok e → event_near (lm_after es) e → lm_exec1 e (lm_after es) = Some (tt, lm_after (es ++ [e])) →
  ∀ es', lm_run (lm_after (es ++ [e])) es' w → lm_run (lm_after es) (e :: es') w.
Proof. intros He Hn Hrun es' Hr. by eapply lm_run_cons. Qed.

Lemma used_run : lm_run lm_new (lm_restart scratch :: linking ++ [lm_set_nonce peer 5]) lm_used.
Proof.
  eapply (lm_run_cons _ _ (lm_after [])); [reflexivity|exact I|vm_compute; reflexivity|].
  apply (after_step []); [apply peer_link_ok|exact I|vm_compute; reflexivity|].
  apply (after_step (take 1 linking)); [exact I|exact I|vm_compute; reflexivity|].
  apply (after_step linking); [cbn; wrap|intros j l _ _ _ _; reflexivity|vm_compute; reflexivity|].
  apply lm_run_nil.
Qed.

Lemma saved_nonces j s :
  (j < max_links)%nat → saved (lm_prod lm_saved) j = Some s → nonce (security_data s) + 64 ≤ UINT32_MAX.
Proof.
  assert (Hn : ∀ j, (j < max_links)%nat →
      (from_option (λ s, nonce (security_data s)) 0 (saved (lm_prod lm_saved) j) <=? 64) = true)
    by (each_slot; reflexivity).
  intros Hj Hs. specialize (Hn j Hj). rewrite Hs in Hn. unfold UINT32_MAX. cbn [from_option] in Hn. lia.
Qed.


Definition linked_link : nexus_channel_link_t :=
  mk_link peer (operating_mode_code CHANNEL_LINK_OPERATING_MODE_CONTROLLER) 0 0 0 (mk_mode0 (seqZ 1 16) 0).

Lemma lm_nonce_jump_lost_witness :
  ∃ w', lm_exec [lm_set_nonce (linked_device_id linked_link) 90; lm_process 5; lm_restart scratch] (lm_after linking) = Some (tt, w') ∧
    ∃ l', nexus_channel_link_manager_link_from_nxid (linked_device_id linked_link) (lm_this w') = Some (Some l') ∧
      same_link l' linked_link ∧ nonce (security_data l') = 64.
Proof.
  apply (lm_nonce_jump_lost scratch 5 0 linked_link linked_link 90 (lm_after linking)).
  - reflexivity.
  - apply lm_after_ok, linking_ok.
  - vm_compute. reflexivity.
  - vm_compute. reflexivity.
  - vm_compute. lia.
  - vm_compute. reflexivity.
  - reflexivity.
  - reflexivity.
  - vm_compute. reflexivity.
  - vm_compute. reflexivity.
  - reflexivity.
  - vm_compute. reflexivity.
  - wrap.
Defined.

(** ** The handshake *)

Definition hs_new : link_hs := mk_link_hs (replicate 4 client_zero) server_zero (mk_hs_stored 15 [0; 0]).
Definition hs_unit : hs_world desktop := mk_hs_world hs_new (lm_after []).

Lemma hs_unit_ok : hs_ok hs_unit.
Proof.
  split; [split|split].
  - apply server_zero_ok.
  - repeat constructor; apply client_zero_ok.
  - reflexivity.
  - split; [cbn; wrap|]. split; [bytes|reflexivity].
  - apply lm_after_ok. constructor.
  - vm_compute. exact I.
Qed.

(** The controller after the origin gave it the digits for handshake 0. *)
Definition hs_key_given : Z := challenge_of (hs_key hs_unit) 0.
Definition hs_controller : hs_world desktop :=
  match nexus_channel_res_link_hs_link_mode_3 hs_key_given hs_unit with Some (_, w) => w | None => hs_unit end.
Definition hs_client : nexus_link_hs_controller_t := nth 0 (clients (hs_this hs_controller)) client_zero.
Definition controller_id : nx_id := mk_nx_id 0x1234 0x89abcdef.
Definition accessory_id : nx_id := mk_nx_id 0 77.
Definition endpoint_of (id : nx_id) : oc_endpoint_t := mk_oc_endpoint 8 5683 (link_local id) 2 OIC_VER_1_1_0.

Lemma unit_room id mode : lm_has_room (lm_after []) id mode.
Proof.
  split; [vm_compute; reflexivity|]. exists None. apply room_free.
  - assert (Hnone : ∀ j, (j < max_links)%nat → slot (lm_this (lm_after [])) j = None) by (each_slot; reflexivity).
    intros j l Hj. by rewrite Hnone.
  - exists 0%nat. split; [vm_compute; lia|vm_compute; reflexivity].
Qed.

Lemma hs_unit_window : handshake_index (stored_accessory (hs_this hs_unit)) = 15.
Proof. reflexivity. Qed.

(** Nothing was received yet. *)
Lemma hs_unit_unused k : 0 ≤ k ≤ 23 → ¬ hs_used (stored_accessory (hs_this hs_unit)) k.
Proof.
  intros Hk [Hlt|Hrec]; [rewrite hs_unit_window in Hlt; lia|]. revert Hrec. unfold window_received.
  assert (Hin : k ∈ seqZ 0 24) by (apply elem_of_seqZ; lia).
  assert (Hall : Forall (λ x, ¬ window_received (hs_window (stored_accessory (hs_this hs_unit))) x) (seqZ 0 24)).
  { unfold window_received. vm_compute. repeat constructor; intros []; lia || congruence. }
  rewrite Forall_forall in Hall. exact (Hall k Hin).
Qed.

Lemma link_handshake_agreement_witness :
  ∃ mac wa1 wc2,
    nexus_channel_res_link_hs_server_post (hs_payload hs_client) (endpoint_of controller_id) hs_unit =
      Some (mk_hs_response OC_STATUS_CREATED (Some mac), wa1) ∧
    nexus_channel_res_link_hs_client_post (Some (hs_answer 0 (endpoint_of accessory_id) mac)) hs_controller = Some (tt, wc2) ∧
    pending_add_link (lm_this (hs_lm wa1)) = true ∧ pending_add_link (lm_this (hs_lm wc2)) = true ∧
    pending_link_to_create (lm_this (hs_lm wa1)) =
      new_link controller_id CHANNEL_LINK_OPERATING_MODE_ACCESSORY 0 (mk_mode0 (hs_link_key hs_client) 0) ∧
    pending_link_to_create (lm_this (hs_lm wc2)) =
      new_link accessory_id CHANNEL_LINK_OPERATING_MODE_CONTROLLER 0 (mk_mode0 (hs_link_key hs_client) 0) ∧
    hs_ok wa1 ∧ hs_ok wc2 ∧ hs_used (stored_accessory (hs_this wa1)) 0 ∧ clients (hs_this wc2) !! 0%nat = Some client_zero.
Proof.
  apply (link_handshake_agreement 0 0 hs_client (endpoint_of controller_id) (endpoint_of accessory_id) controller_id accessory_id
    hs_unit hs_controller hs_unit).
  - apply hs_unit_ok.
  - apply hs_unit_ok.
  - split; rewrite hs_unit_window; lia.
  - rewrite hs_unit_window. lia.
  - apply hs_unit_unused. lia.
  - split; [exists client_zero; split; reflexivity|lia].
  - vm_compute. reflexivity.
  - vm_compute. reflexivity.
  - intros x (Hx & _). change (15 - 15 ≤ x ≤ 15 + 8) in Hx. lia.
  - vm_compute. reflexivity.
  - split; cbn; wrap.
  - vm_compute. reflexivity.
  - split; cbn; wrap.
  - apply unit_room.
  - apply unit_room.
Defined.

Definition hs_request : list oc_rep_t := hs_payload hs_client.
Definition hs_linked : hs_world desktop :=
  match nexus_channel_res_link_hs_server_post hs_request (endpoint_of controller_id) hs_unit with
  | Some (_, w) => w
  | None => hs_unit
  end.
Definition hs_parsed_server : nexus_link_hs_accessory_t :=
  match _nexus_channel_res_link_hs_server_post_parse_payload hs_request (activated hs_unit) with
  | Some (_, w) => server (hs_this w)
  | None => server_zero
  end.

Lemma hs_request_ok : payload_ok hs_request.
Proof. vm_compute. repeat constructor; congruence. Qed.

Lemma controller_endpoint_ok : endpoint_ok (endpoint_of controller_id).
Proof. split; [vm_compute; repeat constructor; congruence|reflexivity]. Qed.

Lemma hs_request_matched : hs_matched hs_request hs_unit 0.
Proof.
  exists hs_parsed_server. split; [vm_compute; reflexivity|]. split.
  - split; [change (15 - 15 ≤ 0 ≤ 15 + 8); lia|]. split; [|vm_compute; reflexivity].
    intros Hr. apply (hs_unit_unused 0); [lia|]. by right.
  - intros x (Hx & _). change (15 - 15 ≤ x ≤ 15 + 8) in Hx. lia.
Qed.

Lemma hs_linked_run : hs_run hs_unit [0] hs_linked.
Proof.
  eapply (hs_run_created _ hs_request (endpoint_of controller_id) hs_linked);
    [apply hs_request_ok|apply controller_endpoint_ok|vm_compute; reflexivity|reflexivity|apply hs_request_matched|].
  apply hs_run_nil.
Qed.

Lemma hs_no_replay_witness :
  NoDup [0] ∧ ∀ k, k ∈ [0] → ¬ hs_used (stored_accessory (hs_this hs_unit)) k ∧ ∀ reps, ¬ hs_matched reps hs_linked k.
Proof.
  apply (hs_no_replay hs_unit hs_linked [0]).
  - apply hs_linked_run.
  - apply hs_unit_ok.
  - rewrite hs_unit_window. lia.
  - rewrite hs_unit_window. cbn. lia.
Defined.

Lemma hs_post_returns_witness :
  ∃ r w', nexus_channel_res_link_hs_server_post hs_request (endpoint_of controller_id) hs_unit = Some (r, w') ∧ hs_ok w' ∧
    ((r = refused ∧ w' = with_server server_zero hs_unit) ∨
     (rsp_status r = OC_STATUS_CREATED ∧ ∃ k, hs_matched hs_request hs_unit k ∧ hs_accepted hs_unit w' k)).
Proof.
  apply (hs_post_returns hs_request (endpoint_of controller_id) hs_unit).
  - apply hs_unit_ok.
  - split; rewrite hs_unit_window; lia.
  - apply hs_request_ok.
  - apply controller_endpoint_ok.
Defined.

Lemma hs_zero_key_link_witness :
  ∃ w', nexus_channel_res_link_hs_client_post
      (Some (hs_answer 2 (endpoint_of peer) (mac_of (replicate 16 0) (replicate 8 255)))) hs_unit = Some (tt, w') ∧
    pending_add_link (lm_this (hs_lm w')) = true ∧
    pending_link_to_create (lm_this (hs_lm w')) =
      new_link peer CHANNEL_LINK_OPERATING_MODE_CONTROLLER 0 (mk_mode0 (replicate 16 0) 0).
Proof.
  apply (hs_zero_key_link 2 (endpoint_of peer) peer hs_unit).
  - apply hs_unit_ok.
  - reflexivity.
  - vm_compute. reflexivity.
  - split; cbn; wrap.
  - apply unit_room.
Defined.

(** ** The origin manager of a controller *)

Definition om_new : nexus_om_stored := mk_om_stored 31 [0; 0; 0; 0].
Definition ch_unit : channel_world desktop := mk_channel_world om_new hs_unit.

Lemma ch_unit_ok : om_ok ch_unit.
Proof.
  split; [|split].
  - split; [cbn; wrap|]. split; [bytes|reflexivity].
  - apply hs_unit_ok.
  - vm_compute. exact I.
Qed.

Lemma ch_unit_room : om_room (om_stored ch_unit).
Proof. split; cbn; lia. Qed.

(** The command to link the accessory of challenge 123456, for ID 0. *)
Definition link_command : nexus_channel_om_command_message :=
  mk_om_message NEXUS_CHANNEL_OM_COMMAND_TYPE_CREATE_ACCESSORY_LINK_MODE_3 {| om_body_zero with accessory_challenge := 123456 |}
    (om_tag (om_key ch_unit) (om_content 0 NEXUS_CHANNEL_OM_COMMAND_TYPE_CREATE_ACCESSORY_LINK_MODE_3 (le_bytes 4 123456))) 0.

Lemma link_command_encodable : om_encodable link_command.
Proof. vm_compute. repeat split; congruence. Qed.

Lemma link_command_applicable : om_applicable link_command ch_unit 0.
Proof.
  split; [change (31 - 31 ≤ 0 ≤ 31 + 8); lia|]. split.
  - intros [_ Hmem]. vm_compute in Hmem. discriminate.
  - exists (with_command_id 0 link_command). split; reflexivity.
Qed.

Lemma link_command_first x : om_applicable link_command ch_unit x → 0 ≤ x.
Proof. intros (Hx & _). change (31 - 31 ≤ x ≤ 31 + 8) in Hx. lia. Qed.

Definition digits_scratch : list Z := replicate 20 0.

Lemma om_command_applied_witness :
  ∃ m' b w1, om_resolved (om_key ch_unit) link_command 0 m' ∧
    nexus_channel_core_apply_origin_command_env m' ch_unit = Some (b, w1) ∧
    if (b : bool)
    then ∃ w', nx_channel_handle_origin_command digits_scratch (om_command link_command)
                 (Z.of_nat (length (om_command link_command))) ch_unit = Some (NX_CHANNEL_ERROR_NONE, w') ∧ om_accepted ch_unit 0 w'
    else nx_channel_handle_origin_command digits_scratch (om_command link_command)
           (Z.of_nat (length (om_command link_command))) ch_unit = Some (NX_CHANNEL_ERROR_ACTION_REJECTED, w1) ∧
         om_ok w1 ∧ om_stored w1 = om_stored ch_unit.
Proof.
  apply (om_command_applied digits_scratch link_command ch_unit 0).
  - apply link_command_encodable.
  - apply ch_unit_ok.
  - apply ch_unit_room.
  - cbn. lia.
  - apply link_command_applicable.
  - apply link_command_first.
Defined.

Lemma om_command_defined_witness :
  (∃ r w', nx_channel_handle_origin_command digits_scratch (replicate 17 48) (Z.of_nat 17) ch_unit = Some (r, w')) ↔
  ¬ ((15 ≤ 17 ≤ 20)%nat ∧ Forall is_digit_char (take 17 (replicate 17 48))).
Proof.
  apply (om_command_defined digits_scratch (replicate 17 48) 17 ch_unit).
  - bytes.
  - cbn. lia.
  - cbn. lia.
  - apply ch_unit_ok.
  - apply ch_unit_room.
Defined.

Definition ch_commanded : channel_world desktop :=
  match nx_channel_handle_origin_command digits_scratch (om_command link_command)
    (Z.of_nat (length (om_command link_command))) ch_unit with
  | Some (_, w) => w
  | None => ch_unit
  end.
Definition resolved_link_command : nexus_channel_om_command_message := with_command_id 0 link_command.

Lemma link_command_run : om_run digits_scratch ch_unit [0] ch_commanded.
Proof.
  apply (om_run_accepted _ _ (om_command link_command) 13 ch_commanded).
  - vm_compute. repeat constructor; congruence.
  - vm_compute. lia.
  - vm_compute. reflexivity.
  - exists resolved_link_command, ch_commanded. split; vm_compute; reflexivity.
  - apply om_run_nil.
Qed.

Lemma om_no_replay_witness :
  NoDup [0] ∧ ∀ id, id ∈ [0] → ¬ om_used (om_stored ch_unit) id ∧ om_used (om_stored ch_commanded) id ∧
    ∀ m, ¬ om_applicable m ch_commanded id.
Proof.
  apply (om_no_replay digits_scratch ch_unit ch_commanded [0]).
  - apply link_command_run.
  - cbn. lia.
  - apply ch_unit_ok.
  - cbn. lia.
  - cbn. lia.
Defined.
