(* ===== verification/ChannelSmWitnesses.v ===== *)
(** * Concrete instances of the properties of COSE MAC0 and the security manager

    A controller and an accessory that share a link, each on a sample product,
    and the requests between them. *)






From S2P Require Import Prelude Crc Siphash Check NvBlock Product DesktopProduct Nv KeycodeWitnesses Channel ChannelEndpoint ChannelLm.
From S2P Require Import ChannelLmSpec ChannelLmTable ChannelLmCreate ChannelLmRun ChannelHs ChannelHsServer Cbor CborEncoder CborParse.
From S2P Require Import ChannelCose ChannelCoseSpec ChannelCoseRun ChannelSm ChannelSmSpec ChannelSmRun ChannelSmAgree ChannelWitnesses.
Local Open Scope Z_scope.
Local Open Scope c_scope.

(** ** COSE MAC0 *)

Definition some_garbage : garbage := zero_garbage (replicate 8 0).
Definition other_garbage : garbage := zero_garbage (replicate 8 0xff).

Lemma some_garbage_ok : garbage_ok some_garbage.
Proof. apply zero_garbage_ok; [reflexivity|bytes]. Qed.

Lemma other_garbage_ok : garbage_ok other_garbage.
Proof. apply zero_garbage_ok; [reflexivity|bytes]. Qed.

(** The URI "nx/pc" and a payload of three bytes. *)
Definition sample_uri : list Z := [0x6e; 0x78; 0x2f; 0x70; 0x63].
Definition sample_mac_params : nexus_cose_mac0_common_macparams_t :=
  mk_macparams short_tag_key 300 (mk_aad 2 sample_uri 5) [1; 2; 3] 3.

Lemma sample_mac_params_ok : params_ok sample_mac_params sample_uri [1; 2; 3].
Proof. split; cbn; try (split; [reflexivity|bytes]); [split; [bytes|reflexivity]|wrap..]. Qed.

Definition output_98 : list Z := replicate 98 0.

Lemma output_98_bytes : bytes_ok output_98.
Proof. apply Forall_replicate. wrap. Qed.

Lemma cose_sign_verify_witness :
  ends (λ r, let '(err, output', n) := r in
      (err = NEXUS_COSE_ERROR_NONE ↔ 98 ≤ 98 ∧ (5 ≤ 11)%nat ∧ 14 + head_size 300 + head_size 3 + 3 ≤ 98) ∧
      (err = NEXUS_COSE_ERROR_NONE →
         ∃ v, nexus_cose_mac0_verify_message other_garbage (receiver_ctx sample_mac_params output' n) = Done (inr v) ∧
           extracted_nonce v = 300 ∧ unsecured_payload_len v = 3 ∧
           take (Z.to_nat (unsecured_payload_len v)) (drop (Z.to_nat (unsecured_payload v)) output') = [1; 2; 3]))
    (nexus_cose_mac0_sign_encode_message some_garbage sample_mac_params output_98 98 0).
Proof.
  apply (cose_sign_verify some_garbage other_garbage some_garbage_ok other_garbage_ok sample_mac_params sample_uri [1; 2; 3] output_98 98 0).
  - apply sample_mac_params_ok.
  - cbn. lia.
  - reflexivity.
  - apply output_98_bytes.
Defined.

(** What the signer of the sample message sends. *)
Definition sample_message : list Z := cose_message 300 [1; 2; 3] (cose_tag short_tag_key 300 2 sample_uri [1; 2; 3]).
Definition sample_ctx : nexus_cose_mac0_verify_ctx_t :=
  receiver_ctx sample_mac_params sample_message (Z.of_nat (length sample_message)).


Definition sample_mac_structure (g : garbage) : nexus_cose_mac0_cbor_data_t :=
  match nexus_cose_mac0_common_mac_params_to_mac_structure g sample_mac_params (g_mac_struct g) with
  | Done (_, s) => s
  | _ => g_mac_struct g
  end.

Lemma mac_structure_binds_witness : 300 = 300 ∧ 2 = 2 ∧ sample_uri = sample_uri ∧ [1; 2; 3] = [1; 2; 3].
Proof.
  apply (mac_structure_binds some_garbage other_garbage some_garbage_ok other_garbage_ok sample_mac_params sample_mac_params sample_uri sample_uri
    [1; 2; 3] [1; 2; 3] (sample_mac_structure some_garbage) (sample_mac_structure other_garbage)).
  - apply sample_mac_params_ok.
  - apply sample_mac_params_ok.
  - vm_compute. reflexivity.
  - vm_compute. reflexivity.
  - vm_compute. reflexivity.
Defined.

Lemma cose_verify_asserts_witness :
  Forall (λ data, nexus_cose_mac0_verify_message some_garbage (mk_verify_ctx short_tag_key (mk_aad 2 sample_uri 5) data (Z.of_nat (length data))) = Aborted)
    [[0xe0]; [0x84; 0x45; 0xa2; 5; 1; 6; 2; 0xa0; 0x40; 0x40]; [0x84; 0x43; 0xa1; 5; 0x20; 0xa0; 0x40; 0x40]].
Proof. apply (cose_verify_asserts some_garbage short_tag_key (mk_aad 2 sample_uri 5)). apply some_garbage_ok. Defined.

(** ** A linked controller and accessory *)

Definition shared_key : nexus_channel_link_security_mode0_data := mk_mode0 short_tag_key 0.

(** A unit after it linked with [id] and the nonce of the link came to [n]. *)
Definition linked_unit (id : nx_id) (mode : nexus_channel_link_operating_mode) (n : Z) : lm_world desktop :=
  lm_after [lm_create id mode 0 shared_key; lm_process 5; lm_set_nonce id n].
Definition linked_at (id : nx_id) (mode : nexus_channel_link_operating_mode) (n : Z) : nexus_channel_link_t :=
  mk_link id (operating_mode_code mode) 0 0 0 (mk_mode0 short_tag_key n).

Lemma linked_unit_ok id mode n : nx_id_ok id → is_u32 n → lm_ok (linked_unit id mode n).
Proof.
  intros Hid Hn. apply lm_after_ok.
  apply Forall_cons_2; [|apply Forall_cons_2; [exact I|apply Forall_cons_2; [exact Hn|apply Forall_nil_2]]].
  apply new_link_ok; [exact Hid|split; [bytes|reflexivity]].
Qed.

(** The controller has the nonce [n]; the accessory the nonce 5. *)
Definition sm_client (n : Z) : lm_world desktop := linked_unit accessory_id CHANNEL_LINK_OPERATING_MODE_CONTROLLER n.
Definition sm_server : lm_world desktop := linked_unit controller_id CHANNEL_LINK_OPERATING_MODE_ACCESSORY 5.

Lemma sm_client_ok n : is_u32 n → lm_ok (sm_client n).
Proof. apply linked_unit_ok. split; cbn; wrap. Qed.

Lemma sm_server_ok : lm_ok sm_server.
Proof. apply linked_unit_ok; [split; cbn; wrap|wrap]. Qed.

(** What holds of every link of the table. *)
Lemma every_link (Q : nexus_channel_link_t → Prop) (w : lm_world desktop) :
  lm_ok w → (∀ k, (k < max_links)%nat → match slot (lm_this w) k with Some l => Q l | None => True end) →
  ∀ id l, link_of w id = Some l → Q l.
Proof. intros Hok Hall id l Hl. apply link_of_slot in Hl as (_ & k & Hk & Hs); [|done]. specialize (Hall k Hk). by rewrite Hs in Hall. Qed.

Lemma sm_server_modes : modes_ok sm_server.
Proof. intros id l Hl. revert Hl. apply (every_link (λ l, security_mode l = 0)); [apply sm_server_ok|each_slot; first [reflexivity|exact I]]. Qed.

Lemma sm_server_low : nonces_low sm_server.
Proof.
  intros id l Hl. revert Hl. apply (every_link (λ l, nonce (security_data l) < UINT32_MAX)); [apply sm_server_ok|each_slot; first [reflexivity|exact I]].
Qed.

(** ** Messages to the accessory *)

Definition pc_resource : oc_resource_t := mk_resource (0x2f :: sample_uri) 0.

Lemma sm_unsecured_rejected_witness :
  let pkt := mk_coap_packet 2 (Some sample_uri) (Some APPLICATION_VND_OCF_CBOR) [0xa0] 1 false in
  _coap_unpack_possibly_secured_payload some_garbage (registered [(pc_resource, 2)]) [pc_resource] (endpoint_of controller_id) pkt sm_server =
    Done (FORBIDDEN_4_03, false, pkt, sm_server).
Proof.
  apply (sm_unsecured_rejected some_garbage [(pc_resource, 2)] [pc_resource] pc_resource 2 sample_uri (endpoint_of controller_id)).
  - cbn. lia.
  - by constructor.
  - by constructor.
  - by repeat constructor.
  - reflexivity.
  - reflexivity.
  - discriminate.
  - discriminate.
  - reflexivity.
  - reflexivity.
  - discriminate.
  - reflexivity.
Defined.

(** A POST request to the resource with three bytes, under the nonce [n]. *)
Definition pc_request (n : Z) : coap_packet_t :=
  let message := cose_message n [1; 2; 3] (cose_tag short_tag_key n 2 sample_uri [1; 2; 3]) in
  secured_packet 2 (Some sample_uri) message (Z.of_nat (length message)).

Ltac pc_request_ok := split; [cbn; wrap|vm_compute; repeat constructor; congruence|vm_compute; repeat constructor; congruence|vm_compute; split; congruence].

Lemma pc_request_8_ok : packet_ok (pc_request 8).
Proof. pc_request_ok. Qed.

Lemma pc_request_last_ok : packet_ok (pc_request (UINT32_MAX - 3)).
Proof. pc_request_ok. Qed.

Definition sm_served : lm_world desktop :=
  match nexus_channel_authenticate_message some_garbage [] [] (endpoint_of controller_id) (pc_request 8) sm_server with
  | Done (_, _, w) => w
  | _ => sm_server
  end.
Definition pc_unpacked : coap_packet_t := sm_unpacked (pc_request 8) (mk_verified 8 7 3).

Lemma sm_authenticate_outcome_witness :
  nexus_channel_authenticate_message some_garbage [] [] (endpoint_of controller_id) (pc_request 8) sm_server =
    Done (NEXUS_CHANNEL_SM_AUTH_MESSAGE_ERROR_NONE, pc_unpacked, sm_served) ∧
  lm_ok sm_served ∧ modes_ok sm_served ∧
  auth_outcome some_garbage controller_id (pc_request 8) sm_server NEXUS_CHANNEL_SM_AUTH_MESSAGE_ERROR_NONE pc_unpacked sm_served.
Proof.
  assert (Hrun : nexus_channel_authenticate_message some_garbage [] [] (endpoint_of controller_id) (pc_request 8) sm_server =
    Done (NEXUS_CHANNEL_SM_AUTH_MESSAGE_ERROR_NONE, pc_unpacked, sm_served)) by (vm_compute; reflexivity).
  pose proof (sm_authenticate_outcome some_garbage some_garbage_ok [] [] (endpoint_of controller_id) controller_id (pc_request 8) sm_server) as Ho.
  rewrite Hrun in Ho. split; [exact Hrun|]. apply Ho.
  - apply sm_server_ok.
  - apply sm_server_modes.
  - apply pc_request_8_ok.
  - vm_compute. reflexivity.
Defined.

Lemma sm_accepted_request_witness :
  ∃ l n x,
    link_of sm_server controller_id = Some l ∧ link_became sm_server sm_served controller_id (touched n l) ∧
    message_nonce some_garbage (pc_request 8) = Some n ∧
    (nonce (security_data l) < n ∨ nonce (security_data l) = UINT32_MAX) ∧ n ≤ UINT32_MAX - 64 ∧
    (length (mac_uri (pc_request 8)) ≤ 11)%nat ∧ payload_len pc_unpacked ≤ payload_len (pc_request 8) ∧
    nexus_cose_mac0_verify_deserialize_protected_message some_garbage (ChannelSm.payload (pc_request 8)) (payload_len (pc_request 8)) = Done (inr x) ∧
    x_tag x = cose_tag (sym_key (security_data l)) n 2 (mac_uri (pc_request 8))
      (take (Z.to_nat (payload_len pc_unpacked)) (ChannelSm.payload pc_unpacked)).
Proof.
  apply (sm_accepted_request some_garbage some_garbage_ok [] [] (endpoint_of controller_id) controller_id (pc_request 8) pc_unpacked sm_server sm_served).
  - apply sm_server_ok.
  - apply sm_server_modes.
  - apply pc_request_8_ok.
  - vm_compute. reflexivity.
  - reflexivity.
  - reflexivity.
  - vm_compute. reflexivity.
Defined.

Lemma sm_served_run : sm_run some_garbage [] [] sm_server [(controller_id, 8)] sm_served.
Proof.
  apply (sm_run_message some_garbage [] [] sm_server (endpoint_of controller_id) controller_id (pc_request 8)
    NEXUS_CHANNEL_SM_AUTH_MESSAGE_ERROR_NONE pc_unpacked sm_served [] sm_served).
  - apply pc_request_8_ok.
  - vm_compute. reflexivity.
  - vm_compute. reflexivity.
  - discriminate.
  - vm_compute. discriminate.
  - apply sm_run_nil.
Qed.

Lemma sm_no_replay_witness :
  NoDup [(controller_id, 8)] ∧ lm_ok sm_served ∧ modes_ok sm_served ∧ nonces_low sm_served ∧ nonces_grow sm_server sm_served ∧
  ∀ id n, (id, n) ∈ [(controller_id, 8)] →
    ∃ l l', link_of sm_server id = Some l ∧ link_of sm_served id = Some l' ∧ nonce (security_data l) < n ≤ nonce (security_data l').
Proof.
  apply (sm_no_replay some_garbage some_garbage_ok [] [] sm_server sm_served [(controller_id, 8)]).
  - apply sm_server_ok.
  - apply sm_server_modes.
  - apply sm_server_low.
  - apply sm_served_run.
Defined.

Lemma sm_reset_replay_witness :
  ∃ w1 w2 w3,
    nexus_channel_authenticate_message some_garbage [] [] (endpoint_of controller_id) (pc_request 8) sm_server =
      Done (NEXUS_CHANNEL_SM_AUTH_MESSAGE_ERROR_NONE, pc_unpacked, w1) ∧
    nexus_channel_authenticate_message some_garbage [] [] (endpoint_of controller_id) (pc_request (UINT32_MAX - 3)) w1 =
      Done (NEXUS_CHANNEL_SM_AUTH_MESSAGE_ERROR_NONCE_APPROACHING_MAX_FORCED_RESET_REQUIRED,
            sm_unpacked (pc_request (UINT32_MAX - 3)) (mk_verified (UINT32_MAX - 3) 11 3), w2) ∧
    nexus_channel_authenticate_message some_garbage [] [] (endpoint_of controller_id) (pc_request 8) w2 =
      Done (NEXUS_CHANNEL_SM_AUTH_MESSAGE_ERROR_NONE, pc_unpacked, w3) ∧
    link_of w3 controller_id = link_of w1 controller_id.
Proof.
  apply (sm_reset_replay some_garbage some_garbage_ok [] [] (endpoint_of controller_id) controller_id (pc_request 8) (pc_request (UINT32_MAX - 3))
    (mk_verified 8 7 3) (mk_verified (UINT32_MAX - 3) 11 3) sm_server (linked_at controller_id CHANNEL_LINK_OPERATING_MODE_ACCESSORY 5)).
  - apply sm_server_ok.
  - apply pc_request_8_ok.
  - apply pc_request_last_ok.
  - vm_compute. reflexivity.
  - reflexivity.
  - reflexivity.
  - reflexivity.
  - reflexivity.
  - vm_compute. reflexivity.
  - reflexivity.
  - split; [vm_compute; split; congruence|vm_compute; reflexivity].
  - split; [vm_compute; split; congruence|vm_compute; reflexivity].
  - cbn. unfold UINT32_MAX. lia.
  - cbn. unfold UINT32_MAX. lia.
Defined.

(** ** Requests of the controller *)

Definition pc_post : client_request := mk_client_request 2 sample_uri ([1; 2; 3] ++ replicate 97 0) 3 output_98 0.

Lemma pc_post_ok n : is_u32 n → request_ok pc_post n.
Proof.
  intros Hn. split; cbn [pc_post cr_method cr_uri cr_payload cr_size cr_buffer].
  - unfold CREATED_2_01. lia.
  - split; [bytes|cbn; lia].
  - split; [vm_compute; repeat constructor; congruence|cbn; lia].
  - unfold message_size. pose proof (head_size_range n). change (head_size 3) with 1. lia.
  - split; [apply output_98_bytes|reflexivity].
Qed.

Lemma sm_request_accepted_witness :
  ∃ data len pkt' ws',
    client_send some_garbage pc_post (endpoint_of accessory_id) (sm_client 7) = Done (Some (data, len)) ∧
    nexus_channel_authenticate_message other_garbage [] [] (endpoint_of controller_id) (secured_packet 2 (Some sample_uri) data len) sm_server =
      Done (NEXUS_CHANNEL_SM_AUTH_MESSAGE_ERROR_NONE, pkt', ws') ∧
    take (Z.to_nat (payload_len pkt')) (ChannelSm.payload pkt') = [1; 2; 3] ∧
    link_became sm_server ws' controller_id (touched (7 + 1) (linked_at controller_id CHANNEL_LINK_OPERATING_MODE_ACCESSORY 5)).
Proof.
  apply (sm_request_accepted some_garbage other_garbage some_garbage_ok other_garbage_ok [] [] pc_post
    (endpoint_of accessory_id) accessory_id (endpoint_of controller_id) controller_id
    (linked_at accessory_id CHANNEL_LINK_OPERATING_MODE_CONTROLLER 7) (linked_at controller_id CHANNEL_LINK_OPERATING_MODE_ACCESSORY 5)
    (sm_client 7) sm_server).
  - apply sm_client_ok. wrap.
  - apply sm_server_ok.
  - vm_compute. reflexivity.
  - vm_compute. reflexivity.
  - vm_compute. reflexivity.
  - vm_compute. reflexivity.
  - reflexivity.
  - reflexivity.
  - cbn. unfold UINT32_MAX. lia.
  - apply pc_post_ok. cbn. wrap.
Defined.

