(* ===== verification/ChannelPaygWitnesses.v ===== *)
(** * Concrete instances of the properties of the PAYG credit resource

    The sample product's credit, as payg_state.c gives it to Nexus Channel, a
    controller with two accessories and an accessory of one controller. *)







From S2P Require Import Prelude Crc Siphash Check NvBlock Product DesktopProduct Nv KeycodeWitnesses Channel ChannelEndpoint ChannelOm.
From S2P Require Import ChannelOmApply ChannelLm ChannelLmSpec ChannelLmProcess ChannelLmTable ChannelLmCreate ChannelLmRun ChannelHs.
From S2P Require Import ChannelHsServer ChannelCore ChannelPayg ChannelPaygRing ChannelPaygSpec ChannelPaygRun ChannelPaygCycle.
From S2P Require Import ChannelUnit ChannelWitnesses.
Local Open Scope Z_scope.

#[export] Instance desktop_credit : CreditProduct desktop := {|
  nxp_channel_payg_credit_set := λ remaining, update_payg_state false remaining;
  nxp_channel_payg_credit_unlock := update_payg_state true 0
|}.

#[export] Instance desktop_credit_laws : CreditProductLaws desktop.
Proof.
  split.
  - intros p. apply u32_range.
  - intros c p Hc. destruct (update_payg_state_fields false c p) as (_ & _ & Hr & _). etransitivity; [exact (f_equal u32 Hr)|]. by rewrite !u32_small by (done || apply u32_range).
  - intros c p Hc. etransitivity; [apply update_payg_state_state|]. rewrite u32_small by done. unfold is_u32 in Hc.
    by destruct (Z.ltb_spec 0 c), (Z.eqb_spec c 0); try lia.
  - intros p. apply (update_payg_state_state true).
  - intros c p. apply update_payg_frame.
  - intros p. apply update_payg_frame.
Qed.

#[export] Instance sample_credit_stack : CreditStack desktop := {|
  oc_init_post_credit := λ _ d, (true, d);
  oc_do_post_credit := λ _ d, (true, d);
  oc_do_get_credit := λ _ d, (true, d)
|}.

#[export] Instance sample_credit_stack_laws : CreditStackLaws desktop.
Proof. by split. Qed.

Lemma sample_requests_sent : requests_sent (P := desktop).
Proof. by split. Qed.

(** ** A controller of two accessories *)

Definition other_accessory_id : nx_id := mk_nx_id 0 78.
Definition leading : lm_world desktop :=
  lm_after [lm_create accessory_id CHANNEL_LINK_OPERATING_MODE_CONTROLLER 0 peer_key; lm_process 5;
            lm_create other_accessory_id CHANNEL_LINK_OPERATING_MODE_CONTROLLER 0 peer_key; lm_process 5].
Definition leader_table : link_manager := lm_this leading.
(** It has 1000 seconds of credit. *)
Definition leader_product : desktop := nxp_channel_payg_credit_set 1000 (lm_prod leading).

Lemma create_sample_ok id mode : nx_id_ok id → event_ok (lm_create id mode 0 peer_key).
Proof. intros Hid. apply new_link_ok; [exact Hid|split; [bytes|reflexivity]]. Qed.

Lemma leading_ok : lm_ok leading.
Proof.
  apply lm_after_ok. apply Forall_cons_2; [apply create_sample_ok; split; cbn; wrap|]. apply Forall_cons_2; [exact I|].
  apply Forall_cons_2; [apply create_sample_ok; split; cbn; wrap|]. by apply Forall_cons_2.
Qed.

Lemma leader_roles : roles_ok leader_table.
Proof.
  assert (Hall : ∀ k, (k < max_links)%nat → match slot leader_table k with
    | Some l => (operating_mode l = 0 ∨ operating_mode l = 1) ∧ linked_device_id l ≠ mk_nx_id 0 0 | None => True end).
  { each_slot; first [exact I|split; [by right|discriminate]]. }
  split; intros k l Hk Hl; specialize (Hall k Hk); rewrite Hl in Hall; apply Hall.
Qed.

Lemma leader_ok : pc_table leader_table leader_product.
Proof.
  apply (pc_table_on _ (lm_prod leading)); [|apply channel_set_frame]. split; [|apply leader_roles].
  change (mk_lm_world leader_table (lm_prod leading)) with (mk_lm_world (lm_this leading) (lm_prod leading)).
  pose proof leading_ok as Hok. by destruct leading.
Qed.

Lemma leader_accessories : accessories leader_table = [accessory_id; other_accessory_id].
Proof. vm_compute. reflexivity. Qed.

(** After the start. *)
Definition leader_state : payg_credit :=
  mk_payg_credit 1000 NEXUS_CHANNEL_PAYG_CREDIT_OPERATING_MODE_LEADING 0 NXP_COMMON_PAYG_STATE_ENABLED (mk_nx_id 0 0) 2 (mk_nx_id 0 0) 25.

Lemma leader_turn_first : turn_of leader_table 0 leader_state.
Proof. left. split; [reflexivity|]. intros [Hx _]. exact (sentinel_not_linked leader_table leader_roles Hx). Qed.

Lemma leader_room T : T < 2 ^ 32 - 25 → counters_room T leader_state.
Proof. intros HT. split; cbn; lia. Qed.

Lemma payg_every_accessory_updated_witness :
  ∃ l w', payg_calls [20; 20; 20; 20; 20] (pcw leader_state false false leader_table leader_product) l w' ∧ 100 ≤ Z.of_nat (length l) * (25 + 20) + 25 ∧
    (∀ i x, l !! i = Some x → ∃ id, x = (id, credit_of leader_product) ∧
       accessories leader_table !! ((0 + i) mod length (accessories leader_table))%nat = Some id) ∧
    (Z.of_nat (length (accessories leader_table)) * (25 + 20) ≤ 100 →
       ∀ id, id ∈ accessories leader_table → (id, credit_of leader_product) ∈ l).
Proof.
  apply (payg_every_accessory_updated [20; 20; 20; 20; 20] leader_state false false leader_table leader_product 0 20).
  - reflexivity.
  - apply leader_ok.
  - rewrite leader_accessories. discriminate.
  - apply sample_requests_sent.
  - apply leader_turn_first.
  - apply leader_room. cbn. lia.
  - lia.
  - repeat constructor; lia.
Defined.

Lemma payg_process_safe_witness :
  ∃ s t' h' p', nexus_channel_res_payg_credit_process 20 (pcw leader_state false false leader_table leader_product) =
      Some (s, pcw t' false h' leader_table p') ∧
    pc_table leader_table p' ∧ remaining t' = credit_of p' ∧ mode_is leader_table (mode t') ∧
    (credit_of p' = credit_of leader_product ∨
     credit_of p' = 0 ∧ credit_of leader_product ≠ UINT32_MAX ∧
       (mode t' = FOLLOWING ∨ mode t' = INDEPENDENT ∧ mode leader_state = FOLLOWING)).
Proof. apply (payg_process_safe 20 leader_state false false leader_table leader_product). apply leader_ok. Defined.

Lemma payg_get_lists_accessories_witness :
  ∃ md t' r, mode_is leader_table md ∧
    nexus_channel_res_payg_credit_get_handler OC_IF_RW (pcw leader_state false false leader_table leader_product) =
      Some (Some r, pcw t' false false leader_table leader_product) ∧
    rep_mo r = payg_mode_code md ∧ rep_re r = credit_of leader_product ∧
    rep_di r = (if NEXUS_CHANNEL_SUPPORT_CONTROLLER_MODE && bool_decide (md = NEXUS_CHANNEL_PAYG_CREDIT_OPERATING_MODE_LEADING)
                then link_transmit <$> accessories leader_table else []) ∧
    NoDup (accessories leader_table) ∧
    (∀ x, x ∈ accessories leader_table ↔
       ∃ k l, (k < max_links)%nat ∧ slot leader_table k = Some l ∧ operating_mode l ≠ 0 ∧ linked_device_id l = x).
Proof. apply (payg_get_lists_accessories OC_IF_RW leader_state false false leader_table leader_product); [apply leader_ok|discriminate]. Defined.

(** The start of the same unit. *)
Definition blank_state : payg_credit :=
  mk_payg_credit 0 INDEPENDENT 0 NXP_COMMON_PAYG_STATE_DISABLED (mk_nx_id 0 0) 0 (mk_nx_id 0 0) 0.

Lemma payg_init_ready_witness :
  ∃ t' g' p', nexus_channel_res_payg_credit_init (pcw blank_state false false leader_table leader_product) =
      Some (tt, pcw t' g' false leader_table p') ∧
    pc_table leader_table p' ∧ nv_equiv p' leader_product ∧ mode_is leader_table (mode t') ∧ remaining t' = credit_of p' ∧
    (credit_of p' = if bool_decide (credit_of leader_product = UINT32_MAX) then UINT32_MAX
     else match mode t' with
          | FOLLOWING => 0
          | INDEPENDENT => if NEXUS_CHANNEL_SUPPORT_CONTROLLER_MODE then credit_of leader_product else 0
          | _ => credit_of leader_product
          end) ∧
    (NEXUS_CHANNEL_SUPPORT_CONTROLLER_MODE = true → turn_of leader_table 0 t' ∧ counters_ready t') ∧
    (NEXUS_CHANNEL_SUPPORT_ACCESSORY_MODE = true → follower_mode_seconds_since_credit_updated t' = 0).
Proof. apply (payg_init_ready blank_state false false leader_table leader_product). apply leader_ok. Defined.

(** ** An accessory of one controller *)

Definition following : lm_world desktop :=
  lm_after [lm_create controller_id CHANNEL_LINK_OPERATING_MODE_ACCESSORY 0 peer_key; lm_process 5].
Definition follower_table : link_manager := lm_this following.
Definition follower_product : desktop := lm_prod following.
Definition follower_state : payg_credit :=
  mk_payg_credit 0 FOLLOWING 0 NXP_COMMON_PAYG_STATE_DISABLED (mk_nx_id 0 0) 2 (mk_nx_id 0 0) 25.
Definition follower : pc_world desktop := pcw follower_state false false follower_table follower_product.

Lemma follower_ok : pc_table follower_table follower_product.
Proof.
  split.
  - change (mk_lm_world follower_table follower_product) with (mk_lm_world (lm_this following) (lm_prod following)).
    assert (Hok : lm_ok following).
    { apply lm_after_ok. apply Forall_cons_2; [apply create_sample_ok; split; cbn; wrap|]. by apply Forall_cons_2. }
    by destruct following.
  - assert (Hall : ∀ k, (k < max_links)%nat → match slot follower_table k with
      | Some l => (operating_mode l = 0 ∨ operating_mode l = 1) ∧ linked_device_id l ≠ mk_nx_id 0 0 | None => True end).
    { each_slot; first [exact I|split; [by left|discriminate]]. }
    split; intros k l Hk Hl; specialize (Hall k Hk); rewrite Hl in Hall; apply Hall.
Qed.

Lemma follower_follows : follows follower.
Proof.
  split; cbn [follower pc_lm lm_this lm_prod pc_this].
  - apply follower_ok.
  - split; [vm_compute; reflexivity|]. exists 0%nat. destruct (slot follower_table 0) as [l|] eqn:Hl; [|by vm_compute in Hl].
    exists l. split; [vm_compute; lia|]. split; [reflexivity|]. vm_compute in Hl. by injection Hl as <-.
  - cbn. lia.
Qed.

(** {"re": 500} *)
Definition credit_payload : list oc_rep_t := [mk_oc_rep PAYG_CREDIT_REMAINING_SHORT_PROP_NAME (OC_REP_INT 500)].

Lemma payg_follower_refines_cell_witness :
  ∃ w', payg_events [Posted credit_payload; Elapsed 74; Shown OC_IF_RW; Elapsed 1] follower = Some (tt, w') ∧ follows w' ∧
    cell_of w' = foldl cell_step (cell_of follower) [Posted credit_payload; Elapsed 74; Shown OC_IF_RW; Elapsed 1].
Proof.
  apply (payg_follower_refines_cell [Posted credit_payload; Elapsed 74; Shown OC_IF_RW; Elapsed 1] follower).
  - reflexivity.
  - apply follower_follows.
  - repeat constructor; cbn; lia.
Defined.

Lemma payg_credit_lasts_75_seconds_witness :
  ∃ w', payg_events (Posted credit_payload :: (Elapsed <$> [40; 34])) follower = Some (tt, w') ∧
    credit_of (lm_prod (pc_lm w')) = if foldr Z.add 0 [40; 34] <? 75 then 500 else 0.
Proof.
  apply (payg_credit_lasts_75_seconds credit_payload 500 [40; 34] follower).
  - reflexivity.
  - apply follower_follows.
  - reflexivity.
  - discriminate.
  - repeat constructor; lia.
Defined.

(** A negative number unlocks the unit. *)
Lemma payg_post_sets_credit_witness :
  ∃ t' p', nexus_channel_res_payg_credit_post_handler [mk_oc_rep PAYG_CREDIT_REMAINING_SHORT_PROP_NAME (OC_REP_INT (-1))]
      (pcw follower_state false false follower_table follower_product) =
      Some ((OC_STATUS_CHANGED, Some (UINT32_MAX, 1)), pcw t' false false follower_table p') ∧
    pc_table follower_table p' ∧ credit_of p' = UINT32_MAX ∧
    (UINT32_MAX = UINT32_MAX → nxp_common_payg_state_get_current p' = NXP_COMMON_PAYG_STATE_UNLOCKED).
Proof.
  apply (payg_post_sets_credit [mk_oc_rep PAYG_CREDIT_REMAINING_SHORT_PROP_NAME (OC_REP_INT (-1))]
    follower_state false false follower_table follower_product). apply follower_ok.
Defined.

(** The same unit without links, with 500 seconds of credit. *)
Definition unlinked : lm_world desktop := lm_after [].
Definition unlinked_table : link_manager := lm_this unlinked.
Definition unlinked_product : desktop := nxp_channel_payg_credit_set 500 (lm_prod unlinked).

Lemma unlinked_ok : pc_table unlinked_table unlinked_product.
Proof.
  apply (pc_table_on _ (lm_prod unlinked)); [|apply channel_set_frame].
  assert (Hnone : ∀ k, (k < max_links)%nat → slot unlinked_table k = None) by (each_slot; reflexivity). split.
  - change (mk_lm_world unlinked_table (lm_prod unlinked)) with (mk_lm_world (lm_this unlinked) (lm_prod unlinked)).
    assert (Hok : lm_ok unlinked) by (by apply lm_after_ok). by destruct unlinked.
  - split; intros k l Hk Hl; by rewrite Hnone in Hl.
Qed.

Lemma payg_get_hides_lost_link_witness :
  (∃ s t' h' p', nexus_channel_res_payg_credit_process 5 (pcw follower_state false false unlinked_table unlinked_product) =
     Some (s, pcw t' false h' unlinked_table p') ∧ credit_of p' = 0) ∧
  (∃ s t' h' p', (nexus_channel_res_payg_credit_get_handler OC_IF_RW;; nexus_channel_res_payg_credit_process 5)
       (pcw follower_state false false unlinked_table unlinked_product) =
     Some (s, pcw t' false h' unlinked_table p') ∧ credit_of p' = credit_of unlinked_product).
Proof.
  apply (payg_get_hides_lost_link OC_IF_RW 5 follower_state false false unlinked_table unlinked_product).
  - reflexivity.
  - apply unlinked_ok.
  - split; [vm_compute; reflexivity|]. intros (k & l & Hk & Hl & _). assert (Hnone : ∀ k, (k < max_links)%nat → slot unlinked_table k = None)
      by (each_slot; reflexivity). by rewrite Hnone in Hl.
  - reflexivity.
  - intros Hx. vm_compute in Hx. discriminate.
Defined.

(** ** An accessory that no request can be started to *)

Definition unreachable_stack : CreditStack desktop := {|
  oc_init_post_credit := λ ep d, (negb (bool_decide (nexus_oc_wrapper_oc_endpoint_to_nx_id ep = Some accessory_id)), d);
  oc_do_post_credit := λ _ d, (true, d);
  oc_do_get_credit := λ _ d, (true, d)
|}.

Lemma unreachable_stack_laws : CreditStackLaws desktop (CreditStack0 := unreachable_stack).
Proof. by split. Qed.

Lemma payg_first_failure_starves_witness :
  ∃ t' h' p', payg_process_calls (CreditStack0 := unreachable_stack) [30; 30; 30] (pcw leader_state false false leader_table leader_product) =
      Some (tt, pcw t' false h' leader_table p') ∧ nothing_sent accessory_id t' ∧ unnoticed leader_product p'.
Proof.
  apply (payg_first_failure_starves (CreditStack0 := unreachable_stack) (CreditStackLaws0 := unreachable_stack_laws) [30; 30; 30] accessory_id
    [other_accessory_id] leader_state false false leader_table leader_product).
  - reflexivity.
  - apply leader_ok.
  - apply leader_accessories.
  - split; [reflexivity|by left].
  - intros ep p Hep. vm_compute in Hep. injection Hep as <-. reflexivity.
Defined.

(** ** Concrete instances of the properties of a whole unit *)


(** An accessory that follows a controller and was given 500 seconds. *)
Definition unit_product : desktop := nxp_channel_payg_credit_set 500 follower_product.
Definition following_unit : unit_world desktop :=
  mk_unit_world (mk_channel_world om_new (mk_hs_world hs_new (mk_lm_world follower_table unit_product))) follower_state false false.

Lemma following_unit_ok : unit_ok following_unit.
Proof.
  split.
  - split; [apply hs_unit_ok|]. split.
    + change (lm_ok (mk_lm_world follower_table unit_product)). apply (pt_ok _ _ (pc_table_on _ _ _ follower_ok (channel_set_frame 500 _))).
    + vm_compute. exact I.
  - split; [apply follower_ok|]. vm_compute. discriminate.
Qed.


Lemma unit_reset_erases_credit_witness :
  (∃ w1 s w', on_channel (ch_on_lm nx_channel_accessory_delete_all_links) following_unit = Some (NX_CHANNEL_ERROR_NONE, w1) ∧
     nexus_channel_core_process true (mret 0) 100 2592000 w1 = Some (s, w') ∧ unit_ok w' ∧ mode (u_credit w') = INDEPENDENT ∧
     credit_of (u_prod w') = 0 ∧ ∀ j, (j < max_links)%nat → slot (u_table w') j = None ∧ saved (u_prod w') j = None) ∧
  ((∀ j l, (j < max_links)%nat → slot (u_table following_unit) j = Some l → timed_out 2592000 l = true) →
   ∃ s w', nexus_channel_core_process true (mret 0) 100 2592000 following_unit = Some (s, w') ∧ unit_ok w' ∧ mode (u_credit w') = INDEPENDENT ∧
     credit_of (u_prod w') = 0 ∧ ∀ j, (j < max_links)%nat → slot (u_table w') j = None ∧ saved (u_prod w') j = None).
Proof.
  apply (unit_reset_erases_credit 100 2592000 following_unit).
  - reflexivity.
  - apply following_unit_ok.
  - exact (follows_mode _ follower_follows).
  - reflexivity.
  - vm_compute. reflexivity.
  - intros Hx. vm_compute in Hx. discriminate.
Defined.

(** The same unit when it is switched on: its memory is zero. *)
Definition started_unit : unit_world desktop :=
  mk_unit_world (mk_channel_world (mk_om_stored 0 [0; 0; 0; 0])
    (mk_hs_world (mk_link_hs [] server_zero (mk_hs_stored 0 [0; 0])) (mk_lm_world lm_zero unit_product))) blank_state false false.

