(* ===== verification/CoapWitnesses.v ===== *)
(** * Concrete instances of the properties of the CoAP layer

    A request for "nx/pc" as the client writes it, states of the buffers and
    transactions that a few calls lead to, and the delivery of a controller's
    request to an accessory. *)


From S2P Require Import Prelude Check Product DesktopProduct KeycodeWitnesses Channel ChannelEndpoint ChannelLm ChannelLmSpec.
From S2P Require Import ChannelLmTable Cbor CborSafe CborEncoder CborParse ChannelCose ChannelCoseSpec ChannelCoseRun ChannelSm.
From S2P Require Import ChannelSmSpec ChannelSmRun ChannelSmAgree Coap CoapSpec CoapParse CoapRun CoapTransactions CoapSteps CoapReach.
From S2P Require Import CoapEngine CoapDelivery ChannelWitnesses ChannelSmWitnesses.
Local Open Scope Z_scope.
Local Open Scope c_scope.

(** ** Messages *)

Definition pc_view : coap_view := mk_view [[0x6e; 0x78]; [0x70; 0x63]] (Some APPLICATION_VND_OCF_CBOR) [[0x61; 0x3d; 0x31]].
Definition pc_buffer : list Z := replicate 22 0 ++ [1; 2; 3] ++ replicate 95 0.

(** The packet, made by the functions that make one. *)
Definition pc_packet : coap_packet coap_ptr :=
  default zero_packet (
    '(_, pk) ← coap_set_token (coap_udp_init_message COAP_TYPE_NON 2 4660) [77] 1;
    '(_, pk) ← coap_set_header_uri_path pk (sample_uri ++ [0]) 5;
    '(_, pk) ← coap_set_header_uri_query pk [0x3f; 0x61; 0x3d; 0x31; 0];
    '(_, pk) ← coap_set_header_content_format pk APPLICATION_VND_OCF_CBOR;
    Some (coap_set_payload pk (Some (ptr_buffer 22)) 3).2).

(** Closing goals on concrete parts of a path or a query. *)
Ltac segments :=
  unfold segs_ok, pc_view; cbn [vw_path vw_query];
  repeat match goal with
         | |- Forall _ [] => apply Forall_nil; exact I
         | |- Forall _ (_ :: _) => apply Forall_cons; split
         | |- _ ∧ _ => split
         | |- _ ≠ _ => discriminate
         | |- _ => progress cbv beta
         | |- _ => wrap
         end.

Lemma pc_writable : writable pc_packet 77 pc_view pc_buffer [1; 2; 3].
Proof.
  split; try reflexivity; try (split; [vm_compute; congruence|vm_compute; reflexivity]).
  - split; [reflexivity| |reflexivity| |reflexivity|].
    + intros _. split; [segments|]. split; [reflexivity|]. exists [0]. split; [discriminate|reflexivity].
    + intros f [= <-]. split; [reflexivity|split; [discriminate|reflexivity]].
    + intros _. split; [segments|]. split; [reflexivity|]. exists [0]. split; [discriminate|reflexivity].
  - split; [segments|]. split; [segments|]. split; [right; left; reflexivity|]. split; segments.
  - split; [vm_compute; reflexivity|]. intros _. replace (pk_payload pc_packet) with (Some (ptr_buffer 22)) by (vm_compute; reflexivity).
    split; [unfold COAP_MAX_HEADER_SIZE; lia|]. exists (replicate 95 0). reflexivity.
  - split; [bytes|vm_compute; congruence].
  - vm_compute. congruence.
Qed.

(** The message fits, and goes through whatever array it arrives in. *)
Lemma coap_message_round_trip_witness :
  ∃ (n : nat) pk' buf, coap_serialize_message (Some pc_packet) (Some pc_buffer) = Some (Z.of_nat n, Some pk', Some buf) ∧
    length buf = length pc_buffer ∧
    ∀ data, take n data = take n buf → (n < length data)%nat → bytes_ok data →
      ∃ rpk data', coap_udp_parse_message data (Z.of_nat n) = Some (COAP_NO_ERROR, rpk, data') ∧
        fixed_header rpk COAP_TYPE_NON 2 4660 1 [77] ∧ received rpk data' pc_view [1; 2; 3].
Proof. exact (coap_message_round_trip pc_packet 77 pc_view pc_buffer [1; 2; 3] pc_writable). Defined.

(** The message in an array one byte longer. *)
Definition pc_message : list Z := message_bytes COAP_TYPE_NON 77 2 4660 pc_view [1; 2; 3].
Definition pc_parsed : coap_packet_at * list Z :=
  match coap_udp_parse_message (pc_message ++ [0]) (Z.of_nat (length pc_message)) with
  | Some (_, pk, data) => (pk, data)
  | None => (zero_packet, [])
  end.

Lemma pc_message_in : message_in (pc_message ++ [0]) (length pc_message).
Proof. split; [vm_compute; repeat constructor; congruence|vm_compute; lia|vm_compute; congruence|vm_compute; lia]. Qed.

Lemma coap_parse_accepts_witness :
  ∃ opts e, decoded (pc_message ++ [0]) (length pc_message) opts e ∧ Forall acceptable opts ∧
    pk_uri_path_len pc_parsed.1 = zlen (foldl (merge slash) [] (values_of COAP_OPTION_URI_PATH opts)) ∧
    text_at pc_parsed.2 (pk_uri_path pc_parsed.1) (foldl (merge slash) [] (values_of COAP_OPTION_URI_PATH opts)) ∧
    pk_uri_query_len pc_parsed.1 = zlen (foldl (merge ampersand) [] (values_of COAP_OPTION_URI_QUERY opts)) ∧
    text_at pc_parsed.2 (pk_uri_query pc_parsed.1) (foldl (merge ampersand) [] (values_of COAP_OPTION_URI_QUERY opts)) ∧
    pk_content_format pc_parsed.1 = foldl (λ _ v, u16 (int_value v)) 0 (values_of COAP_OPTION_CONTENT_FORMAT opts) ∧
    (e = end_options ∧ coap_get_payload pc_parsed.1 = (0, None) ∨
     ∃ bs, e = end_payload bs ∧ coap_get_payload pc_parsed.1 = (zlen (take 98 bs), pk_payload pc_parsed.1) ∧
       text_at pc_parsed.2 (pk_payload pc_parsed.1) (take 98 bs)).
Proof. apply (coap_parse_accepts (pc_message ++ [0]) (length pc_message)); [apply pc_message_in|vm_compute; reflexivity]. Defined.

(** Option 82, behind no other. *)
Definition far_message : list Z := [0x51; 1; 0; 0; 9; 0xd0; 69] ++ replicate 100 0.


(** ... and the parser does leave its arrays. *)
Example far_message_undefined : coap_udp_parse_message far_message 7 = None.
Proof. vm_compute. reflexivity. Qed.

(** ** Buffers and transactions *)

(** The client callbacks are not kept in the product. *)
Definition no_cbs : Z → desktop → desktop := λ _ d, d.

Definition coap_ran {A} (r : option (A * coap_state desktop)) : coap_state desktop :=
  match r with Some (_, s) => s | None => coap_start new_unit end.

(** A request is written, sent and kept; its event is handled. *)
Definition coap_new : coap_state desktop := coap_start new_unit.
Definition coap_opened : coap_state desktop := coap_ran (coap_new_transaction 7 (endpoint_of accessory_id) coap_new).
Definition coap_written : coap_state desktop := coap_ran (write_message 0 (pc_message ++ replicate (120 - length pc_message) 0) 20 coap_opened).
Definition coap_posted : coap_state desktop := coap_ran (coap_send_transaction 10 0 true coap_written).
Definition coap_waiting : coap_state desktop := coap_ran (do_event no_cbs 10 coap_posted).

Lemma coap_waiting_reachable : reachable no_cbs coap_waiting.
Proof.
  exists new_unit. apply (rtc_l _ _ coap_opened); [|apply (rtc_l _ _ coap_written); [|apply (rtc_l _ _ coap_posted); [|apply rtc_once]]].
  - apply (step_new _ 7 (endpoint_of accessory_id) (Some 0%nat)); [reflexivity|vm_compute; reflexivity].
  - apply (step_write _ 0 (pc_message ++ replicate (120 - length pc_message) 0) 20); [left|vm_compute; reflexivity|vm_compute; reflexivity].
  - apply (step_send _ 10 0 true); [left|vm_compute; reflexivity].
  - apply (step_event _ 10). vm_compute. reflexivity.
Qed.


Lemma coap_check_empties_witness : ∃ s',
  coap_check_transactions no_cbs 12 coap_waiting = Some ((), s') ∧ cs_list s' = [] ∧
  coap_transactions_free_count s' = COAP_MAX_OPEN_TRANSACTIONS ∧
  cs_prod s' = foldl (λ p t, no_cbs (mid_of (cs_pool coap_waiting) t) p) (cs_prod coap_waiting)
    (expired (cs_pool coap_waiting) (cs_list coap_waiting)) ∧
  cs_events s' = cs_events coap_waiting ++ take (OC_PROCESS_NUMEVENTS - length (cs_events coap_waiting))
    (OUTBOUND_NETWORK_EVENT <$> messages (cs_pool coap_waiting) (unanswered (cs_pool coap_waiting) (cs_list coap_waiting))).
Proof. apply (coap_check_empties no_cbs coap_waiting 12). apply coap_waiting_reachable. Defined.

(** The request that is kept is refused for its nonce and sent again. *)
Lemma coap_resend_shares_buffer_witness : ∃ s1 s2 t' s3,
  coap_send_message 0 (replicate 120 0) 30 coap_waiting = Some ((), s1) ∧
  do_event no_cbs 11 s1 = Some ((), s2) ∧
  coap_new_transaction 8 (endpoint_of accessory_id) s2 = Some (Some t', s3) ∧
  0%nat ≠ t' ∧ 0%nat ∈ cs_list s3 ∧ t' ∈ cs_list s3 ∧
  message_of (cs_pool s3) 0 = message_of (cs_pool s3) t'.
Proof.
  apply (coap_resend_shares_buffer no_cbs coap_waiting 11 0 (replicate 120 0) 30 8 (endpoint_of accessory_id)).
  - apply coap_waiting_reachable.
  - reflexivity.
  - left.
  - reflexivity.
  - vm_compute. reflexivity.
  - vm_compute. discriminate.
  - reflexivity.
  - lia.
Defined.

(** Ten events of other processes. *)
Fixpoint coap_busy (n : nat) : coap_state desktop :=
  match n with
  | O => coap_new
  | S n => coap_ran (oc_process_post other_event (coap_busy n))
  end.

Lemma coap_busy_reachable n : reachable no_cbs (coap_busy n).
Proof.
  exists new_unit. induction n as [|n IH]; [apply rtc_refl|]. eapply rtc_r; [exact IH|].
  cbn [coap_busy]. rewrite oc_process_post_eq. destruct (_ =? _)%nat eqn:Hn; apply (step_post _ (negb (length (cs_events (coap_busy n)) =? OC_PROCESS_NUMEVENTS)%nat));
    rewrite oc_process_post_eq, Hn; reflexivity.
Qed.

Definition coap_refusing (s : coap_state desktop) : coap_state desktop :=
  coap_ran (coap_send_empty_response COAP_TYPE_NON 1 (Some [77]) 1 BAD_REQUEST_4_00 (endpoint_of accessory_id) s).
Definition coap_busy_twice : coap_state desktop := coap_refusing (coap_refusing (coap_busy 10)).

Lemma coap_full_queue_silences_witness :
  ∃ s'', coap_new_transaction 5 (endpoint_of accessory_id) coap_busy_twice = Some (None, s'').
Proof.
  apply (coap_full_queue_silences no_cbs (coap_busy 10) (coap_refusing (coap_busy 10)) coap_busy_twice coap_busy_twice
    COAP_TYPE_NON 1 77 BAD_REQUEST_4_00 (endpoint_of accessory_id)).
  - apply coap_busy_reachable.
  - vm_compute. reflexivity.
  - vm_compute. reflexivity.
  - reflexivity.
  - discriminate.
  - vm_compute. reflexivity.
  - vm_compute. reflexivity.
  - apply rtc_refl.
  - reflexivity.
Defined.

(** Two requests without a token. *)
Definition coap_answering (mid : Z) (s : coap_state desktop) : coap_state desktop :=
  coap_ran (coap_respond 10 mid (mid + 100) (endpoint_of controller_id) (coap_udp_init_message COAP_TYPE_NON 69 1) (replicate 120 0) [0] 0 s).
Definition coap_clogged : coap_state desktop := coap_answering 2 (coap_answering 1 coap_new).


(** ** Delivery *)

Definition pc_cb : oc_client_cb_t := mk_client_cb sample_uri [] true 2 4660 [77] 1.
Definition pc_segs : list (list Z) := [[0x6e; 0x78]; [0x70; 0x63]].

Lemma pc_client_ok : client_ok pc_cb 77 pc_segs [].
Proof.
  split; [reflexivity| |reflexivity| | |split; [discriminate|reflexivity]|split; discriminate].
  - unfold pc_segs. split; [discriminate|]. split; segments.
  - split; [segments|]. split; [apply Forall_nil; exact I|]. split; [discriminate|apply not_elem_of_nil].
  - split; [reflexivity|]. split; [reflexivity|wrap].
Qed.

Lemma pc_secured_ok n : is_u32 n → request_ok (secured_request pc_cb pc_buffer output_98 0 3) n.
Proof.
  intros Hn. split.
  - cbn. unfold CREATED_2_01. lia.
  - split; [cbn; bytes|cbn; lia].
  - split; [vm_compute; repeat constructor; congruence|cbn; lia].
  - unfold ChannelSmAgree.message_size. pose proof (head_size_range n). change (head_size 3) with 1. cbn [secured_request cr_size]. change (head_size 3) with 1. lia.
  - split; [apply output_98_bytes|reflexivity].
Qed.


